(* ===== verification/_CoqProject ===== *)
-Q . S2P
Prelude.v
Bits.v
Errors.v
Consts.v
OrdMap.v
Target.v
Lexer.v
LexerSpec.v
Lookup.v
Disasm.v
Tree.v
TypeCheck.v
Optimize.v
OptimizeSpec.v
Expand.v
Fine.v
ExpandSpec.v
Parser.v
ParserSpec.v
Emit.v
CodeSpec.v
Link.v
LinkSpec.v
StackSpec.v
CompileSpec.v
Backend.v
Utils.v
UtilsSpec.v
Buffer.v
MsgClasses.v
Msg.v
MsgSpec.v
MsgTotal.v
Frame.v
Deploy.v
HexFile.v
HexSpec.v
Upgrade.v
UpgradeSpec.v
Property.v
Queue.v
Node.v
NodeCode.v
NodeInfo.v
NodeSpec.v
Callbacks.v
Describe.v
Group.v
GroupOps.v
GroupLoad.v
Endpoint.v
EndpointSpec.v
Registry.v
RegistrySpec.v
UsbDevice.v
UsbTransfer.v
UsbStream.v
UsbBounds.v
Acceptor.v
SerialAcceptor.v
UsbAcceptor.v
TcpAcceptor.v
Interfaces.v
Servers.v
FwUpdate.v
UpgradeDevices.v
MsgText.v
Dumps.v
Helpers.v
Services.v
Flex.v
AppMessages.v
AppValues.v
AppFrame.v
Wireless.v
App.v
AppRequests.v
AppSpec.v
AppLocks.v
AppAnswers.v
