(* ===== verification/Prelude.v ===== *)
(** * A verification development for the Thymio Device Manager

    The Thymio Device Manager (TDM) sits between robots and applications.  It
    finds robots (USB, wireless dongles, TCP), speaks the Aseba protocol with
    them, compiles the programs that applications send, loads them on the
    robots, runs and debugs them, and upgrades the firmware.  This development
    follows the sources under src/aseba, from the bottom up.

    ** The parts and their files

    Shared.  Prelude.v: outcomes of C++ code, machine integers, loops with
    fuel, lists, tactics.  Bits.v: bytes, masks.  OrdMap.v: [std::map].
    Consts.v: common/consts.h.

    The compiler (compiler/).  A source goes through
    [tokenize] (lexer.cpp: Lexer.v, LexerSpec.v), [parseProgram] (parser.cpp,
    tree-build.cpp: Parser.v, ParserSpec.v; identifier-lookup.cpp: Lookup.v),
    [checkVectorSize], [expandAbstractNodes] and [expandVectorialNodes]
    (tree-expand.cpp: Expand.v, ExpandSpec.v), [typeCheck] (tree-typecheck.cpp:
    TypeCheck.v), [optimize] (tree-optimize.cpp: Optimize.v, OptimizeSpec.v),
    [emit] (tree-emit.cpp: Emit.v, CodeSpec.v), [fixup],
    [verifyStackCalls] and [link] (tree-emit.cpp, analysis.cpp, compiler.cpp:
    Link.v, StackSpec.v, LinkSpec.v); [compile] puts them together (Link.v,
    CompileSpec.v, Backend.v).  Tree.v is the syntax tree, Errors.v the errors
    with their texts, Target.v the description of a virtual machine, Disasm.v
    the reading of words as instructions, Dumps.v the text of a tree
    (tree-dump.cpp) and the listing of a program ([Compiler::disassemble]),
    Fine.v the computations that end well.  The
    state of the compiler is the record [Compiler] of Lookup.v.

    The protocol (common/).  Utils.v, UtilsSpec.v: UTF-8 and checksums.
    Helpers.v: times, the timer, splitting and joining, formatted numbers, byte
    order (utils.{h,cpp}, FormatableString.cpp, endian.h).
    Buffer.v, MsgClasses.v, Msg.v: the serialization buffer, one Module per
    class of message of msg.h, the registry of types and [create]; MsgSpec.v,
    MsgTotal.v: the wire format; MsgText.v: comparison, names and dumps of
    messages (msg.cpp).

    The manager (thymio-device-manager/).  Frame.v: messages on a stream
    (aseba_message_parser.h, aseba_message_writer.h).  Deploy.v: from a source,
    through compiler, messages and stream, to the memory of a robot.
    Property.v: values (property.h, aseba_property.h, utils.h); Flex.v: their
    form in the buffers of applications (property_flexbuffer.cpp).  HexFile.v, HexSpec.v,
    Upgrade.v, UpgradeSpec.v: firmware (thymio2_fwupgrade*.cpp);
    UpgradeDevices.v: the devices that an upgrade drives, over POSIX, Windows and
    libusb, and the upgrade from the endpoint to the acceptors.
    Queue.v: the outgoing queue of an endpoint; Endpoint.v, EndpointSpec.v: the
    rest of aseba_endpoint.{h,cpp}.  Node.v, NodeCode.v, NodeInfo.v: a robot
    (aseba_node.{h,cpp}), with NodeSpec.v, Callbacks.v and Describe.v.
    Group.v, GroupOps.v, GroupLoad.v: groups and the
    documents they load (group.cpp, aesl_parser.cpp).  Registry.v,
    RegistrySpec.v: the map of nodes (aseba_node_registery.cpp), and the calls
    that go through nodes, endpoints and groups and back to it.  Services.v: the
    list of endpoints and the announcement, random identifiers, texts of errors,
    lines of the log, and, in the Module Startup, the start of the process
    (main.cpp): the actions up to the loop of Boost, and the exceptions that
    stop them.

    Devices.  UsbDevice.v, UsbTransfer.v: a USB device and its asynchronous
    transfers (usbdevice.{h,cpp}, usbcontext.h), with UsbStream.v and UsbBounds.v.
    Acceptor.v: the contract of an acceptor of devices, as a class;
    UsbAcceptor.v, SerialAcceptor.v: its implementations (usbacceptor.{h,cpp},
    serialacceptor.h, serialacceptor_*.cpp); TcpAcceptor.v: robots on the
    network (aseba_tcpacceptor.{h,cpp}).  Interfaces.v: addresses
    (interfaces.cpp).  Servers.v: what becomes of a device or a connection that
    was accepted (aseba_device.{h,cpp}, usbserver.cpp, serialserver.cpp, app_server.h,
    system_sleep_manager.h).  FwUpdate.v: the download of firmware
    (fw_update_service.{h,cpp}).

    Applications.  AppMessages.v: requests and replies (flatbuffers/thymio.fbs,
    flatbuffers_messages.h, node_id.h, tdm.h); AppValues.v: maps of values in
    them.  AppFrame.v: their buffers on a stream and on a websocket
    (flatbuffers_message_reader.h, flatbuffers_message_writer.h, app_endpoint.h).
    Wireless.v: dongles that wait for pairing (wireless_configurator_service.h, .cpp).
    App.v: the state of a connection, what it sees of the manager, its queue and
    its notifications; AppRequests.v: the handshake, the requests and the
    answers (app_endpoint.h, app_token_manager.h).  AppSpec.v carries relations
    through requests; with AppLocks.v and AppAnswers.v it states what a
    connection guarantees.

    A file X.v holds the data and the operations of the code, XSpec.v what they
    guarantee, unless X.v holds both.  A definition carries the name of the
    function or class that it translates, where Rocq allows it.

    ** How code is modelled

    - A result is a [res]: [Ok], [Throw] for an exception, [Crash] for a failed
      assertion, an [abort] or an access out of range, [Undef] for signed
      overflow and the like, [NoFuel] for a bound of the model that was reached.
    - Integers are [Z] with the wrap-around of their type written out ([u16],
      [s16], [u32], [i32]); strings are lists of character codes.
    - The host is little-endian; operands that C++ leaves unordered are
      evaluated from left to right; an unordered container is a list in the
      order of insertion.
    - The compiler is a state and error monad.  A node is a monad that also
      records its effects in order (messages for the queue, posted tasks,
      signals, timers); the handler of a timer is an operation of its own, and
      [NodeSpec] ranges over all sequences of operations.  An endpoint and a
      group give lists of effects.  The registry runs on a store of nodes,
      endpoints and groups, because its calls come back to it through them.
    - The queue of an endpoint, the reader of a stream, the transfers of a USB
      device, the acceptors and the download of firmware are state machines over
      the completions of asynchronous operations.  What runs in another thread
      (the callbacks of libusb, the monitor of the network) runs as if each step
      were alone.
    - An acceptor is an instance of the class [Acceptor] (Acceptor.v): the server
      that uses it is verified against the class (Servers.v), the three
      implementations against their code.
    - An upgrade is verified against the class [Device] (Upgrade.v), whose
      instances are the ports and the USB device of UpgradeDevices.v, each over
      the calls of its system.
    - Parameters: the class of letters of the locale, the value of members that
      a constructor leaves uninitialized, random uuids and their text, what
      pugixml and Boost give for a document, the calls of the operating systems
      (the classes [Posix] and [Win32] of UpgradeDevices.v), libusb (the class
      [Libusb] of UsbDevice.v), the serial ports of Boost (the class
      [SerialPorts] of Wireless.v), flexbuffers (the class [Flexbuffers] of Flex.v),
      the devices and interfaces that the system lists, the answers of the
      server for firmware, the parser of the command line and the lock of the
      process, the effects of natives, subroutines and events on the world of a
      program (OptimizeSpec).

    ** What is shown

    - Compiler: every source ends in a program that fits the target or in a
      well-formed error (CompileSpec, LexerSpec); the optimizer keeps the
      effects of statements without [when], and values and types of
      expressions, where nothing overflows and no negative number is divided by
      a power of two (OptimizeSpec); the code reads back as the instructions of the
      program, jumps stay inside, expressions keep to their stack depth
      (CodeSpec); the stack check decides its specification (StackSpec); events
      and calls are linked to the right addresses (LinkSpec); from a tree to the
      linked program, the tables lead to the instructions of the blocks of the
      tree (Backend), and the listing shows them (Dumps); temporaries do
      not overlap (ExpandSpec); lookup and its suggestions (Lookup).
    - Compiler and protocol: a program that compiles arrives at the robot, word
      by word, at contiguous addresses (Deploy).
    - Protocol: messages and streams survive the wire (MsgSpec, Frame), any bytes
      are handled (MsgTotal), comparison decides equality (MsgText), UTF-8 and
      checksums (UtilsSpec), times and lists read back from their text (Helpers).
    - Devices: the queue is a channel that drains (Queue), the operations of a
      node neither lose nor repeat a callback that it owes (Callbacks), the lock of a node is exclusive (NodeSpec),
      descriptions complete and are exact (Describe).
    - USB and acceptors: a device is a stream of bytes to its readers (UsbStream),
      whose buffers hold under a discipline (UsbBounds); servers always listen
      and give a device to one session (Servers), devices are served in
      order (SerialAcceptor), a robot on the network has one endpoint
      (TcpAcceptor); a session starts on a device that is set up, an application
      on a connection that is allowed (Servers), networks are told apart
      (Interfaces); every request for a firmware has one outcome (FwUpdate).
    - Firmware: hex files with ascending records, pages, what the upload sends
      and its end when writes are whole (HexSpec, UpgradeSpec, UpgradeDevices); an upgrade pauses what listens to the device
      and resumes it after the last report (UpgradeDevices).
    - Network of robots: events pass between endpoints, shared variables become
      constants (EndpointSpec); pads are matched with robots, documents are
      loaded (Group, GroupLoad); a uuid leads to its robot, a robot gets its
      group back (RegistrySpec).
    - Applications: buffers survive the stream (AppFrame), maps of values the
      buffers (AppValues); the queue of a
      connection is a channel (AppSpec); a request touches only what its
      application may touch, and an application that goes leaves no lock, unless
      a node that it holds is announced as gone before (AppLocks); requests but
      for three are answered once or hand their callback on once (AppAnswers); a
      dongle that is said to be configured is, and an exception of USB passes
      through (Wireless).
    - Start: the servers open in order, applications only under the policy of
      the command line; a second instance opens nothing (Services).

    A theorem named in a comment after "observed" or stated by example records a
    behaviour of the code that its authors can hardly want.

    ** Fuel

    The lexer, the parser and the reader of hex files use the length of their
    input, which every turn consumes; the stack check 2^32 turns per
    subroutine, since every turn raises a call depth; the reader of messages the
    length of the buffer.  The termination theorems show that these bounds are
    never reached.  [Registry.set_status] bounds the depth of its calls, and
    [remove_node] its loop, which does not end for every table.  That every node
    stays registered once is shown for the calls that return; that a uuid leads
    to its node, and that a group is restored, with the fact that the call
    returns, for every fuel but zero, when no other live node has the uuid.
    An upgrade takes a turn per page and one per failure of the device.

    ** Not modelled

    - The messages that [compile] and [optimize] write to a stream for dumps:
      the manager compiles without one.
    - The semantics of a [when], which the virtual machine keeps in the code;
      the virtual machine is not among the sources.
    - Sockets, the sinks of the log: operating system and libraries.
    - HTTP, the websocket protocol, the manifest parser: libraries.
    - The layout of a flatbuffer and the generated code: a library that is not
      among the sources.
    *)
From Stdlib Require Import ZArith Lia List String Ascii.
From stdpp Require Import base list list_monad strings relations.

Local Open Scope Z_scope.

(** ** Outcomes of C++ code

    [Ok] is a normal return, [Throw e] an exception, [Crash] an [abort()], a
    failed [assert], a null dereference or an out of range access, [Undef]
    [int] arithmetic without a defined result (signed overflow, a shift count
    out of range) and [NoFuel] an exhausted bound of the model, which the
    termination theorems exclude. *)
Inductive res (E A : Type) : Type :=
| Ok (a : A)
| Throw (e : E)
| Crash
| Undef
| NoFuel.
Arguments Ok {E A} a.
Arguments Throw {E A} e.
Arguments Crash {E A}.
Arguments Undef {E A}.
Arguments NoFuel {E A}.

#[export] Instance res_ret {E} : MRet (res E) := fun A a => Ok a.
#[export] Instance res_bind {E} : MBind (res E) := fun A B f m =>
  match m with
  | Ok a => f a
  | Throw e => Throw e
  | Crash => Crash
  | Undef => Undef
  | NoFuel => NoFuel
  end.

#[export] Instance res_fmap {E} : FMap (res E) := fun A B f m => a ← m; Ok (f a).

(** The C++ [assert(b)]. *)
Definition assert_ {E} (b : bool) : res E unit := if b then Ok tt else Crash.

Definition of_option {E A} (o : option A) : res E A :=
  match o with Some a => Ok a | None => Crash end.

(** Sequencing a fallible function over a list, left to right. *)
Fixpoint mapR {E A B} (f : A -> res E B) (l : list A) : res E (list B) :=
  match l with
  | [] => Ok []
  | x :: l' => y ← f x; ys ← mapR f l'; Ok (y :: ys)
  end.

Section ResFacts.
Context {E : Type}.

Lemma bind_Ok {A B} (m : res E A) (f : A -> res E B) b :
  (m ≫= f) = Ok b <-> exists a, m = Ok a /\ f a = Ok b.
Proof.
  split.
  - destruct m; simpl; intros; try discriminate; eauto.
  - intros (a & -> & H); exact H.
Qed.

Lemma bind_Throw {A B} (m : res E A) (f : A -> res E B) e :
  (m ≫= f) = Throw e <->
  m = Throw e \/ exists a, m = Ok a /\ f a = Throw e.
Proof.
  split.
  - destruct m; simpl; intros; try discriminate; eauto.
    left; congruence.
  - intros [-> | (a & -> & H)]; [reflexivity | exact H].
Qed.

Lemma mapR_length {A B} (f : A -> res E B) l l' :
  mapR f l = Ok l' -> List.length l' = List.length l.
Proof.
  revert l'; induction l as [|x l IH]; simpl; intros l' H.
  - by inversion H.
  - apply bind_Ok in H as (y & Hy & H).
    apply bind_Ok in H as (ys & Hys & H).
    inversion H; subst; simpl; auto.
Qed.

Lemma mapR_Forall2 {A B} (f : A -> res E B) l l' :
  mapR f l = Ok l' <-> Forall2 (fun x y => f x = Ok y) l l'.
Proof.
  revert l'; induction l as [|x l IH]; simpl; intros l'; split; intros H.
  - inversion H; constructor.
  - inversion H; reflexivity.
  - apply bind_Ok in H as (y & Hy & H).
    apply bind_Ok in H as (ys & Hys & H).
    inversion H; subst; constructor; [done | by apply IH].
  - inversion H as [|? y ? ys Hy Hys]; subst; rewrite Hy; simpl.
    apply IH in Hys; rewrite Hys; reflexivity.
Qed.
End ResFacts.

(** Inversion of a successful monadic computation: the tactic turns
    [(x ← m; k x) = Ok r] into the equations of its steps. *)
Ltac inv_ok :=
  repeat match goal with
  | H : (_ ≫= _) = Ok _ |- _ => apply bind_Ok in H; destruct H as (? & ? & ?)
  | H : Ok _ = Ok _ |- _ => injection H; clear H; intros
  | H : Throw _ = Ok _ |- _ => discriminate H
  | H : Crash = Ok _ |- _ => discriminate H
  | H : Undef = Ok _ |- _ => discriminate H
  | H : NoFuel = Ok _ |- _ => discriminate H
  | H : mret _ = Ok _ |- _ => change (Ok (E:=_) _ = Ok _) in H
  end; subst.

(** ** Loops with a binary bound

    [loop p s] runs [step] at most [p] times, until it returns a result.  The
    bound is a binary number: a bound of 2^32 turns costs nothing when the loop
    ends early. *)
Section Loop.
Context {S R : Type} (step : S -> S + R).

Fixpoint loop (p : positive) (s : S) : S + R :=
  match p with
  | xH => step s
  | xO q => match loop q s with inl s' => loop q s' | inr r => inr r end
  | xI q =>
      match step s with
      | inl s' => match loop q s' with inl s'' => loop q s'' | inr r => inr r end
      | inr r => inr r
      end
  end.

(** The same with a unary bound. *)
Fixpoint run (n : nat) (s : S) : S + R :=
  match n with
  | O => inl s
  | Datatypes.S n' => match step s with inl s' => run n' s' | inr r => inr r end
  end.

Lemma run_add n m s : run (n + m) s = match run n s with inl s' => run m s' | inr r => inr r end.
Proof. revert s; induction n as [|n IH]; intros s; [done|]. simpl. by destruct (step s). Qed.

Lemma run_S n s : run (Datatypes.S n) s = match run n s with inl s' => step s' | inr r => inr r end.
Proof.
  rewrite <- Nat.add_1_r, run_add. destruct (run n s) as [s'|]; [|done]. simpl. by destruct (step s').
Qed.

Lemma loop_run p s : loop p s = run (Pos.to_nat p) s.
Proof.
  revert s; induction p as [p IH|p IH|]; intros s; cbn [loop].
  - rewrite Pos2Nat.inj_xI. replace (Datatypes.S (2 * Pos.to_nat p)) with (1 + (Pos.to_nat p + Pos.to_nat p))%nat by lia.
    rewrite run_add. cbn [run]. destruct (step s) as [s1|]; [|done]. rewrite run_add, IH.
    destruct (run (Pos.to_nat p) s1); [apply IH|done].
  - rewrite Pos2Nat.inj_xO. replace (2 * Pos.to_nat p)%nat with (Pos.to_nat p + Pos.to_nat p)%nat by lia.
    rewrite run_add, IH. destruct (run (Pos.to_nat p) s); [apply IH|done].
  - change (Pos.to_nat 1) with 1%nat. cbn [run]. by destruct (step s).
Qed.

(** A loop that ends early enough. *)
Lemma loop_run_inr p n s r : (n <= Pos.to_nat p)%nat -> run n s = inr r -> loop p s = inr r.
Proof.
  intros Hn H. rewrite loop_run. replace (Pos.to_nat p) with (n + (Pos.to_nat p - n))%nat by lia.
  by rewrite run_add, H.
Qed.

Variable I : S -> Prop.
Variable Q : R -> Prop.
Variable measure : S -> Z.
Hypothesis step_ok : forall s, I s ->
  match step s with inl s' => I s' /\ measure s' < measure s | inr r => Q r end.

Lemma loop_steps p s : I s ->
  match loop p s with inl s' => I s' /\ measure s' + Z.pos p <= measure s | inr r => Q r end.
Proof.
  revert s; induction p as [p IH|p IH|]; intros s Hs; cbn [loop].
  - pose proof (step_ok s Hs) as H1. destruct (step s) as [s1|r]; [|done]. destruct H1 as [I1 M1].
    pose proof (IH s1 I1) as H2. destruct (loop p s1) as [s2|r]; [|done]. destruct H2 as [I2 M2].
    pose proof (IH s2 I2) as H3. destruct (loop p s2) as [s3|r]; [|done]. destruct H3 as [I3 M3].
    split; [done|lia].
  - pose proof (IH s Hs) as H2. destruct (loop p s) as [s2|r]; [|done]. destruct H2 as [I2 M2].
    pose proof (IH s2 I2) as H3. destruct (loop p s2) as [s3|r]; [|done]. destruct H3 as [I3 M3].
    split; [done|lia].
  - pose proof (step_ok s Hs) as H1. destruct (step s) as [s1|r]; [|done]. destruct H1. split; [done|lia].
Qed.

(** A loop whose measure decreases and stays positive reaches a result. *)
Lemma loop_ends p s :
  (forall s, I s -> 0 <= measure s) -> I s -> measure s < Z.pos p -> exists r, loop p s = inr r /\ Q r.
Proof.
  intros Hpos Hs Hm. pose proof (loop_steps p s Hs) as H.
  destruct (loop p s) as [s'|r]; [|eauto]. destruct H as [Hs' H]. specialize (Hpos s' Hs'). lia.
Qed.

Lemma run_ends n s :
  (forall s, I s -> 0 <= measure s) -> I s -> measure s < Z.of_nat n -> exists r, run n s = inr r /\ Q r.
Proof.
  intros Hpos. revert s. induction n as [|n IH]; intros s Hs Hm; [specialize (Hpos s Hs); lia|].
  cbn [run]. pose proof (step_ok s Hs) as H. destruct (step s) as [s'|r]; [|eauto]. destruct H. apply IH; [done|lia].
Qed.
End Loop.

(** An invariant of a step relation holds in what it reaches. *)
Lemma rtc_invariant {A} (R : relation A) (I : A -> Prop) s s' :
  (forall s s', I s -> R s s' -> I s') -> I s -> rtc R s s' -> I s'.
Proof. intros Hstep Hs. induction 1; eauto. Qed.

(** ** Machine integers *)

Definition u8 (z : Z) : Z := z mod 256.
Definition u16 (z : Z) : Z := z mod 65536.
Definition u32 (z : Z) : Z := z mod 4294967296.
Definition s16 (z : Z) : Z := (z + 32768) mod 65536 - 32768.
Definition s32 (z : Z) : Z := (z + 2147483648) mod 4294967296 - 2147483648.

#[global] Arguments u8 z : simpl never.
#[global] Arguments u16 z : simpl never.
#[global] Arguments u32 z : simpl never.
#[global] Arguments s16 z : simpl never.
#[global] Arguments s32 z : simpl never.

Definition in_u8 (z : Z) : bool := (0 <=? z) && (z <? 256).
Definition in_u16 (z : Z) : bool := (0 <=? z) && (z <? 65536).
Definition in_u32 (z : Z) : bool := (0 <=? z) && (z <? 4294967296).
Definition in_s16 (z : Z) : bool := (-32768 <=? z) && (z <? 32768).
Definition in_s32 (z : Z) : bool := (-2147483648 <=? z) && (z <? 2147483648).

Lemma in_u8_iff z : in_u8 z = true <-> 0 <= z < 256.
Proof. unfold in_u8; rewrite andb_true_iff, Z.leb_le, Z.ltb_lt; lia. Qed.
Lemma in_u16_iff z : in_u16 z = true <-> 0 <= z < 65536.
Proof. unfold in_u16; rewrite andb_true_iff, Z.leb_le, Z.ltb_lt; lia. Qed.
Lemma in_u32_iff z : in_u32 z = true <-> 0 <= z < 4294967296.
Proof. unfold in_u32; rewrite andb_true_iff, Z.leb_le, Z.ltb_lt; lia. Qed.
Lemma in_s16_iff z : in_s16 z = true <-> -32768 <= z < 32768.
Proof. unfold in_s16; rewrite andb_true_iff, Z.leb_le, Z.ltb_lt; lia. Qed.
Lemma in_s32_iff z : in_s32 z = true <-> -2147483648 <= z < 2147483648.
Proof. unfold in_s32; rewrite andb_true_iff, Z.leb_le, Z.ltb_lt; lia. Qed.

Create HintDb ints.
Create Rewrite HintDb intsr.
#[export] Hint Rewrite in_u8_iff in_u16_iff in_u32_iff in_s16_iff in_s32_iff : intsr.

Lemma u8_range z : 0 <= u8 z < 256.
Proof. unfold u8; apply Z.mod_pos_bound; lia. Qed.
Lemma u16_range z : 0 <= u16 z < 65536.
Proof. unfold u16; apply Z.mod_pos_bound; lia. Qed.
Lemma u32_range z : 0 <= u32 z < 4294967296.
Proof. unfold u32; apply Z.mod_pos_bound; lia. Qed.
Lemma s16_range z : -32768 <= s16 z < 32768.
Proof. unfold s16; pose proof (Z.mod_pos_bound (z + 32768) 65536); lia. Qed.

Lemma u8_id z : 0 <= z < 256 -> u8 z = z.
Proof. apply Z.mod_small. Qed.
Lemma u16_id z : 0 <= z < 65536 -> u16 z = z.
Proof. apply Z.mod_small. Qed.
Lemma u32_id z : 0 <= z < 4294967296 -> u32 z = z.
Proof. apply Z.mod_small. Qed.
Lemma s16_id z : -32768 <= z < 32768 -> s16 z = z.
Proof. intros; unfold s16; rewrite Z.mod_small; lia. Qed.
Lemma s16_u16 z : s16 (u16 z) = s16 z.
Proof. unfold s16, u16. rewrite Zplus_mod_idemp_l. reflexivity. Qed.
Lemma u16_s16 z : u16 (s16 z) = u16 z.
Proof.
  unfold s16, u16. rewrite Zminus_mod_idemp_l. f_equal; lia.
Qed.

#[export] Hint Resolve u8_range u16_range u32_range s16_range : ints.
#[export] Hint Rewrite u8_id u16_id u32_id s16_id using lia : intsr.

(** The value of a C++ [int] computation: overflow has no meaning. *)
Definition ret_int {E} (z : Z) : res E Z := if in_s32 z then Ok z else Undef.

Lemma ret_int_Ok {E} z v : ret_int (E:=E) z = Ok v <-> v = z /\ in_s32 z = true.
Proof.
  unfold ret_int; destruct (in_s32 z); split; intros H;
    try discriminate; [inversion H; auto | destruct H as [-> _]; done | by destruct H].
Qed.

(** ** Wide strings: a [std::wstring] is the list of its code units. *)
Abbreviation wstring := (list Z).

Definition ws (s : string) : wstring :=
  List.map (fun c => Z.of_nat (nat_of_ascii c)) (list_ascii_of_string s).

(** ** Lists *)

Section Lists.
Context {A : Type}.

(** [v[i]] of a vector: out of range is undefined. *)
Definition at_ {E} (l : list A) (i : nat) : res E A := of_option (l !! i).
End Lists.

(** Case analysis on the outermost [match] or [if] of a hypothesis or goal. *)
Ltac case_match_hyp H :=
  match type of H with
  | context [match ?x with _ => _ end] => destruct x eqn:?
  end.

(** Splitting boolean conjunctions and integer tests into propositions. *)
Ltac b2p :=
  repeat match goal with
  | H : _ && _ = true |- _ => apply andb_true_iff in H; destruct H
  | H : _ || _ = false |- _ => apply orb_false_iff in H; destruct H
  | H : negb _ = true |- _ => apply negb_true_iff in H
  | H : negb _ = false |- _ => apply negb_false_iff in H
  | H : (_ =? _) = true |- _ => apply Z.eqb_eq in H
  | H : (_ =? _) = false |- _ => apply Z.eqb_neq in H
  | H : (_ <? _) = true |- _ => apply Z.ltb_lt in H
  | H : (_ <? _) = false |- _ => apply Z.ltb_ge in H
  | H : (_ <=? _) = true |- _ => apply Z.leb_le in H
  | H : (_ <=? _) = false |- _ => apply Z.leb_gt in H
  end.
