(* ===== verification/Bits.v ===== *)
(** * Bits and bytes

    Lemmas on shifts, masks and bytes that the code generator, the checksums
    and the message layer share. *)
From Stdlib Require Import ZArith Lia List.
From stdpp Require Import base list.
From S2P Require Import Prelude.

Local Open Scope Z_scope.

(** The bits of a number below [2 ^ n]. *)
Lemma testbit_small o n k : 0 <= o < 2 ^ n -> n <= k -> Z.testbit o k = false.
Proof.
  intros Ho Hk. destruct (Z.neg_nonneg_cases n) as [Hn|Hn].
  { rewrite Z.pow_neg_r in Ho by done. lia. }
  rewrite <- (Z.mod_small o (2 ^ n)) by done. apply Z.mod_pow2_bits_high. lia.
Qed.

(** A shifted number and an offset that does not reach it. *)
Lemma land_shift n x o : 0 <= n -> 0 <= o < 2 ^ n -> Z.land (Z.shiftl x n) o = 0.
Proof.
  intros Hn Ho. apply Z.bits_inj'. intros k Hk. rewrite Z.land_spec, Z.bits_0, Z.shiftl_spec by done.
  destruct (Z.lt_ge_cases k n) as [Hlt|Hge]; [by rewrite Z.testbit_neg_r by lia|].
  rewrite (testbit_small o n k) by done. apply andb_false_r.
Qed.

Lemma lxor_shift n x o : 0 <= n -> 0 <= o < 2 ^ n -> Z.lxor (Z.shiftl x n) o = x * 2 ^ n + o.
Proof.
  intros Hn Ho. rewrite <- Z.add_nocarry_lxor by (by apply land_shift). by rewrite Z.shiftl_mul_pow2.
Qed.

Lemma lor_shift n x o : 0 <= n -> 0 <= o < 2 ^ n -> Z.lor (Z.shiftl x n) o = x * 2 ^ n + o.
Proof. intros Hn Ho. rewrite <- Z.lxor_lor by (by apply land_shift). by apply lxor_shift. Qed.

Lemma land_ones_mod z n : 0 <= n -> Z.land z (Z.ones n) = z mod 2 ^ n.
Proof. apply Z.land_ones. Qed.

Lemma land_255 z : Z.land z 0xff = z mod 256.
Proof. apply (Z.land_ones z 8). lia. Qed.
Lemma land_63 z : Z.land z 0x3f = z mod 64.
Proof. apply (Z.land_ones z 6). lia. Qed.
Lemma land_31 z : Z.land z 0x1f = z mod 32.
Proof. apply (Z.land_ones z 5). lia. Qed.
Lemma land_15 z : Z.land z 0x0f = z mod 16.
Proof. apply (Z.land_ones z 4). lia. Qed.

(** A property of the numbers below a bound, checked one by one. *)
Lemma below_cases (P : Z -> bool) n :
  forallb P (seqZ 0 n) = true -> forall z, 0 <= z < n -> P z = true.
Proof. intros H z Hz. rewrite forallb_forall in H. apply H, list_elem_of_In, elem_of_seqZ. lia. Qed.

(** ** Bytes *)

Definition byte (z : Z) : Prop := 0 <= z < 256.

Lemma byte_u8 z : byte (u8 z).
Proof. apply u8_range. Qed.
#[export] Hint Resolve byte_u8 : ints.

(** ** Little-endian words *)

(** The bytes of a [uint16_t] on a little-endian host. *)
Definition u16_bytes (v : Z) : list Z := [Z.land v 0xff; Z.land (Z.shiftr v 8) 0xff].

#[global] Arguments u16_bytes v : simpl never.

(** The [uint16_t] of two bytes. *)
Definition u16_of_bytes (b0 b1 : Z) : Z := Z.lor (Z.shiftl b1 8) b0.

Lemma u16_of_bytes_eq b0 b1 : byte b0 -> u16_of_bytes b0 b1 = b1 * 256 + b0.
Proof. intros H. unfold u16_of_bytes. by apply (lor_shift 8). Qed.

Lemma u16_bytes_eq v : u16_bytes v = [v mod 256; v / 256 mod 256].
Proof. unfold u16_bytes. by rewrite !land_255, Z.shiftr_div_pow2. Qed.

Lemma u16_bytes_range v : Forall byte (u16_bytes v).
Proof. rewrite u16_bytes_eq. repeat constructor; apply Z.mod_pos_bound; lia. Qed.

Lemma u16_bytes_inv v : u16_of_bytes (Z.land v 0xff) (Z.land (Z.shiftr v 8) 0xff) = u16 v.
Proof.
  rewrite !land_255, Z.shiftr_div_pow2 by lia. change (2 ^ 8) with 256.
  rewrite u16_of_bytes_eq by (apply Z.mod_pos_bound; lia). unfold u16.
  pose proof (Z.div_mod v 256). pose proof (Z.div_mod (v / 256) 256). pose proof (Z.mod_pos_bound v 256).
  pose proof (Z.mod_pos_bound (v / 256) 256).
  apply (Z.mod_unique _ _ (v / 256 / 256)); lia.
Qed.
