(* ===== verification/Errors.v ===== *)
(** * Compilation errors

    The error codes and messages of the compiler (compiler/errors_code.h,
    compiler/errors.cpp), the source positions they carry and the positional
    argument substitution of common/utils/FormatableString. *)
From Stdlib Require Import ZArith Lia List String Ascii DecimalString HexadecimalString.
From stdpp Require Import base list strings.
From S2P Require Import Prelude.

Local Open Scope Z_scope.

(** [enum ErrorCode]. *)
Inductive ErrorCode : Type :=
| ERROR_BROKEN_TARGET
| ASEBA_ERROR_STACK_OVERFLOW
| ERROR_SCRIPT_TOO_BIG
| ERROR_VARIABLE_NOT_DEFINED
| ERROR_VARIABLE_NOT_DEFINED_GUESS
| ERROR_FUNCTION_NOT_DEFINED
| ERROR_FUNCTION_NOT_DEFINED_GUESS
| ERROR_CONSTANT_NOT_DEFINED
| ERROR_CONSTANT_NOT_DEFINED_GUESS
| ERROR_EVENT_NOT_DEFINED
| ERROR_EVENT_NOT_DEFINED_GUESS
| ERROR_EMIT_LOCAL_EVENT
| ERROR_SUBROUTINE_NOT_DEFINED
| ERROR_SUBROUTINE_NOT_DEFINED_GUESS
| ERROR_LINE
| ERROR_COL
| ERROR_UNBALANCED_COMMENT_BLOCK
| ERROR_SYNTAX
| ERROR_INVALID_IDENTIFIER
| ERROR_INVALID_HEXA_NUMBER
| ERROR_INVALID_BINARY_NUMBER
| ERROR_NUMBER_INVALID_BASE
| ERROR_IN_NUMBER
| ERROR_INTERNAL
| ERROR_EXPECTING
| ERROR_UINT12_OUT_OF_RANGE
| ERROR_UINT16_OUT_OF_RANGE
| ERROR_PINT16_OUT_OF_RANGE
| ERROR_INT16_OUT_OF_RANGE
| ERROR_PCONSTANT_OUT_OF_RANGE
| ERROR_CONSTANT_OUT_OF_RANGE
| ERROR_EXPECTING_ONE_OF
| ERROR_NOT_ENOUGH_TEMP_SPACE
| ERROR_MISPLACED_VARDEF
| ERROR_EXPECTING_IDENTIFIER
| ERROR_CONST_ALREADY_DEFINED
| ERROR_VAR_ALREADY_DEFINED
| ERROR_VAR_CONST_COLLISION
| ERROR_UNDEFINED_SIZE
| ERROR_NOT_ENOUGH_SPACE
| ERROR_EXPECTING_ASSIGNMENT
| ERROR_FOR_NULL_STEPS
| ERROR_FOR_START_HIGHER_THAN_END
| ERROR_FOR_START_LOWER_THAN_END
| ERROR_FOR_INVALID_INC_END_INDEX
| ERROR_FOR_INVALID_DEC_END_INDEX
| ERROR_EVENT_ALREADY_IMPL
| ERROR_EVENT_ARG_TOO_BIG
| ERROR_EVENT_WRONG_ARG_SIZE
| ERROR_SUBROUTINE_ALREADY_DEF
| ERROR_INDEX_EXPECTING_CONSTANT
| ERROR_INDEX_WRONG_END
| ERROR_SIZE_IS_NEGATIVE
| ERROR_SIZE_IS_NULL
| ERROR_NOT_CONST_EXPR
| ERROR_FUNCTION_HAS_NO_ARG
| ERROR_FUNCTION_NO_ENOUGH_ARG
| ERROR_FUNCTION_WRONG_ARG_SIZE
| ERROR_FUNCTION_WRONG_ARG_SIZE_TEMPLATE
| ERROR_FUNCTION_TOO_MANY_ARG
| ERROR_UNARY_ARITH_BUILD_UNEXPECTED
| ERROR_INCORRECT_LEFT_VALUE
| ERROR_ARRAY_OUT_OF_BOUND
| ERROR_ARRAY_SIZE_MISMATCH
| ERROR_IF_VECTOR_CONDITION
| ERROR_WHILE_VECTOR_CONDITION
| ERROR_ARRAY_ILLEGAL_ACCESS
| ERROR_INFINITE_LOOP
| ERROR_DIVISION_BY_ZERO
| ERROR_ABS_NOT_POSSIBLE
| ERROR_ARRAY_OUT_OF_BOUND_READ
| ERROR_ARRAY_OUT_OF_BOUND_WRITE
| ERROR_EXPECTING_TYPE
| ERROR_EXPECTING_CONDITION
| ERROR_TOKEN_END_OF_STREAM
| ERROR_TOKEN_STR_when
| ERROR_TOKEN_STR_emit
| ERROR_TOKEN_STR_hidden_emit
| ERROR_TOKEN_STR_for
| ERROR_TOKEN_STR_in
| ERROR_TOKEN_STR_step
| ERROR_TOKEN_STR_while
| ERROR_TOKEN_STR_do
| ERROR_TOKEN_STR_if
| ERROR_TOKEN_STR_then
| ERROR_TOKEN_STR_else
| ERROR_TOKEN_STR_elseif
| ERROR_TOKEN_STR_end
| ERROR_TOKEN_STR_var
| ERROR_TOKEN_STR_const
| ERROR_TOKEN_STR_call
| ERROR_TOKEN_STR_sub
| ERROR_TOKEN_STR_callsub
| ERROR_TOKEN_STR_onevent
| ERROR_TOKEN_STR_abs
| ERROR_TOKEN_STR_return
| ERROR_TOKEN_STRING_LITERAL
| ERROR_TOKEN_INT_LITERAL
| ERROR_TOKEN_PAR_OPEN
| ERROR_TOKEN_PAR_CLOSE
| ERROR_TOKEN_BRACKET_OPEN
| ERROR_TOKEN_BRACKET_CLOSE
| ERROR_TOKEN_COLON
| ERROR_TOKEN_COMMA
| ERROR_TOKEN_ASSIGN
| ERROR_TOKEN_OP_OR
| ERROR_TOKEN_OP_AND
| ERROR_TOKEN_OP_NOT
| ERROR_TOKEN_OP_BIT_OR
| ERROR_TOKEN_OP_BIT_XOR
| ERROR_TOKEN_OP_BIT_AND
| ERROR_TOKEN_OP_BIT_NOT
| ERROR_TOKEN_OP_BIT_OR_EQUAL
| ERROR_TOKEN_OP_BIT_XOR_EQUAL
| ERROR_TOKEN_OP_BIT_AND_EQUAL
| ERROR_TOKEN_OP_EQUAL
| ERROR_TOKEN_OP_NOT_EQUAL
| ERROR_TOKEN_OP_BIGGER
| ERROR_TOKEN_OP_BIGGER_EQUAL
| ERROR_TOKEN_OP_SMALLER
| ERROR_TOKEN_OP_SMALLER_EQUAL
| ERROR_TOKEN_OP_SHIFT_LEFT
| ERROR_TOKEN_OP_SHIFT_RIGHT
| ERROR_TOKEN_OP_SHIFT_LEFT_EQUAL
| ERROR_TOKEN_OP_SHIFT_RIGHT_EQUAL
| ERROR_TOKEN_OP_ADD
| ERROR_TOKEN_OP_NEG
| ERROR_TOKEN_OP_ADD_EQUAL
| ERROR_TOKEN_OP_NEG_EQUAL
| ERROR_TOKEN_OP_PLUS_PLUS
| ERROR_TOKEN_OP_MINUS_MINUS
| ERROR_TOKEN_OP_MULT
| ERROR_TOKEN_OP_DIV
| ERROR_TOKEN_OP_MOD
| ERROR_TOKEN_OP_MULT_EQUAL
| ERROR_TOKEN_OP_DIV_EQUAL
| ERROR_TOKEN_OP_MOD_EQUAL
| ERROR_TOKEN_UNKNOWN
| ERROR_UNKNOWN_ERROR.

(** The English messages, in the order of [ErrorMessages::ErrorMessages()]. *)
Definition error_map (e : ErrorCode) : string :=
  match e with
  | ERROR_BROKEN_TARGET => "Broken target description: not enough room for internal variables"
  | ASEBA_ERROR_STACK_OVERFLOW => "Execution stack will overflow, check for any recursive subroutine call and cut long mathematical expressions"
  | ERROR_SCRIPT_TOO_BIG => "Script too big for target bytecode size"
  | ERROR_VARIABLE_NOT_DEFINED => "%0 is not a defined variable"
  | ERROR_VARIABLE_NOT_DEFINED_GUESS => "%0 is not a defined variable, do you mean %1?"
  | ERROR_FUNCTION_NOT_DEFINED => "Target does not provide function %0"
  | ERROR_FUNCTION_NOT_DEFINED_GUESS => "Target does not provide function %0, do you mean %1?"
  | ERROR_CONSTANT_NOT_DEFINED => "Constant %0 not defined"
  | ERROR_CONSTANT_NOT_DEFINED_GUESS => "Constant %0 not defined, do you mean %1?"
  | ERROR_EVENT_NOT_DEFINED => "%0 is not a known event"
  | ERROR_EVENT_NOT_DEFINED_GUESS => "%0 is not a known event, do you mean %1?"
  | ERROR_EMIT_LOCAL_EVENT => "%0 is a local event that you cannot emit"
  | ERROR_SUBROUTINE_NOT_DEFINED => "Subroutine %0 does not exists"
  | ERROR_SUBROUTINE_NOT_DEFINED_GUESS => "Subroutine %0 does not exists, do you mean %1?"
  | ERROR_LINE => "Line: "
  | ERROR_COL => " Col: "
  | ERROR_UNBALANCED_COMMENT_BLOCK => "Unbalanced comment block"
  | ERROR_SYNTAX => "Syntax error"
  | ERROR_INVALID_IDENTIFIER => "Identifiers must begin with _ or an alphanumeric character, found unicode character 0x%0 instead"
  | ERROR_INVALID_HEXA_NUMBER => "Error in hexadecimal number"
  | ERROR_INVALID_BINARY_NUMBER => "Error in binary number"
  | ERROR_NUMBER_INVALID_BASE => "Error in number, invalid base"
  | ERROR_IN_NUMBER => "Error in number"
  | ERROR_INTERNAL => "Internal compiler error, please report a bug containing the source which triggered this error"
  | ERROR_EXPECTING => "Expecting %0, found %1 instead"
  | ERROR_UINT12_OUT_OF_RANGE => "Integer value %0 out of [0;4095] range"
  | ERROR_UINT16_OUT_OF_RANGE => "Integer value %0 out of [0;65535] range"
  | ERROR_PINT16_OUT_OF_RANGE => "Integer value %0 out of [0;32767] range"
  | ERROR_INT16_OUT_OF_RANGE => "Integer value %0 out of [-32768;32767] range"
  | ERROR_PCONSTANT_OUT_OF_RANGE => "Constant %0 has value %1, which is out of [0;32767] range"
  | ERROR_CONSTANT_OUT_OF_RANGE => "Constant %0 has value %1, which is out of [-32768;32767] range"
  | ERROR_EXPECTING_ONE_OF => "Expecting one of %0; but found %1 instead"
  | ERROR_NOT_ENOUGH_TEMP_SPACE => "Not enough free space to allocate this tempory variable"
  | ERROR_MISPLACED_VARDEF => "Variable definition is allowed only at the beginning of the program before any statement"
  | ERROR_EXPECTING_IDENTIFIER => "Expecting identifier, found %0"
  | ERROR_CONST_ALREADY_DEFINED => "Constant %0 is already defined"
  | ERROR_VAR_ALREADY_DEFINED => "Variable %0 is already defined"
  | ERROR_VAR_CONST_COLLISION => "Variable %0 has the same name as a constant"
  | ERROR_UNDEFINED_SIZE => "Array %0 has undefined size"
  | ERROR_NOT_ENOUGH_SPACE => "No more free variable space"
  | ERROR_EXPECTING_ASSIGNMENT => "Expecting assignment, found %0 instead"
  | ERROR_FOR_NULL_STEPS => "Null steps are not allowed in for loops"
  | ERROR_FOR_START_HIGHER_THAN_END => "Start index must be lower than end index in increasing loops"
  | ERROR_FOR_START_LOWER_THAN_END => "Start index must be higher than end index in decreasing loops"
  | ERROR_FOR_INVALID_INC_END_INDEX => "End index cannot be 32767 in increasing loops"
  | ERROR_FOR_INVALID_DEC_END_INDEX => "End index cannot be -32768 in decreasing loops"
  | ERROR_EVENT_ALREADY_IMPL => "Event %0 is already implemented"
  | ERROR_EVENT_ARG_TOO_BIG => "Event %0 needs an array of size %1 or smaller, but one of size %2 is passed"
  | ERROR_EVENT_WRONG_ARG_SIZE => "Event %0 needs an array of size %1, but one of size %2 is passed"
  | ERROR_SUBROUTINE_ALREADY_DEF => "Subroutine %0 is already defined"
  | ERROR_INDEX_EXPECTING_CONSTANT => "Expecting a constant expression as a second index"
  | ERROR_INDEX_WRONG_END => "End of range index must be lower or equal to start of range index"
  | ERROR_SIZE_IS_NEGATIVE => "Array size: result is negative (%0)"
  | ERROR_SIZE_IS_NULL => "Array size: result is null"
  | ERROR_NOT_CONST_EXPR => "Not a valid constant expression"
  | ERROR_FUNCTION_HAS_NO_ARG => "Function %0 requires no argument, some are used"
  | ERROR_FUNCTION_NO_ENOUGH_ARG => "Function %0 requires %1 arguments, only %2 are provided"
  | ERROR_FUNCTION_WRONG_ARG_SIZE => "Argument %0 (%1) of function %2 is of size %3, function definition demands size %4"
  | ERROR_FUNCTION_WRONG_ARG_SIZE_TEMPLATE => "Argument %0 (%1) of function %2 is of size %3, while a previous instance of the template parameter was of size %4"
  | ERROR_FUNCTION_TOO_MANY_ARG => "Function %0 requires %1 arguments, more are used"
  | ERROR_UNARY_ARITH_BUILD_UNEXPECTED => "Unexpected token when building UnaryArithmeticAssignmentNode"
  | ERROR_INCORRECT_LEFT_VALUE => "Expecting an assignment to a variable, found %0 instead"
  | ERROR_ARRAY_OUT_OF_BOUND => "Access of array %0 out of bounds: accessing index %1 while array is of size %2"
  | ERROR_ARRAY_SIZE_MISMATCH => "Size error! Size of array1 = %0 ; size of array2 = %1"
  | ERROR_IF_VECTOR_CONDITION => "Condition of the if cannot be a vector"
  | ERROR_WHILE_VECTOR_CONDITION => "Condition of the while cannot be a vector"
  | ERROR_ARRAY_ILLEGAL_ACCESS => "MemoryVectorNode::getVectorSize: illegal operation"
  | ERROR_INFINITE_LOOP => "Infinite loops not allowed"
  | ERROR_DIVISION_BY_ZERO => "Division by zero"
  | ERROR_ABS_NOT_POSSIBLE => "-32768 has no positive correspondance in 16 bits integers"
  | ERROR_ARRAY_OUT_OF_BOUND_READ => "Out of bound static array access. Trying to read index %0 of array %1 of size %2"
  | ERROR_ARRAY_OUT_OF_BOUND_WRITE => "Out of bound static array access. Trying to write index %0 of array %1 of size %2"
  | ERROR_EXPECTING_TYPE => "Expecting %0 type, found %1 type instead"
  | ERROR_EXPECTING_CONDITION => "Expecting a condition, found a %0 instead"
  | ERROR_TOKEN_END_OF_STREAM => "end of stream"
  | ERROR_TOKEN_STR_when => "when keyword"
  | ERROR_TOKEN_STR_emit => "emit keyword"
  | ERROR_TOKEN_STR_hidden_emit => "_emit keyword"
  | ERROR_TOKEN_STR_for => "for keyword"
  | ERROR_TOKEN_STR_in => "in keyword"
  | ERROR_TOKEN_STR_step => "step keyword"
  | ERROR_TOKEN_STR_while => "while keyword"
  | ERROR_TOKEN_STR_do => "do keyword"
  | ERROR_TOKEN_STR_if => "if keyword"
  | ERROR_TOKEN_STR_then => "then keyword"
  | ERROR_TOKEN_STR_else => "else keyword"
  | ERROR_TOKEN_STR_elseif => "elseif keyword"
  | ERROR_TOKEN_STR_end => "end keyword"
  | ERROR_TOKEN_STR_var => "var keyword"
  | ERROR_TOKEN_STR_const => "const keyword"
  | ERROR_TOKEN_STR_call => "call keyword"
  | ERROR_TOKEN_STR_sub => "sub keyword"
  | ERROR_TOKEN_STR_callsub => "callsub keyword"
  | ERROR_TOKEN_STR_onevent => "onevent keyword"
  | ERROR_TOKEN_STR_abs => "abs keyword"
  | ERROR_TOKEN_STR_return => "return keyword"
  | ERROR_TOKEN_STRING_LITERAL => "string"
  | ERROR_TOKEN_INT_LITERAL => "integer"
  | ERROR_TOKEN_PAR_OPEN => "( (open parenthesis)"
  | ERROR_TOKEN_PAR_CLOSE => ") (close parenthesis)"
  | ERROR_TOKEN_BRACKET_OPEN => "[ (open bracket)"
  | ERROR_TOKEN_BRACKET_CLOSE => "] (close bracket)"
  | ERROR_TOKEN_COLON => ": (colon)"
  | ERROR_TOKEN_COMMA => ", (comma)"
  | ERROR_TOKEN_ASSIGN => "= (assignation)"
  | ERROR_TOKEN_OP_OR => "or"
  | ERROR_TOKEN_OP_AND => "and"
  | ERROR_TOKEN_OP_NOT => "not"
  | ERROR_TOKEN_OP_BIT_OR => "binary or"
  | ERROR_TOKEN_OP_BIT_XOR => "binary xor"
  | ERROR_TOKEN_OP_BIT_AND => "binary and"
  | ERROR_TOKEN_OP_BIT_NOT => "binary not"
  | ERROR_TOKEN_OP_BIT_OR_EQUAL => "binary or equal"
  | ERROR_TOKEN_OP_BIT_XOR_EQUAL => "binary xor equal"
  | ERROR_TOKEN_OP_BIT_AND_EQUAL => "binary and equal"
  | ERROR_TOKEN_OP_EQUAL => "== (equal to)"
  | ERROR_TOKEN_OP_NOT_EQUAL => "!= (not equal to)"
  | ERROR_TOKEN_OP_BIGGER => "> (bigger than)"
  | ERROR_TOKEN_OP_BIGGER_EQUAL => ">= (bigger or equal than)"
  | ERROR_TOKEN_OP_SMALLER => "< (smaller than)"
  | ERROR_TOKEN_OP_SMALLER_EQUAL => "<= (smaller or equal than)"
  | ERROR_TOKEN_OP_SHIFT_LEFT => "<< (shift left)"
  | ERROR_TOKEN_OP_SHIFT_RIGHT => ">> (shift right)"
  | ERROR_TOKEN_OP_SHIFT_LEFT_EQUAL => "<<= (shift left equal)"
  | ERROR_TOKEN_OP_SHIFT_RIGHT_EQUAL => ">>= (shift right equal)"
  | ERROR_TOKEN_OP_ADD => "+ (plus)"
  | ERROR_TOKEN_OP_NEG => "- (minus)"
  | ERROR_TOKEN_OP_ADD_EQUAL => "+= (plus equal)"
  | ERROR_TOKEN_OP_NEG_EQUAL => "-= (minus equal)"
  | ERROR_TOKEN_OP_PLUS_PLUS => "++ (plus plus)"
  | ERROR_TOKEN_OP_MINUS_MINUS => "-- (minus minus)"
  | ERROR_TOKEN_OP_MULT => "* (time)"
  | ERROR_TOKEN_OP_DIV => "/ (divide)"
  | ERROR_TOKEN_OP_MOD => "modulo"
  | ERROR_TOKEN_OP_MULT_EQUAL => "*= (time equal)"
  | ERROR_TOKEN_OP_DIV_EQUAL => "/= (divide equal)"
  | ERROR_TOKEN_OP_MOD_EQUAL => "modulo equal"
  | ERROR_TOKEN_UNKNOWN => "unknown"
  | ERROR_UNKNOWN_ERROR => "Unknown error"
  end.
Abbreviation percent := 37.

(** ** Positional formatting (FormatableString.cpp) *)

(** Decimal and lower-case hexadecimal rendering, as [operator<<] gives. *)
Definition dec_str (z : Z) : wstring := ws (DecimalString.NilZero.string_of_int (Z.to_int z)).
Definition hex_str (z : Z) : wstring := ws (HexadecimalString.NilZero.string_of_int (Z.to_hex_int z)).

(** [s.find(pat, 0)]. *)
Fixpoint find_sub (pat s : wstring) : option nat :=
  if decide (take (List.length pat) s = pat) then Some O else
  match s with
  | [] => None
  | _ :: s' => S <$> find_sub pat s'
  end.

Record FormatableString : Type := mkFS { fs_text : wstring; argLevel : Z }.

(** [s.replace(pos, len, replacement)]. *)
Definition replace_at (s : wstring) (pos len : nat) (replacement : wstring) : wstring :=
  take pos s ++ replacement ++ drop (pos + len) s.

Definition placeholder (level : Z) : wstring := percent :: dec_str level.

Definition proceedReplace {E} (f : FormatableString) (replacement : wstring) : res E FormatableString :=
  match find_sub (placeholder (argLevel f)) (fs_text f) with
  | None => Crash  (* assert(pos != S::npos) *)
  | Some pos =>
      Ok (mkFS (replace_at (fs_text f) pos (List.length (placeholder (argLevel f))) replacement)
               (argLevel f + 1))
  end.

(** ** Source positions (compiler.h) *)

Record SourcePos : Type := mkPos {
  character : Z; row : Z; column : Z; valid : bool }.

(** [SourcePos(character, row, column)]; the fields are [unsigned]. *)
Definition SourcePos_at (ch r c : Z) : SourcePos := mkPos (u32 (ch - 1)) r (u32 (c - 1)) true.
Definition SourcePos_none : SourcePos := mkPos 0 0 0 false.

(** ** [TranslatableError]: a position, a code and the arguments given to
    its [arg] calls, already rendered to text. *)
Record error : Type := mkError {
  err_pos : SourcePos; err_code : ErrorCode; err_args : list wstring }.

Definition throw {A} (pos : SourcePos) (code : ErrorCode) (args : list wstring) : res error A :=
  Throw (mkError pos code args).

(** [TranslatableError(pos, code).arg(a0).arg(a1)...toError().message]. *)
Definition err_message {E} (e : error) : res E wstring :=
  f ← foldl (fun r a => f ← r; proceedReplace f a)
        (Ok (mkFS (ws (error_map (err_code e))) 0)) (err_args e);
  Ok (fs_text f).

(** The number of placeholders of a message. *)
Definition count_percent (s : wstring) : nat := List.length (List.filter (Z.eqb percent) s).
Definition arity (c : ErrorCode) : nat := count_percent (ws (error_map c)).

(** The contract every throw site has to meet. *)
Definition error_wf (e : error) : Prop := List.length (err_args e) = arity (err_code e).

(** A [res] computation throws only well-formed errors. *)
Definition throws_wf {A} (r : res error A) : Prop :=
  match r with Throw e => error_wf e | _ => True end.

Lemma throws_wf_bind {A B} (m : res error A) (f : A -> res error B) :
  throws_wf m -> (forall a, m = Ok a -> throws_wf (f a)) -> throws_wf (m ≫= f).
Proof. destruct m; simpl; auto. Qed.

Lemma throws_wf_mapR {A B} (f : A -> res error B) l :
  Forall (fun a => throws_wf (f a)) l -> throws_wf (mapR f l).
Proof.
  induction 1 as [|a l Ha Hl IH]; simpl; [exact I|].
  apply throws_wf_bind; [done|intros b _].
  apply throws_wf_bind; [done|intros; exact I].
Qed.

(** ** Formatting succeeds on well-formed errors *)

Lemma find_sub_spec pat s i :
  find_sub pat s = Some i -> exists a b, s = a ++ pat ++ b /\ List.length a = i.
Proof.
  revert i; induction s as [|c s IH]; intros i; simpl.
  - case_decide as Hd; [|discriminate]. intros [= <-].
    exists [], []. rewrite take_nil in Hd. subst pat. done.
  - case_decide as Hd.
    + intros [= <-]. exists [], (drop (List.length pat) (c :: s)).
      split; [|done]. simpl. rewrite <- Hd at 1. by rewrite take_drop.
    + intros H. apply fmap_Some in H as (j & Hj & ->).
      apply IH in Hj as (a & b & -> & <-). exists (c :: a), b. done.
Qed.

Lemma find_sub_exists pat a b : exists i, find_sub pat (a ++ pat ++ b) = Some i.
Proof.
  induction a as [|c a IH]; simpl.
  - exists O. destruct (pat ++ b) eqn:E; simpl;
      rewrite <- E, take_app_length; by rewrite decide_True.
  - case_decide; [eauto|]. destruct IH as [i ->]. simpl; eauto.
Qed.

Lemma replace_at_mid a p b r :
  replace_at (a ++ p ++ b) (List.length a) (List.length p) r = a ++ r ++ b.
Proof.
  unfold replace_at. rewrite take_app_length, <- drop_drop, drop_app_length,
    drop_app_length. done.
Qed.

(** [occurs k s]: the placeholder [%k] is somewhere in [s]. *)
Definition occurs (k : Z) (s : wstring) : Prop := exists a b, s = a ++ placeholder k ++ b.

Lemma placeholder_digit k : 0 <= k < 10 -> placeholder k = [percent; 48 + k].
Proof.
  intros H.
  assert (k = 0 \/ k = 1 \/ k = 2 \/ k = 3 \/ k = 4 \/ k = 5 \/ k = 6 \/ k = 7 \/ k = 8 \/ k = 9)
    as Hk by lia.
  repeat (destruct Hk as [-> | Hk]; [reflexivity|]). subst; reflexivity.
Qed.

(** An occurrence of [%k] survives the replacement of an occurrence of [%j]. *)
Lemma occurs_replace j k a b r :
  0 <= j < 10 -> 0 <= k < 10 -> j <> k ->
  occurs k (a ++ placeholder j ++ b) -> occurs k (a ++ r ++ b).
Proof.
  intros Hj Hk Hne (c & d & He).
  rewrite !placeholder_digit in * by done.
  unfold occurs. rewrite placeholder_digit by done.
  revert c d He. induction a as [|x a IH]; intros c d He.
  - destruct c as [|y [|z c]]; simpl in He.
    + injection He as E1 _; lia.
    + injection He as E1 E2 _; lia.
    + injection He as <- <- ->. exists (r ++ c), d. by rewrite <- app_assoc.
  - destruct c as [|y c]; simpl in He.
    + destruct a as [|x' a]; simpl in He.
      * injection He as E1 E2 _; lia.
      * injection He as -> -> <-. exists [], (a ++ r ++ b). done.
    + injection He as -> He'. destruct (IH c d He') as (c' & d' & Hr).
      exists (y :: c'), d'. simpl. by rewrite Hr.
Qed.

Lemma count_percent_app s t : count_percent (s ++ t) = (count_percent s + count_percent t)%nat.
Proof. unfold count_percent. by rewrite List.filter_app, length_app. Qed.

(** The invariant of the substitution loop: the placeholders [lvl .. n-1]
    are still there and nothing else of the text is a percent sign. *)
Definition fs_inv (n : nat) (f : FormatableString) : Prop :=
  0 <= argLevel f <= Z.of_nat n /\
  (forall k, argLevel f <= k < Z.of_nat n -> occurs k (fs_text f)) /\
  Z.of_nat (count_percent (fs_text f)) = Z.of_nat n - argLevel f.

Lemma proceedReplace_inv {E} n f r :
  (n <= 10)%nat -> fs_inv n f -> argLevel f < Z.of_nat n -> count_percent r = O ->
  exists f', proceedReplace (E:=E) f r = Ok f' /\ fs_inv n f' /\
             argLevel f' = argLevel f + 1.
Proof.
  intros Hn (Hl & Hocc & Hc) Hlt Hr.
  destruct (Hocc (argLevel f)) as (a & b & Ha); [lia|].
  unfold proceedReplace.
  destruct (find_sub_exists (placeholder (argLevel f)) a b) as [i Hi].
  rewrite <- Ha in Hi. rewrite Hi.
  apply find_sub_spec in Hi as (c & d & Hs & <-).
  eexists; split; [reflexivity|]. split; [|reflexivity].
  rewrite Hs in *. rewrite replace_at_mid.
  rewrite !count_percent_app in Hc. rewrite placeholder_digit in Hc by lia.
  change (count_percent [percent; 48 + argLevel f]) with
    (S (count_percent [48 + argLevel f])) in Hc.
  assert (count_percent [48 + argLevel f] = O) as H0.
  { unfold count_percent. cbn [List.filter].
    destruct (Z.eqb_spec percent (48 + argLevel f)); [lia|done]. }
  rewrite H0 in Hc.
  repeat split; simpl; try lia.
  - intros k Hk. eapply occurs_replace with (j := argLevel f); try lia.
    apply Hocc; lia.
  - rewrite !count_percent_app, Hr; simpl; lia.
Qed.

Lemma proceedReplace_all {E} n args f :
  (n <= 10)%nat -> fs_inv n f -> argLevel f + Z.of_nat (List.length args) <= Z.of_nat n ->
  Forall (fun a => count_percent a = O) args ->
  exists f', foldl (fun r a => f ← r; proceedReplace f a) (Ok (E:=E) f) args = Ok f' /\
             fs_inv n f' /\ argLevel f' = argLevel f + Z.of_nat (List.length args).
Proof.
  intros Hn Hf Hlen HF. revert f Hf Hlen.
  induction HF as [|a args Ha HF IH]; intros f Hf Hlen; simpl in *.
  - exists f. repeat split; try apply Hf; lia.
  - destruct (proceedReplace_inv (E:=E) n f a) as (f' & -> & Hf' & Hl'); [lia|done|lia|done|].
    destruct (IH f') as (f'' & H'' & Hi & Hl''); [done|lia|].
    exists f''. repeat split; try apply Hi; [done|lia].
Qed.

Lemma error_map_inv c : fs_inv (arity c) (mkFS (ws (error_map c)) 0).
Proof.
  split; [simpl; lia|]. split; [|unfold arity; simpl; lia].
  assert (forallb (fun k => match find_sub (placeholder k) (ws (error_map c)) with
                            | Some _ => true | None => false end)
            (Z.of_nat <$> seq 0 (arity c)) = true) as H
    by (destruct c; vm_compute; reflexivity).
  intros k Hk; simpl in *. rewrite forallb_forall in H.
  specialize (H k). destruct (find_sub _ _) as [i|] eqn:Hi.
  - apply find_sub_spec in Hi as (a & b & -> & _). exists a, b; done.
  - discriminate H. apply list_elem_of_In, list_elem_of_fmap.
    exists (Z.to_nat k). split; [lia|]. apply elem_of_seq; lia.
Qed.

Lemma arity_le c : (arity c <= 10)%nat.
Proof. destruct c; vm_compute; lia. Qed.

(** a well-formed compilation error always renders: the [assert] of
    [proceedReplace] never fails and no placeholder is left in the text. *)
Theorem err_message_total (e : error) :
  error_wf e -> Forall (fun a => count_percent a = O) (err_args e) ->
  exists m, err_message (E:=Empty_set) e = Ok m /\ count_percent m = O.
Proof.
  intros Hwf HF. unfold err_message.
  destruct (proceedReplace_all (E:=Empty_set) (arity (err_code e)) (err_args e)
              (mkFS (ws (error_map (err_code e))) 0)) as (f & -> & Hf & Hl).
  - apply arity_le.
  - apply error_map_inv.
  - simpl. rewrite Hwf. lia.
  - done.
  - exists (fs_text f). split; [done|].
    destruct Hf as (_ & _ & Hc). rewrite Hl in Hc. simpl in Hc. rewrite Hwf in Hc. lia.
Qed.

Lemma err_message_total_witness :
  exists m, err_message (E:=Empty_set) (mkError SourcePos_none ERROR_ARRAY_SIZE_MISMATCH [dec_str 3; dec_str 40]) = Ok m
    /\ count_percent m = O.
Proof. apply err_message_total; [reflexivity|]. repeat constructor. Defined.
