(* ===== verification/Consts.v ===== *)
(** * Protocol and bytecode constants

    The identifiers shared by the compiler, the message layer and the device
    manager (aseba/common/consts.h). *)
From Stdlib Require Import ZArith Lia List.
From stdpp Require Import base list.
From S2P Require Import Prelude.

Local Open Scope Z_scope.

Definition ASEBA_PROTOCOL_VERSION : Z := 9.
Definition ASEBA_MIN_TARGET_PROTOCOL_VERSION : Z := 4.
Definition ASEBA_MAX_TARGET_PROTOCOL_VERSION : Z := 100.

(** ** Bytecode identifiers, the upper nibble of an instruction word *)

Inductive AsebaBytecodeId : Type :=
| ASEBA_BYTECODE_STOP
| ASEBA_BYTECODE_SMALL_IMMEDIATE
| ASEBA_BYTECODE_LARGE_IMMEDIATE
| ASEBA_BYTECODE_LOAD
| ASEBA_BYTECODE_STORE
| ASEBA_BYTECODE_LOAD_INDIRECT
| ASEBA_BYTECODE_STORE_INDIRECT
| ASEBA_BYTECODE_UNARY_ARITHMETIC
| ASEBA_BYTECODE_BINARY_ARITHMETIC
| ASEBA_BYTECODE_JUMP
| ASEBA_BYTECODE_CONDITIONAL_BRANCH
| ASEBA_BYTECODE_EMIT
| ASEBA_BYTECODE_NATIVE_CALL
| ASEBA_BYTECODE_SUB_CALL
| ASEBA_BYTECODE_SUB_RET.

Definition bytecode_id (b : AsebaBytecodeId) : Z :=
  match b with
  | ASEBA_BYTECODE_STOP => 0x0
  | ASEBA_BYTECODE_SMALL_IMMEDIATE => 0x1
  | ASEBA_BYTECODE_LARGE_IMMEDIATE => 0x2
  | ASEBA_BYTECODE_LOAD => 0x3
  | ASEBA_BYTECODE_STORE => 0x4
  | ASEBA_BYTECODE_LOAD_INDIRECT => 0x5
  | ASEBA_BYTECODE_STORE_INDIRECT => 0x6
  | ASEBA_BYTECODE_UNARY_ARITHMETIC => 0x7
  | ASEBA_BYTECODE_BINARY_ARITHMETIC => 0x8
  | ASEBA_BYTECODE_JUMP => 0x9
  | ASEBA_BYTECODE_CONDITIONAL_BRANCH => 0xA
  | ASEBA_BYTECODE_EMIT => 0xB
  | ASEBA_BYTECODE_NATIVE_CALL => 0xC
  | ASEBA_BYTECODE_SUB_CALL => 0xD
  | ASEBA_BYTECODE_SUB_RET => 0xE
  end.

(** [switch(bytecode >> 12)]: [None] is the [default] case. *)
Definition bytecode_of_id (z : Z) : option AsebaBytecodeId :=
  match z with
  | 0x0 => Some ASEBA_BYTECODE_STOP
  | 0x1 => Some ASEBA_BYTECODE_SMALL_IMMEDIATE
  | 0x2 => Some ASEBA_BYTECODE_LARGE_IMMEDIATE
  | 0x3 => Some ASEBA_BYTECODE_LOAD
  | 0x4 => Some ASEBA_BYTECODE_STORE
  | 0x5 => Some ASEBA_BYTECODE_LOAD_INDIRECT
  | 0x6 => Some ASEBA_BYTECODE_STORE_INDIRECT
  | 0x7 => Some ASEBA_BYTECODE_UNARY_ARITHMETIC
  | 0x8 => Some ASEBA_BYTECODE_BINARY_ARITHMETIC
  | 0x9 => Some ASEBA_BYTECODE_JUMP
  | 0xA => Some ASEBA_BYTECODE_CONDITIONAL_BRANCH
  | 0xB => Some ASEBA_BYTECODE_EMIT
  | 0xC => Some ASEBA_BYTECODE_NATIVE_CALL
  | 0xD => Some ASEBA_BYTECODE_SUB_CALL
  | 0xE => Some ASEBA_BYTECODE_SUB_RET
  | _ => None
  end.

(** [#define AsebaBytecodeFromId(id) ((id) << 12)], an [int]. *)
Definition AsebaBytecodeFromId (b : AsebaBytecodeId) : Z := Z.shiftl (bytecode_id b) 12.

(** ** Operators *)

Inductive AsebaBinaryOperator : Type :=
| ASEBA_OP_SHIFT_LEFT | ASEBA_OP_SHIFT_RIGHT | ASEBA_OP_ADD | ASEBA_OP_SUB
| ASEBA_OP_MULT | ASEBA_OP_DIV | ASEBA_OP_MOD
| ASEBA_OP_BIT_OR | ASEBA_OP_BIT_XOR | ASEBA_OP_BIT_AND
| ASEBA_OP_EQUAL | ASEBA_OP_NOT_EQUAL | ASEBA_OP_BIGGER_THAN
| ASEBA_OP_BIGGER_EQUAL_THAN | ASEBA_OP_SMALLER_THAN | ASEBA_OP_SMALLER_EQUAL_THAN
| ASEBA_OP_OR | ASEBA_OP_AND.

#[export] Instance AsebaBinaryOperator_eq_dec : EqDecision AsebaBinaryOperator.
Proof. solve_decision. Defined.

Definition binop_code (op : AsebaBinaryOperator) : Z :=
  match op with
  | ASEBA_OP_SHIFT_LEFT => 0 | ASEBA_OP_SHIFT_RIGHT => 1
  | ASEBA_OP_ADD => 2 | ASEBA_OP_SUB => 3
  | ASEBA_OP_MULT => 4 | ASEBA_OP_DIV => 5 | ASEBA_OP_MOD => 6
  | ASEBA_OP_BIT_OR => 7 | ASEBA_OP_BIT_XOR => 8 | ASEBA_OP_BIT_AND => 9
  | ASEBA_OP_EQUAL => 10 | ASEBA_OP_NOT_EQUAL => 11
  | ASEBA_OP_BIGGER_THAN => 12 | ASEBA_OP_BIGGER_EQUAL_THAN => 13
  | ASEBA_OP_SMALLER_THAN => 14 | ASEBA_OP_SMALLER_EQUAL_THAN => 15
  | ASEBA_OP_OR => 16 | ASEBA_OP_AND => 17
  end.

Definition all_binops : list AsebaBinaryOperator :=
  [ASEBA_OP_SHIFT_LEFT; ASEBA_OP_SHIFT_RIGHT; ASEBA_OP_ADD; ASEBA_OP_SUB;
   ASEBA_OP_MULT; ASEBA_OP_DIV; ASEBA_OP_MOD;
   ASEBA_OP_BIT_OR; ASEBA_OP_BIT_XOR; ASEBA_OP_BIT_AND;
   ASEBA_OP_EQUAL; ASEBA_OP_NOT_EQUAL; ASEBA_OP_BIGGER_THAN;
   ASEBA_OP_BIGGER_EQUAL_THAN; ASEBA_OP_SMALLER_THAN; ASEBA_OP_SMALLER_EQUAL_THAN;
   ASEBA_OP_OR; ASEBA_OP_AND].

(** [static_cast<AsebaBinaryOperator>(z)]: a value outside the enumeration is
    not an operator. *)
Definition binop_of_code (z : Z) : option AsebaBinaryOperator :=
  List.find (fun op => binop_code op =? z) all_binops.

Inductive AsebaUnaryOperator : Type :=
| ASEBA_UNARY_OP_SUB | ASEBA_UNARY_OP_ABS | ASEBA_UNARY_OP_BIT_NOT | ASEBA_UNARY_OP_NOT.

#[export] Instance AsebaUnaryOperator_eq_dec : EqDecision AsebaUnaryOperator.
Proof. solve_decision. Defined.

Definition unop_code (op : AsebaUnaryOperator) : Z :=
  match op with
  | ASEBA_UNARY_OP_SUB => 0 | ASEBA_UNARY_OP_ABS => 1
  | ASEBA_UNARY_OP_BIT_NOT => 2 | ASEBA_UNARY_OP_NOT => 3
  end.

Definition ASEBA_IF_IS_WHEN_BIT : Z := 8.

(** [enum AsebaSpecialEventId]. *)
Definition ASEBA_EVENT_INIT : Z := 0xFFFF.
Definition ASEBA_EVENT_LOCAL_EVENTS_START : Z := 0xFFFE.

Lemma bytecode_of_id_inv b : bytecode_of_id (bytecode_id b) = Some b.
Proof. destruct b; reflexivity. Qed.

Lemma bytecode_of_id_Some z b : bytecode_of_id z = Some b -> z = bytecode_id b.
Proof.
  unfold bytecode_of_id, bytecode_id; intros H.
  repeat case_match; simplify_eq; reflexivity.
Qed.

Lemma binop_of_code_inv op : binop_of_code (binop_code op) = Some op.
Proof. destruct op; reflexivity. Qed.

(** ** Message identifiers ([AsebaSystemMessagesTypes]) *)

Definition ASEBA_MESSAGE_BOOTLOADER_RESET : Z := 0x8000.
Definition ASEBA_MESSAGE_BOOTLOADER_READ_PAGE : Z := 0x8001.
Definition ASEBA_MESSAGE_BOOTLOADER_WRITE_PAGE : Z := 0x8002.
Definition ASEBA_MESSAGE_BOOTLOADER_PAGE_DATA_WRITE : Z := 0x8003.
Definition ASEBA_MESSAGE_BOOTLOADER_DESCRIPTION : Z := 0x8004.
Definition ASEBA_MESSAGE_BOOTLOADER_PAGE_DATA_READ : Z := 0x8005.
Definition ASEBA_MESSAGE_BOOTLOADER_ACK : Z := 0x8006.
Definition ASEBA_MESSAGE_DESCRIPTION : Z := 0x9000.
Definition ASEBA_MESSAGE_NAMED_VARIABLE_DESCRIPTION : Z := 0x9001.
Definition ASEBA_MESSAGE_LOCAL_EVENT_DESCRIPTION : Z := 0x9002.
Definition ASEBA_MESSAGE_NATIVE_FUNCTION_DESCRIPTION : Z := 0x9003.
Definition ASEBA_MESSAGE_DISCONNECTED : Z := 0x9004.
Definition ASEBA_MESSAGE_VARIABLES : Z := 0x9005.
Definition ASEBA_MESSAGE_ARRAY_ACCESS_OUT_OF_BOUNDS : Z := 0x9006.
Definition ASEBA_MESSAGE_DIVISION_BY_ZERO : Z := 0x9007.
Definition ASEBA_MESSAGE_EVENT_EXECUTION_KILLED : Z := 0x9008.
Definition ASEBA_MESSAGE_NODE_SPECIFIC_ERROR : Z := 0x9009.
Definition ASEBA_MESSAGE_EXECUTION_STATE_CHANGED : Z := 0x900A.
Definition ASEBA_MESSAGE_BREAKPOINT_SET_RESULT : Z := 0x900B.
Definition ASEBA_MESSAGE_NODE_PRESENT : Z := 0x900C.
Definition ASEBA_MESSAGE_DEVICE_INFO : Z := 0x900D.
Definition ASEBA_MESSAGE_CHANGED_VARIABLES : Z := 0x900E.
Definition ASEBA_MESSAGE_GET_DESCRIPTION : Z := 0xA000.
Definition ASEBA_MESSAGE_SET_BYTECODE : Z := 0xA001.
Definition ASEBA_MESSAGE_RESET : Z := 0xA002.
Definition ASEBA_MESSAGE_RUN : Z := 0xA003.
Definition ASEBA_MESSAGE_PAUSE : Z := 0xA004.
Definition ASEBA_MESSAGE_STEP : Z := 0xA005.
Definition ASEBA_MESSAGE_STOP : Z := 0xA006.
Definition ASEBA_MESSAGE_GET_EXECUTION_STATE : Z := 0xA007.
Definition ASEBA_MESSAGE_BREAKPOINT_SET : Z := 0xA008.
Definition ASEBA_MESSAGE_BREAKPOINT_CLEAR : Z := 0xA009.
Definition ASEBA_MESSAGE_BREAKPOINT_CLEAR_ALL : Z := 0xA00A.
Definition ASEBA_MESSAGE_GET_VARIABLES : Z := 0xA00B.
Definition ASEBA_MESSAGE_SET_VARIABLES : Z := 0xA00C.
Definition ASEBA_MESSAGE_WRITE_BYTECODE : Z := 0xA00D.
Definition ASEBA_MESSAGE_REBOOT : Z := 0xA00E.
Definition ASEBA_MESSAGE_SUSPEND_TO_RAM : Z := 0xA00F.
Definition ASEBA_MESSAGE_GET_NODE_DESCRIPTION : Z := 0xA010.
Definition ASEBA_MESSAGE_LIST_NODES : Z := 0xA011.
Definition ASEBA_MESSAGE_GET_DEVICE_INFO : Z := 0xA012.
Definition ASEBA_MESSAGE_SET_DEVICE_INFO : Z := 0xA013.
Definition ASEBA_MESSAGE_GET_CHANGED_VARIABLES : Z := 0xA014.
Definition ASEBA_MESSAGE_GET_NODE_DESCRIPTION_FRAGMENT : Z := 0xA015.
Definition ASEBA_MESSAGE_INVALID : Z := 0xFFFF.

Definition ASEBA_DEST_DEBUG : Z := 0.
Definition ASEBA_DEST_INVALID : Z := 0xFFFF.

Definition DEVICE_INFO_UUID : Z := 1.
Definition DEVICE_INFO_NAME : Z := 2.
Definition DEVICE_INFO_THYMIO2_RF_SETTINGS : Z := 3.

(** [enum AsebaLimits] and the packet sizes derived from it. *)
Definition ASEBA_MAX_EVENT_ARG_COUNT : Z := 258.
Definition ASEBA_MAX_EVENT_ARG_SIZE : Z := ASEBA_MAX_EVENT_ARG_COUNT * 2.
Definition ASEBA_MAX_INNER_PACKET_SIZE : Z := ASEBA_MAX_EVENT_ARG_SIZE + 2.
Definition ASEBA_MAX_OUTER_PACKET_SIZE : Z := ASEBA_MAX_INNER_PACKET_SIZE + 4.

(** [AsebaExecutionStates]. *)
Definition ASEBA_VM_EVENT_ACTIVE_MASK : Z := 0x1.
Definition ASEBA_VM_STEP_BY_STEP_MASK : Z := 0x2.
