(* ===== verification/OrdMap.v ===== *)
(** * Ordered maps

    [std::map]: an association list kept in the order of its keys, which is
    the order of iteration.  The interface of a key type is the class
    [OrderedKey]; its instances are the integers and the wide strings, compared
    lexicographically. *)
From Stdlib Require Import ZArith Lia List Sorted.
From stdpp Require Import sorting base list.
From S2P Require Import Prelude.

Local Open Scope Z_scope.

Class OrderedKey (K : Type) : Type := {
  key_lt : K -> K -> bool;
  key_eqb : K -> K -> bool;
  key_eqb_eq : forall a b, key_eqb a b = true <-> a = b;
  key_lt_irrefl : forall a, key_lt a a = false;
  key_lt_trans : forall a b c, key_lt a b = true -> key_lt b c = true -> key_lt a c = true;
  key_total : forall a b, key_lt a b = false -> key_eqb a b = false -> key_lt b a = true
}.

Lemma Z_key_total a b : (a <? b) = false -> (a =? b) = false -> (b <? a) = true.
Proof. intros; b2p. apply Z.ltb_lt. lia. Qed.

Lemma Z_key_trans a b c : (a <? b) = true -> (b <? c) = true -> (a <? c) = true.
Proof. intros; b2p. apply Z.ltb_lt. lia. Qed.

#[export] Instance Z_key : OrderedKey Z := {|
  key_lt := Z.ltb; key_eqb := Z.eqb; key_eqb_eq := Z.eqb_eq; key_lt_irrefl := Z.ltb_irrefl;
  key_lt_trans := Z_key_trans; key_total := Z_key_total |}.

(** [std::wstring::operator<]. *)
Fixpoint ws_lt (a b : wstring) : bool :=
  match a, b with
  | [], [] => false
  | [], _ :: _ => true
  | _ :: _, [] => false
  | x :: a', y :: b' => if x <? y then true else if x =? y then ws_lt a' b' else false
  end.

Fixpoint ws_eqb (a b : wstring) : bool :=
  match a, b with
  | [], [] => true
  | x :: a', y :: b' => (x =? y) && ws_eqb a' b'
  | _, _ => false
  end.

Lemma ws_eqb_eq a b : ws_eqb a b = true <-> a = b.
Proof.
  revert b; induction a as [|x a IH]; intros [|y b]; simpl; try done.
  rewrite andb_true_iff, Z.eqb_eq, IH. split; [intros [-> ->]|intros [= -> ->]]; done.
Qed.

Lemma ws_lt_irrefl a : ws_lt a a = false.
Proof. induction a as [|x a IH]; simpl; [done|]. by rewrite Z.ltb_irrefl, Z.eqb_refl. Qed.

Lemma ws_lt_trans a b c : ws_lt a b = true -> ws_lt b c = true -> ws_lt a c = true.
Proof.
  revert b c; induction a as [|x a IH]; intros [|y b] [|z c]; simpl; try done.
  destruct (Z.ltb_spec x y), (Z.ltb_spec y z), (Z.ltb_spec x z), (Z.eqb_spec x y), (Z.eqb_spec y z),
    (Z.eqb_spec x z); try done; try lia. apply IH.
Qed.

Lemma ws_total a b : ws_lt a b = false -> ws_eqb a b = false -> ws_lt b a = true.
Proof.
  revert b; induction a as [|x a IH]; intros [|y b]; simpl; try done.
  destruct (Z.ltb_spec x y), (Z.ltb_spec y x), (Z.eqb_spec x y), (Z.eqb_spec y x); try done; try lia.
  apply IH.
Qed.

#[export] Instance ws_key : OrderedKey (list Z) := {|
  key_lt := ws_lt; key_eqb := ws_eqb; key_eqb_eq := ws_eqb_eq; key_lt_irrefl := ws_lt_irrefl;
  key_lt_trans := ws_lt_trans; key_total := ws_total |}.

Definition omap (K V : Type) : Type := list (K * V).

Section OrdMap.
Context {K : Type} `{OrderedKey K} {V : Type}.
Implicit Types m : omap K V.

(** [find]. *)
Fixpoint om_find (k : K) (m : omap K V) : option V :=
  match m with
  | [] => None
  | (k', v) :: m' => if key_eqb k k' then Some v else om_find k m'
  end.

(** [m[k] = v]. *)
Fixpoint om_set (k : K) (v : V) (m : omap K V) : omap K V :=
  match m with
  | [] => [(k, v)]
  | (k', v') :: m' =>
      if key_eqb k k' then (k, v) :: m'
      else if key_lt k k' then (k, v) :: m
      else (k', v') :: om_set k v m'
  end.

(** [erase(k)]. *)
Fixpoint om_erase (k : K) (m : omap K V) : omap K V :=
  match m with
  | [] => []
  | (k', v) :: m' => if key_eqb k k' then m' else (k', v) :: om_erase k m'
  end.

(** [insert({k, v})] and [emplace]: no effect when the key is present. *)
Definition om_insert (k : K) (v : V) (m : omap K V) : omap K V :=
  match om_find k m with Some _ => m | None => om_set k v m end.

(** The keys increase. *)
Fixpoint om_sorted (m : omap K V) : Prop :=
  match m with
  | [] => True
  | (k, _) :: m' => Forall (fun kv => key_lt k (fst kv) = true) m' /\ om_sorted m'
  end.

Lemma key_eqb_refl k : key_eqb k k = true.
Proof. by apply key_eqb_eq. Qed.

Lemma key_eqb_neq a b : a <> b -> key_eqb a b = false.
Proof. intros Hne. destruct (key_eqb a b) eqn:E; [|done]. apply key_eqb_eq in E. done. Qed.

Lemma om_find_set k v m : om_find k (om_set k v m) = Some v.
Proof.
  induction m as [|[k' v'] m IH]; simpl; [by rewrite key_eqb_refl|].
  destruct (key_eqb k k') eqn:E; simpl; [by rewrite key_eqb_refl|].
  destruct (key_lt k k'); simpl; [by rewrite key_eqb_refl|]. by rewrite E.
Qed.

Lemma om_find_set_ne k k' v m : k <> k' -> om_find k' (om_set k v m) = om_find k' m.
Proof.
  intros Hne. induction m as [|[k2 v2] m IH]; simpl.
  - by rewrite key_eqb_neq.
  - destruct (key_eqb k k2) eqn:E; simpl.
    + apply key_eqb_eq in E; subst. by rewrite key_eqb_neq.
    + destruct (key_lt k k2); simpl; [by rewrite key_eqb_neq|]. by rewrite IH.
Qed.

Lemma om_set_Forall (P : K * V -> Prop) k v m : P (k, v) -> Forall P m -> Forall P (om_set k v m).
Proof.
  intros Hk Hm. induction Hm as [|[k' v'] m Hp Hm IH]; simpl; [by repeat constructor|].
  destruct (key_eqb k k'), (key_lt k k'); repeat constructor; done.
Qed.

Lemma om_set_sorted k v m : om_sorted m -> om_sorted (om_set k v m).
Proof.
  induction m as [|[k' v'] m IH]; simpl; [by intros; split|]. intros [Hf Hs].
  destruct (key_eqb k k') eqn:E; simpl.
  - apply key_eqb_eq in E; subst. done.
  - destruct (key_lt k k') eqn:El; simpl; split; auto.
    + constructor; [done|]. eapply Forall_impl; [exact Hf|]. intros [k2 v2]; simpl.
      by apply key_lt_trans.
    + apply om_set_Forall; [|done]. simpl. by apply key_total.
Qed.

Lemma om_find_notin k m : Forall (fun kv => fst kv <> k) m -> om_find k m = None.
Proof.
  induction 1 as [|[k' v'] m Hk Hm IH]; simpl in *; [done|]. by rewrite key_eqb_neq.
Qed.

Lemma om_find_lt k m :
  Forall (fun kv => key_lt k (fst kv) = true) m -> om_find k m = None.
Proof.
  intros Hall. apply om_find_notin. eapply Forall_impl; [exact Hall|].
  intros [k' v]; simpl. intros Hlt ->. by rewrite key_lt_irrefl in Hlt.
Qed.

(** Overwriting an entry keeps the keys. *)
Lemma om_set_keys k v w m :
  om_sorted m -> om_find k m = Some w -> List.map fst (om_set k v m) = List.map fst m.
Proof.
  induction m as [|[k' x] m IH]; simpl; [done|]. intros [Hf Hs].
  destruct (key_eqb k k') eqn:E; simpl.
  - intros _. apply key_eqb_eq in E. by subst.
  - intros Hfind. destruct (key_lt k k') eqn:El; simpl; [|by rewrite IH].
    exfalso. assert (om_find k m = None) as Hn; [|congruence].
    apply om_find_lt. eapply Forall_impl; [exact Hf|]. intros [k2 v2]; simpl. by apply key_lt_trans.
Qed.

Lemma om_find_keys k m : is_Some (om_find k m) <-> k ∈ List.map fst m.
Proof.
  induction m as [|[k' x] m IH]; simpl.
  - split; [by intros [? ?]|]. intros Hin. by apply elem_of_nil in Hin.
  - rewrite elem_of_cons. destruct (key_eqb k k') eqn:E.
    + apply key_eqb_eq in E; subst. split; [by left|eauto].
    + rewrite IH. split; [by right|]. intros [->|]; [|done]. by rewrite key_eqb_refl in E.
Qed.

Lemma om_find_Forall (P : V -> Prop) k v m : Forall (fun kv => P (snd kv)) m -> om_find k m = Some v -> P v.
Proof.
  induction 1 as [|[k' v'] m Hp _ IH]; simpl; [done|]. destruct (key_eqb k k'); [by intros [= <-]|done].
Qed.

Lemma om_find_elem k v m : om_sorted m -> om_find k m = Some v <-> (k, v) ∈ m.
Proof.
  induction m as [|[k' v'] m IH]; simpl.
  - intros _. split; [done|]. intros Hin. by apply elem_of_nil in Hin.
  - intros [Hf Hs]. rewrite elem_of_cons. destruct (key_eqb k k') eqn:E.
    + apply key_eqb_eq in E; subst k'. split; [intros [= ->]; by left|].
      intros [[= ->]|Hin]; [done|]. rewrite Forall_forall in Hf.
      specialize (Hf _ Hin). simpl in Hf. by rewrite key_lt_irrefl in Hf.
    + rewrite IH by done. split; [by right|]. intros [[= -> ->]|]; [|done].
      by rewrite key_eqb_refl in E.
Qed.

(** *** Maps and the orders of their entries *)
Definition before (a b : K * V) : Prop := key_lt (fst a) (fst b) = true.

Lemma before_strongly (m : omap K V) : om_sorted m -> StronglySorted before m.
Proof. induction m as [|[k v] m IH]; [constructor|]. intros [Hk Hm]. constructor. exact (IH Hm). exact Hk. Qed.

#[local] Instance before_antisymm : AntiSymm (=) before.
Proof. intros a b H1 H2. pose proof (key_lt_trans _ _ _ H1 H2) as H3. by rewrite key_lt_irrefl in H3. Qed.

(** Two ordered maps with the same entries are the same. *)
Lemma om_unique (m m' : omap K V) : om_sorted m -> om_sorted m' -> m ≡ₚ m' -> m = m'.
Proof. intros H1%before_strongly H2%before_strongly Hp. exact (StronglySorted_unique before m m' H1 H2 Hp). Qed.

Lemma om_set_fresh k v (m : omap K V) : k ∉ List.map fst m -> om_set k v m ≡ₚ (k, v) :: m.
Proof.
  induction m as [|[k' v'] m IH]; [done|]. cbn [List.map fst om_set]. intros [Hn Hm]%not_elem_of_cons.
  rewrite key_eqb_neq by done. destruct (key_lt k k'); [done|]. rewrite IH by done. apply Permutation_swap.
Qed.

Lemma foldl_om_set (l acc : omap K V) : NoDup (List.map fst (l ++ acc)) -> om_sorted acc ->
  om_sorted (foldl (fun m e => om_set (fst e) (snd e) m) acc l) /\ foldl (fun m e => om_set (fst e) (snd e) m) acc l ≡ₚ l ++ acc.
Proof.
  revert acc. induction l as [|[k v] l IH]; intros acc Hd Hs; [done|]. cbn [app List.map fst foldl snd] in *.
  apply NoDup_cons in Hd as [Hn Hd]. rewrite map_app in Hn. apply not_elem_of_app in Hn as [Hl Ha].
  pose proof (om_set_fresh k v acc Ha) as Hp. destruct (IH (om_set k v acc)) as [H1 H2].
  - assert (List.map fst (l ++ om_set k v acc) ≡ₚ k :: List.map fst (l ++ acc)) as ->; [|by constructor; [rewrite map_app; apply not_elem_of_app|]].
    rewrite !map_app, Hp. cbn. by rewrite Permutation_middle.
  - by apply om_set_sorted.
  - split; [done|]. rewrite H2, Hp. by rewrite Permutation_middle.
Qed.

Lemma om_sorted_nodup (m : omap K V) : om_sorted m -> NoDup (List.map fst m).
Proof.
  induction m as [|[k v] m IH]; [constructor|]. intros [Hk Hm]. cbn. constructor; [|by apply IH].
  intros (e & <- & Hin)%list_elem_of_In%in_map_iff. apply list_elem_of_In in Hin. rewrite Forall_forall in Hk.
  specialize (Hk e Hin). by rewrite key_lt_irrefl in Hk.
Qed.

(** Entered in any order, the entries make the map. *)
Lemma om_of_entries (m l : omap K V) : om_sorted m -> l ≡ₚ m -> foldl (fun m e => om_set (fst e) (snd e) m) [] l = m.
Proof.
  intros Hm Hp. destruct (foldl_om_set l []) as [H1 H2]; [|done|].
  - rewrite app_nil_r, Hp. by apply om_sorted_nodup.
  - rewrite app_nil_r in H2. apply om_unique; [done|done|by rewrite H2].
Qed.
End OrdMap.
