(* ===== verification/Target.v ===== *)
(** * The description of a target virtual machine

    common/msg/TargetDescription.{h,cpp}: the record and the two maps the
    compiler is initialized from. *)
From Stdlib Require Import ZArith Lia List String.
From stdpp Require Import base list.
From S2P Require Import Prelude OrdMap.

Local Open Scope Z_scope.

Record NamedVariable : Type := mkNamedVariable { var_name : wstring; var_size : Z }.
Record LocalEvent : Type := mkLocalEvent { event_name : wstring; event_description : wstring }.
Record NativeFunctionParameter : Type := mkParameter { param_name : wstring; param_size : Z }.
Record NativeFunction : Type := mkNativeFunction {
  func_name : wstring; func_description : wstring; parameters : list NativeFunctionParameter }.

Record TargetDescription : Type := mkTarget {
  target_name : wstring;
  protocolVersion : Z;
  bytecodeSize : Z;
  variablesSize : Z;
  stackSize : Z;
  namedVariables : list NamedVariable;
  localEvents : list LocalEvent;
  nativeFunctions : list NativeFunction
}.

(** [VariablesMap]: name => (position, size). *)
Definition VariablesMap : Type := omap wstring (Z * Z).
Definition FunctionsMap : Type := omap wstring Z.

(** [TargetDescription::getVariablesMap]: the variables in order, from address 0. *)
Definition add_variable (acc : VariablesMap * Z) (v : NamedVariable) : VariablesMap * Z :=
  let '(variablesMap, freeVariableIndex) := acc in
  (om_set (var_name v) (freeVariableIndex, var_size v) variablesMap,
   u32 (freeVariableIndex + var_size v)).

Definition getVariablesMap (t : TargetDescription) : VariablesMap * Z :=
  foldl add_variable ([], 0) (namedVariables t).

(** [TargetDescription::getFunctionsMap]. *)
Definition index_names (start : Z) (step : Z) (names : list wstring) (m : omap wstring Z) : omap wstring Z :=
  fst (foldl (fun '(m, i) name => (om_set name i m, u32 (i + step))) (m, start) names).

Definition getFunctionsMap (t : TargetDescription) : FunctionsMap :=
  index_names 0 1 (List.map func_name (nativeFunctions t)) [].

(** ** Layout of the variables *)

(** The variables of a list occupy consecutive addresses from [base]. *)
Fixpoint sizes_sum (l : list NamedVariable) : Z :=
  match l with [] => 0 | v :: l' => var_size v + sizes_sum l' end.

Lemma sizes_sum_nonneg l : Forall (fun v => 0 <= var_size v) l -> 0 <= sizes_sum l.
Proof. induction 1; simpl; lia. Qed.

Lemma add_variable_fold l m base :
  Forall (fun v => 0 <= var_size v) l -> 0 <= base -> base + sizes_sum l < 4294967296 ->
  snd (foldl add_variable (m, base) l) = base + sizes_sum l.
Proof.
  intros Hl; revert m base; induction Hl as [|v l Hv Hl IH]; intros m base Hb Hs; simpl in *; [lia|].
  pose proof (sizes_sum_nonneg l Hl). rewrite u32_id by lia. rewrite IH by lia. lia.
Qed.

Lemma add_variable_keep l m base name :
  Forall (fun v => var_name v <> name) l ->
  om_find name (fst (foldl add_variable (m, base) l)) = om_find name m.
Proof.
  intros Hl; revert m base; induction Hl as [|v l Hv Hl IH]; intros m base; simpl; [done|].
  rewrite IH. by apply om_find_set_ne.
Qed.

Lemma foldl_add_variable_find l m base i v :
  NoDup (List.map var_name l) -> Forall (fun v => 0 <= var_size v) l ->
  0 <= base -> base + sizes_sum l < 4294967296 -> l !! i = Some v ->
  om_find (var_name v) (fst (foldl add_variable (m, base) l)) = Some (base + sizes_sum (take i l), var_size v).
Proof.
  revert m base i; induction l as [|w l IH]; intros m base i Hnd Hl Hb Hs Hi; [done|].
  simpl in Hnd. apply NoDup_cons in Hnd as [Hnin Hnd]. apply Forall_cons in Hl as [Hw Hl].
  simpl in Hs. pose proof (sizes_sum_nonneg l Hl).
  destruct i as [|i]; simpl in Hi.
  - injection Hi as ->. simpl. rewrite add_variable_keep.
    + rewrite om_find_set. do 2 f_equal; lia.
    + apply Forall_forall. intros x Hx Heq. apply Hnin. rewrite <- Heq.
      apply list_elem_of_In, in_map, list_elem_of_In. done.
  - simpl. rewrite u32_id by lia. rewrite (IH _ _ i) by (done || lia). do 2 f_equal; lia.
Qed.

(** [getVariablesMap] lays the named variables of a target out in order,
    without gap or overlap: the variable number [i] of the description is found
    under its name at the sum of the sizes before it, and the first free index
    is the sum of all sizes. *)
Theorem getVariablesMap_layout t :
  NoDup (List.map var_name (namedVariables t)) ->
  Forall (fun v => 0 <= var_size v) (namedVariables t) ->
  sizes_sum (namedVariables t) < 4294967296 ->
  snd (getVariablesMap t) = sizes_sum (namedVariables t) /\
  forall i v, namedVariables t !! i = Some v ->
    om_find (var_name v) (fst (getVariablesMap t))
    = Some (sizes_sum (take i (namedVariables t)), var_size v).
Proof.
  intros Hnd Hf Hs. split.
  - apply (add_variable_fold _ _ 0); done || lia.
  - intros i v Hi. apply (foldl_add_variable_find _ [] 0); done || lia.
Qed.

Definition sample_target : TargetDescription :=
  mkTarget (ws "thymio-II") 5 1534 620 32
    [mkNamedVariable (ws "_id") 1; mkNamedVariable (ws "event.source") 1;
     mkNamedVariable (ws "event.args") 32; mkNamedVariable (ws "motor.left.target") 1]
    [mkLocalEvent (ws "button.backward") []; mkLocalEvent (ws "prox") []]
    [mkNativeFunction (ws "math.copy") [] [mkParameter (ws "dest") (-1); mkParameter (ws "src") (-1)]].

Lemma getVariablesMap_layout_witness :
  om_find (ws "event.args") (fst (getVariablesMap sample_target)) = Some (2, 32).
Proof.
  apply (proj2 (getVariablesMap_layout sample_target
    ltac:(vm_compute; repeat constructor; rewrite ?elem_of_cons, ?elem_of_nil; intuition discriminate) ltac:(repeat constructor; done) eq_refl)
    2%nat (mkNamedVariable (ws "event.args") 32) eq_refl).
Defined.
