(* ===== verification/Lexer.v ===== *)
(** * The lexer

    compiler/lexer.cpp.  The wide input stream is the list of its characters;
    [get] and [peek] look at its head, and the end of the list is the end of
    file.  The class of letters and digits is that of the locale in use
    ([is_utf8_alpha_num]), a parameter of the section. *)
From Stdlib Require Import ZArith Lia List String Ascii.
From stdpp Require Import base list strings.
From S2P Require Import Prelude Errors Consts.

Local Open Scope Z_scope.

(** ** Tokens *)

(** [Token::Type], in the order of the enumeration. *)
Inductive TokenType : Type :=
| TOKEN_END_OF_STREAM
| TOKEN_STR_when
| TOKEN_STR_emit
| TOKEN_STR_hidden_emit
| TOKEN_STR_for
| TOKEN_STR_in
| TOKEN_STR_step
| TOKEN_STR_while
| TOKEN_STR_do
| TOKEN_STR_if
| TOKEN_STR_then
| TOKEN_STR_else
| TOKEN_STR_elseif
| TOKEN_STR_end
| TOKEN_STR_var
| TOKEN_STR_const
| TOKEN_STR_call
| TOKEN_STR_sub
| TOKEN_STR_callsub
| TOKEN_STR_onevent
| TOKEN_STR_abs
| TOKEN_STR_return
| TOKEN_STRING_LITERAL
| TOKEN_INT_LITERAL
| TOKEN_PAR_OPEN
| TOKEN_PAR_CLOSE
| TOKEN_BRACKET_OPEN
| TOKEN_BRACKET_CLOSE
| TOKEN_COLON
| TOKEN_COMMA
| TOKEN_ASSIGN
| TOKEN_OP_OR
| TOKEN_OP_AND
| TOKEN_OP_NOT
| TOKEN_OP_EQUAL
| TOKEN_OP_NOT_EQUAL
| TOKEN_OP_BIGGER
| TOKEN_OP_BIGGER_EQUAL
| TOKEN_OP_SMALLER
| TOKEN_OP_SMALLER_EQUAL
| TOKEN_OP_ADD
| TOKEN_OP_NEG
| TOKEN_OP_MULT
| TOKEN_OP_DIV
| TOKEN_OP_MOD
| TOKEN_OP_SHIFT_LEFT
| TOKEN_OP_SHIFT_RIGHT
| TOKEN_OP_BIT_OR
| TOKEN_OP_BIT_XOR
| TOKEN_OP_BIT_AND
| TOKEN_OP_BIT_NOT
| TOKEN_OP_ADD_EQUAL
| TOKEN_OP_NEG_EQUAL
| TOKEN_OP_MULT_EQUAL
| TOKEN_OP_DIV_EQUAL
| TOKEN_OP_MOD_EQUAL
| TOKEN_OP_SHIFT_LEFT_EQUAL
| TOKEN_OP_SHIFT_RIGHT_EQUAL
| TOKEN_OP_BIT_OR_EQUAL
| TOKEN_OP_BIT_XOR_EQUAL
| TOKEN_OP_BIT_AND_EQUAL
| TOKEN_OP_PLUS_PLUS
| TOKEN_OP_MINUS_MINUS.

#[export] Instance TokenType_eq_dec : EqDecision TokenType.
Proof. solve_decision. Defined.

(** The enumerators in order: the value of a token type is its index. *)
Definition token_types : list TokenType :=
  [TOKEN_END_OF_STREAM; TOKEN_STR_when; TOKEN_STR_emit; TOKEN_STR_hidden_emit;
   TOKEN_STR_for; TOKEN_STR_in; TOKEN_STR_step; TOKEN_STR_while;
   TOKEN_STR_do; TOKEN_STR_if; TOKEN_STR_then; TOKEN_STR_else;
   TOKEN_STR_elseif; TOKEN_STR_end; TOKEN_STR_var; TOKEN_STR_const;
   TOKEN_STR_call; TOKEN_STR_sub; TOKEN_STR_callsub; TOKEN_STR_onevent;
   TOKEN_STR_abs; TOKEN_STR_return; TOKEN_STRING_LITERAL; TOKEN_INT_LITERAL;
   TOKEN_PAR_OPEN; TOKEN_PAR_CLOSE; TOKEN_BRACKET_OPEN; TOKEN_BRACKET_CLOSE;
   TOKEN_COLON; TOKEN_COMMA; TOKEN_ASSIGN; TOKEN_OP_OR;
   TOKEN_OP_AND; TOKEN_OP_NOT; TOKEN_OP_EQUAL; TOKEN_OP_NOT_EQUAL;
   TOKEN_OP_BIGGER; TOKEN_OP_BIGGER_EQUAL; TOKEN_OP_SMALLER; TOKEN_OP_SMALLER_EQUAL;
   TOKEN_OP_ADD; TOKEN_OP_NEG; TOKEN_OP_MULT; TOKEN_OP_DIV;
   TOKEN_OP_MOD; TOKEN_OP_SHIFT_LEFT; TOKEN_OP_SHIFT_RIGHT; TOKEN_OP_BIT_OR;
   TOKEN_OP_BIT_XOR; TOKEN_OP_BIT_AND; TOKEN_OP_BIT_NOT; TOKEN_OP_ADD_EQUAL;
   TOKEN_OP_NEG_EQUAL; TOKEN_OP_MULT_EQUAL; TOKEN_OP_DIV_EQUAL; TOKEN_OP_MOD_EQUAL;
   TOKEN_OP_SHIFT_LEFT_EQUAL; TOKEN_OP_SHIFT_RIGHT_EQUAL; TOKEN_OP_BIT_OR_EQUAL; TOKEN_OP_BIT_XOR_EQUAL;
   TOKEN_OP_BIT_AND_EQUAL; TOKEN_OP_PLUS_PLUS; TOKEN_OP_MINUS_MINUS].

(** The integer value of a token type. *)
Definition token_code (t : TokenType) : Z :=
  match t with
  | TOKEN_END_OF_STREAM => 0
  | TOKEN_STR_when => 1
  | TOKEN_STR_emit => 2
  | TOKEN_STR_hidden_emit => 3
  | TOKEN_STR_for => 4
  | TOKEN_STR_in => 5
  | TOKEN_STR_step => 6
  | TOKEN_STR_while => 7
  | TOKEN_STR_do => 8
  | TOKEN_STR_if => 9
  | TOKEN_STR_then => 10
  | TOKEN_STR_else => 11
  | TOKEN_STR_elseif => 12
  | TOKEN_STR_end => 13
  | TOKEN_STR_var => 14
  | TOKEN_STR_const => 15
  | TOKEN_STR_call => 16
  | TOKEN_STR_sub => 17
  | TOKEN_STR_callsub => 18
  | TOKEN_STR_onevent => 19
  | TOKEN_STR_abs => 20
  | TOKEN_STR_return => 21
  | TOKEN_STRING_LITERAL => 22
  | TOKEN_INT_LITERAL => 23
  | TOKEN_PAR_OPEN => 24
  | TOKEN_PAR_CLOSE => 25
  | TOKEN_BRACKET_OPEN => 26
  | TOKEN_BRACKET_CLOSE => 27
  | TOKEN_COLON => 28
  | TOKEN_COMMA => 29
  | TOKEN_ASSIGN => 30
  | TOKEN_OP_OR => 31
  | TOKEN_OP_AND => 32
  | TOKEN_OP_NOT => 33
  | TOKEN_OP_EQUAL => 34
  | TOKEN_OP_NOT_EQUAL => 35
  | TOKEN_OP_BIGGER => 36
  | TOKEN_OP_BIGGER_EQUAL => 37
  | TOKEN_OP_SMALLER => 38
  | TOKEN_OP_SMALLER_EQUAL => 39
  | TOKEN_OP_ADD => 40
  | TOKEN_OP_NEG => 41
  | TOKEN_OP_MULT => 42
  | TOKEN_OP_DIV => 43
  | TOKEN_OP_MOD => 44
  | TOKEN_OP_SHIFT_LEFT => 45
  | TOKEN_OP_SHIFT_RIGHT => 46
  | TOKEN_OP_BIT_OR => 47
  | TOKEN_OP_BIT_XOR => 48
  | TOKEN_OP_BIT_AND => 49
  | TOKEN_OP_BIT_NOT => 50
  | TOKEN_OP_ADD_EQUAL => 51
  | TOKEN_OP_NEG_EQUAL => 52
  | TOKEN_OP_MULT_EQUAL => 53
  | TOKEN_OP_DIV_EQUAL => 54
  | TOKEN_OP_MOD_EQUAL => 55
  | TOKEN_OP_SHIFT_LEFT_EQUAL => 56
  | TOKEN_OP_SHIFT_RIGHT_EQUAL => 57
  | TOKEN_OP_BIT_OR_EQUAL => 58
  | TOKEN_OP_BIT_XOR_EQUAL => 59
  | TOKEN_OP_BIT_AND_EQUAL => 60
  | TOKEN_OP_PLUS_PLUS => 61
  | TOKEN_OP_MINUS_MINUS => 62
  end.

(** [Token::typeName]: the message of a token type, before and after translation. *)
Definition token_name (t : TokenType) : ErrorCode :=
  match t with
  | TOKEN_END_OF_STREAM => ERROR_TOKEN_END_OF_STREAM
  | TOKEN_STR_when => ERROR_TOKEN_STR_when
  | TOKEN_STR_emit => ERROR_TOKEN_STR_emit
  | TOKEN_STR_hidden_emit => ERROR_TOKEN_STR_hidden_emit
  | TOKEN_STR_for => ERROR_TOKEN_STR_for
  | TOKEN_STR_in => ERROR_TOKEN_STR_in
  | TOKEN_STR_step => ERROR_TOKEN_STR_step
  | TOKEN_STR_while => ERROR_TOKEN_STR_while
  | TOKEN_STR_do => ERROR_TOKEN_STR_do
  | TOKEN_STR_if => ERROR_TOKEN_STR_if
  | TOKEN_STR_then => ERROR_TOKEN_STR_then
  | TOKEN_STR_else => ERROR_TOKEN_STR_else
  | TOKEN_STR_elseif => ERROR_TOKEN_STR_elseif
  | TOKEN_STR_end => ERROR_TOKEN_STR_end
  | TOKEN_STR_var => ERROR_TOKEN_STR_var
  | TOKEN_STR_const => ERROR_TOKEN_STR_const
  | TOKEN_STR_call => ERROR_TOKEN_STR_call
  | TOKEN_STR_sub => ERROR_TOKEN_STR_sub
  | TOKEN_STR_callsub => ERROR_TOKEN_STR_callsub
  | TOKEN_STR_onevent => ERROR_TOKEN_STR_onevent
  | TOKEN_STR_abs => ERROR_TOKEN_STR_abs
  | TOKEN_STR_return => ERROR_TOKEN_STR_return
  | TOKEN_STRING_LITERAL => ERROR_TOKEN_STRING_LITERAL
  | TOKEN_INT_LITERAL => ERROR_TOKEN_INT_LITERAL
  | TOKEN_PAR_OPEN => ERROR_TOKEN_PAR_OPEN
  | TOKEN_PAR_CLOSE => ERROR_TOKEN_PAR_CLOSE
  | TOKEN_BRACKET_OPEN => ERROR_TOKEN_BRACKET_OPEN
  | TOKEN_BRACKET_CLOSE => ERROR_TOKEN_BRACKET_CLOSE
  | TOKEN_COLON => ERROR_TOKEN_COLON
  | TOKEN_COMMA => ERROR_TOKEN_COMMA
  | TOKEN_ASSIGN => ERROR_TOKEN_ASSIGN
  | TOKEN_OP_OR => ERROR_TOKEN_OP_OR
  | TOKEN_OP_AND => ERROR_TOKEN_OP_AND
  | TOKEN_OP_NOT => ERROR_TOKEN_OP_NOT
  | TOKEN_OP_EQUAL => ERROR_TOKEN_OP_EQUAL
  | TOKEN_OP_NOT_EQUAL => ERROR_TOKEN_OP_NOT_EQUAL
  | TOKEN_OP_BIGGER => ERROR_TOKEN_OP_BIGGER
  | TOKEN_OP_BIGGER_EQUAL => ERROR_TOKEN_OP_BIGGER_EQUAL
  | TOKEN_OP_SMALLER => ERROR_TOKEN_OP_SMALLER
  | TOKEN_OP_SMALLER_EQUAL => ERROR_TOKEN_OP_SMALLER_EQUAL
  | TOKEN_OP_ADD => ERROR_TOKEN_OP_ADD
  | TOKEN_OP_NEG => ERROR_TOKEN_OP_NEG
  | TOKEN_OP_MULT => ERROR_TOKEN_OP_MULT
  | TOKEN_OP_DIV => ERROR_TOKEN_OP_DIV
  | TOKEN_OP_MOD => ERROR_TOKEN_OP_MOD
  | TOKEN_OP_SHIFT_LEFT => ERROR_TOKEN_OP_SHIFT_LEFT
  | TOKEN_OP_SHIFT_RIGHT => ERROR_TOKEN_OP_SHIFT_RIGHT
  | TOKEN_OP_BIT_OR => ERROR_TOKEN_OP_BIT_OR
  | TOKEN_OP_BIT_XOR => ERROR_TOKEN_OP_BIT_XOR
  | TOKEN_OP_BIT_AND => ERROR_TOKEN_OP_BIT_AND
  | TOKEN_OP_BIT_NOT => ERROR_TOKEN_OP_BIT_NOT
  | TOKEN_OP_ADD_EQUAL => ERROR_TOKEN_OP_ADD_EQUAL
  | TOKEN_OP_NEG_EQUAL => ERROR_TOKEN_OP_NEG_EQUAL
  | TOKEN_OP_MULT_EQUAL => ERROR_TOKEN_OP_MULT_EQUAL
  | TOKEN_OP_DIV_EQUAL => ERROR_TOKEN_OP_DIV_EQUAL
  | TOKEN_OP_MOD_EQUAL => ERROR_TOKEN_OP_MOD_EQUAL
  | TOKEN_OP_SHIFT_LEFT_EQUAL => ERROR_TOKEN_OP_SHIFT_LEFT_EQUAL
  | TOKEN_OP_SHIFT_RIGHT_EQUAL => ERROR_TOKEN_OP_SHIFT_RIGHT_EQUAL
  | TOKEN_OP_BIT_OR_EQUAL => ERROR_TOKEN_OP_BIT_OR_EQUAL
  | TOKEN_OP_BIT_XOR_EQUAL => ERROR_TOKEN_OP_BIT_XOR_EQUAL
  | TOKEN_OP_BIT_AND_EQUAL => ERROR_TOKEN_OP_BIT_AND_EQUAL
  | TOKEN_OP_PLUS_PLUS => ERROR_TOKEN_OP_PLUS_PLUS
  | TOKEN_OP_MINUS_MINUS => ERROR_TOKEN_OP_MINUS_MINUS
  end.

Definition token_typeName (t : TokenType) : wstring := ws (error_map (token_name t)).

(** The keyword chain of [tokenize]. *)
Definition keyword_token (s : wstring) : option TokenType :=
  if decide (s = ws "when") then Some TOKEN_STR_when
  else if decide (s = ws "emit") then Some TOKEN_STR_emit
  else if decide (s = ws "_emit") then Some TOKEN_STR_hidden_emit
  else if decide (s = ws "for") then Some TOKEN_STR_for
  else if decide (s = ws "in") then Some TOKEN_STR_in
  else if decide (s = ws "step") then Some TOKEN_STR_step
  else if decide (s = ws "while") then Some TOKEN_STR_while
  else if decide (s = ws "do") then Some TOKEN_STR_do
  else if decide (s = ws "if") then Some TOKEN_STR_if
  else if decide (s = ws "then") then Some TOKEN_STR_then
  else if decide (s = ws "else") then Some TOKEN_STR_else
  else if decide (s = ws "elseif") then Some TOKEN_STR_elseif
  else if decide (s = ws "end") then Some TOKEN_STR_end
  else if decide (s = ws "var") then Some TOKEN_STR_var
  else if decide (s = ws "const") then Some TOKEN_STR_const
  else if decide (s = ws "call") then Some TOKEN_STR_call
  else if decide (s = ws "sub") then Some TOKEN_STR_sub
  else if decide (s = ws "callsub") then Some TOKEN_STR_callsub
  else if decide (s = ws "onevent") then Some TOKEN_STR_onevent
  else if decide (s = ws "abs") then Some TOKEN_STR_abs
  else if decide (s = ws "return") then Some TOKEN_STR_return
  else if decide (s = ws "or") then Some TOKEN_OP_OR
  else if decide (s = ws "and") then Some TOKEN_OP_AND
  else if decide (s = ws "not") then Some TOKEN_OP_NOT
  else None.

(** [Compiler::isKeyword]. *)
Definition isKeyword (s : wstring) : bool :=
  if decide (s = ws "when") then true
  else if decide (s = ws "emit") then true
  else if decide (s = ws "_emit") then true
  else if decide (s = ws "for") then true
  else if decide (s = ws "in") then true
  else if decide (s = ws "step") then true
  else if decide (s = ws "while") then true
  else if decide (s = ws "do") then true
  else if decide (s = ws "if") then true
  else if decide (s = ws "then") then true
  else if decide (s = ws "else") then true
  else if decide (s = ws "elseif") then true
  else if decide (s = ws "end") then true
  else if decide (s = ws "var") then true
  else if decide (s = ws "const") then true
  else if decide (s = ws "call") then true
  else if decide (s = ws "sub") then true
  else if decide (s = ws "callsub") then true
  else if decide (s = ws "onevent") then true
  else if decide (s = ws "abs") then true
  else if decide (s = ws "return") then true
  else if decide (s = ws "or") then true
  else if decide (s = ws "and") then true
  else if decide (s = ws "not") then true
  else false.

Record Token : Type := mkToken {
  type : TokenType; sValue : wstring; iValue : Z; pos : SourcePos }.

(** ** Integer literals *)

(** The character constants of the lexer. *)
Definition ch (a : ascii) : Z := Z.of_nat (nat_of_ascii a).

Definition iswdigit (c : Z) : bool := (48 <=? c) && (c <=? 57).

(** The value of a digit for [wcstol], with no value for other characters. *)
Definition digit_val (c : Z) : option Z :=
  if iswdigit c then Some (c - 48)
  else if (97 <=? c) && (c <=? 122) then Some (c - 87)
  else if (65 <=? c) && (c <=? 90) then Some (c - 55)
  else None.

Definition iswxdigit (c : Z) : bool :=
  match digit_val c with Some d => d <? 16 | None => false end.

Definition LONG_MAX : Z := 9223372036854775807.

(** [wcstol(s, nullptr, base)] on a string of digits: it stops at the first
    character that is not a digit of the base, and saturates. *)
Fixpoint wcstol_acc (base acc : Z) (s : wstring) : Z :=
  match s with
  | [] => acc
  | c :: s' =>
      match digit_val c with
      | Some d => if d <? base then wcstol_acc base (Z.min LONG_MAX (acc * base + d)) s' else acc
      | None => acc
      end
  end.

Definition wcstol (s : wstring) (base : Z) : Z := wcstol_acc base 0 s.

(** The constructor of a token.  The decrements at its end act on the [pos]
    parameter, which hides the field: they change nothing. *)
Definition make_token (t : TokenType) (p : SourcePos) (value : wstring) : res error Token :=
  match t with
  | TOKEN_INT_LITERAL =>
      let '(decode, wasUnsigned) :=
        match value with
        | _ :: x :: rest =>
            if x =? ch "x" then (wcstol rest 16, true)
            else if x =? ch "b" then (wcstol rest 2, true)
            else (wcstol value 10, false)
        | _ => (wcstol value 10, false)
        end in
      if 65536 <=? decode then throw p ERROR_INT16_OUT_OF_RANGE [dec_str decode]
      else if wasUnsigned && (32767 <? decode) then Ok (mkToken t value (decode - 65536) p)
      else Ok (mkToken t value decode p)
  | _ => Ok (mkToken t value 0 p)
  end.

(** ** Positions *)

(** [pos.column++; pos.character++]. *)
Definition advance (p : SourcePos) (n : Z) : SourcePos :=
  mkPos (u32 (character p + n)) (row p) (u32 (column p + n)) (valid p).

Definition new_row (p : SourcePos) (c : Z) : SourcePos :=
  mkPos (character p) (u32 (row p + 1)) (u32 c) (valid p).
Definition set_column (p : SourcePos) (c : Z) : SourcePos :=
  mkPos (character p) (row p) (u32 c) (valid p).
Definition next_char (p : SourcePos) : SourcePos :=
  mkPos (u32 (character p + 1)) (row p) (column p) (valid p).

Definition tabSize : Z := 4.

(** The result of reading one lexical element: the tokens it appended, the
    position and what is left of the stream. *)
Definition lexed : Type := list Token * SourcePos * list Z.

Section Lexer.
(** [std::isalnum(c, std::locale("en_US.UTF-8"))]. *)
Variable is_utf8_alpha_num : Z -> bool.

Definition ident_char (c : Z) : bool := is_utf8_alpha_num c || (c =? ch "_") || (c =? ch ".").

(** ** Comments *)

(** The loop over a comment block, after the [#]: [c] is the current
    character. *)
Fixpoint block_comment (begin : SourcePos) (step : nat) (c : Z) (p : SourcePos) (src : list Z)
  : res error (SourcePos * list Z) :=
  let peek_hash := match src with x :: _ => x =? ch "#" | [] => false end in
  if (0 <? step)%nat || negb (c =? ch "*") || negb peek_hash then
    let p1 := if c =? 9 then set_column p (column p + tabSize)
              else if c =? 10 then new_row p 0
              else set_column p (column p + 1) in
    match src with
    | [] => throw begin ERROR_UNBALANCED_COMMENT_BLOCK []
    | c' :: src' => block_comment begin (Nat.pred step) c' (next_char p1) src'
    end
  else Ok (p, src).

(** The loop over a simple comment; [None] for the end-of-file character. *)
Fixpoint line_comment (c : Z) (p : SourcePos) (src : list Z) : option Z * SourcePos * list Z :=
  if (c =? 10) || (c =? 13) then (Some c, p, src)
  else
    let p1 := next_char (if c =? 9 then set_column p (column p + tabSize)
                         else set_column p (column p + 1)) in
    match src with
    | [] => (None, p1, [])
    | c' :: src' => line_comment c' p1 src'
    end.

Definition comment (p : SourcePos) (src : list Z) : res error lexed :=
  match src with
  | x :: _ =>
      if x =? ch "*" then
        '(p1, src1) ← block_comment p 2 (ch "#") p src;
        Ok ([], advance p1 1, tail src1)
      else
        let '(c, p1, src1) := line_comment (ch "#") p src in
        let p2 := match c with
                  | Some c => if c =? 10 then new_row p1 0
                              else if c =? 13 then set_column p1 0 else p1
                  | None => p1
                  end in
        Ok ([], p2, src1)
  | [] => Ok ([], p, [])  (* peek() has set the end-of-file bit *)
  end.

(** ** Operators *)

Definition emit_token (t : TokenType) (p p' : SourcePos) (src : list Z) : res error lexed :=
  tok ← make_token t p []; Ok ([tok], p', src).

(** A chain of [testNextCharacter], then the token of the bare character. *)
Fixpoint test_next (p : SourcePos) (src : list Z) (tests : list (ascii * TokenType))
    (otherwise : res error lexed) : res error lexed :=
  match tests with
  | [] => otherwise
  | (a, t) :: tests' =>
      match src with
      | x :: src' =>
          if x =? ch a then emit_token t p (advance p 1) src'
          else test_next p src tests' otherwise
      | [] => otherwise
      end
  end.

Definition operator (p : SourcePos) (src : list Z) (tests : list (ascii * TokenType)) (t : TokenType)
  : res error lexed := test_next p src tests (emit_token t p p src).

(** [<] and [>]: one more character of look-ahead. *)
Definition shift_operator (p : SourcePos) (src : list Z) (a : ascii)
    (shift_equal shift smaller_equal smaller : TokenType) : res error lexed :=
  match src with
  | x :: src' =>
      if x =? ch a then
        let p' := advance p 1 in operator p' src' [("="%char, shift_equal)] shift
      else operator p src [("="%char, smaller_equal)] smaller
  | [] => operator p src [] smaller
  end.

(** ** Identifiers, keywords and numbers *)

Fixpoint take_ident (src : list Z) : wstring * list Z :=
  match src with
  | c :: src' =>
      if ident_char c then let '(s, rest) := take_ident src' in (c :: s, rest) else ([], src)
  | [] => ([], [])
  end.

(** The validity checks on a string that starts with a digit. *)
Definition check_number (p : SourcePos) (s : wstring) : res error unit :=
  match s with
  | c0 :: c1 :: rest =>
      if (c0 =? ch "0") && negb (iswdigit c1) then
        if c1 =? ch "x" then
          if forallb iswxdigit rest then Ok tt else throw p ERROR_INVALID_HEXA_NUMBER []
        else if c1 =? ch "b" then
          if forallb (fun c => (c =? ch "0") || (c =? ch "1")) rest then Ok tt
          else throw p ERROR_INVALID_BINARY_NUMBER []
        else throw p ERROR_NUMBER_INVALID_BASE []
      else if forallb iswdigit (c1 :: rest) then Ok tt else throw p ERROR_IN_NUMBER []
  | _ => Ok tt
  end.

Definition word_token (p : SourcePos) (s : wstring) : res error Token :=
  match s with
  | c :: _ =>
      if iswdigit c then _ ← check_number p s; make_token TOKEN_INT_LITERAL p s
      else match keyword_token s with
           | Some t => make_token t p []
           | None => make_token TOKEN_STRING_LITERAL p s
           end
  | [] => Crash
  end.

Definition word (p : SourcePos) (c : Z) (src : list Z) : res error lexed :=
  if negb (is_utf8_alpha_num c) && negb (c =? ch "_") then
    throw p ERROR_INVALID_IDENTIFIER [hex_str (u32 c)]
  else
    let '(s, rest) := take_ident src in
    tok ← word_token p (c :: s);
    Ok ([tok], advance p (Z.of_nat (List.length s)), rest).

(** ** [Compiler::tokenize] *)

(** The [switch] on one character, the position being already advanced. *)
Definition lex_char (p : SourcePos) (c : Z) (src : list Z) : res error lexed :=
  if c =? ch " " then Ok ([], p, src)
  else if c =? 9 then Ok ([], p, src)
  else if c =? 10 then Ok ([], new_row p (-1), src)
  else if c =? 13 then Ok ([], set_column p (-1), src)
  else if c =? ch "(" then emit_token TOKEN_PAR_OPEN p p src
  else if c =? ch ")" then emit_token TOKEN_PAR_CLOSE p p src
  else if c =? ch "[" then emit_token TOKEN_BRACKET_OPEN p p src
  else if c =? ch "]" then emit_token TOKEN_BRACKET_CLOSE p p src
  else if c =? ch ":" then emit_token TOKEN_COLON p p src
  else if c =? ch "," then emit_token TOKEN_COMMA p p src
  else if c =? ch "#" then comment p src
  else if c =? ch "+" then
    operator p src [("="%char, TOKEN_OP_ADD_EQUAL); ("+"%char, TOKEN_OP_PLUS_PLUS)] TOKEN_OP_ADD
  else if c =? ch "-" then
    operator p src [("="%char, TOKEN_OP_NEG_EQUAL); ("-"%char, TOKEN_OP_MINUS_MINUS)] TOKEN_OP_NEG
  else if c =? ch "*" then operator p src [("="%char, TOKEN_OP_MULT_EQUAL)] TOKEN_OP_MULT
  else if c =? ch "/" then operator p src [("="%char, TOKEN_OP_DIV_EQUAL)] TOKEN_OP_DIV
  else if c =? ch "%" then operator p src [("="%char, TOKEN_OP_MOD_EQUAL)] TOKEN_OP_MOD
  else if c =? ch "|" then operator p src [("="%char, TOKEN_OP_BIT_OR_EQUAL)] TOKEN_OP_BIT_OR
  else if c =? ch "^" then operator p src [("="%char, TOKEN_OP_BIT_XOR_EQUAL)] TOKEN_OP_BIT_XOR
  else if c =? ch "&" then operator p src [("="%char, TOKEN_OP_BIT_AND_EQUAL)] TOKEN_OP_BIT_AND
  else if c =? ch "~" then emit_token TOKEN_OP_BIT_NOT p p src
  else if c =? ch "!" then
    test_next p src [("="%char, TOKEN_OP_NOT_EQUAL)] (throw p ERROR_SYNTAX [])
  else if c =? ch "=" then operator p src [("="%char, TOKEN_OP_EQUAL)] TOKEN_ASSIGN
  else if c =? ch "<" then
    shift_operator p src "<" TOKEN_OP_SHIFT_LEFT_EQUAL TOKEN_OP_SHIFT_LEFT
      TOKEN_OP_SMALLER_EQUAL TOKEN_OP_SMALLER
  else if c =? ch ">" then
    shift_operator p src ">" TOKEN_OP_SHIFT_RIGHT_EQUAL TOKEN_OP_SHIFT_RIGHT
      TOKEN_OP_BIGGER_EQUAL TOKEN_OP_BIGGER
  else word p c src.

(** The loop [while(source.good())]; every round reads a character, so the
    length of the source is enough fuel ([tokenize_total]). *)
Fixpoint tokenize_loop (fuel : nat) (p : SourcePos) (src : list Z) : res error (list Token) :=
  match src with
  | [] => eos ← make_token TOKEN_END_OF_STREAM p []; Ok [eos]
  | c :: src' =>
      match fuel with
      | O => NoFuel
      | S fuel' =>
          '(toks, p', rest) ← lex_char (advance p 1) c src';
          more ← tokenize_loop fuel' p' rest;
          Ok (toks ++ more)
      end
  end.

Definition tokenize (src : list Z) : res error (list Token) :=
  tokenize_loop (List.length src) (SourcePos_at 0 0 0) src.
End Lexer.
