(* ===== verification/LexerSpec.v ===== *)
(** * What the lexer promises

    Totality, the shape of the token list, literal ranges, positions, and the
    round trip of decimal literals. *)
From Stdlib Require Import ZArith Lia List String Ascii DecimalPos DecimalString.
From stdpp Require Import base list strings.
From S2P Require Import Prelude Errors Consts Lexer.

Local Open Scope Z_scope.

(** ** Tokens *)

(** A token of the body of the list: a literal fits in 16 bits, signed or
    unsigned, and an identifier is not a keyword. *)
Definition token_ok (t : Token) : Prop :=
  type t <> TOKEN_END_OF_STREAM /\
  (type t = TOKEN_INT_LITERAL -> -32768 <= iValue t < 65536) /\
  (type t = TOKEN_STRING_LITERAL -> isKeyword (sValue t) = false).

Lemma digit_val_nonneg c d : digit_val c = Some d -> 0 <= d.
Proof.
  unfold digit_val, iswdigit. repeat case_match; intros; simplify_eq; b2p; lia.
Qed.

Lemma wcstol_nonneg s base : 0 < base -> 0 <= wcstol s base.
Proof.
  intros Hb. unfold wcstol. cut (forall acc, 0 <= acc -> 0 <= wcstol_acc base acc s); [auto with lia|].
  induction s as [|c s IH]; intros acc Hacc; simpl; [done|].
  destruct (digit_val c) as [d|] eqn:Ed; [|done]. destruct (d <? base); [|done].
  apply digit_val_nonneg in Ed. apply IH. unfold LONG_MAX; nia.
Qed.

(** What [make_token] builds. *)
Definition made (t : TokenType) (p : SourcePos) (v : wstring) (r : res error Token) : Prop :=
  match r with
  | Ok tok => type tok = t /\ pos tok = p /\ sValue tok = v /\
              (t = TOKEN_INT_LITERAL -> -32768 <= iValue tok < 65536)
  | Throw e => error_wf e
  | _ => False
  end.

Lemma make_token_made t p v : made t p v (make_token t p v).
Proof.
  destruct t; try (cbn; split_and!; done). cbn.
  set (dw := match v with [] => _ | _ => _ end).
  assert (0 <= fst dw) as Hd.
  { subst dw; destruct v as [|a [|b w]]; [|by apply wcstol_nonneg|].
    - by apply wcstol_nonneg.
    - destruct (b =? _); [|destruct (b =? _)]; by apply wcstol_nonneg. }
  destruct dw as [d wasUnsigned]; simpl in Hd.
  destruct (65536 <=? d) eqn:E1; [reflexivity|].
  destruct (wasUnsigned && (32767 <? d)) eqn:E2; simpl; b2p; split_and!; try done; intros _; lia.
Qed.

(** [isKeyword] recognises exactly the words [tokenize] has a token for. *)
Lemma keyword_token_iff s : isKeyword s = true <-> is_Some (keyword_token s).
Proof.
  unfold isKeyword, keyword_token.
  repeat (case_decide; [split; eauto|]). split; [done|]. by intros [? ?].
Qed.

Lemma keyword_token_kind s t :
  keyword_token s = Some t ->
  t <> TOKEN_END_OF_STREAM /\ t <> TOKEN_INT_LITERAL /\ t <> TOKEN_STRING_LITERAL.
Proof.
  unfold keyword_token. repeat (case_decide; [intros [= <-]; done|]). done.
Qed.

(** ** One lexical element *)

(** The characters of [p'] and [p] differ by [n], modulo the width of [unsigned]. *)
Inductive shifted (p p' : SourcePos) (n : Z) : Prop :=
| Shifted : valid p' = valid p -> u32 (character p') = u32 (character p + n) ->
            (in_u32 (character p) = true -> in_u32 (character p') = true) -> shifted p p' n.

Lemma in_u32_u32 z : in_u32 (u32 z) = true.
Proof. apply in_u32_iff, u32_range. Qed.

Lemma u32_add a b : u32 (u32 a + b) = u32 (a + b).
Proof. unfold u32. by rewrite Zplus_mod_idemp_l. Qed.

Lemma u32_u32 a : u32 (u32 a) = u32 a.
Proof. apply Z.mod_mod. lia. Qed.

Lemma shifted_0 p : shifted p p 0.
Proof. split; [done| |done]. f_equal; lia. Qed.

Lemma shifted_trans p q r m n : shifted p q m -> shifted q r n -> shifted p r (m + n).
Proof.
  intros [V1 E1 I1] [V2 E2 I2]. split; [congruence| |auto].
  rewrite E2, <- u32_add, E1, u32_add. f_equal; lia.
Qed.

Lemma shifted_advance p n : shifted p (advance p n) n.
Proof. split; [done| |intros _; apply in_u32_u32]. simpl. by rewrite u32_u32. Qed.

Lemma shifted_next p : shifted p (next_char p) 1.
Proof. split; [done| |intros _; apply in_u32_u32]. simpl. by rewrite u32_u32. Qed.

Lemma shifted_column p c : shifted p (set_column p c) 0.
Proof. split; [done| |done]. simpl. f_equal; lia. Qed.

Lemma shifted_row p c : shifted p (new_row p c) 0.
Proof. split; [done| |done]. simpl. f_equal; lia. Qed.

Create HintDb lex.
#[export] Hint Resolve shifted_0 shifted_advance shifted_next shifted_column shifted_row : lex.

Abbreviation len l := (Z.of_nat (List.length l)).

(** The element read [pre] from the stream, and its only token starts at most
    that far.  The position advanced by as many characters, except after a
    simple comment that ends with the stream. *)
Definition lexed_ok (p : SourcePos) (src : list Z) (r : res error lexed) : Prop :=
  match r with
  | Ok (toks, p', rest) =>
      exists pre, src = pre ++ rest /\ (shifted p p' (len pre) \/ rest = [] /\ valid p' = valid p) /\
        match toks with
        | [] => True
        | [t] => token_ok t /\ exists k, 0 <= k <= len pre /\ shifted p (pos t) k
        | _ => False
        end
  | Throw e => error_wf e
  | _ => False
  end.

Lemma emit_token_ok t p q p' src pre rest k :
  src = pre ++ rest -> shifted p p' (len pre) -> shifted p q k -> 0 <= k <= len pre ->
  t <> TOKEN_END_OF_STREAM -> t <> TOKEN_STRING_LITERAL ->
  lexed_ok p src (emit_token t q p' rest).
Proof.
  intros Hs Hp Hq Hk H1 H2. unfold emit_token.
  pose proof (make_token_made t q []) as Hm. destruct (make_token t q []) as [tok|e| | |]; try done.
  destruct Hm as (Ht & Hpos & Hv & Hi). exists pre. split; [done|split; [by left|]].
  cbn iota. split; [split_and!; rewrite ?Ht; done|]. exists k. by rewrite Hpos.
Qed.

Lemma block_comment_ok begin step c p src :
  match block_comment begin step c p src with
  | Ok (p', rest) => exists pre y rest', rest = y :: rest' /\ src = pre ++ rest /\ shifted p p' (len pre)
  | Throw e => error_wf e
  | _ => False
  end.
Proof.
  revert step c p; induction src as [|c' src IH]; intros step c p; cbn [block_comment].
  - by rewrite orb_true_r.
  - destruct (_ || _) eqn:E; [|exists [], c', src; auto with lex].
    match goal with |- context [next_char ?q] => set (p1 := q) end.
    specialize (IH (Nat.pred step) c' (next_char p1)).
    destruct (block_comment _ _ _ _ _) as [[p' rest]|e| | |]; try done.
    destruct IH as (pre & y & rest' & -> & -> & Hsh).
    exists (c' :: pre), y, rest'. split_and!; [done..|].
    replace (len (c' :: pre)) with (0 + 1 + len pre) by (simpl; lia).
    eapply shifted_trans; [|exact Hsh]. eapply shifted_trans; [|apply shifted_next].
    subst p1; repeat case_match; auto with lex.
Qed.

Lemma line_comment_ok c p src :
  match line_comment c p src with
  | (o, p', rest) => exists pre, src = pre ++ rest /\ valid p' = valid p /\
                                 (shifted p p' (len pre) \/ rest = [])
  end.
Proof.
  revert c p; induction src as [|c' src IH]; intros c p; cbn [line_comment];
    destruct (_ || _) eqn:E.
  - exists []; auto with lex.
  - exists []. split_and!; [done| |by right]. repeat case_match; done.
  - exists []; auto with lex.
  - match goal with |- context [next_char ?q] => set (p1 := q) end.
    specialize (IH c' (next_char p1)). destruct (line_comment _ _ _) as [[o p'] rest].
    destruct IH as (pre & -> & Hv & Hsh). exists (c' :: pre).
    assert (shifted p p1 0) as H1 by (subst p1; repeat case_match; auto with lex).
    split_and!; [done|rewrite Hv; apply H1|].
    destruct Hsh as [Hsh|]; [left|by right].
    replace (len (c' :: pre)) with (0 + 1 + len pre) by (simpl; lia).
    eapply shifted_trans; [|exact Hsh]. eapply shifted_trans; [exact H1|apply shifted_next].
Qed.

Lemma comment_ok p src : lexed_ok p src (comment p src).
Proof.
  unfold comment. destruct src as [|x src]; [exists []; auto with lex|].
  destruct (x =? ch "*").
  - pose proof (block_comment_ok p 2 (ch "#") p (x :: src)) as H.
    destruct (block_comment _ _ _ _ _) as [[p' rest]|e| | |]; try done.
    destruct H as (pre & y & rest' & -> & -> & Hsh). exists (pre ++ [y]).
    split_and!; [by rewrite <- app_assoc| |done]. left.
    rewrite length_app, Nat2Z.inj_add. eapply shifted_trans; [exact Hsh|apply shifted_advance].
  - pose proof (line_comment_ok (ch "#") p (x :: src)) as H.
    destruct (line_comment _ _ _) as [[o p'] rest]. destruct H as (pre & Hs & Hv & Hsh).
    exists pre. split_and!; [done| |done].
    match goal with |- shifted p ?q _ \/ _ => assert (shifted p' q 0) as Hq end.
    { repeat case_match; auto with lex. }
    destruct Hsh as [Hsh|]; [left|right; split; [done|]].
    + replace (len pre) with (len pre + 0) by lia. by eapply shifted_trans.
    + destruct Hq as [-> _ _]. done.
Qed.

(** The operators of a chain of look-aheads are neither the end of the stream
    nor an identifier. *)
Definition plain_token (t : TokenType) : Prop :=
  t <> TOKEN_END_OF_STREAM /\ t <> TOKEN_STRING_LITERAL.

Lemma test_next_ok p q src pre0 tests other :
  shifted p q (len pre0) ->
  Forall (fun '(_, t) => plain_token t) tests ->
  lexed_ok p (pre0 ++ src) other ->
  lexed_ok p (pre0 ++ src) (test_next q src tests other).
Proof.
  intros Hq Hts Hother. induction Hts as [|[a t] tests [H1 H2] Hts IH]; cbn [test_next]; [done|].
  destruct src as [|x src]; [done|]. destruct (x =? ch a); [|done].
  eapply (emit_token_ok t p q _ _ (pre0 ++ [x])); try done.
  - by rewrite <- app_assoc.
  - rewrite length_app, Nat2Z.inj_add. eapply shifted_trans; [exact Hq|apply shifted_advance].
  - rewrite length_app. lia.
Qed.

Lemma operator_ok p q src pre0 tests t :
  shifted p q (len pre0) -> Forall (fun '(_, t) => plain_token t) tests -> plain_token t ->
  lexed_ok p (pre0 ++ src) (operator q src tests t).
Proof.
  intros Hq Hts [H1 H2]. apply test_next_ok; [done..|].
  eapply (emit_token_ok t p q q _ pre0); try done. lia.
Qed.

Lemma operator_ok_here p src tests t :
  Forall (fun '(_, t) => plain_token t) tests -> plain_token t ->
  lexed_ok p src (operator p src tests t).
Proof. intros. apply (operator_ok p p src []); auto with lex. Qed.

Lemma shift_operator_ok p src a t1 t2 t3 t4 :
  plain_token t1 -> plain_token t2 -> plain_token t3 -> plain_token t4 ->
  lexed_ok p src (shift_operator p src a t1 t2 t3 t4).
Proof.
  intros. destruct src as [|x src]; cbn [shift_operator].
  - by apply operator_ok_here.
  - destruct (x =? ch a); [|apply operator_ok_here; auto].
    apply (operator_ok p (advance p 1) src [x]); auto with lex.
Qed.

Lemma emit_here_ok p src t : plain_token t -> lexed_ok p src (emit_token t p p src).
Proof. intros [H1 H2]. eapply (emit_token_ok t p p p _ []); try done; auto with lex. Qed.

Lemma take_ident_app al src s rest : take_ident al src = (s, rest) -> src = s ++ rest.
Proof.
  revert s rest; induction src as [|c src IH]; intros s rest; cbn [take_ident].
  - by intros [= <- <-].
  - destruct (ident_char al c); [|by intros [= <- <-]].
    destruct (take_ident al src) as [s' r']. intros [= <- <-]. simpl. f_equal. by apply IH.
Qed.

Lemma check_number_ok p s : match check_number p s with Ok _ => True | Throw e => error_wf e | _ => False end.
Proof. unfold check_number. repeat case_match; simplify_eq; try done; unfold throw in *; simplify_eq; done. Qed.

Lemma word_token_ok p c s :
  match word_token p (c :: s) with
  | Ok t => token_ok t /\ pos t = p
  | Throw e => error_wf e
  | _ => False
  end.
Proof.
  unfold word_token. destruct (iswdigit c).
  - pose proof (check_number_ok p (c :: s)) as H.
    destruct (check_number _ _) as [u|e| | |]; try done. cbn [mbind res_bind].
    pose proof (make_token_made TOKEN_INT_LITERAL p (c :: s)) as Hm.
    destruct (make_token _ _ _) as [t|e| | |]; try done.
    destruct Hm as (Ht & Hp & Hs & Hi). split; [|done]. split_and!; rewrite ?Ht; auto; done.
  - destruct (keyword_token (c :: s)) as [k|] eqn:Hk.
    + pose proof (make_token_made k p []) as Hm. apply keyword_token_kind in Hk as (K1 & K2 & K3).
      destruct (make_token _ _ _) as [t|e| | |]; try done.
      destruct Hm as (Ht & Hp & Hs & Hi). split; [|done]. split_and!; rewrite ?Ht; auto; done.
    + pose proof (make_token_made TOKEN_STRING_LITERAL p (c :: s)) as Hm.
      destruct (make_token _ _ _) as [t|e| | |]; try done.
      destruct Hm as (Ht & Hp & Hs & Hi). split; [|done]. split_and!; rewrite ?Ht; auto; [done..|].
      intros _. rewrite Hs. destruct (isKeyword (c :: s)) eqn:E; [|done].
      apply keyword_token_iff in E as [? E]. congruence.
Qed.

Lemma word_ok al p c src : lexed_ok p src (word al p c src).
Proof.
  unfold word. destruct (_ && _); [reflexivity|].
  destruct (take_ident al src) as [s rest] eqn:E. apply take_ident_app in E as ->.
  pose proof (word_token_ok p c s) as H. destruct (word_token _ _) as [t|e| | |]; try done.
  destruct H as [Ht Hp]. exists s. split; [done|split; [left; auto with lex|]].
  split; [done|]. exists 0. rewrite Hp. split; [lia|auto with lex].
Qed.

Lemma lex_char_ok al p c src : lexed_ok p src (lex_char al p c src).
Proof.
  unfold lex_char.
  repeat match goal with
  | |- context [if ?b then _ else _] => destruct b
  end;
  try (apply operator_ok_here; repeat constructor; done);
  try (apply shift_operator_ok; repeat constructor; done);
  try (apply emit_here_ok; split; done);
  try (exists []; split; [done|split; [left; auto with lex|done]]).
  - apply comment_ok.
  - apply (test_next_ok p p src []); [apply shifted_0|repeat constructor; done|reflexivity].
  - apply word_ok.
Qed.

(** ** The whole stream *)

(** The tokens are in the order of their positions in the source. *)
Fixpoint ascending (lo hi : Z) (l : list Token) : Prop :=
  match l with
  | [] => True
  | t :: l' => (lo <= character (pos t) < hi /\ valid (pos t) = true) /\
               ascending (character (pos t) + 1) hi l'
  end.

Lemma ascending_weaken lo lo' hi l : lo <= lo' -> ascending lo' hi l -> ascending lo hi l.
Proof. destruct l as [|t l]; [done|]. intros Hle [[H Hv] Hl]. split; [split; [lia|done]|done]. Qed.

(** The outcome of the loop on [src], when [i] characters were already read. *)
Definition loop_ok (i : Z) (src : list Z) (r : res error (list Token)) : Prop :=
  match r with
  | Ok toks => exists body eos, toks = body ++ [eos] /\ type eos = TOKEN_END_OF_STREAM /\
                 Forall token_ok body /\ ascending i (i + len src) body
  | Throw e => error_wf e
  | _ => False
  end.

(** The token of one element, in front of the tokens of the rest. *)
Lemma loop_ok_cons i c pre rest p toks (r : res error (list Token)) :
  0 <= i -> i + len (c :: pre ++ rest) < 4294967296 ->
  valid p = true -> character p = i ->
  match toks with
  | [] => True
  | [t] => token_ok t /\ exists k, 0 <= k <= len pre /\ shifted p (pos t) k
  | _ => False
  end ->
  loop_ok (i + 1 + len pre) rest r ->
  loop_ok i (c :: pre ++ rest) (more ← r; Ok (toks ++ more)).
Proof.
  intros Hi Hn Hp Hc Ht Hr. destruct r as [more|e| | |]; try done.
  destruct Hr as (body & eos & -> & He & Hb & Ha).
  assert (i + len (c :: pre ++ rest) = i + 1 + len pre + len rest) as Hlen
    by (simpl; rewrite length_app; lia).
  unfold loop_ok; cbn [mbind res_bind]. rewrite Hlen in *.
  destruct toks as [|t [|]]; [| |done].
  - exists body, eos. split_and!; try done. eapply ascending_weaken; [|done]. lia.
  - destruct Ht as (Hok & k & Hk & [Hv Hck Hin]). exists (t :: body), eos.
    assert (character (pos t) = i + k) as Hpos.
    { rewrite in_u32_iff, in_u32_iff in Hin. rewrite <- (u32_id (character (pos t))) by (apply Hin; lia).
      rewrite Hck, Hc. apply u32_id. lia. }
    split_and!; try done; [by constructor|]. simpl ascending. rewrite Hpos, Hv. split.
    + split; [|done]. lia.
    + eapply ascending_weaken; [|done]. lia.
Qed.

Section Tokenize.
Variable is_utf8_alpha_num : Z -> bool.

Lemma tokenize_loop_ok fuel i p src :
  (List.length src <= fuel)%nat -> 0 <= i -> i + len src < 4294967296 ->
  valid p = true -> (u32 (character p + 1) = i \/ src = []) ->
  loop_ok i src (tokenize_loop is_utf8_alpha_num fuel p src).
Proof.
  revert i p src; induction fuel as [|fuel IH]; intros i p src Hf Hi Hn Hp Hc;
    (destruct src as [|c src]; [|try (simpl in Hf; lia)]); cbn [tokenize_loop].
  1, 2: exists [], (mkToken TOKEN_END_OF_STREAM [] 0 p); simpl; auto.
  destruct Hc as [Hc|]; [|done].
  pose proof (lex_char_ok is_utf8_alpha_num (advance p 1) c src) as Hl.
  destruct (lex_char _ _ _ _) as [[[toks p'] rest]|e| | |]; try done.
  destruct Hl as (pre & -> & Hp' & Ht). cbn [mbind res_bind].
  apply (loop_ok_cons i c pre rest (advance p 1)); try done.
  simpl in Hf, Hn. rewrite length_app in *. apply IH; try lia.
  - destruct Hp' as [[-> _ _]|[_ ->]]; done.
  - destruct Hp' as [[_ Hs _]|[-> _]]; [left|by right].
    rewrite <- u32_add, Hs, u32_add. simpl. rewrite Hc, u32_id; lia.
Qed.

(** Tokenization always terminates with a result.  Whatever the locale,
    a source of less than 2^32 characters either is rejected with a
    well-formed error or becomes a list of tokens that ends with the only
    end-of-stream token, whose other tokens have valid positions that
    increase within the source, whose literals fit in 16 bits (signed or
    unsigned) and whose identifiers are not keywords. *)
Theorem tokenize_total src :
  len src < 4294967296 ->
  (exists e, tokenize is_utf8_alpha_num src = Throw e /\ error_wf e) \/
  (exists body eos, tokenize is_utf8_alpha_num src = Ok (body ++ [eos]) /\
     type eos = TOKEN_END_OF_STREAM /\
     Forall (fun t => type t <> TOKEN_END_OF_STREAM /\
               (type t = TOKEN_INT_LITERAL -> -32768 <= iValue t < 65536) /\
               (type t = TOKEN_STRING_LITERAL -> isKeyword (sValue t) = false)) body /\
     ascending 0 (len src) body).
Proof.
  intros Hn. unfold tokenize.
  pose proof (tokenize_loop_ok (List.length src) 0 (SourcePos_at 0 0 0) src
                ltac:(lia) ltac:(lia) ltac:(lia) eq_refl (or_introl eq_refl)) as H.
  destruct (tokenize_loop _ _ _ _) as [toks|e| | |]; try done.
  - right. destruct H as (body & eos & -> & He & Hb & Ha). exists body, eos. done.
  - left. by exists e.
Qed.
End Tokenize.

(** Letters and digits of the C locale. *)
Definition ascii_alnum (c : Z) : bool :=
  iswdigit c || ((65 <=? c) && (c <=? 90)) || ((97 <=? c) && (c <=? 122)).

Lemma tokenize_total_witness :
  exists toks, tokenize ascii_alnum (ws "if x1 <<= 0xFFFF # note") = Ok toks /\
    ascending 0 23 (removelast toks).
Proof.
  destruct (tokenize_total ascii_alnum (ws "if x1 <<= 0xFFFF # note"))
    as [(e & H & _)|(body & eos & H & _ & _ & Ha)]; [reflexivity|discriminate H|].
  exists (body ++ [eos]). split; [exact H|]. rewrite removelast_last. exact Ha.
Defined.

(** ** Decimal literals *)

(** The value of a decimal, digit by digit. *)
Fixpoint uint_val (acc : Z) (d : Decimal.uint) : Z :=
  match d with
  | Decimal.Nil => acc
  | Decimal.D0 d => uint_val (acc * 10) d
  | Decimal.D1 d => uint_val (acc * 10 + 1) d
  | Decimal.D2 d => uint_val (acc * 10 + 2) d
  | Decimal.D3 d => uint_val (acc * 10 + 3) d
  | Decimal.D4 d => uint_val (acc * 10 + 4) d
  | Decimal.D5 d => uint_val (acc * 10 + 5) d
  | Decimal.D6 d => uint_val (acc * 10 + 6) d
  | Decimal.D7 d => uint_val (acc * 10 + 7) d
  | Decimal.D8 d => uint_val (acc * 10 + 8) d
  | Decimal.D9 d => uint_val (acc * 10 + 9) d
  end.

Lemma uint_val_acc d p : Z.pos (Pos.of_uint_acc d p) = uint_val (Z.pos p) d.
Proof.
  revert p; induction d; intros p; cbn [Pos.of_uint_acc uint_val]; try reflexivity; rewrite IHd; f_equal; lia.
Qed.

Lemma uint_val_of_uint d : Z.of_N (Pos.of_uint d) = uint_val 0 d.
Proof. induction d; cbn [Pos.of_uint uint_val Z.of_N]; try rewrite uint_val_acc; try done. Qed.

Lemma min_step acc k :
  0 <= acc -> 0 <= k -> Z.min LONG_MAX (Z.min LONG_MAX acc * 10 + k) = Z.min LONG_MAX (acc * 10 + k).
Proof. unfold LONG_MAX. lia. Qed.

Lemma wcstol_step k acc s :
  0 <= k < 10 -> wcstol_acc 10 acc (48 + k :: s) = wcstol_acc 10 (Z.min LONG_MAX (acc * 10 + k)) s.
Proof.
  intros Hk. cbn [wcstol_acc]. unfold digit_val, iswdigit.
  destruct ((48 <=? 48 + k) && (48 + k <=? 57)) eqn:E; [|exfalso; lia].
  destruct (48 + k - 48 <? 10) eqn:E'; [|exfalso; lia]. do 2 f_equal. lia.
Qed.

Lemma wcstol_uint d acc :
  0 <= acc ->
  wcstol_acc 10 (Z.min LONG_MAX acc) (ws (DecimalString.NilEmpty.string_of_uint d))
  = Z.min LONG_MAX (uint_val acc d).
Proof.
  assert (forall a t k, ch a = 48 + k -> ws (String a t) = 48 + k :: ws t) as Hws
    by (intros a t k H; unfold ch in H; unfold ws; simpl; by rewrite H).
  revert acc; induction d; intros acc Hacc; [done|..];
    cbn [DecimalString.NilEmpty.string_of_uint uint_val].
  1: rewrite (Hws _ _ 0) by done.
  2: rewrite (Hws _ _ 1) by done.
  3: rewrite (Hws _ _ 2) by done.
  4: rewrite (Hws _ _ 3) by done.
  5: rewrite (Hws _ _ 4) by done.
  6: rewrite (Hws _ _ 5) by done.
  7: rewrite (Hws _ _ 6) by done.
  8: rewrite (Hws _ _ 7) by done.
  9: rewrite (Hws _ _ 8) by done.
  10: rewrite (Hws _ _ 9) by done.
  all: rewrite wcstol_step, min_step, IHd by lia; do 2 f_equal; lia.
Qed.

Lemma digits_uint d : forallb iswdigit (ws (DecimalString.NilEmpty.string_of_uint d)) = true.
Proof. induction d; unfold ws in *; simpl; done. Qed.

(** The rendering of a non-negative integer is a non-empty string of digits
    that [wcstol] reads back. *)
Lemma dec_str_digits n :
  0 <= n -> exists c s, dec_str n = c :: s /\ forallb iswdigit (c :: s) = true /\
                        wcstol (c :: s) 10 = Z.min LONG_MAX n.
Proof.
  intros Hn. unfold dec_str. destruct n as [|p|p]; [by exists 48, []| |done].
  pose proof (DecimalPos.Unsigned.of_to p) as Hof.
  cbn [Z.to_int DecimalString.NilZero.string_of_int].
  assert (Pos.to_uint p <> Decimal.Nil) as Hnil by apply DecimalPos.Unsigned.to_uint_nonnil.
  assert (DecimalString.NilZero.string_of_uint (Pos.to_uint p)
          = DecimalString.NilEmpty.string_of_uint (Pos.to_uint p)) as ->.
  { unfold DecimalString.NilZero.string_of_uint. by destruct (Pos.to_uint p). }
  pose proof (wcstol_uint (Pos.to_uint p) 0 ltac:(lia)) as Hw.
  pose proof (digits_uint (Pos.to_uint p)) as Hd.
  pose proof (uint_val_of_uint (Pos.to_uint p)) as Hv. rewrite Hof in Hv. rewrite <- Hv in Hw.
  destruct (ws (DecimalString.NilEmpty.string_of_uint (Pos.to_uint p))) as [|c s] eqn:E.
  { exfalso. destruct (Pos.to_uint p); done. }
  by exists c, s.
Qed.

Lemma take_ident_all al s :
  forallb iswdigit s = true -> (forall c, iswdigit c = true -> al c = true) -> take_ident al s = (s, []).
Proof.
  intros Hs Hal. induction s as [|c s IH]; [done|].
  simpl in Hs. apply andb_true_iff in Hs as [Hc Hs].
  cbn [take_ident]. unfold ident_char. rewrite (Hal c Hc). simpl. by rewrite IH.
Qed.

Lemma digit_not c x : iswdigit c = true -> iswdigit x = false -> (c =? x) = false.
Proof. intros Hc Hx. apply Z.eqb_neq. intros ->. congruence. Qed.

(** A digit falls in the default case of the switch. *)
Lemma lex_char_digit al p c src : iswdigit c = true -> lex_char al p c src = word al p c src.
Proof.
  intros Hc. unfold lex_char. rewrite !(digit_not c) by done. reflexivity.
Qed.

(** Decimal literals round trip.  The decimal rendering of a number below
    65536 is tokenized, in every locale whose letters and digits include the
    decimal digits, as the one literal of that value. *)
Theorem tokenize_decimal al n :
  (forall c, iswdigit c = true -> al c = true) -> 0 <= n < 65536 ->
  exists t eos, tokenize al (dec_str n) = Ok [t; eos] /\
    type t = TOKEN_INT_LITERAL /\ iValue t = n /\ sValue t = dec_str n /\
    pos t = mkPos 0 0 0 true /\ type eos = TOKEN_END_OF_STREAM.
Proof.
  intros Hal Hn. destruct (dec_str_digits n) as (c & s & -> & Hd & Hw); [lia|].
  rewrite Z.min_r in Hw by (unfold LONG_MAX; lia).
  apply andb_true_iff in Hd as Hcs. destruct Hcs as [Hc Hs].
  unfold tokenize. cbn [List.length tokenize_loop].
  rewrite lex_char_digit by done. unfold word. rewrite Hal, take_ident_all by done.
  cbn [negb andb]. unfold word_token. rewrite Hc.
  assert (check_number (advance (SourcePos_at 0 0 0) 1) (c :: s) = Ok tt) as ->.
  { unfold check_number. destruct s as [|c1 s]; [done|].
    apply andb_true_iff in Hs as Hs'. destruct Hs' as [Hc1 _].
    replace (forallb iswdigit (c1 :: s)) with true by (symmetry; exact Hs).
    rewrite Hc1. cbn [negb]. by rewrite andb_false_r. }
  cbn [mbind res_bind].
  assert (make_token TOKEN_INT_LITERAL (advance (SourcePos_at 0 0 0) 1) (c :: s)
          = Ok (mkToken TOKEN_INT_LITERAL (c :: s) n (mkPos 0 0 0 true))) as ->.
  { cbn [make_token]. destruct s as [|c1 s].
    - rewrite Hw. destruct (65536 <=? n) eqn:E; [b2p; lia|]. done.
    - apply andb_true_iff in Hs as [Hc1 _].
      rewrite !(digit_not c1) by done. rewrite Hw. destruct (65536 <=? n) eqn:E; [b2p; lia|]. done. }
  cbn. destruct (List.length s); cbn; do 2 eexists; split_and!; reflexivity.
Qed.

Lemma tokenize_decimal_witness :
  exists t eos, tokenize ascii_alnum (dec_str 40961) = Ok [t; eos] /\ iValue t = 40961.
Proof.
  destruct (tokenize_decimal ascii_alnum 40961) as (t & eos & H & _ & Hi & _).
  - intros c Hc. unfold ascii_alnum. rewrite Hc. reflexivity.
  - lia.
  - exists t, eos. split; [exact H|exact Hi].
Defined.

(** Columns after a simple comment are off by one: the first token of the
    line that follows a comment is reported at column 1, while it is at column
    0 after an ordinary line. *)
Theorem comment_column :
  exists t1 t2 e1 e2,
    tokenize ascii_alnum (ws "#" ++ [10] ++ ws "a") = Ok [t1; e1] /\
    tokenize ascii_alnum (ws " " ++ [10] ++ ws "a") = Ok [t2; e2] /\
    row (pos t1) = 1 /\ row (pos t2) = 1 /\ column (pos t1) = 1 /\ column (pos t2) = 0.
Proof.
  exists (mkToken TOKEN_STRING_LITERAL (ws "a") 0 (mkPos 2 1 1 true)),
    (mkToken TOKEN_STRING_LITERAL (ws "a") 0 (mkPos 2 1 0 true)),
    (mkToken TOKEN_END_OF_STREAM [] 0 (mkPos 2 1 1 true)),
    (mkToken TOKEN_END_OF_STREAM [] 0 (mkPos 2 1 0 true)).
  split_and!; vm_compute; reflexivity.
Qed.
