(* ===== verification/Lookup.v ===== *)
(** * The state of the compiler and the lookup of identifiers

    compiler/identifier-lookup.cpp and the data members of [class Compiler]
    (compiler/compiler.h). *)
From Stdlib Require Import ZArith Lia List String.
From stdpp Require Import base list strings.
From S2P Require Import Prelude Errors Consts OrdMap Target Lexer.

Local Open Scope Z_scope.

(** ** Edit distance *)

(** The inner loop: [diag] is [Do[j-1]], [left] is [Dn[j-1]], [row] is
    [Do[j..l2]]. *)
Fixpoint dist_row (c : Z) (s2 : wstring) (diag left : Z) (row : list Z) : list Z :=
  match s2, row with
  | d :: s2', up :: row' =>
      let x := Z.min (Z.min (up + 1) (left + 1)) (diag + (if c =? d then 0 else 1)) in
      x :: dist_row c s2' up x row'
  | _, _ => []
  end.

(** One turn of the outer loop. *)
Definition dist_step (s2 : wstring) (row : list Z) (c : Z) : list Z :=
  match row with
  | d0 :: row' => (d0 + 1) :: dist_row c s2 d0 (d0 + 1) row'
  | [] => []
  end.

(** The first row: [Do[j] = Do[j-1] + 1]. *)
Fixpoint first_row (s2 : wstring) (d : Z) : list Z :=
  match s2 with [] => [d] | _ :: s2' => d :: first_row s2' (d + 1) end.

Definition editDistance (s1 s2 : wstring) : Z :=
  List.last (foldl (dist_step s2) (first_row s2 0) s1) 0.

(** ** Lookup in a table *)

Record candidate : Type := mkCandidate { bestName : wstring; bestDist : Z }.

Definition maxDist : Z := 3.

(** One turn of the search for the closest name. *)
Definition consider (name : wstring) (best : candidate) (thatName : wstring) : candidate :=
  let d := editDistance name thatName in
  if (d <? bestDist best) && (d <? maxDist) then mkCandidate thatName d else best.

Definition closest (name : wstring) (names : list wstring) : candidate :=
  foldl (consider name) (mkCandidate [] 4294967295) names.

Definition findInTable {V} (map : omap wstring V) (name : wstring) (pos : SourcePos)
    (notFoundError misspelledError : ErrorCode) : res error V :=
  match om_find name map with
  | Some v => Ok v
  | None =>
      let best := closest name (List.map fst map) in
      if bestDist best <? maxDist then throw pos misspelledError [name; bestName best]
      else throw pos notFoundError [name]
  end.

(** ** The compiler *)

Record SubroutineDescriptor : Type := mkSub { sub_name : wstring; sub_address : Z; sub_line : Z }.

(** [NamedValue]: a name and an [int]. *)
Record NamedValue : Type := mkNamed { nv_name : wstring; nv_value : Z }.

Record CommonDefinitions : Type := mkCommon { events : list NamedValue; constants : list NamedValue }.

(** [NamedValuesVector::contains], with the position it stores. *)
Fixpoint contains_from (i : Z) (v : list NamedValue) (s : wstring) : option Z :=
  match v with
  | [] => None
  | nv :: v' => if decide (nv_name nv = s) then Some i else contains_from (i + 1) v' s
  end.
Definition contains (v : list NamedValue) (s : wstring) : option Z := contains_from 0 v s.

Record Compiler : Type := mkCompiler {
  tokens : list Token;
  variablesMap : VariablesMap;
  implementedEvents : omap Z unit;
  functionsMap : FunctionsMap;
  constantsMap : omap wstring Z;
  globalEventsMap : omap wstring Z;
  allEventsMap : omap wstring Z;
  subroutineTable : list SubroutineDescriptor;
  subroutineReverseTable : omap wstring Z;
  freeVariableIndex : Z;
  endVariableIndex : Z;
  targetDescription : TargetDescription;
  commonDefinitions : CommonDefinitions;
  uid : Z  (* the function-level static of allocateTemporaryVariable *)
}.

Section Find.
Variable c : Compiler.

Definition findVariable (name : wstring) (pos : SourcePos) : res error (Z * Z) :=
  findInTable (variablesMap c) name pos ERROR_VARIABLE_NOT_DEFINED ERROR_VARIABLE_NOT_DEFINED_GUESS.
Definition findFunction (name : wstring) (pos : SourcePos) : res error Z :=
  findInTable (functionsMap c) name pos ERROR_FUNCTION_NOT_DEFINED ERROR_FUNCTION_NOT_DEFINED_GUESS.
Definition findConstant (name : wstring) (pos : SourcePos) : res error Z :=
  findInTable (constantsMap c) name pos ERROR_CONSTANT_NOT_DEFINED ERROR_CONSTANT_NOT_DEFINED_GUESS.
Definition constantExists (name : wstring) : bool :=
  match om_find name (constantsMap c) with Some _ => true | None => false end.
Definition findGlobalEvent (name : wstring) (pos : SourcePos) : res error Z :=
  match findInTable (globalEventsMap c) name pos ERROR_EVENT_NOT_DEFINED ERROR_EVENT_NOT_DEFINED_GUESS with
  | Throw e =>
      match om_find name (allEventsMap c) with
      | Some _ => throw pos ERROR_EMIT_LOCAL_EVENT [name]
      | None => Throw e
      end
  | r => r
  end.
Definition findAnyEvent (name : wstring) (pos : SourcePos) : res error Z :=
  findInTable (allEventsMap c) name pos ERROR_EVENT_NOT_DEFINED ERROR_EVENT_NOT_DEFINED_GUESS.
Definition findSubroutine (name : wstring) (pos : SourcePos) : res error Z :=
  findInTable (subroutineReverseTable c) name pos ERROR_SUBROUTINE_NOT_DEFINED
    ERROR_SUBROUTINE_NOT_DEFINED_GUESS.
End Find.

(** [Compiler::buildMaps]. *)
Definition buildMaps (c : Compiler) : Compiler :=
  let t := targetDescription c in
  let d := commonDefinitions c in
  let '(vars, free) := getVariablesMap t in
  let globals := index_names 0 1 (List.map nv_name (events d)) [] in
  mkCompiler (tokens c) vars [] (getFunctionsMap t)
    (foldl (fun m nv => om_set (nv_name nv) (nv_value nv) m) [] (constants d))
    globals
    (index_names ASEBA_EVENT_LOCAL_EVENTS_START (-1) (List.map event_name (localEvents t)) globals)
    [] [] free (endVariableIndex c) t d (uid c).

(** ** The edit distance is the Levenshtein distance *)

(** The textbook recursion, on the strings read from their ends. *)
Fixpoint lev (a : wstring) : wstring -> Z :=
  fix lev_b (b : wstring) : Z :=
    match a, b with
    | [], _ => Z.of_nat (List.length b)
    | _, [] => Z.of_nat (List.length a)
    | x :: a', y :: b' =>
        Z.min (Z.min (lev a' b + 1) (lev_b b' + 1)) (lev a' b' + (if x =? y then 0 else 1))
    end.

Lemma lev_nil_l b : lev [] b = Z.of_nat (List.length b).
Proof. by destruct b. Qed.

Lemma lev_nil_r a : lev a [] = Z.of_nat (List.length a).
Proof. by destruct a. Qed.

Lemma lev_cons x a y b :
  lev (x :: a) (y :: b) =
  Z.min (Z.min (lev a (y :: b) + 1) (lev (x :: a) b + 1)) (lev a b + (if x =? y then 0 else 1)).
Proof. reflexivity. Qed.

(** The distances of [a] to the extensions of [b] by prefixes of [s2], both
    read from their ends: a row of the table. *)
Fixpoint lev_row (a b s2 : wstring) : list Z :=
  lev a b :: match s2 with [] => [] | y :: s2' => lev_row a (y :: b) s2' end.

Lemma lev_row_cons a b s2 :
  lev_row a b s2 = lev a b :: match s2 with [] => [] | y :: s2' => lev_row a (y :: b) s2' end.
Proof. by destruct s2. Qed.

Lemma first_row_lev b s2 : first_row s2 (Z.of_nat (List.length b)) = lev_row [] b s2.
Proof.
  revert b; induction s2 as [|y s2 IH]; intros b; rewrite lev_row_cons, lev_nil_l; simpl; [done|].
  f_equal. rewrite <- IH. f_equal. simpl. lia.
Qed.

Lemma dist_row_lev x a b s2 :
  dist_row x s2 (lev a b) (lev (x :: a) b)
    (match s2 with [] => [] | y :: s2' => lev_row a (y :: b) s2' end)
  = match s2 with [] => [] | y :: s2' => lev_row (x :: a) (y :: b) s2' end.
Proof.
  revert b; induction s2 as [|y s2 IH]; intros b; [done|].
  rewrite (lev_row_cons a), (lev_row_cons (x :: a)), lev_cons. cbn [dist_row].
  f_equal. rewrite <- IH. by rewrite lev_cons.
Qed.

Lemma dist_step_lev x a s2 : dist_step s2 (lev_row a [] s2) x = lev_row (x :: a) [] s2.
Proof.
  rewrite !lev_row_cons. cbn [dist_step]. rewrite <- dist_row_lev.
  rewrite !lev_nil_r. cbn [List.length]. f_equal; [lia|]. f_equal. lia.
Qed.

Lemma fold_dist_lev s1 a s2 :
  foldl (dist_step s2) (lev_row a [] s2) s1 = lev_row (rev s1 ++ a) [] s2.
Proof.
  revert a; induction s1 as [|x s1 IH]; intros a; simpl; [done|].
  rewrite dist_step_lev, IH, <- app_assoc. done.
Qed.

Lemma last_lev_row a b s2 d : List.last (lev_row a b s2) d = lev a (rev s2 ++ b).
Proof.
  revert b; induction s2 as [|y s2 IH]; intros b; [done|].
  rewrite lev_row_cons. destruct (lev_row a (y :: b) s2) as [|z l] eqn:E.
  - by destruct s2.
  - change (List.last (lev a b :: z :: l) d) with (List.last (z :: l) d).
    rewrite <- E, IH. simpl. by rewrite <- app_assoc.
Qed.

(** The two-row dynamic programming of [editDistance] computes the
    Levenshtein distance. *)
Theorem editDistance_lev s1 s2 : editDistance s1 s2 = lev (rev s1) (rev s2).
Proof.
  unfold editDistance. rewrite (first_row_lev []), fold_dist_lev, last_lev_row, !app_nil_r. done.
Qed.

(** ** Looking a name up *)

(** [closest] is minimal among the names closer than [maxDist]. *)
Lemma closest_acc name names best :
  bestDist best <= 4294967295 ->
  let r := foldl (consider name) best names in
  bestDist r <= bestDist best /\
  Forall (fun n => editDistance name n < maxDist -> bestDist r <= editDistance name n) names /\
  (r = best \/ exists n, n ∈ names /\ r = mkCandidate n (editDistance name n) /\ editDistance name n < maxDist).
Proof.
  revert best; induction names as [|n names IH]; intros best Hb; simpl.
  - split_and!; [lia|constructor|by left].
  - assert (bestDist (consider name best n) <= bestDist best /\
            (editDistance name n < maxDist -> bestDist (consider name best n) <= editDistance name n) /\
            (consider name best n = best \/
             consider name best n = mkCandidate n (editDistance name n) /\ editDistance name n < maxDist))
      as (H1 & H2 & H3).
    { unfold consider. destruct (_ && _) eqn:E; simpl; b2p.
      - split_and!; [lia|lia|by right].
      - apply andb_false_iff in E. destruct E; b2p; split_and!; try lia; by left. }
    destruct (IH (consider name best n) ltac:(lia)) as (I1 & I2 & I3).
    split_and!; [lia| |].
    + constructor; [intros; lia|done].
    + destruct I3 as [-> | (n' & Hn & -> & Hlt)].
      * destruct H3 as [-> | [-> Hlt]]; [by left|right]. exists n. rewrite elem_of_cons. auto.
      * right. exists n'. rewrite elem_of_cons. auto.
Qed.

(** looking a name up in a table returns the entry of that name; otherwise
    it reports the name as undefined, with a suggestion exactly when a name of
    the table is at distance less than 3, the suggestion being in the table and
    at the least distance of all its names. *)
Theorem findInTable_spec {V} (map : omap wstring V) name pos e1 e2 :
  match om_find name map with
  | Some v => findInTable map name pos e1 e2 = Ok v
  | None =>
      (Forall (fun n => maxDist <= editDistance name n) (List.map fst map) /\
       findInTable map name pos e1 e2 = throw pos e1 [name]) \/
      (exists guess, guess ∈ List.map fst map /\ editDistance name guess < maxDist /\
         Forall (fun n => editDistance name guess <= editDistance name n) (List.map fst map) /\
         findInTable map name pos e1 e2 = throw pos e2 [name; guess])
  end.
Proof.
  unfold findInTable. destruct (om_find name map) as [v|]; [done|].
  destruct (closest_acc name (List.map fst map) (mkCandidate [] 4294967295)) as (_ & Hall & Hr);
    [simpl; lia|]. fold (closest name (List.map fst map)) in *.
  destruct (bestDist (closest name (List.map fst map)) <? maxDist) eqn:E; b2p.
  - right. destruct Hr as [Hr|(n & Hn & Hr & Hlt)]; rewrite Hr in *; simpl in *.
    + unfold maxDist in E; lia.
    + exists n. split_and!; try done. eapply Forall_impl; [exact Hall|]. simpl. intros x Hx.
      unfold maxDist in *. lia.
  - left. split; [|done]. eapply Forall_impl; [exact Hall|]. simpl. intros x Hx. lia.
Qed.
