(* ===== verification/Disasm.v ===== *)
(** * Instructions

    The words of the bytecode read as instructions: the [switch] of
    [Compiler::disassemble] (compiler/compiler.cpp), without its text. *)
From Stdlib Require Import ZArith Lia List.
From stdpp Require Import base list.
From S2P Require Import Prelude Errors Consts.

Local Open Scope Z_scope.

(** The instructions with the operands that the disassembler prints; operators
    by their code. *)
Inductive instr : Type :=
| STOP
| SMALL_IMMEDIATE (value : Z)
| LARGE_IMMEDIATE (value : Z)
| LOAD (addr : Z)
| STORE (addr : Z)
| LOAD_INDIRECT (addr size : Z)
| STORE_INDIRECT (addr size : Z)
| UNARY_ARITHMETIC (op : Z)
| BINARY_ARITHMETIC (op : Z)
| JUMP (offset : Z)
| CONDITIONAL_BRANCH (op : Z) (edge : bool) (skip : Z)
| EMIT (event addr size : Z)
| NATIVE_CALL (id : Z)
| SUB_CALL (addr : Z)
| SUB_RET
| UNKNOWN.

(** The words an instruction takes. *)
Definition instr_size (i : instr) : Z :=
  match i with
  | LARGE_IMMEDIATE _ | LOAD_INDIRECT _ _ | STORE_INDIRECT _ _ | CONDITIONAL_BRANCH _ _ _ => 2
  | EMIT _ _ _ => 3
  | _ => 1
  end.

(** [(signed short)(bytecode << 4) >> 4]: the low 12 bits, signed. *)
Definition signed12 (w : Z) : Z := Z.shiftr (s16 (Z.shiftl w 4)) 4.
(** [bytecode & 0x0fff]. *)
Definition low12 (w : Z) : Z := Z.land w 0x0fff.

(** The instruction at [bytecode[pc]], of which [w] is the first word; [None]
    when an operand is out of range. *)
Definition decode (w : Z) (operands : list Z) : option instr :=
  match bytecode_of_id (Z.shiftr w 12), operands with
  | Some ASEBA_BYTECODE_STOP, _ => Some STOP
  | Some ASEBA_BYTECODE_SMALL_IMMEDIATE, _ => Some (SMALL_IMMEDIATE (signed12 w))
  | Some ASEBA_BYTECODE_LARGE_IMMEDIATE, a :: _ => Some (LARGE_IMMEDIATE (s16 a))
  | Some ASEBA_BYTECODE_LOAD, _ => Some (LOAD (low12 w))
  | Some ASEBA_BYTECODE_STORE, _ => Some (STORE (low12 w))
  | Some ASEBA_BYTECODE_LOAD_INDIRECT, a :: _ => Some (LOAD_INDIRECT (low12 w) a)
  | Some ASEBA_BYTECODE_STORE_INDIRECT, a :: _ => Some (STORE_INDIRECT (low12 w) a)
  | Some ASEBA_BYTECODE_UNARY_ARITHMETIC, _ => Some (UNARY_ARITHMETIC (Z.land w 0xff))
  | Some ASEBA_BYTECODE_BINARY_ARITHMETIC, _ => Some (BINARY_ARITHMETIC (Z.land w 0xff))
  | Some ASEBA_BYTECODE_JUMP, _ => Some (JUMP (signed12 w))
  | Some ASEBA_BYTECODE_CONDITIONAL_BRANCH, a :: _ =>
      Some (CONDITIONAL_BRANCH (Z.land w 0xff) (negb (Z.land w (Z.shiftl 1 ASEBA_IF_IS_WHEN_BIT) =? 0)) (s16 a))
  | Some ASEBA_BYTECODE_EMIT, a :: b :: _ => Some (EMIT (low12 w) a b)
  | Some ASEBA_BYTECODE_NATIVE_CALL, _ => Some (NATIVE_CALL (low12 w))
  | Some ASEBA_BYTECODE_SUB_CALL, _ => Some (SUB_CALL (low12 w))
  | Some ASEBA_BYTECODE_SUB_RET, _ => Some SUB_RET
  | None, _ => Some UNKNOWN
  | Some _, _ => None
  end.

(** The loop [while(pc < bytecode.size())]: [skip] words remain of the current
    instruction. *)
Fixpoint disassemble_from (skip : nat) (l : list Z) : res error (list instr) :=
  match l, skip with
  | [], _ => Ok []
  | _ :: l', S skip' => disassemble_from skip' l'
  | w :: l', O =>
      i ← of_option (decode w l');
      r ← disassemble_from (Nat.pred (Z.to_nat (instr_size i))) l';
      Ok (i :: r)
  end.
Definition disassemble (l : list Z) : res error (list instr) := disassemble_from 0 l.

(** The words of a list of instructions. *)
Fixpoint code_size (il : list instr) : Z :=
  match il with [] => 0 | i :: il' => instr_size i + code_size il' end.

Lemma code_size_app a b : code_size (a ++ b) = code_size a + code_size b.
Proof. induction a as [|i a IH]; simpl; [done|]. rewrite IH. lia. Qed.
Lemma instr_size_pos i : 1 <= instr_size i <= 3.
Proof. destruct i; simpl; lia. Qed.
Lemma code_size_nonneg l : 0 <= code_size l.
Proof. induction l as [|i l IH]; simpl; [lia|]. pose proof (instr_size_pos i). lia. Qed.
#[export] Hint Rewrite code_size_app : intsr.

(** The operands of a decoded instruction are there. *)
Lemma decode_size w l i : decode w l = Some i -> (Nat.pred (Z.to_nat (instr_size i)) <= List.length l)%nat.
Proof.
  unfold decode. destruct (bytecode_of_id _) as [[]|]; destruct l as [|a [|b l]]; intros [= <-]; simpl; lia.
Qed.

Lemma decode_app w l l' i : decode w l = Some i -> decode w (l ++ l') = Some i.
Proof.
  unfold decode. destruct (bytecode_of_id _) as [[]|]; destruct l as [|a [|b l]]; intros H; try discriminate H;
    exact H || (destruct l'; exact H) .
Qed.

(** Programs are read one after the other. *)
Lemma disassemble_from_app k l1 l2 i1 i2 :
  (k <= List.length l1)%nat -> disassemble_from k l1 = Ok i1 -> disassemble l2 = Ok i2 ->
  disassemble_from k (l1 ++ l2) = Ok (i1 ++ i2).
Proof.
  intros Hk H1 H2. revert k i1 Hk H1. induction l1 as [|w l1 IH]; intros [|k] i1 Hk H1; simpl in Hk.
  - by injection H1 as <-.
  - lia.
  - cbn [disassemble_from app] in *. destruct (decode w l1) as [i|] eqn:E; [|discriminate].
    rewrite (decode_app _ _ _ _ E). cbn [of_option mbind res_bind] in *. inv_ok.
    erewrite IH; [reflexivity|by eapply decode_size|done].
  - cbn [disassemble_from app] in *. apply IH; [lia|done].
Qed.

Lemma disassemble_app l1 l2 i1 i2 :
  disassemble l1 = Ok i1 -> disassemble l2 = Ok i2 -> disassemble (l1 ++ l2) = Ok (i1 ++ i2).
Proof. apply disassemble_from_app. lia. Qed.

(** The length of a program is that of its instructions. *)
Lemma disassemble_from_size k l il :
  (k <= List.length l)%nat -> disassemble_from k l = Ok il ->
  code_size il + Z.of_nat k = Z.of_nat (List.length l).
Proof.
  revert k il; induction l as [|w l IH]; intros [|k] il Hk H; simpl in Hk; try lia.
  - by injection H as <-.
  - cbn [disassemble_from] in H. destruct (decode w l) as [i|] eqn:E; [|discriminate].
    cbn [of_option mbind res_bind] in H. inv_ok. apply IH in H; [|by eapply decode_size].
    pose proof (instr_size_pos i). simpl. lia.
  - cbn [disassemble_from] in H. apply IH in H; [|lia]. simpl. lia.
Qed.

Lemma disassemble_size l il : disassemble l = Ok il -> code_size il = Z.of_nat (List.length l).
Proof. intros H. apply disassemble_from_size in H; lia. Qed.
