(* ===== verification/Tree.v ===== *)
(** * The syntax tree of the compiler

    The [Node] class hierarchy of compiler/tree.h as a rose tree: a node has
    a kind (its class and the fields of that class), a source position and a
    vector of children.  [dynamic_cast] is a match on the kind, an access to
    [children[i]] may be out of range, and [shallowCopy]/[deepCopy] are the
    identity on these immutable values. *)
From Stdlib Require Import ZArith Lia List String.
From stdpp Require Import base list strings.
From S2P Require Import Prelude Errors Consts.

Local Open Scope Z_scope.

(** The concrete classes deriving from [Node], with their fields. *)
Inductive kind : Type :=
| BlockNode
| ProgramNode
| AssignmentNode
| IfWhenNode (edgeSensitive : bool) (endLine : Z)
| FoldedIfWhenNode (op : AsebaBinaryOperator) (edgeSensitive : bool) (endLine : Z)
| WhileNode
| FoldedWhileNode (op : AsebaBinaryOperator)
| EventDeclNode (eventId : Z)
| EmitNode (eventId arrayAddr arraySize : Z)
| SubDeclNode (subroutineId : Z)
| CallSubNode (subroutineName : wstring) (subroutineId : Z)
| BinaryArithmeticNode (op : AsebaBinaryOperator)
| UnaryArithmeticNode (op : AsebaUnaryOperator)
| ImmediateNode (value : Z)
| StoreNode (varAddr : Z)
| LoadNode (varAddr : Z)
| ArrayWriteNode (arrayAddr arraySize : Z) (arrayName : wstring)
| ArrayReadNode (arrayAddr arraySize : Z) (arrayName : wstring)
| LoadNativeArgNode (tempAddr arrayAddr arraySize : Z) (arrayName : wstring)
| CallNode (funcId : Z) (templateArgs : list Z)
| ReturnNode
| TupleVectorNode
| MemoryVectorNode (arrayAddr arraySize : Z) (arrayName : wstring) (write : bool)
| ArithmeticAssignmentNode (op : AsebaBinaryOperator)
| UnaryArithmeticAssignmentNode (arithmeticOp : AsebaBinaryOperator).

Inductive node : Type :=
| Node (k : kind) (pos : SourcePos) (children : list node).

Definition node_kind (n : node) : kind := let 'Node k _ _ := n in k.
Definition sourcePos (n : node) : SourcePos := let 'Node _ p _ := n in p.
Definition children (n : node) : list node := let 'Node _ _ cs := n in cs.

(** Induction with the hypothesis for every child. *)
Section NodeInd.
Variable P : node -> Prop.
Hypothesis step : forall k pos cs, Forall P cs -> P (Node k pos cs).

Fixpoint node_rose_ind (n : node) : P n :=
  match n with
  | Node k pos cs =>
      step k pos cs ((fix go (l : list node) : Forall P l :=
        match l with
        | [] => @List.Forall_nil node P
        | c :: l' => @List.Forall_cons node P c l' (node_rose_ind c) (go l')
        end) cs)
  end.
End NodeInd.

Fixpoint node_size (n : node) : nat :=
  let 'Node _ _ cs := n in S (list_sum (List.map node_size cs)).

(** ** Run-time class tests *)

Definition is_block (n : node) : bool :=
  match node_kind n with BlockNode | ProgramNode => true | _ => false end.
Definition is_tuple (n : node) : bool :=
  match node_kind n with TupleVectorNode => true | _ => false end.
Definition is_memory (n : node) : bool :=
  match node_kind n with MemoryVectorNode _ _ _ _ => true | _ => false end.
Definition as_immediate (n : node) : option Z :=
  match node_kind n with ImmediateNode v => Some v | _ => None end.
Definition is_binary (n : node) : bool :=
  match node_kind n with BinaryArithmeticNode _ => true | _ => false end.

(** ** Node names, for error messages (tree.h) *)

Definition toNodeName (n : node) : string :=
  match node_kind n with
  | BlockNode => "block"
  | ProgramNode => "program block"
  | AssignmentNode => "assignment"
  | IfWhenNode _ _ => "if/when"
  | FoldedIfWhenNode _ _ _ => "folded if/when"
  | WhileNode => "while"
  | FoldedWhileNode _ => "folded while"
  | EventDeclNode _ => "event declaration"
  | EmitNode _ _ _ => "emit"
  | SubDeclNode _ => "subroutine declaration"
  | CallSubNode _ _ => "subroutine call"
  | BinaryArithmeticNode _ => "binary function"
  | UnaryArithmeticNode _ => "unary function"
  | ImmediateNode _ => "constant"
  | StoreNode _ => "variable access (write)"
  | LoadNode _ => "variable access (read)"
  | ArrayWriteNode _ _ _ => "array access (write)"
  | ArrayReadNode _ _ _ => "array access (read)"
  | LoadNativeArgNode _ _ _ _ => "load native arg"
  | CallNode _ _ => "native function call"
  | ReturnNode => "return"
  | TupleVectorNode => "array of constants"
  | MemoryVectorNode _ _ _ _ => "vector access"
  | ArithmeticAssignmentNode _ => "arithmetic assignment"
  | UnaryArithmeticAssignmentNode _ => "unary arithmetic assignment"
  end.

(** ** Vector sizes and addresses (tree-expand.cpp) *)

(** [enum MemoryErrorCode { E_NOVAL = UINT_MAX }]. *)
Definition E_NOVAL : Z := 4294967295.

Definition isImmediateVector (n : node) : bool :=
  forallb (fun c => match as_immediate c with Some _ => true | None => false end) (children n).

(** [Node::getVectorSize]: every child has the size of the first one. *)
Fixpoint same_sizes (size_of : node -> res error Z) (pos : SourcePos) (size : Z)
    (cs : list node) : res error Z :=
  match cs with
  | [] => Ok size
  | c :: cs' =>
      new_size ← size_of c;
      if size =? E_NOVAL then same_sizes size_of pos new_size cs'
      else if size =? new_size then same_sizes size_of pos size cs'
      else throw pos ERROR_ARRAY_SIZE_MISMATCH [dec_str size; dec_str new_size]
  end.

(** [TupleVectorNode::getVectorSize]: the sum, in [unsigned] arithmetic. *)
Fixpoint sum_sizes (size_of : node -> res error Z) (size : Z) (cs : list node) : res error Z :=
  match cs with
  | [] => Ok size
  | c :: cs' => s ← size_of c; sum_sizes size_of (u32 (size + s)) cs'
  end.

(** [TupleVectorNode::getImmediateValue(index)], given the size of the node:
    both assertions and the cast of [children[index]]. *)
Definition getImmediateValue_at (size : Z) (n : node) (index : Z) : res error Z :=
  _ ← assert_ (index <? size);
  _ ← assert_ (isImmediateVector n);
  c ← at_ (children n) (Z.to_nat index);
  of_option (as_immediate c).

(** [MemoryVectorNode::getVectorSize], given the size function for the
    children. *)
Definition memory_size (size_of : node -> res error Z) (pos : SourcePos)
    (arraySize : Z) (arrayName : wstring) (cs : list node) : res error Z :=
  match cs with
  | [] => Ok arraySize
  | [index] =>
      if is_tuple index then
        numberOfIndex ← size_of index;
        if numberOfIndex =? 1 then Ok 1
        else if numberOfIndex =? 2 then
          im0 ← getImmediateValue_at numberOfIndex index 0;
          im1 ← getImmediateValue_at numberOfIndex index 1;
          if (im1 <? 0) || (s32 arraySize <=? im1) then
            throw pos ERROR_ARRAY_OUT_OF_BOUND [arrayName; dec_str im1; dec_str arraySize]
          else d ← ret_int (im1 - im0); d1 ← ret_int (d + 1); Ok (u32 d1)
        else throw pos ERROR_ARRAY_ILLEGAL_ACCESS []
      else Ok 1
  | _ => Crash  (* assert(children.size() <= 1) *)
  end.

Fixpoint getVectorSize (n : node) : res error Z :=
  let 'Node k pos cs := n in
  match k with
  | ImmediateNode _ | StoreNode _ | LoadNode _ | ArrayWriteNode _ _ _
  | ArrayReadNode _ _ _ => Ok 1
  | TupleVectorNode => sum_sizes getVectorSize 0 cs
  | MemoryVectorNode _ arraySize arrayName _ => memory_size getVectorSize pos arraySize arrayName cs
  | _ => same_sizes getVectorSize pos E_NOVAL cs
  end.

(** [index->getImmediateValue(i)] on a whole node. *)
Definition getImmediateValue (n : node) (index : Z) : res error Z :=
  size ← getVectorSize n;
  getImmediateValue_at size n index.

Fixpoint getVectorAddr (n : node) : res error Z :=
  let 'Node k pos cs := n in
  match k with
  | StoreNode a | LoadNode a | ArrayWriteNode a _ _ | ArrayReadNode a _ _ => Ok a
  | MemoryVectorNode arrayAddr arraySize arrayName _ =>
      let bounded shift :=
        if (shift <? 0) || (s32 arraySize <=? shift) then
          throw pos ERROR_ARRAY_OUT_OF_BOUND [arrayName; dec_str shift; dec_str arraySize]
        else Ok (u32 (arrayAddr + shift)) in
      match cs with
      | [] => bounded 0
      | [index] =>
          if is_tuple index then shift ← getImmediateValue index 0; bounded shift
          else Ok E_NOVAL
      | _ => Crash
      end
  | _ => match cs with [] => Ok E_NOVAL | c :: _ => getVectorAddr c end
  end.

(** [MemoryVectorNode::isAddressStatic]. *)
Definition isAddressStatic (n : node) : bool :=
  match children n with
  | [] => true
  | index :: _ => is_tuple index && (List.length (children index) <=? 2)%nat && isImmediateVector index
  end.

(** [MemoryVectorNode::setWrite]. *)
Definition setWrite (w : bool) (n : node) : node :=
  match n with
  | Node (MemoryVectorNode a s nm _) pos cs => Node (MemoryVectorNode a s nm w) pos cs
  | _ => n
  end.
