(* ===== verification/TypeCheck.v ===== *)
(** * The type checker

    compiler/tree-typecheck.cpp.  [typeCheck] returns the type of a node and
    the node itself, because [CallSubNode::typeCheck] stores the identifier of
    the subroutine it resolved.  [expr_type] is the declarative typing of
    expression trees used to state what the later passes rely on. *)
From Stdlib Require Import ZArith Lia List String.
From stdpp Require Import base list strings.
From S2P Require Import Prelude Errors Consts Tree.

Local Open Scope Z_scope.

(** [enum ReturnType { UNIT = 0, BOOL, INT }]. *)
Inductive ReturnType : Type := UNIT | BOOL | INT.

#[export] Instance ReturnType_eq_dec : EqDecision ReturnType.
Proof. solve_decision. Defined.

Definition typeName (t : ReturnType) : string :=
  match t with UNIT => "unit" | BOOL => "bool" | INT => "integer" end.

Definition expectType (pos : SourcePos) (expected t : ReturnType) : res error unit :=
  if decide (t = expected) then Ok tt
  else throw pos ERROR_EXPECTING_TYPE [ws (typeName expected); ws (typeName t)].

(** The three groups of the [switch] of [BinaryArithmeticNode::typeCheck]. *)
Definition is_arith (op : AsebaBinaryOperator) : bool := binop_code op <? 10.
Definition is_comparison (op : AsebaBinaryOperator) : bool := (10 <=? binop_code op) && (binop_code op <? 16).
Definition is_logic (op : AsebaBinaryOperator) : bool := 16 <=? binop_code op.

(** The [ok] test of the branch nodes: the condition is a comparison, a logic
    operation or a [not]. *)
Definition is_condition (n : node) : bool :=
  match node_kind n with
  | BinaryArithmeticNode op =>
      (binop_code ASEBA_OP_EQUAL <=? binop_code op) && (binop_code op <=? binop_code ASEBA_OP_AND)
  | UnaryArithmeticNode op => unop_code op =? unop_code ASEBA_UNARY_OP_NOT
  | _ => false
  end.

Definition expectCondition (n : node) : res error unit :=
  if is_condition n then Ok tt
  else throw (sourcePos n) ERROR_EXPECTING_CONDITION [ws (toNodeName n)].

Section TypeCheck.
(** [compiler->findSubroutine(name, pos)->second]. *)
Variable findSubroutine : wstring -> SourcePos -> res error Z.

Fixpoint typeCheck (n : node) : res error (ReturnType * node) :=
  let 'Node k pos cs := n in
  match k, cs with
  | AssignmentNode, c0 :: c1 :: rest =>
      '(t0, c0') ← typeCheck c0; _ ← expectType pos UNIT t0;
      '(t1, c1') ← typeCheck c1; _ ← expectType pos INT t1;
      Ok (UNIT, Node k pos (c0' :: c1' :: rest))
  | IfWhenNode _ _, c0 :: c1 :: rest =>
      '(t0, c0') ← typeCheck c0; _ ← expectType pos BOOL t0;
      '(t1, c1') ← typeCheck c1; _ ← expectType pos UNIT t1;
      rest' ← match rest with
              | [] => Ok []
              | c2 :: more =>
                  '(t2, c2') ← typeCheck c2; _ ← expectType pos UNIT t2; Ok (c2' :: more)
              end;
      _ ← expectCondition c0';
      Ok (UNIT, Node k pos (c0' :: c1' :: rest'))
  | WhileNode, c0 :: c1 :: rest =>
      '(t0, c0') ← typeCheck c0; _ ← expectType pos BOOL t0;
      '(t1, c1') ← typeCheck c1; _ ← expectType pos UNIT t1;
      _ ← expectCondition c0';
      Ok (UNIT, Node k pos (c0' :: c1' :: rest))
  | CallSubNode name _, _ =>
      id ← findSubroutine name pos; Ok (UNIT, Node (CallSubNode name id) pos cs)
  | BinaryArithmeticNode op, c0 :: c1 :: rest =>
      let '(operand, result) :=
        if is_arith op then (INT, INT) else if is_comparison op then (INT, BOOL) else (BOOL, BOOL) in
      '(t0, c0') ← typeCheck c0; _ ← expectType pos operand t0;
      '(t1, c1') ← typeCheck c1; _ ← expectType pos operand t1;
      Ok (result, Node k pos (c0' :: c1' :: rest))
  | UnaryArithmeticNode op, c0 :: rest =>
      let operand := match op with ASEBA_UNARY_OP_NOT => BOOL | _ => INT end in
      '(t0, c0') ← typeCheck c0; _ ← expectType pos operand t0;
      Ok (operand, Node k pos (c0' :: rest))
  | (EventDeclNode _ | EmitNode _ _ _ | SubDeclNode _ | StoreNode _ | ArrayWriteNode _ _ _
    | CallNode _ _ | ReturnNode), _ => Ok (UNIT, n)
  | (ImmediateNode _ | LoadNode _ | ArrayReadNode _ _ _ | LoadNativeArgNode _ _ _ _), _ => Ok (INT, n)
  | (BlockNode | ProgramNode | FoldedIfWhenNode _ _ _ | FoldedWhileNode _), _ =>
      (* Node::typeCheck *)
      cs' ← mapR (fun c => snd <$> typeCheck c) cs; Ok (UNIT, Node k pos cs')
  | _, _ => Crash  (* AbstractTreeNode::typeCheck aborts; missing children *)
  end.
End TypeCheck.

(** ** Declarative typing of expressions *)

(** The expression trees the expansion produces, with the arity of every
    node, and their type.  An array index may have any type: [ArrayReadNode]
    does not check it. *)
Fixpoint expr_type (n : node) : option ReturnType :=
  match n with
  | Node (ImmediateNode _) _ [] => Some INT
  | Node (LoadNode _) _ [] => Some INT
  | Node (ArrayReadNode _ _ _) _ [i] =>
      match expr_type i with Some _ => Some INT | None => None end
  | Node (BinaryArithmeticNode op) _ [l; r] =>
      match expr_type l, expr_type r with
      | Some INT, Some INT =>
          if is_arith op then Some INT else if is_comparison op then Some BOOL else None
      | Some BOOL, Some BOOL => if is_logic op then Some BOOL else None
      | _, _ => None
      end
  | Node (UnaryArithmeticNode op) _ [c] =>
      match op, expr_type c with
      | ASEBA_UNARY_OP_NOT, Some BOOL => Some BOOL
      | ASEBA_UNARY_OP_NOT, _ => None
      | _, Some INT => Some INT
      | _, _ => None
      end
  | _ => None
  end.

Lemma expr_type_not_unit n : expr_type n <> Some UNIT.
Proof.
  destruct n as [k pos cs]; destruct k; try destruct cs as [|c [|c' [|]]]; simpl;
    repeat case_match; congruence.
Qed.

(** Case analysis on a typed expression. *)
Inductive expr_view : ReturnType -> node -> Prop :=
| View_imm v p : expr_view INT (Node (ImmediateNode v) p [])
| View_load a p : expr_view INT (Node (LoadNode a) p [])
| View_array a s nm p i t :
    expr_type i = Some t -> expr_view INT (Node (ArrayReadNode a s nm) p [i])
| View_arith op p l r :
    is_arith op = true -> expr_type l = Some INT -> expr_type r = Some INT ->
    expr_view INT (Node (BinaryArithmeticNode op) p [l; r])
| View_cmp op p l r :
    is_comparison op = true -> expr_type l = Some INT -> expr_type r = Some INT ->
    expr_view BOOL (Node (BinaryArithmeticNode op) p [l; r])
| View_logic op p l r :
    is_logic op = true -> expr_type l = Some BOOL -> expr_type r = Some BOOL ->
    expr_view BOOL (Node (BinaryArithmeticNode op) p [l; r])
| View_unary op p c :
    op <> ASEBA_UNARY_OP_NOT -> expr_type c = Some INT ->
    expr_view INT (Node (UnaryArithmeticNode op) p [c])
| View_not p c :
    expr_type c = Some BOOL -> expr_view BOOL (Node (UnaryArithmeticNode ASEBA_UNARY_OP_NOT) p [c]).

Lemma expr_type_view n t : expr_type n = Some t -> expr_view t n.
Proof.
  destruct n as [k p cs]; destruct k; simpl; try discriminate;
    destruct cs as [|c [|c' [|]]]; simpl; try discriminate; intros H.
  - destruct (expr_type c) as [[]|] eqn:Ec, (expr_type c') as [[]|] eqn:Ec'; try discriminate.
    + destruct (is_logic op) eqn:El; [|discriminate]. injection H as <-. by constructor.
    + destruct (is_arith op) eqn:Ea.
      * injection H as <-; by apply View_arith.
      * destruct (is_comparison op) eqn:Eo; [|discriminate].
        injection H as <-; by apply View_cmp.
  - destruct op; destruct (expr_type c) as [[]|] eqn:Ec; try discriminate;
      injection H as <-; by constructor.
  - injection H as <-; constructor.
  - injection H as <-; constructor.
  - destruct (expr_type c) as [t'|] eqn:Ec; [|discriminate].
    injection H as <-; by eapply View_array.
Qed.

Lemma op_groups op :
  (is_arith op = true /\ is_comparison op = false /\ is_logic op = false) \/
  (is_arith op = false /\ is_comparison op = true /\ is_logic op = false) \/
  (is_arith op = false /\ is_comparison op = false /\ is_logic op = true).
Proof. destruct op; vm_compute; auto. Qed.

(** ** The checker accepts exactly the typed expressions *)

Lemma expectType_Ok pos a b x : expectType pos a b = Ok x <-> b = a.
Proof.
  unfold expectType; case_decide; split; intros; subst; try done.
  by destruct x.
Qed.

(** Use the induction hypotheses of the children at their known type. *)
Ltac children_ih :=
  repeat match goal with
  | H : Forall _ (_ :: _) |- _ => apply Forall_cons_1 in H; destruct H
  | H : Forall _ [] |- _ => clear H
  end;
  repeat match goal with
  | IH : forall t, expr_type ?c = Some t -> _, E : expr_type ?c = Some ?t |- _ =>
      rewrite (IH _ E); simpl
  end.

(** A typed expression is accepted with its type and left unchanged. *)
Lemma typeCheck_expr fs n t : expr_type n = Some t -> typeCheck fs n = Ok (t, n).
Proof.
  revert t; induction n as [k p cs IH] using node_rose_ind; intros t Ht.
  apply expr_type_view in Ht; inversion Ht; subst; simpl; try reflexivity.
  - match goal with E : is_arith _ = true |- _ => rewrite E end; children_ih; reflexivity.
  - destruct (op_groups op) as [(?&?&?) | [(Ea&Ec&?)|(?&?&?)]]; try congruence.
    rewrite Ea, Ec; children_ih; reflexivity.
  - destruct (op_groups op) as [(?&?&?) | [(?&?&?)|(Ea&Ec&?)]]; try congruence.
    rewrite Ea, Ec; children_ih; reflexivity.
  - children_ih; destruct op; done.
  - children_ih; reflexivity.
Qed.
