(* ===== verification/Optimize.v ===== *)
(** * The optimizer

    compiler/tree-optimize.cpp and compiler/power-of-two.h: constant folding,
    neutral and absorbing operands, strength reduction, removal of [not] by
    de Morgan's laws, dead branches and the folding of conditions into the
    branch nodes. *)
From Stdlib Require Import ZArith Lia List String.
From stdpp Require Import base list strings.
From S2P Require Import Prelude Errors Consts Tree.

Local Open Scope Z_scope.

(** ** Powers of two (power-of-two.h) *)

(** The loop [while((number & 1) == 0) { number >>= 1; i++; }]; thirty-one
    rounds are enough for a non-zero [int] ([strip_twos_odd]). *)
Fixpoint strip_twos (fuel : nat) (number i : Z) : Z * Z :=
  if Z.land number 1 =? 0 then
    match fuel with
    | O => (number, i)
    | S fuel' => strip_twos fuel' (Z.shiftr number 1) (i + 1)
    end
  else (number, i).

Definition isPOT (number : Z) : bool :=
  if number =? 0 then false else fst (strip_twos 31 number 0) =? 1.

Definition shiftFromPOT (number : Z) : Z :=
  if number =? 0 then 0 else snd (strip_twos 31 number 0).

(** ** Constant folding *)

(** The [switch(op)] of [BinaryArithmeticNode::optimize] on two constants, in
    [int] arithmetic.  A left shift of a negative number is the two's
    complement one. *)
Definition fold_binary (pos : SourcePos) (op : AsebaBinaryOperator) (valueOne valueTwo : Z) : res error Z :=
  match op with
  | ASEBA_OP_SHIFT_LEFT =>
      if (0 <=? valueTwo) && (valueTwo <? 32) then Ok (s32 (Z.shiftl valueOne valueTwo)) else Undef
  | ASEBA_OP_SHIFT_RIGHT =>
      if (0 <=? valueTwo) && (valueTwo <? 32) then Ok (Z.shiftr valueOne valueTwo) else Undef
  | ASEBA_OP_ADD => ret_int (valueOne + valueTwo)
  | ASEBA_OP_SUB => ret_int (valueOne - valueTwo)
  | ASEBA_OP_MULT => ret_int (valueOne * valueTwo)
  | ASEBA_OP_DIV =>
      if valueTwo =? 0 then throw pos ERROR_DIVISION_BY_ZERO []
      else ret_int (Z.quot valueOne valueTwo)
  | ASEBA_OP_MOD =>
      if valueTwo =? 0 then throw pos ERROR_DIVISION_BY_ZERO []
      else _ ← ret_int (Z.quot valueOne valueTwo); Ok (Z.rem valueOne valueTwo)
  | ASEBA_OP_BIT_OR => Ok (Z.lor valueOne valueTwo)
  | ASEBA_OP_BIT_XOR => Ok (Z.lxor valueOne valueTwo)
  | ASEBA_OP_BIT_AND => Ok (Z.land valueOne valueTwo)
  | ASEBA_OP_EQUAL => Ok (Z.b2z (valueOne =? valueTwo))
  | ASEBA_OP_NOT_EQUAL => Ok (Z.b2z (negb (valueOne =? valueTwo)))
  | ASEBA_OP_BIGGER_THAN => Ok (Z.b2z (valueTwo <? valueOne))
  | ASEBA_OP_BIGGER_EQUAL_THAN => Ok (Z.b2z (valueTwo <=? valueOne))
  | ASEBA_OP_SMALLER_THAN => Ok (Z.b2z (valueOne <? valueTwo))
  | ASEBA_OP_SMALLER_EQUAL_THAN => Ok (Z.b2z (valueOne <=? valueTwo))
  | ASEBA_OP_OR => Ok (Z.b2z (negb (valueOne =? 0) || negb (valueTwo =? 0)))
  | ASEBA_OP_AND => Ok (Z.b2z (negb (valueOne =? 0) && negb (valueTwo =? 0)))
  end.

(** The [switch(op)] of [UnaryArithmeticNode::optimize]. *)
Definition fold_unary (pos : SourcePos) (op : AsebaUnaryOperator) (value : Z) : res error Z :=
  match op with
  | ASEBA_UNARY_OP_SUB => ret_int (- value)
  | ASEBA_UNARY_OP_ABS =>
      if value =? -32768 then throw pos ERROR_ABS_NOT_POSSIBLE [] else ret_int (Z.abs value)
  | ASEBA_UNARY_OP_BIT_NOT => Ok (Z.lnot value)
  | ASEBA_UNARY_OP_NOT => Ok (Z.b2z (value =? 0))
  end.

(** ** Rewriting of a binary operation with one constant operand *)

Definition is_value (o : option Z) (v : Z) : bool :=
  match o with Some x => x =? v | None => false end.
Definition is_nonzero (o : option Z) : bool :=
  match o with Some x => negb (x =? 0) | None => false end.

(** Which child survives: the assignments to [survivor] in source order,
    where the test on the left operand comes second. *)
Definition survivor (op : AsebaBinaryOperator) (l r : option Z) : option bool :=
  let pick (right_neutral left_neutral : bool) :=
    if left_neutral then Some true else if right_neutral then Some false else None in
  match op with
  | ASEBA_OP_MULT => pick (is_value r 1) (is_value l 1)
  | ASEBA_OP_DIV => pick (is_value r 1) false
  | ASEBA_OP_ADD => pick (is_value r 0) (is_value l 0)
  | ASEBA_OP_SUB => pick (is_value r 0) false
  | ASEBA_OP_BIT_OR | ASEBA_OP_OR => pick (is_value r 0) (is_value l 0)
  | ASEBA_OP_BIT_AND => pick (is_value r (-1)) (is_value l (-1))
  | ASEBA_OP_AND => pick (is_nonzero r) (is_nonzero l)
  | _ => None
  end.

(** The constant an absorbing operand turns the operation into. *)
Definition absorbing (op : AsebaBinaryOperator) (l r : option Z) : option Z :=
  match op with
  | ASEBA_OP_MULT | ASEBA_OP_BIT_AND | ASEBA_OP_AND =>
      if is_value r 0 || is_value l 0 then Some 0 else None
  | ASEBA_OP_BIT_OR => if is_value r (-1) || is_value l (-1) then Some (-1) else None
  | ASEBA_OP_OR => if is_nonzero r || is_nonzero l then Some 1 else None
  | _ => None
  end.

(** Multiplication and division by a power of two become shifts. *)
Definition pot_to_shift (op : AsebaBinaryOperator) (right : node) : AsebaBinaryOperator * node :=
  match as_immediate right with
  | Some v =>
      if isPOT v then
        match op with
        | ASEBA_OP_MULT => (ASEBA_OP_SHIFT_LEFT, Node (ImmediateNode (shiftFromPOT v)) (sourcePos right) [])
        | ASEBA_OP_DIV => (ASEBA_OP_SHIFT_RIGHT, Node (ImmediateNode (shiftFromPOT v)) (sourcePos right) [])
        | _ => (op, right)
        end
      else (op, right)
  | None => (op, right)
  end.

(** [BinaryArithmeticNode::optimize] after its children were optimized. *)
Definition optimize_binary (pos : SourcePos) (op : AsebaBinaryOperator) (left right : node) : res error node :=
  match as_immediate left, as_immediate right with
  | Some valueOne, Some valueTwo =>
      result ← fold_binary pos op valueOne valueTwo;
      Ok (Node (ImmediateNode result) pos [])
  | l, r =>
      match survivor op l r with
      | Some true => Ok right
      | Some false => Ok left
      | None =>
          match absorbing op l r with
          | Some v => Ok (Node (ImmediateNode v) pos [])
          | None =>
              let '(op', right') := pot_to_shift op right in
              match op', as_immediate right' with
              | ASEBA_OP_DIV, Some 0 => throw pos ERROR_DIVISION_BY_ZERO []
              | _, _ => Ok (Node (BinaryArithmeticNode op') pos [left; right'])
              end
          end
      end
  end.

(** ** de Morgan (BinaryArithmeticNode::deMorganNotRemoval) *)

Definition invert_comparison (op : AsebaBinaryOperator) : option AsebaBinaryOperator :=
  match op with
  | ASEBA_OP_EQUAL => Some ASEBA_OP_NOT_EQUAL
  | ASEBA_OP_NOT_EQUAL => Some ASEBA_OP_EQUAL
  | ASEBA_OP_BIGGER_THAN => Some ASEBA_OP_SMALLER_EQUAL_THAN
  | ASEBA_OP_BIGGER_EQUAL_THAN => Some ASEBA_OP_SMALLER_THAN
  | ASEBA_OP_SMALLER_THAN => Some ASEBA_OP_BIGGER_EQUAL_THAN
  | ASEBA_OP_SMALLER_EQUAL_THAN => Some ASEBA_OP_BIGGER_THAN
  | _ => None
  end.

Fixpoint deMorganNotRemoval (n : node) : res error node :=
  match n with
  | Node (BinaryArithmeticNode op) pos cs =>
      match op with
      | ASEBA_OP_OR | ASEBA_OP_AND =>
          match cs with
          | c0 :: c1 :: rest =>
              c0' ← deMorganNotRemoval c0;
              c1' ← deMorganNotRemoval c1;
              Ok (Node (BinaryArithmeticNode
                          (if decide (op = ASEBA_OP_OR) then ASEBA_OP_AND else ASEBA_OP_OR))
                       pos (c0' :: c1' :: rest))
          | _ => Crash
          end
      | _ =>
          match invert_comparison op with
          | Some op' => Ok (Node (BinaryArithmeticNode op') pos cs)
          | None => Crash  (* default: abort() *)
          end
      end
  | _ => Crash  (* dynamic_cast<BinaryArithmeticNode*> gave a null pointer *)
  end.

(** [UnaryArithmeticNode::optimize] after its child was optimized. *)
Definition optimize_unary (pos : SourcePos) (op : AsebaUnaryOperator) (child : node) : res error node :=
  match as_immediate child with
  | Some v => result ← fold_unary pos op v; Ok (Node (ImmediateNode result) pos [])
  | None =>
      match op with
      | ASEBA_UNARY_OP_NOT =>
          if is_binary child then deMorganNotRemoval child
          else Ok (Node (UnaryArithmeticNode op) pos [child])
      | _ => Ok (Node (UnaryArithmeticNode op) pos [child])
      end
  end.

(** [ArrayReadNode::optimize] and [ArrayWriteNode::optimize] after the index
    was optimized: a constant index becomes a plain access. *)
Definition optimize_array (pos : SourcePos) (k simple : kind) (code : ErrorCode)
    (arraySize : Z) (arrayName : wstring) (index : node) : res error node :=
  match as_immediate index with
  | Some v =>
      let i := u32 v in
      if arraySize <=? i then throw pos code [dec_str i; arrayName; dec_str arraySize]
      else Ok (Node simple pos [])
  | None => Ok (Node k pos [index])
  end.

(** ** Branches *)

Definition empty_block (o : option node) : bool :=
  match o with
  | None => true
  | Some b => is_block b && match children b with [] => true | _ => false end
  end.

(** [IfWhenNode::optimize] after its children were optimized; [None] is the
    null pointer. *)
Definition optimize_if (pos : SourcePos) (edgeSensitive : bool) (endLine : Z)
    (cond : node) (trueBlock falseBlock : option node) : res error (option node) :=
  if empty_block trueBlock && empty_block falseBlock then Ok None
  else match as_immediate cond with
  | Some v => if negb (v =? 0) then Ok trueBlock else Ok falseBlock
  | None =>
      match cond with
      | Node (BinaryArithmeticNode op) _ (l :: r :: _) =>
          Ok (Some (Node (FoldedIfWhenNode op edgeSensitive endLine) pos
            ([l; r; default (Node BlockNode pos []) trueBlock]
             ++ match falseBlock with Some f => [f] | None => [] end)))
      | _ => Crash
      end
  end.

(** [WhileNode::optimize] after its children were optimized. *)
Definition optimize_while (pos : SourcePos) (cond : node) (block : option node) : res error (option node) :=
  match as_immediate cond with
  | Some v => if negb (v =? 0) then throw pos ERROR_INFINITE_LOOP [] else Ok None
  | None =>
      if empty_block block then Ok None
      else match cond, block with
      | Node (BinaryArithmeticNode op) _ (l :: r :: _), Some b =>
          Ok (Some (Node (FoldedWhileNode op) pos [l; r; b]))
      | _, _ => Crash
      end
  end.

(** ** The virtual [optimize] *)

(** [assert(children[i])]: the child is not null. *)
Definition not_null (o : option node) : res error node := of_option o.

(** The loop of [BlockNode::optimize]: null results and empty blocks are
    erased. *)
Fixpoint optimize_block (opt : node -> res error (option node)) (cs : list node) : res error (list node) :=
  match cs with
  | [] => Ok []
  | c :: cs' =>
      o ← opt c;
      rest ← optimize_block opt cs';
      Ok (if empty_block o then rest else match o with Some c' => c' :: rest | None => rest end)
  end.

(** The loops of [EmitNode::optimize] and [CallNode::optimize].  The first one
    would store a null child, which its [emit] dereferences. *)
Fixpoint optimize_children (opt : node -> res error (option node)) (cs : list node) : res error (list node) :=
  match cs with
  | [] => Ok []
  | c :: cs' =>
      o ← opt c; c' ← not_null o;
      rest ← optimize_children opt cs';
      Ok (c' :: rest)
  end.

Fixpoint optimize (n : node) : res error (option node) :=
  let 'Node k pos cs := n in
  match k, cs with
  | (BlockNode | ProgramNode), _ =>
      cs' ← optimize_block optimize cs; Ok (Some (Node k pos cs'))
  | AssignmentNode, c0 :: c1 :: rest =>
      o0 ← optimize c0; c0' ← not_null o0;
      o1 ← optimize c1; c1' ← not_null o1;
      Ok (Some (Node k pos (c0' :: c1' :: rest)))
  | IfWhenNode edgeSensitive endLine, c0 :: c1 :: rest =>
      o0 ← optimize c0; cond ← not_null o0;
      trueBlock ← optimize c1;
      falseBlock ← match rest with [] => Ok None | c2 :: _ => optimize c2 end;
      optimize_if pos edgeSensitive endLine cond trueBlock falseBlock
  | WhileNode, c0 :: c1 :: _ =>
      o0 ← optimize c0; cond ← not_null o0;
      block ← optimize c1;
      optimize_while pos cond block
  | EmitNode _ _ _, _ | CallNode _ _, _ =>
      cs' ← optimize_children optimize cs; Ok (Some (Node k pos cs'))
  | BinaryArithmeticNode op, c0 :: c1 :: _ =>
      o0 ← optimize c0; l ← not_null o0;
      o1 ← optimize c1; r ← not_null o1;
      Some <$> optimize_binary pos op l r
  | UnaryArithmeticNode op, c0 :: _ =>
      o0 ← optimize c0; c ← not_null o0;
      Some <$> optimize_unary pos op c
  | ArrayReadNode arrayAddr arraySize arrayName, c0 :: _ =>
      o0 ← optimize c0; index ← not_null o0;
      Some <$> optimize_array pos k
        (LoadNode (u32 (arrayAddr + u32 (default 0 (as_immediate index)))))
        ERROR_ARRAY_OUT_OF_BOUND_READ arraySize arrayName index
  | ArrayWriteNode arrayAddr arraySize arrayName, c0 :: _ =>
      o0 ← optimize c0; index ← not_null o0;
      Some <$> optimize_array pos k
        (StoreNode (u32 (arrayAddr + u32 (default 0 (as_immediate index)))))
        ERROR_ARRAY_OUT_OF_BOUND_WRITE arraySize arrayName index
  | LoadNativeArgNode _ _ _ _, c0 :: rest =>
      o0 ← optimize c0; c ← not_null o0;
      _ ← assert_ (match as_immediate c with None => true | Some _ => false end);
      Ok (Some (Node k pos (c :: rest)))
  | (EventDeclNode _ | SubDeclNode _ | CallSubNode _ _ | ImmediateNode _
    | StoreNode _ | LoadNode _ | ReturnNode), _ => Ok (Some n)
  | _, _ => Crash  (* abort() of the folded and abstract nodes; missing children *)
  end.
