(* ===== verification/OptimizeSpec.v ===== *)
(** * What the optimizer promises

    A big-step evaluator of expressions in the arithmetic of the compiler, the
    shape of optimized expressions, and the proofs that [optimize] never
    aborts on a typed expression, reaches that shape and preserves values. *)
From Stdlib Require Import ZArith Lia List String.
From stdpp Require Import base list strings.
From S2P Require Import Prelude Errors Consts Tree TypeCheck Optimize.

Local Open Scope Z_scope.

(** ** Powers of two *)

Lemma strip_twos_spec fuel n i m j :
  strip_twos fuel n i = (m, j) -> n = m * 2 ^ (j - i) /\ i <= j <= i + Z.of_nat fuel.
Proof.
  revert n i; induction fuel as [|fuel IH]; intros n i; cbn [strip_twos];
    destruct (Z.land n 1 =? 0) eqn:Hb; intros H.
  1,2,4: injection H as <- <-; rewrite Z.sub_diag; split; lia.
  apply IH in H as [Hn Hj]. split; [|lia].
  assert (Z.land n 1 = n mod 2) as Hl by (apply (Z.land_ones n 1); lia).
  apply Z.eqb_eq in Hb; rewrite Hl in Hb.
  assert (n = Z.shiftr n 1 * 2) as ->.
  { rewrite Z.shiftr_div_pow2 by lia. change (2 ^ 1) with 2.
    rewrite (Z.div_mod n 2) at 1 by lia. lia. }
  rewrite Hn. replace (j - i) with (j - (i + 1) + 1) by lia.
  rewrite Z.pow_add_r by lia. lia.
Qed.

(** The fuel of the model is never what stops the loop on a non-zero [int]. *)
Lemma strip_twos_odd n :
  in_s32 n = true -> n <> 0 -> Z.odd (fst (strip_twos 31 n 0)) = true.
Proof.
  assert (forall fuel n i, n <> 0 -> -2 ^ Z.of_nat fuel <= n <= 2 ^ Z.of_nat fuel ->
                           Z.odd (fst (strip_twos fuel n i)) = true) as H.
  { clear n; induction fuel as [|fuel IH]; intros n i Hnz Hr; cbn [strip_twos].
    - assert (n = 1 \/ n = -1) as [-> | ->] by (simpl in Hr; lia); reflexivity.
    - assert (Z.land n 1 = n mod 2) as Hl by (apply (Z.land_ones n 1); lia).
      rewrite Hl, Zmod_odd. destruct (Z.odd n) eqn:Ho; simpl; [done|].
      rewrite Z.shiftr_div_pow2 by lia. change (2 ^ 1) with 2.
      assert (n = 2 * (n / 2)) as Hd.
      { rewrite (Z.div_mod n 2) at 1 by lia. rewrite Zmod_odd, Ho. lia. }
      rewrite Nat2Z.inj_succ, Z.pow_succ_r in Hr by lia.
      apply IH; lia. }
  rewrite in_s32_iff. intros. apply H; [done|].
  change (2 ^ Z.of_nat 31) with 2147483648. lia.
Qed.

(** [isPOT] recognises exactly the powers of two and [shiftFromPOT] is their
    exponent. *)
Lemma isPOT_shift n : isPOT n = true -> n = 2 ^ shiftFromPOT n /\ 0 <= shiftFromPOT n < 32.
Proof.
  unfold isPOT, shiftFromPOT. destruct (n =? 0); [done|].
  destruct (strip_twos 31 n 0) as [m j] eqn:H; simpl.
  intros Hm; apply Z.eqb_eq in Hm; subst m.
  apply strip_twos_spec in H as [Hn Hj].
  rewrite Z.sub_0_r in Hn. lia.
Qed.

Lemma strip_twos_pow2 fuel k i :
  (k <= fuel)%nat -> strip_twos fuel (2 ^ Z.of_nat k) i = (1, i + Z.of_nat k).
Proof.
  revert fuel i; induction k as [|k IH]; intros fuel i Hk.
  - destruct fuel; simpl; f_equal; lia.
  - destruct fuel as [|fuel]; [lia|]. cbn [strip_twos].
    assert (Z.land (2 ^ Z.of_nat (S k)) 1 = (2 ^ Z.of_nat (S k)) mod 2) as -> by (apply (Z.land_ones _ 1); lia).
    rewrite Nat2Z.inj_succ, Z.pow_succ_r, Z.mul_comm, Z.mod_mul by lia. simpl (0 =? 0).
    rewrite Z.shiftr_div_pow2, Z.pow_1_r, Z.div_mul by lia. cbn [orb].
    rewrite IH by lia. f_equal; lia.
Qed.

Lemma isPOT_pow2 k : 0 <= k < 32 -> isPOT (2 ^ k) = true /\ shiftFromPOT (2 ^ k) = k.
Proof.
  intros Hk. assert (0 < 2 ^ k) by (apply Z.pow_pos_nonneg; lia).
  unfold isPOT, shiftFromPOT. destruct (Z.eqb_spec (2 ^ k) 0); [lia|].
  rewrite <- (Z2Nat.id k) by lia. rewrite strip_twos_pow2 by lia. split; simpl; lia.
Qed.

(** On a 32-bit integer [isPOT] holds exactly of the powers of two, and
    [shiftFromPOT] then is the exponent. *)
Theorem isPOT_iff n :
  in_s32 n = true ->
  (isPOT n = true <-> exists k, 0 <= k < 31 /\ n = 2 ^ k /\ shiftFromPOT n = k).
Proof.
  intros Hr; split.
  - intros H. destruct (isPOT_shift n H) as [Hn Hk].
    exists (shiftFromPOT n). repeat split; try lia.
    apply in_s32_iff in Hr. destruct (decide (shiftFromPOT n = 31)) as [E|]; [|lia].
    rewrite E in Hn. vm_compute in Hn. lia.
  - intros (k & Hk & -> & _). apply isPOT_pow2; lia.
Qed.

(** ** Evaluation of expressions *)

Section Eval.
(** The contents of the memory, by address. *)
Variable mem : Z -> Z.

(** The value of an expression tree, in the arithmetic of the constant
    folder: an access out of the bounds of an array and a division by zero
    throw, an overflow has no value. *)
Fixpoint eval (n : node) : res error Z :=
  let 'Node k pos cs := n in
  match k, cs with
  | ImmediateNode v, [] => Ok v
  | LoadNode a, [] => Ok (mem a)
  | ArrayReadNode a size name, [index] =>
      v ← eval index;
      if size <=? u32 v then throw pos ERROR_ARRAY_OUT_OF_BOUND_READ [dec_str (u32 v); name; dec_str size]
      else Ok (mem (u32 (a + u32 v)))
  | BinaryArithmeticNode op, [l; r] => x ← eval l; y ← eval r; fold_binary pos op x y
  | UnaryArithmeticNode op, [c] => x ← eval c; fold_unary pos op x
  | _, _ => Crash
  end.

(** No division of the expression divides a negative number by a power of
    two: the condition under which the shift is the division. *)
Fixpoint div_ok (n : node) : bool :=
  let 'Node k pos cs := n in
  forallb div_ok cs &&
  match k, cs with
  | BinaryArithmeticNode ASEBA_OP_DIV, [l; r] =>
      match eval l, eval r with
      | Ok x, Ok y => negb (isPOT y) || (y =? 1) || (0 <=? x)
      | _, _ => true
      end
  | _, _ => true
  end.

Lemma b2z_01 b : Z.b2z b = 0 \/ Z.b2z b = 1.
Proof. destruct b; auto. Qed.

Lemma fold_binary_bool pos op x y v :
  is_arith op = false -> fold_binary pos op x y = Ok v -> v = 0 \/ v = 1.
Proof. destruct op; intros Ha H; try discriminate; simpl in H; injection H as <-; apply b2z_01. Qed.

(** A condition evaluates to 0 or 1. *)
Lemma eval_bool n v : expr_type n = Some BOOL -> eval n = Ok v -> v = 0 \/ v = 1.
Proof.
  intros Ht; apply expr_type_view in Ht; inversion Ht; subst; simpl; intros H'; inv_ok.
  - eapply fold_binary_bool; [|eassumption].
    destruct (op_groups op) as [(?&?&?)|[(?&?&?)|(?&?&?)]]; congruence.
  - eapply fold_binary_bool; [|eassumption].
    destruct (op_groups op) as [(?&?&?)|[(?&?&?)|(?&?&?)]]; congruence.
  - apply b2z_01.
Qed.
End Eval.

(** ** The shape of an optimized expression *)

Definition is_imm (n : node) : bool :=
  match as_immediate n with Some _ => true | None => false end.

(** No [not] is left, no operation has only constant operands, and a constant
    condition is 0 or 1. *)
Inductive opt_form : ReturnType -> node -> Prop :=
| Opt_imm v p : opt_form INT (Node (ImmediateNode v) p [])
| Opt_bool v p : v = 0 \/ v = 1 -> opt_form BOOL (Node (ImmediateNode v) p [])
| Opt_load a p : opt_form INT (Node (LoadNode a) p [])
| Opt_array a s nm p i t :
    opt_form t i -> is_imm i = false -> opt_form INT (Node (ArrayReadNode a s nm) p [i])
| Opt_arith op p l r :
    is_arith op = true -> opt_form INT l -> opt_form INT r -> is_imm l && is_imm r = false ->
    opt_form INT (Node (BinaryArithmeticNode op) p [l; r])
| Opt_cmp op p l r :
    is_comparison op = true -> opt_form INT l -> opt_form INT r -> is_imm l && is_imm r = false ->
    opt_form BOOL (Node (BinaryArithmeticNode op) p [l; r])
| Opt_logic op p l r :
    is_logic op = true -> opt_form BOOL l -> opt_form BOOL r ->
    is_imm l = false -> is_imm r = false ->
    opt_form BOOL (Node (BinaryArithmeticNode op) p [l; r])
| Opt_unary op p c :
    op <> ASEBA_UNARY_OP_NOT -> opt_form INT c -> is_imm c = false ->
    opt_form INT (Node (UnaryArithmeticNode op) p [c]).

Lemma as_immediate_form t n v :
  opt_form t n -> as_immediate n = Some v -> exists p, n = Node (ImmediateNode v) p [].
Proof. intros H; inversion H; subst; simpl; intros E; try discriminate; injection E as <-; eauto. Qed.

Lemma is_imm_false n : as_immediate n = None -> is_imm n = false.
Proof. unfold is_imm; intros ->; done. Qed.

(** An optimized condition that is not a constant is a binary operation: what
    the branch nodes cast it to. *)
Lemma opt_form_cond n :
  opt_form BOOL n -> as_immediate n = None ->
  exists op p l r, n = Node (BinaryArithmeticNode op) p [l; r] /\ is_arith op = false.
Proof.
  intros H; inversion H; subst; simpl; intros E; try discriminate; do 4 eexists; split; try reflexivity.
  - destruct (op_groups op) as [(?&?&?)|[(?&?&?)|(?&?&?)]]; congruence.
  - destruct (op_groups op) as [(?&?&?)|[(?&?&?)|(?&?&?)]]; congruence.
Qed.

(** ** One node at a time *)

(** [good t r]: the outcome of an optimization is an optimized tree of type
    [t], a well-formed error, or an overflow. *)
Definition good (t : ReturnType) (r : res error node) : Prop :=
  match r with
  | Ok n => opt_form t n
  | Throw e => error_wf e
  | Undef => True
  | Crash | NoFuel => False
  end.

Lemma fold_binary_good pos op x y :
  match fold_binary pos op x y with
  | Ok _ | Undef => True | Throw e => error_wf e | _ => False end.
Proof.
  destruct op; simpl; unfold ret_int, throw; try done;
    repeat match goal with |- context [if ?b then _ else _] => destruct b; simpl; try done end.
Qed.

Lemma fold_unary_good pos op x :
  match fold_unary pos op x with
  | Ok _ | Undef => True | Throw e => error_wf e | _ => False end.
Proof.
  destruct op; simpl; unfold ret_int, throw; try done;
    repeat match goal with |- context [if ?b then _ else _] => destruct b; simpl; try done end.
Qed.

(** The result type of a binary operation, and its operand type. *)
Definition binary_types (op : AsebaBinaryOperator) : ReturnType * ReturnType :=
  if is_arith op then (INT, INT) else if is_comparison op then (INT, BOOL) else (BOOL, BOOL).

Lemma opt_form_binary op pos l r :
  opt_form (fst (binary_types op)) l -> opt_form (fst (binary_types op)) r ->
  is_imm l && is_imm r = false -> (is_logic op = true -> is_imm l = false /\ is_imm r = false) ->
  opt_form (snd (binary_types op)) (Node (BinaryArithmeticNode op) pos [l; r]).
Proof.
  unfold binary_types.
  destruct (op_groups op) as [(Ea&Ec&El)|[(Ea&Ec&El)|(Ea&Ec&El)]]; rewrite Ea, ?Ec; simpl; intros.
  - by apply Opt_arith.
  - by apply Opt_cmp.
  - destruct H2; [done|]. by apply Opt_logic.
Qed.

Lemma opt_form_bool_imm n v : opt_form BOOL n -> as_immediate n = Some v -> v = 0 \/ v = 1.
Proof. intros H; inversion H; subst; simpl; intros E; try discriminate; by injection E as <-. Qed.

Lemma survivor_same_type op l r b :
  survivor op l r = Some b -> fst (binary_types op) = snd (binary_types op).
Proof. destruct op; simpl; intros; try discriminate; reflexivity. Qed.

Lemma pot_to_shift_good op pos l r :
  opt_form (fst (binary_types op)) l -> opt_form (fst (binary_types op)) r ->
  is_imm l && is_imm r = false -> (is_logic op = true -> is_imm l = false /\ is_imm r = false) ->
  let '(op', r') := pot_to_shift op r in
  opt_form (snd (binary_types op)) (Node (BinaryArithmeticNode op') pos [l; r']).
Proof.
  intros Hl Hr Hi Hlog. unfold pot_to_shift.
  destruct (as_immediate r) as [v|] eqn:Er; [|by apply opt_form_binary].
  destruct (isPOT v); [|by apply opt_form_binary].
  destruct op; try (by apply opt_form_binary); simpl in *.
  all: apply Opt_arith; [reflexivity|done|constructor|].
  all: unfold is_imm in *; rewrite Er, andb_true_r in Hi; by rewrite Hi.
Qed.

(** With an operand that is not constant the folding is skipped. *)
Lemma optimize_binary_nonconst pos op l r :
  is_imm l && is_imm r = false ->
  optimize_binary pos op l r =
    match survivor op (as_immediate l) (as_immediate r) with
    | Some true => Ok r
    | Some false => Ok l
    | None =>
        match absorbing op (as_immediate l) (as_immediate r) with
        | Some v => Ok (Node (ImmediateNode v) pos [])
        | None =>
            let '(op', r') := pot_to_shift op r in
            match op', as_immediate r' with
            | ASEBA_OP_DIV, Some 0 => throw pos ERROR_DIVISION_BY_ZERO []
            | _, _ => Ok (Node (BinaryArithmeticNode op') pos [l; r'])
            end
        end
    end.
Proof.
  unfold is_imm, optimize_binary; destruct (as_immediate l), (as_immediate r); done.
Qed.

Lemma absorbing_good op L R w pos :
  absorbing op L R = Some w -> good (snd (binary_types op)) (Ok (Node (ImmediateNode w) pos [])).
Proof.
  destruct op; simpl; intros; try discriminate; repeat case_match; simplify_eq;
    first [apply Opt_imm | apply Opt_bool; by auto].
Qed.

(** Every constant operand of a logic operation is neutral or absorbing. *)
Lemma logic_const op l r :
  is_logic op = true -> opt_form BOOL l -> opt_form BOOL r ->
  survivor op (as_immediate l) (as_immediate r) = None ->
  absorbing op (as_immediate l) (as_immediate r) = None ->
  is_imm l = false /\ is_imm r = false.
Proof.
  intros Hop Hl Hr. unfold is_imm.
  destruct (as_immediate l) as [x|] eqn:El, (as_immediate r) as [y|] eqn:Er; try done;
    repeat match goal with E : as_immediate _ = Some _ |- _ =>
      apply opt_form_bool_imm in E as [-> | ->]; [..|done] end;
    destruct op; try discriminate Hop; simpl; done.
Qed.

Lemma optimize_binary_good op pos l r :
  opt_form (fst (binary_types op)) l -> opt_form (fst (binary_types op)) r ->
  good (snd (binary_types op)) (optimize_binary pos op l r).
Proof.
  intros Hl Hr. destruct (is_imm l && is_imm r) eqn:Hi.
  - unfold is_imm, optimize_binary in *.
    destruct (as_immediate l) as [x|], (as_immediate r) as [y|]; try done.
    pose proof (fold_binary_good pos op x y) as Hg.
    destruct (fold_binary pos op x y) eqn:Ef; simpl; try done.
    unfold binary_types. destruct (is_arith op) eqn:Ea; [constructor|].
    destruct (is_comparison op); apply Opt_bool; eapply fold_binary_bool; eassumption.
  - rewrite optimize_binary_nonconst by done.
    destruct (survivor _ _ _) as [[]|] eqn:Es;
      [rewrite <- (survivor_same_type _ _ _ _ Es); first [exact Hl | exact Hr] ..|].
    destruct (absorbing _ _ _) as [w|] eqn:Eb; [by eapply absorbing_good|].
    pose proof (pot_to_shift_good op pos l r Hl Hr Hi) as Hp.
    destruct (pot_to_shift op r) as [op' r'].
    assert (good (snd (binary_types op)) (Ok (Node (BinaryArithmeticNode op') pos [l; r']))) as Hok.
    { apply Hp; intros Hlog. unfold binary_types in Hl, Hr.
      destruct (op_groups op) as [(?&?&?)|[(?&?&?)|(Ea&Ec&El)]]; try congruence.
      rewrite Ea, Ec in Hl, Hr. by apply (logic_const op). }
    destruct op'; try exact Hok; destruct (as_immediate r') as [[]|]; try exact Hok; reflexivity.
Qed.

(** ** Values are preserved, one node at a time *)

Lemma eval_imm mem n v x : as_immediate n = Some v -> eval mem n = Ok x -> x = v.
Proof.
  destruct n as [k p cs]; destruct k; simpl; intros H; try discriminate.
  injection H as ->. destruct cs; intros; inv_ok; done.
Qed.

Lemma is_value_true o v : is_value o v = true -> o = Some v.
Proof. destruct o; simpl; [|done]. intros H; b2p; by subst. Qed.

Lemma is_nonzero_true o : is_nonzero o = true -> exists v, o = Some v /\ v <> 0.
Proof. destruct o; simpl; [|done]. intros H; b2p; eauto. Qed.

(** What the constant tests of [survivor] and [absorbing] say of the operand
    values. *)
Ltac const_tests :=
  repeat match goal with
  | H : Some _ = Some _ |- _ => injection H as H
  | H : None = Some _ |- _ => discriminate H
  | H : context [if ?b then _ else _] |- _ => destruct b eqn:?
  | H : _ || _ = true |- _ => apply orb_true_iff in H; destruct H
  | H : is_value _ _ = true |- _ => apply is_value_true in H
  | H : is_nonzero _ = true |- _ => apply is_nonzero_true in H as (? & H & ?)
  | H : as_immediate ?n = Some _, E : eval _ ?n = Ok _ |- _ =>
      apply (eval_imm _ _ _ _ H) in E; subst
  end.

Lemma survivor_eval mem op pos l r x y v b :
  (is_logic op = true -> (x = 0 \/ x = 1) /\ (y = 0 \/ y = 1)) ->
  survivor op (as_immediate l) (as_immediate r) = Some b ->
  eval mem l = Ok x -> eval mem r = Ok y -> fold_binary pos op x y = Ok v ->
  v = if b then y else x.
Proof.
  intros Hb Hs Hl Hr Hf.
  destruct op; simpl in Hs; try discriminate; const_tests; try congruence;
    cbn [fold_binary] in Hf; subst; try discriminate.
  all: try (apply ret_int_Ok in Hf as [-> _]; lia).
  all: try (injection Hf as <-).
  all: rewrite ?Z.lor_0_r, ?Z.land_m1_r, ?Z.land_m1_l; try done.
  1: simpl in Hf; apply ret_int_Ok in Hf as [-> _]; apply Z.quot_1_r.
  all: destruct Hb as [Hx Hy]; [done|]; destruct Hx, Hy; subst; simpl; lia.
Qed.

Lemma absorbing_eval mem op pos l r x y v w :
  (is_logic op = true -> (x = 0 \/ x = 1) /\ (y = 0 \/ y = 1)) ->
  absorbing op (as_immediate l) (as_immediate r) = Some w ->
  eval mem l = Ok x -> eval mem r = Ok y -> fold_binary pos op x y = Ok v ->
  v = w.
Proof.
  intros Hb Hs Hl Hr Hf.
  destruct op; simpl in Hs; try discriminate; const_tests; try congruence;
    cbn [fold_binary] in Hf; subst; try discriminate.
  all: try (apply ret_int_Ok in Hf as [-> _]; lia).
  all: try (injection Hf as <-).
  all: rewrite ?Z.lor_m1_r, ?Z.lor_m1_l, ?Z.land_0_r, ?Z.land_0_l; try done.
  all: destruct Hb as [Hx Hy]; [done|]; destruct Hx, Hy; subst; simpl; lia.
Qed.

Lemma shl_exact x k v :
  0 <= k < 32 -> ret_int (E:=error) (x * 2 ^ k) = Ok v -> s32 (Z.shiftl x k) = v.
Proof.
  intros Hk H. apply ret_int_Ok in H as [-> H]. apply in_s32_iff in H.
  rewrite Z.shiftl_mul_pow2 by lia. unfold s32. rewrite Z.mod_small; lia.
Qed.

Lemma pot_to_shift_eval mem op pos l r x y v :
  (op = ASEBA_OP_DIV -> as_immediate r = Some y -> isPOT y = true -> 0 <= x) ->
  eval mem l = Ok x -> eval mem r = Ok y -> fold_binary pos op x y = Ok v ->
  let '(op', r') := pot_to_shift op r in
  eval mem (Node (BinaryArithmeticNode op') pos [l; r']) = Ok v.
Proof.
  intros Hd Hl Hr Hf. unfold pot_to_shift.
  assert (eval mem (Node (BinaryArithmeticNode op) pos [l; r]) = Ok v) as Hsame
    by (simpl; rewrite Hl, Hr; exact Hf).
  destruct (as_immediate r) as [c|] eqn:Er; [|done].
  destruct (isPOT c) eqn:Hp; [|done].
  apply (eval_imm _ _ _ _ Er) in Hr; subst y.
  apply isPOT_shift in Hp as Hs. destruct Hs as [Hc Hk].
  assert (0 < c) by (rewrite Hc; apply Z.pow_pos_nonneg; lia).
  assert ((0 <=? shiftFromPOT c) && (shiftFromPOT c <? 32) = true) as Hrange
    by (apply andb_true_iff; rewrite Z.leb_le, Z.ltb_lt; lia).
  destruct op; try done; cbn [eval children]; rewrite Hl; simpl; rewrite Hrange.
  - f_equal. apply shl_exact; [done|]. simpl in Hf. rewrite Hc in Hf at 1. done.
  - simpl in Hf. destruct (Z.eqb_spec c 0); [lia|].
    apply ret_int_Ok in Hf as [-> _].
    rewrite Z.shiftr_div_pow2, <- Hc by lia.
    f_equal. symmetry. apply Z.quot_div_nonneg; [auto|lia].
Qed.

Lemma optimize_binary_eval mem op pos l r n x y v :
  (is_logic op = true -> (x = 0 \/ x = 1) /\ (y = 0 \/ y = 1)) ->
  (op = ASEBA_OP_DIV -> isPOT y = true -> y <> 1 -> 0 <= x) ->
  eval mem l = Ok x -> eval mem r = Ok y -> fold_binary pos op x y = Ok v ->
  optimize_binary pos op l r = Ok n -> eval mem n = Ok v.
Proof.
  intros Hb Hd Hl Hr Hf Ho. destruct (is_imm l && is_imm r) eqn:Hi.
  - unfold is_imm, optimize_binary in *.
    destruct (as_immediate l) as [x'|] eqn:El, (as_immediate r) as [y'|] eqn:Er; try done.
    apply (eval_imm _ _ _ _ El) in Hl. apply (eval_imm _ _ _ _ Er) in Hr. subst x' y'.
    rewrite Hf in Ho. simpl in Ho. injection Ho as <-. done.
  - rewrite optimize_binary_nonconst in Ho by done.
    destruct (survivor _ _ _) as [b|] eqn:Es.
    { rewrite (survivor_eval mem op pos l r x y v b Hb Es Hl Hr Hf).
      destruct b; injection Ho as <-; done. }
    destruct (absorbing _ _ _) as [w|] eqn:Eb.
    { injection Ho as <-. rewrite (absorbing_eval mem op pos l r x y v w Hb Eb Hl Hr Hf). done. }
    assert (op = ASEBA_OP_DIV -> as_immediate r = Some y -> isPOT y = true -> 0 <= x) as Hd'.
    { intros -> Er Hp. apply Hd; try done. intros ->. rewrite Er in Es. done. }
    pose proof (pot_to_shift_eval mem op pos l r x y v Hd' Hl Hr Hf) as Hp.
    destruct (pot_to_shift op r) as [op' r'].
    destruct op'; try (injection Ho as <-; exact Hp).
    destruct (as_immediate r') as [[]|]; try (injection Ho as <-; exact Hp); discriminate.
Qed.

(** ** de Morgan *)

Lemma eval_form_bool mem n v : opt_form BOOL n -> eval mem n = Ok v -> v = 0 \/ v = 1.
Proof.
  intros H; inversion H; subst; cbn [eval]; intros; inv_ok; try done;
    (eapply fold_binary_bool; [|eassumption]);
    destruct (op_groups op) as [(?&?&?)|[(?&?&?)|(?&?&?)]]; congruence.
Qed.

Lemma invert_comparison_total op :
  is_comparison op = true ->
  exists op', invert_comparison op = Some op' /\ is_comparison op' = true.
Proof. destruct op; try discriminate; intros _; eexists; split; reflexivity. Qed.

Lemma invert_comparison_fold pos op op' x y v :
  invert_comparison op = Some op' -> fold_binary pos op x y = Ok v ->
  fold_binary pos op' x y = Ok (1 - v).
Proof.
  destruct op; simpl; intros H; try discriminate; injection H as <-; simpl;
    intros H; injection H as <-; f_equal;
    repeat match goal with
    | |- context [?a =? ?b] => destruct (Z.eqb_spec a b)
    | |- context [?a <? ?b] => destruct (Z.ltb_spec a b)
    | |- context [?a <=? ?b] => destruct (Z.leb_spec a b)
    end; simpl; lia.
Qed.

(** On an optimized condition that is not constant, de Morgan's laws always
    apply and give the negation. *)
Lemma deMorgan_spec n :
  opt_form BOOL n -> is_imm n = false ->
  exists n', deMorganNotRemoval n = Ok n' /\ opt_form BOOL n' /\ is_imm n' = false /\
             forall mem v, eval mem n = Ok v -> eval mem n' = Ok (1 - v).
Proof.
  induction n as [k p cs IH] using node_rose_ind. intros Hn Hi.
  inversion Hn; subst; try discriminate.
  - destruct (invert_comparison_total op) as (op' & Hop & Hc); [done|].
    exists (Node (BinaryArithmeticNode op') p [l; r]).
    repeat split; [|by apply Opt_cmp|].
    + simpl. rewrite Hop. destruct op; done.
    + intros mem v. cbn [eval]. intros; inv_ok.
      match goal with Hx : eval mem l = _, Hy : eval mem r = _ |- _ => rewrite Hx; simpl; rewrite Hy; simpl end.
      by eapply invert_comparison_fold.
  - apply Forall_cons_1 in IH as [IHl IH]. apply Forall_cons_1 in IH as [IHr _].
    destruct IHl as (l' & Hl & Fl & Il & El); [done..|].
    destruct IHr as (r' & Hr & Fr & Ir & Er); [done..|].
    exists (Node (BinaryArithmeticNode
                    (if decide (op = ASEBA_OP_OR) then ASEBA_OP_AND else ASEBA_OP_OR)) p [l'; r']).
    split_and!; [| |done|].
    + simpl. rewrite Hl; simpl. rewrite Hr; simpl.
      destruct op; try discriminate; reflexivity.
    + apply Opt_logic; try done. by destruct (decide _).
    + intros mem v. cbn [eval]. intros; inv_ok.
      match goal with
      | Hx : eval mem l = Ok ?x, Hy : eval mem r = Ok ?y |- _ =>
          rewrite (El _ _ Hx), (Er _ _ Hy); simpl;
          assert (x = 0 \/ x = 1) as Bx by (eapply eval_form_bool; [|exact Hx]; assumption);
          assert (y = 0 \/ y = 1) as By by (eapply eval_form_bool; [|exact Hy]; assumption)
      end.
      destruct op; try discriminate; simpl in *; inv_ok;
        destruct Bx as [-> | ->], By as [-> | ->]; reflexivity.
Qed.

(** ** Rejections *)

(** A computation with no value. *)
Definition fails {A} (r : res error A) : Prop := forall v, r <> Ok v.

Lemma optimize_binary_rejects mem op pos l r x y :
  eval mem l = Ok x -> eval mem r = Ok y ->
  fails (optimize_binary pos op l r) -> fails (fold_binary pos op x y).
Proof.
  intros Hl Hr Ho v Hf. destruct (is_imm l && is_imm r) eqn:Hi.
  - unfold is_imm, optimize_binary in *.
    destruct (as_immediate l) as [x'|] eqn:El, (as_immediate r) as [y'|] eqn:Er; try done.
    apply (eval_imm _ _ _ _ El) in Hl. apply (eval_imm _ _ _ _ Er) in Hr. subst x' y'.
    rewrite Hf in Ho. by eapply Ho.
  - rewrite optimize_binary_nonconst in Ho by done.
    destruct (survivor _ _ _) as [[]|]; try (by eapply Ho).
    destruct (absorbing _ _ _); try (by eapply Ho).
    destruct (pot_to_shift op r) as [op' r'] eqn:Ep.
    assert (op' = ASEBA_OP_DIV -> op = op' /\ r = r') as Hsame.
    { unfold pot_to_shift in Ep. destruct (as_immediate r); [|by injection Ep as <- <-].
      destruct (isPOT _); destruct op; injection Ep as <- <-; done. }
    destruct op'; try (by eapply Ho). destruct Hsame as [-> ->]; [done|].
    destruct (as_immediate r') as [[]|] eqn:Er; try (by eapply Ho).
    apply (eval_imm _ _ _ _ Er) in Hr; subst y. done.
Qed.

Lemma optimize_unary_spec pos op c t :
  (if decide (op = ASEBA_UNARY_OP_NOT) then t = BOOL else t = INT) ->
  opt_form t c ->
  good t (optimize_unary pos op c) /\
  forall mem x, eval mem c = Ok x ->
    (forall n v, optimize_unary pos op c = Ok n -> fold_unary pos op x = Ok v -> eval mem n = Ok v) /\
    (fails (optimize_unary pos op c) -> fails (fold_unary pos op x)).
Proof.
  intros Ht Hc. unfold optimize_unary.
  destruct (as_immediate c) as [y|] eqn:Ec.
  { split.
    - pose proof (fold_unary_good pos op y). destruct op; simpl in *; subst; try constructor.
      + destruct (ret_int _); simpl; try done; constructor.
      + destruct (y =? -32768); [done|]. destruct (ret_int _); simpl; try done; constructor.
      + apply b2z_01.
    - intros mem x Hx. apply (eval_imm _ _ _ _ Ec) in Hx; subst x.
      destruct (fold_unary pos op y) eqn:Hf; simpl; split; try done.
      + intros n v [= <-] [= <-]; done.
      + intros Hn. by edestruct Hn. }
  assert (is_imm c = false) as Hi by (unfold is_imm; by rewrite Ec).
  assert (op <> ASEBA_UNARY_OP_NOT ->
    good t (Ok (Node (UnaryArithmeticNode op) pos [c])) /\
    forall mem x, eval mem c = Ok x ->
      (forall n v, Ok (E:=error) (Node (UnaryArithmeticNode op) pos [c]) = Ok n ->
         fold_unary pos op x = Ok v -> eval mem n = Ok v) /\
      (fails (Ok (E:=error) (Node (UnaryArithmeticNode op) pos [c])) -> fails (fold_unary pos op x))) as Hother.
  { intros Hop. rewrite decide_False in Ht by done; subst t. split; [by apply Opt_unary|].
    intros mem x Hx. split; [|intros Hn; by edestruct Hn].
    intros n v [= <-] Hf. cbn [eval]. by rewrite Hx. }
  destruct op; try (by apply Hother). simpl in Ht; subst t.
  destruct (opt_form_cond c Hc Ec) as (op & p & l & r & -> & _). cbn [is_binary node_kind].
  destruct (deMorgan_spec _ Hc Hi) as (n' & -> & Hn' & _ & He).
  split; [done|]. intros mem x Hx. split; [|intros Hn; by edestruct Hn].
  intros n v [= <-] [= <-]. rewrite (He _ _ Hx).
  destruct (eval_form_bool _ _ _ Hc Hx) as [-> | ->]; reflexivity.
Qed.

Lemma optimize_array_spec pos a s nm i t :
  opt_form t i ->
  let r := optimize_array pos (ArrayReadNode a s nm)
             (LoadNode (u32 (a + u32 (default 0 (as_immediate i)))))
             ERROR_ARRAY_OUT_OF_BOUND_READ s nm i in
  let read v := if s <=? u32 v then throw pos ERROR_ARRAY_OUT_OF_BOUND_READ [dec_str (u32 v); nm; dec_str s]
                else Ok v in
  good INT r /\
  forall mem x, eval mem i = Ok x ->
    (forall n v, r = Ok n -> read x = Ok v -> eval mem n = Ok (mem (u32 (a + u32 x)))) /\
    (fails r -> fails (read x)).
Proof.
  intros Hi. unfold optimize_array. destruct (as_immediate i) as [y|] eqn:Ei; cbn zeta.
  - split.
    + cbn [default]. destruct (s <=? u32 y); [reflexivity | constructor].
    + intros mem x Hx. apply (eval_imm _ _ _ _ Ei) in Hx; subst x. cbn [default].
      destruct (s <=? u32 y); split; try done.
      * intros n v [= <-] _; done.
      * intros Hn. by edestruct Hn.
  - assert (is_imm i = false) by (unfold is_imm; by rewrite Ei).
    split; [by eapply Opt_array|].
    intros mem x Hx; split; [|intros Hn; by edestruct Hn].
    intros n v [= <-] Hread. cbn [eval]. rewrite Hx; simpl.
    destruct (s <=? u32 x); done.
Qed.

(** ** Whole expressions *)

(** The outcome of optimizing a typed expression [n] of type [t]: an optimized
    tree of the same value, or a rejection that [n] deserves. *)
Definition opt_outcome (t : ReturnType) (n : node) (r : res error (option node)) : Prop :=
  match r with
  | Ok (Some n') =>
      opt_form t n' /\
      forall mem v, div_ok mem n = true -> eval mem n = Ok v -> eval mem n' = Ok v
  | Throw e => error_wf e /\ forall mem, div_ok mem n = true -> fails (eval mem n)
  | Undef => forall mem, div_ok mem n = true -> fails (eval mem n)
  | Ok None | Crash | NoFuel => False
  end.

(** Build the outcome of a node from the outcome of its last step. *)
Lemma opt_outcome_intro t n (r : res error node) :
  good t r ->
  (forall mem v, div_ok mem n = true -> eval mem n = Ok v -> exists n', r = Ok n' /\ eval mem n' = Ok v) ->
  opt_outcome t n (Some <$> r).
Proof.
  intros Hg Hv. destruct r as [n'|e| | |]; simpl in *; try done.
  - split; [done|]. intros mem v Hd He. destruct (Hv mem v Hd He) as (? & [= <-] & ?); done.
  - split; [done|]. intros mem Hd v He. destruct (Hv mem v Hd He) as (? & ? & ?); done.
  - intros mem Hd v He. destruct (Hv mem v Hd He) as (? & ? & ?); done.
Qed.

Lemma not_fails {A} (r : res error A) :
  ~ fails r -> exists v, r = Ok v.
Proof. destruct r as [v| | | |]; eauto; intros H; exfalso; apply H; intros ?; done. Qed.

Lemma div_ok_children mem k p cs : div_ok mem (Node k p cs) = true -> Forall (fun c => div_ok mem c = true) cs.
Proof.
  simpl. intros H. apply andb_true_iff in H as [H _]. rewrite forallb_forall in H.
  apply Forall_forall. intros x Hx. apply H. by apply list_elem_of_In.
Qed.

(** Optimize a child, then continue. *)
Lemma opt_outcome_child t tc n c (r : res error (option node)) (f : node -> res error (option node)) :
  opt_outcome tc c r ->
  (forall mem, div_ok mem n = true -> div_ok mem c = true) ->
  (forall mem, fails (eval mem c) -> fails (eval mem n)) ->
  (forall c', opt_form tc c' ->
     (forall mem v, div_ok mem n = true -> eval mem c = Ok v -> eval mem c' = Ok v) ->
     opt_outcome t n (f c')) ->
  opt_outcome t n (o ← r; c' ← not_null o; f c').
Proof.
  intros Hc Hd Hf Hk. destruct r as [[c'|]|e| | |]; simpl in *; try done.
  - destruct Hc as [Hform He]. apply Hk; [done|]. intros mem v Hm Hv. apply He; auto.
  - destruct Hc as [He Hfc]. split; [done|]. intros mem Hm. apply Hf, Hfc, Hd, Hm.
  - intros mem Hm. apply Hf, Hc, Hd, Hm.
Qed.

Lemma bind_fails {A B} (m : res error A) (k : A -> res error B) : fails m -> fails (m ≫= k).
Proof. intros H v Hv. inv_ok. by eapply H. Qed.

Lemma binary_types_view op t l r p :
  expr_view t (Node (BinaryArithmeticNode op) p [l; r]) ->
  t = snd (binary_types op) /\
  expr_type l = Some (fst (binary_types op)) /\ expr_type r = Some (fst (binary_types op)).
Proof.
  intros H; unfold binary_types; inversion H; subst;
    destruct (op_groups op) as [(Ea&Ec&El)|[(Ea&Ec&El)|(Ea&Ec&El)]]; try congruence;
    rewrite Ea, ?Ec; done.
Qed.

Lemma logic_types op : is_logic op = true -> fst (binary_types op) = BOOL.
Proof. destruct op; done. Qed.

Lemma optimize_outcome_binary op p l r t :
  expr_view t (Node (BinaryArithmeticNode op) p [l; r]) ->
  opt_outcome (fst (binary_types op)) l (optimize l) ->
  opt_outcome (fst (binary_types op)) r (optimize r) ->
  opt_outcome t (Node (BinaryArithmeticNode op) p [l; r])
    (optimize (Node (BinaryArithmeticNode op) p [l; r])).
Proof.
  intros Hview Ol Or. destruct (binary_types_view _ _ _ _ _ Hview) as (-> & Tl & Tr).
  cbn [optimize].
  eapply opt_outcome_child; [exact Ol| | |].
  { intros mem Hd. apply div_ok_children in Hd. by inversion Hd. }
  { intros mem Hf. cbn [eval]. by apply bind_fails. }
  intros l' Fl El. eapply opt_outcome_child; [exact Or| | |].
  { intros mem Hd. apply div_ok_children in Hd. inversion Hd as [|??? Hd']. by inversion Hd'. }
  { intros mem Hf v Hv. cbn [eval] in Hv. inv_ok. by eapply Hf. }
  intros r' Fr Er. apply opt_outcome_intro; [by apply optimize_binary_good|].
  intros mem v Hd Hv. cbn [eval] in Hv. inv_ok.
  match goal with Hx : eval mem l = Ok ?x, Hy : eval mem r = Ok ?y |- _ =>
    pose proof (El _ _ Hd Hx) as Hx'; pose proof (Er _ _ Hd Hy) as Hy';
    assert (is_logic op = true -> (x = 0 \/ x = 1) /\ (y = 0 \/ y = 1)) as Hb end.
  { intros Hop. rewrite (logic_types _ Hop) in Tl, Tr. split; [apply (eval_bool mem l) | apply (eval_bool mem r)]; assumption. }
  destruct (not_fails (optimize_binary p op l' r')) as [n' Hn'].
  { intros Hf. eapply (optimize_binary_rejects mem op p l' r' _ _ Hx' Hy' Hf); eassumption. }
  exists n'; split; [done|].
  eapply (optimize_binary_eval mem op p l' r' n' _ _ _ Hb _ Hx' Hy'); try eassumption.
  Unshelve. intros -> Hp Hne. cbn [div_ok] in Hd. apply andb_true_iff in Hd as [_ Hd].
  match goal with Hx : eval mem l = Ok _, Hy : eval mem r = Ok _ |- _ =>
    rewrite Hx, Hy, Hp in Hd end.
  simpl in Hd. apply orb_true_iff in Hd as [Hd|Hd]; b2p; lia.
Qed.

Lemma optimize_outcome_unary op p c t :
  expr_type c = Some t ->
  (if decide (op = ASEBA_UNARY_OP_NOT) then t = BOOL else t = INT) ->
  opt_outcome t c (optimize c) ->
  opt_outcome t (Node (UnaryArithmeticNode op) p [c]) (optimize (Node (UnaryArithmeticNode op) p [c])).
Proof.
  intros Tc Hop Oc. cbn [optimize]. eapply opt_outcome_child; [exact Oc| | |].
  { intros mem Hd. apply div_ok_children in Hd. by inversion Hd. }
  { intros mem Hf. cbn [eval]. by apply bind_fails. }
  intros c' Fc Ec. destruct (optimize_unary_spec p op c' t Hop Fc) as [Hg Hspec].
  apply opt_outcome_intro; [exact Hg|]. intros mem v Hd Hv. cbn [eval] in Hv. inv_ok.
  match goal with Hx : eval mem c = Ok ?x |- _ =>
    destruct (Hspec mem x (Ec _ _ Hd Hx)) as [Hok Hrej] end.
  destruct (not_fails (optimize_unary p op c')) as [n' Hn'].
  { intros Hf. by eapply Hrej. }
  exists n'; split; [done|]. by apply Hok.
Qed.

Lemma optimize_outcome n t : expr_type n = Some t -> opt_outcome t n (optimize n).
Proof.
  revert t; induction n as [k p cs IH] using node_rose_ind; intros t Ht.
  apply expr_type_view in Ht as Hview. inversion Hview; subst;
    repeat match goal with
    | H : Forall _ (_ :: _) |- _ => apply Forall_cons_1 in H as [? H]
    end.
  - simpl. split; [constructor|done].
  - simpl. split; [constructor|done].
  - cbn [optimize]. eapply opt_outcome_child; [by eauto| | |].
    { intros mem Hd. apply div_ok_children in Hd. by inversion Hd. }
    { intros mem Hf. cbn [eval]. by apply bind_fails. }
    intros i' Fi Ei. destruct (optimize_array_spec p a s nm i' _ Fi) as [Hg Hspec].
    apply opt_outcome_intro; [exact Hg|]. intros mem v Hd Hv. cbn [eval] in Hv. inv_ok.
    match goal with Hx : eval mem i = Ok ?x |- _ =>
      destruct (Hspec mem x (Ei _ _ Hd Hx)) as [Hok Hrej] end.
    destruct (_ <=? _) eqn:Hs; [done|].
    destruct (not_fails _ (fun Hf => Hrej Hf _ eq_refl)) as [n' Hn'].
    inv_ok. exists n'; split; [exact Hn'|]. by eapply Hok.
  - eapply optimize_outcome_binary; eauto;
      destruct (binary_types_view _ _ _ _ _ Hview) as (_ & ? & ?); eauto.
  - eapply optimize_outcome_binary; eauto;
      destruct (binary_types_view _ _ _ _ _ Hview) as (_ & ? & ?); eauto.
  - eapply optimize_outcome_binary; eauto;
      destruct (binary_types_view _ _ _ _ _ Hview) as (_ & ? & ?); eauto.
  - eapply optimize_outcome_unary; eauto. by rewrite decide_False.
  - eapply optimize_outcome_unary; eauto. done.
Qed.

(** ** Results *)

(** C34: the optimizer has one of three outcomes on a well-typed expression: an
    expression of the same type in optimized form (no [not], no operation on two
    constants, constant conditions 0 or 1); a rejection of the program with a
    well-formed error; or an [int] overflow, which is undefined.  It never
    aborts on one, never loses it, and never runs out of steps. *)
Theorem optimize_expr_total n t :
  expr_type n = Some t ->
  (exists n', optimize n = Ok (Some n') /\ opt_form t n') \/
  (exists e, optimize n = Throw e /\ error_wf e) \/
  optimize n = Undef.
Proof.
  intros Ht. pose proof (optimize_outcome n t Ht) as H.
  destruct (optimize n) as [[n'|]|e| | |]; simpl in H; try done.
  - left. exists n'. split; [done|]. apply H.
  - right; left. exists e. split; [done|]. apply H.
  - by right; right.
Qed.

Lemma optimize_expr_total_witness :
  exists n', optimize (Node (UnaryArithmeticNode ASEBA_UNARY_OP_NOT) SourcePos_none
    [Node (BinaryArithmeticNode ASEBA_OP_EQUAL) SourcePos_none
       [Node (LoadNode 3) SourcePos_none []; Node (ImmediateNode 1) SourcePos_none []]])
  = Ok (Some n') /\ opt_form BOOL n'.
Proof.
  destruct (optimize_expr_total (Node (UnaryArithmeticNode ASEBA_UNARY_OP_NOT) SourcePos_none
    [Node (BinaryArithmeticNode ASEBA_OP_EQUAL) SourcePos_none
       [Node (LoadNode 3) SourcePos_none []; Node (ImmediateNode 1) SourcePos_none []]]) BOOL
    eq_refl) as [H|[(e & H & _)|H]]; [exact H|discriminate H|discriminate H].
Defined.

(** What [optimize_expr_correct] and the semantics of statements rest on. *)
Lemma optimize_value n t mem v :
  expr_type n = Some t -> div_ok mem n = true -> eval mem n = Ok v ->
  exists n', optimize n = Ok (Some n') /\ opt_form t n' /\ eval mem n' = Ok v.
Proof.
  intros Ht Hd Hv. pose proof (optimize_outcome n t Ht) as H.
  destruct (optimize n) as [[n'|]|e| | |]; simpl in H; try done.
  - exists n'. split; [done|]. split; [apply H|]. by apply H.
  - destruct H as [_ H]. by destruct (H mem Hd v).
  - by destruct (H mem Hd v).
Qed.

(** C5: the optimizer is correct on expressions.  If a well-typed expression
    has a value in some memory, and in that memory no division by a power of
    two has a negative dividend, then optimization succeeds and the optimized
    expression has the same value.  Nothing with a value is rejected. *)
Theorem optimize_expr_correct n t mem v :
  expr_type n = Some t -> div_ok mem n = true -> eval mem n = Ok v ->
  exists n', optimize n = Ok (Some n') /\ opt_form t n' /\ eval mem n' = Ok v.
Proof. apply optimize_value. Qed.

Definition sample_expr : node :=
  let p := SourcePos_none in
  Node (BinaryArithmeticNode ASEBA_OP_DIV) p
    [Node (BinaryArithmeticNode ASEBA_OP_MULT) p
       [Node (LoadNode 2) p []; Node (ImmediateNode 8) p []];
     Node (BinaryArithmeticNode ASEBA_OP_ADD) p
       [Node (ImmediateNode 1) p []; Node (ImmediateNode 3) p []]].

Lemma optimize_expr_correct_witness :
  exists n', optimize sample_expr = Ok (Some n') /\ opt_form INT n' /\ eval (fun _ => 5) n' = Ok 10.
Proof.
  apply (optimize_expr_correct sample_expr INT (fun _ => 5) 10); vm_compute; reflexivity.
Defined.

Lemma quot_s32 x y : in_s32 x = true -> 1 < y -> in_s32 (Z.quot x y) = true.
Proof.
  rewrite !in_s32_iff. intros Hx Hy. destruct (Z_le_gt_dec 0 x).
  - pose proof (Z.quot_pos x y). pose proof (Z.quot_le_upper_bound x y x). nia.
  - pose proof (Z.quot_pos (- x) y). pose proof (Z.quot_lt (- x) y).
    replace x with (- - x) by lia. rewrite Z.quot_opp_l by lia. lia.
Qed.

(** Strength reduction of a division rounds differently.  A variable
    divided by the constant [2^k] is compiled to an arithmetic shift, whose
    value is the floor of the quotient, while the compiler's own folding of the
    same division truncates towards zero; the two differ on -1. *)
Theorem optimize_div_pow2 p a k mem :
  0 < k < 31 -> in_s32 (mem a) = true ->
  let n := Node (BinaryArithmeticNode ASEBA_OP_DIV) p
             [Node (LoadNode a) p []; Node (ImmediateNode (2 ^ k)) p []] in
  eval mem n = Ok (Z.quot (mem a) (2 ^ k)) /\
  exists n', optimize n = Ok (Some n') /\ eval mem n' = Ok (mem a / 2 ^ k) /\
             (mem a = -1 -> eval mem n = Ok 0 /\ eval mem n' = Ok (-1)).
Proof.
  intros Hk Hm n. assert (1 < 2 ^ k) as Hp by (apply Z.pow_gt_1; lia).
  assert (eval mem n = Ok (Z.quot (mem a) (2 ^ k))) as Hn.
  { unfold n. cbn. destruct (Z.eqb_spec (2 ^ k) 0); [lia|].
    apply ret_int_Ok. split; [done|]. apply quot_s32; [done|lia]. }
  split; [done|].
  assert (isPOT (2 ^ k) = true /\ shiftFromPOT (2 ^ k) = k) as [Hpot Hs].
  { apply isPOT_pow2; lia. }
  eexists; split; [|split].
  - unfold n. cbn. unfold optimize_binary. cbn.
    destruct (Z.eqb_spec (2 ^ k) 1); [lia|]. unfold pot_to_shift; cbn. rewrite Hpot, Hs. reflexivity.
  - cbn. destruct ((0 <=? k) && (k <? 32)) eqn:E; [|exfalso; lia].
    f_equal. apply Z.shiftr_div_pow2; lia.
  - intros E. rewrite Hn, E. split.
    + f_equal. change (-1) with (- (1)). rewrite Z.quot_opp_l, Z.quot_small by lia. done.
    + cbn. destruct ((0 <=? k) && (k <? 32)) eqn:E'; [|exfalso; lia].
      rewrite E, Z.shiftr_div_pow2 by lia. f_equal.
      symmetry. apply (Z.div_unique _ _ _ (2 ^ k - 1)); lia.
Qed.

Lemma isPOT_iff_witness : isPOT 64 = true <-> exists k, 0 <= k < 31 /\ 64 = 2 ^ k /\ shiftFromPOT 64 = k.
Proof. apply (isPOT_iff 64). reflexivity. Defined.

Lemma optimize_div_pow2_witness :
  exists n', optimize (Node (BinaryArithmeticNode ASEBA_OP_DIV) SourcePos_none
                [Node (LoadNode 7) SourcePos_none []; Node (ImmediateNode (2 ^ 1)) SourcePos_none []])
             = Ok (Some n') /\ eval (fun _ => -1) n' = Ok (-1).
Proof.
  destruct (optimize_div_pow2 SourcePos_none 7 1 (fun _ => -1)) as (_ & n' & H & H' & _);
    [lia|reflexivity|]. exists n'. split; [exact H|exact H'].
Defined.

(** ** Statements

    The effect of statements on the variables and on the world, when nothing
    stops them.  What the machine does with a value it stores, with a
    subroutine, a native function and an event is given; [ev] evaluates
    expressions.  Statements with [when], which remember their last condition,
    are not covered: see [constant_when]. *)
Section Statements.
Variable World : Type.
Variable stored : Z -> Z.
Variable call_sub : Z -> (Z -> Z) * World -> (Z -> Z) * World -> Prop.
Variable call_native : Z -> list Z -> list Z -> (Z -> Z) * World -> (Z -> Z) * World -> Prop.
Variable emit_event : Z -> Z -> Z -> (Z -> Z) * World -> World.

Definition vm : Type := (Z -> Z) * World.
Definition assign (a v : Z) (s : vm) : vm := (fun x => if x =? a then stored v else fst s x, snd s).

(** A statement is over, or has ended the event or the subroutine. *)
Inductive flow : Type := Next | Stop.

Section Runs.
Variable ev : (Z -> Z) -> node -> res error Z.

(** An argument of a native function: a value, or the address of an element of
    an array, for which the element is left in a temporary. *)
Inductive arg : node -> vm -> Z -> vm -> Prop :=
| arg_value e s v : (match node_kind e with LoadNativeArgNode _ _ _ _ => False | _ => True end) ->
    ev (fst s) e = Ok v -> arg e s v s
| arg_address t a size nm p i s x :
    ev (fst s) i = Ok x -> u32 x < size ->
    arg (Node (LoadNativeArgNode t a size nm) p [i]) s (a + x) (assign t (fst s (u32 (a + u32 x))) (assign t x s)).

(** The arguments, from the last one on. *)
Inductive args : list node -> vm -> list Z -> vm -> Prop :=
| args_nil s : args [] s [] s
| args_cons c cs s vs s1 v s2 : args cs s vs s1 -> arg c s1 v s2 -> args (c :: cs) s (v :: vs) s2.

Inductive runs : node -> vm -> vm -> flow -> Prop :=
| run_block pos cs s s' f : runs_list cs s s' f -> runs (Node BlockNode pos cs) s s' f
| run_assign pos p a e v s : ev (fst s) e = Ok v -> runs (Node AssignmentNode pos [Node (StoreNode a) p []; e]) s (assign a v s) Next
| run_assign_array pos p a size nm i e x v s :
    ev (fst s) e = Ok v -> ev (fst s) i = Ok x -> u32 x < size ->
    runs (Node AssignmentNode pos [Node (ArrayWriteNode a size nm) p [i]; e]) s (assign (u32 (a + u32 x)) v s) Next
| run_if pos l c t rest v s s' f : ev (fst s) c = Ok v ->
    runs_opt (if v =? 0 then hd_error rest else Some t) s s' f -> runs (Node (IfWhenNode false l) pos (c :: t :: rest)) s s' f
| run_while_end pos c b s : ev (fst s) c = Ok 0 -> runs (Node WhileNode pos [c; b]) s s Next
| run_while_turn pos c b v s s1 s' f : ev (fst s) c = Ok v -> v <> 0 -> runs b s s1 Next ->
    runs (Node WhileNode pos [c; b]) s1 s' f -> runs (Node WhileNode pos [c; b]) s s' f
| run_while_stop pos c b v s s' : ev (fst s) c = Ok v -> v <> 0 -> runs b s s' Stop -> runs (Node WhileNode pos [c; b]) s s' Stop
| run_folded_if pos p op l c0 c1 t rest x y v s s' f : ev (fst s) c0 = Ok x -> ev (fst s) c1 = Ok y -> fold_binary p op x y = Ok v ->
    runs_opt (if v =? 0 then hd_error rest else Some t) s s' f ->
    runs (Node (FoldedIfWhenNode op false l) pos (c0 :: c1 :: t :: rest)) s s' f
| run_folded_while_end pos p op c0 c1 b x y s : ev (fst s) c0 = Ok x -> ev (fst s) c1 = Ok y -> fold_binary p op x y = Ok 0 ->
    runs (Node (FoldedWhileNode op) pos [c0; c1; b]) s s Next
| run_folded_while_turn pos p op c0 c1 b x y v s s1 s' f : ev (fst s) c0 = Ok x -> ev (fst s) c1 = Ok y -> fold_binary p op x y = Ok v ->
    v <> 0 -> runs b s s1 Next -> runs (Node (FoldedWhileNode op) pos [c0; c1; b]) s1 s' f ->
    runs (Node (FoldedWhileNode op) pos [c0; c1; b]) s s' f
| run_folded_while_stop pos p op c0 c1 b x y v s s' : ev (fst s) c0 = Ok x -> ev (fst s) c1 = Ok y -> fold_binary p op x y = Ok v ->
    v <> 0 -> runs b s s' Stop -> runs (Node (FoldedWhileNode op) pos [c0; c1; b]) s s' Stop
| run_emit pos e a n cs s s1 : runs_list cs s s1 Next -> runs (Node (EmitNode e a n) pos cs) s (fst s1, emit_event e a n s1) Next
| run_call_sub pos nm id cs s s' : call_sub id s s' -> runs (Node (CallSubNode nm id) pos cs) s s' Next
| run_call pos f ts cs s vs s1 s' : args cs s vs s1 -> call_native f ts vs s1 s' -> runs (Node (CallNode f ts) pos cs) s s' Next
| run_return pos cs s : runs (Node ReturnNode pos cs) s s Stop
with runs_list : list node -> vm -> vm -> flow -> Prop :=
| runs_nil s : runs_list [] s s Next
| runs_cons c cs s s1 s' f : runs c s s1 Next -> runs_list cs s1 s' f -> runs_list (c :: cs) s s' f
| runs_stop c cs s s' : runs c s s' Stop -> runs_list (c :: cs) s s' Stop
with runs_opt : option node -> vm -> vm -> flow -> Prop :=
| runs_none s : runs_opt None s s Next
| runs_some c s s' f : runs c s s' f -> runs_opt (Some c) s s' f.
End Runs.

Scheme runs_ind' := Minimality for runs Sort Prop
with runs_list_ind' := Minimality for runs_list Sort Prop
with runs_opt_ind' := Minimality for runs_opt Sort Prop.
Combined Scheme runs_mutind from runs_ind', runs_list_ind', runs_opt_ind'.

(** The evaluation of a source: no negative number is divided by a power of
    two, where the shift of the optimizer would be another value. *)
Definition eval_source (mem : Z -> Z) (n : node) : res error Z := if div_ok mem n then eval mem n else Undef.

(** Statements as the expansion makes them, with typed expressions. *)
Definition typed (n : node) : bool := match expr_type n with Some _ => true | None => false end.
Definition arg_ok (n : node) : bool :=
  match n with Node (LoadNativeArgNode _ _ _ _) _ [i] => typed i | Node (LoadNativeArgNode _ _ _ _) _ _ => false | _ => typed n end.
Fixpoint stmt_ok (n : node) : bool :=
  let 'Node k _ cs := n in
  match k, cs with
  | BlockNode, _ => forallb stmt_ok cs
  | AssignmentNode, [Node (StoreNode _) _ []; e] => typed e
  | AssignmentNode, [Node (ArrayWriteNode _ _ _) _ [i]; e] => typed i && typed e
  | IfWhenNode false _, c :: t :: rest => bool_decide (expr_type c = Some BOOL) && stmt_ok t && forallb stmt_ok rest
  | WhileNode, [c; b] => bool_decide (expr_type c = Some BOOL) && stmt_ok b
  | EmitNode _ _ _, _ => forallb stmt_ok cs
  | CallNode _ _, _ => forallb arg_ok cs
  | (CallSubNode _ _ | ReturnNode), _ => true
  | _, _ => false
  end.

Lemma source_value n mem v : typed n = true -> eval_source mem n = Ok v ->
  exists t n', expr_type n = Some t /\ optimize n = Ok (Some n') /\ opt_form t n' /\ eval mem n' = Ok v.
Proof.
  unfold typed, eval_source. destruct (expr_type n) as [t|] eqn:Et; [|done]. intros _. destruct (div_ok mem n) eqn:Ed; [|done].
  intros Hv. destruct (optimize_value n t mem v Et Ed Hv) as (n' & H). eauto.
Qed.

Lemma runs_empty o s s' f : empty_block o = true -> runs_opt eval o s s' f -> s' = s /\ f = Next.
Proof.
  intros He H. inversion H as [|c s0 s0' f0 Hr]; subst; [done|]. destruct c as [k p cs]. simpl in He.
  apply andb_true_iff in He as [Hb Hc]. destruct cs; [|done]. unfold is_block in Hb.
  inversion Hr; subst; try discriminate Hb. by match goal with H : runs_list _ [] _ _ _ |- _ => inversion H end.
Qed.

Lemma optimized_arg c s v s1 o : arg eval_source c s v s1 -> arg_ok c = true -> optimize c = Ok (Some o) -> arg eval o s v s1.
Proof.
  intros H Hok Ho. inversion H as [e s0 v0 Hk He|t a size nm p i s0 x Hx Hlt]; subst.
  - assert (typed c = true) as Ht by (by destruct c as [[] ? ?]).
    destruct (source_value _ _ _ Ht He) as (ty & n' & _ & Hn & Hf & Hv). rewrite Hn in Ho. injection Ho as <-.
    apply arg_value; [by destruct Hf|done].
  - cbn [arg_ok] in Hok. destruct (source_value _ _ _ Hok Hx) as (ty & n' & _ & Hn & _ & Hv). cbn [optimize] in Ho. rewrite Hn in Ho.
    cbn [not_null of_option mbind res_bind] in Ho. destruct (as_immediate n'); [discriminate|]. injection Ho as <-. by apply arg_address.
Qed.

Lemma optimized_args cs s vs s1 cs' : args eval_source cs s vs s1 -> forallb arg_ok cs = true ->
  optimize_children optimize cs = Ok cs' -> args eval cs' s vs s1.
Proof.
  intros H. revert cs'. induction H as [s|c cs s vs s1 v s2 _ IH Hc]; intros cs' Hok Ho; cbn [optimize_children] in Ho.
  - injection Ho as <-. constructor.
  - apply andb_true_iff in Hok as [Hc' Hcs]. apply bind_Ok in Ho as (o & Eo & Ho). apply bind_Ok in Ho as (c' & Ec & Ho).
    apply bind_Ok in Ho as (rest & Er & [= <-]). destruct o as [o|]; [injection Ec as ->|discriminate].
    econstructor; [by apply IH|by eapply optimized_arg].
Qed.

(** A condition and the branch node that it is folded into. *)
Lemma source_condition c mem v o : expr_type c = Some BOOL -> eval_source mem c = Ok v -> optimize c = Ok o ->
  exists c', o = Some c' /\
    match as_immediate c' with
    | Some w => v = w
    | None => exists op p l r x y, c' = Node (BinaryArithmeticNode op) p [l; r] /\
        eval mem l = Ok x /\ eval mem r = Ok y /\ fold_binary p op x y = Ok v
    end.
Proof.
  intros Ht Hv Ho. destruct (source_value c mem v) as (t & c' & Ht' & Hc & Hf & He); [by unfold typed; rewrite Ht|done|].
  rewrite Ht in Ht'. injection Ht' as <-. rewrite Hc in Ho. injection Ho as <-. exists c'. split; [done|].
  destruct (as_immediate c') as [w|] eqn:E; [by eapply eval_imm|].
  destruct (opt_form_cond c' Hf E) as (op & p & l & r & -> & _). cbn [eval] in He.
  apply bind_Ok in He as (x & Hx & He). apply bind_Ok in He as (y & Hy & He). exists op, p, l, r, x, y. by split_and!.
Qed.

Lemma optimized_if pos l cond t f v (s s' : vm) fl :
  match as_immediate cond with
  | Some w => v = w
  | None => exists op p l r x y, cond = Node (BinaryArithmeticNode op) p [l; r] /\
      eval (fst s) l = Ok x /\ eval (fst s) r = Ok y /\ fold_binary p op x y = Ok v
  end ->
  runs_opt eval (if v =? 0 then f else t) s s' fl ->
  forall o, optimize_if pos false l cond t f = Ok o -> runs_opt eval o s s' fl.
Proof.
  intros Hc Hr o Ho. unfold optimize_if in Ho. destruct (empty_block t && empty_block f) eqn:Ee.
  - injection Ho as <-. apply andb_true_iff in Ee as [E1 E2].
    destruct (runs_empty (if v =? 0 then f else t) s s' fl) as [-> ->]; [by destruct (v =? 0)|done|constructor].
  - destruct (as_immediate cond) as [w|].
    + subst w. by destruct (v =? 0); injection Ho as <-.
    + destruct Hc as (op & p & c0 & c1 & x & y & -> & Hx & Hy & Hv). injection Ho as <-. constructor.
      eapply run_folded_if; [exact Hx|exact Hy|exact Hv|]. destruct (v =? 0); [by destruct f|].
      destruct t as [t|]; [done|]. inversion Hr; subst. constructor. constructor. constructor.
Qed.

Definition preserved (n : node) (s s' : vm) (f : flow) : Prop :=
  stmt_ok n = true -> forall o, optimize n = Ok o -> runs_opt eval o s s' f.
Definition preserved_list (cs : list node) (s s' : vm) (f : flow) : Prop :=
  forallb stmt_ok cs = true ->
  (forall cs', optimize_block optimize cs = Ok cs' -> runs_list eval cs' s s' f) /\
  (forall cs', optimize_children optimize cs = Ok cs' -> runs_list eval cs' s s' f).
Definition preserved_opt (o : option node) (s s' : vm) (f : flow) : Prop :=
  match o with Some n => preserved n s s' f | None => s' = s /\ f = Next end.

Lemma preserved_cons c cs s s1 s' f : preserved c s s1 Next -> preserved_list cs s1 s' f -> preserved_list (c :: cs) s s' f.
Proof.
  intros Hc Hcs [H1 H2]%andb_true_iff. destruct (Hcs H2) as [Hb Hl]. split; intros cs' Ho; cbn [optimize_block optimize_children] in Ho.
  - apply bind_Ok in Ho as (o & Eo & Ho). apply bind_Ok in Ho as (rest & Er & [= <-]). specialize (Hc H1 _ Eo). specialize (Hb _ Er).
    destruct (empty_block o) eqn:Ee; [by destruct (runs_empty _ _ _ _ Ee Hc) as [-> _]|].
    destruct o as [c'|]; [|done]. inversion Hc; subst. by eapply runs_cons.
  - apply bind_Ok in Ho as (o & Eo & Ho). apply bind_Ok in Ho as (c' & Ec & Ho). apply bind_Ok in Ho as (rest & Er & [= <-]).
    specialize (Hc H1 _ Eo). destruct o as [o|]; [injection Ec as ->|discriminate]. inversion Hc; subst. eapply runs_cons; [done|by apply Hl].
Qed.

Lemma preserved_stop c cs s s' : preserved c s s' Stop -> preserved_list (c :: cs) s s' Stop.
Proof.
  intros Hc [H1 H2]%andb_true_iff. split; intros cs' Ho; cbn [optimize_block optimize_children] in Ho.
  - apply bind_Ok in Ho as (o & Eo & Ho). apply bind_Ok in Ho as (rest & Er & [= <-]). specialize (Hc H1 _ Eo).
    destruct (empty_block o) eqn:Ee; [by destruct (runs_empty _ _ _ _ Ee Hc)|].
    destruct o as [c'|]; [|by inversion Hc]. inversion Hc; subst. by apply runs_stop.
  - apply bind_Ok in Ho as (o & Eo & Ho). apply bind_Ok in Ho as (c' & Ec & Ho). apply bind_Ok in Ho as (rest & Er & [= <-]).
    specialize (Hc H1 _ Eo). destruct o as [o|]; [injection Ec as ->|discriminate]. inversion Hc; subst. by apply runs_stop.
Qed.

Lemma optimize_while_inv pos c b o : optimize (Node WhileNode pos [c; b]) = Ok o ->
  exists c' b', optimize c = Ok (Some c') /\ optimize b = Ok b' /\ optimize_while pos c' b' = Ok o.
Proof.
  cbn [optimize]. intros H. apply bind_Ok in H as (o0 & E0 & H). apply bind_Ok in H as (c' & Ec & H). apply bind_Ok in H as (b' & Eb & H).
  destruct o0; [injection Ec as ->|discriminate]. eauto.
Qed.

(** The loop that is left: none, or one that turns as the source does. *)
Lemma optimized_while pos c b v (s : vm) o : expr_type c = Some BOOL -> eval_source (fst s) c = Ok v ->
  optimize (Node WhileNode pos [c; b]) = Ok o -> exists b', optimize b = Ok b' /\
  (o = None /\ (v = 0 \/ empty_block b' = true) \/
   exists p op c0 c1 b1 x y, b' = Some b1 /\ o = Some (Node (FoldedWhileNode op) pos [c0; c1; b1]) /\
     eval (fst s) c0 = Ok x /\ eval (fst s) c1 = Ok y /\ fold_binary p op x y = Ok v).
Proof.
  intros Ht Hv (c' & b' & Ec & Eb & Ho)%optimize_while_inv. exists b'. split; [done|].
  destruct (source_condition _ _ _ _ Ht Hv Ec) as (c'' & [= <-] & Hc). unfold optimize_while in Ho. destruct (as_immediate c') as [w|].
  - subst w. destruct (Z.eqb_spec v 0); cbn [negb] in Ho; [|discriminate]. injection Ho as <-. auto.
  - destruct (empty_block b') eqn:Ee; [injection Ho as <-; auto|]. destruct Hc as (op & p & l & r & x & y & -> & Hx & Hy & Hf).
    destruct b' as [b1|]; [|discriminate]. injection Ho as <-. right. by exists p, op, l, r, b1, x, y.
Qed.

(** C4: optimizing does not change what a program without [when] does.  Take a
    statement made of blocks, assignments, [if], [while], [emit], calls and
    [return], whose expressions are typed, the arguments of its calls and events
    included.  If it runs to its end, or to a [return], without an overflow of
    [int] and without dividing a negative number by a power of two, and the
    optimizer accepts it, then what [optimize] makes of it (nothing at all, a
    block of one of its branches, or a statement with folded conditions) runs to
    the same end with the same effects on the variables, the same calls and the
    same events in the same order: dead branches and empty loops are dropped,
    constants folded, conditions inverted and array accesses resolved without
    a difference.  (A [when] with a constant condition and a division of a
    negative number by a power of two do change: see below.) *)
Theorem optimize_statement_correct n s s' f o :
  stmt_ok n = true -> runs eval_source n s s' f -> optimize n = Ok o -> runs_opt eval o s s' f.
Proof.
  intros Hok Hr Ho. revert n s s' f Hr o Hok Ho.
  enough (forall n s s' f, runs eval_source n s s' f -> preserved n s s' f) as H by (intros n s s' f Hr o Hok Ho; by eapply H).
  apply (runs_ind' eval_source preserved preserved_list preserved_opt);
    [| | | | | | | | | | | | | | |by split; intros ? [= <-]; constructor|intros; by eapply preserved_cons|intros; by apply preserved_stop|done|done].
  - intros pos cs s s' f _ IH Hok o Ho. cbn [optimize] in Ho. apply bind_Ok in Ho as (cs' & Hcs & [= <-]).
    destruct (IH Hok) as [Hb _]. constructor. constructor. by apply Hb.
  - intros pos p a e v s He Hok o Ho. cbn [stmt_ok] in Hok. destruct (source_value _ _ _ Hok He) as (t & e' & _ & Ee & _ & Hv).
    cbn [optimize not_null of_option mbind res_bind] in Ho. rewrite Ee in Ho. injection Ho as <-. constructor. by constructor.
  - intros pos p a size nm i e x v s He Hi Hlt Hok o Ho. cbn [stmt_ok] in Hok. apply andb_true_iff in Hok as [Hti Hte].
    destruct (source_value _ _ _ Hti Hi) as (ti & i' & _ & Ei & _ & Hx). destruct (source_value _ _ _ Hte He) as (te & e' & _ & Ee & _ & Hv).
    cbn [optimize] in Ho. rewrite Ei in Ho. cbn [not_null of_option mbind res_bind] in Ho. unfold optimize_array in Ho.
    destruct (as_immediate i') as [w|] eqn:Ew.
    + apply (eval_imm _ _ _ _ Ew) in Hx. subst w. cbn [default] in Ho. rewrite (proj2 (Z.leb_gt size (u32 x)) Hlt) in Ho.
      cbn [fmap res_fmap mbind res_bind of_option] in Ho. rewrite Ee in Ho. injection Ho as <-. constructor. by constructor.
    + cbn [fmap res_fmap mbind res_bind of_option] in Ho. rewrite Ee in Ho. injection Ho as <-. constructor. by constructor.
  - intros pos l c t rest v s s' f Hc _ IH Hok o Ho. cbn [stmt_ok] in Hok.
    apply andb_true_iff in Hok as [[Ht%bool_decide_eq_true Hst]%andb_true_iff Hsr].
    cbn [optimize] in Ho. apply bind_Ok in Ho as (o0 & E0 & Ho). apply bind_Ok in Ho as (c' & Ec & Ho).
    apply bind_Ok in Ho as (tb & Et & Ho). apply bind_Ok in Ho as (fb & Ef & Ho).
    destruct (source_condition _ _ _ _ Ht Hc E0) as (c'' & -> & Hcond). injection Ec as ->.
    eapply optimized_if; [exact Hcond| |exact Ho]. destruct (v =? 0).
    + destruct rest as [|e rest]; cbn in IH; [injection Ef as <-; destruct IH as [-> ->]; constructor|].
      cbn [forallb] in Hsr. apply andb_true_iff in Hsr as [Hse _]. by apply IH.
    + by apply IH.
  - intros pos c b s Hc Hok o Ho. cbn [stmt_ok] in Hok. apply andb_true_iff in Hok as [Ht%bool_decide_eq_true Hb].
    destruct (optimized_while _ _ _ _ _ _ Ht Hc Ho) as (b' & _ & [[-> _]|(p & op & c0 & c1 & b1 & x & y & _ & -> & Hx & Hy & Hf)]); [constructor|].
    constructor. by eapply run_folded_while_end.
  - intros pos c b v s s1 s' f Hc Hv _ IHb _ IHw Hok o Ho. pose proof Hok as Hok'. cbn [stmt_ok] in Hok'.
    apply andb_true_iff in Hok' as [Ht%bool_decide_eq_true Hb].
    destruct (optimized_while _ _ _ _ _ _ Ht Hc Ho) as (b' & Eb & [[-> [Hz|Hemp]]|(p & op & c0 & c1 & b1 & x & y & -> & -> & Hx & Hy & Hf)]);
      [done| |]; pose proof (IHb Hb _ Eb) as H1.
    + destruct (runs_empty _ _ _ _ Hemp H1) as [-> _]. by apply (IHw Hok).
    + specialize (IHw Hok _ Ho). inversion IHw; subst. inversion H1; subst. constructor. by eapply run_folded_while_turn.
  - intros pos c b v s s' Hc Hv _ IHb Hok o Ho. cbn [stmt_ok] in Hok. apply andb_true_iff in Hok as [Ht%bool_decide_eq_true Hb].
    destruct (optimized_while _ _ _ _ _ _ Ht Hc Ho) as (b' & Eb & [[-> [Hz|Hemp]]|(p & op & c0 & c1 & b1 & x & y & -> & -> & Hx & Hy & Hf)]);
      [done| |]; pose proof (IHb Hb _ Eb) as H1.
    + by destruct (runs_empty _ _ _ _ Hemp H1).
    + inversion H1; subst. constructor. by eapply run_folded_while_stop.
  - intros; discriminate.
  - intros; discriminate.
  - intros; discriminate.
  - intros; discriminate.
  - intros pos e a n cs s s1 _ IH Hok o Ho. cbn [optimize] in Ho. apply bind_Ok in Ho as (cs' & Hcs & [= <-]).
    destruct (IH Hok) as [_ Hl]. constructor. constructor. by apply Hl.
  - intros pos nm id cs s s' Hs Hok o [= <-]. constructor. by constructor.
  - intros pos fn ts cs s vs s1 s' Ha Hn Hok o Ho. cbn [optimize] in Ho. apply bind_Ok in Ho as (cs' & Hcs & [= <-]).
    constructor. eapply run_call; [by eapply optimized_args|done].
  - intros pos cs s Hok o [= <-]. constructor. constructor.
Qed.
End Statements.

(** A loop with an invariant factor, and a branch that is never taken. *)
Definition sample_statement : node :=
  let p := SourcePos_none in
  let bin op l r := Node (BinaryArithmeticNode op) p [l; r] in
  let imm v := Node (ImmediateNode v) p [] in
  let x := Node (LoadNode 5) p [] in
  Node BlockNode p
    [Node WhileNode p [bin ASEBA_OP_SMALLER_THAN x (bin ASEBA_OP_ADD (imm 3) (imm 4));
       Node BlockNode p [Node AssignmentNode p [Node (StoreNode 5) p []; bin ASEBA_OP_ADD x (imm 1)]]];
     Node (IfWhenNode false 0) p [bin ASEBA_OP_EQUAL (imm 1) (imm 2); Node BlockNode p [Node ReturnNode p []]]].

Lemma sample_statement_runs sub native emit mem : mem 5 = 6 ->
  runs unit s16 sub native emit eval_source sample_statement (mem, tt) (assign unit s16 5 7 (mem, tt)) Next.
Proof.
  intros Hm. constructor. eapply runs_cons; [|eapply runs_cons; [|apply runs_nil]].
  - eapply (run_while_turn _ _ _ _ _ _ _ _ _ 1); [unfold eval_source; cbn; rewrite Hm; reflexivity|done| |].
    + constructor. eapply runs_cons; [|apply runs_nil]. apply run_assign. unfold eval_source. cbn. rewrite Hm. reflexivity.
    + apply run_while_end. unfold eval_source. cbn. reflexivity.
  - apply (run_if _ _ _ _ _ _ _ _ _ _ _ 0); [reflexivity|constructor].
Qed.

Lemma optimize_statement_correct_witness :
  exists o, optimize sample_statement = Ok o /\
    runs_opt unit s16 (fun _ _ _ => False) (fun _ _ _ _ _ => False) (fun _ _ _ _ => tt) eval o (fun _ => 6, tt) (assign unit s16 5 7 (fun _ => 6, tt)) Next.
Proof.
  destruct (optimize sample_statement) as [o|e| | |] eqn:E; [|exfalso; vm_compute in E; discriminate E..].
  exists o. split; [reflexivity|].
  apply (optimize_statement_correct unit s16 (fun _ _ _ => False) (fun _ _ _ _ _ => False) (fun _ _ _ _ => tt) sample_statement (fun _ => 6, tt) (assign unit s16 5 7 (fun _ => 6, tt)) Next o eq_refl
    (sample_statement_runs _ _ _ _ eq_refl) E).
Defined.

(** A [when] whose condition is constant becomes its block: it runs each time,
    although its condition becomes true only once. *)
Lemma constant_when pos l p v block : empty_block (Some block) = false -> v <> 0 ->
  optimize_if pos true l (Node (ImmediateNode v) p []) (Some block) None = Ok (Some block).
Proof. intros Hb Hv. unfold optimize_if. rewrite Hb. cbn. by destruct (Z.eqb_spec v 0). Qed.
