(* ===== verification/Expand.v ===== *)
(** * Tree expansion

    compiler/tree-expand.cpp (both passes and the vector checks) and the
    allocation of temporary memory of compiler/parser.cpp.  The operations of
    the compiler that change its state are in the monad [M]; an exception
    discards the state, as [compile] does by returning. *)
From Stdlib Require Import ZArith Lia List String.
From stdpp Require Import base list strings.
From S2P Require Import Prelude Errors Consts Tree OrdMap Target Lexer Lookup.

Local Open Scope Z_scope.

(** ** The monad of the compiler *)

Definition M (A : Type) : Type := Compiler -> res error (A * Compiler).

#[export] Instance M_ret : MRet M := fun A a st => Ok (a, st).
#[export] Instance M_bind : MBind M := fun A B f m st =>
  match m st with
  | Ok (a, st') => f a st'
  | Throw e => Throw e
  | Crash => Crash
  | Undef => Undef
  | NoFuel => NoFuel
  end.

Definition lift {A} (r : res error A) : M A := fun st => a ← r; Ok (a, st).
Definition get {A} (f : Compiler -> A) : M A := fun st => Ok (f st, st).
Definition modify (f : Compiler -> Compiler) : M unit := fun st => Ok (tt, f st).
Definition fail {A} (pos : SourcePos) (code : ErrorCode) (args : list wstring) : M A :=
  lift (throw pos code args).

(** The monadic [for] loop that collects its results. *)
Fixpoint mapM_ {A B} (f : A -> M B) (l : list A) : M (list B) :=
  match l with
  | [] => mret []
  | x :: l' => y ← f x; ys ← mapM_ f l'; mret (y :: ys)
  end.

(** Run the primitive steps of a computation in [M]. *)
Ltac run_M :=
  cbv beta iota zeta delta [mbind M_bind mret M_ret get modify lift fail res_bind id throw].

(** ** Updates of the compiler state *)

Definition set_tokens (ts : list Token) (c : Compiler) : Compiler :=
  mkCompiler ts (variablesMap c) (implementedEvents c) (functionsMap c) (constantsMap c)
    (globalEventsMap c) (allEventsMap c) (subroutineTable c) (subroutineReverseTable c)
    (freeVariableIndex c) (endVariableIndex c) (targetDescription c) (commonDefinitions c) (uid c).
Definition set_variables (vars : VariablesMap) (free : Z) (c : Compiler) : Compiler :=
  mkCompiler (tokens c) vars (implementedEvents c) (functionsMap c) (constantsMap c)
    (globalEventsMap c) (allEventsMap c) (subroutineTable c) (subroutineReverseTable c)
    free (endVariableIndex c) (targetDescription c) (commonDefinitions c) (uid c).
Definition set_constants (cs : omap wstring Z) (c : Compiler) : Compiler :=
  mkCompiler (tokens c) (variablesMap c) (implementedEvents c) (functionsMap c) cs
    (globalEventsMap c) (allEventsMap c) (subroutineTable c) (subroutineReverseTable c)
    (freeVariableIndex c) (endVariableIndex c) (targetDescription c) (commonDefinitions c) (uid c).
Definition set_implemented (ev : omap Z unit) (c : Compiler) : Compiler :=
  mkCompiler (tokens c) (variablesMap c) ev (functionsMap c) (constantsMap c)
    (globalEventsMap c) (allEventsMap c) (subroutineTable c) (subroutineReverseTable c)
    (freeVariableIndex c) (endVariableIndex c) (targetDescription c) (commonDefinitions c) (uid c).
Definition set_subroutines (tab : list SubroutineDescriptor) (rev : omap wstring Z) (c : Compiler) : Compiler :=
  mkCompiler (tokens c) (variablesMap c) (implementedEvents c) (functionsMap c) (constantsMap c)
    (globalEventsMap c) (allEventsMap c) tab rev
    (freeVariableIndex c) (endVariableIndex c) (targetDescription c) (commonDefinitions c) (uid c).
Definition set_end (e : Z) (c : Compiler) : Compiler :=
  mkCompiler (tokens c) (variablesMap c) (implementedEvents c) (functionsMap c) (constantsMap c)
    (globalEventsMap c) (allEventsMap c) (subroutineTable c) (subroutineReverseTable c)
    (freeVariableIndex c) e (targetDescription c) (commonDefinitions c) (uid c).
Definition set_uid (u : Z) (c : Compiler) : Compiler :=
  mkCompiler (tokens c) (variablesMap c) (implementedEvents c) (functionsMap c) (constantsMap c)
    (globalEventsMap c) (allEventsMap c) (subroutineTable c) (subroutineReverseTable c)
    (freeVariableIndex c) (endVariableIndex c) (targetDescription c) (commonDefinitions c) u.

(** ** Temporary memory (parser.cpp) *)

Definition freeTemporaryMemory : M unit := modify (set_end 0).

Definition allocateTemporaryMemory (varPos : SourcePos) (size : Z) : M Z :=
  c ← get id;
  let endOfMemory := u32 (variablesSize (targetDescription c) - endVariableIndex c) in
  let varAddr := u32 (endOfMemory - size) in
  let endVariableIndex' := u32 (endVariableIndex c + size) in
  _ ← modify (set_end endVariableIndex');
  if variablesSize (targetDescription c) <? u32 (freeVariableIndex c + endVariableIndex') then
    fail varPos ERROR_NOT_ENOUGH_TEMP_SPACE []
  else mret varAddr.

Definition temp_name (u : Z) : wstring := ws "temp" ++ dec_str u.

Definition allocateTemporaryVariable (varPos : SourcePos) (rValue : node) : M node :=
  size ← lift (getVectorSize rValue);
  addr ← allocateTemporaryMemory varPos size;
  u ← get uid;
  _ ← modify (set_uid (u32 (u + 1)));
  mret (Node AssignmentNode varPos
          [Node (MemoryVectorNode addr size (temp_name u) false) varPos []; rValue]).

(** ** Pass 1: abstract nodes *)

Fixpoint expandAbstractNodes (n : node) : res error node :=
  let 'Node k pos cs := n in
  match k with
  | TupleVectorNode | MemoryVectorNode _ _ _ _ => Ok n
  | UnaryArithmeticAssignmentNode arithmeticOp =>
      match cs with
      | [memoryVector] =>
          size ← getVectorSize memoryVector;
          let constant := Node TupleVectorNode pos
                            (repeat (Node (ImmediateNode 1) pos []) (Z.to_nat size)) in
          (* expandAbstractNodes of the new ArithmeticAssignmentNode *)
          leftVector ← expandAbstractNodes memoryVector;
          Ok (Node AssignmentNode pos
                [leftVector; Node (BinaryArithmeticNode arithmeticOp) pos [leftVector; constant]])
      | _ => Crash  (* assert(children.size() == 1) *)
      end
  | ArithmeticAssignmentNode op =>
      match cs with
      | [l; r] =>
          leftVector ← expandAbstractNodes l;
          rightVector ← expandAbstractNodes r;
          Ok (Node AssignmentNode pos
                [leftVector; Node (BinaryArithmeticNode op) pos [leftVector; rightVector]])
      | _ => Crash
      end
  | _ => cs' ← mapR expandAbstractNodes cs; Ok (Node k pos cs')
  end.

(** ** Consistency of vector sizes *)

Fixpoint checkVectorSize (n : node) : res error unit :=
  let 'Node k pos cs := n in
  let check_opt (o : option node) := match o with Some c => checkVectorSize c | None => Ok tt end in
  let check_all := fix go (l : list node) : res error unit :=
    match l with [] => Ok tt | c :: l' => _ ← checkVectorSize c; go l' end in
  match k with
  | AssignmentNode | ArithmeticAssignmentNode _ =>
      match cs with
      | [l; r] =>
          lSize ← getVectorSize l;
          rSize ← getVectorSize r;
          if lSize =? rSize then Ok tt
          else throw pos ERROR_ARRAY_SIZE_MISMATCH [dec_str lSize; dec_str rSize]
      | _ => Crash
      end
  | IfWhenNode _ _ | WhileNode =>
      match cs with
      | c0 :: rest =>
          conditionSize ← getVectorSize c0;
          if negb (conditionSize =? 1) then
            throw pos (match k with WhileNode => ERROR_WHILE_VECTOR_CONDITION | _ => ERROR_IF_VECTOR_CONDITION end) []
          else
            match k, rest with
            | IfWhenNode _ _, c1 :: c2 :: _ => _ ← checkVectorSize c1; checkVectorSize c2
            | _, c1 :: _ => checkVectorSize c1
            | _, [] => Ok tt
            end
      | [] => Crash
      end
  | FoldedIfWhenNode _ _ _ | FoldedWhileNode _ =>
      match cs with
      | c0 :: c1 :: rest =>
          s0 ← getVectorSize c0;
          s1 ← getVectorSize c1;
          if negb (s0 =? 1) || negb (s1 =? 1) then
            throw pos (match k with FoldedWhileNode _ => ERROR_WHILE_VECTOR_CONDITION | _ => ERROR_IF_VECTOR_CONDITION end) []
          else
            match k, rest with
            | FoldedIfWhenNode _ _ _, c2 :: c3 :: _ => _ ← checkVectorSize c2; checkVectorSize c3
            | _, c2 :: _ => checkVectorSize c2
            | _, [] => Ok tt
            end
      | _ => Crash
      end
  | _ => check_all cs
  end.

(** ** Pass 2: vectorial nodes *)

Fixpoint matchNameInMemoryVector (root : node) (name : wstring) : bool :=
  let 'Node k _ cs := root in
  match k with
  | MemoryVectorNode _ _ arrayName _ => if decide (arrayName = name) then true
                                        else existsb (fun c => matchNameInMemoryVector c name) cs
  | _ => existsb (fun c => matchNameInMemoryVector c name) cs
  end.

Section Vectorial.
(** [compiler->allocateTemporaryVariable]; a crash when [compiler] is null. *)
Variable allocate : SourcePos -> node -> M node.

(** The iterations [for(i = 0; i < size; i++)] of an assignment. *)
Fixpoint for_below (n : nat) (f : Z -> M node) (i : Z) : M (list node) :=
  match n with
  | O => mret []
  | S n' => a ← f i; rest ← for_below n' f (i + 1); mret (a :: rest)
  end.

(** [TupleVectorNode::expandVectorialNodes]: the child holding [index]. *)
Fixpoint expand_tuple (expand : node -> Z -> M node) (cs : list node) (total index : Z) : M node :=
  match cs with
  | [] => lift Crash  (* assert(0) *)
  | c :: cs' =>
      size ← lift (getVectorSize c);
      if index <? total + size then expand c (u32 (index - total))
      else expand_tuple expand cs' (total + size) index
  end.

(** [MemoryVectorNode::expandVectorialNodes]. *)
Definition expand_memory (expand : node -> Z -> M node) (n : node) (pos : SourcePos)
    (arrayAddr arraySize : Z) (arrayName : wstring) (write : bool) (cs : list node) (index : Z) : M node :=
  size ← lift (getVectorSize n);
  _ ← lift (assert_ (index <? size));
  let direct :=
    addr ← lift (getVectorAddr n);
    let pointer := u32 (addr + index) in
    if u32 (arrayAddr + arraySize) <=? pointer then
      fail pos ERROR_ARRAY_OUT_OF_BOUND [arrayName; dec_str index; dec_str arraySize]
    else if write then mret (Node (StoreNode pointer) pos [])
    else mret (Node (LoadNode pointer) pos []) in
  match cs with
  | [] => direct
  | c :: _ =>
      if is_tuple c then direct
      else
        c' ← expand c index;
        mret (Node (if write then ArrayWriteNode arrayAddr arraySize arrayName
                    else ArrayReadNode arrayAddr arraySize arrayName) pos [c'])
  end.

(** Every virtual [expandVectorialNodes], except that of assignments, which
    is [expand_assignment]: a copy of the node with its children expanded. *)
Fixpoint expand_node (expand_assign : SourcePos -> node -> node -> M node) (n : node) (index : Z) : M node :=
  let 'Node k pos cs := n in
  match k with
  | AssignmentNode =>
      match cs with
      | [l; r] => expand_assign pos l r
      | _ => lift Crash
      end
  | TupleVectorNode => expand_tuple (expand_node expand_assign) cs 0 index
  | MemoryVectorNode arrayAddr arraySize arrayName write =>
      expand_memory (expand_node expand_assign) n pos arrayAddr arraySize arrayName write cs index
  | ImmediateNode v => _ ← lift (assert_ (index =? 0)); mret n
  | _ => cs' ← mapM_ (fun c => expand_node expand_assign c index) cs; mret (Node k pos cs')
  end.

(** [AssignmentNode::expandVectorialNodes].  The fuel bounds the nesting of
    temporaries, which are only used when the destination occurs in the
    source, and of assignments inside the operands. *)
Fixpoint expand_assignment (fuel : nat) (pos : SourcePos) (lhs rightVector : node) : M node :=
  match node_kind lhs with
  | MemoryVectorNode _ _ arrayName _ =>
      let leftVector := setWrite true lhs in
      lSize ← lift (if matchNameInMemoryVector rightVector arrayName then getVectorSize leftVector else Ok 0);
      if matchNameInMemoryVector rightVector arrayName && (1 <? lSize) then
        temp ← allocate pos rightVector;
        match fuel, children temp with
        | O, _ => lift NoFuel
        | S fuel', [tempVar; rValue] =>
            (* tempBlock->expandVectorialNodes *)
            a ← expand_assignment fuel' pos tempVar rValue;
            b ← expand_assignment fuel' pos leftVector tempVar;
            mret (Node BlockNode pos [a; b])
        | _, _ => lift Crash
        end
      else
        let nested := match fuel with O => fun _ _ _ => lift NoFuel | S fuel' => expand_assignment fuel' end in
        size ← lift (getVectorSize leftVector);
        body ← for_below (Z.to_nat size) (fun i =>
          l ← expand_node nested leftVector i;
          r ← expand_node nested rightVector i;
          mret (Node AssignmentNode pos [l; r])) 0;
        mret (Node BlockNode pos body)
  | _ => fail pos ERROR_INCORRECT_LEFT_VALUE [ws (toNodeName lhs)]
  end.

Definition expandVectorialNodes (n : node) (index : Z) : M node :=
  expand_node (fun pos l r => expand_assignment (node_size r + 3) pos l r) n index.
End Vectorial.
