(* ===== verification/Fine.v ===== *)
(** * Computations that end well

    [fine r]: the computation does not exhaust the fuel of the model, and an
    error it throws is well formed.  The predicate is closed under the
    combinators; the tactic [fine] follows the structure of a definition. *)
From Stdlib Require Import ZArith Lia List String.
From stdpp Require Import base list strings.
From S2P Require Import Prelude Errors Consts OrdMap Target Lexer Lookup Tree TypeCheck Optimize.
From S2P Require Import Expand.

Local Open Scope Z_scope.

Definition fine {A} (r : res error A) : Prop :=
  match r with NoFuel => False | Throw e => error_wf e | _ => True end.

#[global] Arguments fine {A} r : simpl never.

Lemma fine_bind {A B} (m : res error A) (f : A -> res error B) :
  fine m -> (forall a, m = Ok a -> fine (f a)) -> fine (m ≫= f).
Proof.
  intros Hm Hf. destruct m as [a|e| | |]; [by apply (Hf a)|exact Hm|exact I|exact I|exact Hm].
Qed.

Lemma fine_fmap {A B} (m : res error A) (f : A -> B) : fine m -> fine (f <$> m).
Proof. by destruct m. Qed.

Lemma fine_mapR {A B} (f : A -> res error B) l : Forall (fun a => fine (f a)) l -> fine (mapR f l).
Proof.
  induction 1 as [|a l Ha Hl IH]; simpl; [exact I|].
  apply fine_bind; [done|]. intros b _. apply fine_bind; [done|]. intros; exact I.
Qed.

Lemma fine_of_option {A} (o : option A) : fine (of_option (E:=error) o).
Proof. by destruct o. Qed.

Lemma fine_assert b : fine (assert_ (E:=error) b).
Proof. by destruct b. Qed.

Lemma fine_ret_int z : fine (ret_int (E:=error) z).
Proof. unfold ret_int. by destruct (in_s32 z). Qed.

Lemma fine_at {A} (l : list A) i : fine (at_ (E:=error) l i).
Proof. apply fine_of_option. Qed.

Create HintDb fine.
#[export] Hint Resolve fine_of_option fine_assert fine_ret_int fine_at : fine.

(** Follow the binds, the matches and the calls of a definition. *)
Ltac fine_step :=
  match goal with
  | |- True => exact I
  | |- fine (Ok _) => exact I
  | |- fine Crash => exact I
  | |- fine Undef => exact I
  | |- fine (throw _ _ _) => reflexivity
  | |- fine (Throw _) => reflexivity
  | |- fine (_ ≫= _) => apply fine_bind; [|intros ? ?]
  | |- fine (_ <$> _) => apply fine_fmap
  | |- fine (match ?x with _ => _ end) => destruct x
  | |- fine (let '_ := ?x in _) => destruct x
  | H : _ |- fine _ => exact H
  | H : _ |- fine _ => apply H
  | |- fine _ => solve [auto with fine]
  end.
Ltac fine := repeat fine_step.

(** Separate the hypotheses on the children of a node. *)
Ltac split_forall :=
  repeat match goal with
  | H : Forall _ (_ :: _) |- _ => apply Forall_cons_1 in H as [? H]
  end.

(** ** The tree *)

Lemma fine_same_sizes f pos size cs :
  Forall (fun c => fine (f c)) cs -> fine (same_sizes f pos size cs).
Proof. intros H; revert size; induction H; intros size; simpl; fine. Qed.

Lemma fine_sum_sizes f size cs : Forall (fun c => fine (f c)) cs -> fine (sum_sizes f size cs).
Proof. intros H; revert size; induction H; intros size; simpl; fine. Qed.

Lemma fine_getImmediateValue_at size n i : fine (getImmediateValue_at size n i).
Proof. unfold getImmediateValue_at. fine. Qed.
#[export] Hint Resolve fine_same_sizes fine_sum_sizes fine_getImmediateValue_at : fine.

Lemma fine_getVectorSize n : fine (getVectorSize n).
Proof.
  induction n as [k p cs IH] using node_rose_ind.
  destruct k; cbn [getVectorSize]; try exact I; auto with fine.
  unfold memory_size. destruct cs as [|i [|]]; split_forall; fine.
Qed.
#[export] Hint Resolve fine_getVectorSize : fine.

Lemma fine_getImmediateValue n i : fine (getImmediateValue n i).
Proof. unfold getImmediateValue. fine. Qed.
#[export] Hint Resolve fine_getImmediateValue : fine.

Lemma fine_getVectorAddr n : fine (getVectorAddr n).
Proof.
  induction n as [k p cs IH] using node_rose_ind.
  destruct k; cbn [getVectorAddr]; try exact I; destruct cs as [|c0 cs]; split_forall;
    try exact I; try assumption; cbv zeta; fine.
Qed.
#[export] Hint Resolve fine_getVectorAddr : fine.

Lemma fine_expandAbstractNodes n : fine (expandAbstractNodes n).
Proof.
  induction n as [k p cs IH] using node_rose_ind.
  destruct k; cbn [expandAbstractNodes]; try exact I;
    try (apply fine_bind; [by apply fine_mapR|intros; exact I]);
    destruct cs as [|c0 [|c1 [|]]]; split_forall; fine.
Qed.
#[export] Hint Resolve fine_expandAbstractNodes : fine.

Lemma fine_checkVectorSize n : fine (checkVectorSize n).
Proof.
  induction n as [k p cs IH] using node_rose_ind.
  destruct k; cbn [checkVectorSize];
    try (induction IH; [exact I|simpl; fine]; fail);
    try (destruct cs as [|c0 [|c1 [|c2 [|c3 cs]]]]; split_forall; fine).
  all: induction IH as [|c cs Hc Hcs IHcs]; [exact I|]; fine.
Qed.
#[export] Hint Resolve fine_checkVectorSize : fine.

(** ** Lookup *)

Lemma fine_findInTable {V} (m : omap wstring V) name pos e1 e2 :
  arity e1 = 1%nat -> arity e2 = 2%nat -> fine (findInTable m name pos e1 e2).
Proof.
  intros H1 H2. unfold findInTable. destruct (om_find name m); [exact I|].
  destruct (_ <? _); unfold fine, throw, error_wf; simpl; congruence.
Qed.

Lemma fine_findVariable c n p : fine (findVariable c n p).
Proof. by apply fine_findInTable. Qed.
Lemma fine_findFunction c n p : fine (findFunction c n p).
Proof. by apply fine_findInTable. Qed.
Lemma fine_findConstant c n p : fine (findConstant c n p).
Proof. by apply fine_findInTable. Qed.
Lemma fine_findAnyEvent c n p : fine (findAnyEvent c n p).
Proof. by apply fine_findInTable. Qed.
Lemma fine_findSubroutine c n p : fine (findSubroutine c n p).
Proof. by apply fine_findInTable. Qed.
Lemma fine_findGlobalEvent c n p : fine (findGlobalEvent c n p).
Proof.
  unfold findGlobalEvent.
  pose proof (fine_findInTable (globalEventsMap c) n p ERROR_EVENT_NOT_DEFINED
    ERROR_EVENT_NOT_DEFINED_GUESS eq_refl eq_refl) as H.
  destruct (findInTable _ _ _ _ _); try exact H. destruct (om_find _ _); [reflexivity|exact H].
Qed.
#[export] Hint Resolve fine_findVariable fine_findFunction fine_findConstant fine_findAnyEvent
  fine_findSubroutine fine_findGlobalEvent : fine.

(** ** Type checking and optimization *)

Lemma fine_expectType pos a b : fine (expectType pos a b).
Proof. unfold expectType. fine. Qed.
Lemma fine_expectCondition n : fine (expectCondition n).
Proof. unfold expectCondition. fine. Qed.
#[export] Hint Resolve fine_expectType fine_expectCondition : fine.

Lemma fine_typeCheck fs n : (forall name pos, fine (fs name pos)) -> fine (typeCheck fs n).
Proof.
  intros Hfs. induction n as [k p cs IH] using node_rose_ind.
  destruct k; cbn [typeCheck]; try exact I;
    try (apply fine_bind; [apply fine_mapR; eapply Forall_impl; [exact IH|]; intros; by apply fine_fmap
                          |intros; exact I]).
  all: destruct cs as [|c0 [|c1 [|c2 cs]]]; split_forall; fine.
Qed.

Lemma fine_fold_binary pos op a b : fine (fold_binary pos op a b).
Proof. destruct op; simpl; fine. Qed.
Lemma fine_fold_unary pos op a : fine (fold_unary pos op a).
Proof. destruct op; simpl; fine. Qed.
#[export] Hint Resolve fine_fold_binary fine_fold_unary : fine.

Lemma fine_optimize_binary pos op l r : fine (optimize_binary pos op l r).
Proof.
  unfold optimize_binary. destruct (as_immediate l), (as_immediate r); [fine|..];
    cbv zeta; destruct (survivor _ _ _) as [[]|]; try exact I;
    destruct (absorbing _ _ _); try exact I; destruct (pot_to_shift op r) as [op' r'];
    destruct op'; try exact I; destruct (as_immediate r') as [[]|]; try exact I; reflexivity.
Qed.

Lemma fine_deMorgan n : fine (deMorganNotRemoval n).
Proof.
  induction n as [k p cs IH] using node_rose_ind. destruct k; try exact I.
  destruct op; cbn [deMorganNotRemoval invert_comparison]; try exact I;
    destruct cs as [|c0 [|c1 cs]]; split_forall; fine.
Qed.
#[export] Hint Resolve fine_optimize_binary fine_deMorgan : fine.

Lemma fine_optimize_unary pos op c : fine (optimize_unary pos op c).
Proof. unfold optimize_unary. destruct (as_immediate c); fine. Qed.

Lemma fine_optimize_array pos k s code sz nm i :
  arity code = 3%nat -> fine (optimize_array pos k s code sz nm i).
Proof.
  intros H. unfold optimize_array. destruct (as_immediate i); [|exact I].
  cbv zeta. destruct (_ <=? _); [|exact I]. unfold fine, throw, error_wf. simpl. congruence.
Qed.

Lemma fine_optimize_if pos e l c t f : fine (optimize_if pos e l c t f).
Proof.
  unfold optimize_if. destruct (_ && _); [exact I|]. destruct (as_immediate c); [fine|].
  destruct c as [[] ? [|? [|]]]; exact I.
Qed.

Lemma fine_optimize_while pos c b : fine (optimize_while pos c b).
Proof.
  unfold optimize_while. destruct (as_immediate c); [fine|]. destruct (empty_block b); [exact I|].
  destruct c as [[] ? [|? [|]]]; try exact I; destruct b; exact I.
Qed.

Lemma fine_not_null o : fine (not_null o).
Proof. apply fine_of_option. Qed.
#[export] Hint Resolve fine_optimize_unary fine_optimize_if fine_optimize_while fine_not_null : fine.

Lemma fine_optimize n : fine (optimize n).
Proof.
  induction n as [k p cs IH] using node_rose_ind.
  assert (fine (optimize_block optimize cs)) as Hb by (induction IH; simpl; fine).
  assert (fine (optimize_children optimize cs)) as Hc by (clear Hb; induction IH; simpl; fine).
  destruct k; cbn [optimize]; try exact I; try (apply fine_bind; [assumption|intros; exact I]).
  all: destruct cs as [|c0 [|c1 [|c2 cs]]]; split_forall; try exact I;
    try (apply fine_bind; [assumption|intros o _]; apply fine_bind; [apply fine_not_null|intros i _];
         apply fine_fmap; by apply fine_optimize_array).
  all: fine.
Qed.
#[export] Hint Resolve fine_optimize : fine.

(** ** The invariant of the compiler

    The counter of temporary names is an [unsigned], the variables fit in the
    memory of the target and the names of subroutines lead into their table. *)
Record compiler_ok (c : Compiler) : Prop := CompilerOk {
  ok_uid : 0 <= uid c < 4294967296;
  ok_free : 0 <= freeVariableIndex c <= variablesSize (targetDescription c);
  ok_subs : Forall (fun kv => 0 <= snd kv < Z.of_nat (List.length (subroutineTable c))) (subroutineReverseTable c)
}.

(** What every step of the compiler promises: the invariant, and that its
    target and its definitions remain. *)
Record reaches (st st' : Compiler) : Prop := Reaches {
  reaches_ok : compiler_ok st -> compiler_ok st';
  reaches_target : targetDescription st' = targetDescription st;
  reaches_common : commonDefinitions st' = commonDefinitions st
}.

#[export] Instance reaches_preorder : PreOrder reaches.
Proof.
  split; [intros st; by constructor|].
  intros a b c [H1 H2 H3] [H4 H5 H6]. constructor; [auto|congruence..].
Qed.

(** ** Triples of the monad of the compiler

    [spec L Q m]: run with at most [L] tokens, [m] does not exhaust its fuel,
    throws only well-formed errors, and on success has consumed a number [k]
    of tokens and returns a value [a] with [Q k a], in a state it reaches. *)
Definition spec {A} (L : nat) (Q : nat -> A -> Prop) (m : M A) : Prop :=
  forall st, (List.length (tokens st) <= L)%nat ->
    match m st with
    | Ok (a, st') => reaches st st' /\
                     exists k, (List.length (tokens st') + k)%nat = List.length (tokens st) /\ Q k a
    | Throw e => error_wf e
    | NoFuel => False
    | _ => True
    end.
#[global] Arguments spec {A} L Q m : simpl never.

(** Nothing is known of the value, or it is in [Q]; no token is consumed. *)
Definition any {A} (k : nat) (a : A) : Prop := k = O.
Definition still {A} (Q : A -> Prop) (k : nat) (a : A) : Prop := k = O /\ Q a.

Section Triples.
Context {A B : Type}.

Lemma spec_bind L (Q : nat -> A -> Prop) (R : nat -> B -> Prop) (m : M A) (f : A -> M B) :
  spec L Q m ->
  (forall k a, (k <= L)%nat -> Q k a -> spec (L - k) (fun j => R (k + j)%nat) (f a)) ->
  spec L R (m ≫= f).
Proof.
  intros Hm Hf st Hst. specialize (Hm st Hst). unfold mbind, M_bind.
  destruct (m st) as [[a st']|e| | |]; try done. destruct Hm as (Hr & k & Hk & HQ).
  specialize (Hf k a ltac:(lia) HQ st' ltac:(lia)).
  destruct (f a st') as [[b st'']|e| | |]; try done.
  destruct Hf as (Hr' & j & Hj & HR). split; [by etrans|].
  exists (k + j)%nat. split; [lia|done].
Qed.

(** The rule for a step that consumes no token. *)
Lemma spec_bind0 L (Q : A -> Prop) (R : nat -> B -> Prop) (m : M A) (f : A -> M B) :
  spec L (still Q) m -> (forall a, Q a -> spec L R (f a)) -> spec L R (m ≫= f).
Proof.
  intros Hm Hf. eapply spec_bind; [exact Hm|]. intros k a Hk [-> HQ].
  rewrite Nat.sub_0_r. by apply Hf.
Qed.

Lemma spec_any L (R : nat -> B -> Prop) (m : M A) (f : A -> M B) :
  spec L any m -> (forall a, spec L R (f a)) -> spec L R (m ≫= f).
Proof.
  intros Hm Hf. eapply spec_bind; [exact Hm|]. intros k a Hk Ha.
  unfold any in Ha. subst k. rewrite Nat.sub_0_r. exact (Hf a).
Qed.

Lemma spec_weaken L L' (Q Q' : nat -> A -> Prop) m :
  spec L Q m -> (L' <= L)%nat -> (forall k a, (k <= L')%nat -> Q k a -> Q' k a) -> spec L' Q' m.
Proof.
  intros Hm HL HQ st Hst. specialize (Hm st ltac:(lia)).
  destruct (m st) as [[a st']|e| | |]; try done. destruct Hm as (Hr & k & Hk & H).
  split; [done|]. exists k. split; [done|]. apply HQ; [lia|done].
Qed.

(** A step that changes neither the tokens nor what [reaches] fixes. *)
Lemma spec_now L (Q : nat -> A -> Prop) (m : M A) :
  (forall st, match m st with
              | Ok (a, st') => reaches st st' /\ tokens st' = tokens st /\ Q O a
              | Throw e => error_wf e
              | NoFuel => False
              | _ => True
              end) ->
  spec L Q m.
Proof.
  intros H st _. specialize (H st). destruct (m st) as [[a st']|e| | |]; try done.
  destruct H as (Hr & -> & HQ). split; [done|]. exists O. split; [lia|done].
Qed.

Lemma spec_ret L (Q : nat -> A -> Prop) a : Q O a -> spec L Q (mret a).
Proof. intros HQ. by apply spec_now. Qed.

Lemma spec_fail L (Q : nat -> A -> Prop) p c args :
  List.length args = arity c -> spec L Q (fail p c args).
Proof. intros Hw st _. exact Hw. Qed.

Lemma spec_crash L (Q : nat -> A -> Prop) : spec L Q (lift Crash).
Proof. intros st _. exact I. Qed.

Lemma spec_lift L (Q : A -> Prop) (r : res error A) :
  fine r -> (forall a, r = Ok a -> Q a) -> spec L (still Q) (lift r).
Proof.
  intros Hr HQ. apply spec_now. intros st. unfold lift. destruct r; try done. simpl.
  split_and!; try done. split; [done|auto].
Qed.

Lemma spec_fine L (r : res error A) : fine r -> spec L any (lift r).
Proof. intros Hr. apply spec_now. intros st. unfold lift. by destruct r. Qed.

Lemma spec_get L (f : Compiler -> A) : spec L any (get f).
Proof. by apply spec_now. Qed.
End Triples.

Lemma spec_modify L f :
  (forall c, tokens (f c) = tokens c) -> (forall c, reaches c (f c)) -> spec L any (modify f).
Proof. intros Ht Hr. apply spec_now. intros st. simpl. done. Qed.

(** A computation that leaves the compiler unchanged. *)
Definition steady {A} (m : M A) : Prop :=
  forall st, match m st with
             | Ok (_, st') => st' = st
             | Throw e => error_wf e
             | NoFuel => False
             | _ => True
             end.

Lemma steady_bind {A B} (m : M A) (f : A -> M B) :
  steady m -> (forall a, steady (f a)) -> steady (m ≫= f).
Proof.
  intros Hm Hf st. specialize (Hm st). unfold mbind, M_bind.
  destruct (m st) as [[a st']|e| | |]; try done. subst st'. exact (Hf a st).
Qed.

Lemma steady_ret {A} (a : A) : steady (mret a).
Proof. by intros st. Qed.

Lemma steady_lift {A} (r : res error A) : fine r -> steady (lift r).
Proof. intros Hr st. unfold lift. by destruct r. Qed.

Lemma steady_fail {A} p c args : List.length args = arity c -> steady (fail (A:=A) p c args).
Proof. intros H st. exact H. Qed.

Lemma steady_mapM {A B} (f : A -> M B) l : Forall (fun a => steady (f a)) l -> steady (mapM_ f l).
Proof.
  induction 1 as [|a l Ha Hl IH]; simpl; [apply steady_ret|].
  apply steady_bind; [done|]. intros b. apply steady_bind; [done|]. intros bs. apply steady_ret.
Qed.

Lemma spec_steady {A} L (m : M A) : steady m -> spec L any m.
Proof.
  intros Hm. apply spec_now. intros st. specialize (Hm st).
  destruct (m st) as [[a st']|e| | |]; try done. by subst st'.
Qed.
