(* ===== verification/ExpandSpec.v ===== *)
(** * What the expansion promises

    Temporaries are disjoint from the variables and from each other; the two
    passes end, and what they throw is well formed. *)
From Stdlib Require Import ZArith Lia List String.
From stdpp Require Import base list strings.
From S2P Require Import Prelude Errors Consts OrdMap Target Lexer LexerSpec Lookup Tree TypeCheck.
From S2P Require Import Optimize Expand Fine.

Local Open Scope Z_scope.

(** ** Temporary memory *)

(** The variables and the temporaries share the memory of the target without
    meeting. *)
Definition memory_ok (c : Compiler) : Prop :=
  0 <= freeVariableIndex c /\ 0 <= endVariableIndex c /\
  freeVariableIndex c + endVariableIndex c <= variablesSize (targetDescription c) < 2147483648.

(** A temporary is allocated at the end of the memory, below the
    temporaries in use and above the variables: the block it is given is free,
    its space is accounted for, and the allocation fails, with a well-formed
    error, exactly when that space is missing. *)
Theorem allocateTemporaryMemory_spec pos size c :
  memory_ok c -> 0 <= size < 2147483648 ->
  let top := variablesSize (targetDescription c) - endVariableIndex c in
  if freeVariableIndex c <=? top - size then
    exists c', allocateTemporaryMemory pos size c = Ok (top - size, c') /\ memory_ok c' /\
      endVariableIndex c' = endVariableIndex c + size /\ freeVariableIndex c' = freeVariableIndex c /\
      variablesSize (targetDescription c') = variablesSize (targetDescription c)
  else allocateTemporaryMemory pos size c = throw pos ERROR_NOT_ENOUGH_TEMP_SPACE [].
Proof.
  intros (Hf & He & Hs) Hz top. unfold allocateTemporaryMemory. run_M. cbn.
  assert (u32 (endVariableIndex c + size) = endVariableIndex c + size) as -> by (apply u32_id; lia).
  rewrite (u32_id (freeVariableIndex c + _)) by lia.
  destruct (Z.leb_spec (freeVariableIndex c) (top - size)) as [Hle|Hgt]; subst top.
  - destruct (Z.ltb_spec (variablesSize (targetDescription c)) (freeVariableIndex c + (endVariableIndex c + size)));
      [lia|]. rewrite (u32_id (_ - endVariableIndex c)) by lia.
    rewrite u32_id by lia. eexists. split; [reflexivity|].
    unfold memory_ok; cbn. split_and!; lia.
  - destruct (Z.ltb_spec (variablesSize (targetDescription c)) (freeVariableIndex c + (endVariableIndex c + size)));
      [done|lia].
Qed.

Definition sample_compiler : Compiler :=
  mkCompiler [] [] [] [] [] [] [] [] [] 36 0 sample_target (mkCommon [] []) 0.

Lemma allocateTemporaryMemory_spec_witness :
  exists c', allocateTemporaryMemory SourcePos_none 3 sample_compiler = Ok (617, c') /\ memory_ok c'.
Proof.
  destruct (allocateTemporaryMemory_spec SourcePos_none 3 sample_compiler) as (c' & H & Hm & _).
  - unfold memory_ok; cbn. lia.
  - lia.
  - exists c'. split; [exact H|exact Hm].
Defined.

(** ** The names of the temporaries *)

Lemma temp_name_inj a b :
  0 <= a < 4294967296 -> 0 <= b < 4294967296 -> temp_name a = temp_name b -> a = b.
Proof.
  intros Ha Hb H. unfold temp_name in H. apply app_inv_head in H.
  destruct (dec_str_digits a) as (c & s & Ea & _ & Wa); [lia|].
  destruct (dec_str_digits b) as (c' & s' & Eb & _ & Wb); [lia|].
  rewrite Ea, Eb in H. injection H as -> ->. rewrite Wa in Wb. unfold LONG_MAX in Wb. lia.
Qed.

(** The variables read by an expression. *)
Fixpoint names (n : node) : list wstring :=
  let 'Node k _ cs := n in
  let rest := mjoin (List.map names cs) in
  match k with MemoryVectorNode _ _ nm _ => nm :: rest | _ => rest end.

Lemma matchName_iff r x : matchNameInMemoryVector r x = true <-> x ∈ names r.
Proof.
  induction r as [k p cs IH] using node_rose_ind.
  assert (existsb (fun c => matchNameInMemoryVector c x) cs = true <-> x ∈ mjoin (List.map names cs)) as H.
  { induction IH as [|c cs Hc _ IHcs]; simpl; [by rewrite elem_of_nil|].
    by rewrite orb_true_iff, elem_of_app, Hc, IHcs. }
  destruct k; simpl; try exact H. rewrite elem_of_cons, <- H. case_decide; [naive_solver|].
  split; [auto|]. intros [->|]; done.
Qed.

(** ** Expressions of the parser *)

(** The trees that the expression grammar builds. *)
Inductive vexpr : node -> Prop :=
| vexpr_immediate p v : vexpr (Node (ImmediateNode v) p [])
| vexpr_tuple p cs : Forall vexpr cs -> vexpr (Node TupleVectorNode p cs)
| vexpr_memory p a s nm w cs :
    (List.length cs <= 1)%nat -> Forall vexpr cs -> vexpr (Node (MemoryVectorNode a s nm w) p cs)
| vexpr_binary p op l r : vexpr l -> vexpr r -> vexpr (Node (BinaryArithmeticNode op) p [l; r])
| vexpr_unary p op c : vexpr c -> vexpr (Node (UnaryArithmeticNode op) p [c]).

Lemma vexpr_setWrite w n : vexpr n -> vexpr (setWrite w n).
Proof. destruct 1; simpl; constructor; done. Qed.

Section Steady.
Variable ea : SourcePos -> node -> node -> M node.

Lemma steady_tuple (expand : node -> Z -> M node) cs total index :
  Forall (fun c => forall i, steady (expand c i)) cs -> steady (expand_tuple expand cs total index).
Proof.
  intros H; revert total; induction H as [|c cs Hc _ IH]; intros total; cbn [expand_tuple].
  - by apply steady_lift.
  - apply steady_bind; [apply steady_lift; auto with fine|]. intros size.
    destruct (_ <? _); [apply Hc|apply IH].
Qed.

Lemma steady_memory (expand : node -> Z -> M node) n pos a s nm w cs index :
  Forall (fun c => forall i, steady (expand c i)) cs ->
  steady (expand_memory expand n pos a s nm w cs index).
Proof.
  intros H. unfold expand_memory. apply steady_bind; [apply steady_lift; auto with fine|]. intros size.
  apply steady_bind; [apply steady_lift; auto with fine|]. intros _. cbv zeta.
  destruct H as [|c cs Hc _]; [|destruct (is_tuple c)].
  3: { apply steady_bind; [apply Hc|]. intros; apply steady_ret. }
  all: apply steady_bind; [apply steady_lift; auto with fine|]; intros addr;
    destruct (_ <=? _); [by apply steady_fail|destruct w; apply steady_ret].
Qed.

(** Expressions hold no assignment: their expansion uses no temporary. *)
Lemma steady_expand n index : vexpr n -> steady (expand_node ea n index).
Proof.
  revert index; induction n as [k p cs IH] using node_rose_ind; intros index Hn.
  assert (Forall vexpr cs) as Hcs by (inversion Hn; subst; repeat constructor; done).
  assert (Forall (fun c => forall i, steady (expand_node ea c i)) cs) as Hst.
  { rewrite Forall_forall in *. eauto. }
  inversion Hn; subst; cbn [expand_node].
  - apply steady_bind; [apply steady_lift; auto with fine|]. intros; apply steady_ret.
  - by apply steady_tuple.
  - by apply steady_memory.
  - apply steady_bind; [|intros; apply steady_ret]. apply steady_mapM.
    eapply Forall_impl; [exact Hst|]. auto.
  - apply steady_bind; [|intros; apply steady_ret]. apply steady_mapM.
    eapply Forall_impl; [exact Hst|]. auto.
Qed.

Lemma steady_for_below n (f : Z -> M node) i : (forall i, steady (f i)) -> steady (for_below n f i).
Proof.
  intros Hf; revert i; induction n as [|n IH]; intros i; cbn [for_below]; [apply steady_ret|].
  apply steady_bind; [done|]. intros a. apply steady_bind; [done|]. intros; apply steady_ret.
Qed.
End Steady.

(** The element by element expansion, with any nested expansion. *)
Definition elements (nested : SourcePos -> node -> node -> M node) (pos : SourcePos) (l r : node) : M node :=
  size ← lift (getVectorSize l);
  body ← for_below (Z.to_nat size) (fun i =>
    a ← expand_node nested l i;
    b ← expand_node nested r i;
    mret (Node AssignmentNode pos [a; b])) 0;
  mret (Node BlockNode pos body).

Lemma steady_elements nested pos l r : vexpr l -> vexpr r -> steady (elements nested pos l r).
Proof.
  intros Hl Hr. unfold elements. apply steady_bind; [apply steady_lift; auto with fine|]. intros size.
  apply steady_bind; [|intros; apply steady_ret]. apply steady_for_below. intros i.
  apply steady_bind; [by apply steady_expand|]. intros a.
  apply steady_bind; [by apply steady_expand|]. intros; apply steady_ret.
Qed.

(** The equation of [expand_assignment] for a destination in memory. *)
Lemma expand_assignment_memory allocate fuel pos a s nm w p cs r :
  let l' := Node (MemoryVectorNode a s nm true) p cs in
  expand_assignment allocate (S fuel) pos (Node (MemoryVectorNode a s nm w) p cs) r =
    (lSize ← lift (if matchNameInMemoryVector r nm then getVectorSize l' else Ok 0);
     if matchNameInMemoryVector r nm && (1 <? lSize) then
       temp ← allocate pos r;
       match children temp with
       | [tempVar; rValue] =>
           a ← expand_assignment allocate fuel pos tempVar rValue;
           b ← expand_assignment allocate fuel pos l' tempVar;
           mret (Node BlockNode pos [a; b])
       | _ => lift Crash
       end
     else elements (expand_assignment allocate fuel) pos l' r).
Proof. reflexivity. Qed.

(** A destination that is not read is assigned element by element. *)
Lemma expand_direct allocate fuel pos l r :
  vexpr l -> vexpr r ->
  (match node_kind l with MemoryVectorNode _ _ nm _ => nm ∉ names r | _ => True end) ->
  steady (expand_assignment allocate (S fuel) pos l r).
Proof.
  intros Hl Hr Hn. destruct l as [[] p cs]; try by apply steady_fail.
  rewrite expand_assignment_memory. simpl in Hn.
  assert (matchNameInMemoryVector r arrayName = false) as ->.
  { destruct (matchNameInMemoryVector r arrayName) eqn:E; [|done]. by apply matchName_iff in E. }
  cbn [andb]. apply steady_bind; [by apply steady_lift|]. intros _.
  apply steady_elements; [|done]. exact (vexpr_setWrite true _ Hl).
Qed.

(** ** Computations that end in a given state *)

Definition ends {A} (P : Compiler -> Prop) (r : res error (A * Compiler)) : Prop :=
  match r with
  | Ok (_, st') => P st'
  | Throw e => error_wf e
  | NoFuel => False
  | _ => True
  end.

Lemma ends_bind {A B} P Q (m : M A) (f : A -> M B) st :
  ends P (m st) -> (forall a st', m st = Ok (a, st') -> P st' -> ends Q (f a st')) -> ends Q ((m ≫= f) st).
Proof.
  intros Hm Hf. unfold mbind, M_bind. destruct (m st) as [[a st']|e| | |]; try done. by apply Hf.
Qed.

Lemma ends_weaken {A} (P Q : Compiler -> Prop) (r : res error (A * Compiler)) :
  ends P r -> (forall st, P st -> Q st) -> ends Q r.
Proof. destruct r as [[a st]|e| | |]; simpl; auto. Qed.

Lemma steady_ends {A} (m : M A) st : steady m -> ends (fun st' => st' = st) (m st).
Proof. intros Hm. exact (Hm st). Qed.

Lemma allocate_ends pos r st :
  ends (fun st' => uid st' = u32 (uid st + 1)) (allocateTemporaryVariable pos r st) /\
  forall t st', allocateTemporaryVariable pos r st = Ok (t, st') ->
    exists a s, t = Node AssignmentNode pos [Node (MemoryVectorNode a s (temp_name (uid st)) false) pos []; r].
Proof.
  unfold allocateTemporaryVariable, allocateTemporaryMemory. pose proof (fine_getVectorSize r) as Hf.
  run_M. destruct (getVectorSize r) as [size|e| | |]; cbn; try done.
  destruct (_ <? _); cbn; [done|]. split; [done|]. intros t st' [= <- _]. eauto.
Qed.

(** ** Chains of temporaries

    A temporary is needed when the destination is read; another one when its
    own name is read as well.  The names of temporaries differ, so the chain is
    not longer than the number of names in the source. *)
Section Chain.
Variable r : node.
Variable u0 : Z.
Hypothesis r_vexpr : vexpr r.
Hypothesis r_names : (Z.of_nat (List.length (names r)) + 2 < 4294967296).

(** The name of the [i]th temporary. *)
Definition T (i : nat) : wstring := temp_name (u32 (u0 + Z.of_nat i)).

Lemma T_inj i j : (i <= List.length (names r) + 1)%nat -> (j <= List.length (names r) + 1)%nat ->
  T i = T j -> i = j.
Proof.
  intros Hi Hj H. apply temp_name_inj in H; [|apply u32_range..]. unfold u32 in H.
  apply (f_equal (fun z => (z - u0) mod 4294967296)) in H.
  rewrite !Zminus_mod_idemp_l in H.
  replace (u0 + Z.of_nat i - u0) with (Z.of_nat i) in H by lia.
  replace (u0 + Z.of_nat j - u0) with (Z.of_nat j) in H by lia.
  rewrite !Z.mod_small in H by lia. lia.
Qed.

(** The temporaries read by the source are no more than its names. *)
Lemma chain_bound n : (forall i, (i < n)%nat -> T i ∈ names r) -> (n <= List.length (names r))%nat.
Proof.
  intros H. destruct (Nat.le_gt_cases n (List.length (names r))) as [Hle|Hgt]; [done|].
  set (k := S (List.length (names r))).
  assert (List.NoDup (List.map T (List.seq 0 k))) as Hnd.
  { apply NoDup_ListNoDup, NoDup_fmap_2_strong; [|apply NoDup_seq].
    intros i j Hi Hj. apply elem_of_seq in Hi, Hj. apply T_inj; lia. }
  apply List.NoDup_incl_length with (l' := names r) in Hnd.
  - rewrite length_map, length_seq in Hnd. lia.
  - intros x Hx. apply in_map_iff in Hx as (i & <- & Hi). apply in_seq in Hi.
    apply list_elem_of_In, H. lia.
Qed.

Lemma chain_ok fuel i a s w p tp st :
  uid st = u32 (u0 + Z.of_nat (S i)) ->
  (forall m, (m < i)%nat -> T m ∈ names r) ->
  (List.length (names r) + 2 <= fuel + i)%nat ->
  ends (fun st' => exists k, (i <= k <= List.length (names r))%nat /\ uid st' = u32 (u0 + Z.of_nat (S k)))
    (expand_assignment allocateTemporaryVariable fuel p (Node (MemoryVectorNode a s (T i) w) tp []) r st).
Proof.
  revert i a s w p tp st; induction fuel as [|fuel IH]; intros i a s w p tp st Hu Hm Hf.
  { apply chain_bound in Hm. lia. }
  pose proof (chain_bound i Hm) as Hi.
  rewrite expand_assignment_memory.
  eapply (ends_bind (fun st' => st' = st)); [apply steady_ends, steady_lift|].
  { destruct (matchNameInMemoryVector _ _); [auto with fine|exact I]. }
  intros lSize st1 _ ->. destruct (matchNameInMemoryVector r (T i)) eqn:E; cbn [andb].
  2: { eapply ends_weaken; [apply steady_ends, steady_elements; [|done]|].
       - constructor; [simpl; lia|constructor].
       - intros ? ->. exists i. auto. }
  apply matchName_iff in E. destruct (1 <? lSize).
  2: { eapply ends_weaken; [apply steady_ends, steady_elements; [|done]|].
       - constructor; [simpl; lia|constructor].
       - intros ? ->. exists i. auto. }
  assert (forall m, (m < S i)%nat -> T m ∈ names r) as Hm'.
  { intros m Hlt. destruct (decide (m = i)) as [->|]; [done|]. apply Hm. lia. }
  pose proof (chain_bound (S i) Hm') as Hi'.
  destruct (allocate_ends p r st) as [Hends Hform].
  eapply ends_bind; [exact Hends|]. intros temp st1 Ht Hu1.
  destruct (Hform _ _ Ht) as (a1 & s1 & ->). cbn [children].
  assert (temp_name (uid st) = T (S i)) as -> by (rewrite Hu; unfold T; reflexivity).
  eapply ends_bind.
  { apply (IH (S i)); [|done|lia]. rewrite Hu1, Hu, u32_add. f_equal. lia. }
  intros n1 st2 _ (k & Hk & Hu2). eapply (ends_bind (fun st' => st' = st2)).
  { destruct fuel as [|fuel]; [lia|]. apply steady_ends, expand_direct.
    - constructor; [simpl; lia|constructor].
    - constructor; [simpl; lia|constructor].
    - simpl. rewrite list_elem_of_singleton. intros HT. apply T_inj in HT; lia. }
  intros n2 st3 _ ->. exists k. split; [lia|done].
Qed.
End Chain.

(** The counter of temporary names is an [unsigned]. *)
Definition uid_ok (c : Compiler) : Prop := 0 <= uid c < 4294967296.

Lemma assignment_ends fuel pos l r st :
  vexpr l -> vexpr r -> Z.of_nat (List.length (names r)) + 2 < 4294967296 -> uid_ok st ->
  (List.length (names r) + 3 <= fuel)%nat ->
  ends uid_ok (expand_assignment allocateTemporaryVariable fuel pos l r st).
Proof.
  intros Hl Hr Hn Hu Hf. destruct fuel as [|fuel]; [lia|].
  assert (forall st', st' = st -> uid_ok st') as Hsame by (by intros ? ->).
  destruct l as [k lp cs]. destruct (decide (is_memory (Node k lp cs))) as [Hk|Hk].
  2: { eapply ends_weaken; [apply steady_ends, expand_direct; try done|done]. destruct k; try done; by destruct Hk. }
  destruct k; try (by destruct Hk). rewrite expand_assignment_memory.
  pose proof (vexpr_setWrite true _ Hl) as Hl'. simpl in Hl'.
  eapply (ends_bind (fun st' => st' = st)); [apply steady_ends, steady_lift|].
  { destruct (matchNameInMemoryVector _ _); [auto with fine|exact I]. }
  intros lSize st1 _ ->. destruct (matchNameInMemoryVector r arrayName && (1 <? lSize)) eqn:E.
  2: { eapply ends_weaken; [by apply steady_ends, steady_elements|done]. }
  apply andb_true_iff in E as [E _]. apply matchName_iff in E.
  assert (0 < List.length (names r))%nat as Hpos.
  { destruct (names r); [by apply elem_of_nil in E|simpl; lia]. }
  destruct (allocate_ends pos r st) as [Hends Hform].
  eapply ends_bind; [exact Hends|]. intros temp st1 Ht Hu1.
  destruct (Hform _ _ Ht) as (a1 & s1 & ->). cbn [children].
  assert (temp_name (uid st) = T (uid st) 0) as ->.
  { unfold T. rewrite Z.add_0_r, u32_id; done. }
  eapply ends_bind.
  { apply (chain_ok r (uid st)); [done|done|by rewrite Hu1|lia|lia]. }
  intros n1 st2 _ (k & Hk' & Hu2). assert (uid_ok st2) as Hok by (unfold uid_ok; rewrite Hu2; apply u32_range).
  assert (forall nm lp' cs' a s, vexpr (Node (MemoryVectorNode a s nm true) lp' cs') -> forall nm' a' s' b st' f,
    nm <> nm' -> ends (fun st'' => st'' = st')
      (expand_assignment allocateTemporaryVariable (S f) pos (Node (MemoryVectorNode a s nm true) lp' cs')
         (Node (MemoryVectorNode a' s' nm' b) pos []) st')) as Hdirect.
  { intros * Hv * Hne. apply steady_ends, expand_direct; [done|constructor; [simpl; lia|constructor]|].
    simpl. by rewrite list_elem_of_singleton. }
  eapply (ends_bind uid_ok).
  2: { intros n2 st3 _ H3. exact H3. }
  destruct fuel as [|[|fuel]]; [lia..|].
  destruct (decide (arrayName = T (uid st) 0)) as [->|Hne].
  2: { eapply ends_weaken; [by apply Hdirect|]. by intros ? ->. }
  rewrite expand_assignment_memory.
  eapply (ends_bind (fun st' => st' = st2)); [apply steady_ends, steady_lift|].
  { destruct (matchNameInMemoryVector _ _); [auto with fine|exact I]. }
  intros lSize' st3 _ ->. destruct (_ && _).
  2: { eapply ends_weaken; [apply steady_ends, steady_elements; [done|constructor; [simpl; lia|constructor]]|].
       by intros ? ->. }
  edestruct (allocate_ends pos) as [Hends' Hform'].
  eapply ends_bind; [exact Hends'|]. intros temp st3 Ht' Hu3.
  destruct (Hform' _ _ Ht') as (a2 & s2 & ->). cbn [children].
  assert (temp_name (uid st2) = T (uid st) (S k)) as -> by (rewrite Hu2; reflexivity).
  assert (T (uid st) 0 <> T (uid st) (S k)) as HT.
  { intros HT. apply (T_inj r) in HT; [lia|done|lia|lia]. }
  assert (uid_ok st3) by (unfold uid_ok; rewrite Hu3; apply u32_range).
  eapply (ends_bind (fun st' => st' = st3)).
  - apply steady_ends, expand_direct; [constructor; [simpl; lia|constructor]..|].
    simpl. rewrite list_elem_of_singleton. auto.
  - intros n2 st4 _ ->. eapply (ends_bind (fun st' => st' = st3)); [by apply Hdirect|].
    by intros n3 st5 _ ->.
Qed.

(** ** Trees of statements *)

(** The kinds whose expansion is that of their children. *)
Definition plain_kind (k : kind) : bool :=
  match k with
  | AssignmentNode | ArithmeticAssignmentNode _ | UnaryArithmeticAssignmentNode _
  | TupleVectorNode | MemoryVectorNode _ _ _ _ | ImmediateNode _ => false
  | _ => true
  end.

(** The sources of the assignments of a tree read at most [N] variables.  Before
    the first pass ([abstract]) there are compound assignments too. *)
Inductive tree (N : nat) (abstract : bool) : node -> Prop :=
| tree_expr n : vexpr n -> tree N abstract n
| tree_assign p l r :
    vexpr l -> vexpr r -> (List.length (names r) <= N)%nat -> tree N abstract (Node AssignmentNode p [l; r])
| tree_arith p op l r :
    abstract = true -> vexpr l -> vexpr r -> (List.length (names l) + List.length (names r) <= N)%nat ->
    tree N abstract (Node (ArithmeticAssignmentNode op) p [l; r])
| tree_unary p op m :
    abstract = true -> vexpr m -> (List.length (names m) <= N)%nat ->
    tree N abstract (Node (UnaryArithmeticAssignmentNode op) p [m])
| tree_node k p cs :
    plain_kind k = true -> Forall (tree N abstract) cs -> tree N abstract (Node k p cs).

Lemma vexpr_children k p cs : vexpr (Node k p cs) -> Forall vexpr cs.
Proof. inversion 1; subst; repeat constructor; done. Qed.

(** The first pass keeps expressions. *)
Lemma abstract_vexpr n : vexpr n -> expandAbstractNodes n = Ok n.
Proof.
  induction n as [k p cs IH] using node_rose_ind. intros Hn.
  pose proof (vexpr_children _ _ _ Hn) as Hcs.
  assert (mapR expandAbstractNodes cs = Ok cs) as Hm.
  { clear Hn. induction IH as [|c cs Hc _ IHcs]; [done|]. inversion Hcs; subst. simpl.
    rewrite Hc by done. simpl. by rewrite IHcs. }
  inversion Hn; subst; cbn [expandAbstractNodes]; try done; by rewrite Hm.
Qed.

(** The first pass removes the compound assignments. *)
Lemma abstract_tree N n n' : tree N true n -> expandAbstractNodes n = Ok n' -> tree N false n'.
Proof.
  revert n'; induction n as [k p cs IH] using node_rose_ind. intros n' Hn.
  inversion Hn as [? He|? l r Hl Hr HN|? op l r _ Hl Hr HN|? op m _ Hm HN|? ? ? Hk Hcs]; subst.
  - rewrite abstract_vexpr by done. intros [= <-]. by constructor.
  - cbn [expandAbstractNodes mapR]. rewrite !abstract_vexpr by done. intros [= <-]. by constructor.
  - cbn [expandAbstractNodes]. rewrite !abstract_vexpr by done. intros [= <-].
    constructor; [done|by constructor|]. simpl. rewrite app_nil_r, length_app. done.
  - cbn [expandAbstractNodes]. rewrite abstract_vexpr by done. intros H. inv_ok.
    assert (Forall vexpr (repeat (Node (ImmediateNode 1) p []) (Z.to_nat x))) as Hrep.
    { apply Forall_forall. intros c Hc. apply list_elem_of_In, repeat_spec in Hc as ->. constructor. }
    constructor; [done|by repeat constructor|].
    assert (mjoin (List.map names (repeat (Node (ImmediateNode 1) p []) (Z.to_nat x))) = []) as Hnil.
    { generalize (Z.to_nat x) as n. induction n as [|n IHn]; [done|]. simpl. exact IHn. }
    cbn [names List.map mjoin list_join]. rewrite Hnil. cbn. rewrite app_nil_r. exact HN.
  - assert (expandAbstractNodes (Node k p cs) = (cs' ← mapR expandAbstractNodes cs; Ok (Node k p cs'))) as ->
      by (by destruct k).
    intros H. inv_ok. rename x into cs', H into Hmap. constructor; [done|]. clear Hn Hk.
    apply mapR_Forall2 in Hmap. induction Hmap as [|c c' cs cs' Hc _ IHmap]; [done|].
    apply Forall_cons_1 in Hcs as [], IH as []. constructor; auto.
Qed.

Lemma names_size n : (List.length (names n) <= node_size n)%nat.
Proof.
  induction n as [k p cs IH] using node_rose_ind.
  assert (List.length (mjoin (List.map names cs)) <= list_sum (List.map node_size cs))%nat as H.
  { induction IH as [|c cs Hc _ IHcs]; simpl; [lia|]. rewrite length_app. lia. }
  destruct k; simpl; lia.
Qed.

Lemma mapM_ends {A B} P (f : A -> M B) l st :
  (forall st, P st -> Forall (fun a => ends P (f a st)) l) -> P st -> ends P (mapM_ f l st).
Proof.
  revert st; induction l as [|a l IH]; intros st Hf Hst; simpl; [exact Hst|].
  pose proof (Hf st Hst) as Ha. apply Forall_cons_1 in Ha as [Ha _].
  eapply ends_bind; [exact Ha|]. intros b st1 _ H1. eapply ends_bind.
  - apply IH; [|done]. intros st2 H2. specialize (Hf st2 H2). by apply Forall_cons_1 in Hf as [].
  - intros bs st2 _ H2. exact H2.
Qed.

(** The second pass ends on the trees of the first one. *)
Lemma vectorial_ends N n index st :
  Z.of_nat N + 2 < 4294967296 -> tree N false n -> uid_ok st ->
  ends uid_ok (expandVectorialNodes allocateTemporaryVariable n index st).
Proof.
  intros HN. revert st. unfold expandVectorialNodes.
  induction n as [k p cs IH] using node_rose_ind. intros st Hn Hst.
  inversion Hn as [? He|? l r Hl Hr Hle|? ? ? ? Hab|? ? ? Hab|? ? ? Hk Hcs]; subst; try done.
  - eapply ends_weaken; [by apply steady_ends, steady_expand|]. by intros ? ->.
  - cbn [expand_node]. pose proof (names_size r). apply assignment_ends; try done; lia.
  - set (ea := fun pos l r => expand_assignment allocateTemporaryVariable (node_size r + 3) pos l r) in *.
    assert (expand_node ea (Node k p cs) index =
              (cs' ← mapM_ (fun c => expand_node ea c index) cs; mret (Node k p cs'))) as -> by (by destruct k).
    eapply (ends_bind uid_ok); [|by intros cs' st' _ H'].
    apply mapM_ends; [|done]. intros st' Hst'. clear Hn Hk.
    induction IH as [|c cs Hc _ IHcs]; [done|]. apply Forall_cons_1 in Hcs as []. constructor; auto.
Qed.
