(* ===== verification/Parser.v ===== *)
(** * The parser

    compiler/parser.cpp and the node constructors of compiler/tree-build.cpp.
    One definition per function of the recursive-descent parser, in the monad
    of the compiler.  Two cycles of the grammar are tied by fuel: that of
    expressions ([expr_callee]) and that of statements ([stmt_callee]); the
    loops take their fuel from the number of tokens left, since each turn
    consumes one at least. *)
From Stdlib Require Import ZArith Lia List String.
From stdpp Require Import base list strings.
From S2P Require Import Prelude Errors Consts Tree TypeCheck Optimize OrdMap Target Lexer Lookup.
From S2P Require Import Expand.

Local Open Scope Z_scope.

(** ** The token queue *)

(** [tokens.front()]; undefined on an empty queue. *)
Definition front : M Token := fun st =>
  match tokens st with t :: _ => Ok (t, st) | [] => Crash end.

Definition pop_front : M unit := fun st =>
  match tokens st with _ :: ts => Ok (tt, set_tokens ts st) | [] => Crash end.

(** An assignment to [tokens.front()]. *)
Definition update_front (f : Token -> Token) : M unit := fun st =>
  match tokens st with t :: ts => Ok (tt, set_tokens (f t :: ts) st) | [] => Crash end.

Definition is_type (t : Token) (ty : TokenType) : bool := bool_decide (type t = ty).

(** [tokens.size() > i && tokens[i] == ty]. *)
Definition token_is (i : nat) (ty : TokenType) : M bool := fun st =>
  Ok (match tokens st !! i with Some t => is_type t ty | None => false end, st).

Definition is_one_of (types : list TokenType) (t : Token) : bool := existsb (is_type t) types.

Definition fuel_left : M nat := get (fun c => List.length (tokens c)).

(** [std::setw(w)], to the right or to the left. *)
Definition pad_left (w : nat) (s : wstring) : wstring := repeat 32 (w - List.length s) ++ s.
Definition pad_right (w : nat) (s : wstring) : wstring := s ++ repeat 32 (w - List.length s).

Definition SourcePos_toWString (p : SourcePos) : wstring :=
  if valid p then pad_left 4 (dec_str (u32 (row p + 1))) ++ ws ":" ++ pad_right 4 (dec_str (column p))
  else [].

Definition Token_toWString (t : Token) : wstring :=
  SourcePos_toWString (pos t) ++ ws " " ++ token_typeName (type t) ++
  match type t with
  | TOKEN_INT_LITERAL => ws " : " ++ dec_str (iValue t)
  | TOKEN_STRING_LITERAL => ws " : " ++ sValue t
  | _ => []
  end.

(** ** Expectations *)

Definition expect (ty : TokenType) : M unit :=
  t ← front;
  if is_type t ty then mret tt
  else fail (pos t) ERROR_EXPECTING [token_typeName ty; token_typeName (type t)].

(** The functions that check a literal against a range. *)
Definition expect_literal (lo hi : Z) (code : ErrorCode) : M Z :=
  _ ← expect TOKEN_INT_LITERAL;
  t ← front;
  if (iValue t <? lo) || (hi <? iValue t) then fail (pos t) code [dec_str (iValue t)]
  else mret (iValue t).

Definition expectUInt12Literal : M Z := expect_literal 0 4095 ERROR_UINT12_OUT_OF_RANGE.
Definition expectUInt16Literal : M Z := expect_literal 0 65535 ERROR_UINT16_OUT_OF_RANGE.
Definition expectPositiveInt16Literal : M Z := expect_literal 0 32767 ERROR_PINT16_OUT_OF_RANGE.
Definition expectAbsoluteInt16Literal (negative : bool) : M Z :=
  expect_literal 0 (if negative then 32768 else 32767) ERROR_INT16_OUT_OF_RANGE.

(** A constant of the [constantsMap] within a range. *)
Definition expect_constant (lo hi : Z) (code : ErrorCode) : M Z :=
  _ ← expect TOKEN_STRING_LITERAL;
  t ← front;
  c ← get id;
  value ← lift (findConstant c (sValue t) (pos t));
  if (value <? lo) || (hi <? value) then fail (pos t) code [sValue t; dec_str value]
  else mret value.

Definition expectPositiveConstant : M Z := expect_constant 0 32767 ERROR_PCONSTANT_OUT_OF_RANGE.
Definition expectConstant : M Z := expect_constant (-32768) 32767 ERROR_CONSTANT_OUT_OF_RANGE.

Definition expectPositiveInt16LiteralOrConstant : M Z :=
  t ← front;
  if is_type t TOKEN_INT_LITERAL then expectPositiveInt16Literal else expectPositiveConstant.

Definition negate_iValue (t : Token) : Token := mkToken (type t) (sValue t) (- iValue t) (pos t).

Definition expectInt16Literal : M Z :=
  t ← front;
  if is_type t TOKEN_OP_NEG then
    _ ← pop_front; v ← expectAbsoluteInt16Literal true; mret (- v)
  else if iValue t <? 0 then
    _ ← update_front negate_iValue; v ← expectAbsoluteInt16Literal true; mret (- v)
  else expectAbsoluteInt16Literal false.

Definition expectInt16LiteralOrConstant : M Z :=
  t ← front;
  if is_type t TOKEN_OP_NEG || is_type t TOKEN_INT_LITERAL then expectInt16Literal else expectConstant.

Definition expectGlobalEventId : M Z :=
  _ ← expect TOKEN_STRING_LITERAL;
  t ← front; c ← get id;
  lift (findGlobalEvent c (sValue t) (pos t)).

Definition expectAnyEventId : M Z :=
  _ ← expect TOKEN_STRING_LITERAL;
  t ← front; c ← get id;
  lift (findAnyEvent c (sValue t) (pos t)).

Definition eventName (c : Compiler) (eventId : Z) : wstring :=
  let events := events (commonDefinitions c) in
  if eventId <? Z.of_nat (List.length events) then
    match events !! Z.to_nat eventId with Some e => nv_name e | None => ws "unknown" end
  else
    let localId := s32 (ASEBA_EVENT_LOCAL_EVENTS_START - eventId) in
    let locals := localEvents (targetDescription c) in
    if (0 <=? localId) && (localId <? Z.of_nat (List.length locals)) then
      match locals !! Z.to_nat localId with Some e => event_name e | None => ws "unknown" end
    else ws "unknown".

(** [expectedTypes] of [expectOneOf]. *)
Fixpoint join_types (types : list TokenType) : wstring :=
  match types with
  | [] => []
  | [t] => token_typeName t
  | t :: types' => token_typeName t ++ ws ", " ++ join_types types'
  end.

Definition expectOneOf (types : list TokenType) : M unit :=
  t ← front;
  if is_one_of types t then mret tt
  else fail (pos t) ERROR_EXPECTING_ONE_OF [join_types types; token_typeName (type t)].

Definition internalCompilerError {A} : M A := t ← front; fail (pos t) ERROR_INTERNAL [].

(** ** Node constructors (tree-build.cpp) *)

Definition binary (p : SourcePos) (op : AsebaBinaryOperator) (l r : node) : node :=
  Node (BinaryArithmeticNode op) p [l; r].
Definition unary (p : SourcePos) (op : AsebaUnaryOperator) (c : node) : node :=
  Node (UnaryArithmeticNode op) p [c].
Definition immediate (p : SourcePos) (v : Z) : node := Node (ImmediateNode v) p [].
Definition tuple (p : SourcePos) (values : list Z) : node :=
  Node TupleVectorNode p (List.map (immediate p) values).

(** [static_cast<AsebaBinaryOperator>((op - first) + base)]. *)
Definition op_from (first : TokenType) (base : AsebaBinaryOperator) (op : TokenType) : res error AsebaBinaryOperator :=
  of_option (binop_of_code (token_code op - token_code first + binop_code base)).

Definition fromComparison := op_from TOKEN_OP_EQUAL ASEBA_OP_EQUAL.
Definition fromShiftExpression := op_from TOKEN_OP_SHIFT_LEFT ASEBA_OP_SHIFT_LEFT.
Definition fromAddExpression := op_from TOKEN_OP_ADD ASEBA_OP_ADD.
Definition fromMultExpression := op_from TOKEN_OP_MULT ASEBA_OP_MULT.

Definition operatorMap : list AsebaBinaryOperator :=
  [ASEBA_OP_ADD; ASEBA_OP_SUB; ASEBA_OP_MULT; ASEBA_OP_DIV; ASEBA_OP_MOD;
   ASEBA_OP_SHIFT_LEFT; ASEBA_OP_SHIFT_RIGHT; ASEBA_OP_BIT_OR; ASEBA_OP_BIT_XOR; ASEBA_OP_BIT_AND].

Definition getBinaryOperator (token : TokenType) : res error AsebaBinaryOperator :=
  let i := token_code token - token_code TOKEN_OP_ADD_EQUAL in
  if i <? 0 then Crash else at_ operatorMap (Z.to_nat i).

(** ** Expressions *)

(** The functions of the cycles of the expression grammar. *)
Inductive expr_callee : Type := UnaryExpression | NestedTuple.

Section Expressions.
(** The recursive calls, with one unit of fuel less. *)
Variable rec : expr_callee -> M node.

(** The loop [while(IS_ONE_OF(types))] of the layers of binary operators. *)
Fixpoint binary_while (n : nat) (types : list TokenType) (operand : M node)
    (op_of : TokenType -> res error AsebaBinaryOperator) (acc : node) : M node :=
  t ← front;
  if is_one_of types t then
    match n with
    | O => lift NoFuel
    | S n' =>
        _ ← pop_front;
        subExpression ← operand;
        op ← lift (op_of (type t));
        binary_while n' types operand op_of (binary (pos t) op acc subExpression)
    end
  else mret acc.

Definition binary_layer (types : list TokenType) (operand : M node)
    (op_of : TokenType -> res error AsebaBinaryOperator) : M node :=
  acc ← operand;
  n ← fuel_left;
  binary_while n types operand op_of acc.

Definition parseMultExpression : M node :=
  binary_layer [TOKEN_OP_MULT; TOKEN_OP_DIV; TOKEN_OP_MOD] (rec UnaryExpression) fromMultExpression.
Definition parseAddExpression : M node :=
  binary_layer [TOKEN_OP_ADD; TOKEN_OP_NEG] parseMultExpression fromAddExpression.
Definition parseShiftExpression : M node :=
  binary_layer [TOKEN_OP_SHIFT_LEFT; TOKEN_OP_SHIFT_RIGHT] parseAddExpression fromShiftExpression.
Definition parseBinaryAndExpression : M node :=
  binary_layer [TOKEN_OP_BIT_AND] parseShiftExpression (fun _ => Ok ASEBA_OP_BIT_AND).
Definition parseBinaryXorExpression : M node :=
  binary_layer [TOKEN_OP_BIT_XOR] parseBinaryAndExpression (fun _ => Ok ASEBA_OP_BIT_XOR).
Definition parseBinaryOrExpression : M node :=
  binary_layer [TOKEN_OP_BIT_OR] parseBinaryXorExpression (fun _ => Ok ASEBA_OP_BIT_OR).

Definition conditionTypes : list TokenType :=
  [TOKEN_OP_EQUAL; TOKEN_OP_NOT_EQUAL; TOKEN_OP_BIGGER; TOKEN_OP_BIGGER_EQUAL;
   TOKEN_OP_SMALLER; TOKEN_OP_SMALLER_EQUAL].

Definition parseCondition : M node :=
  binary_layer conditionTypes parseBinaryOrExpression fromComparison.

(** Eat all leading [not]. *)
Fixpoint eat_not (n : nat) (odd : bool) : M bool :=
  t ← front;
  if is_type t TOKEN_OP_NOT then
    match n with
    | O => lift NoFuel
    | S n' => _ ← pop_front; eat_not n' (negb odd)
    end
  else mret odd.

Definition parseNot : M node :=
  t ← front;
  n ← fuel_left;
  odd ← eat_not n false;
  c ← parseCondition;
  mret (if odd : bool then unary (pos t) ASEBA_UNARY_OP_NOT c else c).

Definition parseAnd : M node :=
  binary_layer [TOKEN_OP_AND] parseNot (fun _ => Ok ASEBA_OP_AND).
Definition parseOr : M node :=
  binary_layer [TOKEN_OP_OR] parseAnd (fun _ => Ok ASEBA_OP_OR).

(** The [do { ... } while(true)] of [parseTupleVector]. *)
Fixpoint tuple_items (n : nat) : M (list node) :=
  match n with
  | O => lift NoFuel
  | S n' =>
      t ← front;
      item ← (if is_type t TOKEN_BRACKET_OPEN then rec NestedTuple else parseBinaryOrExpression);
      t' ← front;
      if is_type t' TOKEN_COMMA then
        _ ← pop_front; rest ← tuple_items n'; mret (item :: rest)
      else mret [item]
  end.

(** [parseTupleVector(false)]. *)
Definition parseTupleVector : M node :=
  _ ← expect TOKEN_BRACKET_OPEN;
  _ ← pop_front;
  t ← front;
  n ← fuel_left;
  items ← tuple_items (S n);
  _ ← expect TOKEN_BRACKET_CLOSE;
  _ ← pop_front;
  mret (Node TupleVectorNode (pos t) items).

(** [parseTupleVector(true)]: the old style [1,2,3]; [None] is the null pointer. *)
Definition parseTupleVector_compat : M (option node) :=
  b1 ← token_is 1 TOKEN_COMMA;
  b2 ← token_is 0 TOKEN_OP_NEG;
  b3 ← token_is 2 TOKEN_COMMA;
  if (b1 : bool) || ((b2 : bool) && (b3 : bool)) then
    t ← front;
    n ← fuel_left;
    items ← tuple_items (S n);
    mret (Some (Node TupleVectorNode (pos t) items))
  else mret None.

(** A [try] block whose body leaves the compiler unchanged. *)
Definition try_ {A} (m : M A) : M (option A) := fun st =>
  match m st with
  | Ok (a, st') => Ok (Some a, st')
  | Throw _ => Ok (None, st)
  | Crash => Crash
  | Undef => Undef
  | NoFuel => NoFuel
  end.

(** [expectConstantExpression]: reduce [fake = tree] with the passes of the
    compiler, called with a null compiler. *)
Definition expectConstantExpression (p : SourcePos) (tree : node) : M Z :=
  let tempTree1 := Node AssignmentNode p [Node (MemoryVectorNode 0 1 (ws "fake") false) p []; tree] in
  expanded ← lift (expandAbstractNodes tempTree1);
  tempTree2 ← expandVectorialNodes (fun _ _ => lift Crash) expanded 0;
  optimized ← lift (optimize tempTree2);
  tempTree2' ← lift (of_option optimized);
  match children tempTree2' with
  | Node AssignmentNode _ [_; value] :: _ =>
      match as_immediate value with
      | Some v => mret v
      | None => fail p ERROR_NOT_CONST_EXPR []
      end
  | _ => fail p ERROR_NOT_CONST_EXPR []
  end.

(** [tryParsingConstantExpression]: the constant, or the tree when it does
    not reduce to one. *)
Definition tryParsingConstantExpression (p : SourcePos) : M (Z + node) :=
  tree ← parseBinaryOrExpression;
  r ← try_ (expectConstantExpression p tree);
  mret (match r with Some v => inl v | None => inr tree end).

(** The index of a variable, after its opening bracket. *)
Definition parseIndex (p : SourcePos) : M node :=
  startIndex ← tryParsingConstantExpression p;
  index ← match startIndex with
          | inr tree => mret tree
          | inl start =>
              t ← front;
              if is_type t TOKEN_COLON then
                _ ← pop_front;
                endIndex ← tryParsingConstantExpression (pos t);
                match endIndex with
                | inr _ => fail (pos t) ERROR_INDEX_EXPECTING_CONSTANT []
                | inl end_ =>
                    t' ← front;
                    if end_ <? start then fail (pos t') ERROR_INDEX_WRONG_END []
                    else mret (tuple p [start; end_])
                end
              else mret (tuple p [start])
          end;
  _ ← expect TOKEN_BRACKET_CLOSE;
  _ ← pop_front;
  mret index.

Definition parseVariable : M node :=
  _ ← expect TOKEN_STRING_LITERAL;
  t ← front;
  c ← get id;
  '(addr, size) ← lift (findVariable c (sValue t) (pos t));
  _ ← pop_front;
  t' ← front;
  index ← (if is_type t' TOKEN_BRACKET_OPEN then
             _ ← pop_front; i ← parseIndex (pos t'); mret [i]
           else mret []);
  mret (Node (MemoryVectorNode addr size (sValue t) false) (pos t) index).

Definition parseConstantAndVariable : M node :=
  _ ← expect TOKEN_STRING_LITERAL;
  t ← front;
  c ← get id;
  if constantExists c (sValue t) then
    v ← expectConstant; _ ← pop_front; mret (tuple (pos t) [v])
  else parseVariable.

Definition acceptableTypes : list TokenType :=
  [TOKEN_PAR_OPEN; TOKEN_BRACKET_OPEN; TOKEN_OP_NEG; TOKEN_OP_BIT_NOT;
   TOKEN_STR_abs; TOKEN_STRING_LITERAL; TOKEN_INT_LITERAL].

(** [tokens[0].iValue *= -1; tokens[0].sValue = L"-" + tokens[0].sValue]. *)
Definition negate_token (t : Token) : Token :=
  mkToken (type t) (ws "-" ++ sValue t) (- iValue t) (pos t).

Definition parseUnaryExpression : M node :=
  _ ← expectOneOf acceptableTypes;
  t ← front;
  match type t with
  | TOKEN_PAR_OPEN =>
      _ ← pop_front; e ← parseOr; _ ← expect TOKEN_PAR_CLOSE; _ ← pop_front; mret e
  | TOKEN_BRACKET_OPEN => parseTupleVector
  | TOKEN_OP_NEG =>
      literal ← token_is 1 TOKEN_INT_LITERAL;
      if literal : bool then
        _ ← pop_front; _ ← update_front negate_token; rec UnaryExpression
      else
        _ ← pop_front; e ← rec UnaryExpression; mret (unary (pos t) ASEBA_UNARY_OP_SUB e)
  | TOKEN_OP_BIT_NOT =>
      _ ← pop_front; e ← rec UnaryExpression; mret (unary (pos t) ASEBA_UNARY_OP_BIT_NOT e)
  | TOKEN_STR_abs =>
      _ ← pop_front; e ← rec UnaryExpression; mret (unary (pos t) ASEBA_UNARY_OP_ABS e)
  | TOKEN_INT_LITERAL =>
      v ← expectInt16Literal; _ ← pop_front; mret (tuple (pos t) [v])
  | TOKEN_STRING_LITERAL => parseConstantAndVariable
  | _ => internalCompilerError
  end.
End Expressions.

(** The knot of the expressions. *)
Fixpoint expr_rec (fuel : nat) (k : expr_callee) : M node :=
  match fuel with
  | O => lift NoFuel
  | S fuel' =>
      match k with
      | UnaryExpression => parseUnaryExpression (expr_rec fuel')
      | NestedTuple => parseTupleVector (expr_rec fuel')
      end
  end.

(** A grammar element of expressions, with enough fuel for the tokens left. *)
Definition with_fuel {A} (parse : (expr_callee -> M node) -> M A) : M A :=
  n ← fuel_left; parse (expr_rec (S n)).

(** ** Variable and constant definitions *)

Definition parseVariableDefSize : M Z :=
  t ← front;
  if is_type t TOKEN_BRACKET_OPEN then
    _ ← pop_front;
    t' ← front;
    result ← (if is_type t' TOKEN_BRACKET_CLOSE then mret E_NOVAL
              else
                tree ← with_fuel parseBinaryOrExpression;
                v ← expectConstantExpression (pos t) tree;
                if v <? 0 then fail (pos t) ERROR_SIZE_IS_NEGATIVE [dec_str v]
                else if v =? 0 then fail (pos t) ERROR_SIZE_IS_NULL []
                else _ ← expect TOKEN_BRACKET_CLOSE; mret v);
    _ ← pop_front;
    mret result
  else mret 1.

Definition parseConstDef : M unit :=
  _ ← pop_front;
  t ← front;
  if negb (is_type t TOKEN_STRING_LITERAL) then
    fail (pos t) ERROR_EXPECTING_IDENTIFIER [Token_toWString t]
  else
    _ ← pop_front;
    c ← get id;
    if constantExists c (sValue t) then fail (pos t) ERROR_CONST_ALREADY_DEFINED [sValue t]
    else
      t' ← front;
      if negb (is_type t' TOKEN_ASSIGN) then
        fail (pos t') ERROR_EXPECTING_ASSIGNMENT [Token_toWString t']
      else
        _ ← pop_front;
        tree ← with_fuel parseBinaryOrExpression;
        constValue ← expectConstantExpression (pos t) tree;
        modify (fun c => set_constants (om_set (sValue t) constValue (constantsMap c)) c).

(** [parseVarDefInit]: the assignment and the size of the variable, inferred
    when it was not given; [None] without an initialization. *)
Definition parseVarDefInit (varPos : SourcePos) (varAddr varSize : Z) (varName : wstring)
  : M (option (node * Z)) :=
  t ← front;
  if is_type t TOKEN_ASSIGN then
    _ ← pop_front;
    old ← with_fuel parseTupleVector_compat;
    rValue ← match old with
             | Some r => mret r
             | None => with_fuel parseBinaryOrExpression
             end;
    size ← (if varSize =? E_NOVAL then lift (getVectorSize rValue) else mret varSize);
    mret (Some (Node AssignmentNode (pos t)
                  [Node (MemoryVectorNode varAddr size varName false) varPos []; rValue], size))
  else mret None.

Definition parseVarDef : M (option node) :=
  _ ← pop_front;
  t ← front;
  if negb (is_type t TOKEN_STRING_LITERAL) then
    fail (pos t) ERROR_EXPECTING_IDENTIFIER [Token_toWString t]
  else
    let varName := sValue t in
    let varPos := pos t in
    varAddr ← get freeVariableIndex;
    _ ← pop_front;
    varSize ← parseVariableDefSize;
    c ← get id;
    match om_find varName (variablesMap c) with
    | Some _ => fail varPos ERROR_VAR_ALREADY_DEFINED [varName]
    | None =>
        if constantExists c varName then fail varPos ERROR_VAR_CONST_COLLISION [varName]
        else
          init ← parseVarDefInit varPos varAddr varSize varName;
          let size := match init with Some (_, s) => s | None => varSize end in
          if (size =? 0) || (size =? E_NOVAL) then fail varPos ERROR_UNDEFINED_SIZE [varName]
          else
            _ ← modify (fun c => set_variables (om_set varName (varAddr, size) (variablesMap c))
                                   (u32 (freeVariableIndex c + size)) c);
            c' ← get id;
            if variablesSize (targetDescription c') <? freeVariableIndex c' then
              fail varPos ERROR_NOT_ENOUGH_SPACE []
            else mret (fst <$> init)
    end.

(** ** Simple statements *)

Definition parseReturn : M node :=
  t ← front; _ ← pop_front; mret (Node ReturnNode (pos t) []).

Definition compoundBinaryAssignment : list TokenType :=
  [TOKEN_OP_ADD_EQUAL; TOKEN_OP_NEG_EQUAL; TOKEN_OP_MULT_EQUAL; TOKEN_OP_DIV_EQUAL;
   TOKEN_OP_MOD_EQUAL; TOKEN_OP_BIT_AND_EQUAL; TOKEN_OP_BIT_OR_EQUAL; TOKEN_OP_BIT_XOR_EQUAL;
   TOKEN_OP_SHIFT_LEFT_EQUAL; TOKEN_OP_SHIFT_RIGHT_EQUAL].

Definition parseAssignment : M node :=
  _ ← expect TOKEN_STRING_LITERAL;
  lValue ← with_fuel parseBinaryOrExpression;
  op ← front;
  if is_type op TOKEN_ASSIGN then
    _ ← pop_front;
    rValue ← with_fuel parseBinaryOrExpression;
    mret (Node AssignmentNode (pos op) [lValue; rValue])
  else if is_type op TOKEN_OP_PLUS_PLUS then
    _ ← pop_front; mret (Node (UnaryArithmeticAssignmentNode ASEBA_OP_ADD) (pos op) [lValue])
  else if is_type op TOKEN_OP_MINUS_MINUS then
    _ ← pop_front; mret (Node (UnaryArithmeticAssignmentNode ASEBA_OP_SUB) (pos op) [lValue])
  else if is_one_of compoundBinaryAssignment op then
    _ ← pop_front;
    rValue ← with_fuel parseBinaryOrExpression;
    o ← lift (getBinaryOperator (type op));
    mret (Node (ArithmeticAssignmentNode o) (pos op) [lValue; rValue])
  else fail (pos op) ERROR_EXPECTING_ASSIGNMENT [Token_toWString op].

Definition parseOnEvent : M node :=
  t ← front;
  _ ← pop_front;
  eventId ← expectAnyEventId;
  c ← get id;
  t' ← front;
  match om_find eventId (implementedEvents c) with
  | Some _ => fail (pos t') ERROR_EVENT_ALREADY_IMPL [eventName c eventId]
  | None =>
      _ ← modify (fun c => set_implemented (om_insert eventId tt (implementedEvents c)) c);
      _ ← pop_front;
      mret (Node (EventDeclNode eventId) (pos t) [])
  end.

(** The argument of [emit]: the temporary assignment if there is one, the
    address and the size. *)
Definition emit_argument (p : SourcePos) (preNode : node) : M (list node * Z * Z) :=
  needs_temp ← (if is_memory preNode then
                  addr ← lift (getVectorAddr preNode); mret (addr =? E_NOVAL)
                else mret true);
  if needs_temp : bool then
    temp ← allocateTemporaryVariable p preNode;
    addr ← lift (getVectorAddr temp);
    size ← lift (getVectorSize temp);
    mret ([temp], addr, size)
  else
    addr ← lift (getVectorAddr preNode);
    size ← lift (getVectorSize preNode);
    mret ([], addr, size).

Definition parseEmit (shorterArgsAllowed : bool) : M node :=
  t ← front;
  _ ← pop_front;
  eventId ← expectGlobalEventId;
  _ ← pop_front;
  c ← get id;
  event ← lift (at_ (events (commonDefinitions c)) (Z.to_nat eventId));
  let eventSize := u32 (nv_value event) in
  if 0 <? eventSize then
    preNode ← with_fuel parseBinaryOrExpression;
    '(cs, addr, size) ← emit_argument (pos t) preNode;
    if (shorterArgsAllowed : bool) && (eventSize <? size) then
      fail (pos t) ERROR_EVENT_ARG_TOO_BIG [nv_name event; dec_str eventSize; dec_str size]
    else if negb shorterArgsAllowed && negb (size =? eventSize) then
      fail (pos t) ERROR_EVENT_WRONG_ARG_SIZE [nv_name event; dec_str eventSize; dec_str size]
    else mret (Node (EmitNode eventId addr size) (pos t) cs)
  else mret (Node (EmitNode eventId 0 0) (pos t) []).

Definition parseSubDecl : M node :=
  t ← front;
  _ ← pop_front;
  _ ← expect TOKEN_STRING_LITERAL;
  t' ← front;
  let name := sValue t' in
  c ← get id;
  match om_find name (subroutineReverseTable c) with
  | Some _ => fail (pos t') ERROR_SUBROUTINE_ALREADY_DEF [name]
  | None =>
      let subroutineId := Z.of_nat (List.length (subroutineTable c)) in
      _ ← modify (fun c => set_subroutines (subroutineTable c ++ [mkSub name 0 (row (pos t))])
                             (om_set name subroutineId (subroutineReverseTable c)) c);
      _ ← pop_front;
      mret (Node (SubDeclNode subroutineId) (pos t) [])
  end.

Definition parseCallSub : M node :=
  t ← front;
  _ ← pop_front;
  _ ← expect TOKEN_STRING_LITERAL;
  t' ← front;
  _ ← pop_front;
  mret (Node (CallSubNode (sValue t') E_NOVAL) (pos t) []).

(** ** Calls of native functions *)

(** The node of one argument, its size, before the size checks. *)
Definition call_argument (p : SourcePos) : M (node * SourcePos * Z) :=
  t ← front;
  let varPos := pos t in
  preNode ← with_fuel parseBinaryOrExpression;
  varAddr ← lift (getVectorAddr preNode);
  varSize ← lift (getVectorSize preNode);
  match preNode with
  | Node (MemoryVectorNode arrayAddr arraySize arrayName _) mpos cs =>
      if varAddr =? E_NOVAL then
        tempAddr ← allocateTemporaryMemory varPos 1;
        match cs with
        | [index] =>
            if is_tuple index then lift Crash  (* the assertions of LoadNativeArgNode *)
            else mret (Node (LoadNativeArgNode tempAddr arrayAddr arraySize arrayName) mpos [index], varPos, varSize)
        | _ => lift Crash
        end
      else mret (immediate varPos (s32 varAddr), varPos, varSize)
  | _ =>
      temp ← allocateTemporaryVariable p preNode;
      addr ← lift (getVectorAddr temp);
      mret (Node BlockNode varPos [temp; immediate varPos (s32 addr)], varPos, varSize)
  end.

(** The check of the size of argument [i] against its parameter: the template
    sizes and the [templateArgs] afterwards. *)
Definition check_argument (funcName : wstring) (i : Z) (parameter : NativeFunctionParameter)
    (varPos : SourcePos) (varSize : Z) (templates : list Z) (args : list Z) : M (list Z * list Z) :=
  let wrong code expected :=
    fail varPos code [dec_str i; param_name parameter; funcName; dec_str varSize; dec_str expected] in
  let size := param_size parameter in
  if 0 <? size then
    if varSize =? size then mret (templates, args) else wrong ERROR_FUNCTION_WRONG_ARG_SIZE size
  else if size <? 0 then
    let templateIndex := Z.to_nat (- size - 1) in
    old ← lift (at_ templates templateIndex);
    if old <? 0 then mret (<[templateIndex := s32 varSize]> templates, args)
    else if u32 old =? varSize then mret (templates, args)
    else wrong ERROR_FUNCTION_WRONG_ARG_SIZE_TEMPLATE old
  else mret (templates, args ++ [varSize]).

(** The loop over the parameters. *)
Fixpoint call_arguments (p : SourcePos) (funcName : wstring) (total : Z) (i : Z)
    (params : list NativeFunctionParameter) (templates args : list Z) (nodes : list node)
  : M (list node * list Z * list Z) :=
  match params with
  | [] => mret (nodes, templates, args)
  | parameter :: params' =>
      t ← front;
      if is_type t TOKEN_PAR_CLOSE then
        fail (pos t) ERROR_FUNCTION_NO_ENOUGH_ARG [funcName; dec_str total; dec_str i]
      else
        '(n, varPos, varSize) ← call_argument p;
        '(templates', args') ← check_argument funcName i parameter varPos varSize templates args;
        t' ← front;
        _ ← match params' with
            | [] =>
                if is_type t' TOKEN_COMMA then
                  fail (pos t') ERROR_FUNCTION_TOO_MANY_ARG [funcName; dec_str total]
                else expect TOKEN_PAR_CLOSE
            | _ :: _ =>
                if is_type t' TOKEN_PAR_CLOSE then
                  fail (pos t') ERROR_FUNCTION_NO_ENOUGH_ARG [funcName; dec_str total; dec_str (i + 1)]
                else expect TOKEN_COMMA
            end;
        _ ← pop_front;
        call_arguments p funcName total (i + 1) params' templates' args' (nodes ++ [n])
  end.

Definition parseFunctionCall : M node :=
  t ← front;
  _ ← pop_front;
  _ ← expect TOKEN_STRING_LITERAL;
  t1 ← front;
  let funcName := sValue t1 in
  c ← get id;
  funcId ← lift (findFunction c funcName (pos t));
  function ← lift (at_ (nativeFunctions (targetDescription c)) (Z.to_nat funcId));
  _ ← pop_front;
  _ ← expect TOKEN_PAR_OPEN;
  _ ← pop_front;
  let params := parameters function in
  match params with
  | [] =>
      t2 ← front;
      if negb (is_type t2 TOKEN_PAR_CLOSE) then fail (pos t2) ERROR_FUNCTION_HAS_NO_ARG [funcName]
      else _ ← pop_front; mret (Node (CallNode funcId []) (pos t) [])
  | _ :: _ =>
      let minTemplateId := foldl (fun m p => Z.min (param_size p) m) 0 params in
      '(nodes, templates, args) ←
        call_arguments (pos t) funcName (Z.of_nat (List.length params)) 0 params
          (repeat (-1) (Z.to_nat (- minTemplateId))) [] [];
      mret (Node (CallNode funcId (args ++ List.filter (fun z => 0 <=? z) templates)) (pos t) nodes)
  end.

(** ** Block statements *)

Inductive stmt_callee : Type := BlockStatement | IfStatement.

Section Statements.
Variable rec : stmt_callee -> M node.
(** What [endLine] holds when [parseIfWhen] returns without setting it. *)
Variable uninitialized : Z.

(** [while(!stop(tokens.front())) push_back(parseBlockStatement())]. *)
Fixpoint statements_until (n : nat) (stop : Token -> bool) : M (list node) :=
  t ← front;
  if stop t then mret []
  else match n with
  | O => lift NoFuel
  | S n' => s ← rec BlockStatement; rest ← statements_until n' stop; mret (s :: rest)
  end.

Definition block_until (stop : Token -> bool) : M (list node) :=
  n ← fuel_left; statements_until n stop.

Definition at_end (t : Token) : bool := is_type t TOKEN_STR_end.

Definition elseEndTypes : list TokenType := [TOKEN_STR_else; TOKEN_STR_elseif; TOKEN_STR_end].

Definition parseIfWhen (edgeSensitive : bool) : M node :=
  t ← front;
  _ ← pop_front;
  condition ← with_fuel parseOr;
  _ ← expect (if edgeSensitive then TOKEN_STR_do else TOKEN_STR_then);
  _ ← pop_front;
  t1 ← front;
  trueBody ← block_until (is_one_of elseEndTypes);
  let trueBlock := Node BlockNode (pos t1) trueBody in
  let finish cs :=
    t2 ← front;
    _ ← expect TOKEN_STR_end;
    _ ← pop_front;
    mret (Node (IfWhenNode edgeSensitive (row (pos t2))) (pos t) cs) in
  if edgeSensitive then finish [condition; trueBlock]
  else
    t3 ← front;
    falseBlock ← (if is_type t3 TOKEN_STR_else then
                    _ ← pop_front;
                    t4 ← front;
                    falseBody ← block_until at_end;
                    mret [Node BlockNode (pos t4) falseBody]
                  else mret []);
    t5 ← front;
    if is_type t5 TOKEN_STR_elseif then
      nested ← rec IfStatement;
      mret (Node (IfWhenNode edgeSensitive uninitialized) (pos t)
              ([condition; trueBlock] ++ falseBlock ++ [nested]))
    else finish ([condition; trueBlock] ++ falseBlock).

Definition parseFor : M node :=
  t ← front;
  let whilePos := pos t in
  _ ← pop_front;
  variable ← with_fuel parseVariable;
  let varPos := sourcePos variable in
  _ ← expect TOKEN_STR_in;
  _ ← pop_front;
  rangeStartIndex ← expectInt16LiteralOrConstant;
  t1 ← front;
  _ ← pop_front;
  _ ← expect TOKEN_COLON;
  _ ← pop_front;
  rangeEndIndex ← expectInt16LiteralOrConstant;
  t2 ← front;
  _ ← pop_front;
  t3 ← front;
  step ← (if is_type t3 TOKEN_STR_step then
            _ ← pop_front;
            s ← expectInt16LiteralOrConstant;
            t4 ← front;
            if s =? 0 then fail (pos t4) ERROR_FOR_NULL_STEPS [] else _ ← pop_front; mret s
          else mret 1);
  _ ← (if 0 <? step then
         if rangeEndIndex <? rangeStartIndex then fail (pos t1) ERROR_FOR_START_HIGHER_THAN_END []
         else if rangeEndIndex =? 32767 then fail (pos t2) ERROR_FOR_INVALID_INC_END_INDEX []
         else mret tt
       else
         if rangeStartIndex <? rangeEndIndex then fail (pos t1) ERROR_FOR_START_LOWER_THAN_END []
         else if rangeEndIndex =? -32768 then fail (pos t2) ERROR_FOR_INVALID_DEC_END_INDEX []
         else mret tt);
  _ ← expect TOKEN_STR_do;
  _ ← pop_front;
  let init := Node AssignmentNode (pos t1) [variable; tuple (pos t1) [rangeStartIndex]] in
  if rangeStartIndex =? rangeEndIndex then
    body ← block_until at_end;
    _ ← pop_front;
    mret (Node BlockNode whilePos (init :: body))
  else
    let comparison := binary whilePos
      (if rangeStartIndex <=? rangeEndIndex then ASEBA_OP_SMALLER_EQUAL_THAN else ASEBA_OP_BIGGER_EQUAL_THAN)
      variable (tuple (pos t2) [rangeEndIndex]) in
    t5 ← front;
    body ← block_until at_end;
    let increment := Node AssignmentNode varPos
      [variable; binary varPos ASEBA_OP_ADD variable (tuple varPos [step])] in
    _ ← pop_front;
    mret (Node BlockNode whilePos
            [init; Node WhileNode whilePos [comparison; Node BlockNode (pos t5) (body ++ [increment])]]).

Definition parseWhile : M node :=
  t ← front;
  _ ← pop_front;
  condition ← with_fuel parseOr;
  _ ← expect TOKEN_STR_do;
  _ ← pop_front;
  t1 ← front;
  body ← block_until at_end;
  _ ← pop_front;
  mret (Node WhileNode (pos t) [condition; Node BlockNode (pos t1) body]).

Definition parseBlockStatement : M node :=
  t ← front;
  match type t with
  | TOKEN_STR_if => parseIfWhen false
  | TOKEN_STR_when => parseIfWhen true
  | TOKEN_STR_for => parseFor
  | TOKEN_STR_while => parseWhile
  | TOKEN_STR_emit => parseEmit false
  | TOKEN_STR_hidden_emit => parseEmit true
  | TOKEN_STR_call => parseFunctionCall
  | TOKEN_STR_callsub => parseCallSub
  | TOKEN_STR_return => parseReturn
  | _ => parseAssignment
  end.
End Statements.

(** The knot of the statements. *)
Fixpoint stmt_rec (uninitialized : Z) (fuel : nat) (k : stmt_callee) : M node :=
  match fuel with
  | O => lift NoFuel
  | S fuel' =>
      match k with
      | BlockStatement => parseBlockStatement (stmt_rec uninitialized fuel') uninitialized
      | IfStatement => parseIfWhen (stmt_rec uninitialized fuel') uninitialized false
      end
  end.

Definition parseStatement (uninitialized : Z) : M node :=
  _ ← freeTemporaryMemory;
  t ← front;
  match type t with
  | TOKEN_STR_var => fail (pos t) ERROR_MISPLACED_VARDEF []
  | TOKEN_STR_onevent => parseOnEvent
  | TOKEN_STR_sub => parseSubDecl
  | _ => n ← fuel_left; stmt_rec uninitialized (S n) BlockStatement
  end.

(** The three loops of [parseProgram]. *)
Fixpoint const_defs (n : nat) : M unit :=
  t ← front;
  if is_type t TOKEN_STR_const then
    match n with
    | O => lift NoFuel
    | S n' => _ ← parseConstDef; const_defs n'
    end
  else mret tt.

Fixpoint var_defs (n : nat) : M (list node) :=
  t ← front;
  if is_type t TOKEN_STR_var then
    match n with
    | O => lift NoFuel
    | S n' =>
        child ← parseVarDef;
        rest ← var_defs n';
        mret (match child with Some c => c :: rest | None => rest end)
    end
  else mret [].

Fixpoint program_statements (uninitialized : Z) (n : nat) : M (list node) :=
  t ← front;
  if is_type t TOKEN_END_OF_STREAM then mret []
  else match n with
  | O => lift NoFuel
  | S n' =>
      child ← parseStatement uninitialized;
      rest ← program_statements uninitialized n';
      mret (child :: rest)
  end.

Definition parseProgram (uninitialized : Z) : M node :=
  t ← front;
  n ← fuel_left;
  _ ← const_defs n;
  vars ← var_defs n;
  body ← program_statements uninitialized n;
  mret (Node ProgramNode (pos t) (vars ++ body)).
