(* ===== verification/ParserSpec.v ===== *)
(** * The parser terminates

    Every function of the parser, with the fuel its callers give it, ends; what
    it throws is well formed, and the trees it builds are those of [tree]: the
    expressions have the shape [vexpr] and read no more variables than they
    have tokens. *)
From Stdlib Require Import ZArith Lia List String.
From stdpp Require Import base list strings.
From S2P Require Import Prelude Errors Consts OrdMap Target Lexer LexerSpec Lookup Tree TypeCheck.
From S2P Require Import Optimize Expand Fine ExpandSpec Parser.

Local Open Scope Z_scope.

(** ** The primitive steps *)

Definition some_of {A} (k : nat) (a : A) : Prop := True.

Lemma spec_front L : spec L any front.
Proof. apply spec_now. intros st. unfold front. destruct (tokens st) eqn:E; [done|]. done. Qed.

Lemma reaches_tokens ts st : reaches st (set_tokens ts st).
Proof. split; [|done..]. by intros [? ? ?]. Qed.

Lemma spec_pop L : spec L (fun k _ => k = 1%nat) pop_front.
Proof.
  intros st _. unfold pop_front. destruct (tokens st) as [|t ts] eqn:E; [done|].
  split; [apply reaches_tokens|]. exists 1%nat. simpl. split; [lia|done].
Qed.

Lemma spec_update_front L f : spec L any (update_front f).
Proof.
  intros st _. unfold update_front. destruct (tokens st) as [|t ts] eqn:E; [done|].
  split; [apply reaches_tokens|]. exists O. simpl. split; [lia|done].
Qed.

Lemma spec_token_is L i ty : spec L any (token_is i ty).
Proof. by apply spec_now. Qed.

Lemma spec_fuel {A} L (R : nat -> A -> Prop) (f : nat -> M A) :
  (forall n, (n <= L)%nat -> spec n R (f n)) -> spec L R (fuel_left ≫= f).
Proof. intros H st Hst. unfold fuel_left. run_M. apply (H _ Hst st). lia. Qed.

(** The rules by name, for the tactic below. *)
Create HintDb steps.
#[export] Hint Resolve spec_front spec_update_front spec_token_is spec_get : steps.

(** One step of a triple: a bind whose first computation consumes nothing, a
    [pop_front], a conditional or a return. *)
Ltac nat_goal := cbv beta in *; unfold any, still, some_of in *; try (simpl in *; lia).
Ltac step :=
  match goal with
  | |- spec _ _ (pop_front ≫= _) =>
      eapply spec_bind; [apply spec_pop|intros ? ? ? ->]
  | |- spec _ _ (fuel_left ≫= _) => apply spec_fuel; intros ? ?
  | |- spec _ _ (lift Crash) => apply spec_crash
  | |- spec _ _ (fail _ _ _) => apply spec_fail; reflexivity
  | |- spec _ _ (mret _) => apply spec_ret
  | |- spec _ _ (lift ?r ≫= _) =>
      apply spec_any; [apply spec_fine; solve [fine]|intros ?]
  | |- spec _ _ (_ ≫= _) => apply spec_any; [solve [eauto with steps]|intros ?]
  | |- spec _ _ (if ?b then _ else _) => destruct b eqn:?
  | |- spec _ _ (let '(_, _) := ?p in _) => destruct p
  end.
Ltac steps := repeat step.

Lemma spec_expect L ty : spec L any (expect ty).
Proof. unfold expect. steps. done. Qed.
Lemma spec_expectOneOf L tys : spec L any (expectOneOf tys).
Proof. unfold expectOneOf. steps. done. Qed.
Lemma spec_internal {A} L (Q : nat -> A -> Prop) : spec L Q internalCompilerError.
Proof. unfold internalCompilerError. steps. Qed.
#[export] Hint Resolve spec_expect spec_expectOneOf spec_internal : steps.

Lemma spec_expect_literal L lo hi c : arity c = 1%nat -> spec L any (expect_literal lo hi c).
Proof. intros Hc. unfold expect_literal. steps; [by apply spec_fail|done]. Qed.
Lemma spec_expect_constant L lo hi c : arity c = 2%nat -> spec L any (expect_constant lo hi c).
Proof. intros Hc. unfold expect_constant. steps; [by apply spec_fail|done]. Qed.

Lemma spec_expectInt16Literal L : spec L some_of expectInt16Literal.
Proof.
  unfold expectInt16Literal, expectAbsoluteInt16Literal. steps.
  - eapply spec_any; [by apply spec_expect_literal|]. intros v. by apply spec_ret.
  - eapply spec_any; [by apply spec_expect_literal|]. intros v. by apply spec_ret.
  - eapply spec_weaken; [by apply spec_expect_literal|done|done].
Qed.

Lemma spec_expectConstant L : spec L any expectConstant.
Proof. by apply spec_expect_constant. Qed.

Lemma spec_expectInt16LiteralOrConstant L : spec L some_of expectInt16LiteralOrConstant.
Proof.
  unfold expectInt16LiteralOrConstant. steps; [apply spec_expectInt16Literal|].
  eapply spec_weaken; [apply spec_expectConstant|done|done].
Qed.

Lemma spec_expectAnyEventId L : spec L any expectAnyEventId.
Proof.
  unfold expectAnyEventId. steps. apply spec_fine. auto with fine.
Qed.
Lemma spec_expectGlobalEventId L : spec L any expectGlobalEventId.
Proof.
  unfold expectGlobalEventId. steps. apply spec_fine. auto with fine.
Qed.
#[export] Hint Resolve spec_expectConstant spec_expectAnyEventId spec_expectGlobalEventId : steps.

(** ** Expressions *)

(** An expression, from at least one token and from one per variable. *)
Definition expr_in (k : nat) (n : node) : Prop :=
  (1 <= k)%nat /\ vexpr n /\ (List.length (names n) <= k)%nat.

(** The same for the elements of a tuple. *)
Definition exprs_in (k : nat) (l : list node) : Prop :=
  (1 <= k)%nat /\ Forall vexpr l /\ (List.length (mjoin (List.map names l)) <= k)%nat.

Lemma fine_op_from first base op : fine (op_from first base op).
Proof. unfold op_from. auto with fine. Qed.
#[export] Hint Resolve fine_op_from : fine.

Lemma vexpr_tuple_of p vs : vexpr (tuple p vs).
Proof. constructor. induction vs; simpl; repeat constructor; done. Qed.
Lemma names_tuple p vs : names (tuple p vs) = [].
Proof. simpl. induction vs; [done|]. simpl. done. Qed.

Section Expressions.
Variable rec : expr_callee -> M node.
Variable L : nat.
Hypothesis rec_ok : forall k, spec L expr_in (rec k).

Lemma binary_while_ok types operand op_of n L' acc :
  (forall ty, fine (op_of ty)) -> (L' <= n)%nat -> (n <= L)%nat -> spec L expr_in operand -> vexpr acc ->
  spec L' (fun k e => vexpr e /\ (List.length (names e) <= List.length (names acc) + k)%nat)
    (binary_while n types operand op_of acc).
Proof.
  intros Hop. revert L' acc; induction n as [|n IH]; intros L' acc Hn HL Ho Hacc; cbn [binary_while].
  - intros st Hst. unfold front. run_M. destruct (tokens st); [exact I|simpl in Hst; lia].
  - steps; [|split; [done|lia]].
    eapply spec_bind; [eapply spec_weaken; [exact Ho|lia|intros ? ? _ Hx; exact Hx]|].
    intros k e Hk (H1 & He & Hn'). eapply spec_any; [by apply spec_fine|]. intros op.
    eapply spec_weaken; [apply (IH (L' - 1 - k)%nat)|lia|]; try lia; try done.
    + by constructor.
    + intros j e' Hj [Hv Hle]. split; [done|]. simpl in Hle. rewrite app_nil_r, length_app in Hle. lia.
Qed.

Lemma binary_layer_ok types operand op_of :
  (forall ty, fine (op_of ty)) -> spec L expr_in operand -> spec L expr_in (binary_layer types operand op_of).
Proof.
  intros Hop Ho. unfold binary_layer. eapply spec_bind; [exact Ho|].
  intros k e Hk (H1 & He & Hn). apply spec_fuel. intros n Hle.
  eapply spec_weaken; [apply (binary_while_ok types operand op_of n n)|lia|]; try done; try lia.
  intros j e' Hj [Hv Hle']. split_and!; [lia|done|lia].
Qed.

Lemma parseBinaryOr_ok : spec L expr_in (parseBinaryOrExpression rec).
Proof. repeat (apply binary_layer_ok; [intros; first [exact I|apply fine_op_from]|]). apply rec_ok. Qed.
Lemma parseCondition_ok : spec L expr_in (parseCondition rec).
Proof. apply binary_layer_ok; [intros; apply fine_op_from|]. apply parseBinaryOr_ok. Qed.

Lemma eat_not_ok n L' odd : (L' <= n)%nat -> spec L' some_of (eat_not n odd).
Proof.
  revert L' odd; induction n as [|n IH]; intros L' odd Hn; cbn [eat_not].
  - intros st Hst. unfold front. run_M. destruct (tokens st); [exact I|simpl in Hst; lia].
  - steps; [|done]. eapply spec_weaken; [apply (IH (L' - 1)%nat)|lia|done]. lia.
Qed.

Lemma parseNot_ok : spec L expr_in (parseNot rec).
Proof.
  unfold parseNot. steps. eapply spec_bind; [by apply eat_not_ok|]. intros k odd Hk _.
  eapply spec_bind; [eapply spec_weaken; [apply parseCondition_ok|lia|intros ? ? _ Hx; exact Hx]|].
  intros j c Hj (H1 & Hc & Hn). apply spec_ret. cbv beta.
  destruct odd; (split_and!; [lia|try constructor; done|]); simpl; rewrite ?app_nil_r; lia.
Qed.

Lemma parseOr_ok : spec L expr_in (parseOr rec).
Proof.
  apply binary_layer_ok; [intros; exact I|]. apply binary_layer_ok; [intros; exact I|]. apply parseNot_ok.
Qed.

Lemma tuple_items_ok n L' : (L' < n)%nat -> (L' <= L)%nat -> spec L' exprs_in (tuple_items rec n).
Proof.
  revert L'; induction n as [|n IH]; intros L' Hn HL; [lia|]. cbn [tuple_items]. steps.
  eapply spec_bind.
  { eapply spec_weaken with (L := L) (Q := expr_in); [|done|intros ? ? _ Hx; exact Hx].
    destruct (is_type _ _); [apply rec_ok|apply parseBinaryOr_ok]. }
  intros k e Hk (H1 & He & Hle). steps.
  - eapply spec_bind; [apply IH; lia|]. intros j es Hj (H1' & Hes & Hle'). apply spec_ret. cbv beta.
    split_and!; [lia|by constructor|]. simpl. rewrite length_app. lia.
  - cbv beta. split_and!; [lia|by repeat constructor|]. simpl. rewrite app_nil_r. lia.
Qed.

Lemma parseTupleVector_ok : spec (S L) expr_in (parseTupleVector rec).
Proof.
  unfold parseTupleVector. steps.
  eapply spec_bind; [apply tuple_items_ok; lia|]. intros k es Hk (H1 & Hes & Hle). steps.
  cbv beta. split_and!; [lia|by constructor|simpl in *; lia].
Qed.

Lemma parseTupleVector_compat_ok :
  spec L (fun k o => match o with Some n => expr_in k n | None => k = O end) (parseTupleVector_compat rec).
Proof.
  unfold parseTupleVector_compat. steps; [|done].
  eapply spec_bind; [apply tuple_items_ok; lia|]. intros k es Hk (H1 & Hes & Hle). steps.
  cbv beta. split_and!; [lia|by constructor|simpl in *; lia].
Qed.
End Expressions.

(** ** Constant expressions and variables *)

Lemma spec_try {A} L (Q : nat -> A -> Prop) (m : M A) :
  spec L Q m -> spec L (fun k o => match o with Some a => Q k a | None => k = O end) (try_ m).
Proof.
  intros Hm st Hst. specialize (Hm st Hst). unfold try_.
  destruct (m st) as [[a st']|e| | |]; try done. split; [done|]. exists O. split; [lia|done].
Qed.

(** Without a compiler no temporary can be allocated. *)
Lemma steady_null fuel p l r :
  vexpr l -> vexpr r -> steady (expand_assignment (fun _ _ => lift Crash) (S fuel) p l r).
Proof.
  intros Hl Hr. destruct l as [[] lp cs]; try by apply steady_fail.
  rewrite expand_assignment_memory. apply steady_bind; [apply steady_lift|].
  { destruct (matchNameInMemoryVector _ _); [auto with fine|exact I]. }
  intros lSize. destruct (_ && _).
  - intros st. exact I.
  - apply steady_elements; [|done]. exact (vexpr_setWrite true _ Hl).
Qed.

Lemma expectConstantExpression_ok L p tree : vexpr tree -> spec L any (expectConstantExpression p tree).
Proof.
  intros Ht. apply spec_steady. unfold expectConstantExpression.
  set (lhs := Node (MemoryVectorNode 0 1 (ws "fake") false) p []).
  assert (vexpr lhs) as Hl by (constructor; [simpl; lia|constructor]).
  assert (expandAbstractNodes (Node AssignmentNode p [lhs; tree]) = Ok (Node AssignmentNode p [lhs; tree])) as ->.
  { cbn [expandAbstractNodes mapR]. by rewrite !abstract_vexpr. }
  change (steady (expandVectorialNodes (fun _ _ => lift Crash) (Node AssignmentNode p [lhs; tree]) 0 ≫= fun t2 =>
    lift (optimize t2) ≫= fun o => lift (of_option o) ≫= fun t3 =>
    match children t3 with
    | Node AssignmentNode _ [_; value] :: _ =>
        match as_immediate value with Some v => mret v | None => fail p ERROR_NOT_CONST_EXPR [] end
    | _ => fail p ERROR_NOT_CONST_EXPR []
    end)).
  apply steady_bind.
  { unfold expandVectorialNodes. cbn [expand_node]. rewrite Nat.add_comm. by apply steady_null. }
  intros t2. apply steady_bind; [apply steady_lift; auto with fine|]. intros o.
  apply steady_bind; [apply steady_lift; auto with fine|]. intros t3.
  destruct (children t3) as [|[[] ? [|? [|v [|]]]] ?]; try by apply steady_fail.
  destruct (as_immediate v); [apply steady_ret|by apply steady_fail].
Qed.

(** The rest of a computation, from fewer tokens. *)
Ltac sub H := eapply spec_weaken; [apply H|lia|intros ? ? _ Hx; exact Hx].

Section Variables.
Variable rec : expr_callee -> M node.
Variable L : nat.
Hypothesis rec_ok : forall k, spec L expr_in (rec k).

Lemma tryParsing_ok p :
  spec L (fun k r => (1 <= k)%nat /\
    match r with inl _ => True | inr t => vexpr t /\ (List.length (names t) <= k)%nat end)
    (tryParsingConstantExpression rec p).
Proof.
  unfold tryParsingConstantExpression. eapply spec_bind; [by apply parseBinaryOr_ok|].
  intros k t Hk (H1 & Ht & Hn). eapply spec_bind; [by apply spec_try, expectConstantExpression_ok|].
  intros j o Hj Ho. apply spec_ret. destruct o as [v|]; (split; [lia|]); [done|]. split; [done|lia].
Qed.

Lemma parseIndex_ok p :
  spec L (fun k n => vexpr n /\ (List.length (names n) <= k)%nat) (parseIndex rec p).
Proof.
  unfold parseIndex. eapply spec_bind; [apply tryParsing_ok|].
  intros k r Hk (H1 & Hr).
  eapply (spec_bind _ (fun j n => vexpr n /\ (List.length (names n) <= k + j)%nat)).
  - destruct r as [start|t]; [|apply spec_ret; rewrite Nat.add_0_r; exact Hr]. steps.
    2: split; [apply vexpr_tuple_of|rewrite names_tuple; simpl; lia].
    eapply spec_bind; [sub tryParsing_ok|]. intros j e Hj (_ & He). destruct e; steps.
    split; [apply vexpr_tuple_of|rewrite names_tuple; simpl; lia].
  - intros j n Hj (Hn & Hle). steps. split; [done|]. lia.
Qed.

Lemma parseVariable_ok : spec (S L) expr_in (parseVariable rec).
Proof.
  unfold parseVariable. steps. destruct a0 as [addr size]. steps.
  eapply (spec_bind _ (fun k l => (List.length l <= 1)%nat /\ Forall vexpr l /\
                          (List.length (mjoin (List.map names l)) <= k)%nat)).
  - destruct (is_type _ _); steps; [|split_and!; [simpl; lia|constructor|simpl; lia]].
    eapply spec_bind; [sub parseIndex_ok|]. intros k n Hk (Hn & Hle). steps.
    split_and!; [simpl; lia|by repeat constructor|]. simpl. rewrite app_nil_r. lia.
  - intros k l Hk (Hl & Hv & Hn). apply spec_ret. cbv beta.
    split_and!; [lia|by constructor|]. simpl in *. lia.
Qed.

Lemma parseConstantAndVariable_ok : spec (S L) expr_in (parseConstantAndVariable rec).
Proof.
  unfold parseConstantAndVariable. steps; [|apply parseVariable_ok].
  cbv beta. split_and!; [lia|apply vexpr_tuple_of|rewrite names_tuple; simpl; lia].
Qed.

Lemma parseUnaryExpression_ok : spec (S L) expr_in (parseUnaryExpression rec).
Proof.
  unfold parseUnaryExpression. steps.
  assert (spec (S L - 1) expr_in (rec UnaryExpression)) as Hu by (sub rec_ok).
  assert (forall p op, spec (S L - 1) (fun j => expr_in (1 + j)%nat)
            (e ← rec UnaryExpression; mret (unary p op e))) as Hop.
  { intros p op. eapply spec_bind; [exact Hu|]. intros k e Hk (H1 & He & Hn). steps.
    cbv beta. split_and!; [lia|by constructor|simpl; rewrite app_nil_r; lia]. }
  destruct (type a0); try apply spec_internal.
  all: try (by apply parseTupleVector_ok).
  all: try (apply parseConstantAndVariable_ok).
  all: try (steps; apply Hop).
  - eapply spec_bind; [apply spec_expectInt16Literal|]. intros k v Hk _. steps.
    cbv beta. split_and!; [lia|apply vexpr_tuple_of|rewrite names_tuple; simpl; lia].
  - steps. eapply spec_bind; [sub (parseOr_ok rec L rec_ok)|]. intros k e Hk (H1 & He & Hn). steps.
    cbv beta. split_and!; [lia|done|lia].
  - steps; [|apply Hop]. eapply spec_weaken; [exact Hu|lia|].
    intros k e _ (H1 & He & Hn). split_and!; [lia|done|lia].
Qed.
End Variables.

(** The fuel of [with_fuel] is enough. *)
Lemma expr_rec_ok L k : spec L expr_in (expr_rec (S L) k).
Proof.
  revert k; induction L as [|L IH]; intros k.
  - intros st Hst. assert (tokens st = []) as E by (destruct (tokens st); [done|simpl in Hst; lia]).
    destruct k; cbn [expr_rec]; unfold parseUnaryExpression, parseTupleVector, expect, expectOneOf, front;
      run_M; rewrite E; exact I.
  - destruct k; cbn [expr_rec]; [by apply parseUnaryExpression_ok|by apply parseTupleVector_ok].
Qed.

Lemma spec_with_fuel {A} L (Q : nat -> A -> Prop) parse :
  (forall n, (forall k, spec n expr_in (expr_rec (S n) k)) -> spec n Q (parse (expr_rec (S n)))) ->
  spec L Q (with_fuel parse).
Proof. intros H. unfold with_fuel. apply spec_fuel. intros n _. apply H. intros; apply expr_rec_ok. Qed.

Lemma with_Or L : spec L expr_in (with_fuel parseOr).
Proof. apply spec_with_fuel. intros n Hn. by apply parseOr_ok. Qed.
Lemma with_BinaryOr L : spec L expr_in (with_fuel parseBinaryOrExpression).
Proof. apply spec_with_fuel. intros n Hn. by apply parseBinaryOr_ok. Qed.
Lemma with_Variable L : spec L expr_in (with_fuel parseVariable).
Proof. apply spec_with_fuel. intros n Hn. eapply spec_weaken; [by apply parseVariable_ok|lia|auto]. Qed.

(** ** Updates of the compiler *)

Lemma reaches_set_end e c : reaches c (set_end e c).
Proof. split; [|done..]. by intros [? ? ?]. Qed.
Lemma reaches_set_constants m c : reaches c (set_constants m c).
Proof. split; [|done..]. by intros [? ? ?]. Qed.
Lemma reaches_set_implemented m c : reaches c (set_implemented m c).
Proof. split; [|done..]. by intros [? ? ?]. Qed.
Lemma reaches_set_uid u c : reaches c (set_uid (u32 u) c).
Proof. split; [|done..]. intros [? ? ?]; split; try done. apply u32_range. Qed.

(** A new subroutine at the end of the table. *)
Lemma reaches_set_subroutines name s c :
  reaches c (set_subroutines (subroutineTable c ++ [s])
               (om_set name (Z.of_nat (List.length (subroutineTable c))) (subroutineReverseTable c)) c).
Proof.
  split; [|done..]. intros [? ? Hs]; split; try done. simpl. rewrite length_app. simpl.
  apply om_set_Forall; [simpl; lia|]. eapply Forall_impl; [exact Hs|]. simpl. lia.
Qed.

Lemma spec_free L : spec L any freeTemporaryMemory.
Proof. apply spec_modify; [done|]. intros; apply reaches_set_end. Qed.
#[export] Hint Resolve spec_free : steps.

Lemma spec_allocateMemory L p size : spec L any (allocateTemporaryMemory p size).
Proof.
  unfold allocateTemporaryMemory. steps. eapply spec_any.
  { apply spec_modify; [done|intros; apply reaches_set_end]. }
  intros _. steps. done.
Qed.
#[export] Hint Resolve spec_allocateMemory : steps.

Lemma spec_allocateVariable L p r :
  spec L (still (fun t => exists a s nm, t = Node AssignmentNode p [Node (MemoryVectorNode a s nm false) p []; r]))
    (allocateTemporaryVariable p r).
Proof.
  unfold allocateTemporaryVariable. steps. eapply spec_any.
  { apply spec_modify; [done|intros; apply reaches_set_uid]. }
  intros _. steps. split; [done|]. eauto.
Qed.

(** ** Definitions *)

Lemma parseVariableDefSize_ok L : spec L some_of parseVariableDefSize.
Proof.
  unfold parseVariableDefSize. steps; [|done]. eapply (spec_bind _ some_of).
  - steps; [done|]. eapply spec_bind; [apply with_BinaryOr|]. intros k t Hk (_ & Ht & _).
    eapply spec_any; [by apply expectConstantExpression_ok|]. intros v. steps. done.
  - intros k v Hk _. steps. done.
Qed.

Lemma parseConstDef_ok L : spec L (fun k _ => (1 <= k)%nat) parseConstDef.
Proof.
  unfold parseConstDef. steps.
  eapply spec_bind; [apply with_BinaryOr|]. intros k t Hk (_ & Ht & _).
  eapply spec_any; [by apply expectConstantExpression_ok|]. intros v.
  eapply spec_weaken; [apply spec_modify; [done|intros; apply reaches_set_constants]|reflexivity|]. intros; lia.
Qed.

Section Statements.
(** A bound on the tokens of the program. *)
Variable N : nat.

(** A statement, from at least one token. *)
Definition stmt_in (k : nat) (n : node) : Prop := (1 <= k)%nat /\ tree N true n.

Lemma tree_temp p q a s nm r :
  vexpr r -> (List.length (names r) <= N)%nat ->
  tree N true (Node AssignmentNode p [Node (MemoryVectorNode a s nm false) q []; r]).
Proof. intros Hr Hn. apply tree_assign; [|done..]. constructor; [simpl; lia|constructor]. Qed.

Lemma parseVarDefInit_ok L p a size nm : (L <= N)%nat ->
  spec L (fun _ o => match o with Some (n, _) => tree N true n | None => True end)
    (parseVarDefInit p a size nm).
Proof.
  intros HL. unfold parseVarDefInit. steps; [|done].
  eapply spec_bind; [apply spec_with_fuel; intros n Hn; by apply parseTupleVector_compat_ok|].
  intros k o Hk Ho.
  eapply (spec_bind _ (fun j r => vexpr r /\ (List.length (names r) <= k + j)%nat)).
  - destruct o as [r|]; [steps; split; [apply Ho|destruct Ho as (_ & _ & Hn); lia]|].
    eapply spec_weaken; [apply with_BinaryOr|reflexivity|]. intros j r _ (_ & Hr & Hn). split; [done|lia].
  - intros j r Hj (Hr & Hn). eapply spec_any.
    { destruct (size =? E_NOVAL); [apply spec_fine; auto with fine|by apply spec_ret]. }
    intros s. steps. by apply tree_temp; [|lia].
Qed.

(** A variable is only declared in the free space. *)
Lemma spec_declare L (f : Compiler -> VariablesMap) size p (o : option node) :
  spec L (still (fun o' => o' = o))
    (_ ← modify (fun c => set_variables (f c) (u32 (freeVariableIndex c + size)) c);
     c' ← get id;
     if variablesSize (targetDescription c') <? freeVariableIndex c' then fail p ERROR_NOT_ENOUGH_SPACE []
     else mret o).
Proof.
  apply spec_now. intros st. run_M. cbn. destruct (_ <? _) eqn:E; [reflexivity|]. b2p.
  split; [|done]. split; [|done..]. intros [? ? ?]; split; try done. cbn.
  pose proof (u32_range (freeVariableIndex st + size)). lia.
Qed.

Lemma parseVarDef_ok L : (L <= N)%nat ->
  spec L (fun k o => (1 <= k)%nat /\ match o with Some n => tree N true n | None => True end) parseVarDef.
Proof.
  intros HL. unfold parseVarDef. steps.
  eapply spec_bind; [apply parseVariableDefSize_ok|]. intros k varSize Hk _. steps.
  eapply spec_bind; [apply parseVarDefInit_ok; lia|]. intros j init Hj Hinit. steps.
  eapply spec_weaken; [apply spec_declare|reflexivity|].
  intros i o _ [-> ->]. split; [lia|]. destruct init as [[n s]|]; done.
Qed.

(** *** Simple statements *)

Lemma parseReturn_ok L : spec L stmt_in parseReturn.
Proof. unfold parseReturn. steps. split; [lia|]. by apply tree_node. Qed.

Lemma fine_getBinaryOperator ty : fine (getBinaryOperator ty).
Proof. unfold getBinaryOperator. fine. Qed.
Hint Resolve fine_getBinaryOperator : fine.

Lemma parseAssignment_ok L : (L <= N)%nat -> spec L stmt_in parseAssignment.
Proof.
  intros HL. unfold parseAssignment. steps.
  eapply spec_bind; [apply with_BinaryOr|]. intros k l Hk (H1 & Hl & Hn). steps.
  - eapply spec_bind; [apply with_BinaryOr|]. intros j r Hj (_ & Hr & Hn'). steps.
    split; [lia|]. apply tree_assign; try done. lia.
  - split; [lia|]. apply tree_unary; try done. lia.
  - split; [lia|]. apply tree_unary; try done. lia.
  - eapply spec_bind; [apply with_BinaryOr|]. intros j r Hj (_ & Hr & Hn'). steps.
    split; [lia|]. apply tree_arith; try done. lia.
Qed.

Lemma parseOnEvent_ok L : spec L stmt_in parseOnEvent.
Proof.
  unfold parseOnEvent. steps.
  eapply spec_any; [apply spec_modify; [done|intros; apply reaches_set_implemented]|]. intros _. steps.
  split; [lia|]. by apply tree_node.
Qed.

Lemma emit_argument_ok L p n k : vexpr n -> (List.length (names n) <= k)%nat -> (k <= N)%nat ->
  spec L (still (fun r => Forall (tree N true) (fst (fst r)))) (emit_argument p n).
Proof.
  intros Hn Hk HN. unfold emit_argument. eapply (spec_any _ _ (if is_memory n then _ else _)).
  { destruct (is_memory n); steps; done. }
  intros b. steps; [|by split].
  eapply spec_bind0; [apply spec_allocateVariable|]. intros t (a & s & nm & ->). steps.
  split; [done|]. simpl. constructor; [|constructor]. apply tree_temp; [done|lia].
Qed.

Lemma parseEmit_ok L b : (L <= N)%nat -> spec L stmt_in (parseEmit b).
Proof.
  intros HL. unfold parseEmit. steps.
  2: { split; [lia|]. by apply tree_node. }
  eapply spec_bind; [apply with_BinaryOr|]. intros k n Hk (_ & Hn & Hle).
  eapply spec_bind0; [apply (emit_argument_ok _ _ n k); try done; lia|]. intros [[cs addr] size] Hcs. steps.
  split; [lia|]. by apply tree_node.
Qed.

(** A modification that depends on the state it was read from. *)
Lemma spec_read_modify {A B} L (R : nat -> A -> Prop) (o : Compiler -> option B)
    (e : Compiler -> M A) (g : Compiler -> Compiler -> Compiler) (k : Compiler -> M A) :
  (forall c, reaches c (g c c) /\ tokens (g c c) = tokens c) ->
  (forall c, spec L R (e c)) -> (forall c, spec L R (k c)) ->
  spec L R (c ← get id; match o c with Some _ => e c | None => _ ← modify (g c); k c end).
Proof.
  intros Hg He Hk st Hst. change ((get id ≫= ?f) st) with (f st st). cbv beta.
  destruct (o st); [by apply He|]. change ((modify (g st) ≫= ?f) st) with (f tt (g st st)). cbv beta.
  destruct (Hg st) as [Hr Ht]. rewrite <- Ht in Hst |- *. specialize (Hk st (g st st) Hst).
  destruct (k st (g st st)) as [[a st']|err| | |]; try done. destruct Hk as [Hr' Hk].
  split; [by etrans|done].
Qed.

Lemma parseSubDecl_ok L : spec L stmt_in parseSubDecl.
Proof.
  unfold parseSubDecl. do 4 step. cbv zeta. apply spec_read_modify.
  - intros c. split; [|done]. apply reaches_set_subroutines.
  - intros c. steps.
  - intros c. steps. split; [lia|]. by apply tree_node.
Qed.

Lemma parseCallSub_ok L : spec L stmt_in parseCallSub.
Proof. unfold parseCallSub. steps. split; [lia|]. by apply tree_node. Qed.

(** *** Function calls *)

Lemma call_argument_ok L p : (L <= N)%nat ->
  spec L (fun k r => (1 <= k)%nat /\ tree N true (fst (fst r))) (call_argument p).
Proof.
  intros HL. unfold call_argument. steps.
  eapply spec_bind; [apply with_BinaryOr|]. intros k n Hk (H1 & Hn & Hle). steps.
  assert (spec (L - k) (fun j (r : node * SourcePos * Z) => (1 <= k + j)%nat /\ tree N true (fst (fst r)))
    (temp ← allocateTemporaryVariable p n;
     addr ← lift (getVectorAddr temp);
     mret (Node BlockNode (pos a) [temp; immediate (pos a) (s32 addr)], pos a, a1))) as Htemp.
  { eapply spec_bind0; [apply spec_allocateVariable|]. intros t (ad & s & nm & ->). steps.
    split; [lia|]. apply tree_node; [done|].
    constructor; [apply tree_temp; [done|lia]|]. constructor; [apply tree_expr; constructor|constructor]. }
  destruct n as [[] np cs]; try exact Htemp. clear Htemp. steps.
  - destruct cs as [|i [|]]; steps. split; [lia|]. apply tree_node; [done|].
    pose proof (vexpr_children _ _ _ Hn) as Hcs. apply Forall_cons_1 in Hcs as [Hi _].
    constructor; [by apply tree_expr|constructor].
  - split; [lia|]. apply tree_expr. constructor.
Qed.

Lemma check_argument_ok L f i prm p size ts args : spec L any (check_argument f i prm p size ts args).
Proof. unfold check_argument. steps; done. Qed.

Lemma call_arguments_ok L p f total i params ts args nodes : (L <= N)%nat ->
  Forall (tree N true) nodes ->
  spec L (fun _ r => Forall (tree N true) (fst (fst r))) (call_arguments p f total i params ts args nodes).
Proof.
  revert L i ts args nodes; induction params as [|prm params IH]; intros L i ts args nodes HL Hn;
    cbn [call_arguments]; [by steps|]. steps.
  eapply spec_bind; [by apply call_argument_ok|]. intros k [[n vp] vs] Hk (H1 & Ht).
  eapply spec_any; [apply check_argument_ok|]. intros [ts' args']. steps.
  eapply (spec_any _ _ (match params with [] => _ | _ :: _ => _ end)).
  { destruct params; steps; auto with steps. }
  intros _. steps. apply (IH (L - k - 1)%nat); [lia|].
  apply Forall_app. split; [done|by constructor].
Qed.

Lemma parseFunctionCall_ok L : (L <= N)%nat -> spec L stmt_in parseFunctionCall.
Proof.
  intros HL. unfold parseFunctionCall. do 9 step. cbv zeta.
  destruct (parameters a5); steps.
  - split; [lia|]. by apply tree_node.
  - eapply spec_bind; [apply call_arguments_ok; [lia|constructor]|]. intros k [[nodes ts] args] Hk Ht.
    steps. split; [lia|]. by apply tree_node.
Qed.

(** *** Block statements *)

Section Blocks.
Variable rec : stmt_callee -> M node.
Variable uninitialized : Z.
Variable L : nat.
Hypothesis L_bound : (S L <= N)%nat.
Hypothesis rec_ok : forall k, spec L stmt_in (rec k).

Lemma statements_until_ok n L' stop : (L' <= n)%nat -> (L' <= L)%nat ->
  spec L' (fun _ l => Forall (tree N true) l) (statements_until rec n stop).
Proof.
  revert L'; induction n as [|n IH]; intros L' Hn HL; cbn [statements_until].
  - intros st Hst. unfold front. run_M. destruct (tokens st); [exact I|simpl in Hst; lia].
  - steps; [constructor|].
    eapply spec_bind; [sub rec_ok|]. intros k s Hk (H1 & Hs).
    eapply spec_bind; [apply IH; lia|]. intros j l Hj Hl. steps. by constructor.
Qed.

Lemma block_until_ok L' stop : (L' <= L)%nat ->
  spec L' (fun _ l => Forall (tree N true) l) (block_until rec stop).
Proof. intros HL. unfold block_until. steps. apply statements_until_ok; lia. Qed.

Lemma tree_block p l : Forall (tree N true) l -> tree N true (Node BlockNode p l).
Proof. by apply tree_node. Qed.

(** Blocks and their positions, to be put in a node. *)
Ltac trees := repeat first
  [ assumption | apply Forall_nil_2 | apply Forall_cons_2 | apply Forall_app_2
  | apply tree_node; [reflexivity|] | apply tree_expr; assumption ].

Lemma parseIfWhen_ok b : spec (S L) stmt_in (parseIfWhen rec uninitialized b).
Proof.
  unfold parseIfWhen. steps.
  eapply spec_bind; [apply with_Or|]. intros k c Hk (H1 & Hc & Hn). steps.
  eapply spec_bind; [apply block_until_ok; lia|]. intros j body Hj Hbody. steps.
  { split; [lia|]. trees. }
  eapply (spec_bind _ (fun _ l => Forall (tree N true) l)).
  { steps; [|constructor]. eapply spec_bind; [apply block_until_ok; lia|]. intros i fb Hi Hfb. steps. trees. }
  intros i fb Hi Hfb. steps.
  - eapply spec_bind; [sub rec_ok|]. intros m nested Hm (_ & Hnested). steps. split; [lia|]. trees.
  - split; [lia|]. trees.
Qed.

Lemma parseWhile_ok : spec (S L) stmt_in (parseWhile rec).
Proof.
  unfold parseWhile. steps.
  eapply spec_bind; [apply with_Or|]. intros k c Hk (H1 & Hc & Hn). steps.
  eapply spec_bind; [apply block_until_ok; lia|]. intros j body Hj Hbody. steps.
  split; [lia|]. trees.
Qed.

Lemma parseFor_ok : spec (S L) stmt_in (parseFor rec).
Proof.
  unfold parseFor. do 2 step. cbv zeta.
  eapply spec_bind; [apply with_Variable|]. intros k v Hk (H1 & Hv & Hn). do 2 step.
  eapply spec_bind; [apply spec_expectInt16LiteralOrConstant|]. intros k1 lo Hk1 _. do 4 step.
  eapply spec_bind; [apply spec_expectInt16LiteralOrConstant|]. intros k2 hi Hk2 _. do 3 step.
  eapply (spec_bind _ some_of).
  { steps; [|done]. eapply spec_bind; [apply spec_expectInt16LiteralOrConstant|]. intros; steps. done. }
  intros k3 inc Hk3 _. eapply spec_any; [steps; done|]. intros _. do 2 step.
  assert (forall p q op c1, tree N true (Node AssignmentNode p [v; tuple q [c1]]) /\
            tree N true (binary p op v (tuple q [c1])) /\
            tree N true (Node AssignmentNode p [v; binary q op v (tuple q [c1])])) as Hv'.
  { intros. pose proof (vexpr_tuple_of q [c1]). split_and!.
    - apply tree_assign; try done. simpl. lia.
    - apply tree_expr. by constructor.
    - apply tree_assign; [done|by constructor|]. simpl. rewrite app_nil_r. lia. }
  step.
  - eapply spec_bind; [apply block_until_ok; lia|]. intros j body Hj Hbody. steps.
    split; [lia|]. trees. apply (Hv' _ _ ASEBA_OP_ADD).
  - step. eapply spec_bind; [apply block_until_ok; lia|]. intros j body Hj Hbody. steps.
    split; [lia|]. trees; first [apply (Hv' _ _ ASEBA_OP_ADD)|apply tree_expr, vexpr_tuple_of].
Qed.

Lemma parseBlockStatement_ok : spec (S L) stmt_in (parseBlockStatement rec uninitialized).
Proof.
  unfold parseBlockStatement. steps.
  destruct (type a); first
    [ apply parseIfWhen_ok | apply parseFor_ok | apply parseWhile_ok
    | by apply parseEmit_ok | by apply parseFunctionCall_ok | apply parseCallSub_ok
    | apply parseReturn_ok | by apply parseAssignment_ok ].
Qed.
End Blocks.

(** *** The program *)

Lemma stmt_rec_ok u L k : (L <= N)%nat -> spec L stmt_in (stmt_rec u (S L) k).
Proof.
  revert k; induction L as [|L IH]; intros k HL.
  - intros st Hst. assert (tokens st = []) as E by (destruct (tokens st); [done|simpl in Hst; lia]).
    destruct k; cbn [stmt_rec]; unfold parseBlockStatement, parseIfWhen, front; run_M; rewrite E; exact I.
  - assert (forall k, spec L stmt_in (stmt_rec u (S L) k)) as Hrec by (intros; apply IH; lia).
    destruct k; [by apply parseBlockStatement_ok|by apply parseIfWhen_ok].
Qed.

Lemma parseStatement_ok u L : (L <= N)%nat -> spec L stmt_in (parseStatement u).
Proof.
  intros HL. unfold parseStatement. do 2 step.
  destruct (type a0); try (by steps); try apply parseOnEvent_ok; try apply parseSubDecl_ok;
    apply spec_fuel; intros n Hn; apply stmt_rec_ok; lia.
Qed.

Lemma const_defs_ok L n : (L <= n)%nat -> spec L some_of (const_defs n).
Proof.
  revert L; induction n as [|n IH]; intros L Hn; cbn [const_defs].
  - intros st Hst. unfold front. run_M. destruct (tokens st); [exact I|simpl in Hst; lia].
  - steps; [|done]. eapply spec_bind; [apply parseConstDef_ok|]. intros k [] Hk H1. cbv beta in H1.
    apply IH. lia.
Qed.

Lemma var_defs_ok L n : (L <= n)%nat -> (L <= N)%nat ->
  spec L (fun _ l => Forall (tree N true) l) (var_defs n).
Proof.
  revert L; induction n as [|n IH]; intros L Hn HL; cbn [var_defs].
  - intros st Hst. unfold front. run_M. destruct (tokens st); [exact I|simpl in Hst; lia].
  - steps; [|constructor]. eapply spec_bind; [by apply parseVarDef_ok|]. intros k o Hk [H1 Ho].
    eapply spec_bind; [apply IH; lia|]. intros j l Hj Hl. steps. destruct o; [by constructor|done].
Qed.

Lemma program_statements_ok u L n : (L <= n)%nat -> (L <= N)%nat ->
  spec L (fun _ l => Forall (tree N true) l) (program_statements u n).
Proof.
  revert L; induction n as [|n IH]; intros L Hn HL; cbn [program_statements].
  - intros st Hst. unfold front. run_M. destruct (tokens st); [exact I|simpl in Hst; lia].
  - steps; [constructor|]. eapply spec_bind; [by apply parseStatement_ok|]. intros k c Hk [H1 Hc].
    eapply spec_bind; [apply IH; lia|]. intros j l Hj Hl. steps. by constructor.
Qed.

Lemma parseProgram_ok u : spec N (fun _ n => tree N true n) (parseProgram u).
Proof.
  unfold parseProgram. steps.
  eapply spec_bind; [by apply const_defs_ok|]. intros k [] Hk _.
  eapply spec_bind; [apply var_defs_ok; lia|]. intros j vars Hj Hvars.
  eapply spec_bind; [apply program_statements_ok; lia|]. intros i body Hi Hbody. steps.
  apply tree_node; [done|]. by apply Forall_app_2.
Qed.
End Statements.
