(* ===== verification/Emit.v ===== *)
(** * Code generation

    compiler/tree-emit.cpp and the bytecode containers of compiler/compiler.h.
    [emit] appends to the current vector: [bytecodes.current] points to a local
    vector while a branch is generated, and to an event or a subroutine
    otherwise.  [EventDeclNode] and [SubDeclNode], which move the pointer, are
    children of the program only (parseStatement), so they are handled by
    [emit_child]. *)
From Stdlib Require Import ZArith Lia List.
From stdpp Require Import base list.
From S2P Require Import Prelude Errors Consts OrdMap Lookup Tree.

Local Open Scope Z_scope.

(** ** Bytecode containers *)

Record BytecodeElement : Type := mkElement { bytecode : Z; line : Z }.

(** [BytecodeElement(unsigned short, unsigned short)]. *)
Definition element (b l : Z) : BytecodeElement := mkElement (u16 b) (u16 l).

(** [bytecode >> 12]. *)
Definition opcode (e : BytecodeElement) : Z := Z.shiftr (bytecode e) 12.

(** [BytecodeElement::getWordSize]. *)
Definition getWordSize (e : BytecodeElement) : nat :=
  match bytecode_of_id (opcode e) with
  | Some (ASEBA_BYTECODE_LARGE_IMMEDIATE | ASEBA_BYTECODE_LOAD_INDIRECT
         | ASEBA_BYTECODE_STORE_INDIRECT | ASEBA_BYTECODE_CONDITIONAL_BRANCH) => 2
  | Some ASEBA_BYTECODE_EMIT => 3
  | _ => 1
  end.

Record BytecodeVector : Type := mkVector {
  code : list BytecodeElement; maxStackDepth : Z; callDepth : Z; lastLine : Z }.

Definition empty_vector : BytecodeVector := mkVector [] 0 0 0.

(** [push_back], one element and a copied range. *)
Definition push_back (v : BytecodeVector) (e : BytecodeElement) : BytecodeVector :=
  mkVector (code v ++ [e]) (maxStackDepth v) (callDepth v) (line e).
Definition push_all (v : BytecodeVector) (es : list BytecodeElement) : BytecodeVector :=
  foldl push_back v es.
Definition set_lastLine (v : BytecodeVector) (l : Z) : BytecodeVector :=
  mkVector (code v) (maxStackDepth v) (callDepth v) l.
Definition set_maxStackDepth (v : BytecodeVector) (d : Z) : BytecodeVector :=
  mkVector (code v) d (callDepth v) (lastLine v).
Definition set_callDepth (v : BytecodeVector) (d : Z) : BytecodeVector :=
  mkVector (code v) (maxStackDepth v) d (lastLine v).
Definition set_code (v : BytecodeVector) (c : list BytecodeElement) : BytecodeVector :=
  mkVector c (maxStackDepth v) (callDepth v) (lastLine v).

Definition size_of (v : BytecodeVector) : Z := Z.of_nat (List.length (code v)).

(** [AsebaBytecodeFromId(id) | operand], pushed at the line of a node. *)
Definition push_op (v : BytecodeVector) (id : AsebaBytecodeId) (operand : Z) (p : SourcePos) : BytecodeVector :=
  push_back v (element (Z.lor (AsebaBytecodeFromId id) operand) (row p)).
Definition push_word (v : BytecodeVector) (w : Z) (p : SourcePos) : BytecodeVector :=
  push_back v (element w (row p)).

Definition addImmediateToBytecodes (value : Z) (p : SourcePos) (v : BytecodeVector) : res error BytecodeVector :=
  if value =? -2147483648 then Undef  (* abs(INT_MIN) *)
  else if Z.shiftr (Z.abs value) 11 =? 0 then
    Ok (push_op v ASEBA_BYTECODE_SMALL_IMMEDIATE (Z.land (u32 value) 0x0fff) p)
  else
    Ok (push_word (push_op v ASEBA_BYTECODE_LARGE_IMMEDIATE 0 p) value p).

(** ** Stack depth *)

(** [std::max] over the children. *)
Fixpoint max_depth (depth : node -> res error Z) (acc : Z) (cs : list node) : res error Z :=
  match cs with
  | [] => Ok acc
  | c :: cs' => d ← depth c; max_depth depth (Z.max acc d) cs'
  end.

(** The loop of [CallNode::getStackDepth]. *)
Fixpoint call_depth (depth : node -> res error Z) (args i acc : Z) (cs : list node) : res error Z :=
  match cs with
  | [] => Ok acc
  | c :: cs' => d ← depth c; call_depth depth args (i + 1) (Z.max acc (u32 (u32 (args + i) + d))) cs'
  end.

Fixpoint getStackDepth (n : node) : res error Z :=
  let 'Node k _ cs := n in
  match k, cs with
  | FoldedIfWhenNode _ _ _, c0 :: c1 :: c2 :: rest =>
      d0 ← getStackDepth c0; d1 ← getStackDepth c1; d2 ← getStackDepth c2;
      match rest with
      | [c3] => d3 ← getStackDepth c3; Ok (Z.max (Z.max (u32 (d0 + d1)) d2) d3)
      | _ => Ok (Z.max (u32 (d0 + d1)) d2)
      end
  | FoldedWhileNode _, c0 :: c1 :: c2 :: _ =>
      d0 ← getStackDepth c0; d1 ← getStackDepth c1; d2 ← getStackDepth c2;
      Ok (Z.max (u32 (d0 + d1)) d2)
  | BinaryArithmeticNode _, c0 :: c1 :: _ =>
      d0 ← getStackDepth c0; d1 ← getStackDepth c1; Ok (u32 (d0 + d1))
  | (ImmediateNode _ | LoadNode _), _ => Ok 1
  | LoadNativeArgNode _ _ _ _, c0 :: _ => d ← getStackDepth c0; Ok (Z.max d 2)
  | CallNode _ templateArgs, _ =>
      call_depth getStackDepth (Z.of_nat (List.length templateArgs)) 0 0 cs
  | (FoldedIfWhenNode _ _ _ | FoldedWhileNode _ | BinaryArithmeticNode _
    | LoadNativeArgNode _ _ _ _), _ => Crash  (* missing children *)
  | (TupleVectorNode | MemoryVectorNode _ _ _ _ | ArithmeticAssignmentNode _
    | UnaryArithmeticAssignmentNode _), _ => Crash  (* AbstractTreeNode: abort() *)
  | _, _ => max_depth getStackDepth 0 cs
  end.

(** ** Code *)

(** The immediates of the template arguments, in reverse order. *)
Fixpoint emit_templates (args : list Z) (p : SourcePos) (v : BytecodeVector) : res error BytecodeVector :=
  match args with
  | [] => Ok v
  | a :: args' => v' ← emit_templates args' p v; addImmediateToBytecodes (s32 a) p v'
  end.

(** Children in order, and in reverse order. *)
Fixpoint emit_list (emit : node -> BytecodeVector -> res error BytecodeVector) (cs : list node)
    (v : BytecodeVector) : res error BytecodeVector :=
  match cs with
  | [] => Ok v
  | c :: cs' => v' ← emit c v; emit_list emit cs' v'
  end.
Fixpoint emit_list_rev (emit : node -> BytecodeVector -> res error BytecodeVector) (cs : list node)
    (v : BytecodeVector) : res error BytecodeVector :=
  match cs with
  | [] => Ok v
  | c :: cs' => v' ← emit_list_rev emit cs' v; emit c v'
  end.

(** [AssignmentNode::emit]: the value, then the store, by pairs. *)
Fixpoint emit_pairs (emit : node -> BytecodeVector -> res error BytecodeVector) (cs : list node)
    (v : BytecodeVector) : res error BytecodeVector :=
  match cs with
  | [] => Ok v
  | store :: value :: cs' => v1 ← emit value v; v2 ← emit store v1; emit_pairs emit cs' v2
  | [_] => Crash  (* assert(children.size() % 2 == 0) *)
  end.

(** [FoldedIfWhenNode::emit], from the code of its parts. *)
Definition fit_if (p : SourcePos) (op : AsebaBinaryOperator) (edgeSensitive : bool) (endLine : Z)
    (ble bre btb : BytecodeVector) (bfb : option BytecodeVector) (v : BytecodeVector) : BytecodeVector :=
  let v1 := push_all (push_all v (code ble)) (code bre) in
  let when_bit := if edgeSensitive then Z.shiftl 1 ASEBA_IF_IS_WHEN_BIT else 0 in
  let v2 := push_op v1 ASEBA_BYTECODE_CONDITIONAL_BRANCH (Z.lor (binop_code op) when_bit) p in
  let v3 := push_word v2 (2 + size_of btb + match bfb with Some _ => 1 | None => 0 end) p in
  let v4 := push_all v3 (code btb) in
  let v5 := match bfb with
            | Some bfb =>
                let jumpLine := match List.last (List.map Some (code btb)) None with
                                | Some e => line e
                                | None => row p
                                end in
                let jump := element (Z.lor (AsebaBytecodeFromId ASEBA_BYTECODE_JUMP) (size_of bfb + 1)) jumpLine in
                push_all (push_back v4 jump) (code bfb)
            | None => v4
            end in
  set_lastLine v5 endLine.

(** [FoldedWhileNode::emit], from the code of its parts. *)
Definition fit_while (p : SourcePos) (op : AsebaBinaryOperator) (ble bre bb : BytecodeVector)
    (v : BytecodeVector) : BytecodeVector :=
  let v1 := push_all (push_all v (code ble)) (code bre) in
  let v2 := push_op v1 ASEBA_BYTECODE_CONDITIONAL_BRANCH (binop_code op) p in
  let v3 := push_word v2 (2 + size_of bb + 1) p in
  let v4 := push_all v3 (code bb) in
  push_op v4 ASEBA_BYTECODE_JUMP (Z.land (u32 (- (size_of ble + size_of bre + size_of bb + 2))) 0x0fff) p.

(** [LoadNativeArgNode::emit], after the index. *)
Definition emit_native_arg (p : SourcePos) (tempAddr arrayAddr arraySize : Z) (v : BytecodeVector)
  : res error BytecodeVector :=
  let v1 := push_op v ASEBA_BYTECODE_STORE tempAddr p in
  let v2 := push_op v1 ASEBA_BYTECODE_LOAD tempAddr p in
  let v3 := push_op v2 ASEBA_BYTECODE_LOAD tempAddr p in
  let v4 := push_word (push_op v3 ASEBA_BYTECODE_LOAD_INDIRECT arrayAddr p) arraySize p in
  let v5 := push_op v4 ASEBA_BYTECODE_STORE tempAddr p in
  v6 ← addImmediateToBytecodes (s32 arrayAddr) p v5;
  Ok (push_op v6 ASEBA_BYTECODE_BINARY_ARITHMETIC (binop_code ASEBA_OP_ADD) p).

(** The virtual [emit], for every node but the program and its declarations. *)
Fixpoint emit (n : node) (v : BytecodeVector) : res error BytecodeVector :=
  let 'Node k p cs := n in
  match k, cs with
  | BlockNode, _ => emit_list emit cs v
  | AssignmentNode, _ => emit_pairs emit cs v
  | FoldedIfWhenNode op edgeSensitive endLine, c0 :: c1 :: c2 :: rest =>
      ble ← emit c0 empty_vector;
      bre ← emit c1 empty_vector;
      btb ← emit c2 empty_vector;
      match rest with
      | [] => Ok (fit_if p op edgeSensitive endLine ble bre btb None v)
      | [c3] => bfb ← emit c3 empty_vector; Ok (fit_if p op edgeSensitive endLine ble bre btb (Some bfb) v)
      | _ => Crash  (* a branch node has four children at most *)
      end
  | FoldedWhileNode op, c0 :: c1 :: c2 :: _ =>
      ble ← emit c0 empty_vector;
      bre ← emit c1 empty_vector;
      bb ← emit c2 empty_vector;
      Ok (fit_while p op ble bre bb v)
  | EmitNode eventId arrayAddr arraySize, _ =>
      v' ← emit_list emit cs v;
      Ok (push_word (push_word (push_op v' ASEBA_BYTECODE_EMIT eventId p) arrayAddr p) arraySize p)
  | CallSubNode _ subroutineId, _ => Ok (push_op v ASEBA_BYTECODE_SUB_CALL subroutineId p)
  | BinaryArithmeticNode op, c0 :: c1 :: _ =>
      v1 ← emit c0 v; v2 ← emit c1 v1;
      Ok (push_op v2 ASEBA_BYTECODE_BINARY_ARITHMETIC (binop_code op) p)
  | UnaryArithmeticNode op, c0 :: _ =>
      v1 ← emit c0 v;
      Ok (push_op v1 ASEBA_BYTECODE_UNARY_ARITHMETIC (unop_code op) p)
  | ImmediateNode value, _ => addImmediateToBytecodes value p v
  | LoadNode varAddr, _ => Ok (push_op v ASEBA_BYTECODE_LOAD varAddr p)
  | StoreNode varAddr, _ => Ok (push_op v ASEBA_BYTECODE_STORE varAddr p)
  | ArrayWriteNode arrayAddr arraySize _, c0 :: _ =>
      _ ← assert_ (match as_immediate c0 with None => true | Some _ => false end);
      v1 ← emit c0 v;
      Ok (push_word (push_op v1 ASEBA_BYTECODE_STORE_INDIRECT arrayAddr p) arraySize p)
  | ArrayReadNode arrayAddr arraySize _, c0 :: _ =>
      _ ← assert_ (match as_immediate c0 with None => true | Some _ => false end);
      v1 ← emit c0 v;
      Ok (push_word (push_op v1 ASEBA_BYTECODE_LOAD_INDIRECT arrayAddr p) arraySize p)
  | LoadNativeArgNode tempAddr arrayAddr arraySize _, c0 :: _ =>
      _ ← assert_ (match as_immediate c0 with None => true | Some _ => false end);
      v1 ← emit c0 v;
      emit_native_arg p tempAddr arrayAddr arraySize v1
  | CallNode funcId templateArgs, _ =>
      v1 ← emit_templates templateArgs p v;
      v2 ← emit_list_rev emit cs v1;
      Ok (push_op v2 ASEBA_BYTECODE_NATIVE_CALL funcId p)
  | ReturnNode, _ => Ok (push_op v ASEBA_BYTECODE_STOP 0 p)
  | _, _ => Crash
    (* abort() of the abstract and unfolded nodes; missing children; a program
       or a declaration inside a statement *)
  end.

(** ** The program *)

(** What [bytecodes.current] and [currentBytecode] point to. *)
Inductive cursor : Type := CurEvent (id : Z) | CurSub (id : Z).

Record PreLinkBytecode : Type := mkPreLink {
  ev_bytecode : omap Z BytecodeVector;
  sub_bytecode : omap Z BytecodeVector;
  current : cursor
}.

(** The constructor. *)
Definition PreLink_init : PreLinkBytecode :=
  mkPreLink [(ASEBA_EVENT_INIT, empty_vector)] [] (CurEvent ASEBA_EVENT_INIT).

(** [*cursor]; [operator[]] of the maps creates a missing entry. *)
Definition get_vector (pl : PreLinkBytecode) (c : cursor) : BytecodeVector :=
  default empty_vector
    (match c with CurEvent id => om_find id (ev_bytecode pl) | CurSub id => om_find id (sub_bytecode pl) end).

Definition set_vector (pl : PreLinkBytecode) (c : cursor) (v : BytecodeVector) : PreLinkBytecode :=
  match c with
  | CurEvent id => mkPreLink (om_set id v (ev_bytecode pl)) (sub_bytecode pl) (current pl)
  | CurSub id => mkPreLink (ev_bytecode pl) (om_set id v (sub_bytecode pl)) (current pl)
  end.

(** [child->emit(bytecodes)] for a child of the program. *)
Definition emit_child (n : node) (pl : PreLinkBytecode) : res error PreLinkBytecode :=
  match node_kind n with
  | EventDeclNode eventId =>
      match om_find eventId (ev_bytecode pl) with
      | Some _ => Crash  (* assert(events.find(eventId) == events.end()) *)
      | None => Ok (mkPreLink (om_set eventId empty_vector (ev_bytecode pl)) (sub_bytecode pl) (CurEvent eventId))
      end
  | SubDeclNode subroutineId =>
      match om_find subroutineId (sub_bytecode pl) with
      | Some _ => Crash
      | None => Ok (mkPreLink (ev_bytecode pl) (om_set subroutineId empty_vector (sub_bytecode pl)) (CurSub subroutineId))
      end
  | _ => v ← emit n (get_vector pl (current pl)); Ok (set_vector pl (current pl) v)
  end.

Fixpoint emit_children (cs : list node) (pl : PreLinkBytecode) : res error PreLinkBytecode :=
  match cs with
  | [] => Ok pl
  | c :: cs' => pl' ← emit_child c pl; emit_children cs' pl'
  end.

(** The second loop of [ProgramNode::emit]: the stack depth of each block. *)
Fixpoint analyze_depth (cs : list node) (cur : cursor) (depth : Z) (pl : PreLinkBytecode)
  : res error PreLinkBytecode :=
  match cs with
  | [] => Ok (set_vector pl cur (set_maxStackDepth (get_vector pl cur) depth))
  | c :: cs' =>
      let close := set_vector pl cur (set_maxStackDepth (get_vector pl cur) depth) in
      match node_kind c with
      | EventDeclNode eventId => analyze_depth cs' (CurEvent eventId) 0 close
      | SubDeclNode subroutineId => analyze_depth cs' (CurSub subroutineId) 0 close
      | _ => d ← getStackDepth c; analyze_depth cs' cur (Z.max depth d) pl
      end
  end.

(** [ProgramNode::emit]. *)
Definition emit_program (n : node) (pl : PreLinkBytecode) : res error PreLinkBytecode :=
  match node_kind n with
  | ProgramNode =>
      pl' ← emit_children (children n) pl;
      analyze_depth (children n) (CurEvent ASEBA_EVENT_INIT) 0 pl'
  | _ => Crash
  end.

(** * Emission appends

    [emit] appends to the vector it is given what it emits into an empty one;
    branches, emitted into fresh vectors and copied, are no exception. *)

(** ** Concatenation of vectors *)

Definition app_vec (v e : BytecodeVector) : BytecodeVector :=
  mkVector (code v ++ code e) (maxStackDepth v) (callDepth v)
           (match code e with [] => lastLine v | _ :: _ => lastLine e end).

Lemma app_vec_assoc a b c : app_vec (app_vec a b) c = app_vec a (app_vec b c).
Proof.
  unfold app_vec; simpl. rewrite <- app_assoc. f_equal.
  destruct (code c); [by rewrite app_nil_r|]. by destruct (code b).
Qed.

Lemma app_vec_empty v : app_vec v empty_vector = v.
Proof. destruct v. unfold app_vec. simpl. by rewrite app_nil_r. Qed.

(** [f] appends the same words to every vector. *)
Definition appends (f : BytecodeVector -> res error BytecodeVector) : Prop :=
  forall v, f v = (e ← f empty_vector; Ok (app_vec v e)).

Lemma appends_bind f g : appends f -> appends g -> appends (fun v => v' ← f v; g v').
Proof.
  intros Hf Hg v. rewrite (Hf v). destruct (f empty_vector) as [e|err| | |]; try done. cbn [mbind res_bind].
  rewrite (Hg (app_vec v e)), (Hg e). destruct (g empty_vector) as [e'|err| | |]; try done.
  cbn [mbind res_bind]. by rewrite app_vec_assoc.
Qed.

Lemma appends_ret : appends (fun v => Ok v).
Proof. intros v. cbn. by rewrite app_vec_empty. Qed.

Lemma appends_err {r : res error BytecodeVector} :
  match r with Ok _ => False | _ => True end -> appends (fun _ => r).
Proof. by destruct r. Qed.

Lemma appends_const {A} (m : res error A) f : (forall a, appends (f a)) -> appends (fun v => a ← m; f a v).
Proof. intros Hf v. destruct m; try done. cbn. apply Hf. Qed.

Lemma push_back_app v e : push_back v e = app_vec v (push_back empty_vector e).
Proof. done. Qed.

Lemma push_all_app v es : push_all v es = app_vec v (push_all empty_vector es).
Proof.
  unfold push_all. revert v; induction es as [|e es IH] using rev_ind; intros v; [by rewrite app_vec_empty|].
  rewrite !foldl_app. cbn [foldl]. rewrite (IH v), (push_back_app (app_vec _ _)), app_vec_assoc. reflexivity.
Qed.

(** Pure appending functions, and their compositions. *)
Definition appending (f : BytecodeVector -> BytecodeVector) : Prop :=
  forall v, f v = app_vec v (f empty_vector).

Lemma appending_comp f g : appending f -> appending g -> appending (fun v => g (f v)).
Proof. intros Hf Hg v. rewrite (Hf v), Hg, app_vec_assoc, <- (Hg (f empty_vector)). reflexivity. Qed.
Lemma appending_op id o p : appending (fun v => push_op v id o p).
Proof. done. Qed.
Lemma appending_word w p : appending (fun v => push_word v w p).
Proof. done. Qed.
Lemma appending_all es : appending (fun v => push_all v es).
Proof. intros v. apply push_all_app. Qed.
Lemma appending_lift f : appending f -> appends (fun v => Ok (f v)).
Proof. intros Hf v. cbn. by rewrite Hf. Qed.

Create HintDb appends.
#[export] Hint Resolve appends_ret appending_op appending_word appending_all : appends.

Lemma appends_immediate z p : appends (addImmediateToBytecodes z p).
Proof.
  unfold addImmediateToBytecodes. destruct (_ =? _); [by apply appends_err|].
  destruct (_ =? _); apply appending_lift; [done|].
  apply (appending_comp (fun v => push_op v _ _ _) (fun v => push_word v _ _)); done.
Qed.

Lemma appends_templates args p : appends (emit_templates args p).
Proof.
  induction args as [|a args IH]; [apply appends_ret|].
  apply (appends_bind (emit_templates args p)); [done|]. apply appends_immediate.
Qed.

Section Lists.
Variable f : node -> BytecodeVector -> res error BytecodeVector.

Lemma appends_list cs : Forall (fun c => appends (f c)) cs -> appends (emit_list f cs).
Proof.
  induction 1 as [|c cs Hc _ IH]; [apply appends_ret|]. by apply (appends_bind (f c) (emit_list f cs)).
Qed.
Lemma appends_list_rev cs : Forall (fun c => appends (f c)) cs -> appends (emit_list_rev f cs).
Proof.
  induction 1 as [|c cs Hc _ IH]; [apply appends_ret|]. by apply (appends_bind (emit_list_rev f cs) (f c)).
Qed.
Lemma appends_pairs n cs : (List.length cs <= n)%nat ->
  Forall (fun c => appends (f c)) cs -> appends (emit_pairs f cs).
Proof.
  revert cs; induction n as [|n IH]; intros [|a [|b cs]] Hn H; simpl in Hn; try lia;
    try apply appends_ret; try done.
  apply Forall_cons_1 in H as [Ha H]. apply Forall_cons_1 in H as [Hb H].
  apply (appends_bind (f b) (fun v => v2 ← f a v; emit_pairs f cs v2)); [done|].
  apply (appends_bind (f a)); [done|]. apply IH; [lia|done].
Qed.
End Lists.

(** The fields of a vector after a copy. *)
Lemma code_push_all v es : code (push_all v es) = code v ++ es.
Proof.
  unfold push_all. revert v; induction es as [|e es IH]; intros v; simpl; [by rewrite app_nil_r|].
  rewrite IH. simpl. by rewrite <- app_assoc.
Qed.
Lemma maxStackDepth_push_all v es : maxStackDepth (push_all v es) = maxStackDepth v.
Proof. by rewrite push_all_app. Qed.
Lemma callDepth_push_all v es : callDepth (push_all v es) = callDepth v.
Proof. by rewrite push_all_app. Qed.

(** The words of the operations of a node. *)
Definition op_word (id : AsebaBytecodeId) (operand : Z) (p : SourcePos) : BytecodeElement :=
  element (Z.lor (AsebaBytecodeFromId id) operand) (row p).
Definition word_of (w : Z) (p : SourcePos) : BytecodeElement := element w (row p).

(** The code of a branch, from that of its parts. *)
Definition if_code (p : SourcePos) (op : AsebaBinaryOperator) (w : bool)
    (le re tb : list BytecodeElement) (fb : option (list BytecodeElement)) : list BytecodeElement :=
  let len l := Z.of_nat (List.length l) in
  le ++ re ++
  op_word ASEBA_BYTECODE_CONDITIONAL_BRANCH
    (Z.lor (binop_code op) (if w then Z.shiftl 1 ASEBA_IF_IS_WHEN_BIT else 0)) p ::
  word_of (2 + len tb + match fb with Some _ => 1 | None => 0 end) p ::
  tb ++
  match fb with
  | Some fb =>
      element (Z.lor (AsebaBytecodeFromId ASEBA_BYTECODE_JUMP) (len fb + 1))
        (match List.last (List.map Some tb) None with Some e => line e | None => row p end) :: fb
  | None => []
  end.

Lemma code_fit_if p op w l ble bre btb bfb v :
  code (fit_if p op w l ble bre btb bfb v)
  = code v ++ if_code p op w (code ble) (code bre) (code btb) (code <$> bfb).
Proof.
  unfold fit_if, if_code. cbv zeta. simpl code. destruct bfb as [bfb|]; simpl;
    rewrite ?code_push_all; simpl; rewrite ?code_push_all; simpl; rewrite ?code_push_all;
    rewrite <- ?app_assoc; simpl; rewrite ?app_nil_r; reflexivity.
Qed.

(** The code of a loop. *)
Definition while_code (p : SourcePos) (op : AsebaBinaryOperator) (le re b : list BytecodeElement)
  : list BytecodeElement :=
  let len l := Z.of_nat (List.length l) in
  le ++ re ++
  op_word ASEBA_BYTECODE_CONDITIONAL_BRANCH (binop_code op) p :: word_of (2 + len b + 1) p ::
  b ++ [op_word ASEBA_BYTECODE_JUMP (Z.land (u32 (- (len le + len re + len b + 2))) 0x0fff) p].

Lemma code_fit_while p op ble bre bb v :
  code (fit_while p op ble bre bb v) = code v ++ while_code p op (code ble) (code bre) (code bb).
Proof.
  unfold fit_while, while_code. cbv zeta. simpl.
  rewrite ?code_push_all; simpl; rewrite ?code_push_all.
  rewrite <- ?app_assoc; simpl. reflexivity.
Qed.

Lemma appending_if p op w l ble bre btb bfb : appending (fit_if p op w l ble bre btb bfb).
Proof.
  intros v. assert (forall v, fit_if p op w l ble bre btb bfb v
    = mkVector (code (fit_if p op w l ble bre btb bfb v)) (maxStackDepth v) (callDepth v) l) as H.
  { intros v'. unfold fit_if. cbv zeta. unfold set_lastLine. f_equal;
      destruct bfb; simpl; rewrite ?maxStackDepth_push_all, ?callDepth_push_all; simpl;
      rewrite ?maxStackDepth_push_all, ?callDepth_push_all; simpl;
      rewrite ?maxStackDepth_push_all, ?callDepth_push_all; reflexivity. }
  rewrite (H v), (H empty_vector), !code_fit_if. unfold app_vec. simpl. f_equal.
  unfold if_code. by destruct (code ble), (code bre).
Qed.

Lemma appending_while p op ble bre bb : appending (fit_while p op ble bre bb).
Proof.
  intros v. assert (forall v, fit_while p op ble bre bb v
    = mkVector (code (fit_while p op ble bre bb v)) (maxStackDepth v) (callDepth v) (u16 (row p))) as H.
  { intros v'. unfold fit_while. cbv zeta. unfold push_op at 1, push_back. f_equal;
      simpl; rewrite ?maxStackDepth_push_all, ?callDepth_push_all; simpl;
      rewrite ?maxStackDepth_push_all, ?callDepth_push_all; reflexivity. }
  rewrite (H v), (H empty_vector), !code_fit_while.
  unfold app_vec. simpl. f_equal. unfold while_code. by destruct (code ble), (code bre).
Qed.

Lemma push_op_app v id o p : push_op v id o p = app_vec v (push_op empty_vector id o p).
Proof. done. Qed.
Lemma push_word_app v w p : push_word v w p = app_vec v (push_word empty_vector w p).
Proof. done. Qed.

Lemma appends_native_arg p t a s : appends (emit_native_arg p t a s).
Proof.
  intros v. unfold emit_native_arg. cbv zeta.
  rewrite (appends_immediate (s32 a) p (push_op (push_word _ _ _) _ _ _)).
  rewrite (appends_immediate (s32 a) p (push_op (push_word (push_op (push_op (push_op (push_op empty_vector
    _ _ _) _ _ _) _ _ _) _ _ _) _ _) _ _ _)).
  destruct (addImmediateToBytecodes (s32 a) p empty_vector) as [e|err| | |]; try done.
  cbn [mbind res_bind]. f_equal. rewrite !(push_op_app (app_vec _ _)).
  rewrite (push_op_app (push_word _ _ _)), (push_word_app (push_op _ _ _ _)),
    !(push_op_app (push_op _ _ _ _)), (push_op_app v).
  rewrite !app_vec_assoc. done.
Qed.

(** [emit] appends to its vector. *)
Lemma emit_appends n : appends (emit n).
Proof.
  induction n as [k p cs IH] using node_rose_ind.
  destruct k; cbn [emit]; try (by apply appends_err); try (by apply appends_list);
    try (by eapply appends_pairs); try apply appends_immediate; try (by apply appending_lift).
  3: { apply (appends_bind (emit_list emit cs)); [by apply appends_list|]. apply appending_lift.
       intros v. unfold push_op, push_word. rewrite !(push_back_app (push_back _ _)), (push_back_app v).
       by rewrite !app_vec_assoc. }
  all: try (destruct cs as [|c0 cs]; [by apply appends_err|apply Forall_cons_1 in IH as [H0 IH]]).
  all: try (apply (appends_bind (emit c0)); [done|by apply appending_lift]).
  all: try (apply appends_const; intros _; apply (appends_bind (emit c0)); [done|]).
  all: try (apply appending_lift; intros v; unfold push_op, push_word;
       rewrite !(push_back_app (push_back _ _)), (push_back_app v); by rewrite !app_vec_assoc).
  all: try apply appends_native_arg.
  - destruct cs as [|c1 [|c2 cs]]; try (by apply appends_err).
    do 3 (apply appends_const; intros ?). destruct cs as [|c3 [|]]; try (by apply appends_err).
    + apply appending_lift, appending_if.
    + apply appends_const; intros ?. apply appending_lift, appending_if.
  - destruct cs as [|c1 [|c2 cs]]; try (by apply appends_err).
    do 3 (apply appends_const; intros ?). apply appending_lift, appending_while.
  - destruct cs as [|c1 cs]; [by apply appends_err|]. apply Forall_cons_1 in IH as [H1 _].
    apply (appends_bind (emit c0)); [done|]. apply (appends_bind (emit c1)); [done|]. by apply appending_lift.
  - apply (appends_bind (emit_templates templateArgs p)); [apply appends_templates|].
    apply (appends_bind (emit_list_rev emit cs)); [by apply appends_list_rev|]. by apply appending_lift.
Qed.
