(* ===== verification/CodeSpec.v ===== *)
(** * What the code generator promises

    The code of a statement, read back by the disassembler, is the sequence of
    instructions of the statement; its jumps land on instructions; the code of
    an expression is its reverse Polish notation and stays within the stack
    depth computed for it. *)
From Stdlib Require Import ZArith Lia List String.
From stdpp Require Import base list list_monad.
From S2P Require Import Prelude Bits Errors Consts Disasm Tree OrdMap Lookup Emit Fine.

Local Open Scope Z_scope.

(** ** Words *)

Lemma lor_add x o : 0 <= o < 4096 -> Z.lor (Z.shiftl x 12) o = x * 4096 + o.
Proof. intros Ho. by apply (lor_shift 12). Qed.

Lemma bytecode_id_range b : 0 <= bytecode_id b <= 14.
Proof. destruct b; simpl; lia. Qed.

(** The word of an operation: the identifier above 12 bits of operand. *)
Lemma op_word_bytecode id o p : 0 <= o < 4096 -> bytecode (op_word id o p) = bytecode_id id * 4096 + o.
Proof.
  intros Ho. unfold op_word, element, AsebaBytecodeFromId. simpl. rewrite lor_add by done.
  pose proof (bytecode_id_range id). apply u16_id. lia.
Qed.

Lemma word_id id o : 0 <= o < 4096 -> Z.shiftr (bytecode_id id * 4096 + o) 12 = bytecode_id id.
Proof. intros Ho. rewrite Z.shiftr_div_pow2 by lia. change (2 ^ 12) with 4096. rewrite Z.div_add_l by lia.
  rewrite Z.div_small by lia. lia. Qed.

Lemma word_low12 i o : 0 <= o < 4096 -> low12 (i * 4096 + o) = o.
Proof.
  intros Ho. unfold low12. change 0xfff with (Z.ones 12). rewrite Z.land_ones by lia.
  change (2 ^ 12) with 4096. rewrite Z.add_comm, Z_mod_plus_full. apply Z.mod_small. lia.
Qed.

Lemma word_low8 i o : Z.land (i * 4096 + o) 0xff = o mod 256.
Proof.
  change 0xff with (Z.ones 8). rewrite Z.land_ones by lia. change (2 ^ 8) with 256.
  replace (i * 4096 + o) with (o + (i * 16) * 256) by lia. apply Z_mod_plus_full.
Qed.

Lemma word_signed12 i o : 0 <= o < 4096 -> signed12 (i * 4096 + o) = if o <? 2048 then o else o - 4096.
Proof.
  intros Ho. unfold signed12, s16. rewrite Z.shiftl_mul_pow2, Z.shiftr_div_pow2 by lia. change (2 ^ 4) with 16.
  replace ((i * 4096 + o) * 16 + 32768) with (o * 16 + 32768 + i * 65536) by lia. rewrite Z_mod_plus_full.
  destruct (Z.ltb_spec o 2048).
  - rewrite Z.mod_small by lia. replace (o * 16 + 32768 - 32768) with (o * 16) by lia. apply Z.div_mul. lia.
  - replace (o * 16 + 32768) with ((o - 4096) * 16 + 32768 + 1 * 65536) by lia. rewrite Z_mod_plus_full.
    rewrite Z.mod_small by lia. replace ((o - 4096) * 16 + 32768 - 32768) with ((o - 4096) * 16) by lia.
    apply Z.div_mul. lia.
Qed.

(** The 12-bit encoding of a small signed number is read back. *)
Lemma signed12_mod i z : -2048 <= z < 2048 -> signed12 (i * 4096 + z mod 4096) = z.
Proof.
  intros Hz. pose proof (Z.mod_pos_bound z 4096 ltac:(lia)).
  rewrite word_signed12 by done. destruct (Z.lt_ge_cases z 0).
  - assert (z mod 4096 = z + 4096) as -> by (symmetry; apply (Z.mod_unique _ _ (-1)); lia).
    destruct (Z.ltb_spec (z + 4096) 2048); lia.
  - rewrite Z.mod_small by lia. destruct (Z.ltb_spec z 2048); lia.
Qed.

(** ** The instructions of a node *)

Definition asm_immediate (z : Z) : list instr :=
  if Z.shiftr (Z.abs z) 11 =? 0 then [SMALL_IMMEDIATE z] else [LARGE_IMMEDIATE (s16 z)].

Fixpoint asm_pairs (asm : node -> list instr) (cs : list node) : list instr :=
  match cs with
  | store :: value :: cs' => asm value ++ asm store ++ asm_pairs asm cs'
  | _ => []
  end.

Definition asm_if (op : AsebaBinaryOperator) (w : bool) (l r t : list instr) (f : option (list instr)) : list instr :=
  l ++ r ++ CONDITIONAL_BRANCH (binop_code op) w (2 + code_size t + match f with Some _ => 1 | None => 0 end) ::
  t ++ match f with Some f => JUMP (code_size f + 1) :: f | None => [] end.

Definition asm_while (op : AsebaBinaryOperator) (l r b : list instr) : list instr :=
  l ++ r ++ CONDITIONAL_BRANCH (binop_code op) false (2 + code_size b + 1) ::
  b ++ [JUMP (- (code_size l + code_size r + 2 + code_size b))].

Fixpoint asm (n : node) : list instr :=
  let 'Node k _ cs := n in
  match k, cs with
  | BlockNode, _ => mjoin (List.map asm cs)
  | AssignmentNode, _ => asm_pairs asm cs
  | FoldedIfWhenNode op w _, c0 :: c1 :: c2 :: rest =>
      asm_if op w (asm c0) (asm c1) (asm c2) (match rest with c3 :: _ => Some (asm c3) | [] => None end)
  | FoldedWhileNode op, c0 :: c1 :: c2 :: _ => asm_while op (asm c0) (asm c1) (asm c2)
  | EmitNode event a s, _ => mjoin (List.map asm cs) ++ [EMIT event (u16 a) (u16 s)]
  | CallSubNode _ id, _ => [SUB_CALL id]
  | BinaryArithmeticNode op, c0 :: c1 :: _ => asm c0 ++ asm c1 ++ [BINARY_ARITHMETIC (binop_code op)]
  | UnaryArithmeticNode op, c0 :: _ => asm c0 ++ [UNARY_ARITHMETIC (unop_code op)]
  | ImmediateNode v, _ => asm_immediate v
  | LoadNode a, _ => [LOAD a]
  | StoreNode a, _ => [STORE a]
  | ArrayWriteNode a s _, c0 :: _ => asm c0 ++ [STORE_INDIRECT a (u16 s)]
  | ArrayReadNode a s _, c0 :: _ => asm c0 ++ [LOAD_INDIRECT a (u16 s)]
  | LoadNativeArgNode t a s _, c0 :: _ =>
      asm c0 ++ [STORE t; LOAD t; LOAD t; LOAD_INDIRECT a (u16 s); STORE t] ++ asm_immediate (s32 a) ++
      [BINARY_ARITHMETIC (binop_code ASEBA_OP_ADD)]
  | CallNode f args, _ =>
      mjoin (rev (List.map (fun a => asm_immediate (s32 a)) args)) ++ mjoin (rev (List.map asm cs)) ++ [NATIVE_CALL f]
  | ReturnNode, _ => [STOP]
  | _, _ => []
  end.

(** The operands fit in their fields: 12 bits for addresses and identifiers, 12
    signed bits for jumps, 16 signed bits for branches. *)
Definition in_12 (z : Z) : bool := (0 <=? z) && (z <? 4096).

Fixpoint encodable (n : node) : bool :=
  let 'Node k _ cs := n in
  forallb encodable cs &&
  match k, cs with
  | FoldedIfWhenNode _ _ _, _ :: _ :: c2 :: rest =>
      (code_size (asm c2) <? 32765) && match rest with c3 :: _ => code_size (asm c3) <? 2047 | [] => true end
  | FoldedWhileNode _, c0 :: c1 :: c2 :: _ => code_size (asm c0) + code_size (asm c1) + code_size (asm c2) <? 2047
  | EmitNode event _ _, _ => in_12 event
  | CallSubNode _ id, _ => in_12 id
  | LoadNode a, _ | StoreNode a, _ | ArrayWriteNode a _ _, _ | ArrayReadNode a _ _, _ => in_12 a
  | LoadNativeArgNode t a _ _, _ => in_12 t && in_12 a
  | CallNode f _, _ => in_12 f
  | _, _ => true
  end.

(** ** Reading the code back *)

Definition reads (l : list BytecodeElement) (il : list instr) : Prop :=
  disassemble (List.map bytecode l) = Ok il.

Lemma reads_app l1 l2 i1 i2 : reads l1 i1 -> reads l2 i2 -> reads (l1 ++ l2) (i1 ++ i2).
Proof. unfold reads. rewrite map_app. apply disassemble_app. Qed.

Lemma reads_size l il : reads l il -> code_size il = Z.of_nat (List.length l).
Proof. intros H. apply disassemble_size in H. by rewrite length_map in H. Qed.

(** One instruction, with its operand words. *)
Lemma reads_instr e l i :
  decode (bytecode e) (List.map bytecode l) = Some i -> S (List.length l) = Z.to_nat (instr_size i) ->
  reads (e :: l) [i].
Proof.
  intros Hd Hl. unfold reads, disassemble. cbn [List.map disassemble_from]. rewrite Hd. cbn.
  assert (Nat.pred (Z.to_nat (instr_size i)) = List.length (List.map bytecode l)) as -> by (rewrite length_map; lia).
  assert (forall l : list Z, disassemble_from (List.length l) l = Ok []) as -> by (by induction l0). done.
Qed.

Lemma decode_op id o p l :
  0 <= o < 4096 ->
  decode (bytecode (op_word id o p)) l =
    let w := bytecode_id id * 4096 + o in
    match id, l with
    | ASEBA_BYTECODE_STOP, _ => Some STOP
    | ASEBA_BYTECODE_SMALL_IMMEDIATE, _ => Some (SMALL_IMMEDIATE (signed12 w))
    | ASEBA_BYTECODE_LARGE_IMMEDIATE, a :: _ => Some (LARGE_IMMEDIATE (s16 a))
    | ASEBA_BYTECODE_LOAD, _ => Some (LOAD o)
    | ASEBA_BYTECODE_STORE, _ => Some (STORE o)
    | ASEBA_BYTECODE_LOAD_INDIRECT, a :: _ => Some (LOAD_INDIRECT o a)
    | ASEBA_BYTECODE_STORE_INDIRECT, a :: _ => Some (STORE_INDIRECT o a)
    | ASEBA_BYTECODE_UNARY_ARITHMETIC, _ => Some (UNARY_ARITHMETIC (o mod 256))
    | ASEBA_BYTECODE_BINARY_ARITHMETIC, _ => Some (BINARY_ARITHMETIC (o mod 256))
    | ASEBA_BYTECODE_JUMP, _ => Some (JUMP (signed12 w))
    | ASEBA_BYTECODE_CONDITIONAL_BRANCH, a :: _ =>
        Some (CONDITIONAL_BRANCH (o mod 256) (negb (Z.land w (Z.shiftl 1 ASEBA_IF_IS_WHEN_BIT) =? 0)) (s16 a))
    | ASEBA_BYTECODE_EMIT, a :: b :: _ => Some (EMIT o a b)
    | ASEBA_BYTECODE_NATIVE_CALL, _ => Some (NATIVE_CALL o)
    | ASEBA_BYTECODE_SUB_CALL, _ => Some (SUB_CALL o)
    | ASEBA_BYTECODE_SUB_RET, _ => Some SUB_RET
    | _, _ => None
    end.
Proof.
  intros Ho. rewrite op_word_bytecode by done. unfold decode.
  rewrite word_id, bytecode_of_id_inv, word_low12, word_low8 by done.
  destruct id; try done; by destruct l as [|? [|]].
Qed.

(** [f] appends code that reads as the instructions [il]. *)
Definition emits (f : BytecodeVector -> res error BytecodeVector) (il : list instr) : Prop :=
  forall v v', f v = Ok v' -> exists es, code v' = code v ++ es /\ reads es il.

Lemma emits_ret : emits (fun v => Ok v) [].
Proof. intros v v' [= <-]. exists []. by rewrite app_nil_r. Qed.

Lemma emits_bind f g i1 i2 : emits f i1 -> emits g i2 -> emits (fun v => v' ← f v; g v') (i1 ++ i2).
Proof.
  intros Hf Hg v v' H. inv_ok. destruct (Hf _ _ H) as (e1 & H1 & R1), (Hg _ _ H0) as (e2 & H2 & R2).
  exists (e1 ++ e2). split; [by rewrite H2, H1, app_assoc|by apply reads_app].
Qed.

Lemma emits_fail r il : (forall v : BytecodeVector, r <> Ok v) -> emits (fun _ => r) il.
Proof. intros H v v' Hr. by apply H in Hr. Qed.

Lemma emits_guard (m : res error unit) f il : emits f il -> emits (fun v => _ ← m; f v) il.
Proof. intros Hf v v' H. inv_ok. by apply Hf. Qed.

(** Pure steps: one operation, alone or with operand words. *)
Lemma emits_code f il es :
  (forall v, code (f v) = code v ++ es) -> reads es il -> emits (fun v => Ok (f v)) il.
Proof. intros Hf Hr v v' [= <-]. eauto. Qed.

Lemma emits_op id o p i :
  0 <= o < 4096 -> decode (bytecode (op_word id o p)) [] = Some i -> instr_size i = 1 ->
  emits (fun v => Ok (push_op v id o p)) [i].
Proof.
  intros Ho Hd Hs. eapply emits_code; [done|]. apply reads_instr; [done|]. by rewrite Hs.
Qed.

Lemma emits_op2 id o a p i :
  0 <= o < 4096 -> decode (bytecode (op_word id o p)) [u16 a] = Some i -> instr_size i = 2 ->
  emits (fun v => Ok (push_word (push_op v id o p) a p)) [i].
Proof.
  intros Ho Hd Hs. eapply (emits_code _ _ [op_word id o p; word_of a p]).
  - intros v. simpl. by rewrite <- app_assoc.
  - apply reads_instr; [done|]. by rewrite Hs.
Qed.

Lemma emits_immediate z p : emits (addImmediateToBytecodes z p) (asm_immediate z).
Proof.
  unfold addImmediateToBytecodes, asm_immediate. destruct (z =? -2147483648); [by apply emits_fail|].
  assert (Z.land (u32 z) 0xfff = z mod 4096) as Hz.
  { change 0xfff with (Z.ones 12). rewrite Z.land_ones by lia. unfold u32. change (2 ^ 12) with 4096.
    rewrite Z.mod_mod_divide; [done|by exists 1048576]. }
  destruct (_ =? 0) eqn:E; b2p.
  - rewrite Z.shiftr_div_pow2 in E by lia. change (2 ^ 11) with 2048 in E.
    apply Z.div_small_iff in E; [|lia].
    pose proof (Z.mod_pos_bound z 4096 ltac:(lia)). rewrite Hz. apply emits_op; [done| |done].
    rewrite decode_op by done. cbn. rewrite signed12_mod by lia. done.
  - apply emits_op2; [lia| |done]. rewrite decode_op by lia. cbn. by rewrite s16_u16.
Qed.

Section Lists.
Variable f : node -> BytecodeVector -> res error BytecodeVector.

Lemma emits_list cs : Forall (fun c => emits (f c) (asm c)) cs -> emits (emit_list f cs) (mjoin (List.map asm cs)).
Proof.
  induction 1 as [|c cs Hc _ IH]; [apply emits_ret|]. by apply (emits_bind (f c) (emit_list f cs)).
Qed.
Lemma emits_list_rev cs :
  Forall (fun c => emits (f c) (asm c)) cs -> emits (emit_list_rev f cs) (mjoin (rev (List.map asm cs))).
Proof.
  induction 1 as [|c cs Hc _ IH]; [apply emits_ret|]. simpl. rewrite join_app. simpl. rewrite app_nil_r.
  by apply (emits_bind (emit_list_rev f cs) (f c)).
Qed.
Lemma emits_pairs n cs : (List.length cs <= n)%nat ->
  Forall (fun c => emits (f c) (asm c)) cs -> emits (emit_pairs f cs) (asm_pairs asm cs).
Proof.
  revert cs; induction n as [|n IH]; intros [|a [|b cs]] Hn H; simpl in Hn; try lia;
    try apply emits_ret; try by apply emits_fail.
  apply Forall_cons_1 in H as [Ha H]. apply Forall_cons_1 in H as [Hb H]. cbn [asm_pairs].
  apply (emits_bind (f b) (fun v => v2 ← f a v; emit_pairs f cs v2)); [done|].
  apply (emits_bind (f a)); [done|]. apply IH; [lia|done].
Qed.
End Lists.

Lemma emits_templates args p :
  emits (emit_templates args p) (mjoin (rev (List.map (fun a => asm_immediate (s32 a)) args))).
Proof.
  induction args as [|a args IH]; [apply emits_ret|]. simpl. rewrite join_app. simpl. rewrite app_nil_r.
  apply (emits_bind (emit_templates args p)); [done|]. apply emits_immediate.
Qed.

(** The code of a part, emitted into a vector of its own. *)
Lemma emits_part f il v : emits f il -> f empty_vector = Ok v -> reads (code v) il.
Proof. intros Hf H. apply Hf in H as (es & -> & Hr). exact Hr. Qed.

Lemma reads_branch op (w : bool) d p : -32768 <= d < 32768 ->
  reads [op_word ASEBA_BYTECODE_CONDITIONAL_BRANCH
           (Z.lor (binop_code op) (if w then Z.shiftl 1 ASEBA_IF_IS_WHEN_BIT else 0)) p; word_of d p]
        [CONDITIONAL_BRANCH (binop_code op) w d].
Proof.
  intros Hd. apply reads_instr; [|done]. rewrite decode_op by (destruct op, w; vm_compute; split; congruence).
  cbn [List.map word_of element bytecode]. rewrite s16_u16, s16_id by done.
  destruct op, w; reflexivity.
Qed.

Lemma reads_jump o l d : 0 <= o < 4096 -> signed12 (bytecode_id ASEBA_BYTECODE_JUMP * 4096 + o) = d ->
  reads [element (Z.lor (AsebaBytecodeFromId ASEBA_BYTECODE_JUMP) o) l] [JUMP d].
Proof.
  intros Ho <-. apply reads_instr; [|done].
  change (element (Z.lor (AsebaBytecodeFromId ASEBA_BYTECODE_JUMP) o) l)
    with (mkElement (bytecode (op_word ASEBA_BYTECODE_JUMP o (mkPos l 0 0 true))) (u16 l)).
  cbn [bytecode]. by rewrite decode_op.
Qed.

Lemma reads_cons a l i il : reads [a] [i] -> reads l il -> reads (a :: l) (i :: il).
Proof. apply reads_app. Qed.
Lemma reads_cons2 a b l i il : reads [a; b] [i] -> reads l il -> reads (a :: b :: l) (i :: il).
Proof. apply (reads_app [a; b] l [i]). Qed.

Lemma reads_if op w p le re tb fb il ir it ifb :
  reads le il -> reads re ir -> reads tb it -> code_size it < 32765 ->
  match fb, ifb with
  | Some fb, Some i => reads fb i /\ code_size i < 2047
  | None, None => True
  | _, _ => False
  end ->
  reads (if_code p op w le re tb fb) (asm_if op w il ir it ifb).
Proof.
  intros Hl Hr Ht Hst Hf. pose proof (reads_size _ _ Ht) as Hs. pose proof (code_size_nonneg it).
  unfold if_code, asm_if. cbv zeta. rewrite <- Hs.
  apply reads_app; [done|]. apply reads_app; [done|].
  destruct fb as [fb|], ifb as [i|]; try done.
  - destruct Hf as [Hf Hsf]. pose proof (code_size_nonneg i). pose proof (reads_size _ _ Hf) as Hs'.
    rewrite <- Hs'. apply reads_cons2; [apply reads_branch; lia|]. apply reads_app; [done|].
    apply reads_cons; [|done]. apply reads_jump; [lia|]. rewrite word_signed12 by lia.
    destruct (Z.ltb_spec (code_size i + 1) 2048); lia.
  - apply reads_cons2; [apply reads_branch; lia|]. by apply reads_app.
Qed.

Lemma reads_while op p le re b il ir ib :
  reads le il -> reads re ir -> reads b ib -> code_size il + code_size ir + code_size ib < 2047 ->
  reads (while_code p op le re b) (asm_while op il ir ib).
Proof.
  intros Hl Hr Hb Hs. pose proof (code_size_nonneg il). pose proof (code_size_nonneg ir).
  pose proof (code_size_nonneg ib). unfold while_code, asm_while. cbv zeta.
  rewrite <- (reads_size _ _ Hl), <- (reads_size _ _ Hr), <- (reads_size _ _ Hb).
  apply reads_app; [done|]. apply reads_app; [done|].
  rewrite <- (Z.lor_0_r (binop_code op)) at 1.
  apply reads_cons2; [apply (reads_branch op false); lia|]. apply reads_app; [done|].
  set (d := code_size il + code_size ir + code_size ib + 2).
  assert (Z.land (u32 (- d)) 0xfff = (- d) mod 4096) as ->.
  { change 0xfff with (Z.ones 12). rewrite Z.land_ones by lia. unfold u32. change (2 ^ 12) with 4096.
    rewrite Z.mod_mod_divide; [done|by exists 1048576]. }
  apply reads_jump; [apply Z.mod_pos_bound; lia|]. rewrite signed12_mod by (subst d; lia). subst d. lia.
Qed.

Lemma emits_native_arg p t a s : 0 <= t < 4096 -> 0 <= a < 4096 ->
  emits (emit_native_arg p t a s)
    ([STORE t; LOAD t; LOAD t; LOAD_INDIRECT a (u16 s); STORE t] ++ asm_immediate (s32 a) ++
     [BINARY_ARITHMETIC (binop_code ASEBA_OP_ADD)]).
Proof.
  intros Ht Ha v v' H. unfold emit_native_arg in H. cbv zeta in H. inv_ok.
  apply (emits_immediate (s32 a) p) in H as (es & He & Hr).
  exists (op_word ASEBA_BYTECODE_STORE t p :: op_word ASEBA_BYTECODE_LOAD t p :: op_word ASEBA_BYTECODE_LOAD t p ::
          op_word ASEBA_BYTECODE_LOAD_INDIRECT a p :: word_of s p :: op_word ASEBA_BYTECODE_STORE t p ::
          es ++ [op_word ASEBA_BYTECODE_BINARY_ARITHMETIC (binop_code ASEBA_OP_ADD) p]).
  split.
  - simpl. rewrite He. simpl. rewrite <- !app_assoc. reflexivity.
  - cbn [app]. repeat first
      [ apply reads_cons2; [apply reads_instr; [rewrite decode_op by lia; reflexivity|done]|]
      | apply reads_cons; [apply reads_instr; [rewrite decode_op by lia; reflexivity|done]|] ].
    apply reads_app; [done|]. apply reads_instr; [|done]. by rewrite decode_op by (simpl; lia).
Qed.

Lemma emits_binop op p :
  emits (fun v => Ok (push_op v ASEBA_BYTECODE_BINARY_ARITHMETIC (binop_code op) p)) [BINARY_ARITHMETIC (binop_code op)].
Proof.
  apply emits_op; [destruct op; simpl; lia| |done]. rewrite decode_op by (destruct op; simpl; lia). by destruct op.
Qed.
Lemma emits_unop op p :
  emits (fun v => Ok (push_op v ASEBA_BYTECODE_UNARY_ARITHMETIC (unop_code op) p)) [UNARY_ARITHMETIC (unop_code op)].
Proof.
  apply emits_op; [destruct op; simpl; lia| |done]. rewrite decode_op by (destruct op; simpl; lia). by destruct op.
Qed.

Lemma emit_emits n : encodable n = true -> emits (emit n) (asm n).
Proof.
  induction n as [k p cs IH] using node_rose_ind. intros He.
  cbn [encodable] in He. apply andb_true_iff in He as [Hcs He].
  assert (Forall (fun c => emits (emit c) (asm c)) cs) as Hall.
  { apply forallb_forall in Hcs || rewrite forallb_forall in Hcs. rewrite Forall_forall in *. intros c Hc.
    apply IH; [done|]. apply Hcs. by apply list_elem_of_In. }
  clear IH Hcs.
  destruct k; cbn [emit asm]; try (by apply emits_fail); try (by apply emits_list);
    try (by eapply emits_pairs); try apply emits_immediate; unfold in_12 in He; b2p.
  all: try (apply emits_op; [lia|rewrite decode_op by lia; reflexivity|done]).
  all: try (destruct cs as [|c0 cs]; [by apply emits_fail|]; apply Forall_cons_1 in Hall as [Hc0 Hall]).
  all: try (apply emits_guard).
  all: try (apply (emits_bind (emit c0)); [done|];
            first [ apply emits_unop
                  | apply emits_op2; [lia|rewrite decode_op by lia; reflexivity|done]
                  | apply emits_native_arg; lia ]).
  - destruct cs as [|c1 [|c2 cs]]; try (by apply emits_fail). split_forall.
    intros v v' Hok. inv_ok. b2p.
    destruct cs as [|c3 [|]]; inv_ok; rewrite code_fit_if; eexists; (split; [reflexivity|]).
    + apply reads_if; try (by eapply emits_part); [lia|done].
    + split_forall. b2p. apply (reads_if _ _ _ _ _ _ (Some _)); try (by eapply emits_part); [lia|].
      split; [by eapply emits_part|lia].
  - destruct cs as [|c1 [|c2 cs]]; try (by apply emits_fail). split_forall.
    intros v v' Hok. inv_ok. b2p. rewrite code_fit_while. eexists. split; [reflexivity|].
    apply reads_while; try (by eapply emits_part). lia.
  - apply (emits_bind (emit_list emit cs)); [by apply emits_list|].
    apply (emits_code _ _ [op_word ASEBA_BYTECODE_EMIT eventId p; word_of arrayAddr p; word_of arraySize p]).
    + intros v. simpl. by rewrite <- !app_assoc.
    + apply reads_instr; [|done]. by rewrite decode_op by lia.
  - destruct cs as [|c1 cs]; [by apply emits_fail|]. split_forall.
    apply (emits_bind (emit c0)); [done|]. apply (emits_bind (emit c1)); [done|]. apply emits_binop.
  - apply (emits_bind (emit_templates templateArgs p)); [apply emits_templates|].
    apply (emits_bind (emit_list_rev emit cs)); [by apply emits_list_rev|].
    apply emits_op; [lia| |done]. by rewrite decode_op by lia.
Qed.

(** C6: the code emitted for a statement whose operands and branch distances fit
    their fields ([encodable]: addresses, event, subroutine and function numbers
    in 12 bits, distances in the 12 bits of a jump and the 16 bits of a
    conditional branch), read by the disassembler, is the sequence of
    instructions of the statement: every instruction starts where the previous
    one ends, no operand spills into the instruction identifier, and negative
    immediates and backward jumps keep their values. *)
Theorem emit_disassembles n v :
  encodable n = true -> emit n empty_vector = Ok v ->
  disassemble (List.map bytecode (code v)) = Ok (asm n).
Proof. intros He H. by eapply emits_part; [apply emit_emits|]. Qed.

(** ** Control flow *)

(** The position [k] is that of an instruction of [il], or its end. *)
Definition boundary (il : list instr) (k : Z) : Prop := exists pre suf, il = pre ++ suf /\ code_size pre = k.

(** What an instruction adds to the program counter when it branches. *)
Definition branch_offset (i : instr) : option Z :=
  match i with JUMP d => Some d | CONDITIONAL_BRANCH _ _ d => Some d | _ => None end.

Definition branches_land (il : list instr) : Prop :=
  forall pre i suf d, il = pre ++ i :: suf -> branch_offset i = Some d -> boundary il (code_size pre + d).

Lemma boundary_l a b k : boundary a k -> boundary (a ++ b) k.
Proof. intros (p & s & -> & Hk). exists p, (s ++ b). by rewrite app_assoc. Qed.
Lemma boundary_r a b k : boundary b k -> boundary (a ++ b) (code_size a + k).
Proof. intros (p & s & -> & Hk). exists (a ++ p), s. rewrite app_assoc, code_size_app, Hk. done. Qed.
Lemma boundary_end a : boundary a (code_size a).
Proof. exists a, []. by rewrite app_nil_r. Qed.
Lemma boundary_start a : boundary a 0.
Proof. by exists [], a. Qed.

(** Where an instruction stands in a concatenation. *)
Lemma app_split {A} (a b p : list A) i s :
  a ++ b = p ++ i :: s -> (exists s', a = p ++ i :: s' /\ s = s' ++ b) \/ (exists p', p = a ++ p' /\ b = p' ++ i :: s).
Proof.
  revert p; induction a as [|x a IH]; intros p H; [right; by exists p|].
  destruct p as [|y p]; injection H as -> H.
  - left. by exists a.
  - destruct (IH p H) as [(s' & -> & ->)|(p' & -> & ->)]; [left; by exists s'|right; by exists p'].
Qed.

Lemma branches_app a b : branches_land a -> branches_land b -> branches_land (a ++ b).
Proof.
  intros Ha Hb p i s d H Hd. apply app_split in H as [(s' & -> & ->)|(p' & -> & ->)].
  - apply boundary_l. by eapply Ha.
  - rewrite code_size_app, <- Z.add_assoc. apply boundary_r. by eapply Hb.
Qed.

Lemma branches_plain i : branch_offset i = None -> branches_land [i].
Proof.
  intros Hi [|x [|]] j s d H; try discriminate. injection H as <- _. congruence.
Qed.
Lemma branches_nil : branches_land [].
Proof. intros [|? ?] j s d H; discriminate. Qed.

Lemma branches_mjoin l : Forall branches_land l -> branches_land (mjoin l).
Proof. induction 1; simpl; [apply branches_nil|by apply branches_app]. Qed.

(** A branch in the middle of code, whose target is a boundary of the whole. *)
Lemma branches_insert a i d b :
  branches_land a -> branches_land b -> branch_offset i = Some d -> boundary (a ++ i :: b) (code_size a + d) ->
  branches_land (a ++ i :: b).
Proof.
  intros Ha Hb Hi Hbd p j s d' H Hd. apply app_split in H as [(s' & -> & ->)|(p' & -> & H)].
  - apply boundary_l. by eapply Ha.
  - destruct p' as [|x p'].
    + injection H as <- ->. rewrite app_nil_r. congruence.
    + injection H as <- ->. rewrite (app_assoc a [i] (p' ++ j :: s) : a ++ i :: p' ++ j :: s = _).
      rewrite code_size_app. simpl.
      replace (code_size a + (instr_size i + code_size p') + d') with (code_size (a ++ [i]) + (code_size p' + d'))
        by (rewrite code_size_app; simpl; lia).
      apply boundary_r. by eapply Hb.
Qed.

Lemma branches_if op w l r t f :
  branches_land l -> branches_land r -> branches_land t ->
  match f with Some f => branches_land f | None => True end -> branches_land (asm_if op w l r t f).
Proof.
  intros Hl Hr Ht Hf. unfold asm_if. apply branches_app; [done|]. apply branches_app; [done|].
  eapply (branches_insert []); [apply branches_nil| |reflexivity|].
  - destruct f as [f|]; [|rewrite app_nil_r; done].
    apply (branches_insert t (JUMP (code_size f + 1)) (code_size f + 1) f); try done.
    exists (t ++ JUMP (code_size f + 1) :: f), []. rewrite app_nil_r. split; [done|].
    rewrite code_size_app. simpl. lia.
  - simpl. destruct f as [f|].
    + eexists (_ :: t ++ [_]), f. split; [simpl; rewrite <- app_assoc; reflexivity|].
      simpl. rewrite code_size_app. simpl. lia.
    + eexists (_ :: t), []. split; [reflexivity|]. simpl. lia.
Qed.

Lemma branches_while op l r b :
  branches_land l -> branches_land r -> branches_land b -> branches_land (asm_while op l r b).
Proof.
  intros Hl Hr Hb. unfold asm_while. set (c := CONDITIONAL_BRANCH _ _ _). set (j := JUMP _).
  assert (l ++ r ++ c :: b ++ [j] = (l ++ r ++ c :: b) ++ [j]) as Hj by (by rewrite <- !app_assoc).
  assert (boundary (l ++ r ++ c :: b ++ [j]) (code_size l + code_size r + (2 + code_size b + 1))) as Hc.
  { eexists _, []. rewrite app_nil_r. split; [reflexivity|]. rewrite !code_size_app. simpl.
    rewrite code_size_app. simpl. lia. }
  (* the part before the branch, the branch, the body, the jump *)
  assert (branches_land ((l ++ r) ++ c :: (b ++ [j]))) as H; [|by rewrite <- app_assoc in H].
  intros p i s d H Hd. apply app_split in H as [(s' & H & ->)|(p' & -> & H)].
  - apply boundary_l. eapply (branches_app l r); eauto.
  - rewrite <- app_assoc. destruct p' as [|x p'].
    + injection H as <- <-. injection Hd as <-. rewrite app_nil_r, code_size_app. exact Hc.
    + injection H as <- H. apply app_split in H as [(s' & H & ->)|([|y p''] & -> & H)].
      * assert (boundary b (code_size p' + d)) as (p1 & s1 & E & Hs) by (by eapply Hb).
        exists (l ++ r ++ c :: p1), (s1 ++ [j]). rewrite E, <- !app_assoc. simpl. rewrite <- ?app_assoc.
        split; [done|]. rewrite ?code_size_app. simpl. rewrite ?code_size_app. simpl. lia.
      * injection H as <- <-. injection Hd as <-. rewrite app_nil_r.
        exists [], (l ++ r ++ c :: b ++ [j]). split; [done|]. rewrite !code_size_app. simpl. lia.
      * injection H as _ H. by destruct p''.
Qed.

Lemma branches_asm n : branches_land (asm n).
Proof.
  induction n as [k p cs IH] using node_rose_ind.
  assert (forall n, (List.length cs <= n)%nat -> branches_land (asm_pairs asm cs)) as Hpairs.
  { intros n. revert cs IH; induction n as [|n IHn]; intros [|a [|b cs]] H Hn; simpl in Hn;
      try lia; try apply branches_nil. split_forall. cbn [asm_pairs].
    apply branches_app; [done|]. apply branches_app; [done|]. apply IHn; [done|lia]. }
  assert (branches_land (mjoin (List.map asm cs))) as Hlist by (by apply branches_mjoin, Forall_map).
  assert (forall z, branches_land (asm_immediate z)) as Himm.
  { intros z. unfold asm_immediate. by destruct (_ =? _); apply branches_plain. }
  destruct k; cbn [asm]; try apply branches_nil; try (by apply branches_plain); try done; try (by eapply Hpairs).
  all: try (destruct cs as [|c0 cs]; [apply branches_nil|]; apply Forall_cons_1 in IH as [Hc0 IH]).
  all: try (apply branches_app; [done|by apply branches_plain]).
  - destruct cs as [|c1 [|c2 cs]]; try apply branches_nil. split_forall.
    apply branches_if; try done. destruct cs; [done|]. by split_forall.
  - destruct cs as [|c1 [|c2 cs]]; try apply branches_nil. split_forall. by apply branches_while.
  - destruct cs as [|c1 cs]; [apply branches_nil|]. split_forall.
    apply branches_app; [done|]. apply branches_app; [done|by apply branches_plain].
  - apply branches_app; [done|]. apply (branches_app [_; _; _; _; _]).
    + repeat (apply (branches_app [_]); [by apply branches_plain|]). apply branches_nil.
    + apply branches_app; [done|by apply branches_plain].
  - apply branches_app; [|apply branches_app; [|by apply branches_plain]].
    + apply branches_mjoin, Forall_rev, Forall_map, Forall_forall. auto.
    + by apply branches_mjoin, Forall_rev, Forall_map.
Qed.

(** C7: the control flow of the emitted code stays on instructions.  Every jump
    and every conditional branch of the code of a statement whose operands and
    branch distances fit their fields ([encodable]), read back by the
    disassembler, leads from its own address to the first word of an
    instruction of this code, or to the end of the code: never into an operand
    and never out of the statement. *)
Theorem emit_branches_land n v il pre i suf d :
  encodable n = true -> emit n empty_vector = Ok v -> disassemble (List.map bytecode (code v)) = Ok il ->
  il = pre ++ i :: suf -> branch_offset i = Some d -> boundary il (code_size pre + d).
Proof.
  intros He H Hd. apply (emits_part (emit n) (asm n)) in H; [|by apply emit_emits].
  unfold reads in H. rewrite Hd in H. injection H as ->. apply branches_asm.
Qed.

(** ** Expressions *)

Section Postfix.
(** An interpretation of the operations of expressions. *)
Context {D : Type}.
Variable imm : Z -> D.
Variable load : Z -> D.
Variable index : Z -> Z -> D -> D.
Variable un : Z -> D -> D.
Variable bin : Z -> D -> D -> D.

(** The value of a tree. *)
Fixpoint value (n : node) : option D :=
  let 'Node k _ cs := n in
  match k, cs with
  | ImmediateNode v, [] => Some (imm (s16 v))
  | LoadNode a, [] => Some (load a)
  | ArrayReadNode a s _, [c] => x ← value c; Some (index a (u16 s) x)
  | UnaryArithmeticNode op, [c] => x ← value c; Some (un (unop_code op) x)
  | BinaryArithmeticNode op, [l; r] => x ← value l; y ← value r; Some (bin (binop_code op) x y)
  | _, _ => None
  end.

(** Instructions as reverse Polish notation: operands are taken from the
    stack, the last one first, and the result is left on it. *)
Definition postfix (i : instr) (st : list D) : option (list D) :=
  match i, st with
  | SMALL_IMMEDIATE z, _ | LARGE_IMMEDIATE z, _ => Some (imm z :: st)
  | LOAD a, _ => Some (load a :: st)
  | STORE _, _ :: st' => Some st'
  | LOAD_INDIRECT a s, x :: st' => Some (index a s x :: st')
  | UNARY_ARITHMETIC op, x :: st' => Some (un op x :: st')
  | BINARY_ARITHMETIC op, y :: x :: st' => Some (bin op x y :: st')
  | _, _ => None
  end.

(** The reading of a list of instructions, with at most [limit] words of stack. *)
Fixpoint read_code (limit : Z) (il : list instr) (st : list D) : option (list D) :=
  match il with
  | [] => Some st
  | i :: il' =>
      st' ← postfix i st;
      if Z.of_nat (List.length st') <=? limit then read_code limit il' st' else None
  end.

Lemma read_code_app limit a b st :
  read_code limit (a ++ b) st = (st' ← read_code limit a st; read_code limit b st').
Proof.
  revert st; induction a as [|i a IH]; intros st; [done|]. cbn [read_code app].
  destruct (postfix i st) as [st'|]; [|done]. cbn. by destruct (_ <=? _).
Qed.

(** The trees that have a value, as an induction. *)
Inductive valued : node -> D -> Prop :=
| valued_imm p v : valued (Node (ImmediateNode v) p []) (imm (s16 v))
| valued_load p a : valued (Node (LoadNode a) p []) (load a)
| valued_index p a s nm c x : valued c x -> valued (Node (ArrayReadNode a s nm) p [c]) (index a (u16 s) x)
| valued_un p op c x : valued c x -> valued (Node (UnaryArithmeticNode op) p [c]) (un (unop_code op) x)
| valued_bin p op l r x y :
    valued l x -> valued r y -> valued (Node (BinaryArithmeticNode op) p [l; r]) (bin (binop_code op) x y).

Lemma value_valued n x : value n = Some x -> valued n x.
Proof.
  revert x; induction n as [k p cs IH] using node_rose_ind; intros x Hv.
  destruct k; cbn [value] in Hv; try discriminate; destruct cs as [|c0 [|c1 [|]]]; try discriminate; split_forall.
  - destruct (value c0) eqn:E0; [|discriminate]; destruct (value c1) eqn:E1; [|discriminate].
    injection Hv as <-. constructor; auto.
  - destruct (value c0) eqn:E0; [|discriminate]. injection Hv as <-. constructor; auto.
  - injection Hv as <-; constructor.
  - injection Hv as <-; constructor.
  - destruct (value c0) eqn:E0; [|discriminate]. injection Hv as <-. constructor; auto.
Qed.

Lemma value_depth n x d :
  valued n x -> getStackDepth n = Ok d -> Z.of_nat (node_size n) < 4294967296 -> 1 <= d <= Z.of_nat (node_size n).
Proof.
  intros Hv; revert d; induction Hv; intros d Hd Hs; cbn [getStackDepth max_depth] in Hd; inv_ok; simpl in Hs |- *;
    try lia;
    repeat match goal with
    | IH : forall d, getStackDepth ?c = Ok d -> _, H : getStackDepth ?c = Ok ?d |- _ =>
        specialize (IH d H ltac:(lia))
    end; rewrite ?u32_id; lia.
Qed.

Lemma read_immediate limit z st :
  Z.of_nat (S (List.length st)) <= limit -> read_code limit (asm_immediate z) st = Some (imm (s16 z) :: st).
Proof.
  intros Hl. unfold asm_immediate. destruct (_ =? 0) eqn:E; b2p; cbn [read_code postfix mbind option_bind].
  - rewrite Z.shiftr_div_pow2 in E by lia. change (2 ^ 11) with 2048 in E.
    apply Z.div_small_iff in E; [|lia]. rewrite s16_id by lia.
    destruct (Z.leb_spec (Z.of_nat (List.length (imm z :: st))) limit); [done|simpl in *; lia].
  - destruct (Z.leb_spec (Z.of_nat (List.length (imm (s16 z) :: st))) limit); [done|simpl in *; lia].
Qed.

Lemma read_last limit i st st' :
  postfix i st = Some st' -> Z.of_nat (List.length st') <= limit -> read_code limit [i] st = Some st'.
Proof. intros Hp Hl. cbn. rewrite Hp. cbn. by destruct (Z.leb_spec (Z.of_nat (List.length st')) limit); [|lia]. Qed.

Lemma read_asm n x d limit st :
  valued n x -> getStackDepth n = Ok d -> Z.of_nat (node_size n) < 4294967296 ->
  Z.of_nat (List.length st) + d <= limit -> read_code limit (asm n) st = Some (x :: st).
Proof.
  intros Hv; revert d st; induction Hv; intros d st Hd Hs Hl; cbn [asm getStackDepth max_depth] in *;
    simpl in Hs; inv_ok.
  - apply read_immediate. lia.
  - apply read_last; [done|simpl; lia].
  - pose proof (value_depth _ _ _ Hv H ltac:(lia)).
    rewrite read_code_app, (IHHv _ st H ltac:(lia) ltac:(lia)). apply read_last; [done|simpl; lia].
  - pose proof (value_depth _ _ _ Hv H ltac:(lia)).
    rewrite read_code_app, (IHHv _ st H ltac:(lia) ltac:(lia)). apply read_last; [done|simpl; lia].
  - pose proof (value_depth _ _ _ Hv1 H ltac:(lia)). pose proof (value_depth _ _ _ Hv2 H0 ltac:(lia)).
    rewrite u32_id in Hl by lia.
    rewrite read_code_app, (IHHv1 _ st H ltac:(lia) ltac:(lia)). cbn [mbind option_bind].
    rewrite read_code_app, (IHHv2 _ (_ :: st) H0 ltac:(lia)) by (simpl; lia).
    apply read_last; [done|simpl; lia].
Qed.

(** C10: the code of an expression is its reverse Polish notation.  Whatever
    the meaning of the operations, the emitted code, read back by the
    disassembler, leaves the value of the expression on the stack, above what
    was there, and never needs more words of stack than the stack depth the
    compiler computes for the expression. *)
Theorem expression_code n v x d st :
  encodable n = true -> emit n empty_vector = Ok v -> value n = Some x -> getStackDepth n = Ok d ->
  Z.of_nat (node_size n) < 4294967296 ->
  exists il, disassemble (List.map bytecode (code v)) = Ok il /\
    read_code (Z.of_nat (List.length st) + d) il st = Some (x :: st).
Proof.
  intros He H Hv Hd Hs. exists (asm n). split.
  - by eapply emits_part; [apply emit_emits|].
  - apply value_valued in Hv. by eapply read_asm.
Qed.
End Postfix.

(** [while a < -5000 do if a == 1 then a = a - 1 else return end end] *)
Definition sample_loop : node :=
  let p := mkPos 0 0 0 true in
  let a := Node (LoadNode 3) p [] in
  let i z := Node (ImmediateNode z) p [] in
  Node (FoldedWhileNode ASEBA_OP_SMALLER_THAN) p
    [a; i (-5000);
     Node BlockNode p
       [Node (FoldedIfWhenNode ASEBA_OP_EQUAL false 2) p
          [a; i 1;
           Node BlockNode p
             [Node AssignmentNode p
                [Node (StoreNode 3) p []; Node (BinaryArithmeticNode ASEBA_OP_ADD) p [a; i (-1)]]];
           Node ReturnNode p []]]].

Lemma emit_disassembles_witness :
  exists v, emit sample_loop empty_vector = Ok v /\
    disassemble (List.map bytecode (code v)) =
      Ok [LOAD 3; LARGE_IMMEDIATE (-5000); CONDITIONAL_BRANCH 14 false 13;
          LOAD 3; SMALL_IMMEDIATE 1; CONDITIONAL_BRANCH 10 false 7;
          LOAD 3; SMALL_IMMEDIATE (-1); BINARY_ARITHMETIC 2; STORE 3; JUMP 2; STOP; JUMP (-15)].
Proof.
  eexists. split; [vm_compute; reflexivity|].
  apply (emit_disassembles sample_loop); [reflexivity|vm_compute; reflexivity].
Defined.

Lemma emit_branches_land_witness :
  exists il, il = asm sample_loop /\ boundary il (code_size (removelast il) + -15).
Proof.
  eexists. split; [reflexivity|].
  eapply (emit_branches_land sample_loop _ _ (removelast (asm sample_loop)) (JUMP (-15)) []).
  - reflexivity.
  - vm_compute. reflexivity.
  - vm_compute. reflexivity.
  - vm_compute. reflexivity.
  - reflexivity.
Defined.

Lemma expression_code_witness :
  exists il, read_code (fun z => z) (fun a => 10 * a) (fun a s i => a + i) (fun op x => - x) (fun op x y => x - y)
    2 il [] = Some [-21].
Proof.
  set (n := Node (UnaryArithmeticNode ASEBA_UNARY_OP_SUB) SourcePos_none
              [Node (BinaryArithmeticNode ASEBA_OP_SUB) SourcePos_none
                 [Node (LoadNode 2) SourcePos_none []; Node (ImmediateNode (-1)) SourcePos_none []]]).
  destruct (expression_code (fun z => z) (fun a => 10 * a) (fun a s i => a + i) (fun op x => - x) (fun op x y => x - y)
    n (default empty_vector (match emit n empty_vector with Ok v => Some v | _ => None end)) (-21) 2 [])
    as (il & _ & H); [reflexivity..|].
  exists il. exact H.
Defined.
