(* ===== verification/Link.v ===== *)
(** * Linking and compilation

    The end of compiler/tree-emit.cpp ([fixup]), compiler/analysis.cpp
    ([verifyStackCalls]) and compiler/compiler.cpp ([link], [compile] and the
    operations of [BytecodeVector]). *)
From Stdlib Require Import ZArith Lia List.
From stdpp Require Import base list.
From S2P Require Import Prelude Errors Consts Tree TypeCheck Optimize OrdMap Target Lexer Lookup.
From S2P Require Import Expand Parser Emit.

Local Open Scope Z_scope.

(** ** Loops over the instructions of a vector

    [for(pc = 0; pc < size(); pc += getWordSize())]: [skip] words remain of the
    current instruction. *)

Definition is_op (id : AsebaBytecodeId) (e : BytecodeElement) : bool := opcode e =? bytecode_id id.

(** [BytecodeVector::changeStopToRetSub]. *)
Fixpoint change_stop (skip : nat) (l : list BytecodeElement) : list BytecodeElement :=
  match l, skip with
  | [], _ => []
  | e :: l', S skip' => e :: change_stop skip' l'
  | e :: l', O =>
      let e' := if is_op ASEBA_BYTECODE_STOP e
                then mkElement (AsebaBytecodeFromId ASEBA_BYTECODE_SUB_RET) (line e) else e in
      e' :: change_stop (Nat.pred (getWordSize e')) l'
  end.
Definition changeStopToRetSub (v : BytecodeVector) : BytecodeVector :=
  set_code v (change_stop 0 (code v)).

(** [BytecodeVector::getTypeOfLast]; 16 is the invalid type. *)
Fixpoint type_of_last (skip : nat) (l : list BytecodeElement) (type : Z) : Z :=
  match l, skip with
  | [], _ => type
  | _ :: l', S skip' => type_of_last skip' l' type
  | e :: l', O => type_of_last (Nat.pred (getWordSize e)) l' (opcode e)
  end.
Definition getTypeOfLast (v : BytecodeVector) : Z := type_of_last 0 (code v) 16.

(** The operands of the [SUB_CALL] instructions of a vector, in order. *)
Fixpoint sub_calls (skip : nat) (l : list BytecodeElement) : list Z :=
  match l, skip with
  | [], _ => []
  | _ :: l', S skip' => sub_calls skip' l'
  | e :: l', O =>
      let rest := sub_calls (Nat.pred (getWordSize e)) l' in
      if is_op ASEBA_BYTECODE_SUB_CALL e then Z.land (bytecode e) 0x0fff :: rest else rest
  end.

(** ** [PreLinkBytecode::fixup] *)

Definition is_empty (v : BytecodeVector) : bool :=
  match code v with [] => true | _ :: _ => false end.

Definition terminate_event (v : BytecodeVector) : BytecodeVector :=
  push_back v (element (AsebaBytecodeFromId ASEBA_BYTECODE_STOP) (lastLine v)).

Definition terminate_sub (table : list SubroutineDescriptor) (id : Z) (v : BytecodeVector)
  : res error BytecodeVector :=
  if is_empty v then
    sub ← at_ table (Z.to_nat id);
    Ok (push_back v (element (AsebaBytecodeFromId ASEBA_BYTECODE_SUB_RET) (sub_line sub)))
  else
    let v' := changeStopToRetSub v in
    if getTypeOfLast v' =? bytecode_id ASEBA_BYTECODE_SUB_RET then Ok v'
    else Ok (push_back v' (element (AsebaBytecodeFromId ASEBA_BYTECODE_SUB_RET) (lastLine v'))).

Definition fixup (table : list SubroutineDescriptor) (pl : PreLinkBytecode) : res error PreLinkBytecode :=
  let events := List.filter (fun kv => negb (is_empty (snd kv))) (ev_bytecode pl) in
  let events' := List.map (fun kv => (fst kv, terminate_event (snd kv))) events in
  subs ← mapR (fun kv => v ← terminate_sub table (fst kv) (snd kv); Ok (fst kv, v)) (sub_bytecode pl);
  Ok (mkPreLink events' subs (current pl)).

(** ** [Compiler::verifyStackCalls] *)

Section StackCalls.
Variable stackSize : Z.

(** The calls of an event: the call depth of their targets becomes 1. *)
Fixpoint mark_called (ids : list Z) (subs : omap Z BytecodeVector) : res error (omap Z BytecodeVector) :=
  match ids with
  | [] => Ok subs
  | id :: ids' =>
      match om_find id subs with
      | None => Crash  (* assert(destIt != subroutines.end()) *)
      | Some v => mark_called ids' (om_set id (set_callDepth v 1) subs)
      end
  end.

(** The events: [None] when one needs too much stack. *)
Fixpoint check_events (evs : omap Z BytecodeVector) (subs : omap Z BytecodeVector)
  : res error (option (omap Z BytecodeVector)) :=
  match evs with
  | [] => Ok (Some subs)
  | (_, v) :: evs' =>
      if stackSize <? maxStackDepth v then Ok None
      else subs' ← mark_called (sub_calls 0 (code v)) subs; check_events evs' subs'
  end.

(** The calls of a subroutine at depth [myDepth]. *)
Fixpoint raise_depth (myDepth : Z) (ids : list Z) (subs : omap Z BytecodeVector) (active : bool)
  : res error (omap Z BytecodeVector * bool) :=
  match ids with
  | [] => Ok (subs, active)
  | id :: ids' =>
      match om_find id subs with
      | None => Crash
      | Some v =>
          if callDepth v <? u32 (myDepth + 1) then
            raise_depth myDepth ids' (om_set id (set_callDepth v (u32 (myDepth + 1))) subs) true
          else raise_depth myDepth ids' subs active
      end
  end.

(** One round over the subroutines: [None] when one may overflow the stack. *)
Fixpoint check_subs (ids : list Z) (subs : omap Z BytecodeVector) (active : bool)
  : res error (option (omap Z BytecodeVector * bool)) :=
  match ids with
  | [] => Ok (Some (subs, active))
  | id :: ids' =>
      v ← of_option (om_find id subs);
      let myDepth := callDepth v in
      if stackSize <? u32 (myDepth + maxStackDepth v) then Ok None
      else
        '(subs', active') ← raise_depth myDepth (sub_calls 0 (code v)) subs active;
        check_subs ids' subs' active'
  end.

(** One turn of the loop [do ... while(wasActivity)]: the next table or the
    result. *)
Definition check_round (subs : omap Z BytecodeVector) : omap Z BytecodeVector + res error bool :=
  match check_subs (List.map fst subs) subs false with
  | Ok (Some (subs', true)) => inl subs'
  | Ok (Some (_, false)) => inr (Ok true)
  | Ok None => inr (Ok false)
  | Throw e => inr (Throw e)
  | Crash => inr Crash
  | Undef => inr Undef
  | NoFuel => inr NoFuel
  end.

(** Every turn with activity raises a call depth, an [unsigned]. *)
Definition rounds_fuel (subs : omap Z BytecodeVector) : positive :=
  Z.to_pos (Z.of_nat (List.length subs) * 4294967296 + 1).

Definition check_rounds (subs : omap Z BytecodeVector) : res error bool :=
  match loop check_round (rounds_fuel subs) subs with inl _ => NoFuel | inr r => r end.

Definition verifyStackCalls (pl : PreLinkBytecode) : res error bool :=
  r ← check_events (ev_bytecode pl) (sub_bytecode pl);
  match r with
  | None => Ok false
  | Some subs => check_rounds subs
  end.
End StackCalls.

(** ** [Compiler::link] *)

(** The event vector table: identifiers and addresses. *)
Fixpoint event_table (evs : omap Z BytecodeVector) (addr : Z) : list BytecodeElement :=
  match evs with
  | [] => []
  | (id, v) :: evs' => element id 0 :: element addr 0 :: event_table evs' (u32 (addr + size_of v))
  end.

(** The code of the subroutines, and the table with their addresses. *)
Fixpoint link_subs (subs : omap Z BytecodeVector) (acc : list BytecodeElement)
    (table : list SubroutineDescriptor) : res error (list BytecodeElement * list SubroutineDescriptor) :=
  match subs with
  | [] => Ok (acc, table)
  | (id, v) :: subs' =>
      sub ← at_ table (Z.to_nat id);
      let sub' := mkSub (sub_name sub) (u32 (Z.of_nat (List.length acc))) (sub_line sub) in
      link_subs subs' (acc ++ code v) (<[Z.to_nat id := sub']> table)
  end.

(** The resolution of the calls.  The loop runs over the whole vector, the
    event table included; it reads the word size of a resolved element. *)
Fixpoint resolve_calls (table : list SubroutineDescriptor) (skip : nat) (l : list BytecodeElement)
  : res error (list BytecodeElement) :=
  match l, skip with
  | [], _ => Ok []
  | e :: l', S skip' => rest ← resolve_calls table skip' l'; Ok (e :: rest)
  | e :: l', O =>
      e' ← (if is_op ASEBA_BYTECODE_SUB_CALL e then
              sub ← at_ table (Z.to_nat (Z.land (bytecode e) 0x0fff));
              Ok (mkElement (u16 (Z.lor (Z.land (bytecode e) 0xf000) (sub_address sub))) (line e))
            else Ok e);
      rest ← resolve_calls table (Nat.pred (getWordSize e')) l';
      Ok (e' :: rest)
  end.

Definition link (bytecodeSize : Z) (pl : PreLinkBytecode) (table : list SubroutineDescriptor)
  : res error (bool * list BytecodeElement * list SubroutineDescriptor) :=
  let addr := u32 (Z.of_nat (List.length (ev_bytecode pl)) * 2 + 1) in
  let vec1 := element addr 0 :: event_table (ev_bytecode pl) addr in
  let vec2 := vec1 ++ mjoin (List.map (fun kv => code (snd kv)) (ev_bytecode pl)) in
  '(vec3, table') ← link_subs (sub_bytecode pl) vec2 table;
  vec4 ← resolve_calls table' 0 vec3;
  Ok (Z.of_nat (List.length vec4) <=? bytecodeSize, vec4, table').

(** [BytecodeVector::getEventAddressesToIds]. *)
Fixpoint event_addresses (n : nat) (l : list BytecodeElement) (m : omap Z Z) : res error (omap Z Z) :=
  match n with
  | O => Ok m
  | S n' =>
      match l with
      | id :: addr :: l' => event_addresses n' l' (om_set (bytecode addr) (bytecode id) m)
      | _ => Crash
      end
  end.
Definition getEventAddressesToIds (l : list BytecodeElement) : res error (omap Z Z) :=
  match l with
  | [] => Crash
  | size :: l' => event_addresses (Z.to_nat (bytecode size / 2)) l' []
  end.

(** ** [Compiler::compile] *)

(** A rejection says what [link] has left in the vector of the caller, if it
    was reached. *)
Inductive outcome : Type :=
| Compiled (bytecode : list BytecodeElement) (allocatedVariablesCount : Z)
| Rejected (errorDescription : error) (linked : option (list BytecodeElement)).

(** One [try] block: an exception becomes the error description.  The state
    returned with a rejection is the one before the block; [buildMaps] resets
    all of it, but for the counter of temporary names, at the next compilation. *)
Definition try_stage {A} (c : Compiler) (r : res error A) (k : A -> res error (outcome * Compiler))
  : res error (outcome * Compiler) :=
  match r with
  | Ok a => k a
  | Throw e => Ok (Rejected e None, c)
  | Crash => Crash
  | Undef => Undef
  | NoFuel => NoFuel
  end.

Section Compile.
Variable is_utf8_alpha_num : Z -> bool.
Variable uninitialized : Z.

Definition reject (code : ErrorCode) (linked : option (list BytecodeElement)) (c : Compiler) : res error (outcome * Compiler) :=
  Ok (Rejected (mkError SourcePos_none code []) linked, c).

(** Code generation, stack check and linking. *)
Definition generate (c : Compiler) (program : node) : res error (outcome * Compiler) :=
  let t := targetDescription c in
  pl ← emit_program program PreLink_init;
  pl' ← fixup (subroutineTable c) pl;
  fits ← verifyStackCalls (stackSize t) pl';
  if negb fits then reject ASEBA_ERROR_STACK_OVERFLOW None c
  else
    '(ok, bytecode, table) ← link (bytecodeSize t) pl' (subroutineTable c);
    let c' := set_subroutines table (subroutineReverseTable c) c in
    if negb ok then reject ERROR_SCRIPT_TOO_BIG (Some bytecode) c'
    else Ok (Compiled bytecode (freeVariableIndex c), c').

Definition compile (source : list Z) (c0 : Compiler) : res error (outcome * Compiler) :=
  let c := buildMaps c0 in
  if variablesSize (targetDescription c) <? freeVariableIndex c then reject ERROR_BROKEN_TARGET None c
  else
  try_stage c (tokenize is_utf8_alpha_num source) (fun ts =>
  try_stage c (parseProgram uninitialized (set_tokens ts c)) (fun '(program, c1) =>
  try_stage c1 (checkVectorSize program) (fun _ =>
  try_stage c1 (expandAbstractNodes program) (fun expanded =>
  try_stage c1 (expandVectorialNodes allocateTemporaryVariable expanded 0 c1) (fun '(scalar, c2) =>
  try_stage c2 (typeCheck (findSubroutine c2) scalar) (fun '(_, checked) =>
  try_stage c2 (optimize checked) (fun optimized =>
    program' ← of_option optimized;
    generate c2 program'))))))).
End Compile.
