(* ===== verification/LinkSpec.v ===== *)
(** * What the linker promises

    The linked bytecode: the event table leads to the code of the events, the
    calls lead to the code of the subroutines. *)
From Stdlib Require Import ZArith Lia List.
From stdpp Require Import base list list_monad.
From S2P Require Import Prelude Errors Consts Disasm Tree OrdMap Lookup Emit Fine CodeSpec.
From S2P Require Import Link.

Local Open Scope Z_scope.

(** ** Walking over instructions *)

Lemma getWordSize_decode e l i : decode (bytecode e) l = Some i -> Z.of_nat (getWordSize e) = instr_size i.
Proof.
  unfold decode, getWordSize, opcode.
  destruct (bytecode_of_id _) as [[]|]; destruct l as [|a [|b l]]; by intros [= <-].
Qed.

Lemma is_op_iff id e : is_op id e = true <-> bytecode_of_id (opcode e) = Some id.
Proof.
  unfold is_op. rewrite Z.eqb_eq. split; intros H.
  - by rewrite H, bytecode_of_id_inv.
  - by apply bytecode_of_id_Some.
Qed.

(** ** The resolution of calls *)

Section Resolve.
Variable table : list SubroutineDescriptor.

(** The instruction that a call becomes. *)
Definition redirect (i : instr) : instr :=
  match i with
  | SUB_CALL id => SUB_CALL (match table !! Z.to_nat id with Some s => sub_address s | None => 0 end)
  | _ => i
  end.

(** The calls have a target whose address fits in 12 bits. *)
Definition resolvable (il : list instr) : Prop :=
  forall id, SUB_CALL id ∈ il -> exists s, table !! Z.to_nat id = Some s /\ 0 <= sub_address s < 4096.

Lemma redirect_size i : instr_size (redirect i) = instr_size i.
Proof. by destruct i. Qed.

Lemma decode_operands w l l' i :
  decode w l = Some i -> List.length l' = List.length l ->
  take (Nat.pred (Z.to_nat (instr_size i))) l' = take (Nat.pred (Z.to_nat (instr_size i))) l ->
  decode w l' = Some i.
Proof.
  unfold decode. destruct (bytecode_of_id _) as [[]|]; destruct l as [|a [|b l]], l' as [|a' [|b' l']];
    intros [= <-] Hlen H; try done; simpl in Hlen; try lia; vm_compute in H; congruence.
Qed.

(** The word of a call. *)
Lemma call_word e l i :
  decode (bytecode e) l = Some i ->
  if is_op ASEBA_BYTECODE_SUB_CALL e
  then i = SUB_CALL (Z.land (bytecode e) 0x0fff) /\ Z.land (bytecode e) 0xf000 = AsebaBytecodeFromId ASEBA_BYTECODE_SUB_CALL
  else redirect i = i.
Proof.
  intros Hd. destruct (is_op _ e) eqn:E.
  - pose proof E as Hop. apply is_op_iff in Hop. unfold decode in Hd. unfold opcode in Hop. rewrite Hop in Hd.
    injection Hd as <-. split; [done|].
    unfold is_op in E. apply Z.eqb_eq in E. unfold opcode in E. simpl in E.
    apply Z.bits_inj'. intros n Hn. rewrite Z.land_spec.
    change (AsebaBytecodeFromId ASEBA_BYTECODE_SUB_CALL) with (Z.shiftl 13 12).
    change 0xf000 with (Z.shiftl (Z.ones 4) 12). rewrite !Z.shiftl_spec by done.
    destruct (Z.lt_ge_cases n 12); [rewrite !(Z.testbit_neg_r _ (n - 12)) by lia; apply andb_false_r|].
    rewrite <- E, Z.shiftr_spec by lia. replace (n - 12 + 12) with n by lia.
    destruct (Z.lt_ge_cases n 16) as [Hlt|Hge]; [rewrite Z.ones_spec_low by lia; apply andb_true_r|].
    rewrite Z.ones_spec_high, andb_false_r by lia.
    replace n with ((n - 12) + 12) by lia. rewrite <- Z.shiftr_spec, E by lia. symmetry.
    rewrite <- (Z.mod_small 13 (2 ^ 4)) by (simpl; lia). apply Z.mod_pow2_bits_high. lia.
  - destruct i; try done. exfalso. assert (is_op ASEBA_BYTECODE_SUB_CALL e = true); [|congruence].
    apply is_op_iff. unfold decode in Hd. unfold opcode.
    destruct (bytecode_of_id _) as [[]|]; destruct l as [|a [|b l]]; try discriminate; done.
Qed.

Lemma resolve_from k l il :
  (k <= List.length l)%nat -> disassemble_from k (List.map bytecode l) = Ok il -> resolvable il ->
  exists r, resolve_calls table k l = Ok r /\ List.length r = List.length l /\
    disassemble_from k (List.map bytecode r) = Ok (List.map redirect il) /\
    take k (List.map bytecode r) = take k (List.map bytecode l) /\
    forall l2, resolve_calls table k (l ++ l2) = (r2 ← resolve_calls table 0 l2; Ok (r ++ r2)).
Proof.
  revert k il; induction l as [|e l IH]; intros [|k] il Hk Hd Hres; simpl in Hk; try lia.
  - injection Hd as <-. exists []. split_and!; try done. intros l2. simpl. by destruct (resolve_calls _ _ _).
  - cbn [List.map disassemble_from] in Hd.
    destruct (decode (bytecode e) (List.map bytecode l)) as [i|] eqn:E; [|discriminate].
    cbn [of_option mbind res_bind] in Hd. inv_ok.
    pose proof (decode_size _ _ _ E) as Hsz. rewrite length_map in Hsz.
    pose proof (getWordSize_decode _ _ _ E) as Hw.
    destruct (IH _ _ Hsz H) as (r & Hr & Hlen & Hdr & Htk & Happ).
    { intros id Hid. apply Hres. by apply list_elem_of_further. }
    cbn [resolve_calls app]. pose proof (call_word _ _ _ E) as Hc.
    destruct (is_op ASEBA_BYTECODE_SUB_CALL e) eqn:Eop.
    + destruct Hc as [-> Hhi]. destruct (Hres (Z.land (bytecode e) 0x0fff)) as (s & Hs & Ha);
        [apply list_elem_of_here|].
      unfold at_. rewrite Hs. cbn [of_option mbind res_bind].
      assert (u16 (Z.lor (Z.land (bytecode e) 0xf000) (sub_address s)) = 13 * 4096 + sub_address s) as Hword.
      { rewrite Hhi. change (AsebaBytecodeFromId ASEBA_BYTECODE_SUB_CALL) with (Z.shiftl 13 12).
        rewrite lor_add by done. apply u16_id. lia. }
      rewrite Hword. set (e' := mkElement (13 * 4096 + sub_address s) (line e)).
      assert (forall l', decode (bytecode e') l' = Some (SUB_CALL (sub_address s))) as Hd'.
      { intros l'. unfold decode, e'. cbn [bytecode].
        change (13 * 4096 + sub_address s) with (bytecode_id ASEBA_BYTECODE_SUB_CALL * 4096 + sub_address s).
        rewrite word_id, bytecode_of_id_inv by done. by rewrite word_low12. }
      assert (getWordSize e' = 1%nat) as ->.
      { pose proof (getWordSize_decode e' [] _ (Hd' [])). simpl in *. lia. }
      simpl in Hr, Htk, Happ, Hdr, H |- *. rewrite Hr. exists (e' :: r).
      split_and!; [done|simpl; lia| |done|].
      * cbn [List.map disassemble_from]. rewrite Hd'. cbn [of_option mbind res_bind instr_size].
        simpl Nat.pred. rewrite Hdr. simpl. by rewrite Hs.
      * intros l2. rewrite Happ. by destruct (resolve_calls table 0 l2).
    + cbn [mbind res_bind].
      assert (Nat.pred (getWordSize e) = Nat.pred (Z.to_nat (instr_size i))) as -> by lia.
      rewrite Hr. exists (e :: r). split_and!; [done|simpl; lia| |done|].
      * cbn [List.map disassemble_from].
        rewrite (decode_operands _ (List.map bytecode l) _ i) by (rewrite ?length_map; done).
        cbn [of_option mbind res_bind]. rewrite Hdr. simpl. by rewrite Hc.
      * intros l2. rewrite Happ. by destruct (resolve_calls table 0 l2).
  - cbn [List.map disassemble_from] in Hd.
    destruct (IH k il ltac:(lia) Hd Hres) as (r & Hr & Hlen & Hdr & Htk & Happ).
    exists (e :: r). cbn [resolve_calls app]. rewrite Hr. split_and!; [done|simpl; lia|done| |].
    + simpl. by rewrite Htk.
    + intros l2. rewrite Happ. by destruct (resolve_calls table 0 l2).
Qed.

(** The resolution of one segment of code, whatever follows. *)
Lemma resolve_reads l il : reads l il -> resolvable il ->
  exists r, List.length r = List.length l /\ reads r (List.map redirect il) /\
    forall l2, resolve_calls table 0 (l ++ l2) = (r2 ← resolve_calls table 0 l2; Ok (r ++ r2)).
Proof.
  intros Hr Hres. destruct (resolve_from 0 l il ltac:(lia) Hr Hres) as (r & _ & Hl & Hd & _ & Ha). eauto.
Qed.
End Resolve.

(** ** Segments of code *)

Definition segments (m : omap Z BytecodeVector) : list BytecodeElement := mjoin (List.map (fun kv => code (snd kv)) m).

Lemma segments_app a b : segments (a ++ b) = segments a ++ segments b.
Proof. unfold segments. rewrite map_app. apply join_app. Qed.

Definition words (m : omap Z BytecodeVector) : Z := Z.of_nat (List.length (segments m)).

(** [r] is the code of [kv] after the resolution. *)
Definition resolved (table : list SubroutineDescriptor) (kv : Z * BytecodeVector) (r : list BytecodeElement) : Prop :=
  List.length r = List.length (code (snd kv)) /\
  exists il, reads (code (snd kv)) il /\ reads r (List.map (redirect table) il).

Lemma resolve_segments table m :
  Forall (fun kv => exists il, reads (code (snd kv)) il /\ resolvable table il) m ->
  exists rs, Forall2 (resolved table) m rs /\
    forall l2, resolve_calls table 0 (segments m ++ l2) = (r2 ← resolve_calls table 0 l2; Ok (mjoin rs ++ r2)).
Proof.
  induction 1 as [|kv m (il & Hr & Hres) _ (rs & Hrs & IH)].
  - exists []. split; [constructor|]. intros l2. cbn. by destruct (resolve_calls table 0 l2).
  - destruct (resolve_reads table _ il Hr Hres) as (r & Hl & Hrr & Happ).
    exists (r :: rs). split; [constructor; [split; eauto|done]|]. intros l2.
    change (segments (kv :: m)) with (code (snd kv) ++ segments m). rewrite <- app_assoc, Happ, IH.
    destruct (resolve_calls table 0 l2); try done. cbn. by rewrite app_assoc.
Qed.

Lemma resolved_length table m rs :
  Forall2 (resolved table) m rs -> List.length (mjoin rs) = List.length (segments m).
Proof.
  induction 1 as [|kv r m rs [Hl _] _ IH]; [done|].
  change (segments (kv :: m)) with (code (snd kv) ++ segments m). simpl. rewrite !length_app. lia.
Qed.

(** The position of a segment, before and after the resolution. *)
Lemma resolved_position table pre kv post rs :
  Forall2 (resolved table) (pre ++ kv :: post) rs ->
  exists r, resolved table kv r /\ forall l1 l2,
    take (List.length (code (snd kv))) (drop (List.length l1 + List.length (segments pre)) (l1 ++ mjoin rs ++ l2)) = r.
Proof.
  intros H. apply Forall2_app_inv_l in H as (rs1 & rs2 & Hpre & H & ->).
  inversion H as [|? r ? rs3 Hr Hpost]; subst. exists r. split; [done|]. intros l1 l2.
  rewrite <- drop_drop, drop_app_length, join_app, <- !app_assoc.
  rewrite <- (resolved_length _ _ _ Hpre), drop_app_length. simpl. rewrite <- app_assoc.
  destruct Hr as [Hl _]. by rewrite <- Hl, take_app_length.
Qed.

(** Words that the resolution leaves alone: those of the event table. *)
Definition table_word (e : BytecodeElement) : Prop := opcode e = 0 \/ opcode e = 15.

Lemma resolve_table table l l2 : Forall table_word l ->
  resolve_calls table 0 (l ++ l2) = (r2 ← resolve_calls table 0 l2; Ok (l ++ r2)).
Proof.
  induction 1 as [|e l He _ IH]; cbn [app resolve_calls]; [by destruct (resolve_calls table 0 l2)|].
  assert (is_op ASEBA_BYTECODE_SUB_CALL e = false) as ->.
  { unfold is_op. destruct He as [-> | ->]; done. }
  cbn [mbind res_bind]. assert (getWordSize e = 1%nat) as ->.
  { unfold getWordSize. by destruct He as [-> | ->]. }
  simpl Nat.pred. rewrite IH. by destruct (resolve_calls table 0 l2).
Qed.

Lemma small_word z l : 0 <= z < 4096 -> table_word (element z l).
Proof.
  intros Hz. left. unfold opcode, element. simpl. rewrite u16_id, Z.shiftr_div_pow2 by lia.
  apply Z.div_small. simpl. lia.
Qed.
Lemma large_word z l : 0xF000 <= z < 65536 -> table_word (element z l).
Proof.
  intros Hz. right. unfold opcode, element. simpl. rewrite u16_id, Z.shiftr_div_pow2 by lia.
  change (2 ^ 12) with 4096. symmetry. apply (Z.div_unique _ _ _ (z - 0xF000)); lia.
Qed.

(** ** The table of subroutines *)

Lemma link_subs_ok subs acc table :
  Forall (fun kv => 0 <= fst kv < Z.of_nat (List.length table)) subs -> NoDup (List.map fst subs) ->
  Z.of_nat (List.length acc) + words subs < 4294967296 ->
  exists table', link_subs subs acc table = Ok (acc ++ segments subs, table') /\
    List.map sub_name table' = List.map sub_name table /\
    (forall id, id ∉ List.map fst subs -> 0 <= id -> table' !! Z.to_nat id = table !! Z.to_nat id) /\
    forall pre id v post, subs = pre ++ (id, v) :: post ->
      exists s, table' !! Z.to_nat id = Some s /\ sub_address s = Z.of_nat (List.length acc) + words pre.
Proof.
  revert acc table; induction subs as [|[id v] subs IH]; intros acc table Hr Hnd Hw.
  - exists table. cbn. rewrite app_nil_r. split_and!; try done. intros [|] ? ? ? ?; done.
  - apply Forall_cons_1 in Hr as [Hid Hr]. cbn [List.map fst] in *. apply NoDup_cons in Hnd as [Hnin Hnd].
    destruct (lookup_lt_is_Some_2 table (Z.to_nat id)) as [sub Hsub]; [lia|].
    cbn [link_subs]. unfold at_. rewrite Hsub. cbn [of_option mbind res_bind].
    set (sub' := mkSub _ _ _).
    assert (words ((id, v) :: subs) = Z.of_nat (List.length (code v)) + words subs) as Hws.
    { unfold words. change (segments ((id, v) :: subs)) with (code v ++ segments subs). rewrite length_app. lia. }
    assert (0 <= words ((id, v) :: subs)) by (unfold words; lia).
    destruct (IH (acc ++ code v) (<[Z.to_nat id := sub']> table)) as (table' & Hl & Hnames & Hkeep & Haddr).
    { eapply Forall_impl; [exact Hr|]. intros kv. by rewrite length_insert. }
    { done. }
    { rewrite length_app. lia. }
    exists table'. rewrite Hl. split_and!.
    + by rewrite <- app_assoc.
    + rewrite Hnames. change (sub_name <$> <[Z.to_nat id := sub']> table = sub_name <$> table).
      rewrite list_fmap_insert. apply list_insert_id. by rewrite list_lookup_fmap, Hsub.
    + intros i Hi Hpos. rewrite not_elem_of_cons in Hi. destruct Hi as [Hne Hi].
      rewrite Hkeep by done. apply list_lookup_insert_ne. lia.
    + intros [|[i w] pre] id' v' post E.
      * injection E as <- <- <-. rewrite Hkeep by (done || lia). exists sub'.
        rewrite list_lookup_insert_eq by lia. split; [done|]. subst sub'. simpl.
        unfold words, segments. simpl. rewrite u32_id; lia.
      * injection E as <- <- Hs. destruct (Haddr pre id' v' post Hs) as (s & Hs' & Ha). exists s. split; [done|].
        rewrite Ha, length_app. unfold words. change (segments ((id, v) :: pre)) with (code v ++ segments pre).
        rewrite length_app. lia.
Qed.

(** ** The event table *)

Definition event_id_ok (id : Z) : Prop := 0 <= id < 4096 \/ 0xF000 <= id < 65536.

Lemma words_cons kv m : words (kv :: m) = size_of (snd kv) + words m.
Proof.
  unfold words, size_of. change (segments (kv :: m)) with (code (snd kv) ++ segments m). rewrite length_app. lia.
Qed.
Lemma words_nonneg m : 0 <= words m.
Proof. unfold words. lia. Qed.
Lemma size_of_nonneg v : 0 <= size_of v.
Proof. unfold size_of. lia. Qed.

Lemma event_table_words evs addr :
  Forall (fun kv => event_id_ok (fst kv)) evs -> 0 <= addr -> addr + words evs < 4096 ->
  Forall (fun kv => code (snd kv) <> []) evs ->
  Forall table_word (event_table evs addr) /\ List.length (event_table evs addr) = (2 * List.length evs)%nat.
Proof.
  intros H; revert addr; induction H as [|[id v] evs Hid _ IH]; intros addr Ha Hw Hne; [by split|].
  rewrite words_cons in Hw. simpl in Hw, Hid. pose proof (words_nonneg evs). pose proof (size_of_nonneg v).
  apply Forall_cons_1 in Hne as [_ Hne]. cbn [event_table].
  destruct (IH (u32 (addr + size_of v))) as [H1 H2]; [apply u32_range|rewrite u32_id; lia|done|].
  split; [|simpl; lia]. constructor; [|constructor; [apply small_word; lia|done]].
  destruct Hid; [by apply small_word|by apply large_word].
Qed.

(** The addresses at which the segments of a map start, with their keys. *)
Fixpoint starts (a : Z) (m : omap Z BytecodeVector) : omap Z Z :=
  match m with [] => [] | (id, v) :: m' => (a, id) :: starts (a + size_of v) m' end.

Lemma starts_bound a m : Forall (fun kv => a <= fst kv) (starts a m).
Proof.
  revert a; induction m as [|[id v] m IH]; intros a; [constructor|]. cbn [starts]. constructor; [simpl; lia|].
  eapply Forall_impl; [apply IH|]. intros kv. pose proof (size_of_nonneg v). simpl. lia.
Qed.

Lemma starts_below p a m : p < a -> om_find p (starts a m) = None.
Proof.
  intros Hp. apply om_find_notin. eapply Forall_impl; [apply starts_bound|]. intros kv. simpl. lia.
Qed.

Lemma size_of_pos v : code v <> [] -> 0 < size_of v.
Proof. unfold size_of. destruct (code v); [done|simpl; lia]. Qed.

Lemma starts_sorted a m : Forall (fun kv => code (snd kv) <> []) m -> om_sorted (starts a m).
Proof.
  intros H; revert a; induction H as [|[id v] m Hv _ IH]; intros a; [done|]. split; [|apply IH].
  apply size_of_pos in Hv. eapply Forall_impl; [apply starts_bound|]. intros kv ?. apply Z.ltb_lt. simpl in *. lia.
Qed.

Lemma starts_find a pre id v post : Forall (fun kv => code (snd kv) <> []) pre ->
  om_find (a + words pre) (starts a (pre ++ (id, v) :: post)) = Some id.
Proof.
  intros H; revert a; induction H as [|[id' v'] pre Hv' _ IH]; intros a; cbn [app starts om_find]; cbn [key_eqb Z_key].
  - rewrite (proj2 (Z.eqb_eq _ _)); [done|]. unfold words. simpl. lia.
  - apply size_of_pos in Hv'. pose proof (words_nonneg pre). rewrite words_cons. simpl.
    rewrite (proj2 (Z.eqb_neq _ _)) by (simpl in *; lia). by rewrite Z.add_assoc.
Qed.

Lemma starts_lookup a m i kv : m !! i = Some kv -> starts a m !! i = Some (a + words (take i m), fst kv).
Proof.
  revert a i; induction m as [|[id v] m IH]; intros a [|i] H; [done..| |].
  - injection H as <-. unfold words. simpl. do 2 f_equal. lia.
  - cbn [starts take]. rewrite words_cons. change (starts (a + size_of v) m !! i = Some (a + (size_of v + words (take i m)), fst kv)).
    rewrite (IH _ _ H). do 2 f_equal. lia.
Qed.

Lemma starts_length a m : List.length (starts a m) = List.length m.
Proof. revert a; induction m as [|[id v] m IH]; intros a; simpl; [done|]. by rewrite IH. Qed.

(** The table read back, in the order of its entries. *)
Lemma event_addresses_ok evs addr rest m :
  Forall (fun kv => event_id_ok (fst kv)) evs -> 0 <= addr -> addr + words evs <= 4096 ->
  event_addresses (List.length evs) (event_table evs addr ++ rest) m
    = Ok (foldl (fun m e => om_set (fst e) (snd e) m) m (starts addr evs)).
Proof.
  intros H; revert addr m; induction H as [|[id v] evs Hid _ IH]; intros addr m Ha Hw; [done|].
  rewrite words_cons in Hw. simpl in Hw, Hid. pose proof (words_nonneg evs). pose proof (size_of_nonneg v).
  cbn [List.length event_table app event_addresses starts]. cbn [element bytecode foldl fst snd].
  rewrite (u16_id addr), (u16_id id) by (unfold event_id_ok in Hid; lia).
  rewrite IH; rewrite u32_id by lia; [done|lia|lia].
Qed.

(** ** Results *)

(** What the code generator and [fixup] establish, and the size below which
    every address fits in the 12 bits of a call. *)
Record linkable (pl : PreLinkBytecode) (table : list SubroutineDescriptor) : Prop := Linkable {
  linkable_events : Forall (fun kv => event_id_ok (fst kv) /\ code (snd kv) <> []) (ev_bytecode pl);
  linkable_subs : Forall (fun kv => 0 <= fst kv < Z.of_nat (List.length table)) (sub_bytecode pl);
  linkable_sorted : om_sorted (ev_bytecode pl) /\ om_sorted (sub_bytecode pl);
  linkable_code : Forall (fun kv => exists il, reads (code (snd kv)) il /\
    forall id, SUB_CALL id ∈ il -> is_Some (om_find id (sub_bytecode pl))) (ev_bytecode pl ++ sub_bytecode pl);
  linkable_size : 1 + 2 * Z.of_nat (List.length (ev_bytecode pl)) + words (ev_bytecode pl)
    + words (sub_bytecode pl) < 4096
}.

(** The code of [v] stands at the address [a] of the program [bc], its calls
    leading to the addresses of the table. *)
Definition code_at (bc : list BytecodeElement) (table : list SubroutineDescriptor) (a : Z) (v : BytecodeVector) : Prop :=
  exists il, reads (code v) il /\
    reads (take (List.length (code v)) (drop (Z.to_nat a) bc)) (List.map (redirect table) il).

Lemma sorted_nodup {V} (m : omap Z V) : om_sorted m -> NoDup (List.map fst m).
Proof.
  induction m as [|[k v] m IH]; [constructor|]. intros [Hf Hs]. simpl. constructor; [|by apply IH].
  intros Hin. apply list_elem_of_In, in_map_iff in Hin as ([k' v'] & Hk & Hin). simpl in Hk. subst k'.
  rewrite Forall_forall in Hf. apply list_elem_of_In, Hf in Hin. simpl in Hin. by rewrite Z.ltb_irrefl in Hin.
Qed.

Lemma find_split {V} (m : omap Z V) k v : om_sorted m -> om_find k m = Some v ->
  exists pre post, m = pre ++ (k, v) :: post.
Proof. intros Hs H. apply om_find_elem in H; [|done]. apply list_elem_of_split in H as (pre & post & ->). eauto. Qed.

(** A resolved segment stands where the segment stood. *)
Lemma segment_at table ms rs l1 l2 pre kv post a :
  Forall2 (resolved table) ms rs -> ms = pre ++ kv :: post ->
  Z.to_nat a = (List.length l1 + List.length (segments pre))%nat ->
  code_at (l1 ++ mjoin rs ++ l2) table a (snd kv).
Proof.
  intros Hf -> Ha. destruct (resolved_position _ _ _ _ _ Hf) as (r & (Hlr & il & Hil & Hr) & Htake).
  exists il. split; [done|]. by rewrite Ha, Htake.
Qed.

(** The parts of the linked program. *)
Section Linked.
Variables (pl : PreLinkBytecode) (table : list SubroutineDescriptor).
Hypothesis Hok : linkable pl table.

Definition base : Z := Z.of_nat (List.length (ev_bytecode pl)) * 2 + 1.
Definition header : list BytecodeElement := element base 0 :: event_table (ev_bytecode pl) base.

Lemma base_bounds : 1 <= base /\ base + words (ev_bytecode pl) + words (sub_bytecode pl) < 4096.
Proof. pose proof (linkable_size _ _ Hok). unfold base. lia. Qed.

Lemma base_u32 : u32 base = base.
Proof.
  apply u32_id. pose proof base_bounds. pose proof (words_nonneg (ev_bytecode pl)).
  pose proof (words_nonneg (sub_bytecode pl)). lia.
Qed.

Lemma events_ok : Forall (fun kv => event_id_ok (fst kv)) (ev_bytecode pl) /\
  Forall (fun kv => code (snd kv) <> []) (ev_bytecode pl).
Proof. split; (eapply Forall_impl; [exact (linkable_events _ _ Hok)|]); by intros ? []. Qed.

Lemma header_words : Forall table_word header /\ List.length header = Z.to_nat base.
Proof.
  destruct events_ok as [Hi Hn]. pose proof base_bounds. pose proof (words_nonneg (ev_bytecode pl)).
  pose proof (words_nonneg (sub_bytecode pl)).
  destruct (event_table_words (ev_bytecode pl) base) as [Hw Hl]; [done|lia|lia|done|].
  split; [|unfold header; simpl; rewrite Hl; unfold base; lia]. constructor; [apply small_word; lia|done].
Qed.

Lemma header_addresses rest : getEventAddressesToIds (header ++ rest) = Ok (starts base (ev_bytecode pl)).
Proof.
  destruct events_ok as [Hi Hn]. pose proof base_bounds. pose proof (words_nonneg (ev_bytecode pl)).
  pose proof (words_nonneg (sub_bytecode pl)).
  unfold header, getEventAddressesToIds. cbn [app element bytecode]. rewrite (u16_id base) by lia.
  assert (base / 2 = Z.of_nat (List.length (ev_bytecode pl))) as ->.
  { unfold base. rewrite Z.div_add_l by lia. change (1 / 2) with 0. lia. }
  rewrite Nat2Z.id, event_addresses_ok by (done || lia). f_equal. apply om_of_entries; [by apply starts_sorted|done].
Qed.

Lemma linked_subs : exists table',
  link_subs (sub_bytecode pl) (header ++ segments (ev_bytecode pl)) table
    = Ok ((header ++ segments (ev_bytecode pl)) ++ segments (sub_bytecode pl), table') /\
  List.map sub_name table' = List.map sub_name table /\
  forall pre id v post, sub_bytecode pl = pre ++ (id, v) :: post -> exists s, table' !! Z.to_nat id = Some s /\
    sub_address s = base + words (ev_bytecode pl) + words pre /\ sub_address s < 4096.
Proof.
  pose proof base_bounds. destruct header_words as [_ Hlen]. destruct (linkable_sorted _ _ Hok) as [_ Ss].
  assert (Z.of_nat (List.length (header ++ segments (ev_bytecode pl))) = base + words (ev_bytecode pl)) as Hl
    by (rewrite length_app, Hlen; unfold words; lia).
  destruct (link_subs_ok (sub_bytecode pl) (header ++ segments (ev_bytecode pl)) table)
    as (table' & H1 & Hn & _ & Haddr); [exact (linkable_subs _ _ Hok)|by apply sorted_nodup|lia|].
  exists table'. split_and!; [done..|]. intros pre id v post E.
  destruct (Haddr _ _ _ _ E) as (s & Hs & Ha). exists s. split_and!; [done|lia|].
  assert (words (sub_bytecode pl) = words pre + words ((id, v) :: post)) as Hw
    by (rewrite E; unfold words; rewrite segments_app, length_app; lia).
  pose proof (words_nonneg ((id, v) :: post)). lia.
Qed.

Lemma linked_readable table' m :
  (forall id v, om_find id (sub_bytecode pl) = Some v ->
     exists s, table' !! Z.to_nat id = Some s /\ 0 <= sub_address s < 4096) ->
  (forall kv, kv ∈ m -> kv ∈ ev_bytecode pl ++ sub_bytecode pl) ->
  Forall (fun kv => exists il, reads (code (snd kv)) il /\ resolvable table' il) m.
Proof.
  intros Ht Hm. apply Forall_forall. intros kv Hin. pose proof (linkable_code _ _ Hok) as Hcode.
  rewrite Forall_forall in Hcode. destruct (Hcode kv (Hm kv Hin)) as (il & Hr & Hc).
  exists il. split; [done|]. intros id Hid. destruct (Hc id Hid) as [v Hv]. eauto.
Qed.

(** The linked program: the table of events, then the segments with their
    calls resolved. *)
Lemma link_parts bytecodeSize : exists table' re rs,
  let bc := header ++ mjoin re ++ mjoin rs in
  link bytecodeSize pl table = Ok (Z.of_nat (List.length bc) <=? bytecodeSize, bc, table') /\
  Forall2 (resolved table') (ev_bytecode pl) re /\ Forall2 (resolved table') (sub_bytecode pl) rs /\
  List.map sub_name table' = List.map sub_name table /\
  forall pre id v post, sub_bytecode pl = pre ++ (id, v) :: post -> exists s, table' !! Z.to_nat id = Some s /\
    sub_address s = base + words (ev_bytecode pl) + words pre /\ sub_address s < 4096.
Proof.
  pose proof base_bounds as Hb. pose proof (words_nonneg (ev_bytecode pl)).
  destruct header_words as [Htbl Hlen]. destruct linked_subs as (table' & Hl & Hn & Hres).
  assert (forall id v, om_find id (sub_bytecode pl) = Some v ->
     exists s, table' !! Z.to_nat id = Some s /\ 0 <= sub_address s < 4096) as Ht.
  { intros id v Hv. destruct (find_split _ _ _ (proj2 (linkable_sorted _ _ Hok)) Hv) as (pre & post & E).
    destruct (Hres _ _ _ _ E) as (s & Hs & Ha & Hlt). exists s.
    pose proof (words_nonneg pre). split; [done|lia]. }
  destruct (resolve_segments table' (ev_bytecode pl)) as (re & Hre & Happe);
    [apply linked_readable; [done|]; intros; apply elem_of_app; by left|].
  destruct (resolve_segments table' (sub_bytecode pl)) as (rs & Hrs & Happs);
    [apply linked_readable; [done|]; intros; apply elem_of_app; by right|].
  exists table', re, rs. split_and!; try done.
  unfold link. cbv zeta. fold base. rewrite base_u32. fold header. fold (segments (ev_bytecode pl)).
  rewrite Hl. cbn [mbind res_bind]. rewrite <- app_assoc, resolve_table by done.
  rewrite Happe, <- (app_nil_r (segments (sub_bytecode pl))), Happs. cbn. by rewrite app_nil_r.
Qed.
End Linked.

(** Linking puts the program together.  On the tables that code generation
    leaves, [link] succeeds; the bytecode has one word for the size of the
    event table, two per event and then the code; [getEventAddressesToIds]
    reads the table back and finds, for each event, the address at which its
    code stands; the table of subroutines gets the addresses at which their
    code stands; in this code every call leads to the address of the
    subroutine it names and every other instruction is that of the generator.
    The verdict is whether the program fits in the target. *)
Theorem link_spec bytecodeSize pl table :
  linkable pl table ->
  exists bc table' m,
    link bytecodeSize pl table = Ok (Z.of_nat (List.length bc) <=? bytecodeSize, bc, table') /\
    Z.of_nat (List.length bc) = 1 + 2 * Z.of_nat (List.length (ev_bytecode pl)) + words (ev_bytecode pl)
                                + words (sub_bytecode pl) /\
    getEventAddressesToIds bc = Ok m /\
    (forall id v, om_find id (ev_bytecode pl) = Some v ->
       exists a, om_find a m = Some id /\ code_at bc table' a v) /\
    (forall id v, om_find id (sub_bytecode pl) = Some v ->
       exists s, table' !! Z.to_nat id = Some s /\ code_at bc table' (sub_address s) v).
Proof.
  intros ok. destruct (linkable_sorted _ _ ok) as [Es Ss]. destruct (header_words _ _ ok) as [_ Hlen].
  destruct (events_ok _ _ ok) as [_ Hn].
  destruct (link_parts _ _ ok bytecodeSize) as (table' & re & rs & Hl & Hre & Hrs & _ & Hres).
  pose proof (resolved_length _ _ _ Hre) as Hle. pose proof (resolved_length _ _ _ Hrs) as Hls.
  exists (header pl ++ mjoin re ++ mjoin rs), table', (starts (base pl) (ev_bytecode pl)). split_and!.
  - done.
  - rewrite !length_app, Hlen, Hle, Hls. unfold words, base in *. lia.
  - by eapply header_addresses.
  - intros id v Hv. destruct (find_split _ _ _ Es Hv) as (pre & post & E).
    exists (base pl + words pre). split; [|apply (segment_at _ _ _ _ _ _ (id, v) _ _ Hre E); rewrite Hlen; unfold words, base; lia].
    rewrite E in Hn |- *. apply starts_find. by apply Forall_app in Hn as [Hn _].
  - intros id v Hv. destruct (find_split _ _ _ Ss Hv) as (pre & post & E).
    destruct (Hres _ _ _ _ E) as (s & Hs & Ha & _). exists s. split; [done|].
    rewrite app_assoc, <- (app_nil_r (mjoin rs)). apply (segment_at _ _ _ _ _ _ (id, v) _ _ Hrs E).
    rewrite Ha, length_app, Hlen, Hle. unfold words, base. lia.
Qed.

(** An event that calls a subroutine. *)
Definition sample_program : PreLinkBytecode :=
  mkPreLink [(5, mkVector [element 0xD000 1; element 0 1] 0 0 1); (ASEBA_EVENT_INIT, mkVector [element 0 1] 0 0 1)]
            [(0, mkVector [element 0x3007 2; element 0x4008 2; element 0xE000 2] 1 0 2)] (CurSub 0).

Lemma sample_linkable : linkable sample_program [mkSub [] 0 2].
Proof.
  split.
  - constructor; [split; [left; simpl; lia|done]|]. constructor; [split; [right; simpl; unfold ASEBA_EVENT_INIT; lia|done]|].
    constructor.
  - constructor; [simpl; lia|constructor].
  - split; repeat constructor.
  - constructor; [|constructor; [|constructor; [|constructor]]]; simpl.
    + exists [SUB_CALL 0; STOP]. split; [reflexivity|]. intros id Hin. rewrite !elem_of_cons, elem_of_nil in Hin.
      destruct Hin as [[= ->]|[|[]]]; [by eexists|discriminate].
    + exists [STOP]. split; [reflexivity|]. intros id Hin. by rewrite elem_of_cons, elem_of_nil in Hin; destruct Hin.
    + exists [LOAD 7; STORE 8; SUB_RET]. split; [reflexivity|]. intros id Hin.
      rewrite !elem_of_cons, elem_of_nil in Hin. by destruct Hin as [|[|[|]]].
  - vm_compute. congruence.
Defined.

Lemma link_spec_witness :
  exists bc table' m, link 100 sample_program [mkSub [] 0 2] = Ok (Z.of_nat (List.length bc) <=? 100, bc, table') /\
    getEventAddressesToIds bc = Ok m.
Proof.
  destruct (link_spec 100 sample_program [mkSub [] 0 2] sample_linkable) as (bc & table' & m & H1 & _ & H2 & _).
  exists bc, table', m. split; [exact H1|exact H2].
Defined.
