(* ===== verification/StackSpec.v ===== *)
(** * What the stack check promises

    [verifyStackCalls] against its specification: the longest chain of calls
    that leads to a subroutine, plus the stack the subroutine needs, fits in
    the stack of the target. *)
From Stdlib Require Import ZArith Lia List.
From stdpp Require Import base list.
From S2P Require Import Prelude Errors Consts OrdMap Emit Link.

Local Open Scope Z_scope.

Abbreviation vectors := (omap Z BytecodeVector).

Definition calls (v : BytecodeVector) : list Z := sub_calls 0 (code v).

(** ** Changing only the call depths *)

Definition static (v : BytecodeVector) : list BytecodeElement * Z := (code v, maxStackDepth v).

(** Two states of the table that differ by the call depths. *)
Definition same (m m' : vectors) : Prop :=
  om_sorted m' /\ List.map fst m' = List.map fst m /\
  forall id, static <$> om_find id m' = static <$> om_find id m.

Lemma same_refl m : om_sorted m -> same m m.
Proof. done. Qed.

Lemma same_trans a b c : same a b -> same b c -> same a c.
Proof. intros (_ & H1 & H2) (Hs & H3 & H4). split_and!; [done|congruence|]. intros id. by rewrite H4. Qed.

Lemma same_set m m' id v d :
  same m m' -> om_find id m' = Some v -> same m (om_set id (set_callDepth v d) m').
Proof.
  intros (Hs & Hk & Hf) Hv. split_and!.
  - by apply om_set_sorted.
  - by rewrite (om_set_keys id _ v).
  - intros i. destruct (decide (i = id)) as [->|Hne].
    + rewrite om_find_set, <- Hf, Hv. done.
    + rewrite om_find_set_ne by done. apply Hf.
Qed.

Lemma same_find m m' id v : same m m' -> om_find id m = Some v ->
  exists v', om_find id m' = Some v' /\ code v' = code v /\ maxStackDepth v' = maxStackDepth v.
Proof.
  intros (_ & _ & Hf) Hv. specialize (Hf id). rewrite Hv in Hf. simpl in Hf.
  destruct (om_find id m') as [v'|]; [|done]. injection Hf as H1 H2. eauto.
Qed.

Lemma same_find_inv m m' id v' : same m m' -> om_find id m' = Some v' ->
  exists v, om_find id m = Some v /\ code v' = code v /\ maxStackDepth v' = maxStackDepth v.
Proof.
  intros (_ & _ & Hf) Hv. specialize (Hf id). rewrite Hv in Hf. simpl in Hf.
  destruct (om_find id m) as [v|]; [|done]. injection Hf as H1 H2. eauto.
Qed.

(** The current call depth of a subroutine. *)
Definition depth (m : vectors) (id : Z) : Z :=
  match om_find id m with Some v => callDepth v | None => 0 end.

Lemma depth_set m id v d i :
  depth (om_set id (set_callDepth v d) m) i = if decide (i = id) then d else depth m i.
Proof.
  unfold depth. case_decide; subst; [by rewrite om_find_set|by rewrite om_find_set_ne].
Qed.

Section Spec.
Variable stackSize : Z.
Variable evs subs : vectors.

Hypothesis stack_range : 0 <= stackSize < 2147483647.
Hypothesis subs_sorted : om_sorted subs.
(** Every call has a target, as the type checker ensures. *)
Hypothesis events_closed : forall e v id, (e, v) ∈ evs -> id ∈ calls v -> is_Some (om_find id subs).
Hypothesis subs_closed : forall s v id, om_find s subs = Some v -> id ∈ calls v -> is_Some (om_find id subs).
Hypothesis depths_range : forall s v, om_find s subs = Some v -> 0 <= maxStackDepth v < 2147483648.
Hypothesis depths_init : forall s v, om_find s subs = Some v -> callDepth v = 0.

(** ** The specification *)

(** [chain k s]: a chain of [k] calls leads to subroutine [s], from an event
    or from a subroutine that need not be called. *)
Inductive chain : Z -> Z -> Prop :=
| chain_start s : is_Some (om_find s subs) -> chain 0 s
| chain_event e v s : (e, v) ∈ evs -> s ∈ calls v -> chain 1 s
| chain_call k s v t : chain k s -> om_find s subs = Some v -> t ∈ calls v -> chain (k + 1) t.

Definition fits : Prop :=
  (forall e v, (e, v) ∈ evs -> maxStackDepth v <= stackSize) /\
  (forall k s v, chain k s -> om_find s subs = Some v -> k + maxStackDepth v <= stackSize).

Lemma chain_nonneg k s : chain k s -> 0 <= k.
Proof. induction 1; lia. Qed.

(** ** The invariant: every depth is that of a chain *)

Definition inv (m : vectors) : Prop :=
  same subs m /\ forall s, is_Some (om_find s subs) -> chain (depth m s) s.

Lemma inv_init : inv subs.
Proof.
  split; [by apply same_refl|]. intros s Hs. unfold depth. destruct Hs as [v Hv].
  rewrite Hv, (depths_init s v Hv). apply chain_start. eauto.
Qed.

Lemma inv_set m id v k :
  inv m -> om_find id m = Some v -> chain k id -> inv (om_set id (set_callDepth v k) m).
Proof.
  intros [Hs Hc] Hv Hk. split; [by apply same_set|]. intros s Hi. rewrite depth_set.
  case_decide; subst; auto.
Qed.

Lemma inv_find m id : inv m -> is_Some (om_find id subs) -> exists v, om_find id m = Some v.
Proof. intros [Hs _] [v Hv]. destruct (same_find _ _ _ _ Hs Hv) as (v' & ? & _). eauto. Qed.

(** ** The events *)

Lemma mark_called_ok e v ids m :
  (e, v) ∈ evs -> (forall id, id ∈ ids -> id ∈ calls v) -> inv m ->
  exists m', mark_called ids m = Ok m' /\ inv m' /\
    (forall id, depth m id = 1 -> depth m' id = 1) /\ (forall id, id ∈ ids -> depth m' id = 1) /\
    ((forall id, depth m id <= 1) -> forall id, depth m' id <= 1).
Proof.
  intros He. revert m; induction ids as [|id ids IH]; intros m Hids Hm; simpl.
  - exists m. split_and!; try done; auto. intros id Hid. by apply elem_of_nil in Hid.
  - assert (id ∈ calls v) as Hid by (apply Hids, list_elem_of_here).
    destruct (inv_find m id Hm) as [w Hw]; [by eapply events_closed|]. rewrite Hw.
    destruct (IH (om_set id (set_callDepth w 1) m)) as (m' & Hm' & Hinv & Hkeep & Hdone & Hone).
    { intros i Hi. apply Hids. by apply list_elem_of_further. }
    { apply inv_set; [done..|]. by eapply chain_event. }
    exists m'. split_and!; [done|done| | |].
    3: { intros Hle. apply Hone. intros i. rewrite depth_set. case_decide; [lia|auto]. }
    + intros i Hi. apply Hkeep. rewrite depth_set. by case_decide.
    + intros i Hi. apply elem_of_cons in Hi as [->|Hi]; [|by apply Hdone].
      apply Hkeep. rewrite depth_set. by rewrite decide_True.
Qed.

Lemma check_events_ok l m :
  (forall e v, (e, v) ∈ l -> (e, v) ∈ evs) -> inv m ->
  exists r, check_events stackSize l m = Ok r /\
  match r with
  | None => exists e v, (e, v) ∈ evs /\ stackSize < maxStackDepth v
  | Some m' => inv m' /\ (forall e v, (e, v) ∈ l -> maxStackDepth v <= stackSize) /\
               (forall id, depth m id = 1 -> depth m' id = 1) /\
               (forall e v id, (e, v) ∈ l -> id ∈ calls v -> depth m' id = 1) /\
               ((forall id, depth m id <= 1) -> forall id, depth m' id <= 1)
  end.
Proof.
  revert m; induction l as [|[e v] l IH]; intros m Hl Hm; simpl.
  - exists (Some m). split; [done|]. split_and!; try done; auto; intros * Hin; by apply elem_of_nil in Hin.
  - assert ((e, v) ∈ evs) as He by (apply Hl, list_elem_of_here).
    destruct (stackSize <? maxStackDepth v) eqn:E; b2p.
    + exists None. split; [done|]. eauto.
    + destruct (mark_called_ok e v (calls v) m He) as (m1 & H1 & I1 & K1 & D1 & O1); [done|done|].
      unfold calls in H1. rewrite H1. simpl.
      destruct (IH m1) as (r & Hr & Hspec); [|done|].
      { intros e' v' Hin. apply Hl. by apply list_elem_of_further. }
      exists r. split; [done|]. destruct r as [m'|]; [|done].
      destruct Hspec as (I & B & K & D & O). split_and!; [done| | | |auto].
      * intros e' v' Hin. apply elem_of_cons in Hin as [[= -> ->]|Hin]; [done|eauto].
      * auto.
      * intros e' v' id Hin Hid. apply elem_of_cons in Hin as [[= -> ->]|Hin]; eauto.
Qed.

(** ** The rounds over the subroutines *)

Definition keys : list Z := List.map fst subs.

(** The depths grow and stay at most [stackSize + 1]. *)
Inductive grows (m m' : vectors) : Prop :=
| Grows :
    (forall id, depth m id <= depth m' id) ->
    ((forall id, depth m id <= stackSize + 1) -> forall id, depth m' id <= stackSize + 1) ->
    grows m m'.

Lemma grows_refl m : grows m m.
Proof. split; [lia|auto]. Qed.

Lemma grows_trans a b c : grows a b -> grows b c -> grows a c.
Proof. intros [H1 H2] [H3 H4]. split; [intros id; specialize (H1 id); specialize (H3 id); lia|auto]. Qed.

Definition strict (m m' : vectors) : Prop := exists id, id ∈ keys /\ depth m id < depth m' id.

Lemma raise_depth_ok s v k ids m a :
  om_find s subs = Some v -> (forall id, id ∈ ids -> id ∈ calls v) -> chain k s -> k <= stackSize -> inv m ->
  exists m' a', raise_depth k ids m a = Ok (m', a') /\ inv m' /\ grows m m' /\
    (a' = false -> a = false /\ m' = m /\ forall id, id ∈ ids -> k + 1 <= depth m id) /\
    (a' = true -> a = true \/ strict m m').
Proof.
  intros Hs. revert m a; induction ids as [|id ids IH]; intros m a Hids Hk Hle Hm; simpl.
  - exists m, a. split_and!; [done|done|apply grows_refl| |auto].
    intros Ha. split_and!; try done. intros id Hin. by apply elem_of_nil in Hin.
  - assert (id ∈ calls v) as Hid by (apply Hids, list_elem_of_here).
    assert (is_Some (om_find id subs)) as Hsome by (by eapply subs_closed).
    destruct (inv_find m id Hm Hsome) as [w Hw]. rewrite Hw.
    assert (depth m id = callDepth w) as Hd by (unfold depth; by rewrite Hw).
    rewrite (u32_id (k + 1)) by (pose proof (chain_nonneg _ _ Hk); lia).
    destruct (callDepth w <? k + 1) eqn:E; b2p.
    + set (m1 := om_set id (set_callDepth w (k + 1)) m).
      assert (inv m1) as Hm1 by (apply inv_set; [done..|]; by eapply chain_call).
      assert (grows m m1) as Hg1.
      { split; intros; subst m1; [|specialize (H id0)]; rewrite depth_set; case_decide; subst; lia. }
      assert (strict m m1) as Hst.
      { exists id. split; [by apply om_find_keys|]. subst m1. rewrite depth_set, decide_True by done. lia. }
      destruct (IH m1 true) as (m' & a' & Hr & I & G & F & T); try done.
      { intros i Hi. apply Hids. by apply list_elem_of_further. }
      exists m', a'. split_and!; [done|done|by eapply grows_trans| |].
      * intros ->. by destruct F.
      * intros _. right. destruct Hst as (i & Hi & Hlt). exists i. split; [done|].
        destruct G as [G _]. specialize (G i). lia.
    + destruct (IH m a) as (m' & a' & Hr & I & G & F & T); try done.
      { intros i Hi. apply Hids. by apply list_elem_of_further. }
      exists m', a'. split_and!; try done. intros Ha. destruct (F Ha) as (-> & -> & Hall).
      split_and!; try done. intros i Hi. apply elem_of_cons in Hi as [->|Hi]; [lia|auto].
Qed.

Definition bounded (m : vectors) : Prop := forall id, depth m id <= stackSize + 1.

Lemma check_subs_ok ids m a :
  (forall id, id ∈ ids -> id ∈ keys) -> inv m -> bounded m ->
  exists r, check_subs stackSize ids m a = Ok r /\
  match r with
  | None => exists k s v, chain k s /\ om_find s subs = Some v /\ stackSize < k + maxStackDepth v
  | Some (m', a') =>
      inv m' /\ grows m m' /\
      (a' = false -> a = false /\ m' = m /\ forall s v, s ∈ ids -> om_find s subs = Some v ->
         depth m s + maxStackDepth v <= stackSize /\ forall t, t ∈ calls v -> depth m s + 1 <= depth m t) /\
      (a' = true -> a = true \/ strict m m')
  end.
Proof.
  revert m a; induction ids as [|id ids IH]; intros m a Hids Hm Hb; simpl.
  - exists (Some (m, a)). split; [done|]. split_and!; [done|apply grows_refl| |auto].
    intros Ha. split_and!; try done. intros s v Hin. by apply elem_of_nil in Hin.
  - assert (is_Some (om_find id subs)) as [v Hv] by (apply om_find_keys, Hids, list_elem_of_here).
    destruct Hm as [Hsame Hch] eqn:Em. clear Em. assert (inv m) as Hm' by (split; done).
    destruct (same_find _ _ _ _ Hsame Hv) as (w & Hw & Hcode & Hmax). rewrite Hw. simpl.
    assert (depth m id = callDepth w) as Hd by (unfold depth; by rewrite Hw).
    assert (chain (callDepth w) id) as Hc by (rewrite <- Hd; apply Hch; eauto).
    pose proof (chain_nonneg _ _ Hc). pose proof (Hb id) as Hbid. pose proof (depths_range id v Hv).
    rewrite u32_id by lia. destruct (stackSize <? callDepth w + maxStackDepth w) eqn:E; b2p.
    + exists None. split; [done|]. exists (callDepth w), id, v. split_and!; [done..|lia].
    + destruct (raise_depth_ok id v (callDepth w) (sub_calls 0 (code w)) m a)
        as (m1 & a1 & Hr & I1 & G1 & F1 & T1); [done| |done|lia|done|].
      { rewrite Hcode. done. }
      rewrite Hr. simpl.
      destruct (IH m1 a1) as (r & Hr' & Hspec); [|done|destruct G1 as [_ HG]; exact (HG Hb)|].
      { intros i Hi. apply Hids. by apply list_elem_of_further. }
      exists r. split; [done|]. destruct r as [[m' a']|]; [|done].
      destruct Hspec as (I & G & F & T). split_and!; [done|by eapply grows_trans| |].
      * intros Ha. destruct (F Ha) as (Ha1 & -> & Hall). destruct (F1 Ha1) as (-> & -> & Hcalls).
        split_and!; try done. intros s x Hs Hx. apply elem_of_cons in Hs as [->|Hs]; [|by apply Hall].
        rewrite Hv in Hx. injection Hx as <-. rewrite Hd. split; [lia|].
        intros t Ht. apply Hcalls. by rewrite Hcode.
      * intros Ha. destruct (T Ha) as [Ha1|(i & Hi & Hlt)].
        -- destruct (T1 Ha1) as [->|(i & Hi & Hlt)]; [by left|right]. exists i. split; [done|].
           destruct G as [G _]. specialize (G i). lia.
        -- right. exists i. split; [done|]. destruct G1 as [G1 _]. specialize (G1 i). lia.
Qed.

(** ** Termination: the sum of the depths *)

Definition total (ks : list Z) (m : vectors) : Z := foldr (fun k acc => depth m k + acc) 0 ks.

Lemma total_grows ks m m' : (forall id, depth m id <= depth m' id) -> total ks m <= total ks m'.
Proof. intros H. induction ks as [|k ks IH]; simpl; [lia|]. specialize (H k). lia. Qed.

Lemma total_strict ks m m' id :
  (forall id, depth m id <= depth m' id) -> id ∈ ks -> depth m id < depth m' id -> total ks m < total ks m'.
Proof.
  intros H Hin Hlt. induction ks as [|k ks IH]; [by apply elem_of_nil in Hin|].
  simpl. apply elem_of_cons in Hin as [->|Hin].
  - pose proof (total_grows ks m m' H). lia.
  - specialize (IH Hin). specialize (H k). lia.
Qed.

Lemma total_bound ks m : bounded m -> total ks m <= Z.of_nat (List.length ks) * (stackSize + 1).
Proof. intros H. induction ks as [|k ks IH]; simpl; [lia|]. specialize (H k). lia. Qed.

Lemma total_nonneg ks m :
  (forall s, is_Some (om_find s subs) -> chain (depth m s) s) -> same subs m -> 0 <= total ks m.
Proof.
  intros Hc Hs. induction ks as [|k ks IH]; simpl; [lia|].
  assert (0 <= depth m k); [|lia].
  destruct (om_find k m) as [v|] eqn:E; [|unfold depth; rewrite E; lia].
  destruct (same_find_inv _ _ _ _ Hs E) as (w & Hw & _). apply (chain_nonneg _ k), Hc. eauto.
Qed.

(** The invariant of the loop, and its measure. *)
Definition round_inv (m : vectors) : Prop :=
  inv m /\ bounded m /\ (forall e v id, (e, v) ∈ evs -> id ∈ calls v -> 1 <= depth m id).

Definition slack (m : vectors) : Z := Z.of_nat (List.length keys) * (stackSize + 1) - total keys m.

Definition decided (r : res error bool) : Prop :=
  exists b, r = Ok b /\
    if b then forall k s v, chain k s -> om_find s subs = Some v -> k + maxStackDepth v <= stackSize
    else exists k s v, chain k s /\ om_find s subs = Some v /\ stackSize < k + maxStackDepth v.

(** Without activity the depths bound the length of every chain. *)
Lemma quiet_round m :
  round_inv m ->
  (forall s v, s ∈ keys -> om_find s subs = Some v ->
     depth m s + maxStackDepth v <= stackSize /\ forall t, t ∈ calls v -> depth m s + 1 <= depth m t) ->
  decided (Ok true).
Proof.
  intros (Hm & Hb & He) Hall. exists true. split; [done|].
  assert (forall k s, chain k s -> is_Some (om_find s subs) /\ k <= depth m s) as Hch.
  { induction 1 as [s Hs|e v s Hev Hs|k s v t Hc [_ IHc] Hv Ht].
    - split; [done|]. destruct Hm as [_ Hm]. apply (chain_nonneg _ s), Hm, Hs.
    - split; [by eapply events_closed|]. by eapply He.
    - split; [by eapply subs_closed|].
      destruct (Hall s v) as [_ Hc']; [apply om_find_keys; eauto|done|]. specialize (Hc' t Ht). lia. }
  intros k s v Hc Hv. destruct (Hch k s Hc) as [_ Hle].
  destruct (Hall s v) as [Hfit _]; [apply om_find_keys; eauto|done|]. lia.
Qed.

Lemma check_round_ok m : round_inv m ->
  match check_round stackSize m with
  | inl m' => round_inv m' /\ slack m' < slack m
  | inr r => decided r
  end.
Proof.
  intros Hri. pose proof Hri as (Hm & Hb & He). unfold check_round.
  assert (List.map fst m = keys) as -> by apply Hm.
  destruct (check_subs_ok keys m false) as (r & -> & Hspec); [done..|].
  destruct r as [[m' []]|]; [| |by exists false].
  - destruct Hspec as (I & [G1 G2] & _ & T). destruct (T eq_refl) as [|(i & Hi & Hlt)]; [done|].
    split; [split_and!; [done|exact (G2 Hb)|]|].
    + intros e v id Hev Hid. specialize (He e v id Hev Hid). specialize (G1 id). lia.
    + unfold slack. pose proof (total_strict keys m m' i G1 Hi Hlt). lia.
  - destruct Hspec as (_ & _ & F & _). destruct (F eq_refl) as (_ & -> & Hall).
    by apply (quiet_round m).
Qed.

Lemma check_rounds_ok m : round_inv m -> decided (check_rounds stackSize m).
Proof.
  intros Hm. unfold check_rounds.
  destruct (loop_ends (check_round stackSize) round_inv decided slack check_round_ok
              (rounds_fuel m) m) as (r & -> & Hr); [|done| |done].
  - intros m' (_ & Hb & _). pose proof (total_bound keys m' Hb). unfold slack. lia.
  - assert (0 <= total keys m) as H0 by (apply total_nonneg; apply Hm).
    assert (List.map fst m = keys) as Hk by apply Hm. unfold slack, rounds_fuel.
    rewrite <- (length_map fst m), Hk, Z2Pos.id; nia.
Qed.
End Spec.

(** ** Results *)

(** What [fixup] and the type checker establish: an ordered table, calls that
    have a target, depths that are machine integers, no call counted yet. *)
Record callable (evs subs : vectors) : Prop := Callable {
  callable_sorted : om_sorted subs;
  callable_events : forall e v id, (e, v) ∈ evs -> id ∈ calls v -> is_Some (om_find id subs);
  callable_subs : forall s v id, om_find s subs = Some v -> id ∈ calls v -> is_Some (om_find id subs);
  callable_range : forall s v, om_find s subs = Some v -> 0 <= maxStackDepth v < 2147483648;
  callable_init : forall s v, om_find s subs = Some v -> callDepth v = 0
}.

(** C11: the stack check terminates and decides its specification.  It accepts
    exactly when every event fits in the stack of the target and every chain of
    calls, with one word per call, leaves enough stack for the subroutine it
    leads to.  The loop over the call graph always ends, recursion included. *)
Theorem verifyStackCalls_spec stackSize pl :
  0 <= stackSize < 2147483647 -> callable (ev_bytecode pl) (sub_bytecode pl) ->
  exists b, verifyStackCalls stackSize pl = Ok b /\
            (b = true <-> fits stackSize (ev_bytecode pl) (sub_bytecode pl)).
Proof.
  intros Hr [Hs He Hc Hd Hi]. unfold verifyStackCalls.
  destruct (check_events_ok stackSize _ _ He (ev_bytecode pl) (sub_bytecode pl))
    as (r & -> & Hspec); [done|by apply inv_init|]. simpl.
  destruct r as [m|].
  - destruct Hspec as (Hm & Hev & _ & Hone & Hle).
    assert (List.map fst m = keys (sub_bytecode pl)) as Hk by apply Hm.
    assert (forall id, depth m id <= 1) as H1.
    { apply Hle. intros id. unfold depth. destruct (om_find id _) eqn:E; [|lia]. rewrite (Hi _ _ E). lia. }
    destruct (check_rounds_ok stackSize (ev_bytecode pl) (sub_bytecode pl) Hr He Hc Hd m) as (b & -> & Hb).
    + split_and!; [done| |].
      * intros id. specialize (H1 id). lia.
      * intros e v id Hin Hid. by rewrite (Hone e v id Hin Hid).
    + exists b. split; [done|]. destruct b.
      * split; [|done]. intros _. split; [exact Hev|exact Hb].
      * split; [done|]. intros [_ Hf]. destruct Hb as (k & s & v & Hk' & Hv & Hlt).
        specialize (Hf k s v Hk' Hv). lia.
  - exists false. split; [done|]. split; [done|]. intros [Hf _].
    destruct Hspec as (e & v & Hin & Hlt). specialize (Hf e v Hin). lia.
Qed.

(** A subroutine that calls itself, called by an event. *)
Definition recursive_program : PreLinkBytecode :=
  mkPreLink [(ASEBA_EVENT_INIT, mkVector [element 0xD000 1; element 0 1] 0 0 1)]
            [(0, mkVector [element 0xD000 2; element 0xE000 2] 1 0 2)] (CurSub 0).

Lemma recursive_callable : callable (ev_bytecode recursive_program) (sub_bytecode recursive_program).
Proof.
  split.
  - repeat constructor.
  - intros e v id Hin. simpl in Hin. rewrite elem_of_cons, elem_of_nil in Hin.
    destruct Hin as [[= -> ->]|[]]. intros Hc. assert (id ∈ [0]) as H0 by exact Hc.
    apply elem_of_cons in H0 as [->|H0]; [by eexists|by apply elem_of_nil in H0].
  - intros s v id Hf. simpl in Hf. destruct (s =? 0); [|done]. injection Hf as <-.
    intros Hc. assert (id ∈ [0]) as H0 by exact Hc.
    apply elem_of_cons in H0 as [->|H0]; [by eexists|by apply elem_of_nil in H0].
  - intros s v Hf. simpl in Hf. destruct (s =? 0); [|done]. injection Hf as <-. simpl. lia.
  - intros s v Hf. simpl in Hf. destruct (s =? 0); [|done]. injection Hf as <-. done.
Defined.

Lemma verifyStackCalls_spec_witness :
  exists b, verifyStackCalls 32 recursive_program = Ok b /\
            (b = true <-> fits 32 (ev_bytecode recursive_program) (sub_bytecode recursive_program)).
Proof. apply verifyStackCalls_spec; [lia|apply recursive_callable]. Defined.
