(* ===== verification/CompileSpec.v ===== *)
(** * The compiler ends

    The parts of the compiler put together: on every source, [compile] ends
    with a bytecode that fits in the target or with a well-formed error. *)
From Stdlib Require Import ZArith Lia List String.
From stdpp Require Import base list strings.
From S2P Require Import Prelude Errors Consts Disasm OrdMap Target Lexer LexerSpec Lookup Tree.
From S2P Require Import TypeCheck Optimize Expand Fine ExpandSpec Parser ParserSpec Emit.
From S2P Require Import CodeSpec Link StackSpec.

Local Open Scope Z_scope.

(** ** Expansion reaches only states of the invariant *)

Definition moves {A} (m : M A) : Prop := forall st a st', m st = Ok (a, st') -> reaches st st'.

Lemma moves_bind {A B} (m : M A) (f : A -> M B) : moves m -> (forall a, moves (f a)) -> moves (m ≫= f).
Proof.
  intros Hm Hf st b st'. unfold mbind, M_bind.
  destruct (m st) as [[a st1]|e| | |] eqn:E; try done. intros H.
  transitivity st1; [by eapply Hm|by eapply Hf].
Qed.
Lemma moves_ret {A} (a : A) : moves (mret a).
Proof. intros st b st' [= <- <-]. reflexivity. Qed.
Lemma moves_lift {A} (r : res error A) : moves (lift r).
Proof. intros st a st'. unfold lift. destruct r; try done. intros [= <- <-]. reflexivity. Qed.
Lemma moves_fail {A} p c args : moves (fail (A:=A) p c args).
Proof. done. Qed.
Lemma moves_get {A} (f : Compiler -> A) : moves (get f).
Proof. intros st a st' [= <- <-]. reflexivity. Qed.
Lemma moves_modify f : (forall c, reaches c (f c)) -> moves (modify f).
Proof. intros H st a st' [= <- <-]. apply H. Qed.
Lemma moves_mapM {A B} (f : A -> M B) l : Forall (fun a => moves (f a)) l -> moves (mapM_ f l).
Proof.
  induction 1; simpl; [apply moves_ret|]. apply moves_bind; [done|]. intros b.
  apply moves_bind; [done|]. intros; apply moves_ret.
Qed.

Create HintDb moves.
#[export] Hint Resolve moves_ret moves_lift moves_fail moves_get : moves.
Ltac moves := repeat first
  [ solve [eauto with moves] | apply moves_bind; [|intros ?]
  | match goal with
    | |- moves (match ?x with _ => _ end) => destruct x
    | |- moves (if ?x then _ else _) => destruct x
    end ].

Lemma moves_allocate p r : moves (allocateTemporaryVariable p r).
Proof.
  unfold allocateTemporaryVariable, allocateTemporaryMemory. moves; apply moves_modify; intros c.
  - apply reaches_set_end.
  - apply reaches_set_uid.
Qed.
#[export] Hint Resolve moves_allocate : moves.

Section ExpandMoves.
Variable ea : SourcePos -> node -> node -> M node.
Hypothesis ea_moves : forall p l r, moves (ea p l r).

Lemma moves_tuple (expand : node -> Z -> M node) cs total i :
  Forall (fun c => forall i, moves (expand c i)) cs -> moves (expand_tuple expand cs total i).
Proof.
  intros H; revert total; induction H as [|c cs Hc _ IH]; intros total; cbn [expand_tuple]; moves.
Qed.

Lemma moves_expand n i : moves (expand_node ea n i).
Proof.
  revert i; induction n as [k p cs IH] using node_rose_ind; intros i.
  assert (moves (cs' ← mapM_ (fun c => expand_node ea c i) cs; mret (Node k p cs'))) as Hmap.
  { apply moves_bind; [|intros; apply moves_ret]. apply moves_mapM. eapply Forall_impl; [exact IH|]. auto. }
  destruct k; try exact Hmap; cbn [expand_node].
  - destruct cs as [|l [|r [|]]]; auto with moves.
  - moves.
  - by apply moves_tuple.
  - unfold expand_memory. cbv zeta. destruct IH as [|c cs Hc _]; moves.
Qed.

Lemma moves_for_below n (f : Z -> M node) i : (forall i, moves (f i)) -> moves (for_below n f i).
Proof. intros Hf; revert i; induction n; intros i; cbn [for_below]; moves. Qed.
End ExpandMoves.

Lemma moves_elements ea p l r : (forall p l r, moves (ea p l r)) -> moves (elements ea p l r).
Proof.
  intros H. unfold elements. moves. apply moves_for_below. intros i. moves; by apply moves_expand.
Qed.

Lemma moves_assignment fuel p l r : moves (expand_assignment allocateTemporaryVariable fuel p l r).
Proof.
  revert p l r; induction fuel as [|fuel IH]; intros p [[] lp cs] r; try apply moves_fail.
  - cbn [expand_assignment node_kind]. cbv zeta. apply moves_bind; [apply moves_lift|]. intros lSize.
    destruct (_ && _); [moves|]. apply (moves_elements (fun _ _ _ => lift NoFuel)). intros; apply moves_lift.
  - rewrite expand_assignment_memory. apply moves_bind; [apply moves_lift|]. intros lSize.
    destruct (_ && _); [moves|by apply moves_elements].
Qed.

Lemma vectorial_moves n i : moves (expandVectorialNodes allocateTemporaryVariable n i).
Proof. apply moves_expand. intros. apply moves_assignment. Qed.

(** ** Code generation throws nothing

    [sound r]: neither an exception nor an exhausted bound. *)
Definition sound {A} (r : res error A) : Prop :=
  match r with Throw _ | NoFuel => False | _ => True end.
#[global] Arguments sound {A} r : simpl never.

Lemma sound_bind {A B} (m : res error A) (f : A -> res error B) :
  sound m -> (forall a, m = Ok a -> sound (f a)) -> sound (m ≫= f).
Proof. intros Hm Hf. destruct m as [a|e| | |]; try done. by apply (Hf a). Qed.
Lemma sound_mapR {A B} (f : A -> res error B) l : Forall (fun a => sound (f a)) l -> sound (mapR f l).
Proof.
  induction 1 as [|a l Ha Hl IH]; simpl; [exact I|].
  apply sound_bind; [done|]. intros b _. apply sound_bind; [done|]. intros; exact I.
Qed.
Lemma sound_of_option {A} (o : option A) : sound (of_option o).
Proof. by destruct o. Qed.
Lemma sound_assert b : sound (assert_ b).
Proof. by destruct b. Qed.
Lemma sound_at {A} (l : list A) i : sound (at_ l i).
Proof. apply sound_of_option. Qed.

Create HintDb sound.
#[export] Hint Resolve sound_of_option sound_assert sound_at : sound.
Ltac sound := repeat match goal with
  | |- sound (Ok _) => exact I
  | |- sound Crash => exact I
  | |- sound Undef => exact I
  | |- sound (_ ≫= _) => apply sound_bind; [|intros ? ?]
  | |- sound (match ?x with _ => _ end) => destruct x
  | H : _ |- sound _ => exact H
  | H : _ |- sound _ => apply H
  | |- sound _ => solve [auto with sound]
  end.

Lemma sound_addImmediate z p v : sound (addImmediateToBytecodes z p v).
Proof. unfold addImmediateToBytecodes. sound. Qed.
#[export] Hint Resolve sound_addImmediate : sound.

Lemma sound_emit_templates args p v : sound (emit_templates args p v).
Proof. induction args; cbn [emit_templates]; sound. Qed.
#[export] Hint Resolve sound_emit_templates : sound.

Section EmitFine.
Variable f : node -> BytecodeVector -> res error BytecodeVector.

Lemma sound_emit_list cs v : Forall (fun c => forall v, sound (f c v)) cs -> sound (emit_list f cs v).
Proof. intros H; revert v; induction H; intros v; cbn [emit_list]; sound. Qed.
Lemma sound_emit_list_rev cs v : Forall (fun c => forall v, sound (f c v)) cs -> sound (emit_list_rev f cs v).
Proof. intros H; revert v; induction H; intros v; cbn [emit_list_rev]; sound. Qed.
Lemma sound_emit_pairs n cs v : (List.length cs <= n)%nat ->
  Forall (fun c => forall v, sound (f c v)) cs -> sound (emit_pairs f cs v).
Proof.
  revert cs v; induction n as [|n IH]; intros [|a [|b cs]] v Hn H; simpl in Hn; try exact I; try lia.
  apply Forall_cons_1 in H as [Ha H]. apply Forall_cons_1 in H as [Hb H]. cbn [emit_pairs].
  apply sound_bind; [done|]. intros v1 _. apply sound_bind; [done|]. intros v2 _. apply IH; [lia|done].
Qed.
End EmitFine.

Lemma sound_emit n v : sound (emit n v).
Proof.
  revert v; induction n as [k p cs IH] using node_rose_ind; intros v.
  destruct k; cbn [emit]; try exact I;
    try (apply sound_bind; [by apply sound_emit_list|intros; exact I]);
    try (by apply sound_emit_list); try (by eapply sound_emit_pairs).
  all: try (destruct cs as [|c0 [|c1 [|c2 [|c3 [|c4 cs]]]]]; split_forall; unfold emit_native_arg; sound; fail).
  apply sound_bind; [auto with sound|]. intros v1 _.
  apply sound_bind; [by apply sound_emit_list_rev|intros; exact I].
Qed.
#[export] Hint Resolve sound_emit : sound.

Lemma sound_getStackDepth n : sound (getStackDepth n).
Proof.
  induction n as [k p cs IH] using node_rose_ind.
  assert (forall acc, sound (max_depth getStackDepth acc cs)) as Hmax.
  { induction IH; intros acc; cbn [max_depth]; sound. }
  assert (forall args i acc, sound (call_depth getStackDepth args i acc cs)) as Hcall.
  { clear Hmax. induction IH; intros args i acc; cbn [call_depth]; sound. }
  destruct k; cbn [getStackDepth]; try exact I; try apply Hmax; try apply Hcall;
    destruct cs as [|c0 [|c1 [|c2 [|c3 [|c4 cs]]]]]; split_forall; sound.
Qed.
#[export] Hint Resolve sound_getStackDepth : sound.

Lemma sound_emit_children cs pl : sound (emit_children cs pl).
Proof.
  revert pl; induction cs as [|c cs IH]; intros pl; cbn [emit_children]; [exact I|].
  apply sound_bind; [unfold emit_child; sound|]. intros; apply IH.
Qed.

Lemma sound_analyze cs cur d pl : sound (analyze_depth cs cur d pl).
Proof.
  revert cur d pl; induction cs as [|c cs IH]; intros cur d pl; cbn [analyze_depth]; cbv zeta; sound.
Qed.

Lemma sound_emit_program n pl : sound (emit_program n pl).
Proof.
  unfold emit_program. destruct (node_kind n); try exact I.
  apply sound_bind; [apply sound_emit_children|intros; apply sound_analyze].
Qed.

Lemma sound_fixup table pl : sound (fixup table pl).
Proof.
  unfold fixup. apply sound_bind; [|intros; exact I]. apply sound_mapR, Forall_forall. intros kv _.
  unfold terminate_sub. sound.
Qed.

Lemma sound_link_subs subs acc table : sound (link_subs subs acc table).
Proof. revert acc table; induction subs as [|[id v] subs IH]; intros; cbn [link_subs]; sound. Qed.
Lemma sound_resolve table skip l : sound (resolve_calls table skip l).
Proof. revert skip; induction l as [|e l IH]; intros []; cbn [resolve_calls]; sound. Qed.
Lemma sound_link size pl table : sound (link size pl table).
Proof.
  unfold link. cbv zeta. apply sound_bind; [apply sound_link_subs|]. intros [vec3 table'] _.
  apply sound_bind; [apply sound_resolve|intros; exact I].
Qed.

(** ** Emission counts no call *)

Lemma emit_callDepth n v v' : emit n v = Ok v' -> callDepth v' = callDepth v.
Proof. rewrite emit_appends. intros H. by inv_ok. Qed.

(** The tables of subroutines of the code generator: ordered, no call counted. *)
Definition table_ok (m : vectors) : Prop := om_sorted m /\ Forall (fun kv => callDepth (snd kv) = 0) m.

Lemma table_find m id : table_ok m -> callDepth (default empty_vector (om_find id m)) = 0.
Proof.
  intros [Hs Hf]. destruct (om_find id m) as [v|] eqn:E; [|done]. apply om_find_elem in E; [|done].
  rewrite Forall_forall in Hf. by apply Hf in E.
Qed.

Lemma table_set m id v : table_ok m -> callDepth v = 0 -> table_ok (om_set id v m).
Proof. intros [Hs Hf] Hv. split; [by apply om_set_sorted|by apply om_set_Forall]. Qed.

Definition pl_ok (pl : PreLinkBytecode) : Prop := table_ok (ev_bytecode pl) /\ table_ok (sub_bytecode pl).

Lemma pl_ok_get pl c : pl_ok pl -> callDepth (get_vector pl c) = 0.
Proof. intros [H1 H2]. destruct c; by apply table_find. Qed.

Lemma pl_ok_set pl c v : pl_ok pl -> callDepth v = 0 -> pl_ok (set_vector pl c v).
Proof. intros [H1 H2] Hv. destruct c; (split; simpl; [|]); try done; by apply table_set. Qed.

Lemma pl_ok_children cs pl pl' : pl_ok pl -> emit_children cs pl = Ok pl' -> pl_ok pl'.
Proof.
  revert pl; induction cs as [|c cs IH]; intros pl Hpl; cbn [emit_children]; intros H; inv_ok; [done|].
  apply (IH x); [|done]. revert H. unfold emit_child.
  assert (forall v, emit c (get_vector pl (current pl)) = Ok v ->
            pl_ok (set_vector pl (current pl) v)) as Hv.
  { intros v Hv. apply emit_callDepth in Hv. apply pl_ok_set; [done|]. by rewrite Hv, pl_ok_get. }
  destruct Hpl as [H1 H2].
  destruct (node_kind c); try (intros H; inv_ok; by apply Hv).
  - destruct (om_find eventId _); [done|]. intros H. inv_ok. split; simpl; [by apply table_set|done].
  - destruct (om_find subroutineId _); [done|]. intros H. inv_ok. split; simpl; [done|by apply table_set].
Qed.

Lemma pl_ok_analyze cs cur d pl pl' : pl_ok pl -> analyze_depth cs cur d pl = Ok pl' -> pl_ok pl'.
Proof.
  revert cur d pl; induction cs as [|c cs IH]; intros cur d pl Hpl; cbn [analyze_depth]; cbv zeta.
  - intros [= <-]. apply pl_ok_set; [done|]. simpl. by rewrite pl_ok_get.
  - assert (pl_ok (set_vector pl cur (set_maxStackDepth (get_vector pl cur) d))) as Hc.
    { apply pl_ok_set; [done|]. simpl. by rewrite pl_ok_get. }
    destruct (node_kind c); intros H; inv_ok; (eapply IH; [|eassumption]; assumption).
Qed.

Lemma terminate_sub_callDepth table id v v' : terminate_sub table id v = Ok v' -> callDepth v' = callDepth v.
Proof.
  unfold terminate_sub. destruct (is_empty v); [intros H; by inv_ok|]. by destruct (_ =? _); intros [= <-].
Qed.

Lemma sorted_keys {V W} (m : omap Z V) (m' : omap Z W) :
  List.map fst m' = List.map fst m -> om_sorted m -> om_sorted m'.
Proof.
  revert m'; induction m as [|[k v] m IH]; intros [|[k' v'] m'] Hk; simpl in Hk; try done.
  injection Hk as -> Hk. intros [Hf Hs]. split; [|by apply IH].
  clear IH Hs v v'. revert m' Hk; induction Hf as [|[k1 v1] m H1 _ IH]; intros [|[k2 v2] m'] Hk; try done.
  simpl in Hk. injection Hk as -> Hk. constructor; [done|by apply IH].
Qed.

Lemma sorted_filter {V} (f : Z * V -> bool) (m : omap Z V) : om_sorted m -> om_sorted (List.filter f m).
Proof.
  induction m as [|[k v] m IH]; [done|]. intros [Hf Hs]. simpl. destruct (f (k, v)); [|by apply IH].
  split; [|by apply IH]. rewrite Forall_forall in *. intros x Hx. apply Hf.
  apply list_elem_of_In, filter_In in Hx as [Hx _]. by apply list_elem_of_In.
Qed.

Lemma pl_ok_fixup table pl pl' : pl_ok pl -> fixup table pl = Ok pl' -> pl_ok pl'.
Proof.
  intros [[E1 E2] [S1 S2]]. unfold fixup. intros H. inv_ok. rename x into subs, H into Hm.
  apply mapR_Forall2 in Hm. split; simpl; split.
  - apply (sorted_keys (List.filter (fun kv => negb (is_empty (snd kv))) (ev_bytecode pl))); [|by apply sorted_filter].
    rewrite map_map. by apply map_ext.
  - apply Forall_forall. intros kv Hin. apply list_elem_of_In, in_map_iff in Hin as (x & <- & Hin).
    apply filter_In in Hin as [Hin%list_elem_of_In _]. rewrite Forall_forall in E2. exact (E2 _ Hin).
  - eapply sorted_keys; [|exact S1]. clear S1 S2. induction Hm as [|a b l l' Hab _ IH]; [done|].
    inv_ok. simpl. by f_equal.
  - clear S1. induction Hm as [|a b l l' Hab _ IH]; [done|].
    apply Forall_cons_1 in S2 as [Ha S2]. inv_ok. constructor; [|by apply IH].
    simpl. apply terminate_sub_callDepth in H. by rewrite H.
Qed.

Lemma emit_program_ok n pl : emit_program n PreLink_init = Ok pl -> pl_ok pl.
Proof.
  unfold emit_program. destruct (node_kind n); try done. intros H. inv_ok.
  eapply pl_ok_analyze; [|exact H0]. eapply pl_ok_children; [|exact H].
  split; (split; [|]); try done; simpl; by repeat constructor.
Qed.

(** ** The stack check always ends

    Without any hypothesis on the calls: a missing target is an assertion, and
    the depths are bounded as machine integers. *)
Section StackCheck.
Variable stackSize : Z.

Definition depths_ok (m : vectors) : Prop := om_sorted m /\ forall id, 0 <= depth m id < 4294967296.

(** A step of the check keeps the keys and raises depths. *)
Record raised (m m' : vectors) : Prop := Raised {
  raised_ok : depths_ok m -> depths_ok m' /\ List.map fst m' = List.map fst m;
  raised_le : forall id, depth m id <= depth m' id
}.

Lemma raised_refl m : raised m m.
Proof. by constructor. Qed.
Lemma raised_trans a b c : raised a b -> raised b c -> raised a c.
Proof.
  intros [H1 H3] [H4 H6]. constructor.
  - intros Ha. destruct (H1 Ha) as [Hb Hk]. destruct (H4 Hb) as [Hc Hk']. split; [done|congruence].
  - intros id. specialize (H3 id); specialize (H6 id); lia.
Qed.

Lemma depth_found m id v : om_find id m = Some v -> depth m id = callDepth v.
Proof. unfold depth. by intros ->. Qed.

Lemma raised_set m id v d :
  om_find id m = Some v -> callDepth v <= d < 4294967296 -> raised m (om_set id (set_callDepth v d) m).
Proof.
  intros Hv Hd. pose proof (depth_found _ _ _ Hv) as Hdep. constructor.
  - intros [Hs Hr]. split; [|by apply (om_set_keys id _ v)]. split; [by apply om_set_sorted|].
    intros i. rewrite depth_set. pose proof (Hr id). case_decide; [lia|apply Hr].
  - intros i. rewrite depth_set. case_decide; subst; lia.
Qed.

Definition activity (m m' : vectors) : Prop :=
  exists id, depth m id < depth m' id.

Lemma raise_depth_fine k ids m a :
  match raise_depth k ids m a with
  | Ok (m', a') => raised m m' /\ (a' = true -> a = true \/ activity m m')
  | Crash => True
  | _ => False
  end.
Proof.
  revert m a; induction ids as [|id ids IH]; intros m a; simpl; [split; [apply raised_refl|auto]|].
  destruct (om_find id m) as [v|] eqn:E; [|done]. destruct (callDepth v <? u32 (k + 1)) eqn:El; [|apply IH]. b2p.
  specialize (IH (om_set id (set_callDepth v (u32 (k + 1))) m) true).
  pose proof (u32_range (k + 1)).
  assert (raised m (om_set id (set_callDepth v (u32 (k + 1))) m)) as Hr by (apply raised_set; [done|lia]).
  destruct (raise_depth _ _ _ _) as [[m' a']|e| | |]; try done. destruct IH as [IH _].
  split; [by eapply raised_trans|]. intros _. right. exists id.
  rewrite (depth_found _ _ _ E). destruct IH as [_ Hle]. specialize (Hle id).
  rewrite depth_set, decide_True in Hle by done. lia.
Qed.

Lemma check_subs_fine ids m a :
  match check_subs stackSize ids m a with
  | Ok (Some (m', a')) => raised m m' /\ (a' = true -> a = true \/ activity m m')
  | Ok None | Crash => True
  | _ => False
  end.
Proof.
  revert m a; induction ids as [|id ids IH]; intros m a; simpl; [split; [apply raised_refl|auto]|].
  destruct (om_find id m) as [v|]; [|done]. cbn [mbind res_bind of_option].
  destruct (_ <? _); [done|]. pose proof (raise_depth_fine (callDepth v) (sub_calls 0 (code v)) m a) as H1.
  destruct (raise_depth _ _ _ _) as [[m1 a1]|e| | |]; try done. cbn [mbind res_bind]. destruct H1 as [H1 T1].
  specialize (IH m1 a1). destruct (check_subs _ _ _ _) as [[[m2 a2]|]|e| | |]; try done. destruct IH as [H2 T2].
  split; [by eapply raised_trans|]. intros Ha. destruct (T2 Ha) as [Ha1|(i & Hlt)].
  - destruct (T1 Ha1) as [|(i & Hlt)]; [auto|]. right. exists i.
    destruct H2 as [_ Hle]. specialize (Hle i). lia.
  - right. destruct H1 as [_ Hle]. exists i. specialize (Hle i). lia.
Qed.

Lemma total_range ks m : depths_ok m -> 0 <= total ks m <= Z.of_nat (List.length ks) * 4294967295.
Proof. intros [_ H]. induction ks as [|k ks IH]; simpl; [lia|]. specialize (H k). lia. Qed.

Lemma check_rounds_sound m : depths_ok m -> sound (check_rounds stackSize m).
Proof.
  intros Hm. unfold check_rounds. set (ks := List.map fst m).
  destruct (loop_ends (check_round stackSize) (fun m' => depths_ok m' /\ List.map fst m' = ks) sound
              (fun m' => Z.of_nat (List.length ks) * 4294967295 - total ks m')) with (p := rounds_fuel m) (s := m)
    as (r & -> & Hr); [|..|done]; try done.
  - intros m' [Hd Hk]. unfold check_round. pose proof (check_subs_fine (List.map fst m') m' false) as H.
    destruct (check_subs _ _ _ _) as [[[m2 []]|]|e| | |]; try done.
    destruct H as [[H1 H3] T]. destruct (T eq_refl) as [|(i & Hlt)]; [done|].
    destruct (H1 Hd) as [Hd2 Hk2]. rewrite Hk in Hk2. split; [done|].
    assert (i ∈ ks) as Hi.
    { rewrite <- Hk2. apply om_find_keys. destruct Hd as [_ Hd]. specialize (Hd i).
      unfold depth in Hlt at 2. destruct (om_find i m2); [eauto|lia]. }
    pose proof (total_strict ks m' m2 i H3 Hi Hlt). lia.
  - intros m' [Hd _]. pose proof (total_range ks m' Hd). lia.
  - pose proof (total_range ks m Hm). unfold rounds_fuel. subst ks. rewrite length_map in *.
    rewrite Z2Pos.id; lia.
Qed.

Lemma mark_called_sound ids m :
  match mark_called ids m with Ok m' => depths_ok m -> depths_ok m' | Crash => True | _ => False end.
Proof.
  revert m; induction ids as [|id ids IH]; intros m; simpl; [done|].
  destruct (om_find id m) as [v|] eqn:E; [|done]. specialize (IH (om_set id (set_callDepth v 1) m)).
  destruct (mark_called _ _); try done. intros [Hs Hr]. apply IH. split; [by apply om_set_sorted|].
  intros i. rewrite depth_set. case_decide; [lia|done].
Qed.

Lemma check_events_sound evs m :
  match check_events stackSize evs m with
  | Ok (Some m') => depths_ok m -> depths_ok m'
  | Ok None | Crash => True
  | _ => False
  end.
Proof.
  revert m; induction evs as [|[id v] evs IH]; intros m; simpl; [done|].
  destruct (_ <? _); [done|]. pose proof (mark_called_sound (sub_calls 0 (code v)) m) as H.
  destruct (mark_called _ _) as [m1|e| | |]; try done. cbn [mbind res_bind]. specialize (IH m1).
  destruct (check_events _ _ _) as [[m2|]|e| | |]; try done. auto.
Qed.

Lemma verifyStackCalls_sound pl : pl_ok pl -> sound (verifyStackCalls stackSize pl).
Proof.
  intros [_ [Hs Hf]]. unfold verifyStackCalls.
  pose proof (check_events_sound (ev_bytecode pl) (sub_bytecode pl)) as H.
  destruct (check_events _ _ _) as [[m|]|e| | |]; try done. cbn [mbind res_bind]. apply check_rounds_sound, H.
  split; [done|]. intros id. unfold depth. pose proof (table_find _ id (conj Hs Hf)) as Hd.
  destruct (om_find id (sub_bytecode pl)); [|lia]. simpl in Hd. lia.
Qed.
End StackCheck.

(** ** [compile] *)

Lemma ascending_length lo hi l : lo <= hi -> ascending lo hi l -> Z.of_nat (List.length l) <= hi - lo.
Proof.
  revert lo; induction l as [|t l IH]; intros lo Hlo; simpl; [lia|].
  intros [[H _] Hl]. apply IH in Hl; lia.
Qed.

(** What a compilation promises. *)
Definition outcome_ok (t : TargetDescription) (r : res error (outcome * Compiler)) : Prop :=
  match r with
  | Ok (Compiled code n, _) => Z.of_nat (List.length code) <= bytecodeSize t /\ 0 <= n <= variablesSize t
  | Ok (Rejected e _, _) => error_wf e
  | Crash | Undef => True
  | Throw _ | NoFuel => False
  end.

Lemma try_stage_ok {A} t c (r : res error A) k :
  fine r -> (forall a, r = Ok a -> outcome_ok t (k a)) -> outcome_ok t (try_stage c r k).
Proof. intros Hr Hk. destruct r; try done. by apply Hk. Qed.

Lemma sound_outcome {A} t (m : res error A) k :
  sound m -> (forall a, m = Ok a -> outcome_ok t (k a)) -> outcome_ok t (m ≫= k).
Proof. intros Hm Hk. destruct m; try done. by apply Hk. Qed.

Lemma generate_ok c program : compiler_ok c -> outcome_ok (targetDescription c) (generate c program).
Proof.
  intros [_ Hfree _]. unfold generate. cbv zeta.
  apply sound_outcome; [apply sound_emit_program|]. intros pl Hpl%emit_program_ok.
  apply sound_outcome; [apply sound_fixup|]. intros pl' Hpl'%pl_ok_fixup; [|done].
  apply sound_outcome; [by apply verifyStackCalls_sound|]. intros [] _; cbn [negb]; [|exact eq_refl].
  apply sound_outcome; [apply sound_link|]. intros [[ok code] table] Hl.
  destruct ok; cbn [negb]; [|exact eq_refl]. split; [|done].
  unfold link in Hl. cbv zeta in Hl. inv_ok. destruct x as [vec3 table']. inv_ok. by b2p.
Qed.

Lemma buildMaps_ok c : 0 <= uid c < 4294967296 ->
  targetDescription (buildMaps c) = targetDescription c /\ uid (buildMaps c) = uid c /\
  subroutineReverseTable (buildMaps c) = [] /\ 0 <= freeVariableIndex (buildMaps c).
Proof.
  intros _. unfold buildMaps. destruct (getVariablesMap _) as [vars free] eqn:E. split_and!; try done. simpl.
  unfold getVariablesMap in E. induction (namedVariables _) as [|v l _] using rev_ind.
  - injection E as <- <-. done.
  - rewrite foldl_app in E. simpl in E. destruct (foldl _ _ _) as [m i]. injection E as <- <-. apply u32_range.
Qed.

(** There is at most one token per character, and the end of the stream. *)
Lemma tokenize_length al src : len src < 4294967296 ->
  match tokenize al src with
  | Ok ts => Z.of_nat (List.length ts) <= len src + 1
  | Throw e => error_wf e
  | _ => False
  end.
Proof.
  intros Hlen. pose proof (tokenize_loop_ok al (List.length src) 0 (SourcePos_at 0 0 0) src
    ltac:(lia) ltac:(lia) ltac:(lia) eq_refl (or_introl eq_refl)) as H.
  unfold tokenize. destruct (tokenize_loop _ _ _ _) as [ts|e| | |]; try done.
  destruct H as (body & eos & -> & _ & _ & Ha). apply ascending_length in Ha; [|lia].
  rewrite length_app. simpl. lia.
Qed.

(** The stages of a compilation, one after the other. *)
Lemma compile_outcome is_utf8_alpha_num uninitialized src c :
  len src < 2147483648 -> 0 <= uid c < 4294967296 ->
  outcome_ok (targetDescription c) (compile is_utf8_alpha_num uninitialized src c).
Proof.
  intros Hlen Huid. destruct (buildMaps_ok c Huid) as (Ht & Hu & Hsub & Hf). unfold compile. cbv zeta.
  rewrite <- Ht. destruct (_ <? _) eqn:Hfree; [reflexivity|]. b2p.
  assert (compiler_ok (buildMaps c)) as Hok by (split; [by rewrite Hu|lia|rewrite Hsub; constructor]).
  pose proof (tokenize_length is_utf8_alpha_num src ltac:(lia)) as Htok.
  apply try_stage_ok; [by destruct (tokenize _ _)|]. intros ts Hts. rewrite Hts in Htok.
  pose proof (parseProgram_ok (List.length ts) uninitialized (set_tokens ts (buildMaps c)) (le_n _)) as Hp.
  apply try_stage_ok; [by destruct (parseProgram _ _) as [[]|e| | |]|]. intros [program c1] Hprog.
  rewrite Hprog in Hp. destruct Hp as ([Hr1 Ht1 _] & k & _ & Htree).
  specialize (Hr1 ltac:(by apply reaches_tokens)).
  apply try_stage_ok; [apply fine_checkVectorSize|]. intros _ _.
  apply try_stage_ok; [apply fine_expandAbstractNodes|]. intros expanded Hexp.
  pose proof (vectorial_ends (List.length ts) expanded 0 c1 ltac:(lia)
                ltac:(by eapply abstract_tree) ltac:(apply Hr1)) as He.
  apply try_stage_ok; [by destruct (expandVectorialNodes _ _ _ _) as [[]|e| | |]|].
  intros [scalar c2] Hvec. pose proof (vectorial_moves _ _ _ _ _ Hvec) as [Hr2 Ht2 _].
  apply try_stage_ok; [apply fine_typeCheck; intros; apply fine_findSubroutine|]. intros [ty checked] _.
  apply try_stage_ok; [apply fine_optimize|]. intros optimized _.
  apply sound_outcome; [apply sound_of_option|]. intros program' _.
  assert (targetDescription (buildMaps c) = targetDescription c2) as -> by (rewrite Ht2, Ht1; done).
  by apply generate_ok, Hr2.
Qed.

(** C1: the compiler terminates on every source of less than 2^31 characters
    and keeps its promises: it returns a bytecode that fits in the program
    memory of the target, with variables that fit in its data memory, or it
    rejects the source with a well-formed error; no loop of the lexer, the
    parser, the expansion or the stack check runs forever and no exception
    escapes.  (An [assert] or an [int] overflow may stop it.) *)
Theorem compile_total is_utf8_alpha_num uninitialized src c :
  len src < 2147483648 -> 0 <= uid c < 4294967296 ->
  outcome_ok (targetDescription c) (compile is_utf8_alpha_num uninitialized src c).
Proof. apply compile_outcome. Qed.

Definition sample_source : list Z := ws "var a = 5 a = a * 3 + a".

Lemma compile_total_witness :
  exists code n c', compile ascii_alnum 0 sample_source sample_compiler = Ok (Compiled code n, c') /\
    Z.of_nat (List.length code) <= 1534 /\ 0 <= n <= 620.
Proof.
  pose proof (compile_total ascii_alnum 0 sample_source sample_compiler eq_refl
    (conj (Z.le_refl 0) eq_refl)) as H.
  destruct (compile ascii_alnum 0 sample_source sample_compiler) as [[[code n|e] c']|e| | |] eqn:E;
    [|exfalso; vm_compute in E; discriminate E..].
  exists code, n, c'. split; [reflexivity|exact H].
Defined.

(** ** The stack of native calls *)

Definition call_target : TargetDescription :=
  mkTarget (ws "t") 5 100 20 2 [] []
    [mkNativeFunction (ws "f") [] [mkParameter (ws "x") 1; mkParameter (ws "y") 1]].

Definition call_source : list Z := ws "var a[4] var i var b call f(a[i], b)".

(** The heights of the stack, whatever the values. *)
Definition heights : Z -> list instr -> list unit -> option (list unit) :=
  read_code (fun _ => tt) (fun _ => tt) (fun _ _ _ => tt) (fun _ _ => tt) (fun _ _ _ => tt).

(** The stack depth of a native call is underestimated.  The arguments are
    pushed from the last one to the first one, but [CallNode::getStackDepth]
    adds the index of an argument, not the number of arguments pushed before
    it: with two words of stack the compiler accepts a call whose arguments
    need three. *)
Theorem native_call_depth :
  exists code n c' il,
    compile ascii_alnum 0 call_source
      (mkCompiler [] [] [] [] [] [] [] [] [] 0 0 call_target (mkCommon [] []) 0) = Ok (Compiled code n, c') /\
    disassemble (drop 3 (List.map bytecode code)) = Ok (il ++ [NATIVE_CALL 0; STOP]) /\
    heights (stackSize call_target) il [] = None /\ heights (stackSize call_target + 1) il [] = Some [tt; tt].
Proof.
  eexists _, _, _, [_; _; _; _; _; _; _; _; _]. split; [vm_compute; reflexivity|].
  split; [vm_compute; reflexivity|]. split; reflexivity.
Qed.
