(* ===== verification/Backend.v ===== *)
(** * From a tree to a linked program

    The stages of [Compiler::compile] after the optimizer, together:
    [ProgramNode::emit], [PreLinkBytecode::fixup], [verifyStackCalls] and
    [link].  A compilation that succeeds leaves, at the address that the table
    of events or of subroutines tells, the instructions of each block of the
    program. *)
From Stdlib Require Import ZArith Lia List.
From stdpp Require Import base list list_monad.
From S2P Require Import Prelude Errors Consts Disasm Tree OrdMap Target Lookup Emit Fine CodeSpec.
From S2P Require Import Link LinkSpec StackSpec ExpandSpec CompileSpec.

Local Open Scope Z_scope.

(** ** Calls have targets

    A stack check that accepts has met no call without a target: a missing one
    is an assertion. *)
Section Closed.
Variable subs0 : vectors.
Abbreviation known id := (is_Some (om_find id subs0)).

Lemma mark_called_closed ids m m' : same subs0 m -> mark_called ids m = Ok m' ->
  same subs0 m' /\ Forall (fun id => known id) ids.
Proof.
  revert m; induction ids as [|id ids IH]; intros m Hm; cbn [mark_called]; [intros [= <-]; by split|].
  destruct (om_find id m) as [v|] eqn:E; [|done]. intros H. apply IH in H as [Hs Hf]; [|by apply same_set].
  split; [done|]. constructor; [|done]. destruct (same_find_inv _ _ _ _ Hm E) as (w & Hw & _). eauto.
Qed.

Lemma check_events_closed size evs m m' : same subs0 m -> check_events size evs m = Ok (Some m') ->
  same subs0 m' /\ Forall (fun kv => Forall (fun id => known id) (calls (snd kv))) evs.
Proof.
  revert m; induction evs as [|[e v] evs IH]; intros m Hm; cbn [check_events]; [intros [= <-]; by split|].
  destruct (_ <? _); [done|]. intros H. inv_ok. apply mark_called_closed in H as [Hx Hc]; [|done].
  apply IH in H0 as [H1 H2]; [|done]. split; [done|]. by constructor.
Qed.

Lemma raise_depth_closed d ids m a m' a' : same subs0 m -> raise_depth d ids m a = Ok (m', a') ->
  same subs0 m' /\ Forall (fun id => known id) ids.
Proof.
  revert m a; induction ids as [|id ids IH]; intros m a Hm; cbn [raise_depth]; [intros [= <- <-]; by split|].
  destruct (om_find id m) as [v|] eqn:E; [|done].
  assert (known id) as Hid by (destruct (same_find_inv _ _ _ _ Hm E) as (w & Hw & _); eauto).
  destruct (_ <? _); intros H; (apply IH in H as [Hs Hf]; [split; [done|by constructor]|]); [by apply same_set|done].
Qed.

Lemma check_subs_closed size ids m a m' a' : same subs0 m -> check_subs size ids m a = Ok (Some (m', a')) ->
  same subs0 m' /\ forall id v, id ∈ ids -> om_find id subs0 = Some v -> Forall (fun id => known id) (calls v).
Proof.
  revert m a; induction ids as [|id ids IH]; intros m a Hm; cbn [check_subs].
  - intros [= <- <-]. split; [done|]. intros id v Hin. by apply elem_of_nil in Hin.
  - destruct (om_find id m) as [w|] eqn:E; [|done]. cbn [of_option mbind res_bind]. destruct (_ <? _); [done|].
    intros H. inv_ok. destruct x as [m1 a1]. apply raise_depth_closed in H as [H1 Hc]; [|done].
    apply IH in H0 as [H2 Hrest]; [|done]. split; [done|]. intros i v Hi Hv.
    apply elem_of_cons in Hi as [->|Hi]; [|by eapply Hrest].
    destruct (same_find_inv _ _ _ _ Hm E) as (w' & Hw' & Hcode & _).
    rewrite Hv in Hw'. injection Hw' as <-. unfold calls. by rewrite <- Hcode.
Qed.
End Closed.

(** The verdict of a loop is that of a turn, or follows a first turn. *)
Lemma loop_first {S R} (step : S -> S + R) p s r :
  loop step p s = inr r -> step s = inr r \/ exists s', step s = inl s'.
Proof.
  rewrite loop_run. destruct (Pos2Nat.is_succ p) as [n ->]. cbn [run].
  destruct (step s) as [s'|r']; [eauto|intros [= ->]; auto].
Qed.

(** The calls of a program that the check accepts. *)
Lemma verified_calls size pl : om_sorted (sub_bytecode pl) -> verifyStackCalls size pl = Ok true ->
  forall id v, (id, v) ∈ ev_bytecode pl ++ sub_bytecode pl ->
  forall i, i ∈ calls v -> is_Some (om_find i (sub_bytecode pl)).
Proof.
  intros Hs H. unfold verifyStackCalls in H. inv_ok. destruct x as [m|]; [|discriminate].
  apply (check_events_closed (sub_bytecode pl)) in H as [Hm Hev]; [|by apply same_refl].
  assert (exists m' a', check_subs size (List.map fst m) m false = Ok (Some (m', a'))) as (m' & a' & Hc).
  { unfold check_rounds in H0. destruct (loop _ _ _) as [|r] eqn:E; [done|]. subst r.
    apply loop_first in E. unfold check_round in E.
    destruct (check_subs _ _ _ _) as [[[m1 []]|]|e| | |]; try (destruct E as [E|[s' E]]; discriminate E); eauto. }
  apply (check_subs_closed (sub_bytecode pl)) in Hc as [_ Hc]; [|done]. destruct Hm as (_ & Hk & _).
  intros id v Hin i Hi. apply elem_of_app in Hin as [Hin|Hin].
  - rewrite Forall_forall in Hev. specialize (Hev _ Hin). rewrite Forall_forall in Hev. by apply Hev.
  - specialize (Hc id v). rewrite Hk in Hc. rewrite Forall_forall in Hc. apply Hc; [|by apply om_find_elem|done].
    apply list_elem_of_In, in_map_iff. exists (id, v). split; [done|by apply list_elem_of_In].
Qed.

(** ** Walks over code that reads

    What the loops over the instructions of a vector find in code that reads
    as [il]. *)

(** The calls. *)
Lemma sub_calls_from k l il id : disassemble_from k (List.map bytecode l) = Ok il ->
  SUB_CALL id ∈ il -> id ∈ sub_calls k l.
Proof.
  revert k il; induction l as [|e l IH]; intros [|k] il Hd Hin; cbn [List.map disassemble_from sub_calls] in *;
    try (injection Hd as <-; by apply elem_of_nil in Hin); [|by eapply IH].
  destruct (decode _ _) as [i|] eqn:E; [|discriminate]. cbn [of_option mbind res_bind] in Hd. inv_ok.
  pose proof (call_word [] _ _ _ E) as Hc. pose proof (getWordSize_decode _ _ _ E) as Hw.
  assert (Nat.pred (getWordSize e) = Nat.pred (Z.to_nat (instr_size i))) as -> by lia.
  apply elem_of_cons in Hin as [<-|Hin].
  - destruct (is_op _ e) eqn:Ei; [destruct Hc as [[= <-] _]; apply list_elem_of_here|].
    assert (is_op ASEBA_BYTECODE_SUB_CALL e = true); [|congruence]. apply is_op_iff.
    unfold decode in E. unfold opcode. destruct (bytecode_of_id _) as [[]|]; destruct (List.map bytecode l) as [|? [|]]; by try discriminate E.
  - destruct (is_op _ e); [apply list_elem_of_further|]; by eapply IH.
Qed.

(** The code of a subroutine: it returns where an event stops. *)
Definition stop_to_ret (i : instr) : instr := match i with STOP => SUB_RET | _ => i end.

Lemma stop_to_ret_size i : instr_size (stop_to_ret i) = instr_size i.
Proof. by destruct i. Qed.

Lemma stop_word e l i : decode (bytecode e) l = Some i ->
  if is_op ASEBA_BYTECODE_STOP e then i = STOP else stop_to_ret i = i.
Proof.
  intros Hd. destruct (is_op _ e) eqn:E.
  - apply is_op_iff in E. unfold decode in Hd. unfold opcode in E. rewrite E in Hd. by injection Hd.
  - destruct i; try done. assert (is_op ASEBA_BYTECODE_STOP e = true); [|congruence]. apply is_op_iff.
    unfold decode in Hd. unfold opcode. destruct (bytecode_of_id _) as [[]|]; destruct l as [|? [|]]; by try discriminate Hd.
Qed.

Lemma change_stop_from k l il : (k <= List.length l)%nat -> disassemble_from k (List.map bytecode l) = Ok il ->
  disassemble_from k (List.map bytecode (change_stop k l)) = Ok (List.map stop_to_ret il) /\
  take k (List.map bytecode (change_stop k l)) = take k (List.map bytecode l) /\
  List.length (change_stop k l) = List.length l.
Proof.
  revert k il; induction l as [|e l IH]; intros [|k] il Hk Hd; simpl in Hk; try lia.
  - by injection Hd as <-.
  - cbn [List.map disassemble_from change_stop] in *. destruct (decode _ _) as [i|] eqn:E; [|discriminate].
    cbn [of_option mbind res_bind] in Hd. inv_ok. pose proof (stop_word _ _ _ E) as Hs.
    pose proof (getWordSize_decode _ _ _ E) as Hw. pose proof (decode_size _ _ _ E) as Hsz. rewrite length_map in Hsz.
    destruct (IH _ _ Hsz H) as (H1 & H2 & H3). destruct (is_op _ e).
    + subst i. change (getWordSize (mkElement (AsebaBytecodeFromId ASEBA_BYTECODE_SUB_RET) (Emit.line e))) with 1%nat.
      change (Nat.pred (Z.to_nat (instr_size STOP))) with 0%nat in *. cbn [bytecode Nat.pred].
      change (decode (AsebaBytecodeFromId ASEBA_BYTECODE_SUB_RET) (List.map bytecode (change_stop 0 l))) with (Some SUB_RET).
      cbn [of_option mbind res_bind]. split_and!; [|done|simpl; lia]. change (Nat.pred (Z.to_nat (instr_size SUB_RET))) with 0%nat. by rewrite H1.
    + assert (Nat.pred (getWordSize e) = Nat.pred (Z.to_nat (instr_size i))) as -> by lia.
      rewrite (decode_operands _ (List.map bytecode l) _ i) by (rewrite ?length_map; done).
      cbn [of_option mbind res_bind]. split_and!; [|done|simpl; lia]. rewrite H1. simpl. by rewrite Hs.
  - cbn [List.map disassemble_from change_stop] in *. destruct (IH k il (le_S_n _ _ Hk) Hd) as (H1 & H2 & H3).
    split_and!; [done| |simpl; lia]. cbn [List.map take]. by rewrite H2.
Qed.

Lemma change_stop_reads v il : reads (code v) il -> reads (code (changeStopToRetSub v)) (List.map stop_to_ret il).
Proof. intros H. by destruct (change_stop_from 0 (code v) il ltac:(lia) H) as [H1 _]. Qed.

(** The last instruction. *)
Definition returns (il : list instr) : bool := match last il with Some SUB_RET => true | _ => false end.

Lemma type_of_last_from k l il t : disassemble_from k (List.map bytecode l) = Ok il -> il <> [] ->
  (type_of_last k l t =? bytecode_id ASEBA_BYTECODE_SUB_RET) = returns il.
Proof.
  revert k il t; induction l as [|e l IH]; intros [|k] il t Hd Hne; cbn [List.map disassemble_from type_of_last] in *;
    try by injection Hd as <-. 2: by eapply IH.
  destruct (decode _ _) as [i|] eqn:E; [|discriminate]. cbn [of_option mbind res_bind] in Hd. inv_ok.
  pose proof (getWordSize_decode _ _ _ E) as Hw.
  assert (Nat.pred (getWordSize e) = Nat.pred (Z.to_nat (instr_size i))) as -> by lia.
  destruct x as [|j il]; [|rewrite (IH _ (j :: il)) by done; done].
  assert (forall k t, disassemble_from k (List.map bytecode l) = Ok [] -> type_of_last k l t = t) as Hnil.
  { clear. induction l as [|e l IH]; intros [|k] t Hd; cbn [List.map disassemble_from type_of_last] in *; try done; [|by apply IH].
    destruct (decode _ _); [|discriminate]. cbn [of_option mbind res_bind] in Hd. by inv_ok. }
  rewrite Hnil by done. unfold returns. simpl. unfold decode in E. unfold opcode.
  destruct (bytecode_of_id _) as [b|] eqn:Eb.
  - apply bytecode_of_id_Some in Eb. rewrite Eb. destruct b; destruct (List.map bytecode l) as [|? [|]]; try discriminate E; by injection E as <-.
  - injection E as <-. destruct (Z.eqb_spec (Z.shiftr (bytecode e) 12) 14) as [Hz|]; [|done]. by rewrite Hz in Eb.
Qed.

(** ** The blocks of a program *)

#[export] Instance cursor_eq_dec : EqDecision cursor.
Proof. solve_decision. Defined.

(** The instructions of the block [c], where [cur] is the block that the next
    statement belongs to. *)
Fixpoint block_asm (c cur : cursor) (cs : list node) : list instr :=
  match cs with
  | [] => []
  | n :: cs' =>
      match node_kind n with
      | EventDeclNode eventId => block_asm c (CurEvent eventId) cs'
      | SubDeclNode subroutineId => block_asm c (CurSub subroutineId) cs'
      | _ => (if decide (cur = c) then asm n else []) ++ block_asm c cur cs'
      end
  end.

(** A child of the program: a statement whose operands fit in their fields, or
    a declaration with an identifier that the linker can write. *)
Definition child_ok (P : Z -> Prop) (n : node) : Prop :=
  match node_kind n with
  | EventDeclNode eventId => event_id_ok eventId
  | SubDeclNode subroutineId => P subroutineId
  | _ => encodable n = true
  end.

Definition declares (cs : list node) (subroutineId : Z) : Prop := exists n, n ∈ cs /\ node_kind n = SubDeclNode subroutineId.

(** What emission establishes, besides [pl_ok]: the identifiers are good. *)
Definition keys_ok (P : Z -> Prop) (pl : PreLinkBytecode) : Prop :=
  Forall (fun kv => event_id_ok (fst kv)) (ev_bytecode pl) /\
  Forall (fun kv => P (fst kv)) (sub_bytecode pl).

Definition cursor_ok (P : Z -> Prop) (c : cursor) : Prop :=
  match c with CurEvent id => event_id_ok id | CurSub id => P id end.

Lemma keys_ok_set P pl c v : keys_ok P pl -> cursor_ok P c -> keys_ok P (set_vector pl c v).
Proof. intros [H1 H2] Hc. destruct c; (split; simpl; [|]); try done; by apply om_set_Forall. Qed.

Lemma get_set_vector pl c v c' : get_vector (set_vector pl c v) c' = if decide (c = c') then v else get_vector pl c'.
Proof.
  destruct (decide (c = c')) as [<-|Hne]; unfold get_vector, set_vector; destruct c; simpl.
  1,2: by rewrite om_find_set.
  all: destruct c'; simpl; try done; rewrite om_find_set_ne; [done|congruence].
Qed.

Lemma sub_known_set pl c v id : is_Some (om_find id (sub_bytecode pl)) -> is_Some (om_find id (sub_bytecode (set_vector pl c v))).
Proof.
  intros H. destruct c as [|i]; [done|]. simpl. destruct (decide (i = id)) as [->|Hne]; [by rewrite om_find_set|by rewrite om_find_set_ne].
Qed.

(** A declaration makes an empty block, which it was before. *)
Lemma declare_event pl id c : om_find id (ev_bytecode pl) = None ->
  get_vector (mkPreLink (om_set id empty_vector (ev_bytecode pl)) (sub_bytecode pl) (CurEvent id)) c = get_vector pl c.
Proof.
  intros Hn. destruct c as [i|i]; [|done]. unfold get_vector. simpl.
  destruct (decide (id = i)) as [->|Hne]; [by rewrite om_find_set, Hn|by rewrite om_find_set_ne].
Qed.
Lemma declare_sub pl id c : om_find id (sub_bytecode pl) = None ->
  get_vector (mkPreLink (ev_bytecode pl) (om_set id empty_vector (sub_bytecode pl)) (CurSub id)) c = get_vector pl c.
Proof.
  intros Hn. destruct c as [i|i]; [done|]. unfold get_vector. simpl.
  destruct (decide (id = i)) as [->|Hne]; [by rewrite om_find_set, Hn|by rewrite om_find_set_ne].
Qed.

Lemma current_set pl c v : current (set_vector pl c v) = current pl.
Proof. by destruct c. Qed.

Lemma statement_ok P n pl v : encodable n = true -> keys_ok P pl -> cursor_ok P (current pl) ->
  emit n (get_vector pl (current pl)) = Ok v ->
  let pl' := set_vector pl (current pl) v in
  keys_ok P pl' /\ current pl' = current pl /\
  (forall id, is_Some (om_find id (sub_bytecode pl)) -> is_Some (om_find id (sub_bytecode pl'))) /\
  forall c il, reads (code (get_vector pl c)) il ->
    reads (code (get_vector pl' c)) (il ++ if decide (current pl = c) then asm n else []).
Proof.
  intros Hn Hk Hc H pl'. split_and!; [by apply keys_ok_set|apply current_set|intros id; apply sub_known_set|].
  intros c il Hr. subst pl'. rewrite get_set_vector. case_decide as Hd; [|by rewrite app_nil_r].
  destruct (emit_emits n Hn _ _ H) as (es & -> & Hes). subst c. by apply reads_app.
Qed.

(** One child: what it adds to every block, the identifiers, the cursor. *)
Lemma emit_child_ok P n pl pl' : child_ok P n -> keys_ok P pl -> cursor_ok P (current pl) ->
  emit_child n pl = Ok pl' ->
  keys_ok P pl' /\ cursor_ok P (current pl') /\
  (forall id, is_Some (om_find id (sub_bytecode pl)) \/ node_kind n = SubDeclNode id -> is_Some (om_find id (sub_bytecode pl'))) /\
  forall c il rest, reads (code (get_vector pl c)) il -> exists il',
    reads (code (get_vector pl' c)) (il ++ il') /\ block_asm c (current pl) (n :: rest) = il' ++ block_asm c (current pl') rest.
Proof.
  unfold emit_child, child_ok. intros Hn Hk Hcur H. pose proof Hk as [K1 K2]. cbn [block_asm].
  destruct (node_kind n) eqn:E.
  all: try (apply bind_Ok in H as (v & Hv & [= <-]);
    destruct (statement_ok P n pl v Hn Hk Hcur Hv) as (S1 & S2 & S3 & S4); rewrite S2; split_and!;
      [exact S1|exact Hcur|intros i [Hi|Hi]; [by apply S3|discriminate Hi]|intros c il rest Hr; eexists; split; [by apply S4|done]]).
  - destruct (om_find eventId _) eqn:Ef; [discriminate|]. injection H as <-. split_and!; try done.
    + split; [by apply om_set_Forall|done].
    + intros i [Hi|Hi]; [done|discriminate].
    + intros c il rest Hr. exists []. rewrite declare_event, app_nil_r by done. by split.
  - destruct (om_find subroutineId _) eqn:Ef; [discriminate|]. injection H as <-. split_and!; try done.
    + split; [done|by apply om_set_Forall].
    + intros i [Hi|[= ->]]; simpl; [|by rewrite om_find_set].
      destruct (decide (subroutineId = i)) as [->|Hne]; [by rewrite om_find_set|by rewrite om_find_set_ne].
    + intros c il rest Hr. exists []. rewrite declare_sub, app_nil_r by done. by split.
Qed.

Lemma emit_children_ok P cs pl pl' : Forall (child_ok P) cs -> keys_ok P pl -> cursor_ok P (current pl) ->
  emit_children cs pl = Ok pl' ->
  keys_ok P pl' /\ (forall id, is_Some (om_find id (sub_bytecode pl)) \/ declares cs id -> is_Some (om_find id (sub_bytecode pl'))) /\
  forall c il, reads (code (get_vector pl c)) il -> reads (code (get_vector pl' c)) (il ++ block_asm c (current pl) cs).
Proof.
  intros Hcs; revert pl; induction Hcs as [|n cs Hn _ IH]; intros pl Hk Hcur; cbn [emit_children].
  - intros [= <-]. split_and!; [done| |].
    + intros id [Hi|(n & Hin & _)]; [done|by apply elem_of_nil in Hin].
    + intros c il Hr. simpl. by rewrite app_nil_r.
  - intros H. inv_ok. destruct (emit_child_ok _ _ _ _ Hn Hk Hcur H) as (K & C & D & R).
    destruct (IH x K C H0) as (K' & D' & R'). split_and!; [done| |].
    + intros id [Hi|(n' & Hin & Hn')]; apply D'; [left; apply D; by left|].
      apply elem_of_cons in Hin as [->|Hin]; [left; apply D; by right|right; by exists n'].
    + intros c il Hr. destruct (R c il cs Hr) as (il' & H1 & ->). rewrite app_assoc. by apply R'.
Qed.

(** The stack depths change no code. *)
Lemma analyze_ok P cs cur d pl pl' : Forall (child_ok P) cs -> keys_ok P pl -> cursor_ok P cur ->
  analyze_depth cs cur d pl = Ok pl' ->
  keys_ok P pl' /\ (forall id, is_Some (om_find id (sub_bytecode pl)) -> is_Some (om_find id (sub_bytecode pl'))) /\
  forall c, code (get_vector pl' c) = code (get_vector pl c).
Proof.
  intros Hcs; revert cur d pl; induction Hcs as [|n cs Hn _ IH]; intros cur d pl Hk Hcur; cbn [analyze_depth]; cbv zeta.
  1: intros [= <-].
  2: set (pl1 := set_vector pl cur _).
  1: set (pl1 := set_vector pl cur _).
  all: assert (keys_ok P pl1) as K by (by apply keys_ok_set).
  all: assert (forall id, is_Some (om_find id (sub_bytecode pl)) -> is_Some (om_find id (sub_bytecode pl1))) as D
    by (intros id; apply sub_known_set).
  all: assert (forall c, code (get_vector pl1 c) = code (get_vector pl c)) as C
    by (intros c; subst pl1; rewrite get_set_vector; case_decide; by subst).
  - done.
  - unfold child_ok in Hn. destruct (node_kind n); intros H; inv_ok; try (by eapply IH);
      (eapply IH in H as (K' & D' & C'); [|done..]); (split_and!; [done|auto|intros c; by rewrite C', C]).
Qed.

Definition start : cursor := CurEvent ASEBA_EVENT_INIT.

Lemma emit_program_blocks P p cs pl : Forall (child_ok P) cs -> emit_program (Node ProgramNode p cs) PreLink_init = Ok pl ->
  keys_ok P pl /\ (forall id, declares cs id -> is_Some (om_find id (sub_bytecode pl))) /\
  forall c, reads (code (get_vector pl c)) (block_asm c start cs).
Proof.
  intros Hcs H. unfold emit_program in H. cbn [node_kind children] in H. inv_ok.
  assert (event_id_ok ASEBA_EVENT_INIT) as Hi by (right; unfold ASEBA_EVENT_INIT; lia).
  destruct (emit_children_ok P cs PreLink_init x Hcs) as (K & D & R); [split; [constructor; [exact Hi|constructor]|constructor]|exact Hi|done|].
  destruct (analyze_ok P cs (CurEvent ASEBA_EVENT_INIT) _ _ _ Hcs K Hi H0) as (K' & D' & C). split_and!; [done|auto|].
  intros c. rewrite C. apply (R c []). unfold get_vector. destruct c as [id|id]; simpl; [|done]. by destruct (id =? _).
Qed.

(** ** [fixup] *)

(** The end of an event and of a subroutine. *)
Definition event_asm (il : list instr) : list instr := il ++ [STOP].
Definition sub_asm (il : list instr) : list instr :=
  let il' := List.map stop_to_ret il in if returns il' then il' else il' ++ [SUB_RET].

Lemma terminate_event_reads v il : reads (code v) il -> reads (code (terminate_event v)) (event_asm il).
Proof. intros H. unfold terminate_event, event_asm. simpl. apply reads_app; [done|]. by apply reads_instr. Qed.

Lemma reads_nil l il : reads l il -> l = [] <-> il = [].
Proof.
  intros H. pose proof (reads_size _ _ H) as Hs. split; intros ->.
  - destruct il as [|i il]; [done|]. simpl in Hs. pose proof (instr_size_pos i). pose proof (code_size_nonneg il). lia.
  - by destruct l.
Qed.

Lemma terminate_sub_reads table id v v' il :
  reads (code v) il -> terminate_sub table id v = Ok v' -> reads (code v') (sub_asm il).
Proof.
  intros Hr. unfold terminate_sub, is_empty, sub_asm. pose proof (reads_nil _ _ Hr) as Hn.
  destruct (code v) as [|e l] eqn:E.
  - rewrite (proj1 Hn eq_refl). intros H. inv_ok. simpl. rewrite E. simpl. by apply reads_instr.
  - rewrite <- E in *. pose proof (change_stop_reads _ _ Hr) as Hc.
    assert (il <> []) as Hne by (intros Hil; rewrite (proj2 Hn Hil) in E; discriminate).
    assert (List.map stop_to_ret il <> []) as Hne' by (by destruct il).
    unfold getTypeOfLast. rewrite (type_of_last_from _ _ _ _ Hc Hne'). destruct (returns _); intros [= <-]; [done|].
    simpl. apply reads_app; [done|]. by apply reads_instr.
Qed.

Lemma fixup_events table pl pl' id v' : fixup table pl = Ok pl' ->
  (id, v') ∈ ev_bytecode pl' <-> exists v, (id, v) ∈ ev_bytecode pl /\ code v <> [] /\ v' = terminate_event v.
Proof.
  unfold fixup. intros H. inv_ok. simpl. rewrite list_elem_of_In, in_map_iff. split.
  - intros ([i v] & [= <- <-] & [Hin Hne]%filter_In). exists v. split_and!; [by apply list_elem_of_In| |done].
    simpl in Hne. unfold is_empty in Hne. by destruct (code v).
  - intros (v & Hin & Hne & ->). exists (id, v). split; [done|]. apply filter_In. split; [by apply list_elem_of_In|].
    simpl. unfold is_empty. by destruct (code v).
Qed.

Lemma fixup_subs table pl pl' : fixup table pl = Ok pl' ->
  Forall2 (fun kv kv' => fst kv' = fst kv /\ terminate_sub table (fst kv) (snd kv) = Ok (snd kv')) (sub_bytecode pl) (sub_bytecode pl').
Proof.
  unfold fixup. intros H. inv_ok. simpl. apply mapR_Forall2 in H. eapply Forall2_impl; [exact H|].
  intros kv kv' Hkv. cbn beta in Hkv. by inv_ok.
Qed.

(** ** The length of a linked program *)

Lemma resolve_length table k l r : resolve_calls table k l = Ok r -> List.length r = List.length l.
Proof.
  revert k r; induction l as [|e l IH]; intros [|k] r; cbn [resolve_calls]; intros H; inv_ok; try done; simpl; f_equal; by eapply IH.
Qed.

Lemma link_subs_length m acc table r table' : link_subs m acc table = Ok (r, table') ->
  Z.of_nat (List.length r) = Z.of_nat (List.length acc) + words m.
Proof.
  revert acc table; induction m as [|[id v] m IH]; intros acc table; cbn [link_subs].
  - intros [= <- _]. unfold words. simpl. lia.
  - intros H. inv_ok. apply IH in H0. rewrite length_app in H0. rewrite words_cons. unfold size_of. simpl. lia.
Qed.

Lemma event_table_length evs a : List.length (event_table evs a) = (2 * List.length evs)%nat.
Proof. revert a; induction evs as [|[id v] evs IH]; intros a; [done|]. simpl. rewrite IH. lia. Qed.

Lemma link_length size pl table ok bc table' : link size pl table = Ok (ok, bc, table') ->
  Z.of_nat (List.length bc) = 1 + 2 * Z.of_nat (List.length (ev_bytecode pl)) + words (ev_bytecode pl) + words (sub_bytecode pl)
  /\ ok = (Z.of_nat (List.length bc) <=? size).
Proof.
  unfold link. cbv zeta. intros H. inv_ok. destruct x as [vec3 t]. inv_ok. split; [|done].
  apply resolve_length in H0. apply link_subs_length in H. rewrite length_app in H. cbn [List.length] in H.
  rewrite event_table_length in H. unfold words at 1. unfold segments. subst. lia.
Qed.

(** ** The linked program *)

(** The words from the address [a] read as [il]. *)
Definition reads_at (bc : list BytecodeElement) (a : Z) (il : list instr) : Prop :=
  reads (take (Z.to_nat (code_size il)) (drop (Z.to_nat a) bc)) il.

Lemma code_size_redirect table il : code_size (List.map (redirect table) il) = code_size il.
Proof. induction il as [|i il IH]; simpl; [done|]. by rewrite redirect_size, IH. Qed.

Lemma code_at_reads bc table a v il : code_at bc table a v -> reads (code v) il ->
  reads_at bc a (List.map (redirect table) il).
Proof.
  intros (il' & Hr' & Hr) Hil. assert (il' = il) as -> by (unfold reads in *; congruence).
  unfold reads_at. rewrite code_size_redirect, (reads_size _ _ Hil), Nat2Z.id. exact Hr.
Qed.

(** The program before linking, as [generate] hands it to [link]. *)
Section Generated.
Variables (P : Z -> Prop) (table : list SubroutineDescriptor) (cs : list node) (pl pl' : PreLinkBytecode) (stackSize : Z) (pos : SourcePos).
Hypothesis P_range : forall id, P id -> 0 <= id < Z.of_nat (List.length table).
Hypothesis Hcs : Forall (child_ok P) cs.
Hypothesis Hemit : emit_program (Node ProgramNode pos cs) PreLink_init = Ok pl.
Hypothesis Hfix : fixup table pl = Ok pl'.
Hypothesis Hverify : verifyStackCalls stackSize pl' = Ok true.

Lemma generated_sorted : (om_sorted (ev_bytecode pl) /\ om_sorted (sub_bytecode pl)) /\ om_sorted (ev_bytecode pl') /\ om_sorted (sub_bytecode pl').
Proof.
  pose proof (emit_program_ok _ _ Hemit) as H. pose proof (pl_ok_fixup _ _ _ H Hfix) as [[E _] [S _]].
  by destruct H as [[E' _] [S' _]].
Qed.

Lemma event_code id v' : (id, v') ∈ ev_bytecode pl' <->
  block_asm (CurEvent id) start cs <> [] /\ exists v, om_find id (ev_bytecode pl) = Some v /\ v' = terminate_event v.
Proof.
  destruct (emit_program_blocks _ _ _ _ Hcs Hemit) as (_ & _ & R). destruct generated_sorted as [[Es _] _].
  rewrite (fixup_events _ _ _ _ _ Hfix). pose proof (R (CurEvent id)) as Hr. unfold get_vector in Hr. split.
  - intros (v & Hin & Hne & ->). apply om_find_elem in Hin; [|done]. rewrite Hin in Hr. cbn [default] in Hr.
    split; [|eauto]. by rewrite <- (reads_nil _ _ Hr).
  - intros (Hne & v & Hv & ->). rewrite Hv in Hr. cbn [default] in Hr. exists v.
    split_and!; [by apply om_find_elem|by rewrite (reads_nil _ _ Hr)|done].
Qed.

Lemma event_reads id v' : (id, v') ∈ ev_bytecode pl' -> reads (code v') (event_asm (block_asm (CurEvent id) start cs)).
Proof.
  destruct (emit_program_blocks _ _ _ _ Hcs Hemit) as (_ & _ & R). intros (_ & v & Hv & ->)%event_code.
  specialize (R (CurEvent id)). unfold get_vector in R. rewrite Hv in R. by apply terminate_event_reads.
Qed.

Lemma event_there id : block_asm (CurEvent id) start cs <> [] -> exists v', om_find id (ev_bytecode pl') = Some v'.
Proof.
  intros Hne. destruct (emit_program_blocks _ _ _ _ Hcs Hemit) as (_ & _ & R). specialize (R (CurEvent id)).
  destruct generated_sorted as [_ [Es _]]. unfold get_vector in R. destruct (om_find id (ev_bytecode pl)) as [v|] eqn:E.
  - exists (terminate_event v). apply om_find_elem; [done|]. apply event_code. eauto.
  - apply (reads_nil _ _) in R. by destruct Hne; apply R.
Qed.

Lemma sub_code id v' : om_find id (sub_bytecode pl') = Some v' ->
  P id /\ reads (code v') (sub_asm (block_asm (CurSub id) start cs)).
Proof.
  destruct (emit_program_blocks _ _ _ _ Hcs Hemit) as ([_ K] & _ & R). destruct generated_sorted as [[_ Ss] [_ Ss']].
  intros Hin%om_find_elem; [|done]. apply list_elem_of_lookup in Hin as [i Hi].
  pose proof (fixup_subs _ _ _ Hfix) as Hf.
  destruct (Forall2_lookup_r _ _ _ _ _ Hf Hi) as ([id' v] & Hv & Hid & Ht). simpl in Hid, Ht. subst id'.
  apply list_elem_of_lookup_2 in Hv. rewrite Forall_forall in K. split; [exact (K _ Hv)|].
  specialize (R (CurSub id)). unfold get_vector in R. apply om_find_elem in Hv; [|done]. rewrite Hv in R.
  by eapply terminate_sub_reads.
Qed.

Lemma sub_kept id : is_Some (om_find id (sub_bytecode pl)) -> exists v', om_find id (sub_bytecode pl') = Some v'.
Proof.
  intros [v Hv]. destruct generated_sorted as [[_ Ss] [_ Ss']]. apply om_find_elem in Hv; [|done]. apply list_elem_of_lookup in Hv as [i Hi].
  destruct (Forall2_lookup_l _ _ _ _ _ (fixup_subs _ _ _ Hfix) Hi) as ([id' v'] & Hv' & Hid & _). simpl in Hid. subst id'.
  exists v'. apply om_find_elem; [done|]. by eapply list_elem_of_lookup_2.
Qed.

Lemma sub_there id : declares cs id -> exists v', om_find id (sub_bytecode pl') = Some v'.
Proof. destruct (emit_program_blocks _ _ _ _ Hcs Hemit) as (_ & D & _). intros H%D. by apply sub_kept. Qed.

Lemma generated_calls id v il : (id, v) ∈ ev_bytecode pl' ++ sub_bytecode pl' -> reads (code v) il ->
  forall i, SUB_CALL i ∈ il -> is_Some (om_find i (sub_bytecode pl')).
Proof.
  intros Hin Hr i Hi. destruct generated_sorted as [_ [_ Ss']].
  apply (verified_calls _ _ Ss' Hverify _ _ Hin). by apply (sub_calls_from 0 _ il).
Qed.

Lemma calls_declared b i : SUB_CALL i ∈ block_asm b start cs -> P i.
Proof.
  destruct (emit_program_blocks _ _ _ _ Hcs Hemit) as (_ & _ & R). specialize (R b). intros Hin.
  assert (exists v', om_find i (sub_bytecode pl') = Some v') as [v' Hv']; [|by apply sub_code in Hv' as [? _]].
  assert (block_asm b start cs <> []) as Hne by (intros E; rewrite E in Hin; by apply elem_of_nil in Hin).
  destruct generated_sorted as [_ [Es Ss]]. destruct b as [id|id].
  - destruct (event_there id Hne) as [v Hv]. apply om_find_elem in Hv; [|done].
    apply (generated_calls id v (event_asm (block_asm (CurEvent id) start cs)));
      [apply elem_of_app; by left|by apply event_reads|apply elem_of_app; by left].
  - unfold get_vector in R. destruct (om_find id (sub_bytecode pl)) as [w|] eqn:E;
      [|destruct Hne; by apply (reads_nil _ _ R)].
    destruct (sub_kept id) as [v Hv]; [eauto|]. pose proof (sub_code _ _ Hv) as [_ Hr]. apply om_find_elem in Hv; [|done].
    apply (generated_calls id v _ ltac:(apply elem_of_app; by right) Hr). unfold sub_asm.
    assert (SUB_CALL i ∈ List.map stop_to_ret (block_asm (CurSub id) start cs)) as Hm
      by (apply list_elem_of_In, in_map_iff; exists (SUB_CALL i); split; [done|by apply list_elem_of_In]).
    destruct (returns _); [done|]. apply elem_of_app. by left.
Qed.

Lemma generated_linkable : 1 + 2 * Z.of_nat (List.length (ev_bytecode pl')) + words (ev_bytecode pl')
    + words (sub_bytecode pl') < 4096 -> linkable pl' table.
Proof.
  intros Hsize. destruct (emit_program_blocks _ _ _ _ Hcs Hemit) as ([K _] & _ & _). destruct generated_sorted as [[Es _] Ss].
  assert (forall id v, (id, v) ∈ sub_bytecode pl' -> P id /\ reads (code v) (sub_asm (block_asm (CurSub id) start cs))) as Hsub
    by (intros id v Hin; apply sub_code; by apply (om_find_elem _ _ _ (proj2 Ss))).
  split; [| |done| |done].
  - apply Forall_forall. intros [id v] Hin. simpl. pose proof (event_reads _ _ Hin) as Hr.
    pose proof Hin as (_ & w & Hw & _)%event_code. split.
    + apply om_find_elem in Hw; [|done]. rewrite Forall_forall in K. exact (K _ Hw).
    + rewrite (reads_nil _ _ Hr). unfold event_asm. by destruct (block_asm _ _ _).
  - apply Forall_forall. intros [id v] Hin. by apply P_range, (Hsub _ _ Hin).
  - apply Forall_forall. intros [id v] Hin. pose proof Hin as [H|H]%elem_of_app.
    + eexists. split; [by apply event_reads|]. eapply generated_calls; [exact Hin|by apply event_reads].
    + eexists. split; [by apply (Hsub _ _ H)|]. eapply generated_calls; [exact Hin|by apply (Hsub _ _ H)].
Qed.
End Generated.

Lemma starts_inv p a m id : om_find p (starts a m) = Some id ->
  exists pre v post, m = pre ++ (id, v) :: post /\ p = a + words pre.
Proof.
  revert a; induction m as [|[i v] m IH]; intros a; [done|]. cbn [starts om_find key_eqb Z_key].
  destruct (Z.eqb_spec p a) as [->|_].
  - intros [= ->]. exists [], v, m. split; [done|]. unfold words. simpl. lia.
  - intros H. apply IH in H as (pre & w & post & -> & ->). exists ((i, v) :: pre), w, post. split; [done|].
    rewrite words_cons. simpl. lia.
Qed.

(** C3: the compiler puts the code of every block where its tables say.  When
    code generation, stack check and linking succeed on a program whose
    operands fit in their fields, the table of the bytecode has one entry for
    each event with code, and from the address of the entry on the
    disassembler reads the instructions of the statements of the event, in the
    order of the source, then [STOP]; from the address that the table of
    subroutines tells it reads those of the subroutine, which returns where an
    event stops, and ends with a return; a call names a subroutine that the
    program declares, and in the bytecode leads to its code. *)
Theorem generate_correct c pos cs bc n c' :
  bytecodeSize (targetDescription c) < 4096 ->
  Forall (child_ok (fun id => 0 <= id < Z.of_nat (List.length (subroutineTable c)))) cs ->
  generate c (Node ProgramNode pos cs) = Ok (Compiled bc n, c') ->
  exists m, getEventAddressesToIds bc = Ok m /\
    (forall id, (exists a, om_find a m = Some id) <-> block_asm (CurEvent id) start cs <> []) /\
    (forall a id, om_find a m = Some id ->
       reads_at bc a (List.map (redirect (subroutineTable c')) (event_asm (block_asm (CurEvent id) start cs)))) /\
    (forall id, declares cs id -> exists s, subroutineTable c' !! Z.to_nat id = Some s /\
       reads_at bc (sub_address s) (List.map (redirect (subroutineTable c')) (sub_asm (block_asm (CurSub id) start cs)))) /\
    (forall b i, SUB_CALL i ∈ block_asm b start cs -> declares cs i).
Proof.
  intros Hsize Hcs H. set (P := fun id => (0 <= id < Z.of_nat (List.length (subroutineTable c))) /\ declares cs id).
  assert (Forall (child_ok P) cs) as Hcs'.
  { apply Forall_forall. intros k Hk. rewrite Forall_forall in Hcs. specialize (Hcs k Hk). unfold child_ok in *.
    destruct (node_kind k) eqn:E; try exact Hcs. split; [exact Hcs|by exists k]. }
  assert (forall id, P id -> 0 <= id < Z.of_nat (List.length (subroutineTable c))) as HP by (by intros id []).
  unfold generate in H. cbv zeta in H. apply bind_Ok in H as (pl & Hemit & H). apply bind_Ok in H as (pl' & Hfix & H).
  apply bind_Ok in H as ([] & Hver & H); cbn [negb] in H; [|discriminate].
  apply bind_Ok in H as ([[ok bc'] table'] & Hl & H). destruct ok; cbn [negb] in H; [|discriminate].
  injection H as -> _ <-. destruct (link_length _ _ _ _ _ _ Hl) as [Hlen Hok]. symmetry in Hok. b2p.
  assert (linkable pl' (subroutineTable c)) as Hlink by (eapply (generated_linkable P); [exact HP|exact Hcs'|exact Hemit|exact Hfix|exact Hver|lia]).
  destruct (generated_sorted _ _ _ _ _ Hemit Hfix) as [_ [Es Ss]].
  destruct (link_parts _ _ Hlink (bytecodeSize (targetDescription c))) as (t' & re & rs & Hl' & Hre & Hrs & _ & Hres).
  cbv zeta in Hl'. rewrite Hl' in Hl.
  assert (bc = header pl' ++ mjoin re ++ mjoin rs /\ table' = t') as [-> ->] by (by injection Hl). clear Hl Hl'.
  destruct (header_words _ _ Hlink) as [_ Hh]. pose proof (resolved_length _ _ _ Hre) as Hle.
  destruct (events_ok _ _ Hlink) as [_ Hne].
  change (subroutineTable _) with t'. exists (starts (base pl') (ev_bytecode pl')). split_and!; [exact (header_addresses _ _ Hlink _)|..].
  - intros id. split.
    + intros [a (pre & v & post & E & _)%starts_inv].
      apply (event_code P (subroutineTable c) cs pl pl' pos Hcs' Hemit Hfix id v). rewrite E. apply elem_of_app. right. apply list_elem_of_here.
    + intros Hb. destruct (event_there P _ _ _ _ _ Hcs' Hemit Hfix id Hb) as [v Hv].
      destruct (find_split _ _ _ Es Hv) as (pre & post & E). exists (base pl' + words pre). rewrite E in Hne |- *.
      apply starts_find. by apply Forall_app in Hne as [Hne _].
  - intros a id (pre & v & post & E & ->)%starts_inv. apply (code_at_reads _ _ _ v).
    + apply (segment_at _ _ _ _ _ _ (id, v) _ _ Hre E). rewrite Hh. unfold words, base. lia.
    + eapply event_reads; [exact Hcs'|exact Hemit|exact Hfix|]. rewrite E. apply elem_of_app. right. apply list_elem_of_here.
  - intros id Hd. destruct (sub_there P _ _ _ _ _ Hcs' Hemit Hfix id Hd) as [v Hv].
    destruct (find_split _ _ _ Ss Hv) as (pre & post & E). destruct (Hres _ _ _ _ E) as (s & Hs & Ha & _).
    exists s. split; [exact Hs|]. apply (code_at_reads _ _ _ v).
    + rewrite app_assoc, <- (app_nil_r (mjoin rs)). apply (segment_at _ _ _ _ _ _ (id, v) _ _ Hrs E).
      rewrite Ha, length_app, Hh, Hle. unfold words, base. lia.
    + by eapply (sub_code P).
  - intros b i Hin. by destruct (calls_declared P _ _ _ _ _ _ Hcs' Hemit Hfix Hver b i Hin).
Qed.

(** A program that stores, an event that calls, and a subroutine with a
    [return] before its end. *)
Definition sample_children : list node :=
  let p := mkPos 0 1 0 true in
  let assign a v := Node AssignmentNode p [Node (StoreNode a) p []; Node (ImmediateNode v) p []] in
  [assign 3 7; Node (EventDeclNode 5) p []; Node (CallSubNode [] 0) p [];
   Node (SubDeclNode 0) p []; assign 4 5000; Node ReturnNode p []; assign 4 (-1)].
Definition sample_state : Compiler := Expand.set_subroutines [mkSub [] 0 2] [] sample_compiler.

Lemma generate_correct_witness :
  exists bc n c' m, generate sample_state (Node ProgramNode SourcePos_none sample_children) = Ok (Compiled bc n, c') /\
    getEventAddressesToIds bc = Ok m /\
    reads_at bc 5 [SUB_CALL 10; STOP] /\
    exists s, subroutineTable c' !! 0%nat = Some s /\
      reads_at bc (sub_address s) [LARGE_IMMEDIATE 5000; STORE 4; SUB_RET; SMALL_IMMEDIATE (-1); STORE 4; SUB_RET].
Proof.
  destruct (generate sample_state (Node ProgramNode SourcePos_none sample_children)) as [[[bc n|e] c']|e| | |] eqn:E;
    [|exfalso; vm_compute in E; discriminate E..].
  destruct (generate_correct sample_state SourcePos_none sample_children bc n c') as (m & Hm & _ & He & Hs & _);
    [reflexivity|repeat constructor; (discriminate || reflexivity)|exact E|].
  assert (om_find 5 m = Some 5) as H5 by (vm_compute in E; injection E as <- _ _; vm_compute in Hm; injection Hm as <-; reflexivity).
  destruct (Hs 0) as (s & Hs1 & Hs2); [exists (Node (SubDeclNode 0) (mkPos 0 1 0 true) []); split; [apply (list_elem_of_lookup_2 _ 3); reflexivity|reflexivity]|].
  specialize (He 5 5 H5). exists bc, n, c', m. split_and!; [reflexivity|exact Hm| |].
  - assert (subroutineTable c' = [mkSub [] 10 2]) as Ht by (vm_compute in E; injection E as _ _ <-; reflexivity).
    rewrite Ht in He. exact He.
  - exists s. split; [exact Hs1|exact Hs2].
Defined.
