(* ===== verification/Utils.v ===== *)
(** * Text and checksums of the protocol

    common/utils/utils.cpp: the conversions between wide strings and UTF-8,
    the XModem checksum; [TargetDescription::crc] of
    common/msg/TargetDescription.cpp.  A byte is a [Z] of the range 0..255, a
    [wchar_t] a [Z] (a signed 32-bit integer), the host is little-endian. *)
From Stdlib Require Import ZArith Lia List.
From stdpp Require Import base list.
From S2P Require Import Prelude Bits Target.

Local Open Scope Z_scope.

(** The [std::runtime_error]s that are thrown: those of the message layer, and
    the [system_error] of a transfer. *)
Inductive runtime_error : Type :=
| serialization_error
| deserialization_error
| invalid_utf8
| system_error (code : Z).

(** ** UTF-8 *)

(** [WStringToUTF8]: the bytes of one code unit. *)
Definition utf8_encode1 (c : Z) : list Z :=
  if c <? 0x80 then [u8 c]
  else if c <? 0x800 then
    [Z.lor (Z.land (Z.shiftr c 6) 0x1F) 0xC0; Z.lor (Z.land c 0x3F) 0x80]
  else if c <? 0xd800 then
    [Z.lor (Z.land (Z.shiftr c 12) 0x0F) 0xE0; Z.lor (Z.land (Z.shiftr c 6) 0x3F) 0x80; Z.lor (Z.land c 0x3F) 0x80]
  else [63].

Fixpoint WStringToUTF8 (s : wstring) : list Z :=
  match s with
  | [] => []
  | c :: s' => utf8_encode1 c ++ WStringToUTF8 s'
  end.

(** [a[k]] where [a] points at the head of [l], the rest of a C++ string: the
    byte after the last one is the terminator. *)
Definition peek {E} (l : list Z) (k : nat) : res E Z :=
  match l !! k with
  | Some c => Ok c
  | None => if (k =? List.length l)%nat then Ok 0 else Crash
  end.

(** [UTF8ToWString]: [left] is not decremented on the bytes that continue a
    character, so that it bounds the bytes left from above. *)
Fixpoint utf8_decode (l : list Z) (left : Z) : res runtime_error wstring :=
  match l with
  | [] => Ok []
  | a :: l' =>
      if Z.land a 128 =? 0 then
        res ← utf8_decode l' (left - 1); Ok (a :: res)
      else if Z.land a 192 =? 128 then utf8_decode l' left
      else if Z.land a 224 =? 192 then
        if left <? 2 then Throw invalid_utf8
        else
          a1 ← peek l 1;
          res ← utf8_decode l' (left - 1);
          Ok (Z.lor (Z.shiftl (Z.land a 31) 6) (Z.land a1 63) :: res)
      else if Z.land a 240 =? 224 then
        if left <? 3 then Throw invalid_utf8
        else
          a1 ← peek l 1;
          a2 ← peek l 2;
          res ← utf8_decode l' (left - 1);
          Ok (Z.lor (Z.lor (Z.shiftl (Z.land a 15) 12) (Z.shiftl (Z.land a1 63) 6)) (Z.land a2 63) :: res)
      else if Z.land a 248 =? 240 then
        res ← utf8_decode l' (left - 1); Ok (63 :: res)
      else utf8_decode l' (left - 1)
  end.

Definition UTF8ToWString (s : list Z) : res runtime_error wstring :=
  utf8_decode s (Z.of_nat (List.length s)).

(** ** The XModem checksum *)

(** One turn of the loop over the bits. *)
Definition crc_bit (crc : Z) : Z :=
  if Z.land crc 0x8000 =? 0 then u16 (Z.shiftl crc 1)
  else u16 (Z.lxor (Z.shiftl crc 1) 0x1021).

Definition crc_xmodem_update1 (crc data : Z) : Z :=
  Nat.iter 8 crc_bit (Z.lxor crc (u16 (Z.shiftl data 8))).

Fixpoint crc_xmodem_update (crc : Z) (data : list Z) : Z :=
  match data with
  | [] => crc
  | b :: data' => crc_xmodem_update (crc_xmodem_update1 crc b) data'
  end.

(** The bytes that are summed up for a string: the terminator pads an odd
    length. *)
Definition padded (s : list Z) : list Z :=
  if Z.land (Z.of_nat (List.length s)) 1 =? 0 then s else s ++ [0].

Definition crcXModem_wstring (oldCrc : Z) (s : wstring) : Z :=
  crc_xmodem_update oldCrc (padded (WStringToUTF8 s)).

Definition crcXModem_u16 (oldCrc : Z) (v : Z) : Z := crc_xmodem_update oldCrc (u16_bytes (u16 v)).

(** [TargetDescription::crc]. *)
Definition crc (t : TargetDescription) : Z :=
  let c := crcXModem_u16 0 (bytecodeSize t) in
  let c := crcXModem_u16 c (variablesSize t) in
  let c := crcXModem_u16 c (stackSize t) in
  let c := foldl (fun c v => crcXModem_wstring (crcXModem_u16 c (var_size v)) (var_name v)) c (namedVariables t) in
  let c := foldl (fun c e => crcXModem_wstring c (event_name e)) c (localEvents t) in
  foldl (fun c f =>
    foldl (fun c p => crcXModem_wstring (crcXModem_u16 c (param_size p)) (param_name p))
      (crcXModem_wstring c (func_name f)) (parameters f)) c (nativeFunctions t).
