(* ===== verification/UtilsSpec.v ===== *)
(** * What the text and checksum functions promise

    Decoding inverts encoding up to the code units that UTF-8 cannot carry
    here; the checksum tells apart strings that differ in two adjacent bytes. *)
From Stdlib Require Import ZArith Lia List.
From stdpp Require Import base list.
From S2P Require Import Prelude Bits Target Utils.

Local Open Scope Z_scope.

(** ** UTF-8 *)

(** The three kinds of bytes of an encoded character. *)
Lemma lead2_byte h : 0 <= h < 32 -> Z.lor h 0xC0 = 0xC0 + h.
Proof. intros H. rewrite Z.lor_comm. change 0xC0 with (Z.shiftl 3 6). rewrite lor_shift; [done|lia|simpl; lia]. Qed.
Lemma lead3_byte h : 0 <= h < 16 -> Z.lor h 0xE0 = 0xE0 + h.
Proof. intros H. rewrite Z.lor_comm. change 0xE0 with (Z.shiftl 7 5). rewrite lor_shift; [done|lia|simpl; lia]. Qed.
Lemma cont_byte l : 0 <= l < 64 -> Z.lor l 0x80 = 0x80 + l.
Proof. intros H. rewrite Z.lor_comm. change 0x80 with (Z.shiftl 2 6). rewrite lor_shift; [done|lia|simpl; lia]. Qed.

(** What the decoder sees of them. *)
Lemma ascii_bits a : 0 <= a < 0x80 -> (Z.land a 128 =? 0) = true.
Proof. revert a. apply (below_cases (fun a => Z.land a 128 =? 0)). reflexivity. Qed.

Lemma cont_bits l : 0 <= l < 64 ->
  (Z.land (0x80 + l) 128 =? 0) = false /\ (Z.land (0x80 + l) 192 =? 128) = true /\ Z.land (0x80 + l) 63 = l.
Proof.
  intros H. pose proof (below_cases (fun l => negb (Z.land (0x80 + l) 128 =? 0) && (Z.land (0x80 + l) 192 =? 128)
    && (Z.land (0x80 + l) 63 =? l)) 64 eq_refl l H) as E.
  cbv beta in E. rewrite !andb_true_iff, negb_true_iff, (Z.eqb_eq _ l) in E. tauto.
Qed.

Lemma lead2_bits h : 0 <= h < 32 ->
  (Z.land (0xC0 + h) 128 =? 0) = false /\ (Z.land (0xC0 + h) 192 =? 128) = false /\
  (Z.land (0xC0 + h) 224 =? 192) = true /\ Z.land (0xC0 + h) 31 = h.
Proof.
  intros H. pose proof (below_cases (fun h => negb (Z.land (0xC0 + h) 128 =? 0) && negb (Z.land (0xC0 + h) 192 =? 128)
    && (Z.land (0xC0 + h) 224 =? 192) && (Z.land (0xC0 + h) 31 =? h)) 32 eq_refl h H) as E.
  cbv beta in E. rewrite !andb_true_iff, !negb_true_iff, (Z.eqb_eq _ h) in E. tauto.
Qed.

Lemma lead3_bits h : 0 <= h < 16 ->
  (Z.land (0xE0 + h) 128 =? 0) = false /\ (Z.land (0xE0 + h) 192 =? 128) = false /\
  (Z.land (0xE0 + h) 224 =? 192) = false /\ (Z.land (0xE0 + h) 240 =? 224) = true /\ Z.land (0xE0 + h) 15 = h.
Proof.
  intros H. pose proof (below_cases (fun h => negb (Z.land (0xE0 + h) 128 =? 0) && negb (Z.land (0xE0 + h) 192 =? 128)
    && negb (Z.land (0xE0 + h) 224 =? 192) && (Z.land (0xE0 + h) 240 =? 224) && (Z.land (0xE0 + h) 15 =? h)) 16 eq_refl h H) as E.
  cbv beta in E. rewrite !andb_true_iff, !negb_true_iff, (Z.eqb_eq _ h) in E. tauto.
Qed.

(** The bytes of a code unit, in arithmetic. *)
Lemma encode_ascii c : 0 <= c < 0x80 -> utf8_encode1 c = [c].
Proof. intros H. unfold utf8_encode1. rewrite (proj2 (Z.ltb_lt _ _)) by lia. by rewrite u8_id by lia. Qed.

Lemma encode_two c : 0x80 <= c < 0x800 -> utf8_encode1 c = [0xC0 + c / 64; 0x80 + c mod 64].
Proof.
  intros H. unfold utf8_encode1. rewrite (proj2 (Z.ltb_ge _ _)), (proj2 (Z.ltb_lt _ _)) by lia.
  rewrite land_31, land_63, Z.shiftr_div_pow2 by lia. change (2 ^ 6) with 64.
  assert (0 <= c / 64 < 32) by (split; [apply Z.div_pos|apply Z.div_lt_upper_bound]; lia).
  pose proof (Z.mod_pos_bound c 64). rewrite (Z.mod_small (c / 64)) by done.
  rewrite lead2_byte, cont_byte by lia. done.
Qed.

Lemma encode_three c : 0x800 <= c < 0xd800 ->
  utf8_encode1 c = [0xE0 + c / 4096; 0x80 + c / 64 mod 64; 0x80 + c mod 64].
Proof.
  intros H. unfold utf8_encode1. rewrite !(proj2 (Z.ltb_ge _ _)), (proj2 (Z.ltb_lt _ _)) by lia.
  rewrite land_15, !land_63, !Z.shiftr_div_pow2 by lia. change (2 ^ 6) with 64. change (2 ^ 12) with 4096.
  assert (0 <= c / 4096 < 16) by (split; [apply Z.div_pos|apply Z.div_lt_upper_bound]; lia).
  pose proof (Z.mod_pos_bound c 64). pose proof (Z.mod_pos_bound (c / 64) 64).
  rewrite (Z.mod_small (c / 4096)) by done. rewrite lead3_byte, !cont_byte by lia. done.
Qed.

(** The code units that survive, and what the others become. *)
Definition carried (c : Z) : Z := if c <? 0xd800 then c else 63.

Lemma decode_cont l s left : 0 <= l < 64 -> utf8_decode (0x80 + l :: s) left = utf8_decode s left.
Proof. intros H. destruct (cont_bits l H) as (E1 & E2 & _). cbn [utf8_decode]. by rewrite E1, E2. Qed.

Lemma decode_two h l s left : 0 <= h < 32 -> 0 <= l < 64 -> 2 <= left ->
  utf8_decode (0xC0 + h :: 0x80 + l :: s) left = (res ← utf8_decode s (left - 1); Ok (h * 64 + l :: res)).
Proof.
  intros Hh Hl Hleft. rewrite <- (decode_cont l s) by done.
  destruct (lead2_bits _ Hh) as (E1 & E2 & E3 & E4). destruct (cont_bits _ Hl) as (_ & _ & E5).
  remember (0x80 + l :: s) as t eqn:Et. cbn [utf8_decode]. rewrite E1, E2, E3, (proj2 (Z.ltb_ge _ _)) by lia.
  rewrite E4. assert (forall a, peek (E:=runtime_error) (a :: t) 1 = Ok (0x80 + l)) as -> by (by subst t).
  cbn [mbind res_bind]. by rewrite E5, lor_shift by lia.
Qed.

Lemma decode_three h l1 l2 s left : 0 <= h < 16 -> 0 <= l1 < 64 -> 0 <= l2 < 64 -> 3 <= left ->
  utf8_decode (0xE0 + h :: 0x80 + l1 :: 0x80 + l2 :: s) left
  = (res ← utf8_decode s (left - 1); Ok ((h * 64 + l1) * 64 + l2 :: res)).
Proof.
  intros Hh Hl1 Hl2 Hleft. rewrite <- (decode_cont l2 s), <- (decode_cont l1 (0x80 + l2 :: s)) by done.
  destruct (lead3_bits _ Hh) as (E1 & E2 & E3 & E4 & E5).
  destruct (cont_bits _ Hl1) as (_ & _ & F1). destruct (cont_bits _ Hl2) as (_ & _ & F2).
  remember (0x80 + l1 :: 0x80 + l2 :: s) as t eqn:Et. cbn [utf8_decode].
  rewrite E1, E2, E3, E4, (proj2 (Z.ltb_ge left 3)) by lia. rewrite E5.
  assert (forall a, peek (E:=runtime_error) (a :: t) 1 = Ok (0x80 + l1)) as -> by (by subst t).
  assert (forall a, peek (E:=runtime_error) (a :: t) 2 = Ok (0x80 + l2)) as -> by (by subst t).
  cbn [mbind res_bind]. rewrite F1, F2, <- Z.lor_assoc, (lor_shift 6 l1), lor_shift by lia.
  by replace (h * 2 ^ 12 + (l1 * 2 ^ 6 + l2)) with ((h * 64 + l1) * 64 + l2) by lia.
Qed.

Lemma decode_encode1 c s left :
  0 <= c -> Z.of_nat (List.length (utf8_encode1 c)) <= left ->
  utf8_decode (utf8_encode1 c ++ s) left = (res ← utf8_decode s (left - 1); Ok (carried c :: res)).
Proof.
  intros Hc. unfold carried. destruct (Z.ltb_spec c 0xd800) as [Hlt|Hge].
  2: { assert (utf8_encode1 c = [63]) as ->; [|done]. unfold utf8_encode1. by rewrite !(proj2 (Z.ltb_ge _ _)) by lia. }
  pose proof (Z.mod_pos_bound c 64). pose proof (Z.div_mod c 64).
  destruct (Z.lt_ge_cases c 0x80) as [H1|H1]; [|destruct (Z.lt_ge_cases c 0x800) as [H2|H2]].
  - rewrite encode_ascii by lia. intros _. cbn [app utf8_decode]. by rewrite ascii_bits by lia.
  - rewrite encode_two by lia. cbn [List.length app]. intros Hleft.
    assert (0 <= c / 64 < 32) by (split; [apply Z.div_pos|apply Z.div_lt_upper_bound]; lia).
    rewrite decode_two by lia. by replace (c / 64 * 64 + c mod 64) with c by lia.
  - rewrite encode_three by lia. cbn [List.length app]. intros Hleft.
    assert (0 <= c / 4096 < 16) by (split; [apply Z.div_pos|apply Z.div_lt_upper_bound]; lia).
    pose proof (Z.mod_pos_bound (c / 64) 64). pose proof (Z.div_mod (c / 64) 64).
    assert (c / 64 / 64 = c / 4096) by (rewrite Z.div_div; [done|lia|lia]).
    rewrite decode_three by lia.
    by replace ((c / 4096 * 64 + c / 64 mod 64) * 64 + c mod 64) with c by lia.
Qed.

Lemma encode1_nonempty c : (0 < List.length (utf8_encode1 c))%nat.
Proof. unfold utf8_encode1. repeat destruct (_ <? _); simpl; lia. Qed.

Lemma decode_encode s left :
  Forall (fun c => 0 <= c) s -> Z.of_nat (List.length (WStringToUTF8 s)) <= left ->
  utf8_decode (WStringToUTF8 s) left = Ok (List.map carried s).
Proof.
  intros Hs; revert left; induction Hs as [|c s Hc _ IH]; intros left; [done|].
  cbn [WStringToUTF8 List.map]. rewrite length_app. intros Hl. pose proof (encode1_nonempty c).
  rewrite decode_encode1 by lia. by rewrite IH by lia.
Qed.

(** UTF-8 round trip.  Decoding the encoding of a wide string gives the
    string back, but for the code units from [0xd800], which become question
    marks. *)
Theorem utf8_roundtrip s :
  Forall (fun c => 0 <= c) s -> UTF8ToWString (WStringToUTF8 s) = Ok (List.map carried s).
Proof. intros Hs. by apply decode_encode. Qed.

Lemma utf8_roundtrip_witness : UTF8ToWString (WStringToUTF8 [84; 233; 8364; 0x1F600]) = Ok [84; 233; 8364; 63].
Proof. apply (utf8_roundtrip [84; 233; 8364; 0x1F600]). repeat constructor; lia. Defined.

(** The bytes of an encoded string. *)
Lemma encode1_bytes c : 0 <= c -> Forall byte (utf8_encode1 c).
Proof.
  intros Hc. destruct (Z.lt_ge_cases c 0x80) as [H1|H1].
  { rewrite encode_ascii by lia. repeat constructor; lia. }
  pose proof (Z.mod_pos_bound c 64). destruct (Z.lt_ge_cases c 0x800) as [H2|H2].
  { rewrite encode_two by lia. assert (0 <= c / 64 < 32) by (split; [apply Z.div_pos|apply Z.div_lt_upper_bound]; lia).
    repeat constructor; lia. }
  destruct (Z.lt_ge_cases c 0xd800) as [H3|H3].
  - rewrite encode_three by lia. pose proof (Z.mod_pos_bound (c / 64) 64).
    assert (0 <= c / 4096 < 16) by (split; [apply Z.div_pos|apply Z.div_lt_upper_bound]; lia). repeat constructor; lia.
  - unfold utf8_encode1. rewrite !(proj2 (Z.ltb_ge _ _)) by lia. repeat constructor; lia.
Qed.

Lemma encode_bytes s : Forall (fun c => 0 <= c) s -> Forall byte (WStringToUTF8 s).
Proof. induction 1; simpl; [constructor|]. apply Forall_app. split; [by apply encode1_bytes|done]. Qed.

(** ** The checksum

    One step of the register is linear and injective; eight steps push a byte
    through without feedback, so that two bytes enter the register as one
    16-bit word. *)

Definition reg (c : Z) : Prop := 0 <= c < 65536.

Lemma lxor_reg a b : reg a -> reg b -> reg (Z.lxor a b).
Proof.
  intros [Ha1 Ha2] [Hb1 Hb2]. split; [by apply Z.lxor_nonneg|].
  destruct (Z.eq_dec (Z.lxor a b) 0) as [->|Hn]; [lia|].
  assert (0 < Z.lxor a b) by (pose proof (proj2 (Z.lxor_nonneg a b)); lia).
  change 65536 with (2 ^ 16). apply Z.log2_lt_pow2; [done|].
  eapply Z.le_lt_trans; [by apply Z.log2_lxor|]. apply Z.max_lub_lt.
  - destruct (Z.eq_dec a 0) as [->|]; [done|]. apply Z.log2_lt_pow2; lia.
  - destruct (Z.eq_dec b 0) as [->|]; [done|]. apply Z.log2_lt_pow2; lia.
Qed.

Lemma u16_lxor a b : u16 (Z.lxor a b) = Z.lxor (u16 a) (u16 b).
Proof.
  unfold u16. change 65536 with (2 ^ 16). apply Z.bits_inj'. intros n Hn. rewrite Z.lxor_spec.
  destruct (Z.lt_ge_cases n 16).
  - by rewrite !Z.mod_pow2_bits_low, Z.lxor_spec by done.
  - by rewrite !Z.mod_pow2_bits_high by lia.
Qed.

(** The bit that leaves the register. *)
Definition top (c : Z) : bool := Z.testbit c 15.

Lemma land_bit15 c : (Z.land c 0x8000 =? 0) = negb (top c).
Proof.
  unfold top. change 0x8000 with (2 ^ 15). destruct (Z.testbit c 15) eqn:E; simpl.
  - apply Z.eqb_neq. intros H. assert (Z.testbit (Z.land c (2 ^ 15)) 15 = true) as H'.
    { by rewrite Z.land_spec, E, Z.pow2_bits_true. }
    by rewrite H, Z.bits_0 in H'.
  - apply Z.eqb_eq, Z.bits_inj'. intros n Hn. rewrite Z.land_spec, Z.bits_0, Z.pow2_bits_eqb by lia.
    destruct (Z.eqb_spec 15 n) as [<-|]; [by rewrite E|apply andb_false_r].
Qed.

Definition feedback (c : Z) : Z := if top c then 0x1021 else 0.

Lemma crc_bit_eq c : crc_bit c = Z.lxor (u16 (Z.shiftl c 1)) (feedback c).
Proof.
  unfold crc_bit, feedback. rewrite land_bit15. destruct (top c); simpl; [|by rewrite Z.lxor_0_r].
  by rewrite u16_lxor.
Qed.

Lemma crc_bit_reg c : reg (crc_bit c).
Proof. rewrite crc_bit_eq. apply lxor_reg; [apply u16_range|]. unfold reg, feedback. destruct (top c); lia. Qed.

Lemma crc_bit_lxor a b : crc_bit (Z.lxor a b) = Z.lxor (crc_bit a) (crc_bit b).
Proof.
  rewrite !crc_bit_eq, Z.shiftl_lxor, u16_lxor.
  assert (feedback (Z.lxor a b) = Z.lxor (feedback a) (feedback b)) as ->.
  { unfold feedback, top. rewrite Z.lxor_spec. by destruct (Z.testbit a 15), (Z.testbit b 15). }
  apply Z.bits_inj'. intros n _. rewrite !Z.lxor_spec.
  generalize (Z.testbit (u16 (Z.shiftl a 1)) n) (Z.testbit (u16 (Z.shiftl b 1)) n) (Z.testbit (feedback a) n) (Z.testbit (feedback b) n).
  by intros [] [] [] [].
Qed.

(** Only the zero register becomes zero: the feedback word is odd. *)
Lemma crc_bit_zero c : reg c -> crc_bit c = 0 -> c = 0.
Proof.
  intros Hc H. rewrite crc_bit_eq in H. apply Z.lxor_eq in H.
  assert (Z.testbit (u16 (Z.shiftl c 1)) 0 = false) as H0.
  { unfold u16. change 65536 with (2 ^ 16). by rewrite Z.mod_pow2_bits_low, Z.shiftl_spec_low by lia. }
  unfold feedback in H. destruct (top c) eqn:E; [by rewrite H in H0|].
  assert (c < 32768).
  { destruct (Z.lt_ge_cases c 32768) as [|Hge]; [done|]. exfalso. unfold top in E.
    assert (c / 2 ^ 15 = 1) as Hd by (symmetry; apply (Z.div_unique _ _ _ (c - 32768)); unfold reg in Hc; simpl; lia).
    pose proof (Z.testbit_spec' c 15 ltac:(lia)) as Hb. by rewrite E, Hd in Hb. }
  rewrite Z.shiftl_mul_pow2 in H by lia. change (2 ^ 1) with 2 in H. unfold reg in Hc. rewrite u16_id in H by lia. lia.
Qed.

Definition steps (n : nat) (c : Z) : Z := Nat.iter n crc_bit c.

Lemma steps_reg n c : reg c -> reg (steps n c).
Proof. intros H. destruct n; [done|apply crc_bit_reg]. Qed.

Lemma steps_lxor n a b : steps n (Z.lxor a b) = Z.lxor (steps n a) (steps n b).
Proof. induction n as [|n IH]; [done|]. unfold steps in *. simpl. by rewrite IH, crc_bit_lxor. Qed.

Lemma steps_zero n c : reg c -> steps n c = 0 -> c = 0.
Proof.
  intros Hc. induction n as [|n IH]; [done|]. unfold steps in *. simpl. intros H. apply IH.
  apply crc_bit_zero; [by apply steps_reg|done].
Qed.

Lemma steps_inj n a b : reg a -> reg b -> steps n a = steps n b -> a = b.
Proof.
  intros Ha Hb H. apply Z.lxor_eq, (steps_zero n); [by apply lxor_reg|]. rewrite steps_lxor, H. apply Z.lxor_nilpotent.
Qed.

Lemma steps_add n m c : steps (n + m) c = steps n (steps m c).
Proof. unfold steps. apply Nat.iter_add. Qed.

Lemma steps_byte d : byte d -> steps 8 d = d * 256.
Proof. intros Hd. apply Z.eqb_eq. revert d Hd. apply (below_cases (fun d => steps 8 d =? d * 256)). reflexivity. Qed.

Lemma shift_byte d : byte d -> u16 (Z.shiftl d 8) = d * 256.
Proof. unfold byte. intros Hd. rewrite Z.shiftl_mul_pow2 by lia. change (2 ^ 8) with 256. apply u16_id. lia. Qed.

Lemma update_reg c d : reg (crc_xmodem_update1 c d).
Proof. apply crc_bit_reg. Qed.

Lemma update1_eq c d : byte d -> crc_xmodem_update1 c d = steps 8 (Z.lxor c (d * 256)).
Proof. intros Hd. unfold crc_xmodem_update1. by rewrite shift_byte. Qed.

(** Two bytes enter as one word. *)
Lemma update_two c a b : reg c -> byte a -> byte b ->
  crc_xmodem_update1 (crc_xmodem_update1 c a) b = steps 16 (Z.lxor c (a * 256 + b)).
Proof.
  intros Hc Ha Hb. rewrite !update1_eq, <- (steps_byte b) by done.
  rewrite <- steps_lxor, <- steps_add. f_equal. rewrite Z.lxor_assoc. f_equal.
  change (a * 256) with (a * 2 ^ 8). rewrite <- Z.shiftl_mul_pow2 by lia.
  rewrite lxor_shift by (exact Hb || lia). by rewrite Z.shiftl_mul_pow2 by lia. 
Qed.

Lemma update_app c l1 l2 : crc_xmodem_update c (l1 ++ l2) = crc_xmodem_update (crc_xmodem_update c l1) l2.
Proof. revert c; induction l1 as [|b l1 IH]; intros c; [done|]. apply IH. Qed.

Lemma update_all_reg c l : reg c -> reg (crc_xmodem_update c l).
Proof. revert c; induction l as [|b l IH]; intros c Hc; [done|]. apply IH, update_reg. Qed.

Lemma update1_inj c c' d : reg c -> reg c' -> byte d ->
  crc_xmodem_update1 c d = crc_xmodem_update1 c' d -> c = c'.
Proof.
  intros Hc Hc' Hd H. rewrite !update1_eq in H by done.
  assert (reg (d * 256)) as Hr by (unfold byte, reg in *; lia).
  apply (steps_inj 8) in H; [|by apply lxor_reg..].
  apply (f_equal (Z.lxor (d * 256))) in H.
  by rewrite !(Z.lxor_comm _ (d * 256)), <- !Z.lxor_assoc, Z.lxor_nilpotent, !Z.lxor_0_l in H.
Qed.

Lemma update_all_inj c c' l : reg c -> reg c' -> Forall byte l ->
  crc_xmodem_update c l = crc_xmodem_update c' l -> c = c'.
Proof.
  revert c c'; induction l as [|b l IH]; intros c c' Hc Hc' Hl H; [done|].
  apply Forall_cons_1 in Hl as [Hb Hl]. apply IH in H; [|apply update_reg..|done].
  by eapply update1_inj.
Qed.

(** The checksum tells apart strings that differ in at most two adjacent
    bytes, whatever surrounds them and whatever the register held. *)
Theorem crc_detects c pre a b a' b' post :
  reg c -> Forall byte (a :: b :: a' :: b' :: pre ++ post) ->
  (a, b) <> (a', b') ->
  crc_xmodem_update c (pre ++ a :: b :: post) <> crc_xmodem_update c (pre ++ a' :: b' :: post).
Proof.
  intros Hc H Hne E. apply Hne. rewrite !Forall_cons, Forall_app in H. destruct H as (Ha & Hb & Ha' & Hb' & Hpre & Hpost).
  rewrite !update_app in E. cbn [crc_xmodem_update] in E. set (c1 := crc_xmodem_update c pre) in E.
  assert (reg c1) as Hc1 by (by apply update_all_reg).
  apply update_all_inj in E; [|apply update_reg..|done]. rewrite !update_two in E by done.
  assert (reg (a * 256 + b) /\ reg (a' * 256 + b')) as [] by (unfold reg, byte in *; lia).
  apply steps_inj in E; [|by apply lxor_reg..].
  apply (f_equal (Z.lxor c1)) in E. rewrite <- !Z.lxor_assoc, !Z.lxor_nilpotent, !Z.lxor_0_l in E.
  unfold byte in *. f_equal; lia.
Qed.

Lemma crc_detects_witness : crc_xmodem_update 0 [1; 2; 3; 9] <> crc_xmodem_update 0 [1; 2; 4; 9].
Proof.
  apply (crc_detects 0 [1] 2 3 2 4 [9]); [unfold reg; lia| |congruence]. repeat constructor; lia.
Defined.

(** A string followed by its checksum, the high byte first, has the checksum
    zero: the check of the XModem protocol. *)
Lemma crc_residue c l : reg c -> Forall byte l ->
  crc_xmodem_update c (l ++ [crc_xmodem_update c l / 256; crc_xmodem_update c l mod 256]) = 0.
Proof.
  intros Hc Hl. rewrite update_app. set (c1 := crc_xmodem_update c l).
  assert (reg c1) as Hc1 by (by apply update_all_reg). unfold reg in Hc1.
  cbn [crc_xmodem_update]. pose proof (Z.mod_pos_bound c1 256). pose proof (Z.div_mod c1 256).
  assert (0 <= c1 / 256 < 256) by (split; [apply Z.div_pos|apply Z.div_lt_upper_bound]; lia).
  rewrite update_two by (unfold reg, byte; lia). replace (c1 / 256 * 256 + c1 mod 256) with c1 by lia.
  by rewrite Z.lxor_nilpotent.
Qed.

Lemma crcXModem_wstring_reg c s : reg c -> reg (crcXModem_wstring c s).
Proof. apply update_all_reg. Qed.
