(* ===== verification/Buffer.v ===== *)
(** * The serialization buffer

    [Message::SerializationBuffer] of common/msg/msg.h and the [add] and [get]
    templates of common/msg/msg.cpp, with the predicates that state what a
    serializer writes and what a deserializer reads.  The host is
    little-endian: [swapEndian] does nothing. *)
From Stdlib Require Import ZArith Lia List.
From stdpp Require Import base list.
From S2P Require Import Prelude Bits Utils.

Local Open Scope Z_scope.

Record SerializationBuffer : Type := mkBuffer { rawData : list Z; readPos : nat }.

Definition empty_buffer : SerializationBuffer := mkBuffer [] 0.

(** A serializer appends to the buffer, a deserializer reads from it. *)
Definition writer : Type := SerializationBuffer -> res runtime_error SerializationBuffer.
Definition reader (A : Type) : Type := SerializationBuffer -> res runtime_error (A * SerializationBuffer).

#[export] Instance reader_ret : MRet reader := fun A a b => Ok (a, b).
#[export] Instance reader_bind : MBind reader := fun A B f r b => '(a, b') ← r b; f a b'.

Definition nothing : writer := fun b => Ok b.
Definition seq (w1 w2 : writer) : writer := fun b => b' ← w1 b; w2 b'.
Notation "w1 ;;; w2" := (seq w1 w2) (at level 60, right associativity).

(** The loops [for(x : l) buffer.add(x)]. *)
Fixpoint for_all {A} (f : A -> writer) (l : list A) : writer :=
  match l with
  | [] => nothing
  | x :: l' => f x ;;; for_all f l'
  end.

(** The loops [for(auto& x : v) x = buffer.get()] over a vector of [n] elements. *)
Fixpoint get_n {A} (n : nat) (r : reader A) : reader (list A) :=
  match n with
  | O => mret []
  | S n' => x ← r; l ← get_n n' r; mret (x :: l)
  end.

(** ** [add] *)

Definition add_bytes (l : list Z) : writer := fun b => Ok (mkBuffer (rawData b ++ l) (readPos b)).

Definition add_u8 (v : Z) : writer := add_bytes [v].
(** The two bytes of a [uint16_t] or an [int16_t]. *)
Definition add_u16 (v : Z) : writer := add_bytes (u16_bytes v).

Definition add_string (val : list Z) : writer :=
  if 255 <? Z.of_nat (List.length val) then fun _ => Throw serialization_error
  else add_u8 (u8 (Z.of_nat (List.length val))) ;;; for_all add_u8 val.

(** ** [get] *)

Definition get_bytes (n : nat) : reader (list Z) := fun b =>
  if (List.length (rawData b) <? readPos b + n)%nat then Throw deserialization_error
  else Ok (take n (drop (readPos b) (rawData b)), mkBuffer (rawData b) (readPos b + n)).

(** The value that the copied bytes represent. *)
Definition value8 (l : list Z) : Z := match l with b0 :: _ => b0 | [] => 0 end.
Definition value16 (l : list Z) : Z := match l with b0 :: b1 :: _ => u16_of_bytes b0 b1 | _ => 0 end.

Definition get_u8 : reader Z := l ← get_bytes 1; mret (value8 l).
Definition get_u16 : reader Z := l ← get_bytes 2; mret (value16 l).
Definition get_s16 : reader Z := v ← get_u16; mret (s16 v).

Definition get_string : reader (list Z) := len ← get_u8; get_n (Z.to_nat len) get_u8.

(** Conversions that may throw, and the size of the buffer. *)
Definition lift {A} (m : res runtime_error A) : reader A := fun b => a ← m; Ok (a, b).
Definition size_all : reader nat := fun b => Ok (List.length (rawData b), b).
Definition size_left : reader nat := fun b => Ok ((List.length (rawData b) - readPos b)%nat, b).

(** [vector::resize]. *)
Definition resize {A} (d : A) (n : nat) (l : list A) : list A := take n l ++ replicate (n - List.length l) d.

(** ** What a serializer writes *)

Definition writes (w : writer) (bs : list Z) : Prop :=
  forall b, w b = Ok (mkBuffer (rawData b ++ bs) (readPos b)).

Lemma writes_nothing : writes nothing [].
Proof. intros [r p]. unfold nothing. simpl. by rewrite app_nil_r. Qed.

Lemma writes_seq w1 w2 b1 b2 : writes w1 b1 -> writes w2 b2 -> writes (w1 ;;; w2) (b1 ++ b2).
Proof. intros H1 H2 b. unfold seq. rewrite H1. simpl. rewrite H2. simpl. by rewrite app_assoc. Qed.

Lemma writes_u8 v : writes (add_u8 v) [v].
Proof. by intros b. Qed.
Lemma writes_u16 v : writes (add_u16 v) (u16_bytes v).
Proof. by intros b. Qed.

Lemma writes_for_all {A} (f : A -> writer) (g : A -> list Z) l :
  Forall (fun x => writes (f x) (g x)) l -> writes (for_all f l) (mjoin (List.map g l)).
Proof. induction 1 as [|x l Hx _ IH]; [apply writes_nothing|]. by apply writes_seq. Qed.

Lemma writes_bytes l : writes (for_all add_u8 l) l.
Proof. induction l as [|x l IH]; [apply writes_nothing|]. by apply (writes_seq _ _ [x] l). Qed.

(** A string on the wire: its length, then its bytes. *)
Definition short (s : list Z) : Prop := Z.of_nat (List.length s) < 256.
Definition string_bytes (s : list Z) : list Z := Z.of_nat (List.length s) :: s.

#[global] Arguments string_bytes s : simpl never.

Lemma writes_string s : short s -> writes (add_string s) (string_bytes s).
Proof.
  intros Hs. unfold add_string, short in *. rewrite (proj2 (Z.ltb_ge _ _)) by lia. rewrite u8_id by lia.
  apply (writes_seq _ _ [_] s); [apply writes_u8|apply writes_bytes].
Qed.

(** ** What a deserializer reads *)

(** [r] reads the bytes [bs] that stand between [pre] and [post] as [a]. *)
Definition reads {A} (pre post : list Z) (r : reader A) (bs : list Z) (a : A) : Prop :=
  r (mkBuffer (pre ++ bs ++ post) (List.length pre))
  = Ok (a, mkBuffer (pre ++ bs ++ post) (List.length (pre ++ bs))).

Section Reads.
Context (pre post : list Z).

Lemma reads_ret {A} (a : A) : reads pre post (mret a) [] a.
Proof. unfold reads. by rewrite app_nil_r. Qed.

Lemma reads_bytes bs : reads pre post (get_bytes (List.length bs)) bs bs.
Proof.
  unfold reads, get_bytes. cbn [rawData readPos]. rewrite !length_app.
  rewrite (proj2 (Nat.ltb_ge _ _)) by lia. by rewrite drop_app_length, take_app_length.
Qed.

Lemma reads_lift {A} (m : res runtime_error A) a : m = Ok a -> reads pre post (lift m) [] a.
Proof. intros ->. unfold reads, lift. simpl. by rewrite app_nil_r. Qed.

Lemma reads_size_all : reads pre post size_all [] (List.length (pre ++ post)).
Proof. unfold reads. simpl. by rewrite app_nil_r. Qed.

Lemma reads_size_left : reads pre post size_left [] (List.length post).
Proof. unfold reads, size_left. simpl. rewrite app_nil_r, length_app. do 3 f_equal. lia. Qed.
End Reads.

Lemma reads_bind {A B} pre post (r : reader A) (f : A -> reader B) b1 b2 a b :
  reads pre (b2 ++ post) r b1 a -> reads (pre ++ b1) post (f a) b2 b -> reads pre post (r ≫= f) (b1 ++ b2) b.
Proof.
  unfold reads. intros H1 H2. unfold mbind, reader_bind. rewrite <- !app_assoc in *. rewrite H1. simpl. exact H2.
Qed.

(** The same when the first step reads nothing or the last one only returns. *)
Lemma reads_bind_nil {A B} pre post (r : reader A) (f : A -> reader B) bs a b :
  reads pre (bs ++ post) r [] a -> reads pre post (f a) bs b -> reads pre post (r ≫= f) bs b.
Proof.
  intros H1 H2. apply (reads_bind _ _ _ _ [] bs a); [done|]. by rewrite app_nil_r.
Qed.

Lemma reads_last {A B} pre post (r : reader A) (f : A -> B) bs a :
  reads pre post r bs a -> reads pre post (r ≫= (fun x => mret (f x))) bs (f a).
Proof.
  intros H. rewrite <- (app_nil_r bs). apply (reads_bind _ _ _ _ _ _ a); [done|apply reads_ret].
Qed.

Lemma reads_u8 pre post v : reads pre post get_u8 [v] v.
Proof. apply (reads_last pre post (get_bytes 1) value8 [v] [v]), (reads_bytes pre post [v]). Qed.

Lemma reads_u16 pre post v : reads pre post get_u16 (u16_bytes v) (u16 v).
Proof.
  rewrite <- u16_bytes_inv. apply (reads_last pre post (get_bytes 2) value16 (u16_bytes v) (u16_bytes v)).
  apply (reads_bytes pre post (u16_bytes v)).
Qed.

Lemma reads_u16_id pre post v : 0 <= v < 65536 -> reads pre post get_u16 (u16_bytes v) v.
Proof. intros H. rewrite <- (u16_id v) at 2 by done. apply reads_u16. Qed.

Lemma reads_s16 pre post v : reads pre post get_s16 (u16_bytes v) (s16 v).
Proof. rewrite <- s16_u16. apply (reads_last pre post get_u16 s16), reads_u16. Qed.

Lemma reads_s16_id pre post v : -32768 <= v < 32768 -> reads pre post get_s16 (u16_bytes v) v.
Proof. intros H. rewrite <- (s16_id v) at 2 by done. apply reads_s16. Qed.

Lemma reads_n {A B} pre post (r : reader A) (g : B -> list Z) (h : B -> A) l :
  (forall x pre post, x ∈ l -> reads pre post r (g x) (h x)) ->
  reads pre post (get_n (List.length l) r) (mjoin (List.map g l)) (List.map h l).
Proof.
  revert pre; induction l as [|x l IH]; intros pre H; [apply reads_ret|].
  cbn [List.length get_n List.map mjoin list_join].
  apply (reads_bind _ _ _ _ _ _ (h x)); [apply H; left|].
  apply (reads_last _ _ _ (cons (h x))). apply IH. intros y ? ? Hy. apply H. by right.
Qed.

Lemma reads_n_bytes pre post l : reads pre post (get_n (List.length l) get_u8) l l.
Proof.
  revert pre; induction l as [|x l IH]; intros pre; [apply reads_ret|].
  apply (reads_bind _ _ _ _ [x] l x); [apply reads_u8|]. apply (reads_last _ _ _ (cons x)), IH.
Qed.

Lemma reads_string pre post s : reads pre post get_string (string_bytes s) s.
Proof.
  apply (reads_bind _ _ _ _ [_] s (Z.of_nat (List.length s))); [apply reads_u8|].
  rewrite Nat2Z.id. apply reads_n_bytes.
Qed.

(** Following a deserializer from its first to its last read. *)
Create HintDb wire.
#[export] Hint Resolve writes_nothing writes_u8 writes_u16 writes_string writes_bytes : wire.
#[export] Hint Resolve reads_u8 reads_u16_id reads_s16_id reads_string reads_n_bytes reads_ret : wire.

Ltac writing :=
  repeat match goal with
  | |- writes _ _ => solve [eauto with wire]
  | |- writes (_ ;;; _) _ => eapply writes_seq
  end.

Ltac reading :=
  repeat match goal with
  | |- reads _ _ (_ ≫= (fun _ => mret _)) _ _ => eapply reads_last
  | |- reads _ _ (lift _ ≫= _) _ _ => eapply reads_bind_nil; [apply reads_lift|]
  | |- reads _ _ (_ ≫= _) _ _ => eapply reads_bind
  | |- reads _ _ _ _ _ => solve [eauto with wire]
  end.
