(* ===== verification/MsgClasses.v ===== *)
(** * The messages of the network

    common/msg/msg.h and common/msg/msg.cpp: one Module per class of message,
    with its data members and its two virtual methods that read and write.
    The table of types and [create] are in Msg.v; comparison, names and
    [dumpSpecific] in MsgText.v. *)
From Stdlib Require Import ZArith Lia List.
From stdpp Require Import base list.
From S2P Require Import Prelude Consts OrdMap Bits Target Utils Buffer.

Local Open Scope Z_scope.

(** [virtual void serializeSpecific] and [deserializeSpecific]: a class of
    messages.  The deserializer gets the object it fills. *)
Class MessageClass (T : Type) : Type := {
  serializeSpecific : T -> writer;
  deserializeSpecific : T -> reader T
}.

Definition add_wstring (s : wstring) : writer := add_string (WStringToUTF8 s).
Definition get_wstring : reader wstring := s ← get_string; lift (UTF8ToWString s).

(** The elements that [vector::resize] adds. *)
Definition default_variable : NamedVariable := mkNamedVariable [] 0.
Definition default_event : LocalEvent := mkLocalEvent [] [].
Definition default_function : NativeFunction := mkNativeFunction [] [] [].

#[export] Instance NamedVariable_eq_dec : EqDecision NamedVariable.
Proof. solve_decision. Defined.
#[export] Instance LocalEvent_eq_dec : EqDecision LocalEvent.
Proof. solve_decision. Defined.
#[export] Instance NativeFunctionParameter_eq_dec : EqDecision NativeFunctionParameter.
Proof. solve_decision. Defined.
#[export] Instance NativeFunction_eq_dec : EqDecision NativeFunction.
Proof. solve_decision. Defined.
#[export] Instance TargetDescription_eq_dec : EqDecision TargetDescription.
Proof. solve_decision. Defined.

(** Any message sent by a script on a node; the data are [int16_t]. *)
Module UserMessage.

Record t : Type := mk { data : list Z }.

#[global] Instance t_eq_dec : EqDecision t.
Proof. solve_decision. Defined.

Definition serialize (m : t) : writer :=
  for_all add_u16 (data m).

Definition deserialize (m : t) : reader t :=
  size ← size_all;
  if Nat.odd size then lift (Throw deserialization_error)
  else data ← get_n (size / 2) get_s16; mret (mk data).

#[global] Instance message_class : MessageClass t := { serializeSpecific := serialize; deserializeSpecific := deserialize }.
End UserMessage.

(** Commands messages talk to a specific node. *)
Module CmdMessage.

Record t : Type := mk { dest : Z }.

#[global] Instance t_eq_dec : EqDecision t.
Proof. solve_decision. Defined.

Definition serialize (m : t) : writer :=
  add_u16 (dest m).

Definition deserialize (m : t) : reader t :=
  dest ← get_u16; mret (mk dest).

#[global] Instance message_class : MessageClass t := { serializeSpecific := serialize; deserializeSpecific := deserialize }.
End CmdMessage.

(** The flash memory layout. *)
Module BootloaderDescription.

Record t : Type := mk { pageSize : Z; pagesStart : Z; pagesCount : Z }.

#[global] Instance t_eq_dec : EqDecision t.
Proof. solve_decision. Defined.

Definition serialize (m : t) : writer :=
  add_u16 (pageSize m) ;;; add_u16 (pagesStart m) ;;; add_u16 (pagesCount m).

Definition deserialize (m : t) : reader t :=
  pageSize ← get_u16; pagesStart ← get_u16; pagesCount ← get_u16; mret (mk pageSize pagesStart pagesCount).

#[global] Instance message_class : MessageClass t := { serializeSpecific := serialize; deserializeSpecific := deserialize }.
End BootloaderDescription.

(** Data from the flash, a [std::array<uint8_t, 4>]. *)
Module BootloaderDataRead.

Record t : Type := mk { data : list Z }.

#[global] Instance t_eq_dec : EqDecision t.
Proof. solve_decision. Defined.

Definition serialize (m : t) : writer :=
  for_all add_u8 (data m).

Definition deserialize (m : t) : reader t :=
  data ← get_n (List.length (data m)) get_u8; mret (mk data).

#[global] Instance message_class : MessageClass t := { serializeSpecific := serialize; deserializeSpecific := deserialize }.
End BootloaderDataRead.

(** Acknowledge, with an optional error code; the address is only sent, and only set, with one of the codes. *)
Module BootloaderAck.

(** [enum class ErrorCode : uint16_t]. *)
Definition SUCCESS : Z := 0.
Definition INVALID_FRAME_SIZE : Z := 1.
Definition PROGRAMMING_FAILED : Z := 2.
Definition NOT_PROGRAMMING : Z := 3.

Record t : Type := mk { errorCode : Z; errorAddress : Z }.

#[global] Instance t_eq_dec : EqDecision t.
Proof. solve_decision. Defined.

Definition serialize (m : t) : writer :=
  add_u16 (errorCode m) ;;;
  if errorCode m =? PROGRAMMING_FAILED then add_u16 (errorAddress m) else nothing.

Definition deserialize (m : t) : reader t :=
  errorCode ← get_u16;
  errorAddress ← (if errorCode =? PROGRAMMING_FAILED then get_u16 else mret (errorAddress m));
  mret (mk errorCode errorAddress).

#[global] Instance message_class : MessageClass t := { serializeSpecific := serialize; deserializeSpecific := deserialize }.
End BootloaderAck.

(** Request nodes to notify their presence. *)
Module ListNodes.

Record t : Type := mk { version : Z }.

#[global] Instance t_eq_dec : EqDecision t.
Proof. solve_decision. Defined.

Definition serialize (m : t) : writer :=
  add_u16 (version m).

Definition deserialize (m : t) : reader t :=
  version ← get_u16; mret (mk version).

#[global] Instance message_class : MessageClass t := { serializeSpecific := serialize; deserializeSpecific := deserialize }.
End ListNodes.

(** Answer of a node notifying its presence. *)
Module NodePresent.

Record t : Type := mk { version : Z }.

#[global] Instance t_eq_dec : EqDecision t.
Proof. solve_decision. Defined.

Definition serialize (m : t) : writer :=
  add_u16 (version m).

Definition deserialize (m : t) : reader t :=
  version ← get_u16; mret (mk version).

#[global] Instance message_class : MessageClass t := { serializeSpecific := serialize; deserializeSpecific := deserialize }.
End NodePresent.

(** Request all nodes to send their description. *)
Module GetDescription.

Record t : Type := mk { version : Z }.

#[global] Instance t_eq_dec : EqDecision t.
Proof. solve_decision. Defined.

Definition serialize (m : t) : writer :=
  add_u16 (version m).

Definition deserialize (m : t) : reader t :=
  version ← get_u16; mret (mk version).

#[global] Instance message_class : MessageClass t := { serializeSpecific := serialize; deserializeSpecific := deserialize }.
End GetDescription.

(** Request a specific node to send its description. *)
Module GetNodeDescription.

Record t : Type := mk { cmd : CmdMessage.t; version : Z }.

#[global] Instance t_eq_dec : EqDecision t.
Proof. solve_decision. Defined.

Definition serialize (m : t) : writer :=
  CmdMessage.serialize (cmd m) ;;; add_u16 (version m).

Definition deserialize (m : t) : reader t :=
  cmd ← CmdMessage.deserialize (cmd m); version ← get_u16; mret (mk cmd version).

#[global] Instance message_class : MessageClass t := { serializeSpecific := serialize; deserializeSpecific := deserialize }.
End GetNodeDescription.

(** Request a part of the description of a node; the fragment is an [int16_t]. *)
Module GetNodeDescriptionFragment.

Record t : Type := mk { cmd : CmdMessage.t; version : Z; fragment : Z }.

#[global] Instance t_eq_dec : EqDecision t.
Proof. solve_decision. Defined.

Definition serialize (m : t) : writer :=
  CmdMessage.serialize (cmd m) ;;; add_u16 (version m) ;;; add_u16 (fragment m).

Definition deserialize (m : t) : reader t :=
  cmd ← CmdMessage.deserialize (cmd m); version ← get_u16; fragment ← get_s16; mret (mk cmd version fragment).

#[global] Instance message_class : MessageClass t := { serializeSpecific := serialize; deserializeSpecific := deserialize }.
End GetNodeDescriptionFragment.

(** The description of a node: the elements of its vectors follow in messages
    of their own, only their numbers are sent. *)
Module Description.

Record t : Type := mk { target : TargetDescription }.

#[global] Instance t_eq_dec : EqDecision t.
Proof. solve_decision. Defined.

Definition serialize (m : t) : writer :=
  let d := target m in
  add_wstring (target_name d) ;;;
  add_u16 (u16 (protocolVersion d)) ;;;
  add_u16 (u16 (bytecodeSize d)) ;;;
  add_u16 (u16 (stackSize d)) ;;;
  add_u16 (u16 (variablesSize d)) ;;;
  add_u16 (u16 (Z.of_nat (List.length (namedVariables d)))) ;;;
  add_u16 (u16 (Z.of_nat (List.length (localEvents d)))) ;;;
  add_u16 (u16 (Z.of_nat (List.length (nativeFunctions d)))).

Definition deserialize (m : t) : reader t :=
  let d := target m in
  name ← get_wstring;
  version ← get_u16;
  bytecode ← get_u16;
  stack ← get_u16;
  variables ← get_u16;
  nv ← get_u16;
  ne ← get_u16;
  nf ← get_u16;
  mret (mk (mkTarget name version bytecode variables stack
    (resize default_variable (Z.to_nat nv) (namedVariables d))
    (resize default_event (Z.to_nat ne) (localEvents d))
    (resize default_function (Z.to_nat nf) (nativeFunctions d)))).

#[global] Instance message_class : MessageClass t := { serializeSpecific := serialize; deserializeSpecific := deserialize }.
End Description.

(** A named variable; its size is sent as an [int16_t] and read as a
    [uint16_t]. *)
Module NamedVariableDescription.

Record t : Type := mk { variable : NamedVariable }.

#[global] Instance t_eq_dec : EqDecision t.
Proof. solve_decision. Defined.

Definition serialize (m : t) : writer :=
  add_u16 (s16 (var_size (variable m))) ;;; add_wstring (var_name (variable m)).

Definition deserialize (m : t) : reader t :=
  size ← get_u16; name ← get_wstring; mret (mk (mkNamedVariable name size)).

#[global] Instance message_class : MessageClass t := { serializeSpecific := serialize; deserializeSpecific := deserialize }.
End NamedVariableDescription.

(** A local event. *)
Module LocalEventDescription.

Record t : Type := mk { event : LocalEvent }.

#[global] Instance t_eq_dec : EqDecision t.
Proof. solve_decision. Defined.

Definition serialize (m : t) : writer :=
  add_wstring (event_name (event m)) ;;; add_wstring (event_description (event m)).

Definition deserialize (m : t) : reader t :=
  name ← get_wstring; description ← get_wstring; mret (mk (mkLocalEvent name description)).

#[global] Instance message_class : MessageClass t := { serializeSpecific := serialize; deserializeSpecific := deserialize }.
End LocalEventDescription.

(** A native function and its parameters. *)
Module NativeFunctionDescription.

Record t : Type := mk { function : NativeFunction }.

#[global] Instance t_eq_dec : EqDecision t.
Proof. solve_decision. Defined.

Definition add_parameter (p : NativeFunctionParameter) : writer :=
  add_u16 (s16 (param_size p)) ;;; add_wstring (param_name p).

Definition serialize (m : t) : writer :=
  let f := function m in
  add_wstring (func_name f) ;;;
  add_wstring (func_description f) ;;;
  add_u16 (u16 (Z.of_nat (List.length (parameters f)))) ;;;
  for_all add_parameter (parameters f).

Definition get_parameter : reader NativeFunctionParameter :=
  size ← get_s16; name ← get_wstring; mret (mkParameter name size).

Definition deserialize (m : t) : reader t :=
  name ← get_wstring;
  description ← get_wstring;
  count ← get_u16;
  parameters ← get_n (Z.to_nat count) get_parameter;
  mret (mk (mkNativeFunction name description parameters)).

#[global] Instance message_class : MessageClass t := { serializeSpecific := serialize; deserializeSpecific := deserialize }.
End NativeFunctionDescription.

(** A node has disconnected from the network. *)
Module Disconnected.

Record t : Type := mk { }.

#[global] Instance t_eq_dec : EqDecision t.
Proof. solve_decision. Defined.

Definition serialize (m : t) : writer := nothing.

Definition deserialize (m : t) : reader t := mret m.

#[global] Instance message_class : MessageClass t := { serializeSpecific := serialize; deserializeSpecific := deserialize }.
End Disconnected.

(** Content of some variables. *)
Module Variables.

Record t : Type := mk { start : Z; variables : list Z }.

#[global] Instance t_eq_dec : EqDecision t.
Proof. solve_decision. Defined.

Definition serialize (m : t) : writer :=
  add_u16 (start m) ;;; for_all add_u16 (variables m).

Definition deserialize (m : t) : reader t :=
  start ← get_u16;
  left ← size_left;
  variables ← get_n (left / 2) get_s16;
  mret (mk start variables).

#[global] Instance message_class : MessageClass t := { serializeSpecific := serialize; deserializeSpecific := deserialize }.
End Variables.

(** The areas of the variables that changed.  The class has no serializer. *)
Module ChangedVariables.

Record area : Type := mkArea { area_start : Z; area_variables : list Z }.
Record t : Type := mk { variables : list area }.

#[global] Instance area_eq_dec : EqDecision area.
Proof. solve_decision. Defined.
#[global] Instance t_eq_dec : EqDecision t.
Proof. solve_decision. Defined.

(** [assert(false)]. *)
Definition serialize (m : t) : writer := fun _ => Crash.

(** The loop: an area of size zero is skipped, and one longer than what is
    left ends the loop.  Every turn reads four bytes. *)
Fixpoint get_areas (fuel : nat) (acc : list area) : reader (list area) :=
  match fuel with
  | O => lift NoFuel
  | S fuel' =>
      left ← size_left;
      if (left <? 4)%nat then mret acc
      else
        start ← get_u16;
        size ← get_u16;
        if size =? 0 then get_areas fuel' acc
        else
          left' ← size_left;
          if Z.of_nat left' <? size * 2 then mret acc
          else v ← get_n (Z.to_nat size) get_s16; get_areas fuel' (acc ++ [mkArea start v])
  end.

Definition deserialize (m : t) : reader t :=
  size ← size_all;
  variables ← get_areas (S size) (variables m);
  mret (mk variables).

#[global] Instance message_class : MessageClass t := { serializeSpecific := serialize; deserializeSpecific := deserialize }.
End ChangedVariables.

(** Exception: an array acces attempted to read past memory. *)
Module ArrayAccessOutOfBounds.

Record t : Type := mk { pc : Z; size : Z; index : Z }.

#[global] Instance t_eq_dec : EqDecision t.
Proof. solve_decision. Defined.

Definition serialize (m : t) : writer :=
  add_u16 (pc m) ;;; add_u16 (size m) ;;; add_u16 (index m).

Definition deserialize (m : t) : reader t :=
  pc ← get_u16; size ← get_u16; index ← get_u16; mret (mk pc size index).

#[global] Instance message_class : MessageClass t := { serializeSpecific := serialize; deserializeSpecific := deserialize }.
End ArrayAccessOutOfBounds.

(** Exception: division by zero. *)
Module DivisionByZero.

Record t : Type := mk { pc : Z }.

#[global] Instance t_eq_dec : EqDecision t.
Proof. solve_decision. Defined.

Definition serialize (m : t) : writer :=
  add_u16 (pc m).

Definition deserialize (m : t) : reader t :=
  pc ← get_u16; mret (mk pc).

#[global] Instance message_class : MessageClass t := { serializeSpecific := serialize; deserializeSpecific := deserialize }.
End DivisionByZero.

(** Exception: an event execution was killed by a new event. *)
Module EventExecutionKilled.

Record t : Type := mk { pc : Z }.

#[global] Instance t_eq_dec : EqDecision t.
Proof. solve_decision. Defined.

Definition serialize (m : t) : writer :=
  add_u16 (pc m).

Definition deserialize (m : t) : reader t :=
  pc ← get_u16; mret (mk pc).

#[global] Instance message_class : MessageClass t := { serializeSpecific := serialize; deserializeSpecific := deserialize }.
End EventExecutionKilled.

(** A node has produced an error specific to it. *)
Module NodeSpecificError.

Record t : Type := mk { pc : Z; message : wstring }.

#[global] Instance t_eq_dec : EqDecision t.
Proof. solve_decision. Defined.

Definition serialize (m : t) : writer :=
  add_u16 (pc m) ;;; add_wstring (message m).

Definition deserialize (m : t) : reader t :=
  pc ← get_u16; message ← get_wstring; mret (mk pc message).

#[global] Instance message_class : MessageClass t := { serializeSpecific := serialize; deserializeSpecific := deserialize }.
End NodeSpecificError.

(** The program counter or the flags have changed. *)
Module ExecutionStateChanged.

Record t : Type := mk { pc : Z; flags : Z }.

#[global] Instance t_eq_dec : EqDecision t.
Proof. solve_decision. Defined.

Definition serialize (m : t) : writer :=
  add_u16 (pc m) ;;; add_u16 (flags m).

Definition deserialize (m : t) : reader t :=
  pc ← get_u16; flags ← get_u16; mret (mk pc flags).

#[global] Instance message_class : MessageClass t := { serializeSpecific := serialize; deserializeSpecific := deserialize }.
End ExecutionStateChanged.

(** A breakpoint has been set. *)
Module BreakpointSetResult.

Record t : Type := mk { pc : Z; success : Z }.

#[global] Instance t_eq_dec : EqDecision t.
Proof. solve_decision. Defined.

Definition serialize (m : t) : writer :=
  add_u16 (pc m) ;;; add_u16 (success m).

Definition deserialize (m : t) : reader t :=
  pc ← get_u16; success ← get_u16; mret (mk pc success).

#[global] Instance message_class : MessageClass t := { serializeSpecific := serialize; deserializeSpecific := deserialize }.
End BreakpointSetResult.

(** Read a page of flash. *)
Module BootloaderReadPage.

Record t : Type := mk { cmd : CmdMessage.t; pageNumber : Z }.

#[global] Instance t_eq_dec : EqDecision t.
Proof. solve_decision. Defined.

Definition serialize (m : t) : writer :=
  CmdMessage.serialize (cmd m) ;;; add_u16 (pageNumber m).

Definition deserialize (m : t) : reader t :=
  cmd ← CmdMessage.deserialize (cmd m); pageNumber ← get_u16; mret (mk cmd pageNumber).

#[global] Instance message_class : MessageClass t := { serializeSpecific := serialize; deserializeSpecific := deserialize }.
End BootloaderReadPage.

(** Write a page of flash. *)
Module BootloaderWritePage.

Record t : Type := mk { cmd : CmdMessage.t; pageNumber : Z }.

#[global] Instance t_eq_dec : EqDecision t.
Proof. solve_decision. Defined.

Definition serialize (m : t) : writer :=
  CmdMessage.serialize (cmd m) ;;; add_u16 (pageNumber m).

Definition deserialize (m : t) : reader t :=
  cmd ← CmdMessage.deserialize (cmd m); pageNumber ← get_u16; mret (mk cmd pageNumber).

#[global] Instance message_class : MessageClass t := { serializeSpecific := serialize; deserializeSpecific := deserialize }.
End BootloaderWritePage.

(** Data for flash, a [std::array<uint8_t, 4>]. *)
Module BootloaderPageDataWrite.

Record t : Type := mk { cmd : CmdMessage.t; data : list Z }.

#[global] Instance t_eq_dec : EqDecision t.
Proof. solve_decision. Defined.

Definition serialize (m : t) : writer :=
  CmdMessage.serialize (cmd m) ;;; for_all add_u8 (data m).

Definition deserialize (m : t) : reader t :=
  cmd ← CmdMessage.deserialize (cmd m); data ← get_n (List.length (data m)) get_u8; mret (mk cmd data).

#[global] Instance message_class : MessageClass t := { serializeSpecific := serialize; deserializeSpecific := deserialize }.
End BootloaderPageDataWrite.

(** Upload bytecode to a node. *)
Module SetBytecode.

Record t : Type := mk { cmd : CmdMessage.t; start : Z; bytecode : list Z }.

#[global] Instance t_eq_dec : EqDecision t.
Proof. solve_decision. Defined.

Definition serialize (m : t) : writer :=
  CmdMessage.serialize (cmd m) ;;; add_u16 (start m) ;;; for_all add_u16 (bytecode m).

Definition deserialize (m : t) : reader t :=
  cmd ← CmdMessage.deserialize (cmd m); start ← get_u16;
  left ← size_left; bytecode ← get_n (left / 2) get_u16; mret (mk cmd start bytecode).

#[global] Instance message_class : MessageClass t := { serializeSpecific := serialize; deserializeSpecific := deserialize }.
End SetBytecode.

(** Store persistent device info: 16-bit fields are sent, 8-bit ones read. *)
Module SetDeviceInfo.

Record t : Type := mk { cmd : CmdMessage.t; info : Z; data : list Z }.

#[global] Instance t_eq_dec : EqDecision t.
Proof. solve_decision. Defined.

Definition serialize (m : t) : writer :=
  CmdMessage.serialize (cmd m) ;;; add_u16 (u16 (info m)) ;;;
  add_u16 (u16 (Z.of_nat (List.length (data m)))) ;;; for_all add_u8 (data m).

Definition deserialize (m : t) : reader t :=
  cmd ← CmdMessage.deserialize (cmd m); info ← get_u8; size ← get_u8;
  data ← get_n (Z.to_nat size) get_u8; mret (mk cmd info data).

#[global] Instance message_class : MessageClass t := { serializeSpecific := serialize; deserializeSpecific := deserialize }.
End SetDeviceInfo.

(** Get persistent device info: the deserializer is empty. *)
Module GetDeviceInfo.

Record t : Type := mk { cmd : CmdMessage.t; info : Z }.

#[global] Instance t_eq_dec : EqDecision t.
Proof. solve_decision. Defined.

Definition serialize (m : t) : writer :=
  CmdMessage.serialize (cmd m) ;;; add_u16 (u16 (info m)).

Definition deserialize (m : t) : reader t :=
  mret m.

#[global] Instance message_class : MessageClass t := { serializeSpecific := serialize; deserializeSpecific := deserialize }.
End GetDeviceInfo.

(** Persistent device info. *)
Module DeviceInfo.

Record t : Type := mk { info : Z; data : list Z }.

#[global] Instance t_eq_dec : EqDecision t.
Proof. solve_decision. Defined.

Definition serialize (m : t) : writer :=
  add_u8 (u8 (info m)) ;;;
  add_u8 (u8 (Z.of_nat (List.length (data m)))) ;;; for_all add_u8 (data m).

Definition deserialize (m : t) : reader t :=
  info ← get_u8; size ← get_u8;
  data ← get_n (Z.to_nat size) get_u8; mret (mk info data).

#[global] Instance message_class : MessageClass t := { serializeSpecific := serialize; deserializeSpecific := deserialize }.
End DeviceInfo.

(** Set a breakpoint on a node. *)
Module BreakpointSet.

Record t : Type := mk { cmd : CmdMessage.t; pc : Z }.

#[global] Instance t_eq_dec : EqDecision t.
Proof. solve_decision. Defined.

Definition serialize (m : t) : writer :=
  CmdMessage.serialize (cmd m) ;;; add_u16 (pc m).

Definition deserialize (m : t) : reader t :=
  cmd ← CmdMessage.deserialize (cmd m); pc ← get_u16; mret (mk cmd pc).

#[global] Instance message_class : MessageClass t := { serializeSpecific := serialize; deserializeSpecific := deserialize }.
End BreakpointSet.

(** Clear a breakpoint on a node. *)
Module BreakpointClear.

Record t : Type := mk { cmd : CmdMessage.t; pc : Z }.

#[global] Instance t_eq_dec : EqDecision t.
Proof. solve_decision. Defined.

Definition serialize (m : t) : writer :=
  CmdMessage.serialize (cmd m) ;;; add_u16 (pc m).

Definition deserialize (m : t) : reader t :=
  cmd ← CmdMessage.deserialize (cmd m); pc ← get_u16; mret (mk cmd pc).

#[global] Instance message_class : MessageClass t := { serializeSpecific := serialize; deserializeSpecific := deserialize }.
End BreakpointClear.

(** Read some variables from a node. *)
Module GetVariables.

Record t : Type := mk { cmd : CmdMessage.t; start : Z; length : Z }.

#[global] Instance t_eq_dec : EqDecision t.
Proof. solve_decision. Defined.

Definition serialize (m : t) : writer :=
  CmdMessage.serialize (cmd m) ;;; add_u16 (start m) ;;; add_u16 (length m).

Definition deserialize (m : t) : reader t :=
  cmd ← CmdMessage.deserialize (cmd m); start ← get_u16; length ← get_u16; mret (mk cmd start length).

#[global] Instance message_class : MessageClass t := { serializeSpecific := serialize; deserializeSpecific := deserialize }.
End GetVariables.

(** Set some variables on a node. *)
Module SetVariables.

Record t : Type := mk { cmd : CmdMessage.t; start : Z; variables : list Z }.

#[global] Instance t_eq_dec : EqDecision t.
Proof. solve_decision. Defined.

Definition serialize (m : t) : writer :=
  CmdMessage.serialize (cmd m) ;;; add_u16 (start m) ;;; for_all add_u16 (variables m).

Definition deserialize (m : t) : reader t :=
  cmd ← CmdMessage.deserialize (cmd m); start ← get_u16;
  left ← size_left; variables ← get_n (left / 2) get_s16; mret (mk cmd start variables).

#[global] Instance message_class : MessageClass t := { serializeSpecific := serialize; deserializeSpecific := deserialize }.
End SetVariables.
