(* ===== verification/Msg.v ===== *)
(** * Messages and the functions on them

    The union of the classes of common/msg/msg.h, the table of registered
    types, [Message::create], [Message::clone] and [sendBytecode] of
    common/msg/msg.cpp.  Members that a constructor leaves without a value have
    the value [uninitialized]. *)
From Stdlib Require Import ZArith Lia List.
From stdpp Require Import base list.
From S2P Require Import Prelude Consts OrdMap Bits Target Utils Buffer MsgClasses.

Local Open Scope Z_scope.

(** The classes that a message may have.  The commands without data of their
    own share the members of [CmdMessage]. *)
Inductive Body : Type :=
| UserMessage (m : UserMessage.t)
| BootloaderDescription (m : BootloaderDescription.t)
| BootloaderDataRead (m : BootloaderDataRead.t)
| BootloaderAck (m : BootloaderAck.t)
| ListNodes (m : ListNodes.t)
| NodePresent (m : NodePresent.t)
| GetDescription (m : GetDescription.t)
| GetNodeDescription (m : GetNodeDescription.t)
| GetNodeDescriptionFragment (m : GetNodeDescriptionFragment.t)
| Description (m : Description.t)
| NamedVariableDescription (m : NamedVariableDescription.t)
| LocalEventDescription (m : LocalEventDescription.t)
| NativeFunctionDescription (m : NativeFunctionDescription.t)
| Disconnected (m : Disconnected.t)
| Variables (m : Variables.t)
| ChangedVariables (m : ChangedVariables.t)
| ArrayAccessOutOfBounds (m : ArrayAccessOutOfBounds.t)
| DivisionByZero (m : DivisionByZero.t)
| EventExecutionKilled (m : EventExecutionKilled.t)
| NodeSpecificError (m : NodeSpecificError.t)
| ExecutionStateChanged (m : ExecutionStateChanged.t)
| BreakpointSetResult (m : BreakpointSetResult.t)
| BootloaderReset (m : CmdMessage.t)
| BootloaderReadPage (m : BootloaderReadPage.t)
| BootloaderWritePage (m : BootloaderWritePage.t)
| BootloaderPageDataWrite (m : BootloaderPageDataWrite.t)
| SetBytecode (m : SetBytecode.t)
| SetDeviceInfo (m : SetDeviceInfo.t)
| GetDeviceInfo (m : GetDeviceInfo.t)
| DeviceInfo (m : DeviceInfo.t)
| Reset (m : CmdMessage.t)
| Run (m : CmdMessage.t)
| Pause (m : CmdMessage.t)
| Step (m : CmdMessage.t)
| Stop (m : CmdMessage.t)
| GetExecutionState (m : CmdMessage.t)
| BreakpointSet (m : BreakpointSet.t)
| BreakpointClear (m : BreakpointClear.t)
| BreakpointClearAll (m : CmdMessage.t)
| GetVariables (m : GetVariables.t)
| GetChangedVariables (m : CmdMessage.t)
| SetVariables (m : SetVariables.t)
| WriteBytecode (m : CmdMessage.t)
| Reboot (m : CmdMessage.t)
| Sleep (m : CmdMessage.t).

#[export] Instance Body_eq_dec : EqDecision Body.
Proof. solve_decision. Defined.

(** The members of the parent class, and the rest. *)
Record Message : Type := mkMessage { source : Z; type : Z; body : Body }.

(** The virtual calls. *)
Definition serialize (b : Body) : writer :=
  match b with
  | UserMessage m => serializeSpecific m
  | BootloaderDescription m => serializeSpecific m
  | BootloaderDataRead m => serializeSpecific m
  | BootloaderAck m => serializeSpecific m
  | ListNodes m => serializeSpecific m
  | NodePresent m => serializeSpecific m
  | GetDescription m => serializeSpecific m
  | GetNodeDescription m => serializeSpecific m
  | GetNodeDescriptionFragment m => serializeSpecific m
  | Description m => serializeSpecific m
  | NamedVariableDescription m => serializeSpecific m
  | LocalEventDescription m => serializeSpecific m
  | NativeFunctionDescription m => serializeSpecific m
  | Disconnected m => serializeSpecific m
  | Variables m => serializeSpecific m
  | ChangedVariables m => serializeSpecific m
  | ArrayAccessOutOfBounds m => serializeSpecific m
  | DivisionByZero m => serializeSpecific m
  | EventExecutionKilled m => serializeSpecific m
  | NodeSpecificError m => serializeSpecific m
  | ExecutionStateChanged m => serializeSpecific m
  | BreakpointSetResult m => serializeSpecific m
  | BootloaderReset m => serializeSpecific m
  | BootloaderReadPage m => serializeSpecific m
  | BootloaderWritePage m => serializeSpecific m
  | BootloaderPageDataWrite m => serializeSpecific m
  | SetBytecode m => serializeSpecific m
  | SetDeviceInfo m => serializeSpecific m
  | GetDeviceInfo m => serializeSpecific m
  | DeviceInfo m => serializeSpecific m
  | Reset m => serializeSpecific m
  | Run m => serializeSpecific m
  | Pause m => serializeSpecific m
  | Step m => serializeSpecific m
  | Stop m => serializeSpecific m
  | GetExecutionState m => serializeSpecific m
  | BreakpointSet m => serializeSpecific m
  | BreakpointClear m => serializeSpecific m
  | BreakpointClearAll m => serializeSpecific m
  | GetVariables m => serializeSpecific m
  | GetChangedVariables m => serializeSpecific m
  | SetVariables m => serializeSpecific m
  | WriteBytecode m => serializeSpecific m
  | Reboot m => serializeSpecific m
  | Sleep m => serializeSpecific m
  end.

Definition deserialize (b : Body) : reader Body :=
  match b with
  | UserMessage m => m' ← deserializeSpecific m; mret (UserMessage m')
  | BootloaderDescription m => m' ← deserializeSpecific m; mret (BootloaderDescription m')
  | BootloaderDataRead m => m' ← deserializeSpecific m; mret (BootloaderDataRead m')
  | BootloaderAck m => m' ← deserializeSpecific m; mret (BootloaderAck m')
  | ListNodes m => m' ← deserializeSpecific m; mret (ListNodes m')
  | NodePresent m => m' ← deserializeSpecific m; mret (NodePresent m')
  | GetDescription m => m' ← deserializeSpecific m; mret (GetDescription m')
  | GetNodeDescription m => m' ← deserializeSpecific m; mret (GetNodeDescription m')
  | GetNodeDescriptionFragment m => m' ← deserializeSpecific m; mret (GetNodeDescriptionFragment m')
  | Description m => m' ← deserializeSpecific m; mret (Description m')
  | NamedVariableDescription m => m' ← deserializeSpecific m; mret (NamedVariableDescription m')
  | LocalEventDescription m => m' ← deserializeSpecific m; mret (LocalEventDescription m')
  | NativeFunctionDescription m => m' ← deserializeSpecific m; mret (NativeFunctionDescription m')
  | Disconnected m => m' ← deserializeSpecific m; mret (Disconnected m')
  | Variables m => m' ← deserializeSpecific m; mret (Variables m')
  | ChangedVariables m => m' ← deserializeSpecific m; mret (ChangedVariables m')
  | ArrayAccessOutOfBounds m => m' ← deserializeSpecific m; mret (ArrayAccessOutOfBounds m')
  | DivisionByZero m => m' ← deserializeSpecific m; mret (DivisionByZero m')
  | EventExecutionKilled m => m' ← deserializeSpecific m; mret (EventExecutionKilled m')
  | NodeSpecificError m => m' ← deserializeSpecific m; mret (NodeSpecificError m')
  | ExecutionStateChanged m => m' ← deserializeSpecific m; mret (ExecutionStateChanged m')
  | BreakpointSetResult m => m' ← deserializeSpecific m; mret (BreakpointSetResult m')
  | BootloaderReset m => m' ← deserializeSpecific m; mret (BootloaderReset m')
  | BootloaderReadPage m => m' ← deserializeSpecific m; mret (BootloaderReadPage m')
  | BootloaderWritePage m => m' ← deserializeSpecific m; mret (BootloaderWritePage m')
  | BootloaderPageDataWrite m => m' ← deserializeSpecific m; mret (BootloaderPageDataWrite m')
  | SetBytecode m => m' ← deserializeSpecific m; mret (SetBytecode m')
  | SetDeviceInfo m => m' ← deserializeSpecific m; mret (SetDeviceInfo m')
  | GetDeviceInfo m => m' ← deserializeSpecific m; mret (GetDeviceInfo m')
  | DeviceInfo m => m' ← deserializeSpecific m; mret (DeviceInfo m')
  | Reset m => m' ← deserializeSpecific m; mret (Reset m')
  | Run m => m' ← deserializeSpecific m; mret (Run m')
  | Pause m => m' ← deserializeSpecific m; mret (Pause m')
  | Step m => m' ← deserializeSpecific m; mret (Step m')
  | Stop m => m' ← deserializeSpecific m; mret (Stop m')
  | GetExecutionState m => m' ← deserializeSpecific m; mret (GetExecutionState m')
  | BreakpointSet m => m' ← deserializeSpecific m; mret (BreakpointSet m')
  | BreakpointClear m => m' ← deserializeSpecific m; mret (BreakpointClear m')
  | BreakpointClearAll m => m' ← deserializeSpecific m; mret (BreakpointClearAll m')
  | GetVariables m => m' ← deserializeSpecific m; mret (GetVariables m')
  | GetChangedVariables m => m' ← deserializeSpecific m; mret (GetChangedVariables m')
  | SetVariables m => m' ← deserializeSpecific m; mret (SetVariables m')
  | WriteBytecode m => m' ← deserializeSpecific m; mret (WriteBytecode m')
  | Reboot m => m' ← deserializeSpecific m; mret (Reboot m')
  | Sleep m => m' ← deserializeSpecific m; mret (Sleep m')
  end.

(** The [type] that the constructor of each class sets; [None] for the messages
    of users, which have any type. *)
Definition class_type (b : Body) : option Z :=
  match b with
  | UserMessage _ => None
  | BootloaderDescription _ => Some ASEBA_MESSAGE_BOOTLOADER_DESCRIPTION
  | BootloaderDataRead _ => Some ASEBA_MESSAGE_BOOTLOADER_PAGE_DATA_READ
  | BootloaderAck _ => Some ASEBA_MESSAGE_BOOTLOADER_ACK
  | ListNodes _ => Some ASEBA_MESSAGE_LIST_NODES
  | NodePresent _ => Some ASEBA_MESSAGE_NODE_PRESENT
  | GetDescription _ => Some ASEBA_MESSAGE_GET_DESCRIPTION
  | GetNodeDescription _ => Some ASEBA_MESSAGE_GET_NODE_DESCRIPTION
  | GetNodeDescriptionFragment _ => Some ASEBA_MESSAGE_GET_NODE_DESCRIPTION_FRAGMENT
  | Description _ => Some ASEBA_MESSAGE_DESCRIPTION
  | NamedVariableDescription _ => Some ASEBA_MESSAGE_NAMED_VARIABLE_DESCRIPTION
  | LocalEventDescription _ => Some ASEBA_MESSAGE_LOCAL_EVENT_DESCRIPTION
  | NativeFunctionDescription _ => Some ASEBA_MESSAGE_NATIVE_FUNCTION_DESCRIPTION
  | Disconnected _ => Some ASEBA_MESSAGE_DISCONNECTED
  | Variables _ => Some ASEBA_MESSAGE_VARIABLES
  | ChangedVariables _ => Some ASEBA_MESSAGE_CHANGED_VARIABLES
  | ArrayAccessOutOfBounds _ => Some ASEBA_MESSAGE_ARRAY_ACCESS_OUT_OF_BOUNDS
  | DivisionByZero _ => Some ASEBA_MESSAGE_DIVISION_BY_ZERO
  | EventExecutionKilled _ => Some ASEBA_MESSAGE_EVENT_EXECUTION_KILLED
  | NodeSpecificError _ => Some ASEBA_MESSAGE_NODE_SPECIFIC_ERROR
  | ExecutionStateChanged _ => Some ASEBA_MESSAGE_EXECUTION_STATE_CHANGED
  | BreakpointSetResult _ => Some ASEBA_MESSAGE_BREAKPOINT_SET_RESULT
  | BootloaderReset _ => Some ASEBA_MESSAGE_BOOTLOADER_RESET
  | BootloaderReadPage _ => Some ASEBA_MESSAGE_BOOTLOADER_READ_PAGE
  | BootloaderWritePage _ => Some ASEBA_MESSAGE_BOOTLOADER_WRITE_PAGE
  | BootloaderPageDataWrite _ => Some ASEBA_MESSAGE_BOOTLOADER_PAGE_DATA_WRITE
  | SetBytecode _ => Some ASEBA_MESSAGE_SET_BYTECODE
  | SetDeviceInfo _ => Some ASEBA_MESSAGE_SET_DEVICE_INFO
  | GetDeviceInfo _ => Some ASEBA_MESSAGE_GET_DEVICE_INFO
  | DeviceInfo _ => Some ASEBA_MESSAGE_DEVICE_INFO
  | Reset _ => Some ASEBA_MESSAGE_RESET
  | Run _ => Some ASEBA_MESSAGE_RUN
  | Pause _ => Some ASEBA_MESSAGE_PAUSE
  | Step _ => Some ASEBA_MESSAGE_STEP
  | Stop _ => Some ASEBA_MESSAGE_STOP
  | GetExecutionState _ => Some ASEBA_MESSAGE_GET_EXECUTION_STATE
  | BreakpointSet _ => Some ASEBA_MESSAGE_BREAKPOINT_SET
  | BreakpointClear _ => Some ASEBA_MESSAGE_BREAKPOINT_CLEAR
  | BreakpointClearAll _ => Some ASEBA_MESSAGE_BREAKPOINT_CLEAR_ALL
  | GetVariables _ => Some ASEBA_MESSAGE_GET_VARIABLES
  | GetChangedVariables _ => Some ASEBA_MESSAGE_GET_CHANGED_VARIABLES
  | SetVariables _ => Some ASEBA_MESSAGE_SET_VARIABLES
  | WriteBytecode _ => Some ASEBA_MESSAGE_WRITE_BYTECODE
  | Reboot _ => Some ASEBA_MESSAGE_REBOOT
  | Sleep _ => Some ASEBA_MESSAGE_SUSPEND_TO_RAM
  end.

(** ** The table of the registered types *)

Section Messages.
Variable uninitialized : Z.

(** An object that a default constructor made. *)
Definition command : CmdMessage.t := CmdMessage.mk ASEBA_DEST_INVALID.
Definition four_bytes : list Z := replicate 4 uninitialized.
Definition default_target : TargetDescription := mkTarget [] 0 0 0 0 [] [] [].

(** The registrations, in the order of the constructor of
    [MessageTypesInitializer]. *)
Definition registrations : list (Z * Body) := [
  (ASEBA_MESSAGE_BOOTLOADER_DESCRIPTION, BootloaderDescription (BootloaderDescription.mk uninitialized uninitialized uninitialized));
  (ASEBA_MESSAGE_BOOTLOADER_PAGE_DATA_READ, BootloaderDataRead (BootloaderDataRead.mk four_bytes));
  (ASEBA_MESSAGE_BOOTLOADER_ACK, BootloaderAck (BootloaderAck.mk uninitialized uninitialized));
  (ASEBA_MESSAGE_LIST_NODES, ListNodes (ListNodes.mk ASEBA_PROTOCOL_VERSION));
  (ASEBA_MESSAGE_NODE_PRESENT, NodePresent (NodePresent.mk ASEBA_PROTOCOL_VERSION));
  (ASEBA_MESSAGE_GET_DESCRIPTION, GetDescription (GetDescription.mk ASEBA_PROTOCOL_VERSION));
  (ASEBA_MESSAGE_GET_NODE_DESCRIPTION, GetNodeDescription (GetNodeDescription.mk command ASEBA_PROTOCOL_VERSION));
  (ASEBA_MESSAGE_DESCRIPTION, Description (Description.mk default_target));
  (ASEBA_MESSAGE_DEVICE_INFO, DeviceInfo (DeviceInfo.mk uninitialized []));
  (ASEBA_MESSAGE_NAMED_VARIABLE_DESCRIPTION, NamedVariableDescription (NamedVariableDescription.mk default_variable));
  (ASEBA_MESSAGE_LOCAL_EVENT_DESCRIPTION, LocalEventDescription (LocalEventDescription.mk default_event));
  (ASEBA_MESSAGE_NATIVE_FUNCTION_DESCRIPTION, NativeFunctionDescription (NativeFunctionDescription.mk default_function));
  (ASEBA_MESSAGE_DISCONNECTED, Disconnected Disconnected.mk);
  (ASEBA_MESSAGE_VARIABLES, Variables (Variables.mk uninitialized []));
  (ASEBA_MESSAGE_CHANGED_VARIABLES, ChangedVariables (ChangedVariables.mk []));
  (ASEBA_MESSAGE_ARRAY_ACCESS_OUT_OF_BOUNDS, ArrayAccessOutOfBounds (ArrayAccessOutOfBounds.mk uninitialized uninitialized uninitialized));
  (ASEBA_MESSAGE_DIVISION_BY_ZERO, DivisionByZero (DivisionByZero.mk uninitialized));
  (ASEBA_MESSAGE_EVENT_EXECUTION_KILLED, EventExecutionKilled (EventExecutionKilled.mk uninitialized));
  (ASEBA_MESSAGE_NODE_SPECIFIC_ERROR, NodeSpecificError (NodeSpecificError.mk uninitialized []));
  (ASEBA_MESSAGE_EXECUTION_STATE_CHANGED, ExecutionStateChanged (ExecutionStateChanged.mk uninitialized uninitialized));
  (ASEBA_MESSAGE_BREAKPOINT_SET_RESULT, BreakpointSetResult (BreakpointSetResult.mk uninitialized uninitialized));
  (ASEBA_MESSAGE_BOOTLOADER_RESET, BootloaderReset command);
  (ASEBA_MESSAGE_BOOTLOADER_READ_PAGE, BootloaderReadPage (BootloaderReadPage.mk command uninitialized));
  (ASEBA_MESSAGE_BOOTLOADER_WRITE_PAGE, BootloaderWritePage (BootloaderWritePage.mk command uninitialized));
  (ASEBA_MESSAGE_BOOTLOADER_PAGE_DATA_WRITE, BootloaderPageDataWrite (BootloaderPageDataWrite.mk command four_bytes));
  (ASEBA_MESSAGE_SET_BYTECODE, SetBytecode (SetBytecode.mk command 0 []));
  (ASEBA_MESSAGE_RESET, Reset command);
  (ASEBA_MESSAGE_RUN, Run command);
  (ASEBA_MESSAGE_PAUSE, Pause command);
  (ASEBA_MESSAGE_STEP, Step command);
  (ASEBA_MESSAGE_STOP, Stop command);
  (ASEBA_MESSAGE_GET_EXECUTION_STATE, GetExecutionState command);
  (ASEBA_MESSAGE_BREAKPOINT_SET, BreakpointSet (BreakpointSet.mk command uninitialized));
  (ASEBA_MESSAGE_BREAKPOINT_CLEAR, BreakpointClear (BreakpointClear.mk command uninitialized));
  (ASEBA_MESSAGE_BREAKPOINT_CLEAR_ALL, BreakpointClearAll command);
  (ASEBA_MESSAGE_GET_VARIABLES, GetVariables (GetVariables.mk command uninitialized uninitialized));
  (ASEBA_MESSAGE_SET_VARIABLES, SetVariables (SetVariables.mk command uninitialized []));
  (ASEBA_MESSAGE_GET_CHANGED_VARIABLES, GetChangedVariables command);
  (ASEBA_MESSAGE_SET_VARIABLES, SetVariables (SetVariables.mk command uninitialized []));
  (ASEBA_MESSAGE_WRITE_BYTECODE, WriteBytecode command);
  (ASEBA_MESSAGE_REBOOT, Reboot command);
  (ASEBA_MESSAGE_SUSPEND_TO_RAM, Sleep command)].

(** [registerMessageType]: the last registration of a type counts. *)
Definition messagesTypes : omap Z Body :=
  foldl (fun m '(type, b) => om_set type b m) [] registrations.

(** [createMessage]. *)
Definition createMessage (type : Z) : Body :=
  match om_find type messagesTypes with
  | Some b => b
  | None => UserMessage (UserMessage.mk [])
  end.

(** [Message::create]: [None] is [nullptr]. *)
Definition create (source type : Z) (buffer : SerializationBuffer) : res runtime_error (option Message) :=
  match deserialize (createMessage type) buffer with
  | Ok (b, buffer') =>
      if (readPos buffer' =? List.length (rawData buffer'))%nat then Ok (Some (mkMessage source type b)) else Ok None
  | Throw _ => Ok None
  | Crash => Crash
  | Undef => Undef
  | NoFuel => NoFuel
  end.

(** [Message::clone]: an exception is not caught. *)
Definition clone (m : Message) : res runtime_error Message :=
  content ← serialize (body m) empty_buffer;
  '(b, _) ← deserialize (createMessage (type m)) content;
  Ok (mkMessage (source m) (type m) b).
End Messages.

(** ** [sendBytecode] *)

Definition bytecodePayloadSize : Z := ASEBA_MAX_EVENT_ARG_COUNT - 2.

Definition set_bytecode (dest start : Z) (bytecode : list Z) : Message :=
  mkMessage ASEBA_DEST_DEBUG ASEBA_MESSAGE_SET_BYTECODE
    (SetBytecode (SetBytecode.mk (CmdMessage.mk dest) (u16 start) bytecode)).

(** One turn of the loop over [bytecodeStart], [bytecodeCount] and
    [messagesVector]; the last message is sent when the loop ends. *)
Definition send_step (dest : Z) (bytecode : list Z) (s : Z * Z * list Message) : (Z * Z * list Message) + list Message :=
  let '(bytecodeStart, bytecodeCount, messagesVector) := s in
  let from := drop (Z.to_nat bytecodeStart) bytecode in
  if bytecodePayloadSize <? bytecodeCount then
    inl (u32 (bytecodeStart + bytecodePayloadSize), bytecodeCount - bytecodePayloadSize,
         messagesVector ++ [set_bytecode dest bytecodeStart (take (Z.to_nat bytecodePayloadSize) from)])
  else inr (messagesVector ++ [set_bytecode dest bytecodeStart from]).

(** At most 2^24 turns: the count is a 32-bit number. *)
Definition sendBytecode (messagesVector : list Message) (dest : Z) (bytecode : list Z) : option (list Message) :=
  match loop (send_step dest bytecode) 16777217 (0, u32 (Z.of_nat (List.length bytecode)), messagesVector) with
  | inr v => Some v
  | inl _ => None
  end.
