(* ===== verification/MsgSpec.v ===== *)
(** * The wire format of the messages

    [wire b] is the format of the payload of a message.  The serializers
    produce it, the deserializers read it back, and the chunks of
    [sendBytecode] cover the bytecode. *)
From Stdlib Require Import ZArith Lia List String.
From stdpp Require Import base list.
From S2P Require Import Prelude Consts OrdMap Bits Target Utils UtilsSpec Buffer MsgClasses Msg.

Local Open Scope Z_scope.

(** ** The format *)

Definition uint16 (v : Z) : Prop := 0 <= v < 65536.
Definition int16 (v : Z) : Prop := -32768 <= v < 32768.

Definition words (l : list Z) : list Z := mjoin (List.map u16_bytes l).
Definition text (s : wstring) : list Z := string_bytes (WStringToUTF8 s).
Definition count {A} (l : list A) : list Z := u16_bytes (Z.of_nat (List.length l)).
Definition cmd_bytes (c : CmdMessage.t) : list Z := u16_bytes (CmdMessage.dest c).

Definition parameter_bytes (p : NativeFunctionParameter) : list Z := u16_bytes (param_size p) ++ text (param_name p).

Definition wire (b : Body) : list Z :=
  match b with
  | UserMessage m => words (UserMessage.data m)
  | BootloaderDescription m => u16_bytes (BootloaderDescription.pageSize m) ++ u16_bytes (BootloaderDescription.pagesStart m) ++ u16_bytes (BootloaderDescription.pagesCount m)
  | BootloaderDataRead m => BootloaderDataRead.data m
  | BootloaderAck m => u16_bytes (BootloaderAck.errorCode m) ++
      (if BootloaderAck.errorCode m =? BootloaderAck.PROGRAMMING_FAILED then u16_bytes (BootloaderAck.errorAddress m) else [])
  | ListNodes m => u16_bytes (ListNodes.version m)
  | NodePresent m => u16_bytes (NodePresent.version m)
  | GetDescription m => u16_bytes (GetDescription.version m)
  | GetNodeDescription m => cmd_bytes (GetNodeDescription.cmd m) ++ u16_bytes (GetNodeDescription.version m)
  | GetNodeDescriptionFragment m => cmd_bytes (GetNodeDescriptionFragment.cmd m) ++ u16_bytes (GetNodeDescriptionFragment.version m) ++ u16_bytes (GetNodeDescriptionFragment.fragment m)
  | Description m => let d := Description.target m in
      text (target_name d) ++ u16_bytes (protocolVersion d) ++ u16_bytes (bytecodeSize d) ++ u16_bytes (stackSize d) ++
      u16_bytes (variablesSize d) ++ count (namedVariables d) ++ count (localEvents d) ++ count (nativeFunctions d)
  | NamedVariableDescription m => let v := NamedVariableDescription.variable m in u16_bytes (var_size v) ++ text (var_name v)
  | LocalEventDescription m => let e := LocalEventDescription.event m in text (event_name e) ++ text (event_description e)
  | NativeFunctionDescription m => let f := NativeFunctionDescription.function m in
      text (func_name f) ++ text (func_description f) ++ count (parameters f) ++ mjoin (List.map parameter_bytes (parameters f))
  | Disconnected m => []
  | Variables m => u16_bytes (Variables.start m) ++ words (Variables.variables m)
  | ChangedVariables m => []
  | ArrayAccessOutOfBounds m => u16_bytes (ArrayAccessOutOfBounds.pc m) ++ u16_bytes (ArrayAccessOutOfBounds.size m) ++ u16_bytes (ArrayAccessOutOfBounds.index m)
  | DivisionByZero m => u16_bytes (DivisionByZero.pc m)
  | EventExecutionKilled m => u16_bytes (EventExecutionKilled.pc m)
  | NodeSpecificError m => u16_bytes (NodeSpecificError.pc m) ++ text (NodeSpecificError.message m)
  | ExecutionStateChanged m => u16_bytes (ExecutionStateChanged.pc m) ++ u16_bytes (ExecutionStateChanged.flags m)
  | BreakpointSetResult m => u16_bytes (BreakpointSetResult.pc m) ++ u16_bytes (BreakpointSetResult.success m)
  | BootloaderReset m => cmd_bytes m
  | BootloaderReadPage m => cmd_bytes (BootloaderReadPage.cmd m) ++ u16_bytes (BootloaderReadPage.pageNumber m)
  | BootloaderWritePage m => cmd_bytes (BootloaderWritePage.cmd m) ++ u16_bytes (BootloaderWritePage.pageNumber m)
  | BootloaderPageDataWrite m => cmd_bytes (BootloaderPageDataWrite.cmd m) ++ BootloaderPageDataWrite.data m
  | SetBytecode m => cmd_bytes (SetBytecode.cmd m) ++ u16_bytes (SetBytecode.start m) ++ words (SetBytecode.bytecode m)
  | SetDeviceInfo m => cmd_bytes (SetDeviceInfo.cmd m) ++ u16_bytes (SetDeviceInfo.info m) ++ count (SetDeviceInfo.data m) ++ SetDeviceInfo.data m
  | GetDeviceInfo m => cmd_bytes (GetDeviceInfo.cmd m) ++ u16_bytes (GetDeviceInfo.info m)
  | DeviceInfo m => [DeviceInfo.info m] ++ string_bytes (DeviceInfo.data m)
  | Reset m => cmd_bytes m
  | Run m => cmd_bytes m
  | Pause m => cmd_bytes m
  | Step m => cmd_bytes m
  | Stop m => cmd_bytes m
  | GetExecutionState m => cmd_bytes m
  | BreakpointSet m => cmd_bytes (BreakpointSet.cmd m) ++ u16_bytes (BreakpointSet.pc m)
  | BreakpointClear m => cmd_bytes (BreakpointClear.cmd m) ++ u16_bytes (BreakpointClear.pc m)
  | BreakpointClearAll m => cmd_bytes m
  | GetVariables m => cmd_bytes (GetVariables.cmd m) ++ u16_bytes (GetVariables.start m) ++ u16_bytes (GetVariables.length m)
  | GetChangedVariables m => cmd_bytes m
  | SetVariables m => cmd_bytes (SetVariables.cmd m) ++ u16_bytes (SetVariables.start m) ++ words (SetVariables.variables m)
  | WriteBytecode m => cmd_bytes m
  | Reboot m => cmd_bytes m
  | Sleep m => cmd_bytes m
  end.

(** ** The messages that the format can carry *)

(** A text without characters beyond the reach of the encoding. *)
Definition plain (s : wstring) : Prop :=
  Forall (fun c => 0 <= c < 0xd800) s /\ short (WStringToUTF8 s).
Definition countable {A} (l : list A) : Prop := Z.of_nat (List.length l) < 65536.
Definition cmd_ok (c : CmdMessage.t) : Prop := uint16 (CmdMessage.dest c).

Definition sendable (b : Body) : Prop :=
  match b with
  | UserMessage m => Forall int16 (UserMessage.data m)
  | BootloaderDescription m => uint16 (BootloaderDescription.pageSize m) /\ uint16 (BootloaderDescription.pagesStart m) /\ uint16 (BootloaderDescription.pagesCount m)
  | BootloaderDataRead m => List.length (BootloaderDataRead.data m) = 4%nat
  | BootloaderAck m => uint16 (BootloaderAck.errorCode m) /\ uint16 (BootloaderAck.errorAddress m)
  | ListNodes m => uint16 (ListNodes.version m)
  | NodePresent m => uint16 (NodePresent.version m)
  | GetDescription m => uint16 (GetDescription.version m)
  | GetNodeDescription m => cmd_ok (GetNodeDescription.cmd m) /\ uint16 (GetNodeDescription.version m)
  | GetNodeDescriptionFragment m => cmd_ok (GetNodeDescriptionFragment.cmd m) /\ uint16 (GetNodeDescriptionFragment.version m) /\ int16 (GetNodeDescriptionFragment.fragment m)
  | Description m => let d := Description.target m in
      plain (target_name d) /\ uint16 (protocolVersion d) /\ uint16 (bytecodeSize d) /\ uint16 (stackSize d) /\
      uint16 (variablesSize d) /\ countable (namedVariables d) /\ countable (localEvents d) /\ countable (nativeFunctions d)
  | NamedVariableDescription m => let v := NamedVariableDescription.variable m in uint16 (var_size v) /\ plain (var_name v)
  | LocalEventDescription m => let e := LocalEventDescription.event m in plain (event_name e) /\ plain (event_description e)
  | NativeFunctionDescription m => let f := NativeFunctionDescription.function m in
      plain (func_name f) /\ plain (func_description f) /\ countable (parameters f) /\
      Forall (fun p => int16 (param_size p) /\ plain (param_name p)) (parameters f)
  | Disconnected m => True
  | Variables m => uint16 (Variables.start m) /\ Forall int16 (Variables.variables m)
  | ChangedVariables m => False
  | ArrayAccessOutOfBounds m => uint16 (ArrayAccessOutOfBounds.pc m) /\ uint16 (ArrayAccessOutOfBounds.size m) /\ uint16 (ArrayAccessOutOfBounds.index m)
  | DivisionByZero m => uint16 (DivisionByZero.pc m)
  | EventExecutionKilled m => uint16 (EventExecutionKilled.pc m)
  | NodeSpecificError m => uint16 (NodeSpecificError.pc m) /\ plain (NodeSpecificError.message m)
  | ExecutionStateChanged m => uint16 (ExecutionStateChanged.pc m) /\ uint16 (ExecutionStateChanged.flags m)
  | BreakpointSetResult m => uint16 (BreakpointSetResult.pc m) /\ uint16 (BreakpointSetResult.success m)
  | BootloaderReset m => cmd_ok m
  | BootloaderReadPage m => cmd_ok (BootloaderReadPage.cmd m) /\ uint16 (BootloaderReadPage.pageNumber m)
  | BootloaderWritePage m => cmd_ok (BootloaderWritePage.cmd m) /\ uint16 (BootloaderWritePage.pageNumber m)
  | BootloaderPageDataWrite m => cmd_ok (BootloaderPageDataWrite.cmd m) /\ List.length (BootloaderPageDataWrite.data m) = 4%nat
  | SetBytecode m => cmd_ok (SetBytecode.cmd m) /\ uint16 (SetBytecode.start m) /\ Forall uint16 (SetBytecode.bytecode m)
  | SetDeviceInfo m => cmd_ok (SetDeviceInfo.cmd m) /\ uint16 (SetDeviceInfo.info m) /\ countable (SetDeviceInfo.data m)
  | GetDeviceInfo m => cmd_ok (GetDeviceInfo.cmd m) /\ uint16 (GetDeviceInfo.info m)
  | DeviceInfo m => byte (DeviceInfo.info m) /\ short (DeviceInfo.data m)
  | Reset m => cmd_ok m
  | Run m => cmd_ok m
  | Pause m => cmd_ok m
  | Step m => cmd_ok m
  | Stop m => cmd_ok m
  | GetExecutionState m => cmd_ok m
  | BreakpointSet m => cmd_ok (BreakpointSet.cmd m) /\ uint16 (BreakpointSet.pc m)
  | BreakpointClear m => cmd_ok (BreakpointClear.cmd m) /\ uint16 (BreakpointClear.pc m)
  | BreakpointClearAll m => cmd_ok m
  | GetVariables m => cmd_ok (GetVariables.cmd m) /\ uint16 (GetVariables.start m) /\ uint16 (GetVariables.length m)
  | GetChangedVariables m => cmd_ok m
  | SetVariables m => cmd_ok (SetVariables.cmd m) /\ uint16 (SetVariables.start m) /\ Forall int16 (SetVariables.variables m)
  | WriteBytecode m => cmd_ok m
  | Reboot m => cmd_ok m
  | Sleep m => cmd_ok m
  end.

(** What arrives: the vectors of a description have the announced numbers of
    default elements, and the address of an acknowledgement only comes with the
    error code that carries it. *)
Definition skeleton (d : TargetDescription) : TargetDescription :=
  mkTarget (target_name d) (protocolVersion d) (bytecodeSize d) (variablesSize d) (stackSize d)
    (replicate (List.length (namedVariables d)) default_variable)
    (replicate (List.length (localEvents d)) default_event)
    (replicate (List.length (nativeFunctions d)) default_function).

Definition received (uninitialized : Z) (b : Body) : Body :=
  match b with
  | Description m => Description (Description.mk (skeleton (Description.target m)))
  | BootloaderAck m =>
      if BootloaderAck.errorCode m =? BootloaderAck.PROGRAMMING_FAILED then b
      else BootloaderAck (BootloaderAck.mk (BootloaderAck.errorCode m) uninitialized)
  | _ => b
  end.

(** ** Serialization *)

Lemma u16_bytes_u16 v : u16_bytes (u16 v) = u16_bytes v.
Proof.
  rewrite !u16_bytes_eq. unfold u16. f_equal; [|f_equal].
  - apply Z.mod_mod_divide. by exists 256.
  - change 65536 with (256 * 256). rewrite Z.rem_mul_r by lia.
    rewrite Z.mul_comm, Z.div_add, (Z.div_small (v mod 256)), Z.add_0_l by (lia || apply Z.mod_pos_bound; lia).
    by rewrite Z.mod_mod by lia.
Qed.


Lemma u16_bytes_s16 v : u16_bytes (s16 v) = u16_bytes v.
Proof. by rewrite <- u16_bytes_u16, u16_s16, u16_bytes_u16. Qed.

Lemma writes_cast v : writes (add_u16 (u16 v)) (u16_bytes v).
Proof. rewrite <- (u16_bytes_u16 v). apply writes_u16. Qed.
Lemma writes_cast_s16 v : writes (add_u16 (s16 v)) (u16_bytes v).
Proof. rewrite <- (u16_bytes_s16 v). apply writes_u16. Qed.
Lemma writes_words l : writes (for_all add_u16 l) (words l).
Proof. apply writes_for_all, Forall_true. intros; apply writes_u16. Qed.
Lemma writes_text s : plain s -> writes (add_wstring s) (text s).
Proof. intros [_ H]. by apply writes_string. Qed.
Lemma writes_cmd c : writes (CmdMessage.serialize c) (cmd_bytes c).
Proof. apply writes_u16. Qed.
Lemma writes_count {A} (l : list A) : writes (add_u16 (u16 (Z.of_nat (List.length l)))) (count l).
Proof. apply writes_cast. Qed.
Lemma writes_parameters l : Forall (fun p => int16 (param_size p) /\ plain (param_name p)) l ->
  writes (for_all NativeFunctionDescription.add_parameter l) (mjoin (List.map parameter_bytes l)).
Proof.
  intros H. apply writes_for_all. eapply Forall_impl; [exact H|]. intros p [_ Hp].
  apply writes_seq; [apply writes_cast_s16|by apply writes_text].
Qed.
Lemma writes_short l : short l -> writes (add_u8 (u8 (Z.of_nat (List.length l))) ;;; for_all add_u8 l) (string_bytes l).
Proof.
  intros H. unfold short in H. rewrite u8_id by lia.
  apply (writes_seq (add_u8 (Z.of_nat (List.length l))) (for_all add_u8 l) [_] l); [apply writes_u8|apply writes_bytes].
Qed.
Lemma writes_u8_cast v : byte v -> writes (add_u8 (u8 v)) [v].
Proof. intros H. rewrite u8_id by done. apply writes_u8. Qed.
#[export] Hint Resolve writes_u8_cast writes_cast writes_cast_s16 writes_words writes_text writes_cmd writes_count writes_parameters writes_short : wire.

(** The methods of a class at hand. *)
Ltac open_class :=
  match goal with
  | |- writes (@serializeSpecific ?T ?i ?m) ?bs =>
      let f := eval hnf in (@serializeSpecific T i) in change (writes (f m) bs)
  | |- reads ?pre ?post (@deserializeSpecific ?T ?i ?m) ?bs ?a =>
      let f := eval hnf in (@deserializeSpecific T i) in change (reads pre post (f m) bs a)
  end; cbv beta zeta.

(** Every serializer produces the wire format. *)
Lemma serialize_wire b : sendable b -> writes (serialize b) (wire b).
Proof.
  intros H. destruct b; cbn [sendable wire serialize] in *; decompose [and] H; try done; open_class.
  all: try solve [writing].
  apply writes_seq; [writing|]. destruct (_ =? _); writing.
Qed.

(** ** Deserialization *)

Lemma carried_id s : Forall (fun c => 0 <= c < 0xd800) s -> List.map carried s = s.
Proof.
  induction 1 as [|c s Hc _ IH]; [done|]. simpl. rewrite IH. unfold carried. by rewrite (proj2 (Z.ltb_lt _ _)) by lia.
Qed.

Lemma reads_text pre post s : plain s -> reads pre post get_wstring (text s) s.
Proof.
  intros [Hs _]. rewrite <- (app_nil_r (text s)). apply (reads_bind _ _ _ _ _ _ (WStringToUTF8 s)); [apply reads_string|].
  apply reads_lift. unfold UTF8ToWString. rewrite decode_encode, carried_id; [done|done| |done].
  eapply Forall_impl; [exact Hs|]. simpl. lia.
Qed.

Lemma reads_cmd pre post c old : cmd_ok c -> reads pre post (CmdMessage.deserialize old) (cmd_bytes c) c.
Proof.
  intros H. destruct c as [d]. apply (reads_last _ _ _ CmdMessage.mk), reads_u16_id. exact H.
Qed.

Lemma reads_count {A} pre post (l : list A) : countable l -> reads pre post get_u16 (count l) (Z.of_nat (List.length l)).
Proof. intros H. unfold countable in H. apply reads_u16_id. lia. Qed.

Lemma words_length l : List.length (words l) = (2 * List.length l)%nat.
Proof.
  induction l as [|x l IH]; [done|]. change (words (x :: l)) with (u16_bytes x ++ words l).
  rewrite length_app, IH. simpl. lia.
Qed.

Lemma reads_word_n pre post (r : reader Z) l :
  Forall (fun x => forall p q, reads p q r (u16_bytes x) x) l ->
  reads pre post (get_n (List.length l) r) (words l) l.
Proof.
  intros H. rewrite Forall_forall in H. rewrite <- (map_id l) at 3.
  apply (reads_n _ _ _ u16_bytes id). intros x p q Hx. by apply H.
Qed.

Lemma reads_words {A} pre post (r : reader Z) (f : list Z -> A) l :
  Forall (fun x => forall p q, reads p q r (u16_bytes x) x) l ->
  reads pre post (v ← get_n (List.length l) r; mret (f v)) (words l) (f l).
Proof. intros H. by apply (reads_last _ _ _ f), reads_word_n. Qed.

Lemma reads_rest {A} pre (r : reader Z) (f : list Z -> A) l :
  Forall (fun x => forall p q, reads p q r (u16_bytes x) x) l ->
  reads pre [] (left ← size_left; v ← get_n (left / 2) r; mret (f v)) (words l) (f l).
Proof.
  intros H. eapply reads_bind_nil; [apply reads_size_left|].
  rewrite app_nil_r, words_length, Nat.mul_comm, Nat.div_mul by done. by apply reads_words.
Qed.

Lemma int16s l : Forall int16 l -> Forall (fun x => forall p q, reads p q get_s16 (u16_bytes x) x) l.
Proof. intros H. eapply Forall_impl; [exact H|]. intros x Hx p q. by apply reads_s16_id. Qed.
Lemma uint16s l : Forall uint16 l -> Forall (fun x => forall p q, reads p q get_u16 (u16_bytes x) x) l.
Proof. intros H. eapply Forall_impl; [exact H|]. intros x Hx p q. by apply reads_u16_id. Qed.

Lemma reads_user l : Forall int16 l -> reads [] [] (UserMessage.deserialize (UserMessage.mk [])) (words l) (UserMessage.mk l).
Proof.
  intros H. eapply reads_bind_nil; [apply reads_size_all|]. cbn [app]. rewrite app_nil_r, words_length.
  assert (Nat.odd (2 * List.length l) = false) as -> by (rewrite <- Nat.negb_even, Nat.even_mul; done).
  rewrite Nat.mul_comm, Nat.div_mul by done. by apply (reads_words _ _ _ UserMessage.mk), int16s.
Qed.

Lemma reads_parameters pre post l : Forall (fun p => int16 (param_size p) /\ plain (param_name p)) l ->
  reads pre post (get_n (List.length l) NativeFunctionDescription.get_parameter) (mjoin (List.map parameter_bytes l)) l.
Proof.
  intros H. rewrite Forall_forall in H. rewrite <- (map_id l) at 3. apply reads_n. intros [nm sz] p q Hx.
  apply H in Hx as [H1 H2]. simpl in H1, H2. apply (reads_bind _ _ _ _ _ _ sz); [by apply reads_s16_id|].
  apply (reads_last _ _ _ (fun name => mkParameter name sz)). by apply reads_text.
Qed.

#[export] Hint Resolve reads_text reads_cmd reads_count reads_word_n reads_words reads_rest reads_user int16s uint16s : wire.

Lemma reads_eq {A} pre post (r : reader A) bs a a' : reads pre post r bs a -> a = a' -> reads pre post r bs a'.
Proof. by intros H <-. Qed.

(** The classes whose vectors have a length of their own. *)
Lemma reads_array pre post n l : List.length l = n -> reads pre post (get_n n get_u8) l l.
Proof. intros <-. apply reads_n_bytes. Qed.

Lemma reads_data_read m old :
  List.length (BootloaderDataRead.data m) = List.length (BootloaderDataRead.data old) ->
  reads [] [] (BootloaderDataRead.deserialize old) (BootloaderDataRead.data m) m.
Proof. intros H. destruct m as [l]. by apply (reads_last _ _ _ BootloaderDataRead.mk), reads_array. Qed.

Lemma reads_data_write m old : cmd_ok (BootloaderPageDataWrite.cmd m) ->
  List.length (BootloaderPageDataWrite.data m) = List.length (BootloaderPageDataWrite.data old) ->
  reads [] [] (BootloaderPageDataWrite.deserialize old)
    (cmd_bytes (BootloaderPageDataWrite.cmd m) ++ BootloaderPageDataWrite.data m) m.
Proof.
  intros Hc H. destruct m as [c l]. eapply reads_bind; [by apply reads_cmd|].
  by apply (reads_last _ _ _ (BootloaderPageDataWrite.mk c)), reads_array.
Qed.

Lemma reads_device_info m old : short (DeviceInfo.data m) ->
  reads [] [] (DeviceInfo.deserialize old) ([DeviceInfo.info m] ++ string_bytes (DeviceInfo.data m)) m.
Proof.
  intros H. destruct m as [i l]. eapply reads_bind; [apply reads_u8|].
  apply (reads_bind _ _ _ _ [_] l (Z.of_nat (List.length l))); [apply reads_u8|].
  rewrite Nat2Z.id. apply (reads_last _ _ _ (DeviceInfo.mk i)), reads_n_bytes.
Qed.

Lemma reads_ack m old : uint16 (BootloaderAck.errorCode m) -> uint16 (BootloaderAck.errorAddress m) ->
  reads [] [] (BootloaderAck.deserialize old) (wire (BootloaderAck m))
    (if BootloaderAck.errorCode m =? BootloaderAck.PROGRAMMING_FAILED then m
     else BootloaderAck.mk (BootloaderAck.errorCode m) (BootloaderAck.errorAddress old)).
Proof.
  intros H1 H2. destruct m as [c a]. cbn [wire BootloaderAck.errorCode BootloaderAck.errorAddress] in *.
  eapply reads_bind; [by apply reads_u16_id|].
  destruct (c =? BootloaderAck.PROGRAMMING_FAILED).
  - by apply (reads_last _ _ _ (BootloaderAck.mk c)), reads_u16_id.
  - apply (reads_last _ _ _ (BootloaderAck.mk c)), reads_ret.
Qed.

Lemma reads_function m old : sendable (NativeFunctionDescription m) ->
  reads [] [] (NativeFunctionDescription.deserialize old) (wire (NativeFunctionDescription m)) m.
Proof.
  destruct m as [[name description params]]. intros (Hn & Hd & Hc & Hp).
  cbn [NativeFunctionDescription.function func_name func_description parameters wire] in *.
  eapply reads_bind; [by apply reads_text|]. eapply reads_bind; [by apply reads_text|].
  eapply reads_bind; [by apply reads_count|]. rewrite Nat2Z.id.
  by apply (reads_last _ _ _ (fun ps => NativeFunctionDescription.mk (mkNativeFunction name description ps))), reads_parameters.
Qed.

Lemma resize_empty {A} (d : A) n : resize d n [] = replicate n d.
Proof. unfold resize. by rewrite take_nil, Nat.sub_0_r. Qed.

Lemma reads_description m : sendable (Description m) ->
  reads [] [] (Description.deserialize (Description.mk default_target)) (wire (Description m))
    (Description.mk (skeleton (Description.target m))).
Proof.
  destruct m as [t]. cbn [sendable wire Description.target]. intros H. decompose [and] H. clear H.
  eapply reads_eq; [unfold Description.deserialize; cbn zeta; reading|].
  cbn. unfold skeleton. by rewrite !resize_empty, !Nat2Z.id.
Qed.

Section Known.
Variable uninitialized : Z.

(** The class of a message is the one that its type selects. *)
Definition known (m : Message) : Prop :=
  match class_type (body m) with
  | Some t => type m = t /\ om_find t (messagesTypes uninitialized) <> None
  | None => om_find (type m) (messagesTypes uninitialized) = None
  end.

Lemma deserialize_wire m : sendable (body m) -> known m ->
  reads [] [] (deserialize (createMessage uninitialized (type m))) (wire (body m)) (received uninitialized (body m)).
Proof.
  destruct m as [src t b]. unfold known. cbn [body type]. intros H Hk.
  destruct b; cbn [sendable class_type received wire] in *; decompose [and] H; try done.
  { unfold createMessage. rewrite Hk. destruct m as [l]. by apply (reads_last _ _ _ UserMessage), reads_user. }
  all: destruct Hk as [-> Hk]; try (exfalso; apply Hk; reflexivity).
  all: try match goal with |- context [createMessage ?u ?t] => let c := eval lazy in (createMessage u t) in change (createMessage u t) with c end.
  all: cbn [deserialize].
  all: try match goal with |- reads _ _ _ _ (?c ?m) => apply (reads_last _ _ _ c _ m) end.
  all: try (apply reads_cmd; assumption). all: try open_class. all: try solve [eapply reads_eq; [solve [reading]|solve [destruct m; reflexivity] || (destruct m as [[]]; reflexivity)]].
  all: try (apply (reads_function m m); exact H).
  - apply (reads_data_read m (BootloaderDataRead.mk (four_bytes uninitialized))). done.
  - destruct m as [c a]. eapply reads_eq; [apply (reads_last _ _ _ BootloaderAck); by apply (reads_ack (BootloaderAck.mk c a) (BootloaderAck.mk uninitialized uninitialized))|].
    simpl. by destruct (_ =? _).
  - by apply reads_description.
  - by apply (reads_data_write m (BootloaderPageDataWrite.mk command (four_bytes uninitialized))).
  - by apply (reads_device_info m m).
Qed.

Lemma create_wire m : sendable (body m) -> known m ->
  create uninitialized (source m) (type m) (mkBuffer (wire (body m)) 0)
    = Ok (Some (mkMessage (source m) (type m) (received uninitialized (body m)))).
Proof.
  intros Hs Hk. pose proof (deserialize_wire m Hs Hk) as H.
  unfold reads in H. rewrite app_nil_r in H. cbn [app List.length] in H.
  unfold create. rewrite H. cbn [readPos rawData]. by rewrite Nat.eqb_refl.
Qed.

(** C9: message round trip.  A message of a registered class other than
    ChangedVariables (whose serializer asserts), with members within the widths
    of the format, serialized and created again from its bytes, arrives with its
    source and its type.  Its members arrive too, except those that the bytes
    do not carry: the vectors of a description arrive with their sizes and empty
    entries, which later messages fill, and the address of a BootloaderAck whose
    error code is not PROGRAMMING_FAILED is left uninitialized. *)
Theorem create_serialize m : sendable (body m) -> known m ->
  serialize (body m) empty_buffer = Ok (mkBuffer (wire (body m)) 0) /\
  create uninitialized (source m) (type m) (mkBuffer (wire (body m)) 0)
    = Ok (Some (mkMessage (source m) (type m) (received uninitialized (body m)))).
Proof.
  intros Hs Hk. split; [by apply serialize_wire|by apply create_wire].
Qed.

(** [Message::clone] copies a message. *)
Lemma clone_serialize m : sendable (body m) -> known m ->
  clone uninitialized m = Ok (mkMessage (source m) (type m) (received uninitialized (body m))).
Proof.
  intros Hs Hk. unfold clone. rewrite (serialize_wire _ Hs). cbn [mbind res_bind rawData readPos empty_buffer app].
  pose proof (deserialize_wire m Hs Hk) as H. unfold reads in H. rewrite app_nil_r in H. cbn [app List.length] in H.
  by rewrite H.
Qed.
End Known.

Definition sample_message : Message :=
  mkMessage 7 ASEBA_MESSAGE_NATIVE_FUNCTION_DESCRIPTION (NativeFunctionDescription (NativeFunctionDescription.mk
    (mkNativeFunction (ws "math.dot"%string) (ws "scalar product"%string) [mkParameter (ws "dest"%string) 1; mkParameter (ws "src1"%string) (-1)]))).

Lemma sample_sendable : sendable (body sample_message).
Proof. repeat split; try (vm_compute; congruence); repeat constructor; vm_compute; congruence. Defined.

Lemma sample_known uninitialized : known uninitialized sample_message.
Proof. split; [reflexivity|]. vm_compute. congruence. Defined.

Lemma create_serialize_witness :
  create 0xCCCC 7 ASEBA_MESSAGE_NATIVE_FUNCTION_DESCRIPTION (mkBuffer (wire (body sample_message)) 0)
  = Ok (Some sample_message).
Proof.
  apply (create_serialize 0xCCCC sample_message); [exact sample_sendable|exact (sample_known 0xCCCC)].
Defined.
