(* ===== verification/MsgTotal.v ===== *)
(** * Messages from the outside

    Creating a message ends on every byte string; the areas of changed
    variables, the chunks of bytecode, and the two formats of the device
    information. *)
From Stdlib Require Import ZArith Lia List.
From stdpp Require Import base list list_monad.
From S2P Require Import Prelude Consts OrdMap Bits Target Utils UtilsSpec Buffer MsgClasses Msg MsgSpec.

Local Open Scope Z_scope.

(** ** Every deserializer ends *)

(** The outcomes of the code: a value, an exception or an abort. *)
Definition ended {E A} (r : res E A) : Prop := match r with NoFuel | Undef => False | _ => True end.

Lemma ended_bind {E A B} (m : res E A) (f : A -> res E B) :
  ended m -> (forall a, m = Ok a -> ended (f a)) -> ended (m ≫= f).
Proof. intros Hm Hf. destruct m; try done. by apply Hf. Qed.

Lemma ended_peek {E} l k : ended (peek (E:=E) l k).
Proof. unfold peek. destruct (l !! k); [done|]. by destruct (_ =? _)%nat. Qed.

Lemma ended_utf8 l left : ended (utf8_decode l left).
Proof.
  revert left; induction l as [|a l IH]; intros left; [done|]. cbn [utf8_decode].
  repeat match goal with
  | |- ended (if ?b then _ else _) => destruct b
  | |- ended (_ ≫= _) => apply ended_bind; [|intros ? ?]
  | |- ended (peek _ _) => apply ended_peek
  | |- ended (utf8_decode _ _) => apply IH
  | |- _ => exact I
  end.
Qed.

Definition total {A} (r : reader A) : Prop := forall b, ended (r b).

Lemma total_ret {A} (a : A) : total (mret a).
Proof. done. Qed.
Lemma total_bind {A B} (r : reader A) (f : A -> reader B) : total r -> (forall a, total (f a)) -> total (r ≫= f).
Proof. intros Hr Hf b. apply ended_bind; [apply Hr|]. intros [a b'] _. apply Hf. Qed.
Lemma total_bytes n : total (get_bytes n).
Proof. intros b. unfold get_bytes. by destruct (_ <? _)%nat. Qed.
Lemma total_u8 : total get_u8.
Proof. apply total_bind; [apply total_bytes|]. intros; apply total_ret. Qed.
Lemma total_u16 : total get_u16.
Proof. apply total_bind; [apply total_bytes|]. intros; apply total_ret. Qed.
Lemma total_s16 : total get_s16.
Proof. apply total_bind; [apply total_u16|]. intros; apply total_ret. Qed.
Lemma total_n {A} n (r : reader A) : total r -> total (get_n n r).
Proof.
  intros Hr. induction n as [|n IH]; [apply total_ret|]. apply total_bind; [done|]. intros a.
  apply total_bind; [done|]. intros; apply total_ret.
Qed.
Lemma total_string : total get_string.
Proof. apply total_bind; [apply total_u8|]. intros len. apply total_n, total_u8. Qed.
Lemma total_wstring : total get_wstring.
Proof.
  apply total_bind; [apply total_string|]. intros s b. apply ended_bind; [apply ended_utf8|]. intros; exact I.
Qed.
Lemma total_throw {A} e : total (lift (A:=A) (Throw e)).
Proof. by intros b. Qed.
Lemma total_all : total size_all.
Proof. by intros b. Qed.
Lemma total_left : total size_left.
Proof. by intros b. Qed.
Lemma total_cmd c : total (CmdMessage.deserialize c).
Proof. apply total_bind; [apply total_u16|]. intros; apply total_ret. Qed.
Lemma total_parameter : total NativeFunctionDescription.get_parameter.
Proof. apply total_bind; [apply total_s16|]. intros. apply total_bind; [apply total_wstring|]. intros; apply total_ret. Qed.

Create HintDb total.
#[export] Hint Resolve total_ret total_u8 total_u16 total_s16 total_string total_wstring total_throw total_all total_left
  total_cmd total_parameter total_n : total.

Ltac totally :=
  repeat match goal with
  | |- total (_ ≫= _) => apply total_bind; [|intros ?]
  | |- total (if ?b then _ else _) => destruct b
  | |- total _ => solve [auto with total]
  end.

(** The loop of [ChangedVariables]: every turn leaves fewer bytes. *)
Definition bytes_left (b : SerializationBuffer) : nat := List.length (rawData b) - readPos b.

Lemma get_bytes_left n b l b' : get_bytes n b = Ok (l, b') -> (bytes_left b' + n = bytes_left b)%nat.
Proof.
  unfold get_bytes, bytes_left. destruct (Nat.ltb_spec (List.length (rawData b)) (readPos b + n)); [discriminate|].
  intros [= <- <-]. simpl. lia.
Qed.
Lemma get_u16_left b v b' : get_u16 b = Ok (v, b') -> (bytes_left b' + 2 = bytes_left b)%nat.
Proof.
  unfold get_u16. unfold mbind, reader_bind. intros H. apply bind_Ok in H as ([l b1] & H1 & H2).
  injection H2 as _ <-. by apply get_bytes_left in H1.
Qed.
Lemma get_s16_left b v b' : get_s16 b = Ok (v, b') -> (bytes_left b' + 2 = bytes_left b)%nat.
Proof.
  unfold get_s16. unfold mbind at 1, reader_bind at 1. intros H. apply bind_Ok in H as ([l b1] & H1 & H2).
  injection H2 as _ <-. by apply get_u16_left in H1.
Qed.
Lemma get_n_left n b l b' : get_n n get_s16 b = Ok (l, b') -> (bytes_left b' <= bytes_left b)%nat.
Proof.
  revert b l; induction n as [|n IH]; intros b l; cbn [get_n].
  - intros [= <- <-]. lia.
  - unfold mbind at 1, reader_bind at 1. intros H. apply bind_Ok in H as ([v b1] & H1 & H2).
    unfold mbind, reader_bind in H2. apply bind_Ok in H2 as ([l' b2] & H2 & H3). injection H3 as _ <-.
    apply get_s16_left in H1. apply IH in H2. lia.
Qed.

Lemma left_bind {A} (f : nat -> reader A) b : (size_left ≫= f) b = f (bytes_left b) b.
Proof. done. Qed.

Lemma ended_step {A B} (r : reader A) (f : A -> reader B) b :
  total r -> (forall a b', r b = Ok (a, b') -> ended (f a b')) -> ended ((r ≫= f) b).
Proof. intros Hr Hf. apply ended_bind; [apply Hr|]. intros [a b'] H. by apply Hf. Qed.

Lemma ended_areas fuel acc b : (bytes_left b < fuel)%nat -> ended (ChangedVariables.get_areas fuel acc b).
Proof.
  revert acc b; induction fuel as [|fuel IH]; intros acc b Hf; [lia|].
  cbn [ChangedVariables.get_areas]. rewrite left_bind. destruct (Nat.ltb_spec (bytes_left b) 4); [done|].
  apply ended_step; [apply total_u16|]. intros start b1 H1.
  apply ended_step; [apply total_u16|]. intros size b2 H2. apply get_u16_left in H1, H2.
  destruct (size =? 0); [apply IH; lia|]. rewrite left_bind. destruct (_ <? _); [done|].
  apply ended_step; [apply total_n, total_s16|]. intros v b3 H3. apply get_n_left in H3. apply IH. lia.
Qed.

Lemma total_changed m : total (ChangedVariables.deserialize m).
Proof.
  intros b. apply ended_step; [apply total_all|]. intros size b' [= <- <-].
  apply ended_bind; [|intros [? ?] _; exact I]. apply ended_areas. unfold bytes_left. lia.
Qed.
#[export] Hint Resolve total_changed : total.

(** Creating a message from whatever bytes ends: it gives a message, gives
    none, or aborts; no byte string makes it loop. *)
Theorem create_total uninitialized source type bytes :
  ended (create uninitialized source type (mkBuffer bytes 0)).
Proof.
  assert (total (deserialize (createMessage uninitialized type))) as H.
  { destruct (createMessage uninitialized type); cbn [deserialize]; apply total_bind; try (intros; apply total_ret).
    all: try apply total_cmd; try apply total_changed.
    all: match goal with |- total (@deserializeSpecific ?T ?i ?m) =>
      let f := eval hnf in (@deserializeSpecific T i) in change (total (f m)) end; cbv beta zeta; totally. }
  specialize (H (mkBuffer bytes 0)). unfold create. destruct (deserialize _ _) as [[b b']| | | |]; try done.
  by destruct (_ =? _)%nat.
Qed.

(** Bytes from the network make the decoder read past the end of the
    string: a lead byte of three near the end is not rejected when characters
    of two bytes came before it. *)
Theorem utf8_overread uninitialized source :
  create uninitialized source ASEBA_MESSAGE_NODE_SPECIFIC_ERROR
    (mkBuffer [0; 0; 5; 0xC3; 0xA9; 0xC3; 0xA9; 0xE0] 0) = Crash.
Proof. reflexivity. Qed.

(** ** The areas of changed variables *)

Definition area_bytes (a : ChangedVariables.area) : list Z :=
  u16_bytes (ChangedVariables.area_start a) ++ count (ChangedVariables.area_variables a)
  ++ words (ChangedVariables.area_variables a).

Definition area_ok (a : ChangedVariables.area) : Prop :=
  uint16 (ChangedVariables.area_start a) /\ countable (ChangedVariables.area_variables a) /\
  Forall int16 (ChangedVariables.area_variables a).

Definition non_empty (a : ChangedVariables.area) : bool :=
  match ChangedVariables.area_variables a with [] => false | _ :: _ => true end.

Lemma area_length a : List.length (area_bytes a) = (4 + 2 * List.length (ChangedVariables.area_variables a))%nat.
Proof. unfold area_bytes. rewrite !length_app, words_length. reflexivity. Qed.

Lemma areas_length l : (List.length l <= List.length (mjoin (List.map area_bytes l)))%nat.
Proof.
  induction l as [|a l IH]; [done|].
  change (mjoin (List.map area_bytes (a :: l))) with (area_bytes a ++ mjoin (List.map area_bytes l)).
  rewrite length_app, area_length. cbn [List.length]. lia.
Qed.

(** The deserializer at the first of some areas. *)
Lemma reads_areas fuel acc pre areas :
  Forall area_ok areas -> (List.length areas < fuel)%nat ->
  reads pre [] (ChangedVariables.get_areas fuel acc) (mjoin (List.map area_bytes areas))
    (acc ++ List.filter non_empty areas).
Proof.
  intros H; revert fuel acc pre; induction H as [|a areas (Hs & Hc & Hv) _ IH]; intros [|fuel] acc pre Hf;
    simpl in Hf; try lia; cbn [ChangedVariables.get_areas].
  - rewrite app_nil_r. eapply reads_bind_nil; [apply reads_size_left|]. simpl. apply reads_ret.
  - cbn [List.map mjoin list_join]. eapply reads_bind_nil; [apply reads_size_left|].
    rewrite (proj2 (Nat.ltb_ge _ _)) by (rewrite !length_app, area_length; lia).
    unfold area_bytes at 1. rewrite <- !app_assoc.
    eapply reads_bind; [by apply reads_u16_id|]. eapply reads_bind; [by apply reads_count|].
    destruct a as [start [|v vs]]; cbn [ChangedVariables.area_variables ChangedVariables.area_start] in *.
    + apply (IH fuel acc). lia.
    + rewrite (proj2 (Z.eqb_neq _ _)) by (simpl; lia).
      eapply reads_bind_nil; [apply reads_size_left|].
      rewrite (proj2 (Z.ltb_ge _ _)) by (rewrite !length_app, words_length; lia). rewrite Nat2Z.id.
      eapply reads_bind.
      * by apply reads_word_n, int16s.
      * change (List.filter non_empty _) with ([ChangedVariables.mkArea start (v :: vs)] ++ List.filter non_empty areas).
        rewrite app_assoc. apply IH. lia.
Qed.

(** A message of changed variables, area after area, is read as the list of
    its areas; those without variables are skipped. *)
Theorem changed_variables_create uninitialized source areas :
  Forall area_ok areas ->
  create uninitialized source ASEBA_MESSAGE_CHANGED_VARIABLES (mkBuffer (mjoin (List.map area_bytes areas)) 0)
  = Ok (Some (mkMessage source ASEBA_MESSAGE_CHANGED_VARIABLES
        (ChangedVariables (ChangedVariables.mk (List.filter non_empty areas))))).
Proof.
  intros H. set (bytes := mjoin (List.map area_bytes areas)).
  pose proof (areas_length areas) as Hle. fold bytes in Hle.
  assert (reads [] [] (deserialize (createMessage uninitialized ASEBA_MESSAGE_CHANGED_VARIABLES)) bytes
            (ChangedVariables (ChangedVariables.mk (List.filter non_empty areas)))) as Hr.
  { change (createMessage uninitialized ASEBA_MESSAGE_CHANGED_VARIABLES) with (ChangedVariables (ChangedVariables.mk [])).
    apply (reads_last _ _ _ ChangedVariables). eapply reads_bind_nil; [apply reads_size_all|].
    apply (reads_last _ _ _ ChangedVariables.mk), (reads_areas _ []); [done|]. rewrite !length_app. simpl. lia. }
  unfold reads in Hr. rewrite app_nil_r in Hr. cbn [app List.length] in Hr. unfold create. rewrite Hr.
  cbn [readPos rawData]. by rewrite Nat.eqb_refl.
Qed.

Lemma changed_variables_create_witness :
  create 0 1 ASEBA_MESSAGE_CHANGED_VARIABLES (mkBuffer [5; 0; 2; 0; 1; 0; 255; 255; 9; 0; 0; 0] 0)
  = Ok (Some (mkMessage 1 ASEBA_MESSAGE_CHANGED_VARIABLES
        (ChangedVariables (ChangedVariables.mk [ChangedVariables.mkArea 5 [1; -1]])))).
Proof.
  apply (changed_variables_create 0 1 [ChangedVariables.mkArea 5 [1; -1]; ChangedVariables.mkArea 9 []]).
  unfold area_ok, uint16, countable, int16. repeat constructor; simpl; lia.
Defined.

(** ** The chunks of bytecode *)

(** What a node that has received the messages holds: the data of each message
    from its start on. *)
Definition chunk_start (m : Message) : option Z :=
  match body m with SetBytecode b => Some (SetBytecode.start b) | _ => None end.
Definition chunk (m : Message) : list Z :=
  match body m with SetBytecode b => SetBytecode.bytecode b | _ => [] end.
Definition chunk_dest (m : Message) : option Z :=
  match body m with SetBytecode b => Some (CmdMessage.dest (SetBytecode.cmd b)) | _ => None end.

(** The messages stand one after the other from [at_]. *)
Fixpoint consecutive (at_ : Z) (l : list Message) : Prop :=
  match l with
  | [] => True
  | m :: l' => chunk_start m = Some at_ /\ consecutive (at_ + Z.of_nat (List.length (chunk m))) l'
  end.

Lemma consecutive_app a l1 l2 :
  consecutive a (l1 ++ l2) <-> consecutive a l1 /\ consecutive (a + Z.of_nat (List.length (mjoin (List.map chunk l1)))) l2.
Proof.
  revert a; induction l1 as [|m l1 IH]; intros a; [simpl; rewrite Z.add_0_r; tauto|].
  cbn [app consecutive List.map mjoin list_join]. rewrite IH, length_app.
  rewrite Nat2Z.inj_add, Z.add_assoc. tauto.
Qed.

Section Send.
Variables (dest : Z) (bytecode : list Z) (before : list Message).

(** The loop has sent the first [bytecodeStart] words. *)
Definition sent (start : Z) (l : list Message) : Prop :=
  exists new, l = before ++ new /\ consecutive 0 new /\
    Forall (fun m => chunk_dest m = Some dest /\ type m = ASEBA_MESSAGE_SET_BYTECODE /\ (List.length (chunk m) <= 256)%nat) new /\
    mjoin (List.map chunk new) = take (Z.to_nat start) bytecode.

Lemma sent_step start n l : sent start l -> 0 <= start < 65536 -> (n <= 256)%nat ->
  (Z.to_nat start + n <= List.length bytecode)%nat ->
  sent (start + Z.of_nat n) (l ++ [set_bytecode dest start (take n (drop (Z.to_nat start) bytecode))]).
Proof.
  intros (new & -> & Hc & Hf & Hj) Hs Hn Hlen.
  assert (List.length (take n (drop (Z.to_nat start) bytecode)) = n) as Htl by (rewrite length_take, length_drop; lia).
  eexists (new ++ [_]). split; [by rewrite app_assoc|]. rewrite map_app, join_app. split_and!.
  - apply consecutive_app. split; [done|]. rewrite Hj, length_take. split; [|done].
    change (Some (u16 start) = Some (0 + Z.of_nat (Nat.min (Z.to_nat start) (List.length bytecode)))).
    rewrite u16_id by lia. f_equal. lia.
  - apply Forall_app. split; [done|]. constructor; [|constructor]. split_and!; [done|done|].
    change (List.length (take n (drop (Z.to_nat start) bytecode)) <= 256)%nat. lia.
  - rewrite Hj. cbn [List.map mjoin list_join chunk set_bytecode body SetBytecode.bytecode]. rewrite app_nil_r.
    rewrite take_take_drop. f_equal. lia.
Qed.

Definition send_inv (s : Z * Z * list Message) : Prop :=
  let '(start, count, l) := s in 0 <= start /\ 0 <= count /\ start + count = Z.of_nat (List.length bytecode) /\ sent start l.

Lemma send_step_ok s : Z.of_nat (List.length bytecode) < 65536 -> send_inv s ->
  match send_step dest bytecode s with
  | inl s' => send_inv s' /\ snd (fst s') < snd (fst s)
  | inr l => sent (Z.of_nat (List.length bytecode)) l
  end.
Proof.
  intros Hb. destruct s as [[start count] l]. intros (Hs & Hc & Hsum & Hsent). unfold send_step, bytecodePayloadSize.
  change (ASEBA_MAX_EVENT_ARG_COUNT - 2) with 256.
  destruct (Z.ltb_spec 256 count) as [Hlt|Hge].
  - rewrite u32_id by lia. split; [|simpl; lia]. split_and!; try lia.
    apply (sent_step start 256); try lia. done.
  - pose proof (sent_step start (Z.to_nat count) l Hsent) as H.
    rewrite take_ge in H by (rewrite length_drop; lia). rewrite Z2Nat.id, Hsum in H by lia. apply H; lia.
Qed.
End Send.

(** [sendBytecode] adds messages that carry the bytecode to the
    destination: in order, each at the address where the one before it ends and
    with at most 256 words, together the whole bytecode. *)
Theorem sendBytecode_covers before dest bytecode :
  Z.of_nat (List.length bytecode) < 65536 ->
  exists new, sendBytecode before dest bytecode = Some (before ++ new) /\ consecutive 0 new /\
    Forall (fun m => chunk_dest m = Some dest /\ type m = ASEBA_MESSAGE_SET_BYTECODE /\ (List.length (chunk m) <= 256)%nat) new /\
    mjoin (List.map chunk new) = bytecode.
Proof.
  intros Hb. unfold sendBytecode. rewrite u32_id by lia.
  destruct (loop_ends (send_step dest bytecode) (send_inv dest bytecode before)
              (sent dest bytecode before (Z.of_nat (List.length bytecode))) (fun s => snd (fst s))
              (fun s => send_step_ok dest bytecode before s Hb) 16777217 (0, Z.of_nat (List.length bytecode), before))
    as (l & Hl & new & -> & Hc & Hf & Hj).
  - by intros [[] ] (_ & H & _).
  - split_and!; [lia|lia|lia|]. exists []. split_and!; try done. by rewrite app_nil_r.
  - simpl. lia.
  - rewrite Hl. exists new. split_and!; try done. rewrite Hj, Nat2Z.id. by apply take_ge.
Qed.

Lemma sendBytecode_covers_witness :
  exists new, sendBytecode [] 3 (replicate 300 7) = Some new /\ mjoin (List.map chunk new) = replicate 300 7.
Proof.
  destruct (sendBytecode_covers [] 3 (replicate 300 7)) as (new & H1 & _ & _ & H2); [vm_compute; reflexivity|].
  exists new. split; [exact H1|exact H2].
Defined.

(** ** The device information *)

(** The two methods of [SetDeviceInfo] disagree: what it serializes it
    cannot read back, and its type is not registered, so that the message would
    arrive as one of a user, or not at all when its length is odd. *)
Theorem device_info_mismatch uninitialized source dest info data :
  let m := SetDeviceInfo.mk (CmdMessage.mk dest) info data in
  uint16 dest -> 0 < info < 256 -> (0 < List.length data < 256)%nat ->
  (exists b, SetDeviceInfo.deserialize m (mkBuffer (wire (SetDeviceInfo m)) 0)
             = Ok (SetDeviceInfo.mk (CmdMessage.mk dest) info [], b)) /\
  (Nat.odd (List.length data) = true ->
   create uninitialized source ASEBA_MESSAGE_SET_DEVICE_INFO (mkBuffer (wire (SetDeviceInfo m)) 0) = Ok None).
Proof.
  intros m Hd Hi Hl. set (tail := count data ++ data). split.
  - exists (mkBuffer (u16_bytes dest ++ [info; 0] ++ tail) 4).
    assert (wire (SetDeviceInfo m) = u16_bytes dest ++ [info; 0] ++ tail) as ->.
    { cbn [wire m SetDeviceInfo.cmd SetDeviceInfo.info SetDeviceInfo.data]. rewrite (u16_bytes_eq info).
      by rewrite Z.mod_small, Z.div_small by lia. }
    assert (reads [] tail (SetDeviceInfo.deserialize m) (u16_bytes dest ++ [info; 0])
              (SetDeviceInfo.mk (CmdMessage.mk dest) info [])) as H.
    { eapply reads_bind; [by apply (reads_cmd _ _ (CmdMessage.mk dest))|].
      apply (reads_bind _ _ _ _ [info] [0] info); [apply reads_u8|].
      rewrite <- (app_nil_r [0]). apply (reads_bind _ _ _ _ [0] [] 0); [apply reads_u8|]. apply reads_ret. }
    unfold reads in H. rewrite <- !app_assoc in H. exact H.
  - intros Hodd. unfold create.
    change (createMessage uninitialized ASEBA_MESSAGE_SET_DEVICE_INFO) with (UserMessage (UserMessage.mk [])).
    assert (Nat.odd (List.length (wire (SetDeviceInfo m))) = true) as Ho.
    { change (List.length (wire (SetDeviceInfo m))) with (6 + List.length data)%nat. by rewrite Nat.odd_add, Hodd. }
    cbn [deserialize]. unfold mbind, reader_bind.
    assert (deserializeSpecific (UserMessage.mk []) (mkBuffer (wire (SetDeviceInfo m)) 0) = Throw deserialization_error) as ->;
      [|done]. change (deserializeSpecific (UserMessage.mk [])) with (UserMessage.deserialize (UserMessage.mk [])).
    unfold UserMessage.deserialize, mbind, reader_bind, size_all. cbn [rawData mbind res_bind]. by rewrite Ho.
Qed.

Lemma device_info_mismatch_witness :
  create 0 0 ASEBA_MESSAGE_SET_DEVICE_INFO (mkBuffer [3; 0; 2; 0; 1; 0; 84] 0) = Ok None.
Proof.
  apply (device_info_mismatch 0 0 3 2 [84]); [unfold uint16; lia|lia|simpl; lia|reflexivity].
Defined.
