(* ===== verification/Frame.v ===== *)
(** * Messages on a stream

    thymio-device-manager/aseba_message_writer.h and aseba_message_parser.h:
    the frame of a message (length, source, type, payload), and the composed
    read operation as a state machine over the completions of its reads.  The
    host is little-endian, so that the conversions of Boost.Endian are the
    identity; [boost::asio::async_read] is a parameter. *)
From Stdlib Require Import ZArith Lia List.
From stdpp Require Import base list list_monad.
From S2P Require Import Prelude Consts OrdMap Bits Target Utils UtilsSpec Buffer MsgClasses Msg MsgSpec.

Local Open Scope Z_scope.

(** ** Writing *)

(** The four bytes of an [int]. *)
Definition i32_bytes (v : Z) : list Z :=
  [Z.land v 0xff; Z.land (Z.shiftr v 8) 0xff; Z.land (Z.shiftr v 16) 0xff; Z.land (Z.shiftr v 24) 0xff].

(** The buffer that [write_aseba_message_op::state] fills.  The length is an
    [int], the difference of a [uint16_t] and 6, and [sizeof(size)] bytes of it
    are copied to the front. *)
Definition write_buffer (m : Message) : res runtime_error (list Z) :=
  b ← (add_u16 0 ;;; add_u16 (source m) ;;; add_u16 (type m) ;;; serialize (body m)) empty_buffer;
  let size := u16 (Z.of_nat (List.length (rawData b))) - 6 in
  Ok (i32_bytes size ++ drop 4 (rawData b)).

(** The blocking [write_aseba_message]: the bytes given to [::write], and the
    test on what it returns. *)
Definition write_aseba_message (write : list Z -> Z) (m : Message) : res runtime_error (list Z * bool) :=
  bytes ← write_buffer m;
  let size := u16 (Z.of_nat (List.length bytes)) - 6 in
  Ok (bytes, negb (write bytes =? size + 6)).

(** ** Reading *)

Record read_state : Type := mkRead { size : Z; read_source : Z; read_type : Z; dataBuffer : list Z }.
Definition read_init : read_state := mkRead 0 0 0 [].

(** What the operation does next: another [async_read] of so many bytes, or a
    call of the handler with an error code and a message. *)
Inductive action : Type :=
| AsyncRead (n : nat) (st : read_state)
| Handle (ec : bool) (msg : option Message).

Section Reader.
Variable uninitialized : Z.

(** [operator()()]. *)
Definition read_start : action := AsyncRead 6 read_init.

(** The tail of the second [operator()]: the message is complete, or the read
    failed. *)
Definition read_finish (st : read_state) (ec : bool) (bytes_transferred : Z) : res runtime_error action :=
  if negb ec && (bytes_transferred =? size st) then
    msg ← create uninitialized (read_source st) (read_type st) (mkBuffer (dataBuffer st) 0);
    Ok (Handle ec msg)
  else Ok (Handle ec None).

(** [operator()(ec, bytes_transferred)]; [bytes] are the bytes transferred, to
    the header as long as the size is zero, then to the data. *)
Definition read_step (st : read_state) (ec : bool) (bytes : list Z) : res runtime_error action :=
  let bytes_transferred := Z.of_nat (List.length bytes) in
  if negb ec && (bytes_transferred =? 0) then
    Ok (AsyncRead (if size st =? 0 then 6 else Z.to_nat (size st)) st)
  else if negb ec && (size st =? 0) then
    _ ← assert_ (bytes_transferred =? 6);
    match bytes with
    | [b0; b1; b2; b3; b4; b5] =>
        let n := u16_of_bytes b0 b1 in
        let st' := mkRead n (u16_of_bytes b2 b3) (u16_of_bytes b4 b5) (replicate (Z.to_nat n) 0) in
        if n =? 0 then read_finish st' ec 0 else Ok (AsyncRead (Z.to_nat n) st')
    | _ => Crash
    end
  else
    let data := bytes ++ drop (List.length bytes) (dataBuffer st) in
    read_finish (mkRead (size st) (read_source st) (read_type st) data) ec bytes_transferred.

(** The operation on a stream: [async_read s n] transfers up to [n] bytes of the
    bytes that arrive and reports an error otherwise. *)
Variable async_read : list Z -> nat -> bool * list Z * list Z.

Fixpoint run_read (fuel : nat) (a : action) (s : list Z) : res runtime_error (bool * option Message * list Z) :=
  match a with
  | Handle ec msg => Ok (ec, msg, s)
  | AsyncRead n st =>
      match fuel with
      | O => NoFuel
      | S fuel' =>
          let '(ec, bytes, s') := async_read s n in
          a' ← read_step st ec bytes;
          run_read fuel' a' s'
      end
  end.

(** Two reads are enough for a message. *)
Definition async_read_aseba_message (s : list Z) : res runtime_error (bool * option Message * list Z) :=
  run_read 2 read_start s.

(** Reading [n] messages one after the other. *)
Fixpoint read_messages (n : nat) (s : list Z) : res runtime_error (list (option Message) * list Z) :=
  match n with
  | O => Ok ([], s)
  | S n' =>
      '(ec, msg, s') ← async_read_aseba_message s;
      '(l, s'') ← read_messages n' s';
      Ok (msg :: l, s'')
  end.

(** [transfer_exactly] of Boost.Asio. *)
Hypothesis transfer_exactly : forall s n, (n <= List.length s)%nat -> async_read s n = (false, take n s, drop n s).

(** ** The frame *)

(** What is on the stream: the source has been overwritten by the upper half of
    the length. *)
Definition frame (m : Message) : list Z :=
  u16_bytes (Z.of_nat (List.length (wire (body m)))) ++ [0; 0] ++ u16_bytes (type m) ++ wire (body m).

(** A message that fits in a frame. *)
Definition framed (m : Message) : Prop :=
  sendable (body m) /\ known uninitialized m /\ uint16 (type m) /\
  Z.of_nat (List.length (wire (body m))) + 6 < 65536.

Lemma small_i32 v : 0 <= v < 65536 -> i32_bytes v = u16_bytes v ++ [0; 0].
Proof.
  intros Hv. unfold i32_bytes, u16_bytes. cbn [app]. do 2 f_equal.
  rewrite !land_255, !Z.shiftr_div_pow2 by lia. change (2 ^ 16) with 65536. change (2 ^ 24) with 16777216.
  by rewrite !Z.div_small by lia.
Qed.

Lemma write_frame m : sendable (body m) -> Z.of_nat (List.length (wire (body m))) + 6 < 65536 ->
  write_buffer m = Ok (frame m).
Proof.
  intros Hs Hl. unfold write_buffer.
  assert (writes (add_u16 0 ;;; add_u16 (source m) ;;; add_u16 (type m) ;;; serialize (body m))
    (u16_bytes 0 ++ u16_bytes (source m) ++ u16_bytes (type m) ++ wire (body m))) as Hw.
  { repeat (apply writes_seq; [apply writes_u16|]). by apply serialize_wire. }
  rewrite Hw. cbn [mbind res_bind rawData empty_buffer app].
  change (List.length (u16_bytes 0 ++ u16_bytes (source m) ++ u16_bytes (type m) ++ wire (body m)))
    with (6 + List.length (wire (body m)))%nat.
  rewrite u16_id by lia. replace (_ - 6) with (Z.of_nat (List.length (wire (body m)))) by lia.
  rewrite small_i32 by lia. unfold frame. by rewrite <- app_assoc.
Qed.

Lemma header_word v b0 b1 : uint16 v -> u16_bytes v = [b0; b1] -> u16_of_bytes b0 b1 = v.
Proof. intros Hv [= <- <-]. rewrite u16_bytes_inv. by apply u16_id. Qed.

Lemma run_read_more fuel n st s : (n <= List.length s)%nat ->
  run_read (S fuel) (AsyncRead n st) s = (a' ← read_step st false (take n s); run_read fuel a' (drop n s)).
Proof. intros H. cbn [run_read]. by rewrite transfer_exactly. Qed.

Lemma read_step_header b0 b1 b2 b3 b4 b5 :
  read_step read_init false [b0; b1; b2; b3; b4; b5]
  = let n := u16_of_bytes b0 b1 in
    let st := mkRead n (u16_of_bytes b2 b3) (u16_of_bytes b4 b5) (replicate (Z.to_nat n) 0) in
    if n =? 0 then read_finish st false 0 else Ok (AsyncRead (Z.to_nat n) st).
Proof. done. Qed.

Lemma read_step_data n src t old l : n <> 0 -> Z.of_nat (List.length l) = n -> (List.length old <= List.length l)%nat ->
  read_step (mkRead n src t old) false l = read_finish (mkRead n src t l) false n.
Proof.
  intros Hn Hl Ho. unfold read_step. cbn [negb andb size read_source read_type dataBuffer].
  rewrite Hl, (proj2 (Z.eqb_neq n 0)) by done. by rewrite drop_ge, app_nil_r.
Qed.

Lemma read_finish_complete n src t l : n = Z.of_nat (List.length l) ->
  read_finish (mkRead n src t l) false n = (msg ← create uninitialized src t (mkBuffer l 0); Ok (Handle false msg)).
Proof. intros ->. unfold read_finish. cbn [negb andb size read_source read_type dataBuffer]. by rewrite Z.eqb_refl. Qed.

(** The reader on a frame. *)
Lemma read_frame m rest : framed m ->
  async_read_aseba_message (frame m ++ rest)
  = Ok (false, Some (mkMessage ASEBA_DEST_DEBUG (type m) (received uninitialized (body m))), rest).
Proof.
  intros (Hs & Hk & Ht & Hl). unfold async_read_aseba_message, read_start.
  set (l := wire (body m)) in *. set (n := Z.of_nat (List.length l)).
  pose proof (create_wire uninitialized (mkMessage ASEBA_DEST_DEBUG (type m) (body m)) Hs Hk) as Hc.
  cbn [source type body] in Hc. fold l in Hc.
  destruct (u16_bytes n) as [|b0 [|b1 [|? ?]]] eqn:En; try discriminate.
  destruct (u16_bytes (type m)) as [|b4 [|b5 [|? ?]]] eqn:Et; try discriminate.
  assert (frame m ++ rest = [b0; b1; 0; 0; b4; b5] ++ l ++ rest) as ->.
  { unfold frame. fold l n. by rewrite En, Et, <- !app_assoc. }
  rewrite run_read_more by (simpl; lia).
  change (take 6 ([b0; b1; 0; 0; b4; b5] ++ l ++ rest)) with [b0; b1; 0; 0; b4; b5].
  change (drop 6 ([b0; b1; 0; 0; b4; b5] ++ l ++ rest)) with (l ++ rest). rewrite read_step_header. cbv zeta.
  rewrite (header_word n b0 b1), (header_word (type m) b4 b5) by (done || unfold uint16; lia).
  change (u16_of_bytes 0 0) with ASEBA_DEST_DEBUG. destruct (Z.eqb_spec n 0) as [Hn|Hn].
  - assert (l = []) as Hw by (apply length_zero_iff_nil; lia). rewrite Hn, Hw in *.
    rewrite read_finish_complete by done. change (replicate (Z.to_nat 0) 0) with (@nil Z). by rewrite Hc.
  - cbn [mbind res_bind]. assert (Z.to_nat n = List.length l) as -> by lia.
    rewrite run_read_more by (rewrite length_app; lia). rewrite take_app_length, drop_app_length.
    rewrite read_step_data, read_finish_complete, Hc by (rewrite ?length_replicate; lia || done). done.
Qed.

(** A frame after the other. *)
Lemma read_stream ms rest :
  Forall framed ms ->
  exists bytes, mapR write_buffer ms = Ok bytes /\
    read_messages (List.length ms) (mjoin bytes ++ rest)
    = Ok (List.map (fun m => Some (mkMessage ASEBA_DEST_DEBUG (type m) (received uninitialized (body m)))) ms, rest).
Proof.
  induction 1 as [|m ms Hm _ (bytes & Hb & IH)]; [by exists []|].
  exists (frame m :: bytes). pose proof Hm as (Hs & _ & _ & Hl). cbn [mapR]. rewrite write_frame, Hb by done. split; [done|].
  change (mjoin (frame m :: bytes)) with (frame m ++ mjoin bytes). rewrite <- app_assoc.
  cbn [List.length read_messages List.map]. rewrite read_frame by done. cbn [mbind res_bind]. by rewrite IH.
Qed.

(** C17: messages written to a stream one after the other are read one after the
    other, in order, each with its type and with the members that its bytes
    carry, whatever follows them in the stream.  Their source is not preserved:
    the writer overwrites it, and every message arrives with source 0. *)
Theorem stream_roundtrip ms rest :
  Forall framed ms ->
  exists bytes, mapR write_buffer ms = Ok bytes /\
    read_messages (List.length ms) (mjoin bytes ++ rest)
    = Ok (List.map (fun m => Some (mkMessage ASEBA_DEST_DEBUG (type m) (received uninitialized (body m)))) ms, rest).
Proof. apply read_stream. Qed.
End Reader.

(** A transfer that behaves as documented. *)
Definition sample_read (s : list Z) (n : nat) : bool * list Z * list Z :=
  (negb (n <=? List.length s)%nat, take n s, drop n s).

Lemma sample_framed : framed 0 sample_message.
Proof.
  split; [exact sample_sendable|]. split; [exact (sample_known 0)|]. repeat split; vm_compute; congruence.
Defined.

Lemma stream_roundtrip_witness : exists bytes,
  mapR write_buffer [sample_message; mkMessage 4 ASEBA_MESSAGE_DISCONNECTED (Disconnected Disconnected.mk)] = Ok bytes /\
  read_messages 0 sample_read 2 (mjoin bytes ++ [1; 2])
  = Ok ([Some (mkMessage 0 (type sample_message) (body sample_message));
         Some (mkMessage 0 ASEBA_MESSAGE_DISCONNECTED (Disconnected Disconnected.mk))], [1; 2]).
Proof.
  apply (stream_roundtrip 0 sample_read); [|constructor; [|constructor; [|constructor]]].
  - intros s n H. unfold sample_read. by rewrite (proj2 (Nat.leb_le _ _)).
  - exact sample_framed.
  - repeat split; try exact I; vm_compute; congruence.
Defined.

(** The writer loses the source of a message: the length is copied as an
    [int], over the two bytes of the source, which arrive as zero whatever the
    source is. *)
Theorem source_lost uninitialized async_read m :
  (forall s n, (n <= List.length s)%nat -> async_read s n = (false, take n s, drop n s)) ->
  framed uninitialized m ->
  exists bytes, write_buffer m = Ok bytes /\ take 2 (drop 2 bytes) = [0; 0] /\
    exists m', async_read_aseba_message uninitialized async_read bytes = Ok (false, Some m', []) /\ source m' = 0.
Proof.
  intros Ha Hm. pose proof Hm as (Hs & _ & _ & Hl). exists (frame m). split_and!; [by apply write_frame|done|].
  eexists (mkMessage ASEBA_DEST_DEBUG _ _). split; [|reflexivity]. rewrite <- (app_nil_r (frame m)) at 1. by apply read_frame.
Qed.

Lemma source_lost_witness : exists bytes, write_buffer sample_message = Ok bytes /\ take 2 (drop 2 bytes) = [0; 0].
Proof.
  destruct (source_lost 0 sample_read sample_message) as (b & H1 & H2 & _).
  - intros s n H. unfold sample_read. by rewrite (proj2 (Nat.leb_le _ _)).
  - exact sample_framed.
  - exists b. split; [exact H1|exact H2].
Defined.
