(* ===== verification/Deploy.v ===== *)
(** * From a source to the memory of a robot

    Compiler, messages and stream together: the words of a program that
    [Compiler::compile] accepts fit 16 bits, [sendBytecode] cuts them into
    messages, the writer frames them, and the reader of the other side gets
    messages that put the same words, in order, from address 0 on. *)
From Stdlib Require Import ZArith Lia List.
From stdpp Require Import base list.
From S2P Require Import Prelude Errors Consts OrdMap Target Bits Lexer LexerSpec Lookup Tree ExpandSpec Emit Link CompileSpec.
From S2P Require Import Utils Buffer MsgClasses Msg MsgSpec MsgTotal Frame.

Local Open Scope Z_scope.

(** ** The words of a program are of 16 bits *)

Definition word (e : BytecodeElement) : Prop := uint16 (bytecode e).
Definition words (l : list BytecodeElement) : Prop := Forall word l.

Lemma uint16_u16 z : uint16 (u16 z).
Proof. unfold uint16, u16. pose proof (Z.mod_pos_bound z 65536 ltac:(lia)). lia. Qed.

Lemma word_element b l : word (element b l).
Proof. apply uint16_u16. Qed.

Lemma words_app l l' : words l -> words l' -> words (l ++ l').
Proof. intros H H'. by apply Forall_app. Qed.

(** [words_at r]: if there is a vector, its words are of 16 bits. *)
Definition words_at (r : res error BytecodeVector) : Prop := match r with Ok v => words (code v) | _ => True end.
#[global] Arguments words_at r : simpl never.

Lemma words_at_bind (m : res error BytecodeVector) f : words_at m -> (forall v, words (code v) -> words_at (f v)) -> words_at (m ≫= f).
Proof. intros Hm Hf. destruct m; try done. by apply Hf. Qed.

Lemma words_push v e : words (code v) -> word e -> words (code (push_back v e)).
Proof. intros Hv He. cbn. apply words_app; [done|]. by constructor. Qed.
Lemma words_push_op v id o p : words (code v) -> words (code (push_op v id o p)).
Proof. intros Hv. apply words_push; [done|apply word_element]. Qed.
Lemma words_push_word v w p : words (code v) -> words (code (push_word v w p)).
Proof. intros Hv. apply words_push; [done|apply word_element]. Qed.
Lemma words_push_all v es : words (code v) -> words es -> words (code (push_all v es)).
Proof. intros Hv He. rewrite code_push_all. by apply words_app. Qed.

Create HintDb words.
#[export] Hint Resolve words_push words_push_op words_push_word words_push_all word_element : words.

Lemma words_at_immediate z p v : words (code v) -> words_at (addImmediateToBytecodes z p v).
Proof. intros Hv. unfold addImmediateToBytecodes. destruct (_ =? _); [done|]. destruct (_ =? _); unfold words_at; auto with words. Qed.

Lemma words_at_templates args p v : words (code v) -> words_at (emit_templates args p v).
Proof.
  revert v. induction args as [|a args IH]; intros v Hv; [done|]. cbn [emit_templates].
  apply words_at_bind; [by apply IH|]. intros v' Hv'. by apply words_at_immediate.
Qed.

Lemma words_empty : words (code empty_vector).
Proof. constructor. Qed.
#[export] Hint Resolve words_at_immediate words_at_templates words_empty : words.

Section Lists.
Variable f : node -> BytecodeVector -> res error BytecodeVector.
Definition words_kept (c : node) : Prop := forall v, words (code v) -> words_at (f c v).

Lemma words_at_list cs v : Forall words_kept cs -> words (code v) -> words_at (emit_list f cs v).
Proof. intros H. revert v. induction H as [|c cs Hc _ IH]; intros v Hv; [done|]. cbn [emit_list]. apply words_at_bind; auto. Qed.
Lemma words_at_list_rev cs v : Forall words_kept cs -> words (code v) -> words_at (emit_list_rev f cs v).
Proof. intros H. revert v. induction H as [|c cs Hc _ IH]; intros v Hv; [done|]. cbn [emit_list_rev]. apply words_at_bind; auto. Qed.
Lemma words_at_pairs n cs v : (List.length cs <= n)%nat -> Forall words_kept cs -> words (code v) -> words_at (emit_pairs f cs v).
Proof.
  revert cs v; induction n as [|n IH]; intros [|a [|b cs]] v Hn H Hv; cbn in Hn; try done; try lia.
  apply Forall_cons_1 in H as [Ha H]. apply Forall_cons_1 in H as [Hb H]. cbn [emit_pairs].
  apply words_at_bind; [by apply Hb|]. intros v1 Hv1. apply words_at_bind; [by apply Ha|]. intros v2 Hv2. apply IH; [lia|done|done].
Qed.
End Lists.

Lemma words_fit_if p op es el ble bre btb bfb v :
  words (code ble) -> words (code bre) -> words (code btb) -> match bfb with Some b => words (code b) | None => True end -> words (code v) ->
  words (code (fit_if p op es el ble bre btb bfb v)).
Proof. intros H1 H2 H3 H4 Hv. unfold fit_if. cbn [set_lastLine code]. destruct bfb; auto 10 with words. Qed.

Lemma words_fit_while p op ble bre bb v : words (code ble) -> words (code bre) -> words (code bb) -> words (code v) -> words (code (fit_while p op ble bre bb v)).
Proof. intros H1 H2 H3 Hv. unfold fit_while. auto 10 with words. Qed.
#[export] Hint Resolve words_fit_if words_fit_while : words.

Ltac words_at := repeat match goal with
  | |- words_at (Ok _) => unfold words_at; solve [auto 10 with words]
  | |- words_at Crash => exact I
  | |- words_at (assert_ ?b ≫= _) => destruct b; cbn [assert_ mbind res_bind]
  | |- words_at (_ ≫= _) => apply words_at_bind; [|intros ? ?]
  | H : words_kept _ ?c |- words_at (_ ?c _) => apply H; solve [auto with words]
  | |- words_at _ => solve [auto 10 with words]
  end.

Lemma words_at_emit n v : words (code v) -> words_at (emit n v).
Proof.
  revert v. change (words_kept emit n). induction n as [k p cs IH] using node_rose_ind; intros v Hv.
  destruct k; cbn [emit]; try exact I;
    try (apply words_at_bind; [by apply words_at_list|intros v' Hv'; unfold words_at; auto with words; fail]);
    try (by apply words_at_list); try (by eapply words_at_pairs).
  all: try (destruct cs as [|c0 [|c1 [|c2 [|c3 [|c4 cs]]]]];
            repeat match goal with H : Forall _ (_ :: _) |- _ => apply Forall_cons_1 in H as [? H] end;
            unfold emit_native_arg; words_at; fail).
  apply words_at_bind; [auto with words|]. intros v1 H1. apply words_at_bind; [by apply words_at_list_rev|]. intros v2 H2. unfold words_at. auto with words.
Qed.

(** *** The program, its ends and the linker *)

Definition table_words (m : omap Z BytecodeVector) : Prop := Forall (fun kv => words (code (snd kv))) m.
Definition pl_words (pl : PreLinkBytecode) : Prop := table_words (ev_bytecode pl) /\ table_words (sub_bytecode pl).

Lemma table_words_get m id : table_words m -> words (code (default empty_vector (om_find id m))).
Proof. intros H. destruct (om_find id m) as [v|] eqn:E; [by apply (om_find_Forall (fun v => words (code v)) id v m)|constructor]. Qed.

Lemma table_words_set m id v : table_words m -> words (code v) -> table_words (om_set id v m).
Proof. intros Hm Hv. by apply om_set_Forall. Qed.
#[export] Hint Resolve table_words_get table_words_set : words.

Lemma pl_words_get pl c : pl_words pl -> words (code (get_vector pl c)).
Proof. intros [He Hs]. destruct c; cbn [get_vector]; by apply table_words_get. Qed.
Lemma pl_words_set pl c v : pl_words pl -> words (code v) -> pl_words (set_vector pl c v).
Proof. intros [He Hs] Hv. destruct c; split; cbn; [by apply table_words_set|done|done|by apply table_words_set]. Qed.

Lemma pl_words_children cs pl pl' : pl_words pl -> emit_children cs pl = Ok pl' -> pl_words pl'.
Proof.
  revert pl; induction cs as [|c cs IH]; intros pl Hpl; cbn [emit_children]; intros H; inv_ok; [done|]. apply (IH x); [|done].
  revert H. unfold emit_child.
  assert (forall v, emit c (get_vector pl (current pl)) = Ok v -> pl_words (set_vector pl (current pl) v)) as Hv.
  { intros v Hv. pose proof (words_at_emit c _ (pl_words_get pl (current pl) Hpl)) as Hk. rewrite Hv in Hk. by apply pl_words_set. }
  destruct Hpl as [H1 H2]. destruct (node_kind c); try (intros H; inv_ok; by apply Hv).
  - destruct (om_find eventId _); [done|]. intros H. inv_ok. split; cbn; [apply table_words_set; [done|constructor]|done].
  - destruct (om_find subroutineId _); [done|]. intros H. inv_ok. split; cbn; [done|apply table_words_set; [done|constructor]].
Qed.

Lemma pl_words_analyze cs cur d pl pl' : pl_words pl -> analyze_depth cs cur d pl = Ok pl' -> pl_words pl'.
Proof.
  revert cur d pl. induction cs as [|c cs IH]; intros cur d pl Hpl; cbn [analyze_depth]; cbv zeta.
  - intros [= <-]. apply pl_words_set; [done|]. by apply (pl_words_get pl cur).
  - assert (pl_words (set_vector pl cur (set_maxStackDepth (get_vector pl cur) d))) as Hc by (apply pl_words_set; [done|by apply (pl_words_get pl cur)]).
    destruct (node_kind c); intros H; inv_ok; (eapply IH; [|eassumption]; assumption).
Qed.

Lemma words_program n pl : emit_program n PreLink_init = Ok pl -> pl_words pl.
Proof.
  unfold emit_program. destruct (node_kind n); try done. intros H. inv_ok. eapply pl_words_analyze; [|exact H0]. eapply pl_words_children; [|exact H].
  split; cbn; repeat constructor.
Qed.

Lemma words_change_stop skip l : words l -> words (change_stop skip l).
Proof.
  revert skip. induction l as [|e l IH]; intros skip Hl; [destruct skip; constructor|]. apply Forall_cons_1 in Hl as [He Hl].
  destruct skip as [|skip]; cbn [change_stop]; [|constructor; [done|by apply IH]]. cbv zeta. constructor; [|by apply IH]. destruct (is_op _ e); [by vm_compute|done].
Qed.

Lemma words_terminate table id v v' : words (code v) -> terminate_sub table id v = Ok v' -> words (code v').
Proof.
  intros Hv. unfold terminate_sub. destruct (is_empty v); [intros H; inv_ok; auto with words|].
  assert (words (code (changeStopToRetSub v))) as Hc by (by apply words_change_stop). cbv zeta. destruct (_ =? _); intros [= <-]; [done|auto with words].
Qed.

Lemma pl_words_fixup table pl pl' : pl_words pl -> fixup table pl = Ok pl' -> pl_words pl'.
Proof.
  intros [He Hs]. unfold fixup. intros H. inv_ok. apply mapR_Forall2 in H. split; unfold table_words; cbn.
  - apply Forall_forall. intros kv Hin. apply list_elem_of_In, in_map_iff in Hin as (y & <- & [Hin _]%filter_In). apply list_elem_of_In in Hin.
    unfold table_words in He. rewrite Forall_forall in He. cbn. unfold terminate_event. apply words_push; [by apply He|apply word_element].
  - induction H as [|a b l l' Hab _ IH]; [constructor|]. apply Forall_cons_1 in Hs as [Ha Hs]. inv_ok. constructor; [|by apply IH]. cbn. by eapply words_terminate.
Qed.

Lemma words_event_table evs addr : words (event_table evs addr).
Proof. revert addr. induction evs as [|[id v] evs IH]; intros addr; [constructor|]. cbn [event_table]. constructor; [apply word_element|]. constructor; [apply word_element|]. apply IH. Qed.

Lemma words_codes m : table_words m -> words (mjoin (List.map (fun kv => code (snd kv)) m)).
Proof. induction 1 as [|kv m H _ IH]; [constructor|]. cbn. by apply words_app. Qed.

Lemma words_link_subs subs acc table acc' table' : table_words subs -> words acc -> link_subs subs acc table = Ok (acc', table') -> words acc'.
Proof.
  revert acc table. induction subs as [|[id v] subs IH]; intros acc table Hs Ha; cbn [link_subs]; intros H; inv_ok; [done|].
  apply Forall_cons_1 in Hs as [Hv Hs]. eapply IH; [done| |eassumption]. by apply words_app.
Qed.

Lemma words_resolve table skip l l' : words l -> resolve_calls table skip l = Ok l' -> words l'.
Proof.
  revert skip l'. induction l as [|e l IH]; intros skip l' Hl; [destruct skip; intros [= <-]; constructor|]. apply Forall_cons_1 in Hl as [He Hl].
  destruct skip as [|skip]; cbn [resolve_calls]; intros H; inv_ok; (constructor; [|by eapply IH]); [|done].
  destruct (is_op _ e); inv_ok; [apply uint16_u16|done].
Qed.

Lemma words_link size pl table ok l table' : pl_words pl -> link size pl table = Ok (ok, l, table') -> words l.
Proof.
  intros [He Hs]. unfold link. cbv zeta. intros H. inv_ok. destruct x as [vec3 t3]. inv_ok. eapply words_resolve; [|eassumption].
  eapply words_link_subs; [exact Hs| |eassumption]. apply words_app; [constructor; [apply word_element|apply words_event_table]|by apply words_codes].
Qed.

Lemma words_generate c program l n c' : generate c program = Ok (Compiled l n, c') -> words l.
Proof.
  unfold generate. cbv zeta. intros H. inv_ok. destruct x1; cbn [negb] in *; [|discriminate]. inv_ok. destruct x1 as [[ok v] table].
  destruct ok; cbn [negb] in *; [|discriminate]. inv_ok.
  match goal with Hl : link _ _ _ = _ |- _ => eapply words_link; [|exact Hl] end. eapply pl_words_fixup; [|eassumption]. by eapply words_program.
Qed.

Lemma try_stage_Ok {A} c (r : res error A) k x n c' : try_stage c r k = Ok (Compiled x n, c') -> exists a, r = Ok a /\ k a = Ok (Compiled x n, c').
Proof. destruct r; cbn; try discriminate. eauto. Qed.

Lemma words_compile al u src c l n c' : compile al u src c = Ok (Compiled l n, c') -> words l.
Proof.
  unfold compile. cbv zeta. destruct (_ <? _); [discriminate|].
  intros (? & _ & H1)%try_stage_Ok. apply try_stage_Ok in H1 as ([? ?] & _ & H2). apply try_stage_Ok in H2 as (? & _ & H3).
  apply try_stage_Ok in H3 as (? & _ & H4). apply try_stage_Ok in H4 as ([? ?] & _ & H5). apply try_stage_Ok in H5 as ([? ?] & _ & H6).
  apply try_stage_Ok in H6 as (? & _ & H7). apply bind_Ok in H7 as (? & _ & H8). by eapply words_generate.
Qed.

(** ** The way to the robot *)

(** A message of bytecode fits a frame and arrives with its members. *)
Lemma chunk_framed u m id at_ : chunk_dest m = Some id -> type m = ASEBA_MESSAGE_SET_BYTECODE -> (List.length (chunk m) <= 256)%nat ->
  chunk_start m = Some at_ -> uint16 id -> uint16 at_ -> Forall uint16 (chunk m) -> framed u m /\ received u (body m) = body m.
Proof.
  destruct m as [s t b]. unfold chunk_dest, chunk_start, chunk, framed, known. cbn [body type]. destruct b; try discriminate.
  destruct m as [[dest] start bytecode]. cbn [SetBytecode.cmd SetBytecode.start SetBytecode.bytecode CmdMessage.dest].
  intros [= ->] -> Hl [= ->] Hi Ha Hb. split; [|done]. split_and!; try done.
  cbn [wire SetBytecode.cmd SetBytecode.start SetBytecode.bytecode]. rewrite !length_app.
  change (List.length (u16_bytes at_)) with 2%nat. change (List.length (cmd_bytes (CmdMessage.mk id))) with 2%nat.
  assert (List.length (MsgSpec.words bytecode) = 2 * List.length bytecode)%nat as ->; [|lia].
  clear. induction bytecode as [|w l IH]; [done|]. change (MsgSpec.words (w :: l)) with (u16_bytes w ++ MsgSpec.words l). rewrite length_app, IH. change (List.length (u16_bytes w)) with 2%nat. cbn [List.length]. lia.
Qed.

Lemma chunks_framed u id l : forall a, consecutive a l -> 0 <= a -> a + Z.of_nat (List.length (mjoin (List.map chunk l))) < 65536 -> uint16 id ->
  Forall (fun m => chunk_dest m = Some id /\ type m = ASEBA_MESSAGE_SET_BYTECODE /\ (List.length (chunk m) <= 256)%nat) l ->
  Forall uint16 (mjoin (List.map chunk l)) -> Forall (fun m => framed u m /\ received u (body m) = body m) l.
Proof.
  induction l as [|m l IH]; intros a Hc Ha Hb Hi Hm Hw; [constructor|]. change (mjoin (List.map chunk (m :: l))) with (chunk m ++ mjoin (List.map chunk l)) in *. destruct Hc as [Hs Hc].
  rewrite length_app in Hb. apply Forall_cons_1 in Hm as [(Hd & Ht & Hl) Hm]. apply Forall_app in Hw as [Hw1 Hw2]. constructor.
  - eapply chunk_framed; try done. unfold uint16. lia.
  - apply (IH (a + Z.of_nat (List.length (chunk m)))); try done; lia.
Qed.

(** What the other side reads. *)
Definition arrived (m : Message) : Message := mkMessage ASEBA_DEST_DEBUG (type m) (body m).

Lemma consecutive_arrived a l : consecutive a l -> consecutive a (List.map arrived l).
Proof. revert a. induction l as [|m l IH]; intros a; [done|]. cbn [List.map consecutive]. intros [H1 H2]. split; [exact H1|]. by apply IH. Qed.

(** C2: a program that the compiler accepts for a target of less than 2^16 words
    is cut into messages, written to a stream and read from it, whatever
    follows; the messages that arrive are for the robot, each continues where
    the one before it ends, from address 0, and together they are the words of
    the program, which fit the bytecode memory of the target. *)
Theorem program_deployed al u u' async_read src c code n c' id rest :
  (forall s k, (k <= List.length s)%nat -> async_read s k = (false, take k s, drop k s)) ->
  len src < 2147483648 -> 0 <= uid c < 4294967296 -> bytecodeSize (targetDescription c) < 65536 -> uint16 id ->
  compile al u src c = Ok (Compiled code n, c') ->
  exists ms bytes got,
    sendBytecode [] id (List.map bytecode code) = Some ms /\ mapR write_buffer ms = Ok bytes /\
    read_messages u' async_read (List.length ms) (mjoin bytes ++ rest) = Ok (List.map Some got, rest) /\
    Forall (fun m => chunk_dest m = Some id) got /\ consecutive 0 got /\
    mjoin (List.map chunk got) = List.map bytecode code /\
    Z.of_nat (List.length (mjoin (List.map chunk got))) <= bytecodeSize (targetDescription c).
Proof.
  intros Hr Hs Hu Ht Hi Hc. pose proof (compile_outcome al u src c Hs Hu) as Ho. rewrite Hc in Ho. destruct Ho as [Hlen _].
  apply words_compile in Hc. rewrite <- (length_map bytecode code) in Hlen.
  destruct (sendBytecode_covers [] id (List.map bytecode code)) as (ms & Hms & Hcons & Hf & Hj); [lia|]. cbn [app] in Hms.
  assert (Forall (fun m => framed u' m /\ received u' (body m) = body m) ms) as Hfr.
  { apply (chunks_framed u' id ms 0); rewrite ?Hj; try done; try lia. apply Forall_forall. intros w (e & <- & Hin)%list_elem_of_In%in_map_iff.
    apply list_elem_of_In in Hin. unfold words in Hc. rewrite Forall_forall in Hc. by apply Hc. }
  destruct (read_stream u' async_read Hr ms rest) as (bytes & Hb & Hread); [by eapply Forall_impl; [exact Hfr|]; intros m []|].
  assert (List.map chunk (List.map arrived ms) = List.map chunk ms) as Hch by (rewrite List.map_map; reflexivity).
  exists ms, bytes, (List.map arrived ms). rewrite Hch, Hj.
  split_and!; try done.
  - rewrite Hread, List.map_map. do 2 f_equal. apply map_ext_in. intros m Hin%list_elem_of_In. rewrite Forall_forall in Hfr. by destruct (Hfr m Hin) as [_ ->].
  - apply Forall_forall. intros m (m' & <- & Hin)%list_elem_of_In%in_map_iff. apply list_elem_of_In in Hin. rewrite Forall_forall in Hf. by destruct (Hf m' Hin).
  - by apply consecutive_arrived.
Qed.

Lemma program_deployed_witness : exists code n c' ms bytes got,
  compile ascii_alnum 0 sample_source sample_compiler = Ok (Compiled code n, c') /\ code <> [] /\
  sendBytecode [] 7 (List.map bytecode code) = Some ms /\ mapR write_buffer ms = Ok bytes /\
  read_messages 0 sample_read (List.length ms) (mjoin bytes ++ [1]) = Ok (List.map Some got, [1]) /\
  mjoin (List.map chunk got) = List.map bytecode code.
Proof.
  destruct (compile ascii_alnum 0 sample_source sample_compiler) as [[[code n|e] c']|e| | |] eqn:E; [|exfalso; vm_compute in E; discriminate E..].
  destruct (program_deployed ascii_alnum 0 0 sample_read sample_source sample_compiler code n c' 7 [1]) as (ms & bytes & got & H1 & H2 & H3 & _ & _ & H4 & _);
    [intros s k H; unfold sample_read; by rewrite (proj2 (Nat.leb_le _ _))|vm_compute; reflexivity|vm_compute; split; [discriminate|reflexivity]|vm_compute; reflexivity|unfold uint16; lia|exact E|].
  exists code, n, c', ms, bytes, got. split_and!; [reflexivity|vm_compute in E; by injection E as <-|exact H1|exact H2|exact H3|exact H4].
Defined.
