(* ===== verification/HexFile.v ===== *)
(** * Firmware images

    thymio-device-manager/thymio2_fwupgrade.cpp: the reader of Intel HEX files
    and the pages of the flash memory.  The operands of [|] in [get_uint8] and
    [get_uint16], which C++ does not order, are evaluated from left to right. *)
From Stdlib Require Import ZArith Lia List.
From stdpp Require Import base list list_monad.
From S2P Require Import Prelude OrdMap Bits.

Local Open Scope Z_scope.

(** ** The stream *)

(** A [std::stringstream]: the characters left and whether [good()] holds. *)
Record istream : Type := mkStream { rest : list Z; good : bool }.

(** Reading from the stream. *)
Definition rd (A : Type) : Type := istream -> A * istream.
#[export] Instance rd_ret : MRet rd := fun A a s => (a, s).
#[export] Instance rd_bind : MBind rd := fun A B f m s => let '(a, s') := m s in f a s'.

(** [stream.get()]: [EOF] is -1. *)
Definition get : rd Z := fun s =>
  if good s then
    match rest s with
    | c :: r => (c, mkStream r true)
    | [] => (-1, mkStream [] false)
    end
  else (-1, s).

Definition isspace (c : Z) : bool := ((9 <=? c) && (c <=? 13)) || (c =? 32).

Fixpoint skip_spaces (l : list Z) : list Z :=
  match l with
  | c :: l' => if isspace c then skip_spaces l' else l
  | [] => []
  end.

Section Hex.
Variable uninitialized : Z.

(** [char c; stream >> c]: without a character [c] keeps no value. *)
Definition extract_char : rd Z := fun s =>
  if good s then
    match skip_spaces (rest s) with
    | c :: r => (c, mkStream r true)
    | [] => (uninitialized, mkStream [] false)
    end
  else (uninitialized, s).

(** ** Numbers *)

Definition uint4_of (c : Z) : Z :=
  if c <=? 57 then u32 (c - 48)
  else if c <=? 70 then u32 (c - 65 + 10)
  else u32 (c - 97 + 10).

Definition get_uint4 : rd Z := c ← get; mret (uint4_of c).

Definition get_uint8 : rd Z :=
  h ← get_uint4; l ← get_uint4; mret (Z.lor (u32 (Z.shiftl h 4)) l).

Definition get_uint16 : rd Z :=
  h ← get_uint8; l ← get_uint8; mret (Z.lor (u32 (Z.shiftl h 8)) l).

(** ** The file *)

Inductive hex_file_parse_error : Type :=
| no_error
| file_error
| invalid_record
| wrong_checksum
| unknown_record
| file_truncated.

(** [std::map<uint32_t, std::vector<uint8_t>>]. *)
Definition chunks : Type := omap Z (list Z).

(** The data of a record, with the checksum so far. *)
Fixpoint get_data (n : nat) (sum : Z) : rd (list Z * Z) :=
  match n with
  | O => mret ([], sum)
  | S n' =>
      v ← get_uint8;
      '(l, sum') ← get_data n' (u8 (sum + u8 v));
      mret (u8 v :: l, sum')
  end.

(** The search for a chunk that the record continues, at its end or at its
    front; [None] when there is none.  The key of a chunk does not change. *)
Fixpoint fuse (address : Z) (recordData : list Z) (data : chunks) : option chunks :=
  match data with
  | [] => None
  | (first, second) :: data' =>
      let chunkSize := Z.of_nat (List.length second) in
      if address =? first + chunkSize then Some ((first, second ++ recordData) :: data')
      else if address + Z.of_nat (List.length recordData) =? first then Some ((first, recordData ++ second) :: data')
      else match fuse address recordData data' with
           | Some d => Some ((first, second) :: d)
           | None => None
           end
  end.

Definition add_record (address : Z) (recordData : list Z) (data : chunks) : chunks :=
  match fuse address recordData data with
  | Some d => d
  | None => om_set address recordData data
  end.

(** [computedCheckSum = 1 + ~computedCheckSum]. *)
Definition complement (sum : Z) : Z := u8 (1 + Z.lnot sum).

(** The sum of the two bytes of a [uint16_t], added to [sum]. *)
Definition sum16 (sum v : Z) : Z := u8 (u8 (sum + v) + Z.shiftr v 8).

(** The variables of the loop. *)
Record hex_state : Type := mkHex { stream : istream; baseAddress : Z; data : chunks }.

Definition hex_result : Type := chunks + hex_file_parse_error.

(** A record of an extended address: [shift] is 4 or 16, [bad] the error for a
    wrong checksum. *)
Definition address_record (shift : Z) (bad : hex_file_parse_error) (dataLength sum : Z) (st : hex_state)
  : hex_state + hex_result :=
  if negb (dataLength =? 2) then inr (inr invalid_record)
  else
    let '(high, s) := get_uint16 (stream st) in
    let highAddress := u16 high in
    let computedCheckSum := sum16 sum highAddress in
    let '(check, s) := get_uint8 s in
    if negb (u8 check =? complement computedCheckSum) then inr (inr bad)
    else inl (mkHex s (u32 (Z.shiftl highAddress shift)) (data st)).

(** One turn of [while(ifs.good())]. *)
Definition hex_record (st : hex_state) : hex_state + hex_result :=
  let '(c, s) := extract_char (stream st) in
  if negb (c =? 58) then inr (inr invalid_record)
  else
    let '(v, s) := get_uint8 s in
    let dataLength := u8 v in
    let sum := u8 (0 + dataLength) in
    let '(v, s) := get_uint16 s in
    let lowAddress := u16 v in
    let sum := sum16 sum lowAddress in
    let '(v, s) := get_uint8 s in
    let recordType := u8 v in
    let sum := u8 (sum + recordType) in
    match recordType with
    | 0 =>
        let '((recordData, sum), s) := get_data (Z.to_nat dataLength) sum s in
        let '(check, s) := get_uint8 s in
        if negb (u8 check =? complement sum) then inr (inr wrong_checksum)
        else
          let address := u32 (lowAddress + baseAddress st) in
          inl (mkHex s (baseAddress st) (add_record address recordData (data st)))
    | 1 => inr (inl (data st))
    | 2 => address_record 4 invalid_record dataLength sum (mkHex s (baseAddress st) (data st))
    | 4 => address_record 16 wrong_checksum dataLength sum (mkHex s (baseAddress st) (data st))
    | 5 =>
        let '((_, sum), s) := get_data 4 sum s in
        let '(check, s) := get_uint8 s in
        if negb (u8 check =? complement sum) then inr (inr wrong_checksum)
        else inl (mkHex s (baseAddress st) (data st))
    | _ => inr (inr unknown_record)
    end.

Definition hex_step (st : hex_state) : hex_state + hex_result :=
  if good (stream st) then hex_record st else inr (inr file_truncated).

(** Every turn reads a character. *)
Definition read_hex_file (hex_data : list Z) : option hex_result :=
  match loop hex_step (Z.to_pos (Z.of_nat (List.length hex_data) + 2)) (mkHex (mkStream hex_data true) 0 []) with
  | inr r => Some r
  | inl _ => None
  end.

(** ** Pages *)

Definition page_size : Z := 2048.

(** [std::copy] to a position of a page. *)
Definition copy_at (page : list Z) (byteIndex : nat) (l : list Z) : list Z :=
  take byteIndex page ++ l ++ drop (byteIndex + List.length l) page.

(** One turn of the [do] loop over the bytes of a chunk. *)
Definition page_step (address : Z) (d : list Z) (s : Z * chunks) : (Z * chunks) + chunks :=
  let '(chunkDataIndex, pages) := s in
  let chunk_size := u32 (Z.of_nat (List.length d)) in
  let pageIndex := u32 (address + chunkDataIndex) / page_size in
  let byteIndex := u32 (address + chunkDataIndex) mod page_size in
  let page := match om_find pageIndex pages with Some p => p | None => replicate (Z.to_nat page_size) 0 end in
  let amountToCopy := Z.min (u32 (page_size - byteIndex)) (u32 (chunk_size - chunkDataIndex)) in
  let page' := copy_at page (Z.to_nat byteIndex) (take (Z.to_nat amountToCopy) (drop (Z.to_nat chunkDataIndex) d)) in
  let pages' := om_set pageIndex page' pages in
  let chunkDataIndex' := u32 (chunkDataIndex + amountToCopy) in
  if chunkDataIndex' <? chunk_size then inl (chunkDataIndex', pages') else inr pages'.

Definition chunk_pages (address : Z) (d : list Z) (pages : chunks) : option chunks :=
  match loop (page_step address d) (Z.to_pos (Z.of_nat (List.length d) + 1)) (0, pages) with
  | inr p => Some p
  | inl _ => None
  end.

Fixpoint all_pages (l : chunks) (pages : chunks) : option chunks :=
  match l with
  | [] => Some pages
  | (address, d) :: l' =>
      match chunk_pages address d pages with
      | Some pages' => all_pages l' pages'
      | None => None
      end
  end.

Definition extract_pages_from_hex (hex_data : list Z) : option hex_result :=
  match read_hex_file hex_data with
  | Some (inl c) =>
      match all_pages c [] with
      | Some p => Some (inl p)
      | None => None
      end
  | r => r
  end.
End Hex.
