(* ===== verification/HexSpec.v ===== *)
(** * What the firmware reader promises

    The reader ends on every input, understands the records of a file in which
    they ascend, and the pages hold every byte of the file at its address. *)
From Stdlib Require Import ZArith Lia List.
From stdpp Require Import base list list_monad.
From S2P Require Import Prelude Bits OrdMap HexFile.

Local Open Scope Z_scope.

(** ** Every file is read to an end *)

(** What is left to read. *)
Definition left_of (s : istream) : Z := Z.of_nat (List.length (rest s)) + (if good s then 1 else 0).

Lemma left_of_nonneg s : 0 <= left_of s.
Proof. unfold left_of. destruct (good s); lia. Qed.

(** Reading never gives characters back. *)
Definition forward {A} (r : rd A) : Prop := forall s, left_of (snd (r s)) <= left_of s.

Lemma forward_ret {A} (a : A) : forward (mret a).
Proof. intros s. simpl. lia. Qed.

Lemma forward_bind {A B} (r : rd A) (f : A -> rd B) : forward r -> (forall a, forward (f a)) -> forward (r ≫= f).
Proof.
  intros Hr Hf s. unfold mbind, rd_bind. specialize (Hr s). destruct (r s) as [a s']. simpl in Hr.
  specialize (Hf a s'). lia.
Qed.

Lemma forward_get : forward get.
Proof. intros [[|c r] []]; unfold get, left_of; simpl; lia. Qed.
Lemma forward_uint4 : forward get_uint4.
Proof. apply forward_bind; [apply forward_get|]. intros; apply forward_ret. Qed.
Lemma forward_uint8 : forward get_uint8.
Proof. repeat (apply forward_bind; [apply forward_uint4|intros ?]). apply forward_ret. Qed.
Lemma forward_uint16 : forward get_uint16.
Proof. repeat (apply forward_bind; [apply forward_uint8|intros ?]). apply forward_ret. Qed.
Lemma forward_data n sum : forward (get_data n sum).
Proof.
  revert sum; induction n as [|n IH]; intros sum; [apply forward_ret|].
  apply forward_bind; [apply forward_uint8|]. intros v. apply forward_bind; [apply IH|]. intros [l s]. apply forward_ret.
Qed.

Lemma skip_spaces_length l : (List.length (skip_spaces l) <= List.length l)%nat.
Proof. induction l as [|c l IH]; [done|]. simpl. destruct (isspace c); simpl; lia. Qed.

Lemma forward_eq {A} (r : rd A) s a s' : forward r -> r s = (a, s') -> left_of s' <= left_of s.
Proof. intros Hr H. specialize (Hr s). by rewrite H in Hr. Qed.

(** Following the reads of a definition: each leaves less. *)
Ltac forwards :=
  repeat match goal with
  | H : get_uint8 _ = (_, _) |- _ => apply (forward_eq _ _ _ _ forward_uint8) in H
  | H : get_uint16 _ = (_, _) |- _ => apply (forward_eq _ _ _ _ forward_uint16) in H
  | H : get_data ?n ?m _ = (_, _) |- _ => apply (forward_eq _ _ _ _ (forward_data n m)) in H
  end.

Section Hex.
Variable uninitialized : Z.

Lemma extract_char_left s : good s = true -> left_of (snd (extract_char uninitialized s)) < left_of s.
Proof.
  intros Hg. unfold extract_char, left_of. rewrite Hg. pose proof (skip_spaces_length (rest s)) as H.
  destruct (skip_spaces (rest s)); simpl in *; lia.
Qed.

Lemma address_record_left shift bad len sum st :
  match address_record shift bad len sum st with
  | inl st' => left_of (stream st') <= left_of (stream st)
  | inr _ => True
  end.
Proof. unfold address_record. repeat case_match; simplify_eq; simpl; try done; forwards; lia. Qed.

Lemma hex_step_left st :
  match hex_step uninitialized st with
  | inl st' => left_of (stream st') < left_of (stream st)
  | inr _ => True
  end.
Proof.
  unfold hex_step. destruct (good (stream st)) eqn:Hg; [|done]. unfold hex_record.
  pose proof (extract_char_left _ Hg) as He. destruct (extract_char uninitialized (stream st)) as [c s]. simpl in He.
  destruct (negb _); [done|].
  destruct (get_uint8 s) as [v1 s1] eqn:E1. destruct (get_uint16 s1) as [v2 s2] eqn:E2. destruct (get_uint8 s2) as [v3 s3] eqn:E3.
  forwards. generalize (u8 (sum16 (u8 (0 + u8 v1)) (u16 v2) + u8 v3)) as sum. intros sum.
  pose proof (fun b => address_record_left 4 b (u8 v1) sum (mkHex s3 (baseAddress st) (data st))) as H4.
  pose proof (fun b => address_record_left 16 b (u8 v1) sum (mkHex s3 (baseAddress st) (data st))) as H16.
  destruct (u8 v3) as [|[[|[]|]|[[]|[]|]|]|]; try done.
  - destruct (get_data _ sum s3) as [[l sum'] s4] eqn:E4. destruct (get_uint8 s4) as [v5 s5] eqn:E5.
    forwards. destruct (negb _); simpl; [done|lia].
  - destruct (get_data 4 sum s3) as [[l sum'] s4] eqn:E4. destruct (get_uint8 s4) as [v5 s5] eqn:E5.
    forwards. destruct (negb _); simpl; [done|lia].
  - specialize (H16 wrong_checksum). destruct (address_record _ _ _ _ _); simpl in *; [lia|done].
  - specialize (H4 invalid_record). destruct (address_record _ _ _ _ _); simpl in *; [lia|done].
Qed.

(** the reader of hex files ends on every input, with the chunks of the
    file or with an error. *)
Theorem read_hex_file_total hex_data : exists r, read_hex_file uninitialized hex_data = Some r.
Proof.
  unfold read_hex_file.
  destruct (loop_ends (hex_step uninitialized) (fun _ => True) (fun _ => True) (fun st => left_of (stream st))) with
    (p := Z.to_pos (Z.of_nat (List.length hex_data) + 2)) (s := mkHex (mkStream hex_data true) 0 []) as (r & Hr & _).
  - intros st _. pose proof (hex_step_left st). destruct (hex_step uninitialized st); done.
  - intros st _. apply left_of_nonneg.
  - done.
  - unfold left_of. simpl. lia.
  - rewrite Hr. eauto.
Qed.
End Hex.

(** ** The format *)

Definition hex_digit (n : Z) : Z := if n <? 10 then 48 + n else 55 + n.
Definition hex8 (v : Z) : list Z := [hex_digit (v / 16); hex_digit (v mod 16)].
Definition hex_bytes (l : list Z) : list Z := mjoin (List.map hex8 l).

(** The sum of some bytes. *)
Fixpoint total (l : list Z) : Z := match l with [] => 0 | v :: l' => v + total l' end.

(** The line of a record: its length, its address, its type, its data and the
    checksum that brings the sum of all bytes to zero. *)
Definition line_of (bytes : list Z) : list Z := 58 :: hex_bytes (bytes ++ [(- total bytes) mod 256]) ++ [10].
Definition record_line (type low : Z) (d : list Z) : list Z :=
  line_of (Z.of_nat (List.length d) :: low / 256 :: low mod 256 :: type :: d).

Inductive record : Type :=
| Data (low : Z) (bytes : list Z)
| SegmentAddress (high : Z)
| LinearAddress (high : Z)
| StartAddress (b0 b1 b2 b3 : Z).

Definition line (r : record) : list Z :=
  match r with
  | Data low bytes => record_line 0 low bytes
  | SegmentAddress high => record_line 2 0 [high / 256; high mod 256]
  | LinearAddress high => record_line 4 0 [high / 256; high mod 256]
  | StartAddress b0 b1 b2 b3 => record_line 5 0 [b0; b1; b2; b3]
  end.

Definition record_ok (r : record) : Prop :=
  match r with
  | Data low bytes => 0 <= low < 65536 /\ Forall byte bytes /\ Z.of_nat (List.length bytes) < 256
  | SegmentAddress high | LinearAddress high => 0 <= high < 65536
  | StartAddress b0 b1 b2 b3 => byte b0 /\ byte b1 /\ byte b2 /\ byte b3
  end.

(** A file: its records and the end of file record. *)
Definition hex_file (rs : list record) : list Z := mjoin (List.map line rs) ++ record_line 1 0 [].

(** The base of the addresses that follow a record: the paragraph of a segment,
    or the upper half of a linear address. *)
Definition base_after (r : record) (base : Z) : Z :=
  match r with
  | SegmentAddress high => high * 16
  | LinearAddress high => high * 65536
  | Data _ _ | StartAddress _ _ _ _ => base
  end.

(** What the reader does with a record: the base address and the chunks after
    it. *)
Definition apply_record (r : record) (s : Z * chunks) : Z * chunks :=
  let '(base, c) := s in
  (base_after r base, match r with Data low bytes => add_record (u32 (low + base)) bytes c | _ => c end).

Definition apply_records (rs : list record) (s : Z * chunks) : Z * chunks := foldl (fun s r => apply_record r s) s rs.

(** ** Reading numbers back *)

(** [r] reads the characters [l], whatever follows. *)
Definition reads {A} (r : rd A) (l : list Z) (a : A) : Prop :=
  forall t, r (mkStream (l ++ t) true) = (a, mkStream t true).

Lemma parses_ret {A} (a : A) : reads (mret a) [] a.
Proof. by intros t. Qed.

Lemma parses_bind {A B} (r : rd A) (f : A -> rd B) l1 l2 a b :
  reads r l1 a -> reads (f a) l2 b -> reads (r ≫= f) (l1 ++ l2) b.
Proof. intros H1 H2 t. unfold mbind, rd_bind. rewrite <- app_assoc, H1. apply H2. Qed.

Lemma uint4_digit n : 0 <= n < 16 -> uint4_of (hex_digit n) = n.
Proof. intros Hn. apply Z.eqb_eq. revert n Hn. apply (below_cases (fun n => uint4_of (hex_digit n) =? n)). reflexivity. Qed.

Lemma reads_uint8 v : byte v -> reads get_uint8 (hex8 v) v.
Proof.
  unfold byte. intros Hv t. unfold get_uint8, get_uint4, hex8, mbind, rd_bind, mret, rd_ret. cbn [app get good rest].
  assert (0 <= v / 16 < 16) by (split; [apply Z.div_pos|apply Z.div_lt_upper_bound]; lia).
  pose proof (Z.mod_pos_bound v 16). rewrite !uint4_digit by lia.
  rewrite u32_id by (rewrite Z.shiftl_mul_pow2; [|lia]; change (2 ^ 4) with 16; lia).
  rewrite lor_shift by (change (2 ^ 4) with 16; lia). change (2 ^ 4) with 16.
  pose proof (Z.div_mod v 16). by replace (v / 16 * 16 + v mod 16) with v by lia.
Qed.

Lemma reads_uint16 v : 0 <= v < 65536 -> reads get_uint16 (hex8 (v / 256) ++ hex8 (v mod 256)) v.
Proof.
  intros Hv. assert (0 <= v / 256 < 256) by (split; [apply Z.div_pos|apply Z.div_lt_upper_bound]; lia).
  pose proof (Z.mod_pos_bound v 256). apply (parses_bind _ _ _ _ (v / 256)); [by apply reads_uint8|].
  rewrite <- (app_nil_r (hex8 (v mod 256))). apply (parses_bind _ _ _ _ (v mod 256)); [apply reads_uint8; unfold byte; lia|].
  rewrite u32_id by (rewrite Z.shiftl_mul_pow2; [|lia]; change (2 ^ 8) with 256; lia).
  rewrite lor_shift by (change (2 ^ 8) with 256; lia). change (2 ^ 8) with 256.
  pose proof (Z.div_mod v 256). replace (v / 256 * 256 + v mod 256) with v by lia. apply parses_ret.
Qed.

Lemma u8_add_l a b : u8 (u8 a + b) = u8 (a + b).
Proof. apply Zplus_mod_idemp_l. Qed.

Lemma reads_data l sum : Forall byte l -> byte sum ->
  reads (get_data (List.length l) sum) (hex_bytes l) (l, u8 (sum + total l)).
Proof.
  intros H; revert sum; induction H as [|v l Hv Hl IH]; intros sum Hs.
  { cbn [total]. rewrite Z.add_0_r, u8_id by done. apply parses_ret. }
  change (hex_bytes (v :: l)) with (hex8 v ++ hex_bytes l).
  cbn [List.length get_data]. apply (parses_bind _ _ _ _ v); [by apply reads_uint8|]. rewrite (u8_id v) by exact Hv.
  rewrite <- (app_nil_r (hex_bytes l)). eapply parses_bind; [apply IH, byte_u8|].
  cbn [total]. rewrite u8_add_l, Z.add_assoc. apply parses_ret.
Qed.

(** The header of a record. *)
Lemma hex_bytes_app a b : hex_bytes (a ++ b) = hex_bytes a ++ hex_bytes b.
Proof. unfold hex_bytes. by rewrite map_app, join_app. Qed.

Lemma lnot_eq z : 1 + Z.lnot z = - z.
Proof. unfold Z.lnot. lia. Qed.

Lemma complement_u8 n : complement (u8 n) = (- n) mod 256.
Proof.
  unfold complement, u8. rewrite lnot_eq. pose proof (Z.div_mod n 256).
  replace (- (n mod 256)) with (- n + n / 256 * 256) by lia. by rewrite Z.mod_add.
Qed.

Lemma complement_sum a b c : complement (u8 (u8 a + b + c)) = (- (a + b + c)) mod 256.
Proof. rewrite <- (Z.add_assoc (u8 a)), u8_add_l, complement_u8. do 2 f_equal. lia. Qed.

(** The four numbers that start a record, and its line. *)
Lemma record_line_eq type low d :
  record_line type low d
  = 58 :: hex8 (Z.of_nat (List.length d)) ++ hex8 (low / 256) ++ hex8 (low mod 256) ++ hex8 type ++ hex_bytes d
       ++ hex8 ((- total (Z.of_nat (List.length d) :: low / 256 :: low mod 256 :: type :: d)) mod 256) ++ [10].
Proof.
  unfold record_line, line_of. rewrite hex_bytes_app. cbn [hex_bytes List.map]. unfold hex_bytes at 1.
  cbn [List.map mjoin list_join]. rewrite <- !app_assoc. cbn. by rewrite ?app_nil_r.
Qed.

(** The stream after a line: the end of line is still to be skipped. *)
Definition at_line (s : list Z) (st : istream) : Prop :=
  good st = true /\ (rest st = s \/ rest st = 10 :: s).

Lemma extract_colon uninitialized l st : at_line (58 :: l) st -> extract_char uninitialized st = (58, mkStream l true).
Proof. intros [Hg [Hr|Hr]]; unfold extract_char; by rewrite Hg, Hr. Qed.

(** The numbers that start a record. *)
Lemma header_step uninitialized type low n l st : byte n -> byte type -> 0 <= low < 65536 ->
  at_line (58 :: hex8 n ++ hex8 (low / 256) ++ hex8 (low mod 256) ++ hex8 type ++ l) (stream st) ->
  hex_step uninitialized st
  = let s := mkStream l true in
    let sum := u8 (n + low / 256 + low mod 256 + type) in
    match type with
    | 0 =>
        let '((recordData, sum), s) := get_data (Z.to_nat n) sum s in
        let '(check, s) := get_uint8 s in
        if negb (u8 check =? complement sum) then inr (inr wrong_checksum)
        else inl (mkHex s (baseAddress st) (add_record (u32 (low + baseAddress st)) recordData (data st)))
    | 1 => inr (inl (data st))
    | 2 => address_record 4 invalid_record n sum (mkHex s (baseAddress st) (data st))
    | 4 => address_record 16 wrong_checksum n sum (mkHex s (baseAddress st) (data st))
    | 5 =>
        let '((_, sum), s) := get_data 4 sum s in
        let '(check, s) := get_uint8 s in
        if negb (u8 check =? complement sum) then inr (inr wrong_checksum)
        else inl (mkHex s (baseAddress st) (data st))
    | _ => inr (inr unknown_record)
    end.
Proof.
  intros Hn Ht Hl Hat. rewrite (app_assoc (hex8 (low / 256))) in Hat. unfold hex_step. rewrite (proj1 Hat). unfold hex_record. rewrite (extract_colon _ _ _ Hat).
  change (negb (58 =? 58)) with false. cbv iota. rewrite (reads_uint8 n Hn), (reads_uint16 low Hl), (reads_uint8 type Ht).
  rewrite !(u8_id n), (u8_id type), (u16_id low) by done. rewrite Z.add_0_l.
  assert (u8 (sum16 (u8 n) low + type) = u8 (n + low / 256 + low mod 256 + type)) as ->; [|done].
  unfold sum16. rewrite Z.shiftr_div_pow2 by lia. change (2 ^ 8) with 256.
  rewrite !u8_add_l, <- (Z.add_assoc _ (low / 256) type), u8_add_l.
  unfold u8. pose proof (Z.div_mod low 256).
  replace (n + low + (low / 256 + type)) with (n + low / 256 + low mod 256 + type + low / 256 * 256) by lia.
  by rewrite Z.mod_add.
Qed.

Lemma address_step shift bad high sum st l : 0 <= high < 65536 ->
  stream st = mkStream (hex_bytes [high / 256; high mod 256] ++ hex8 (complement (u8 (sum + high / 256 + high mod 256))) ++ l) true ->
  address_record shift bad 2 sum st = inl (mkHex (mkStream l true) (u32 (Z.shiftl high shift)) (data st)).
Proof.
  intros Hh Hs. unfold address_record. change (negb (2 =? 2)) with false. cbv iota. rewrite Hs.
  change (hex_bytes [high / 256; high mod 256]) with (hex8 (high / 256) ++ hex8 (high mod 256)).
  rewrite (reads_uint16 high Hh). rewrite u16_id by done.
  assert (sum16 sum high = u8 (sum + high / 256 + high mod 256)) as ->.
  { unfold sum16. rewrite Z.shiftr_div_pow2, u8_add_l by lia. change (2 ^ 8) with 256. unfold u8.
    pose proof (Z.div_mod high 256).
    replace (sum + high + high / 256) with (sum + high / 256 + high mod 256 + high / 256 * 256) by lia. by rewrite Z.mod_add. }
  set (c := complement _). rewrite (reads_uint8 c) by apply byte_u8.
  rewrite u8_id by apply byte_u8. by rewrite Z.eqb_refl.
Qed.

(** The data of a record, its checksum and the rest of the line. *)
Lemma check_step d n low type t s :
  Forall byte d -> byte s -> s = u8 (n + low / 256 + low mod 256 + type) ->
  exists s', get_data (List.length d) s (mkStream (hex_bytes d ++ hex8 ((- total (n :: low / 256 :: low mod 256 :: type :: d)) mod 256) ++ [10] ++ t) true)
    = ((d, s'), mkStream (hex8 (complement s') ++ [10] ++ t) true).
Proof.
  intros Hd Hs ->. eexists. rewrite (reads_data d) by done. do 3 f_equal.
  rewrite u8_add_l, complement_u8. do 3 f_equal. cbn [total]. lia.
Qed.

Lemma check_ok c t : get_uint8 (mkStream (hex8 (complement c) ++ t) true) = (complement c, mkStream t true) /\
  (u8 (complement c) =? complement c) = true.
Proof. rewrite (reads_uint8 (complement c)) by apply byte_u8. by rewrite u8_id, Z.eqb_refl by apply byte_u8. Qed.

(** One line is one turn of the loop. *)
Lemma line_step uninitialized r t st : record_ok r -> at_line (line r ++ t) (stream st) ->
  exists st', hex_step uninitialized st = inl st' /\ at_line t (stream st') /\
    (baseAddress st', data st') = apply_record r (baseAddress st, data st).
Proof.
  intros Hok Hat. destruct r as [low d|high|high|b0 b1 b2 b3]; cbn [line record_ok] in Hok, Hat;
    rewrite record_line_eq, <- ?app_comm_cons, <- ?app_assoc in Hat; cbn [List.length] in Hat.
  - destruct Hok as (Hl & Hd & Hn).
    assert (byte (Z.of_nat (List.length d))) as Hb by (unfold byte; lia).
    rewrite (header_step _ 0 low _ _ _ Hb ltac:(done) Hl Hat). cbv zeta. rewrite Nat2Z.id.
    destruct (check_step d (Z.of_nat (List.length d)) low 0 t _ Hd (byte_u8 _) eq_refl) as [s' ->].
    destruct (check_ok s' ([10] ++ t)) as [-> ->]. eexists. split; [reflexivity|]. split; [|done]. split; [done|by right].
  - rewrite (header_step _ 2 0 2 _ _ ltac:(unfold byte; lia) ltac:(unfold byte; lia) ltac:(lia) Hat). cbv zeta.
    rewrite (address_step 4 _ high _ _ ([10] ++ t) Hok);
      [|cbn [stream]; do 3 f_equal; rewrite complement_sum; do 3 f_equal; cbn [total]; lia].
    eexists. split; [reflexivity|]. split; [split; [done|by right]|]. cbn [baseAddress data apply_record base_after]. by rewrite Z.shiftl_mul_pow2, u32_id by lia.
  - rewrite (header_step _ 4 0 2 _ _ ltac:(unfold byte; lia) ltac:(unfold byte; lia) ltac:(lia) Hat). cbv zeta.
    rewrite (address_step 16 _ high _ _ ([10] ++ t) Hok);
      [|cbn [stream]; do 3 f_equal; rewrite complement_sum; do 3 f_equal; cbn [total]; lia].
    eexists. split; [reflexivity|]. split; [split; [done|by right]|]. cbn [baseAddress data apply_record base_after]. by rewrite Z.shiftl_mul_pow2, u32_id by lia.
  - destruct Hok as (H0 & H1 & H2 & H3). assert (Forall byte [b0; b1; b2; b3]) as Hd by (by rewrite !Forall_cons).
    rewrite (header_step _ 5 0 4 _ _ ltac:(unfold byte; lia) ltac:(unfold byte; lia) ltac:(lia) Hat). cbv zeta.
    destruct (check_step [b0; b1; b2; b3] 4 0 5 t _ Hd (byte_u8 _) eq_refl) as [s' E]. cbn [List.length] in E.
    change (Z.of_nat 4) with 4. rewrite E.
    destruct (check_ok s' ([10] ++ t)) as [-> ->]. eexists. split; [reflexivity|]. split; [|done]. split; [done|by right].
Qed.

(** The lines of a file. *)
Lemma lines_run uninitialized rs t st : Forall record_ok rs -> at_line (mjoin (List.map line rs) ++ t) (stream st) ->
  exists st', run (hex_step uninitialized) (List.length rs) st = inl st' /\ at_line t (stream st') /\
    (baseAddress st', data st') = apply_records rs (baseAddress st, data st).
Proof.
  intros H; revert st; induction H as [|r rs Hr _ IH]; intros st Hat; [by exists st|].
  change (mjoin (List.map line (r :: rs))) with (line r ++ mjoin (List.map line rs)) in Hat. rewrite <- app_assoc in Hat.
  destruct (line_step uninitialized r _ st Hr Hat) as (st1 & E1 & Hat1 & Hs1).
  destruct (IH st1 Hat1) as (st2 & E2 & Hat2 & Hs2). exists st2. cbn [List.length run]. rewrite E1. split_and!; [done|done|].
  rewrite Hs2, Hs1. done.
Qed.

Lemma end_step uninitialized t st : at_line (record_line 1 0 [] ++ t) (stream st) ->
  hex_step uninitialized st = inr (inl (data st)).
Proof.
  intros Hat. rewrite record_line_eq, <- ?app_comm_cons, <- ?app_assoc in Hat. cbn [List.length] in Hat.
  by rewrite (header_step _ 1 0 0 _ _ ltac:(unfold byte; lia) ltac:(unfold byte; lia) ltac:(lia) Hat).
Qed.

Lemma line_length r : (1 <= List.length (line r))%nat.
Proof. destruct r; simpl; lia. Qed.

Lemma lines_length rs : (List.length rs <= List.length (mjoin (List.map line rs)))%nat.
Proof.
  induction rs as [|r rs IH]; [done|]. change (mjoin (List.map line (r :: rs))) with (line r ++ mjoin (List.map line rs)).
  rewrite length_app. pose proof (line_length r). cbn [List.length]. lia.
Qed.

Lemma read_records uninitialized rs t : Forall record_ok rs ->
  read_hex_file uninitialized (hex_file rs ++ t) = Some (inl (snd (apply_records rs (0, [])))).
Proof.
  intros H. unfold read_hex_file. set (st0 := mkHex _ 0 []).
  destruct (lines_run uninitialized rs (record_line 1 0 [] ++ t) st0 H) as (st & E & Hat & Hs).
  { split; [done|]. left. subst st0. cbn [stream rest]. unfold hex_file. by rewrite <- app_assoc. }
  rewrite (loop_run_inr _ _ (S (List.length rs)) _ (inl (data st) : hex_result)).
  - do 2 f_equal. by apply (f_equal snd) in Hs.
  - unfold hex_file. rewrite !length_app. pose proof (lines_length rs). lia.
  - rewrite run_S, E. by apply (end_step _ t).
Qed.

(** ** Files whose records come in ascending order *)

(** Chunks one after the other, from [lo] to [hi], none of them empty. *)
Fixpoint ascending (lo : Z) (c : chunks) (hi : Z) : Prop :=
  match c with
  | [] => lo <= hi
  | (first, d) :: c' => lo <= first /\ d <> [] /\ ascending (first + Z.of_nat (List.length d)) c' hi
  end.

(** The byte [v] is at the address [a]. *)
Definition holds (c : chunks) (a v : Z) : Prop :=
  exists ch, ch ∈ c /\ fst ch <= a /\ snd ch !! Z.to_nat (a - fst ch) = Some v.

Lemma ascending_le lo c hi : ascending lo c hi -> lo <= hi.
Proof.
  revert lo; induction c as [|[f d] c IH]; intros lo; [done|]. intros (H1 & _ & H). apply IH in H. lia.
Qed.

Lemma length_pos {A} (l : list A) : l <> [] -> 0 < Z.of_nat (List.length l).
Proof. destruct l; [done|]. simpl. lia. Qed.

Lemma ascending_end lo c hi : ascending lo c hi -> hi <= lo -> c = [].
Proof.
  destruct c as [|[f d] c]; [done|]. intros (H1 & H2 & H) Hle. apply ascending_le in H.
  apply length_pos in H2. lia.
Qed.

Lemma holds_nil a v : holds [] a v <-> False.
Proof. split; [|done]. intros (ch & Hin & _). by apply elem_of_nil in Hin. Qed.

Lemma holds_cons f d c a v : holds ((f, d) :: c) a v <-> (f <= a /\ d !! Z.to_nat (a - f) = Some v) \/ holds c a v.
Proof.
  unfold holds. split.
  - intros (ch & Hin & H). apply elem_of_cons in Hin as [->|Hin]; [by left|]. right. eauto.
  - intros [H|(ch & Hin & H)]; [exists (f, d)|exists ch]; split; try done; by constructor.
Qed.

Lemma lookup_append (f : Z) (d bs : list Z) a v :
  (f <= a /\ (d ++ bs) !! Z.to_nat (a - f) = Some v) <->
  (f <= a /\ d !! Z.to_nat (a - f) = Some v) \/
  (f + Z.of_nat (List.length d) <= a /\ bs !! Z.to_nat (a - (f + Z.of_nat (List.length d))) = Some v).
Proof.
  destruct (Z.lt_ge_cases a (f + Z.of_nat (List.length d))) as [Hlt|Hge].
  - split.
    + intros [Hf H]. left. split; [done|]. by rewrite lookup_app_l in H by lia.
    + intros [[Hf H]|[H _]]; [|lia]. split; [done|]. by rewrite lookup_app_l by lia.
  - assert (Z.to_nat (a - f) - List.length d = Z.to_nat (a - (f + Z.of_nat (List.length d))))%nat as E by lia. split.
    + intros [Hf H]. right. split; [done|]. by rewrite lookup_app_r, E in H by lia.
    + intros [[Hf H]|[_ H]]; [apply lookup_lt_Some in H; lia|]. split; [lia|]. by rewrite lookup_app_r, E by lia.
Qed.

(** Adding a record behind all chunks. *)
Lemma add_record_cons address bs first d c :
  first + Z.of_nat (List.length d) <= address -> d <> [] -> bs <> [] ->
  (address = first + Z.of_nat (List.length d) -> c = []) ->
  add_record address bs ((first, d) :: c) =
    if address =? first + Z.of_nat (List.length d) then [(first, d ++ bs)] else (first, d) :: add_record address bs c.
Proof.
  intros Hle Hd Hbs Hend. apply length_pos in Hd, Hbs. unfold add_record. cbn [fuse].
  destruct (Z.eqb_spec address (first + Z.of_nat (List.length d))) as [E|E]; [by rewrite (Hend E)|].
  rewrite (proj2 (Z.eqb_neq _ _)) by lia. destruct (fuse address bs c); [done|]. cbn [om_set key_lt key_eqb Z_key].
  rewrite (proj2 (Z.ltb_ge _ _)), (proj2 (Z.eqb_neq _ _)) by lia. done.
Qed.

Lemma add_record_ascending lo c hi address bs : ascending lo c hi -> hi <= address -> bs <> [] ->
  ascending lo (add_record address bs c) (address + Z.of_nat (List.length bs)) /\
  forall a v, holds (add_record address bs c) a v <-> holds c a v \/ (address <= a /\ bs !! Z.to_nat (a - address) = Some v).
Proof.
  intros Hc Ha Hbs. revert lo Hc; induction c as [|[f d] c IH]; intros lo Hc.
  - simpl in Hc. split; [split_and!; [lia|done|simpl; lia]|]. intros a v. unfold add_record. cbn [fuse om_set].
    rewrite holds_cons. cbn. tauto.
  - destruct Hc as (H1 & H2 & Hc). pose proof (ascending_le _ _ _ Hc) as Hle.
    rewrite add_record_cons; [|lia|done|done|].
    2: { intros E. apply (ascending_end _ _ _ Hc). lia. }
    destruct (IH _ Hc) as [IH1 IH2]. destruct (Z.eqb_spec address (f + Z.of_nat (List.length d))) as [E|E].
    + apply ascending_end in Hc; [|lia]. subst c. split.
      * split_and!; [done|by destruct d|]. simpl. rewrite length_app. lia.
      * intros a v. rewrite !holds_cons, lookup_append, <- E, holds_nil. tauto.
    + split; [by split_and!|]. intros a v. rewrite !holds_cons, IH2. tauto.
Qed.

(** The data records of a file with their addresses. *)
Fixpoint placed (base : Z) (rs : list record) : list (Z * list Z) :=
  match rs with
  | [] => []
  | r :: rs' =>
      match r with
      | Data low bytes => (u32 (low + base), bytes) :: placed base rs'
      | _ => placed (base_after r base) rs'
      end
  end.

Lemma apply_records_ascending rs base c lo hi mid :
  ascending lo c mid -> ascending mid (placed base rs) hi ->
  ascending lo (snd (apply_records rs (base, c))) hi /\
  forall a v, holds (snd (apply_records rs (base, c))) a v <-> holds c a v \/ holds (placed base rs) a v.
Proof.
  revert base c mid; induction rs as [|r rs IH]; intros base c mid Hc Hp.
  - simpl in *. split; [|intros a v; rewrite holds_nil; tauto].
    clear -Hc Hp. revert lo Hc; induction c as [|[f d] c IH]; intros lo Hc; simpl in *; [lia|]. naive_solver.
  - destruct r as [low d|high|high|b0 b1 b2 b3].
    2-4: exact (IH _ c mid Hc Hp).
    destruct Hp as (H1 & H2 & Hp). destruct (add_record_ascending _ _ _ _ _ Hc H1 H2) as [Ha Hh].
    destruct (IH base _ _ Ha Hp) as [IH1 IH2]. split; [exact IH1|]. intros a v.
    change (apply_records (Data low d :: rs) (base, c)) with (apply_records rs (base, add_record (u32 (low + base)) d c)).
    rewrite IH2, Hh. cbn [placed]. rewrite holds_cons. tauto.
Qed.

(** C35: the reader understands a file whose data records come in ascending
    order without overlap, each with at least one byte: it returns chunks, one
    after the other, that hold exactly the bytes of the data records at their
    addresses, each the offset of the record added to the base that the last
    extended address record before it selects.  Records with a start linear
    address (type 5) are skipped, and nothing is read behind the end of file
    record.  (A record with a start segment address, type 3, is rejected as
    unknown.  Out of order, a record that ends where a chunk begins would be
    misplaced.) *)
Theorem read_hex_file_roundtrip uninitialized rs t hi : Forall record_ok rs -> ascending 0 (placed 0 rs) hi ->
  exists c, read_hex_file uninitialized (hex_file rs ++ t) = Some (inl c) /\ ascending 0 c hi /\
    forall a v, holds c a v <-> holds (placed 0 rs) a v.
Proof.
  intros Hok Hp. destruct (apply_records_ascending rs 0 [] 0 hi 0 ltac:(done) Hp) as [Ha Hh].
  exists (snd (apply_records rs (0, []))). split; [by apply read_records|]. split; [exact Ha|].
  intros a v. rewrite Hh, holds_nil. tauto.
Qed.

Definition sample_file : list record := [LinearAddress 1; Data 16 [1; 2; 255]; StartAddress 0 1 0 0; Data 19 [7]; SegmentAddress 8192; Data 4096 [9]].

Lemma read_hex_file_roundtrip_witness :
  exists c, read_hex_file 0 (hex_file sample_file) = Some (inl c) /\ holds c 65555 7 /\ holds c 135168 9.
Proof.
  destruct (read_hex_file_roundtrip 0 sample_file [] 135169) as (c & Hc & _ & H).
  - unfold sample_file, record_ok, byte. repeat constructor; simpl; lia.
  - simpl. split_and!; try done; lia.
  - exists c. rewrite app_nil_r in Hc. split; [exact Hc|]. split; apply H; [exists (65555, [7])|exists (135168, [9])];
      (split; [repeat first [apply list_elem_of_here|apply list_elem_of_further]|split; [simpl; lia|reflexivity]]).
Defined.

(** A record with a start segment address is not known, wherever it stands. *)
Lemma start_segment_rejected uninitialized rs l t : Forall record_ok rs -> Forall byte l -> List.length l = 4%nat ->
  read_hex_file uninitialized (mjoin (List.map line rs) ++ record_line 3 0 l ++ t) = Some (inr unknown_record).
Proof.
  intros H Hl Hlen. unfold read_hex_file. set (st0 := mkHex _ 0 []).
  destruct (lines_run uninitialized rs (record_line 3 0 l ++ t) st0 H) as (st & E & Hat & _); [split; [done|by left]|].
  rewrite (loop_run_inr _ _ (S (List.length rs)) _ (inr unknown_record : hex_result)); [done| |].
  { rewrite length_app. pose proof (lines_length rs). lia. }
  rewrite run_S, E. rewrite record_line_eq, Hlen, <- ?app_comm_cons, <- ?app_assoc in Hat.
  by rewrite (header_step _ 3 0 4 _ _ ltac:(unfold byte; lia) ltac:(unfold byte; lia) ltac:(lia) Hat).
Qed.

(** A data line whose checksum is not the one of its bytes is rejected,
    wherever it stands. *)
Theorem bad_checksum_rejected uninitialized rs low d check t :
  Forall record_ok rs -> record_ok (Data low d) -> byte check ->
  check <> (- total (Z.of_nat (List.length d) :: low / 256 :: low mod 256 :: 0 :: d)) mod 256 ->
  read_hex_file uninitialized
    (mjoin (List.map line rs) ++
     58 :: hex8 (Z.of_nat (List.length d)) ++ hex8 (low / 256) ++ hex8 (low mod 256) ++ hex8 0 ++ hex_bytes d ++ hex8 check ++ t)
  = Some (inr wrong_checksum).
Proof.
  intros H (Hl & Hd & Hn) Hc Hne. unfold read_hex_file. set (bad := 58 :: _). set (st0 := mkHex _ 0 []).
  destruct (lines_run uninitialized rs bad st0 H) as (st & E & Hat & _); [split; [done|by left]|].
  rewrite (loop_run_inr _ _ (S (List.length rs)) _ (inr wrong_checksum : hex_result)); [done| |].
  { rewrite length_app. pose proof (lines_length rs). lia. }
  rewrite run_S, E. assert (byte (Z.of_nat (List.length d))) as Hb by (unfold byte; lia). subst bad.
  rewrite (header_step _ 0 low _ _ _ Hb ltac:(unfold byte; lia) Hl Hat). cbv zeta. rewrite Nat2Z.id.
  rewrite (reads_data d) by (done || apply byte_u8). rewrite (reads_uint8 check Hc).
  rewrite u8_id by exact Hc. rewrite u8_add_l, complement_u8.
  destruct (Z.eqb_spec check ((- (Z.of_nat (List.length d) + low / 256 + low mod 256 + 0 + total d)) mod 256)) as [E'|]; [|done].
  exfalso. apply Hne. rewrite E'. do 2 f_equal. cbn [total]. lia.
Qed.

Lemma bad_checksum_rejected_witness :
  read_hex_file 0 (58 :: hex8 2 ++ hex8 0 ++ hex8 16 ++ hex8 0 ++ hex_bytes [1; 2] ++ hex8 17 ++ []) = Some (inr wrong_checksum).
Proof.
  apply (bad_checksum_rejected 0 [] 16 [1; 2] 17 []); [constructor| |unfold byte; lia|vm_compute; congruence].
  unfold record_ok, byte. repeat constructor; simpl; lia.
Defined.

(** * The pages of a firmware

    Every byte of a chunk lands on its page at its offset; what no chunk covers
    is zero.  With the reader: the pages of a file hold the bytes of
    its records. *)

(** The byte of an address. *)
Definition byte_at (pages : chunks) (a : Z) : option Z :=
  match om_find (a / page_size) pages with
  | Some p => p !! Z.to_nat (a mod page_size)
  | None => None
  end.

Definition sizes_ok (pages : chunks) : Prop :=
  Forall (fun kv => Z.of_nat (List.length (snd kv)) = page_size) pages.

(** An address that was not written keeps its byte, or is a zero of a new page. *)
Definition kept (before after : chunks) (a : Z) : Prop :=
  byte_at after a = byte_at before a \/ (byte_at before a = None /\ byte_at after a = Some 0).

(** The first [n] bytes of [d] have been written from [address] on. *)
Definition written (address : Z) (d : list Z) (n : Z) (before after : chunks) : Prop :=
  forall a, 0 <= a ->
    (address <= a < address + n -> byte_at after a = d !! Z.to_nat (a - address)) /\
    (~ (address <= a < address + n) -> kept before after a).

Lemma copy_at_length page b l : (b + List.length l <= List.length page)%nat ->
  List.length (copy_at page b l) = List.length page.
Proof. intros H. unfold copy_at. rewrite !length_app, length_take, length_drop. lia. Qed.

Lemma copy_at_lookup page b l j : (b + List.length l <= List.length page)%nat ->
  copy_at page b l !! j = if (b <=? j)%nat && (j <? b + List.length l)%nat then l !! (j - b)%nat else page !! j.
Proof.
  intros H. unfold copy_at. destruct (Nat.leb_spec b j); simpl.
  - rewrite lookup_app_r by (rewrite length_take; lia). rewrite length_take, Nat.min_l by lia.
    destruct (Nat.ltb_spec j (b + List.length l)).
    + by rewrite lookup_app_l by lia.
    + rewrite lookup_app_r by lia. rewrite lookup_drop. f_equal. lia.
  - rewrite lookup_app_l by (rewrite length_take; lia). by rewrite lookup_take_lt by lia.
Qed.

(** Two addresses of the same page. *)
Lemma page_mod a : a = page_size * (a / page_size) + a mod page_size /\ 0 <= a mod page_size < page_size.
Proof. split; [apply Z.div_mod|apply Z.mod_pos_bound]; done. Qed.

Section Chunk.
Variables (address : Z) (d : list Z) (before : chunks).
Hypothesis address_range : 0 <= address /\ address + Z.of_nat (List.length d) < 4294967296.

(** The page of the turn at [i] and what the turn copies there. *)
Lemma page_step_eq i pages : 0 <= i <= Z.of_nat (List.length d) ->
  let n := Z.min (page_size - (address + i) mod page_size) (Z.of_nat (List.length d) - i) in
  let page := match om_find ((address + i) / page_size) pages with Some p => p | None => replicate (Z.to_nat page_size) 0 end in
  let pages' := om_set ((address + i) / page_size)
    (copy_at page (Z.to_nat ((address + i) mod page_size)) (take (Z.to_nat n) (drop (Z.to_nat i) d))) pages in
  page_step address d (i, pages) = if i + n <? Z.of_nat (List.length d) then inl (i + n, pages') else inr pages'.
Proof.
  intros Hi n page pages'. unfold page_step. destruct (page_mod (address + i)) as [_ Hm]. unfold page_size in *.
  rewrite !(u32_id (address + i)), (u32_id (Z.of_nat _)) by lia.
  rewrite (u32_id (2048 - _)), (u32_id (_ - i)) by lia. fold n. rewrite u32_id by lia. reflexivity.
Qed.

(** What the turn at [i] writes, and what it keeps. *)
Lemma page_turn i pages : 0 <= i <= Z.of_nat (List.length d) -> sizes_ok pages ->
  let n := Z.min (page_size - (address + i) mod page_size) (Z.of_nat (List.length d) - i) in
  let page := match om_find ((address + i) / page_size) pages with Some p => p | None => replicate (Z.to_nat page_size) 0 end in
  let pages' := om_set ((address + i) / page_size)
    (copy_at page (Z.to_nat ((address + i) mod page_size)) (take (Z.to_nat n) (drop (Z.to_nat i) d))) pages in
  sizes_ok pages' /\ forall a, 0 <= a ->
    (address + i <= a < address + i + n -> byte_at pages' a = d !! Z.to_nat (a - address)) /\
    (~ (address + i <= a < address + i + n) -> kept pages pages' a).
Proof.
  intros Hi Hs n page pages'. destruct (page_mod (address + i)) as [Ha Hm].
  assert (Z.of_nat (List.length page) = page_size) as Hp.
  { subst page. destruct (om_find _ pages) eqn:E; [exact (om_find_Forall (fun p => Z.of_nat (List.length p) = page_size) _ _ _ Hs E)|]. by rewrite length_replicate. }
  set (b := Z.to_nat ((address + i) mod page_size)) in *.
  set (l := take (Z.to_nat n) (drop (Z.to_nat i) d)) in *.
  assert (Z.of_nat (List.length l) = n) as Hl by (subst l; rewrite length_take, length_drop; lia).
  assert (b + List.length l <= List.length page)%nat as Hfit by lia.
  split.
  { apply om_set_Forall; [|done]. simpl. by rewrite copy_at_length. }
  intros a Ha0. destruct (page_mod a) as [Hqa Hra].
  destruct (Z.eq_dec (a / page_size) ((address + i) / page_size)) as [Hq|Hq].
  - rewrite Hq in Hqa.
    assert (byte_at pages' a = copy_at page b l !! Z.to_nat (a mod page_size)) as Hb
      by (unfold byte_at; subst pages'; by rewrite Hq, om_find_set).
    rewrite copy_at_lookup in Hb by done. split; intros Hr.
    + rewrite Hb, (proj2 (Nat.leb_le _ _)), (proj2 (Nat.ltb_lt _ _)) by lia. simpl. subst l.
      rewrite lookup_take_lt, lookup_drop by lia. f_equal. lia.
    + assert (byte_at pages' a = page !! Z.to_nat (a mod page_size)) as Hk.
      { rewrite Hb. destruct (Nat.leb_spec b (Z.to_nat (a mod page_size))); [|done].
        rewrite (proj2 (Nat.ltb_ge _ _)) by lia. done. }
      unfold kept. rewrite Hk. unfold byte_at. rewrite Hq. subst page. destruct (om_find _ pages); [by left|right].
      split; [done|]. apply lookup_replicate_2. lia.
  - assert (byte_at pages' a = byte_at pages a) as Hb by (unfold byte_at; subst pages'; by rewrite om_find_set_ne).
    split; [|by left]. unfold page_size in *. intros Hr. lia.
Qed.

Lemma kept_trans p1 p2 p3 a : kept p1 p2 a -> kept p2 p3 a -> kept p1 p3 a.
Proof. unfold kept. intros [->|[-> ->]] [->|[? ->]]; auto; by right. Qed.

Lemma kept_refl p a : kept p p a.
Proof. by left. Qed.

(** The loop has written the bytes before the index. *)
Definition pages_inv (s : Z * chunks) : Prop :=
  0 <= fst s <= Z.of_nat (List.length d) /\ sizes_ok (snd s) /\ written address d (fst s) before (snd s).

Lemma page_step_ok s : pages_inv s ->
  match page_step address d s with
  | inl s' => pages_inv s' /\ Z.of_nat (List.length d) - fst s' < Z.of_nat (List.length d) - fst s
  | inr pages => sizes_ok pages /\ written address d (Z.of_nat (List.length d)) before pages
  end.
Proof.
  destruct s as [i pages]. intros (Hi & Hs & Hw). simpl in Hi, Hs, Hw. rewrite page_step_eq by done. cbv zeta.
  destruct (page_turn i pages Hi Hs) as [Hs' Ht]. destruct (page_mod (address + i)) as [_ Hm].
  set (n := Z.min _ _) in *. set (pages' := om_set _ _ _) in *.
  assert (written address d (i + n) before pages') as Hw'.
  { intros a Ha. destruct (Hw a Ha) as [Hin Hout], (Ht a Ha) as [Tin Tout]. split; intros Hr.
    - destruct (Z.lt_ge_cases a (address + i)) as [Hlt|Hge]; [|apply Tin; lia].
      destruct (Tout ltac:(lia)) as [->|[Hn _]]; [apply Hin; lia|]. rewrite Hin in Hn by lia.
      apply lookup_ge_None in Hn. lia.
    - eapply kept_trans; [apply Hout; lia|apply Tout; lia]. }
  destruct (Z.ltb_spec (i + n) (Z.of_nat (List.length d))).
  - simpl. split; [|lia]. split_and!; simpl; try done; lia.
  - split; [done|]. by replace (Z.of_nat (List.length d)) with (i + n) by lia.
Qed.

Lemma chunk_pages_ok : sizes_ok before ->
  exists pages, chunk_pages address d before = Some pages /\ sizes_ok pages /\
    written address d (Z.of_nat (List.length d)) before pages.
Proof.
  intros Hs. unfold chunk_pages.
  destruct (loop_ends (page_step address d) pages_inv
     (fun pages => sizes_ok pages /\ written address d (Z.of_nat (List.length d)) before pages)
     (fun s => Z.of_nat (List.length d) - fst s) page_step_ok (Z.to_pos (Z.of_nat (List.length d) + 1)) (0, before))
    as (pages & Hp & H).
  - intros s (H & _ & _). lia.
  - split_and!; simpl; [lia|lia|done|]. intros a Ha. split; [lia|]. intros _. apply kept_refl.
  - simpl. lia.
  - rewrite Hp. eauto.
Qed.
End Chunk.

(** Chunks that do not overlap, in any order. *)
Definition in_chunk (a : Z) (c : Z * list Z) : Prop := fst c <= a < fst c + Z.of_nat (List.length (snd c)).
Definition chunk_range (c : Z * list Z) : Prop := 0 <= fst c /\ fst c + Z.of_nat (List.length (snd c)) < 4294967296.
Fixpoint disjoint (l : chunks) : Prop :=
  match l with
  | [] => True
  | c :: l' => (forall a, in_chunk a c -> Forall (fun c' => ~ in_chunk a c') l') /\ disjoint l'
  end.

Lemma all_pages_ok l before : Forall chunk_range l -> disjoint l -> sizes_ok before ->
  exists pages, all_pages l before = Some pages /\ sizes_ok pages /\ forall a, 0 <= a ->
    (forall c, c ∈ l -> in_chunk a c -> byte_at pages a = snd c !! Z.to_nat (a - fst c)) /\
    (Forall (fun c => ~ in_chunk a c) l -> kept before pages a).
Proof.
  intros Hr; revert before; induction Hr as [|[address d] l Hc Hr IH]; intros before Hd Hs.
  { exists before. split_and!; [done|done|]. intros a Ha. split; [|intros; apply kept_refl].
    intros c Hin. by apply elem_of_nil in Hin. }
  destruct Hd as [Hdis Hd]. destruct (chunk_pages_ok address d before Hc Hs) as (p1 & E1 & Hs1 & Hw1).
  destruct (IH p1 Hd Hs1) as (p2 & E2 & Hs2 & Hw2). exists p2. cbn [all_pages]. rewrite E1. split_and!; [done|done|].
  intros a Ha. destruct (Hw1 a Ha) as [Hin Hout], (Hw2 a Ha) as [Hin2 Hout2]. split.
  - intros c Hc' Hina. apply elem_of_cons in Hc' as [->|Hc']; [|by apply Hin2].
    pose proof (Hdis a Hina) as Hno. unfold in_chunk in Hina. simpl in Hina |- *.
    destruct (Hout2 Hno) as [->|[Hn _]]; [by apply Hin|]. rewrite Hin in Hn by done. apply lookup_ge_None in Hn. lia.
  - intros Hno. apply Forall_cons_1 in Hno as [Hn1 Hno]. eapply kept_trans; [by apply Hout|by apply Hout2].
Qed.

Lemma ascending_chunks lo c hi : 0 <= lo -> hi < 4294967296 -> ascending lo c hi -> Forall chunk_range c /\ disjoint c /\
  Forall (fun ch => lo <= fst ch) c.
Proof.
  intros Hlo Hhi; revert lo Hlo; induction c as [|[f d] c IH]; intros lo Hlo H; [done|].
  destruct H as (H1 & H2 & H). destruct (IH (f + Z.of_nat (List.length d)) ltac:(lia) H) as (I1 & I2 & I3).
  apply ascending_le in H. split_and!.
  - constructor; [|done]. unfold chunk_range. simpl. lia.
  - split; [|done]. intros a Ha. eapply Forall_impl; [exact I3|]. intros [f' d'] Hf Ha'. unfold in_chunk in *. simpl in *. lia.
  - constructor; [done|]. eapply Forall_impl; [exact I3|]. intros [f' d'] Hf. simpl in *. lia.
Qed.

(** The pages of a firmware file whose records ascend without overlap hold
    every byte of its records at its address, and zeros around them. *)
Lemma firmware_pages uninitialized rs t hi :
  Forall record_ok rs -> ascending 0 (placed 0 rs) hi -> hi < 4294967296 ->
  exists pages, extract_pages_from_hex uninitialized (hex_file rs ++ t) = Some (inl pages) /\ sizes_ok pages /\
    forall a, 0 <= a ->
      (forall v, holds (placed 0 rs) a v -> byte_at pages a = Some v) /\
      ((forall v, ~ holds (placed 0 rs) a v) -> byte_at pages a = None \/ byte_at pages a = Some 0).
Proof.
  intros Hok Hp Hhi. destruct (apply_records_ascending rs 0 [] 0 hi 0 ltac:(done) Hp) as [Ha Hh].
  set (c := snd (apply_records rs (0, []))) in *.
  destruct (ascending_chunks 0 c hi ltac:(lia) Hhi Ha) as (Hr & Hd & _).
  destruct (all_pages_ok c [] Hr Hd) as (pages & Hpages & Hs & Hb); [constructor|].
  exists pages. unfold extract_pages_from_hex. rewrite read_records by done. fold c. rewrite Hpages.
  split_and!; [done|done|]. intros a Ha0. destruct (Hb a Ha0) as [Hin Hout]. split.
  - intros v Hv. assert (holds c a v) as (ch & Hch & Hle & Hl) by (apply Hh; by right).
    rewrite (Hin ch Hch); [done|]. apply lookup_lt_Some in Hl. unfold in_chunk. lia.
  - intros Hno. destruct (Hout) as [->|[_ ->]]; [|by left|by right]. apply Forall_forall. intros ch Hch Hi.
    unfold in_chunk in Hi. destruct (lookup_lt_is_Some_2 (snd ch) (Z.to_nat (a - fst ch))) as [v Hv]; [lia|].
    apply (Hno v). assert (holds c a v) as Hc by (exists ch; split_and!; [done|lia|done]).
    apply Hh in Hc as [(ch' & Hn & _)|Hc]; [by apply elem_of_nil in Hn|done].
Qed.

(** Records in descending order are not put together: the chunk that a record
    continues at its front keeps its address. *)
Lemma head_fusion_misplaced uninitialized : exists pages,
  extract_pages_from_hex uninitialized (hex_file [Data 16 [1; 2]; Data 14 [8; 9]]) = Some (inl pages) /\
  byte_at pages 16 = Some 8 /\ byte_at pages 14 = Some 0.
Proof. eexists. split; [vm_compute; reflexivity|]. split; reflexivity. Qed.
