(* ===== verification/Upgrade.v ===== *)
(** * The firmware upgrade

    thymio-device-manager/thymio2_fwupgrade_impl.cpp: the upload of the pages
    to the bootloader of a robot.  The device behind the handle (a serial port
    or an USB device) is a parameter; sleeping and logging are left out. *)
From Stdlib Require Import ZArith Lia List.
From stdpp Require Import base list list_monad.
From S2P Require Import Prelude Consts OrdMap Bits Target Utils UtilsSpec Buffer MsgClasses Msg MsgSpec Frame HexFile.

Local Open Scope Z_scope.

(** What the operating system offers on a handle.  A transfer gives an error
    flag, the bytes or their number, and the state of the device after it. *)
Class Device (D : Type) : Type := {
  dev_write : D -> list Z -> bool * Z * D;
  dev_read : D -> nat -> bool * list Z * D;
  dev_flush : D -> D;
  dev_reset : D -> D;
  dev_close : D -> D;
  dev_open : D -> bool * D
}.

(** What the callback reports. *)
Inductive callback : Type :=
| Progress (page size : Z)
| Complete
| Failed.

Section Upgrade.
Context {D : Type} `{Device D}.

(** [write(handle, msg)]. *)
Definition write_msg (h : D) (m : Message) : res runtime_error (bool * D) :=
  bytes ← write_buffer m;
  let '(err, _, h) := dev_write h bytes in
  Ok (err, dev_flush h).

(** [read_ack]: [false] is success. *)
Definition read_ack (h : D) : bool * D :=
  let '(err, buffer, h) := dev_read h 8 in
  if err then (true, h)
  else
    match buffer with
    | [_; _; _; _; b4; b5; _; _] => (negb (u16_of_bytes b4 b5 =? ASEBA_MESSAGE_BOOTLOADER_ACK), h)
    | _ => (true, h)
    end.

(** [get_node_id]. *)
Definition message_of (type : Z) (b : Body) : Message := mkMessage ASEBA_DEST_DEBUG type b.

Definition get_node_id (h : D) : res runtime_error (Z * D) :=
  '(_, h) ← write_msg h (message_of ASEBA_MESSAGE_GET_DESCRIPTION (GetDescription (GetDescription.mk ASEBA_PROTOCOL_VERSION)));
  '(err, h) ← write_msg h (message_of ASEBA_MESSAGE_LIST_NODES (ListNodes (ListNodes.mk ASEBA_PROTOCOL_VERSION)));
  if err : bool then Ok (0, h)
  else
    let '(err, buffer, h) := dev_read h 64 in
    if err then Ok (0, h)
    else
      match buffer with
      | _ :: _ :: b2 :: b3 :: _ :: _ :: _ => Ok (u16_of_bytes b2 b3, h)
      | _ => Ok (0, h)
      end.

(** The loop of [send_page] over [total]: every chunk is as long as the page or
    64 bytes, wherever it starts.  Reading behind the page is undefined. *)
Fixpoint send_chunks (fuel : nat) (h : D) (data : list Z) (total : Z) : res runtime_error (bool * D) :=
  match fuel with
  | O => NoFuel
  | S fuel' =>
      let size := Z.of_nat (List.length data) in
      if total <? size then
        let s := Z.min size 64 in
        if size <? total + s then Undef
        else
          let '(err, res_size, h) := dev_write h (take (Z.to_nat s) (drop (Z.to_nat total) data)) in
          if err then Ok (true, h) else send_chunks fuel' (dev_flush h) data (total + res_size)
      else Ok (false, h)
  end.

Definition send_page (h : D) (dest page : Z) (data : list Z) : res runtime_error (bool * D) :=
  let m := message_of ASEBA_MESSAGE_BOOTLOADER_WRITE_PAGE
             (BootloaderWritePage (BootloaderWritePage.mk (CmdMessage.mk (u16 dest)) (u16 page))) in
  '(_, h) ← write_msg h m;
  '(err, h) ← send_chunks (S (List.length data)) h data 0;
  if err : bool then Ok (true, h) else Ok (read_ack h).

(** [try_make_serial_device]: [retries] more attempts after a first one. *)
Fixpoint try_open (retries : nat) (h : D) : bool * D :=
  match dev_open h with
  | (true, h) => match retries with O => (true, h) | S n => try_open n h end
  | (false, h) => (false, h)
  end.

Definition try_make_serial_device (h : D) : bool * D := try_open 1001 h.

(** The variables of the upload: the next page from the end, the handle, the
    callbacks made, and the indices of the pages that were acknowledged, which
    the code does not keep. *)
Record upload : Type := mkUpload { page : nat; handle : D; calls : list callback; acked : list nat }.

Section Pages.
Variable data : list (Z * list Z).

(** One turn of the inner loop, and what follows its end: with [reopen] (the
    serial port) the handle is closed and opened again after a failure. *)
Definition upload_step (reopen : bool) (s : upload) : upload + res runtime_error upload :=
  if (page s <? List.length data)%nat then
    let i := (List.length data - page s - 1)%nat in
    match data !! i with
    | None => inr Crash
    | Some (number, bytes) =>
        match send_page (handle s) 1 number bytes with
        | Ok (false, h) =>
            inl (mkUpload (S (page s)) h (calls s ++ [Progress (Z.of_nat (page s)) (Z.of_nat (List.length data))]) (acked s ++ [i]))
        | Ok (true, h) =>
            if reopen then
              let '(err, h) := try_make_serial_device (dev_close h) in
              if err then inr (Ok (mkUpload (page s) h (calls s ++ [Failed]) (acked s)))
              else inl (mkUpload (page s) h (calls s) (acked s))
            else inl (mkUpload (page s) h (calls s) (acked s))
        | Throw e => inr (Throw e)
        | Crash => inr Crash
        | Undef => inr Undef
        | NoFuel => inr NoFuel
        end
    end
  else
    match write_msg (handle s) (message_of ASEBA_MESSAGE_BOOTLOADER_RESET (BootloaderReset (CmdMessage.mk ASEBA_DEST_INVALID))) with
    | Ok (_, h) =>
        let h := dev_reset h in
        let h := if reopen then dev_close h else h in
        inr (Ok (mkUpload (page s) h (calls s ++ [Complete]) (acked s)))
    | Throw e => inr (Throw e)
    | Crash => inr Crash
    | Undef => inr Undef
    | NoFuel => inr NoFuel
    end.

Definition upload_all (reopen : bool) (fuel : nat) (h : D) : res runtime_error upload :=
  match run (upload_step reopen) fuel (mkUpload 0 h [] []) with
  | inl _ => NoFuel
  | inr r => r
  end.

Definition reboot (h : D) (id : Z) : res runtime_error D :=
  '(_, h) ← write_msg h (message_of ASEBA_MESSAGE_REBOOT (Reboot (CmdMessage.mk id)));
  Ok h.

(** [upgrade_thymio2_usb_endpoint]. *)
Definition upgrade_usb (fuel : nat) (h : D) (id : Z) (no_reboot : bool) : res runtime_error upload :=
  h ← (if no_reboot then Ok h else reboot h id);
  let '(_, _, h) := dev_read (dev_reset h) 64 in
  upload_all false fuel h.

(** [upgrade_thymio2_serial_endpoint]. *)
Definition upgrade_serial (fuel : nat) (h : D) (id : Z) (no_reboot : bool) : res runtime_error upload :=
  let '(err, h) := try_make_serial_device h in
  if err then Ok (mkUpload 0 h [Failed] [])
  else if no_reboot then upload_all true fuel (dev_reset h)
  else
    '(id, h) ← (if id =? 0 then get_node_id h else Ok (id, h));
    h ← reboot h id;
    let '(_, _, h) := dev_read (dev_reset h) 64 in
    upload_all true fuel h.

End Pages.

(** [do_upgrade_thymio2_endpoint]: [f] is one of the two upgrades. *)
Definition do_upgrade (f : list (Z * list Z) -> D -> res runtime_error upload) (uninitialized : Z) (firmware : list Z) (h : D)
  : res runtime_error upload :=
  match extract_pages_from_hex uninitialized firmware with
  | Some (inl pages) => f pages h
  | Some (inr _) => Ok (mkUpload 0 h [Failed] [])
  | None => NoFuel
  end.

(** ** What an upload reports *)
Section Reports.
Variable data : list (Z * list Z).

(** The callbacks and the acknowledged pages after [n] pages. *)
Definition progress_upto (n : nat) : list callback :=
  List.map (fun p => Progress (Z.of_nat p) (Z.of_nat (List.length data))) (List.seq 0 n).
Definition acked_upto (n : nat) : list nat := List.map (fun p => List.length data - p - 1)%nat (List.seq 0 n).

Lemma acked_all : acked_upto (List.length data) = rev (List.seq 0 (List.length data)).
Proof.
  unfold acked_upto. induction (List.length data) as [|n IH]; [done|].
  change (List.seq 0 (S n)) with (0%nat :: List.seq 1 n) at 1. rewrite seq_S, rev_app_distr, <- IH, <- seq_shift.
  cbn [List.map rev app]. rewrite map_map. f_equal. lia.
Qed.

Definition upload_inv (s : upload) : Prop :=
  (page s <= List.length data)%nat /\ calls s = progress_upto (page s) /\ acked s = acked_upto (page s).

(** What an upload has reported when it returns: all pages and the end, or, for
    a serial port that cannot be opened again, some of the last pages. *)
Definition reported (reopen : bool) (s : upload) : Prop :=
  (calls s = progress_upto (List.length data) ++ [Complete] /\ acked s = rev (List.seq 0 (List.length data))) \/
  (reopen = true /\ exists n, (n < List.length data)%nat /\ calls s = progress_upto n ++ [Failed] /\ acked s = acked_upto n).

Lemma upload_step_inv reopen s : upload_inv s ->
  match upload_step data reopen s with
  | inl s' => upload_inv s'
  | inr (Ok s') => reported reopen s'
  | inr _ => True
  end.
Proof.
  intros (Hp & Hc & Ha). unfold upload_step. destruct (Nat.ltb_spec (page s) (List.length data)) as [Hlt|Hge].
  - destruct (data !! _) as [[number bytes]|]; [|done]. destruct (send_page _ _ _ _) as [[[] h]| | | |]; try done.
    + destruct reopen; [|done]. destruct (try_make_serial_device _) as [[] h']; [|done].
      right. split; [done|]. exists (page s). by rewrite <- Hc, <- Ha.
    + unfold upload_inv, progress_upto, acked_upto. cbn [page calls acked].
      rewrite !seq_S, !map_app, Hc, Ha. split_and!; [lia|done|done].
  - assert (page s = List.length data) as E by lia. rewrite E in *.
    destruct (write_msg _ _) as [[err h]| | | |]; try done. left. cbn [page calls acked]. by rewrite Hc, Ha, acked_all.
Qed.

Lemma run_reported reopen fuel s s' : upload_inv s -> run (upload_step data reopen) fuel s = inr (Ok s') -> reported reopen s'.
Proof.
  revert s. induction fuel as [|fuel IH]; intros s Hinv; [done|].
  cbn [run]. pose proof (upload_step_inv reopen s Hinv) as Hstep. destruct (upload_step data reopen s) as [s1|r]; [by apply IH|].
  by intros [= ->].
Qed.

Lemma upload_inv_init h : upload_inv (mkUpload 0 h [] []).
Proof. split_and!; simpl; [lia|done|done]. Qed.
End Reports.
End Upgrade.
