(* ===== verification/UpgradeSpec.v ===== *)
(** * The firmware upgrade ends

    What a device that fails finitely often is sent, and that its upgrade ends: a
    device that records its log is put around it, and the log is the protocol.
    Partial writes, which can lead behind the end of a page, are apart.  Also
    observations on devices that answer otherwise. *)
From Stdlib Require Import ZArith Lia List.
From stdpp Require Import base list list_monad.
From S2P Require Import Prelude Consts OrdMap Bits Target Utils UtilsSpec Buffer MsgClasses Msg MsgSpec Frame HexFile HexSpec Upgrade.

Local Open Scope Z_scope.

(** A device with a budget of failures: a transfer fails, or writes some bytes;
    a failure, also the absence of an acknowledgement, takes from the budget.
    [whole] says that no later write that succeeds is partial. *)
Class FiniteFailures (D : Type) `{Device D} : Type := {
  failures : D -> nat;
  whole : D -> Prop;
  write_law h bytes err n h' : bytes <> [] -> dev_write h bytes = (err, n, h') ->
    if err then (failures h' < failures h)%nat
    else (failures h' <= failures h)%nat /\ 1 <= n <= Z.of_nat (List.length bytes) /\ (whole h -> n = Z.of_nat (List.length bytes));
  read_law h n err bytes h' : dev_read h n = (err, bytes, h') -> (failures h' <= failures h)%nat;
  ack_law h h' : read_ack h = (true, h') -> (failures h' < failures h)%nat;
  flush_law h : (failures (dev_flush h) <= failures h)%nat;
  reset_law h : (failures (dev_reset h) <= failures h)%nat;
  close_law h : (failures (dev_close h) <= failures h)%nat;
  open_law h err h' : dev_open h = (err, h') -> (failures h' <= failures h)%nat;
  whole_write h bytes : whole h -> whole (snd (dev_write h bytes));
  whole_read h n : whole h -> whole (snd (dev_read h n));
  whole_flush h : whole h -> whole (dev_flush h);
  whole_reset h : whole h -> whole (dev_reset h);
  whole_close h : whole h -> whole (dev_close h);
  whole_open h : whole h -> whole (snd (dev_open h))
}.

(** An upload that returns has uploaded, and had acknowledged, every page
    once, from the last one down to the first, with one report of progress per
    page before the final one; a serial upload that gives up has done so for
    some of the last pages. *)
Theorem upload_complete {D : Type} `{Device D} data reopen fuel h s :
  upload_all data reopen fuel h = Ok s -> reported data reopen s.
Proof.
  unfold upload_all. destruct (run _ _ _) as [|r] eqn:E; [done|]. intros ->.
  eapply run_reported; [|exact E]. apply upload_inv_init.
Qed.

Section Ends.
Context {D : Type} `{FiniteFailures D}.

(** From [h] to [h']: no failure comes back, and writes stay whole. *)
Definition later (h h' : D) : Prop := (failures h' <= failures h)%nat /\ (whole h -> whole h').
Definition paid (h h' : D) : Prop := (failures h' < failures h)%nat /\ (whole h -> whole h').

#[local] Instance later_preorder : PreOrder later.
Proof. split; [by split|]. intros a b c [H1 H2] [H3 H4]. split; [lia|auto]. Qed.

Lemma later_paid a b c : later a b -> paid b c -> paid a c.
Proof. intros [H1 H2] [H3 H4]. split; [lia|auto]. Qed.
Lemma paid_later a b c : paid a b -> later b c -> paid a c.
Proof. intros [H1 H2] [H3 H4]. split; [lia|auto]. Qed.
Lemma paid_is_later a b : paid a b -> later a b.
Proof. intros [H1 H2]. split; [lia|auto]. Qed.

Lemma flush_later h : later h (dev_flush h).
Proof. split; [apply flush_law|apply whole_flush]. Qed.
Lemma reset_later h : later h (dev_reset h).
Proof. split; [apply reset_law|apply whole_reset]. Qed.
Lemma close_later h : later h (dev_close h).
Proof. split; [apply close_law|apply whole_close]. Qed.
Lemma open_later h err h' : dev_open h = (err, h') -> later h h'.
Proof. intros E. split; [by eapply open_law|]. pose proof (whole_open h) as Hw. by rewrite E in Hw. Qed.
Lemma read_later h n err bytes h' : dev_read h n = (err, bytes, h') -> later h h'.
Proof. intros E. split; [by eapply read_law|]. pose proof (whole_read h n) as Hw. by rewrite E in Hw. Qed.
Lemma write_later h bytes err n h' : bytes <> [] -> dev_write h bytes = (err, n, h') ->
  if err : bool then paid h h' else later h h' /\ 1 <= n <= Z.of_nat (List.length bytes) /\ (whole h -> n = Z.of_nat (List.length bytes)).
Proof.
  intros Hb E. pose proof (write_law _ _ _ _ _ Hb E) as Hl. pose proof (whole_write h bytes) as Hw. rewrite E in Hw.
  destruct err; [by split|]. destruct Hl as (? & ? & ?). by split; [split|].
Qed.

Lemma write_buffer_some m bytes : write_buffer m = Ok bytes -> bytes <> [].
Proof. unfold write_buffer. intros E. inv_ok. by unfold i32_bytes. Qed.

Lemma write_msg_ends h m bytes : write_buffer m = Ok bytes ->
  exists err h', write_msg h m = Ok (err, h') /\ later h h'.
Proof.
  intros E. unfold write_msg. rewrite E. cbn [mbind res_bind]. destruct (dev_write h bytes) as [[err n] h'] eqn:Hw.
  exists err, (dev_flush h'). split; [done|]. etransitivity; [|apply flush_later].
  apply write_later in Hw; [|by eapply write_buffer_some]. destruct err; [by apply paid_is_later|apply Hw].
Qed.

Lemma read_ack_ends h err h' : read_ack h = (err, h') -> if err : bool then paid h h' else later h h'.
Proof.
  intros E. assert (later h h') as Hl.
  { unfold read_ack in E. destruct (dev_read h 8) as [[e bytes] h1] eqn:Hr. apply read_later in Hr.
    destruct e; [by injection E as _ <-|]. do 8 (destruct bytes; [by injection E as _ <-|]). destruct bytes; by injection E as _ <-. }
  destruct err; [|done]. split; [by apply ack_law|apply Hl].
Qed.

Lemma try_open_later n h err h' : try_open n h = (err, h') -> later h h'.
Proof.
  revert h. induction n as [|n IH]; intros h; cbn [try_open]; destruct (dev_open h) as [[] h1] eqn:Ho; apply open_later in Ho.
  1, 2, 4: by intros [= _ <-].
  intros E. apply IH in E. by etransitivity.
Qed.

(** [W]: no write that succeeds is partial from some point on. *)
Section Partial.
Variable W : Prop.

(** A page of whole chunks is sent, or its failure is paid for; only a partial
    write leads behind its end. *)
Lemma send_chunks_ends fuel h data total :
  (exists c, List.length data = 64 * c)%nat -> 0 <= total <= Z.of_nat (List.length data) -> (W -> whole h /\ exists k, total = 64 * k) ->
  Z.of_nat (List.length data) - total < Z.of_nat fuel ->
  (exists err h', send_chunks fuel h data total = Ok (err, h') /\ if err : bool then paid h h' else later h h') \/
  (send_chunks fuel h data total = Undef /\ ~ W).
Proof.
  intros [c Hc]. revert h total. induction fuel as [|fuel IH]; intros h total Ht Hk Hf; cbn [send_chunks].
  { lia. }
  destruct (Z.ltb_spec total (Z.of_nat (List.length data))) as [Hlt|]; [|left; by exists false, h].
  rewrite (Z.min_r (Z.of_nat (List.length data)) 64) by lia.
  destruct (Z.ltb_spec (Z.of_nat (List.length data)) (total + 64)) as [Hover|Hfit].
  { right. split; [done|]. intros [_ [k Hk']]%Hk. lia. }
  destruct (dev_write h _) as [[err n] h1] eqn:Hw. apply write_later in Hw.
  2:{ intros E%(f_equal List.length). rewrite length_take, length_drop in E. cbn in E. lia. }
  destruct err; [left; by exists true, h1|]. destruct Hw as (Hl & Hn & Hwhole). rewrite length_take, length_drop in *.
  assert (later h (dev_flush h1)) as Hl1 by (etransitivity; [done|apply flush_later]).
  destruct (IH (dev_flush h1) (total + n)) as [(err & h' & E & Hb)|E]; [lia| |lia| |by right].
  - intros Hw. destruct (Hk Hw) as [Hh [k ->]]. split; [by apply Hl1|]. exists (k + 1). specialize (Hwhole Hh). lia.
  - left. exists err, h'. split; [exact E|]. destruct err; [by eapply later_paid|by etransitivity].
Qed.

Lemma send_page_ends h number data : (exists c, List.length data = 64 * c)%nat -> (W -> whole h) ->
  (exists err h', send_page h 1 number data = Ok (err, h') /\ if err : bool then paid h h' else later h h') \/
  (send_page h 1 number data = Undef /\ ~ W).
Proof.
  intros Hc Hw. unfold send_page.
  edestruct (write_msg_ends h) as (e1 & h1 & E1 & H1); [|rewrite E1; cbn [mbind res_bind]].
  { reflexivity. }
  destruct (send_chunks_ends (S (List.length data)) h1 data 0) as [(e2 & h2 & E2 & H2)|[E2 Hno]]; [done|lia| |lia| |rewrite E2; by right].
  { intros HW. split; [by apply H1, Hw|by exists 0]. }
  left. rewrite E2. cbn [mbind res_bind]. destruct e2; [exists true, h2; split; [done|by eapply later_paid]|].
  destruct (read_ack h2) as [e3 h3] eqn:E3. exists e3, h3. split; [done|]. apply read_ack_ends in E3.
  assert (later h h2) by by etransitivity. destruct e3; [by eapply later_paid|by etransitivity].
Qed.

(** ** The upload *)
Section Upload.
Variable data : list (Z * list Z).
Hypothesis chunked : Forall (fun p => exists c, List.length (snd p) = 64 * c)%nat data.

Definition left_over (s : upload (D:=D)) : Z := Z.of_nat (List.length data - page s) + Z.of_nat (failures (handle s)).

(** A result: the end of the upload, or of its patience with the port, or a
    partial write. *)
Definition ended (reopen : bool) (r : res runtime_error (upload (D:=D))) : Prop :=
  (exists s, r = Ok s /\ reported data reopen s) \/ (r = Undef /\ ~ W).

Definition upload_ok (s : upload (D:=D)) : Prop := upload_inv data s /\ (W -> whole (handle s)).

Lemma upload_turn reopen s : upload_ok s ->
  match upload_step data reopen s with
  | inl s' => upload_ok s' /\ left_over s' < left_over s
  | inr r => ended reopen r
  end.
Proof.
  intros [Hinv Hw]. pose proof (upload_step_inv data reopen s Hinv) as Hstep. unfold upload_step in *.
  destruct (Nat.ltb_spec (page s) (List.length data)) as [Hlt|Hge].
  - destruct (lookup_lt_is_Some_2 data (List.length data - page s - 1)) as [[number bytes] Hp]; [lia|]. rewrite Hp in *.
    rewrite Forall_lookup in chunked. specialize (chunked _ _ Hp).
    destruct (send_page_ends (handle s) number bytes chunked Hw) as [(err & h' & E & Hb)|[E Hno]]; rewrite E in *; [|by right]. destruct err.
    + destruct Hb as [Hb Hb']. destruct reopen; [|split; [split; [done|auto]|unfold left_over; simpl; lia]].
      destruct (try_make_serial_device _) as [e h2] eqn:Ho. destruct e; [left; by eexists|].
      apply try_open_later in Ho. destruct (close_later h') as [Hc Hc'], Ho as [Ho Ho'].
      split; [split; [done|cbn; auto]|unfold left_over; simpl; lia].
    + destruct Hb as [Hb Hb']. split; [split; [done|cbn; auto]|unfold left_over; simpl; lia].
  - edestruct (write_msg_ends (handle s)) as (e1 & h1 & E1 & _); [|rewrite E1 in *; left; by eexists]. reflexivity.
Qed.

Lemma upload_all_ends reopen h fuel : (W -> whole h) -> (List.length data + failures h < fuel)%nat ->
  ended reopen (upload_all data reopen fuel h).
Proof.
  intros Hw Hf. unfold upload_all.
  destruct (run_ends (upload_step data reopen) upload_ok (ended reopen) left_over (upload_turn reopen) fuel
    (mkUpload 0 h [] [])) as (r & E & Hr); [intros; unfold left_over; lia|split; [apply upload_inv_init|exact Hw]|unfold left_over; simpl; lia|].
  by rewrite E.
Qed.

Lemma reboot_ends h id : exists h', reboot h id = Ok h' /\ later h h'.
Proof.
  unfold reboot. edestruct (write_msg_ends h) as (e1 & h1 & E1 & H1); [|rewrite E1]; [reflexivity|].
  exists h1. split; [done|exact H1].
Qed.

Lemma enter_bootloader h n err bytes h' : dev_read (dev_reset h) n = (err, bytes, h') -> later h h'.
Proof. intros E%read_later. etransitivity; [apply reset_later|exact E]. Qed.

Lemma get_node_id_ends h : exists id h', get_node_id h = Ok (id, h') /\ later h h'.
Proof.
  unfold get_node_id.
  edestruct (write_msg_ends h) as (e1 & h1 & E1 & H1); [|rewrite E1]; [reflexivity|]. cbn [mbind res_bind].
  edestruct (write_msg_ends h1) as (e2 & h2 & E2 & H2); [|rewrite E2]; [reflexivity|]. cbn [mbind res_bind].
  assert (later h h2) as Hl by by etransitivity.
  destruct e2; [by exists 0, h2|]. destruct (dev_read h2 64) as [[e3 bytes] h3] eqn:E3. apply read_later in E3.
  assert (later h h3) by by etransitivity. destruct e3; [by exists 0, h3|].
  destruct bytes as [|? [|? [|b2 [|b3 [|? [|? ?]]]]]]; eexists _, h3; (split; [reflexivity|done]).
Qed.

(** An upgrade over USB completes. *)
Lemma upgrade_usb_completes h id no_reboot fuel : (W -> whole h) -> (List.length data + failures h < fuel)%nat ->
  (exists s, upgrade_usb data fuel h id no_reboot = Ok s /\
    calls s = progress_upto data (List.length data) ++ [Complete] /\ acked s = rev (List.seq 0 (List.length data))) \/
  (upgrade_usb data fuel h id no_reboot = Undef /\ ~ W).
Proof.
  intros Hw Hf. unfold upgrade_usb.
  assert (exists h1, (if no_reboot then Ok h else reboot h id) = Ok h1 /\ later h h1) as (h1 & E1 & H1)
    by (destruct no_reboot; [by exists h|apply reboot_ends]).
  rewrite E1. cbn [mbind res_bind]. destruct (dev_read (dev_reset h1) 64) as [[e b] h2] eqn:E2. apply enter_bootloader in E2.
  assert (later h h2) as [Hl Hl'] by by etransitivity.
  destruct (upload_all_ends false h2 fuel) as [(s & -> & [Hr|[[=] _]])|[-> Hno]]; [auto|lia|left; by exists s|by right].
Qed.

(** on such a device an upgrade over a serial port ends: it completes as
    over USB, or the port could not be opened (again) and it reports the
    failure last; or a partial write leads behind the end of a page. *)
Theorem upgrade_serial_ends h id no_reboot fuel : (W -> whole h) -> (List.length data + failures h < fuel)%nat ->
  (exists s, upgrade_serial data fuel h id no_reboot = Ok s /\
    (reported data true s \/ (fst (try_make_serial_device h) = true /\ calls s = [Failed] /\ acked s = []))) \/
  (upgrade_serial data fuel h id no_reboot = Undef /\ ~ W).
Proof.
  intros Hw Hf. unfold upgrade_serial. destruct (try_make_serial_device h) as [e h0] eqn:E0.
  destruct e; [left; eexists; split; [done|by right]|]. apply try_open_later in E0.
  assert (forall h', later h0 h' -> (exists s, upload_all data true fuel h' = Ok s /\ (reported data true s \/ (fst (false, h0) = true /\ calls s = [Failed] /\ acked s = []))) \/
    (upload_all data true fuel h' = Undef /\ ~ W)) as Hall.
  { intros h' [Hl Hl']. destruct E0 as [Hf0 Hw0]. destruct (upload_all_ends true h' fuel) as [(s & -> & Hr)|[-> Hno]]; [auto|lia|left; eauto|by right]. }
  destruct no_reboot; [apply Hall, reset_later|].
  assert (exists id' h1, (if id =? 0 then get_node_id h0 else Ok (id, h0)) = Ok (id', h1) /\ later h0 h1)
    as (id' & h1 & E1 & H1) by (destruct (id =? 0); [apply get_node_id_ends|by exists id, h0]).
  rewrite E1. cbn [mbind res_bind]. destruct (reboot_ends h1 id') as (h2 & E2 & H2). rewrite E2. cbn [mbind res_bind].
  destruct (dev_read (dev_reset h2) 64) as [[e b] h3] eqn:E3. apply enter_bootloader in E3. apply Hall.
  etransitivity; [exact H1|]. by etransitivity.
Qed.
End Upload.
End Partial.
End Ends.

(** ** What the device is sent

    A device that also writes down what is asked of it. *)
Inductive event : Type :=
| Wrote (bytes : list Z) (err : bool) (n : Z)
| Got (n : nat) (err : bool) (bytes : list Z)
| Flushed
| WasReset
| Closed
| Opened (err : bool).

Record traced {D : Type} : Type := mkTraced { inner : D; log : list event }.
Arguments traced : clear implicits.

Section Log.
Context {D : Type} `{FiniteFailures D}.

Definition note (h : traced D) (d : D) (x : event) : traced D := mkTraced D d (log h ++ [x]).

#[export] Instance traced_device : Device (traced D) := {
  dev_write h bytes := let '(err, n, d) := dev_write (inner h) bytes in (err, n, note h d (Wrote bytes err n));
  dev_read h n := let '(err, bytes, d) := dev_read (inner h) n in (err, bytes, note h d (Got n err bytes));
  dev_flush h := note h (dev_flush (inner h)) Flushed;
  dev_reset h := note h (dev_reset (inner h)) WasReset;
  dev_close h := note h (dev_close (inner h)) Closed;
  dev_open h := let '(err, d) := dev_open (inner h) in (err, note h d (Opened err))
}.

(** What [read_ack] accepts. *)
Definition is_ack (bytes : list Z) : bool :=
  match bytes with [_; _; _; _; b4; b5; _; _] => u16_of_bytes b4 b5 =? ASEBA_MESSAGE_BOOTLOADER_ACK | _ => false end.

Lemma read_ack_eq {T} `{Device T} (h : T) :
  read_ack h = let '(err, bytes, h') := dev_read h 8 in (err || negb (is_ack bytes), h').
Proof.
  unfold read_ack, is_ack. destruct (dev_read h 8) as [[[] bytes] h']; [done|].
  do 8 (destruct bytes; [done|]). by destruct bytes.
Qed.

#[export, program] Instance traced_finite : FiniteFailures (traced D) := {
  failures h := failures (inner h);
  whole h := whole (inner h)
}.
Next Obligation.
  intros h bytes err n h' Hb. cbn. destruct (dev_write (inner h) bytes) as [[e m] d] eqn:E. intros [= <- <- <-]. exact (write_law _ _ _ _ _ Hb E).
Qed.
Next Obligation. intros h n err bytes h'. cbn. destruct (dev_read (inner h) n) as [[e b] d] eqn:E. intros [= _ _ <-]. exact (read_law _ _ _ _ _ E). Qed.
Next Obligation.
  intros h h'. rewrite read_ack_eq. cbn. pose proof (ack_law (inner h)) as Ha. rewrite read_ack_eq in Ha.
  destruct (dev_read (inner h) 8) as [[e b] d]. intros [= He <-]. apply Ha. by rewrite He.
Qed.
Next Obligation. intros h. apply flush_law. Qed.
Next Obligation. intros h. apply reset_law. Qed.
Next Obligation. intros h. apply close_law. Qed.
Next Obligation. intros h err h'. cbn. destruct (dev_open (inner h)) as [e d] eqn:E. intros [= _ <-]. exact (open_law _ _ _ E). Qed.
Next Obligation. intros h bytes Hw. cbn. pose proof (whole_write _ bytes Hw). by destruct (dev_write (inner h) bytes) as [[? ?] ?]. Qed.
Next Obligation. intros h n Hw. cbn. pose proof (whole_read _ n Hw). by destruct (dev_read (inner h) n) as [[? ?] ?]. Qed.
Next Obligation. intros h. apply whole_flush. Qed.
Next Obligation. intros h. apply whole_reset. Qed.
Next Obligation. intros h. apply whole_close. Qed.
Next Obligation. intros h Hw. cbn. pose proof (whole_open _ Hw). by destruct (dev_open (inner h)) as [? ?]. Qed.

(** *** The protocol *)

(** A message of the upgrade on the wire: its length, no source, its type. *)
Definition command_frame (type : Z) (payload : list Z) : list Z :=
  u16_bytes (Z.of_nat (List.length payload)) ++ [0; 0] ++ u16_bytes type ++ payload.
Definition page_frame (number : Z) : list Z := command_frame ASEBA_MESSAGE_BOOTLOADER_WRITE_PAGE (u16_bytes 1 ++ u16_bytes number).
Definition reset_frame : list Z := command_frame ASEBA_MESSAGE_BOOTLOADER_RESET (u16_bytes ASEBA_DEST_INVALID).
Definition reboot_frame (id : Z) : list Z := command_frame ASEBA_MESSAGE_REBOOT (u16_bytes id).

(** Writes that succeeded, with the numbers of bytes that they took. *)
Definition chunk_events (ws : list (list Z * Z)) : list event := List.flat_map (fun w => [Wrote (fst w) false (snd w); Flushed]) ws.
Definition taken (ws : list (list Z * Z)) : list Z := List.flat_map (fun w => take (Z.to_nat (snd w)) (fst w)) ws.

(** A page that was sent and acknowledged: its number, then its bytes, all of
    them in order, and the answer. *)
Definition delivered (p : Z * list Z) (l : list event) : Prop :=
  exists e n ws ack, l = Wrote (page_frame (fst p)) e n :: Flushed :: chunk_events ws ++ [Got 8 false ack] /\
    taken ws = snd p /\ is_ack ack = true.

(** A page that was given up, at a write that failed or without an
    acknowledgement. *)
Definition attempted (p : Z * list Z) (l : list event) : Prop :=
  exists e n ws x, l = Wrote (page_frame (fst p)) e n :: Flushed :: chunk_events ws ++ [x] /\
    taken ws `prefix_of` snd p /\
    match x with Wrote _ err _ => err = true | Got n err b => n = 8%nat /\ (err = true \/ is_ack b = false) | _ => False end.

(** The last [n] pages of [data] were sent, from the last one down, each
    repeated until it was acknowledged. *)
Inductive sends (data : list (Z * list Z)) : nat -> list event -> Prop :=
| sends_nothing : sends data 0 []
| sends_again n l p l' : sends data n l -> data !! (List.length data - n - 1)%nat = Some p -> attempted p l' -> sends data n (l ++ l')
| sends_next n l p l' : sends data n l -> data !! (List.length data - n - 1)%nat = Some p -> delivered p l' -> sends data (S n) (l ++ l').

Lemma write_msg_log (h : traced D) m bytes err h' : write_buffer m = Ok bytes -> write_msg h m = Ok (err, h') ->
  exists n, log h' = log h ++ [Wrote bytes err n; Flushed].
Proof.
  intros E. unfold write_msg. rewrite E. cbn. destruct (dev_write (inner h) bytes) as [[e n] d]. intros [= <- <-]. exists n. cbn. by rewrite <- app_assoc.
Qed.

Lemma send_chunks_log fuel (h : traced D) data total err h' : 0 <= total -> 64 <= Z.of_nat (List.length data) ->
  send_chunks fuel h data total = Ok (err, h') ->
  exists ws l, log h' = log h ++ chunk_events ws ++ l /\ taken ws `prefix_of` drop (Z.to_nat total) data /\
    if err : bool then exists c n, l = [Wrote c true n] else l = [] /\ taken ws = drop (Z.to_nat total) data.
Proof.
  intros Ht Hl. revert h total Ht. induction fuel as [|fuel IH]; intros h total Ht; [done|]. cbn [send_chunks].
  destruct (Z.ltb_spec total (Z.of_nat (List.length data))) as [Hlt|Hge].
  2:{ intros [= <- <-]. exists [], []. rewrite app_nil_r. split_and!; [done|apply prefix_nil|done|]. by rewrite drop_ge by lia. }
  rewrite (Z.min_r (Z.of_nat (List.length data)) 64) by lia.
  destruct (Z.ltb_spec (Z.of_nat (List.length data)) (total + 64)) as [|Hfit]; [done|].
  cbn [dev_write traced_device]. set (c := take _ _). assert (List.length c = 64%nat) as Hc by (unfold c; rewrite length_take, length_drop; lia).
  destruct (dev_write (inner h) c) as [[e n] d] eqn:Ew. apply write_law in Ew; [|intros E; by rewrite E in Hc].
  destruct e. { intros [= <- <-]. exists [], [Wrote c true n]. split_and!; [done|apply prefix_nil|by exists c, n]. }
  destruct Ew as (_ & Hn & _). intros E. apply IH in E as (ws & l & Hlog & Hp & Hd); [|lia].
  assert (take (Z.to_nat n) c ++ drop (Z.to_nat (total + n)) data = drop (Z.to_nat total) data) as Hcut.
  { unfold c. rewrite take_take, Nat.min_l by lia. replace (Z.to_nat (total + n)) with (Z.to_nat total + Z.to_nat n)%nat by lia.
    rewrite <- drop_drop. apply take_drop. }
  exists ((c, n) :: ws), l. split_and!.
  - rewrite Hlog. cbn. by rewrite <- !app_assoc.
  - cbn. rewrite <- Hcut. by apply prefix_app.
  - destruct err; [done|]. destruct Hd as [-> Hd]. split; [done|]. rewrite <- Hcut. exact (f_equal (app (take (Z.to_nat n) c)) Hd).
Qed.

Lemma send_page_log (h : traced D) number data err h' : 64 <= Z.of_nat (List.length data) ->
  send_page h 1 number data = Ok (err, h') ->
  exists l, log h' = log h ++ l /\ if err : bool then attempted (number, data) l else delivered (number, data) l.
Proof.
  intros Hl. unfold send_page. set (m := message_of _ _).
  assert (write_buffer m = Ok (page_frame number)) as Em.
  { rewrite write_frame; [|by split; apply u16_range|done]. unfold frame, page_frame, command_frame. cbn. by rewrite u16_bytes_u16. }
  destruct (write_msg h m) as [[e1 h1]| | | |] eqn:E1; try done. destruct (write_msg_log _ _ _ _ _ Em E1) as [n1 Hn1]. cbn [mbind res_bind].
  destruct (send_chunks _ h1 data 0) as [[e2 h2]| | | |] eqn:E2; try done. apply send_chunks_log in E2 as (ws & l & Hn2 & Hp & Hd); [|lia|done]. cbn [mbind res_bind].
  cbn [Z.to_nat drop] in Hp, Hd. destruct e2.
  - intros [= <- <-]. destruct Hd as (c & n & ->). eexists. split; [rewrite Hn2, Hn1, <- app_assoc; reflexivity|]. by exists e1, n1, ws, (Wrote c true n).
  - destruct Hd as [-> Hd]. rewrite read_ack_eq. cbn. destruct (dev_read (inner h2) 8) as [[e3 b] d] eqn:E3. intros [= <- <-].
    eexists. split; [cbn; rewrite Hn2, Hn1, app_nil_r, <- !app_assoc; reflexivity|]. destruct e3; cbn [orb].
    + exists e1, n1, ws, (Got 8 true b). split_and!; [done|exact Hp|done|by left].
    + destruct (is_ack b) eqn:Eb; cbn [negb]; [by exists e1, n1, ws, b|]. exists e1, n1, ws, (Got 8 false b). split_and!; [done|exact Hp|done|by right].
Qed.

Section Upload.
Variable data : list (Z * list Z).
Hypothesis chunked : Forall (fun p => 64 <= Z.of_nat (List.length (snd p))) data.

Lemma upload_log l0 fuel (s : upload (D:=traced D)) l r : sends data (page s) l -> (page s <= List.length data)%nat -> log (handle s) = l0 ++ l ->
  run (upload_step data false) fuel s = inr (Ok r) ->
  exists l e n, sends data (List.length data) l /\ log (handle r) = l0 ++ l ++ [Wrote reset_frame e n; Flushed; WasReset].
Proof.
  revert s l. induction fuel as [|fuel IH]; intros s l Hs Hp Hlog; [done|]. cbn [run]. unfold upload_step at 1.
  destruct (Nat.ltb_spec (page s) (List.length data)) as [Hlt|Hge].
  - destruct (data !! (List.length data - page s - 1)%nat) as [[number bytes]|] eqn:Ep; [|done].
    destruct (send_page (handle s) 1 number bytes) as [[err h]| | | |] eqn:E; try done.
    apply send_page_log in E as (l' & Hl' & Hd); [|rewrite Forall_lookup in chunked; exact (chunked _ _ Ep)].
    destruct err; apply (IH _ (l ++ l')); cbn [page handle]; try lia; try (by rewrite Hl', Hlog, app_assoc).
    + by eapply sends_again.
    + by eapply sends_next.
  - assert (page s = List.length data) as Epage by lia. rewrite Epage in Hs.
    match goal with |- context [write_msg _ ?m] => assert (write_buffer m = Ok reset_frame) as Em by reflexivity;
      destruct (write_msg (handle s) m) as [[e h]| | | |] eqn:E; try done end.
    destruct (write_msg_log _ _ _ _ _ Em E) as [n Hn]. intros [= <-]. exists l, e, n. split; [done|].
    cbn. by rewrite Hn, Hlog, <- !app_assoc.
Qed.

(** What an upgrade over USB that completes asks of the device: the robot is told
    to reboot, reset and read from, all pages are sent, and the bootloader is
    told to leave. *)
Definition usb_protocol (id : Z) (no_reboot : bool) (events : list event) : Prop :=
  exists l0 l e1 b e n, sends data (List.length data) l /\
    (if no_reboot then l0 = [] else exists e0 n0, l0 = [Wrote (reboot_frame id) e0 n0; Flushed]) /\
    events = l0 ++ [WasReset; Got 64 e1 b] ++ l ++ [Wrote reset_frame e n; Flushed; WasReset].

Lemma upgrade_usb_log fuel (h : traced D) id no_reboot s : uint16 id -> upgrade_usb data fuel h id no_reboot = Ok s ->
  exists events, log (handle s) = log h ++ events /\ usb_protocol id no_reboot events.
Proof.
  intros Hid. unfold upgrade_usb. set (start := if no_reboot then Ok h else reboot h id).
  assert (forall h1, start = Ok h1 -> exists l0, log h1 = log h ++ l0 /\
    if no_reboot then l0 = [] else exists e0 n0, l0 = [Wrote (reboot_frame id) e0 n0; Flushed]) as Hstart.
  { intros h1. unfold start. destruct no_reboot; [intros [= <-]; exists []; by rewrite app_nil_r|]. unfold reboot.
    match goal with |- context [write_msg h ?m] => assert (write_buffer m = Ok (reboot_frame id)) as Em by (rewrite write_frame; done);
      destruct (write_msg h m) as [[e0 h0]| | | |] eqn:E; try done end.
    destruct (write_msg_log _ _ _ _ _ Em E) as [n0 Hn0]. intros [= <-]. eexists. split; [exact Hn0|]. by eexists _, _. }
  destruct start as [h1| | | |]; try done. destruct (Hstart h1 eq_refl) as (l0 & Hl0 & Hboot). cbn.
  destruct (dev_read (dev_reset (inner h1)) 64) as [[e1 b] d]. unfold upload_all. destruct (run _ _ _) as [|r] eqn:Er; [done|]. intros ->.
  apply (upload_log (log h ++ l0 ++ [WasReset; Got 64 e1 b]) _ _ []) in Er as (l & e & n & Hs & Hlog); [|constructor|cbn; lia|cbn; by rewrite Hl0, app_nil_r, <- !app_assoc].
  eexists. split; [rewrite Hlog, <- !app_assoc; reflexivity|]. by exists l0, l, e1, b, e, n.
Qed.
End Upload.
End Log.

Lemma whole_pages pages : sizes_ok pages -> Forall (fun p => exists c, List.length (snd p) = 64 * c)%nat pages.
Proof.
  intros Hs. eapply Forall_impl; [exact Hs|]. intros [i p] Hp. exists 32%nat. unfold page_size in Hp. simpl in *. lia.
Qed.

Lemma long_pages pages : sizes_ok pages -> Forall (fun p => 64 <= Z.of_nat (List.length (snd p))) pages.
Proof. intros Hs. eapply Forall_impl; [exact Hs|]. intros [i p] Hp. unfold page_size in Hp. simpl in *. lia. Qed.

(** C15: the upgrade over USB of a device that fails finitely often, with the text
    of a firmware whose records ascend without overlap.  The text is read, and
    its bytes are on the pages at their addresses with zeros around them.  If no
    write that succeeds is partial the upgrade completes: it has sent the pages
    from the last one to the first, each with its number and then its bytes, all
    of them in order, again and again until it is acknowledged, then told the
    bootloader to leave, and it reports one progress per page and completion
    last.  A message of the type of an acknowledgement counts, whatever error it
    carries.  A partial write can lead behind the end of a page; nothing else
    keeps the upgrade from completing. *)
Theorem firmware_upgrade {D : Type} `{FiniteFailures D} uninitialized rs t hi :
  Forall record_ok rs -> ascending 0 (placed 0 rs) hi -> hi < 4294967296 ->
  exists pages,
    (forall a, 0 <= a ->
      (forall v, holds (placed 0 rs) a v -> byte_at pages a = Some v) /\
      ((forall v, ~ holds (placed 0 rs) a v) -> byte_at pages a = None \/ byte_at pages a = Some 0)) /\
    forall (h : D) id no_reboot fuel, uint16 id -> (List.length pages + failures h < fuel)%nat ->
      let r := do_upgrade (fun pages h => upgrade_usb pages fuel h id no_reboot) uninitialized (hex_file rs ++ t) (mkTraced D h []) in
      (exists s, r = Ok s /\ calls s = progress_upto pages (List.length pages) ++ [Complete] /\
        acked s = rev (List.seq 0 (List.length pages)) /\ usb_protocol pages id no_reboot (log (handle s))) \/
      (r = Undef /\ ~ whole h).
Proof.
  intros Hok Hasc Hhi. destruct (firmware_pages uninitialized rs t hi Hok Hasc Hhi) as (pages & E & Hs & Hb).
  exists pages. split; [exact Hb|]. intros h id no_reboot fuel Hid Hf. unfold do_upgrade. rewrite E. cbv zeta.
  destruct (upgrade_usb_completes (whole h) pages (whole_pages _ Hs) (mkTraced D h []) id no_reboot fuel) as [(s & Es & Hc & Ha)|[Eu Hno]];
    [done|exact Hf| |by right].
  left. exists s. split_and!; [done..|]. apply upgrade_usb_log in Es as (l & -> & Hl); [exact Hl|by apply long_pages|done].
Qed.

(** ** A device *)

(** A bootloader that acknowledges what it can: it fails the next transfers of
    which [flaky] says so. *)
Record sample : Type := mkSample { flaky : list bool; code : Z }.

Definition sample_transfer (h : sample) : bool * sample :=
  match flaky h with
  | true :: l => (true, mkSample l (code h))
  | false :: l => (false, mkSample l (code h))
  | [] => (false, h)
  end.

#[global] Instance sample_device : Device sample := {
  dev_write h bytes := let '(err, h) := sample_transfer h in (err, Z.of_nat (List.length bytes), h);
  dev_read h n := let '(err, h) := sample_transfer h in (err, take n (frame (mkMessage 1 ASEBA_MESSAGE_BOOTLOADER_ACK
    (BootloaderAck (BootloaderAck.mk (code h) 0)))), h);
  dev_flush h := h;
  dev_reset h := h;
  dev_close h := h;
  dev_open h := (false, h)
}.

Definition sample_failures (h : sample) : nat := List.length (List.filter (fun b => b) (flaky h)).

Lemma sample_transfer_law h err h' : sample_transfer h = (err, h') ->
  if err then (sample_failures h' < sample_failures h)%nat else (sample_failures h' <= sample_failures h)%nat.
Proof. unfold sample_transfer, sample_failures. destruct (flaky h) as [|[] l] eqn:E; intros [= <- <-]; simpl; rewrite ?E; simpl; lia. Qed.

#[global, program] Instance sample_finite : FiniteFailures sample := { failures := sample_failures; whole _ := True }.
Next Obligation.
  intros h bytes err n h' Hb. simpl. destruct (sample_transfer h) as [e h1] eqn:E. apply sample_transfer_law in E.
  intros [= <- <- <-]. destruct e; [done|]. split_and!; [done|destruct bytes; [done|cbn; lia]|lia|done].
Qed.
Next Obligation.
  intros h n err bytes h'. simpl. destruct (sample_transfer h) as [e h1] eqn:E. apply sample_transfer_law in E.
  intros [= <- _ <-]. destruct e; lia.
Qed.
Next Obligation.
  intros h h'. unfold read_ack. simpl. destruct (sample_transfer h) as [e h1] eqn:E. apply sample_transfer_law in E.
  destruct e; [by intros [= <-]|]. unfold frame. simpl. by destruct (code h =? 2).
Qed.
Next Obligation. done. Qed.
Next Obligation. done. Qed.
Next Obligation. done. Qed.
Next Obligation. by intros h err h' [= _ <-]. Qed.
Solve Obligations with done.

Definition sample_pages : list (Z * list Z) := [(7, replicate 128 1); (8, replicate 64 2); (9, replicate 64 3)].

Lemma sample_whole : Forall (fun p => exists c, List.length (snd p) = 64 * c)%nat sample_pages.
Proof. constructor; [by exists 2%nat|]. constructor; [by exists 1%nat|]. constructor; [by exists 1%nat|constructor]. Qed.

Lemma upload_complete_witness : exists s,
  upload_all sample_pages false 6 (mkSample [false; false; true; false; true] 0) = Ok s /\ reported sample_pages false s.
Proof.
  eexists. split; [vm_compute; reflexivity|].
  apply (upload_complete sample_pages false 6 (mkSample [false; false; true; false; true] 0)). vm_compute. reflexivity.
Defined.

Definition sample_records : list record := [Data 2046 [1; 2; 3]; LinearAddress 1; Data 0 [9]].
Definition sample_upgrade (pages : chunks) : res runtime_error (upload (D:=traced sample)) :=
  do_upgrade (fun p h => upgrade_usb p (List.length pages + 3) h 1 false) 0 (hex_file sample_records) (mkTraced sample (mkSample [false; false; true; false; true] 0) []).

Lemma firmware_upgrade_witness : exists pages,
  byte_at pages 2048 = Some 3 /\ exists s, sample_upgrade pages = Ok s /\ usb_protocol pages 1 false (log (handle s)).
Proof.
  destruct (firmware_upgrade 0 sample_records [] 65537) as (pages & Hb & Hu).
  - unfold record_ok, byte. repeat constructor; simpl; lia.
  - vm_compute. split_and!; congruence.
  - lia.
  - exists pages. split.
    { apply (Hb 2048 ltac:(lia)). exists (2046, [1; 2; 3]). split_and!; [constructor|simpl; lia|reflexivity]. }
    destruct (Hu (mkSample [false; false; true; false; true] 0) 1 false (List.length pages + 3)%nat) as [(s & E & _ & _ & Hl)|[_ Hno]].
    + unfold uint16. lia.
    + change (failures (mkSample [false; false; true; false; true] 0)) with 2%nat. lia.
    + exists s. rewrite app_nil_r in E. split; [exact E|exact Hl].
    + destruct Hno. exact I.
Defined.

Lemma upgrade_serial_ends_witness : exists s,
  upgrade_serial sample_pages 6 (mkSample [false; false; true; false; true] 0) 0 false = Ok s /\ acked s = [2; 1; 0]%nat.
Proof.
  destruct (upgrade_serial_ends True sample_pages sample_whole (mkSample [false; false; true; false; true] 0) 0 false 6)
    as [(s & E & Hr)|[_ Hno]]; [done|vm_compute; lia| |by destruct Hno]. exists s. split; [exact E|].
  vm_compute in E. injection E as <-. reflexivity.
Defined.

(** ** What the acknowledgement says is not looked at

    A bootloader that answers every page with an error is taken to have
    programmed it. *)
Lemma ack_error_ignored c : read_ack (mkSample [] c) = (false, mkSample [] c).
Proof. unfold read_ack. simpl. by destruct (c =? 2). Qed.

Lemma refused_upgrade_completes : exists s,
  upgrade_usb sample_pages 4 (mkSample [] BootloaderAck.NOT_PROGRAMMING) 1 false = Ok s /\
  last (calls s) = Some Complete.
Proof. eexists. split; vm_compute; reflexivity. Qed.

(** ** A partial write

    A port that takes 48 of 64 bytes: the chunks that follow are still of 64
    bytes, and the last one starts too late. *)
Record narrow : Type := mkNarrow { sent : Z }.

#[global] Instance narrow_device : Device narrow := {
  dev_write h bytes := let n := Z.min 48 (Z.of_nat (List.length bytes)) in (false, n, mkNarrow (sent h + n));
  dev_read h n := (false, replicate n 0, h);
  dev_flush h := h;
  dev_reset h := h;
  dev_close h := h;
  dev_open h := (false, h)
}.

Lemma partial_write_overreads : send_page (mkNarrow 0) 1 0 (replicate 2048 0) = Undef.
Proof. vm_compute. reflexivity. Qed.
