(* ===== verification/Property.v ===== *)
(** * Values exchanged with applications

    thymio-device-manager/property.h, utils.h and aseba_property.h: dynamic
    values, numeric casts, and the conversion between values and the 16-bit
    words of the virtual machine. *)
From Stdlib Require Import ZArith Lia List String SpecFloat.
From stdpp Require Import base list.
From S2P Require Import Prelude OrdMap.

Local Open Scope Z_scope.

(** ** numeric_cast *)

(** An integral type, and the conversion to it. *)
Record int_type : Type := mkInt { signed : bool; bits : Z }.

Definition int8_t : int_type := mkInt true 8.
Definition uint8_t : int_type := mkInt false 8.
Definition int16_t : int_type := mkInt true 16.
Definition uint16_t : int_type := mkInt false 16.
Definition int32_t : int_type := mkInt true 32.
Definition int64_t : int_type := mkInt true 64.

Definition int_min (t : int_type) : Z := if signed t then - 2 ^ (bits t - 1) else 0.
Definition int_max (t : int_type) : Z := if signed t then 2 ^ (bits t - 1) - 1 else 2 ^ bits t - 1.
Definition convert (t : int_type) (v : Z) : Z := (v - int_min t) mod 2 ^ bits t + int_min t.

Inductive cast_error : Type := bad_cast | narrowing.

(** [common_signess] and [largest_common_type]. *)
Definition common_signess (T V : int_type) : int_type :=
  if signed T || signed V then mkInt true (bits T) else T.

Definition largest_common_type (T V : int_type) : int_type :=
  if bits V <? bits T then common_signess T V else common_signess V T.

(** [numeric_cast<T, V>].  An [expected] without arguments holds the value 0. *)
Definition numeric_cast (T V : int_type) (v : Z) : Z + cast_error :=
  if negb (signed T) && signed V && (v <? 0) then inl 0
  else
    let c := convert (largest_common_type T V) in
    if c v <? c (int_min T) then inr narrowing
    else if c (int_max T) <? c v then inr narrowing
    else inl (convert T v).

(** ** property *)

(** The values of the variant.  [floating_t] is the binary64 format. *)
Definition double : Type := spec_float.

Inductive property : Type :=
| Null
| Bool (b : bool)
| Integral (z : Z)
| Floating (d : double)
| Str (s : list Z)
| Array (l : list property)
| Object (m : list (list Z * property)).

(** [std::bad_variant_access] of a wrong [std::get]. *)
Inductive variant_error : Type := bad_variant_access.

(** [value.index()]. *)
Definition index (p : property) : nat :=
  match p with
  | Null => 0 | Bool _ => 1 | Integral _ => 2 | Floating _ => 3 | Str _ => 4 | Array _ => 5 | Object _ => 6
  end.

Definition max_scalar_type_index : nat := 3.

Definition is_null (p : property) : bool := match p with Null => true | _ => false end.
Definition is_boolean (p : property) : bool := match p with Bool _ => true | _ => false end.
Definition is_integral (p : property) : bool := match p with Integral _ => true | _ => false end.
Definition is_double (p : property) : bool := match p with Floating _ => true | _ => false end.
Definition is_number (p : property) : bool := is_double p || is_integral p.
Definition is_string (p : property) : bool := match p with Str _ => true | _ => false end.
Definition is_array (p : property) : bool := match p with Array _ => true | _ => false end.
Definition is_object (p : property) : bool := match p with Object _ => true | _ => false end.

Definition is_empty (p : property) : bool :=
  match p with Null | Array [] | Object [] => true | _ => false end.

(** [size]: what has no [size()] counts for 0. *)
Definition size (p : property) : nat :=
  match p with
  | Str s => List.length s
  | Array l => List.length l
  | Object m => List.length m
  | _ => 0
  end.

(** The constant [operator[]] of an array: reading behind its end is undefined. *)
Definition at_index (p : property) (i : nat) : res variant_error property :=
  match p with
  | Array l => match l !! i with Some e => Ok e | None => Crash end
  | _ => Throw bad_variant_access
  end.

(** The constructor from a list in braces: a pair with a string at its head is
    an object of one member, a list whose elements all have size 2 without
    being strings or arrays is taken for an object. *)
Definition from_initializer_list (args : list property) : res variant_error property :=
  match args with
  | [Str k; v] => Ok (Object [(k, v)])
  | _ =>
      if existsb (fun arg => is_array arg || is_string arg || negb (size arg =? 2)%nat) args then Ok (Array args)
      else match args with [] => Ok (Object []) | _ => Throw bad_variant_access end
  end.

(** ** Conversions *)

Definition to_bool (p : property) : bool := match p with Null => false | Bool b => b | _ => true end.

(** A [double] converted to an integer is truncated; a value that does not fit
    is undefined. *)
Definition truncate (d : double) : option Z :=
  match d with
  | S754_zero _ => Some 0
  | S754_finite s m e => Some ((if s then -1 else 1) * (if 0 <=? e then Z.pos m * 2 ^ e else Z.pos m / 2 ^ (- e)))
  | _ => None
  end.

Definition to_integral (t : int_type) (p : property) : res variant_error Z :=
  match p with
  | Floating d =>
      match truncate d with
      | Some z => if (int_min t <=? z) && (z <=? int_max t) then Ok z else Undef
      | None => Undef
      end
  | Integral z => Ok (convert t z)
  | _ => Throw bad_variant_access
  end.

(** [operator==] of two values: arrays and objects are never equal. *)
Definition equal (a b : property) : bool :=
  match a, b with
  | Null, Null => true
  | Bool x, Bool y => Bool.eqb x y
  | Integral x, Integral y => x =? y
  | Floating x, Floating y => SFeqb x y
  | Str x, Str y => bool_decide (x = y)
  | _, _ => false
  end.

(** ** Words of the virtual machine *)

(** [error_code] of error.h. *)
Inductive error_code : Type :=
| invalid_object
| no_such_variable
| incompatible_variable_type
| invalid_aesl
| unsupported_language.

(** The loop of [to_aseba_variable] over an array. *)
Fixpoint aseba_words (p : property) (n : nat) (i : nat) : res variant_error (list Z + error_code) :=
  match n with
  | O => Ok (inl [])
  | S n' =>
      e ← at_index p i;
      if negb (is_integral e) then Ok (inr incompatible_variable_type)
      else
        v ← to_integral int64_t e;
        match numeric_cast int16_t int64_t v with
        | inr _ => Ok (inr incompatible_variable_type)
        | inl w =>
            rest ← aseba_words p n' (S i);
            Ok (match rest with inl ws => inl (w :: ws) | inr e => inr e end)
        end
  end.

Definition to_aseba_variable (p : property) (n : Z) : res variant_error (list Z + error_code) :=
  if is_null p && (n =? 0) then Ok (inl [])
  else if (n =? 1) && is_integral p then
    v ← to_integral int64_t p;
    match numeric_cast int16_t int64_t v with
    | inr _ => Ok (inr incompatible_variable_type)
    | inl w => Ok (inl [w])
    end
  else if is_array p && (n =? Z.of_nat (size p)) then aseba_words p (size p) 0
  else Ok (inr incompatible_variable_type).

Definition aseba_variable_from_range (rng : list Z) : property :=
  match rng with
  | [] => Null
  | _ => Array (List.map Integral rng)
  end.

(** ** Numeric casts *)

Definition in_range (t : int_type) (v : Z) : Prop := int_min t <= v <= int_max t.

Definition in_range_b (t : int_type) (v : Z) : bool := (int_min t <=? v) && (v <=? int_max t).

Lemma int_range t : 0 < bits t -> int_max t = int_min t + 2 ^ bits t - 1.
Proof.
  intros H. unfold int_max, int_min. destruct (signed t); [|lia].
  replace (2 ^ bits t) with (2 * 2 ^ (bits t - 1)) by (rewrite <- Z.pow_succ_r by lia; f_equal; lia). lia.
Qed.

Lemma convert_id t v : 0 < bits t -> in_range t v -> convert t v = v.
Proof.
  intros H Hv. unfold convert, in_range in *. rewrite int_range in Hv by done. rewrite Z.mod_small; lia.
Qed.

(** A wider type has the range of a narrower one of the same sign, and a wider
    signed type that of a narrower unsigned one. *)
Lemma wider_range T U v : 0 < bits T <= bits U -> signed U = signed T \/ (signed U = true /\ bits T < bits U) ->
  in_range T v -> in_range U v.
Proof.
  unfold in_range, int_min, int_max. intros Hb Hs Hv.
  pose proof (Z.pow_le_mono_r 2 (bits T) (bits U)). pose proof (Z.pow_le_mono_r 2 (bits T - 1) (bits U - 1)).
  destruct Hs as [->|[-> Hlt]]; [destruct (signed T); lia|].
  pose proof (Z.pow_le_mono_r 2 (bits T) (bits U - 1)). destruct (signed T); lia.
Qed.

(** The pairs of types that the cast is made for: of the same sign, or with the
    signed one wider. *)
Definition comparable (T V : int_type) : Prop :=
  0 < bits T /\ 0 < bits V /\
  (signed T = signed V \/ (signed T = true /\ bits V < bits T) \/ (signed V = true /\ bits T < bits V)).

Lemma common_covers T V : comparable T V ->
  let C := largest_common_type T V in
  0 < bits C /\ (forall v, in_range T v -> in_range C v) /\ (forall v, in_range V v -> in_range C v).
Proof.
  intros (HT & HV & Hs). unfold largest_common_type, common_signess.
  destruct (Z.ltb_spec (bits V) (bits T)) as [Hlt|Hge]; destruct (signed T) eqn:ET, (signed V) eqn:EV; simpl;
    try (exfalso; intuition (congruence || lia)); (split; [done|]); split; intros v Hv;
    (eapply wider_range; [|  |exact Hv]; simpl; rewrite ?ET, ?EV; intuition (congruence || lia)).
Qed.

Lemma int_min_max t : 0 < bits t -> in_range t (int_min t) /\ in_range t (int_max t).
Proof. intros H. unfold in_range. rewrite int_range by done. pose proof (Z.pow_pos_nonneg 2 (bits t)). lia. Qed.

(** between integral types of the same sign, or with the signed type wider,
    the cast gives the value where the target has it; otherwise it reports
    narrowing, except that a negative value becomes 0 in an unsigned type. *)
Theorem numeric_cast_exact T V v :
  comparable T V -> in_range V v ->
  numeric_cast T V v =
    if negb (signed T) && (v <? 0) then inl 0
    else if in_range_b T v then inl v else inr narrowing.
Proof.
  intros Hc Hv. pose proof (common_covers T V Hc) as (HC & HT & HV). destruct Hc as (Hb & _ & _).
  destruct (int_min_max T Hb) as [Hmin Hmax]. unfold numeric_cast, in_range_b.
  rewrite !convert_id by (try done; auto).
  assert (negb (signed T) && signed V && (v <? 0) = negb (signed T) && (v <? 0)) as ->.
  { destruct (signed V) eqn:EV; [by rewrite andb_true_r|]. unfold in_range, int_min in Hv. rewrite EV in Hv.
    rewrite (proj2 (Z.ltb_ge _ _)) by lia. by rewrite !andb_false_r. }
  destruct (negb (signed T) && (v <? 0)); [done|].
  destruct (Z.ltb_spec v (int_min T)), (Z.leb_spec (int_min T) v); try lia; [done|]. simpl.
  destruct (Z.ltb_spec (int_max T) v), (Z.leb_spec v (int_max T)); try lia; [done|]. by rewrite convert_id.
Qed.

Lemma numeric_cast_exact_witness : numeric_cast int16_t int64_t 40000 = inr narrowing /\ numeric_cast uint8_t int16_t (-1) = inl 0.
Proof.
  split.
  - rewrite (numeric_cast_exact int16_t int64_t 40000); [reflexivity| |]; vm_compute; intuition congruence.
  - rewrite (numeric_cast_exact uint8_t int16_t (-1)); [reflexivity| |]; vm_compute; intuition congruence.
Defined.

(** Where neither type has the range of the other the cast is wrong: a value
    that the target has is refused, and one that it does not have passes. *)
Lemma numeric_cast_refuses : numeric_cast uint16_t int16_t 5 = inr narrowing.
Proof. reflexivity. Qed.

Lemma numeric_cast_passes : numeric_cast int8_t uint8_t 200 = inl (-56).
Proof. reflexivity. Qed.

(** ** Words of the virtual machine *)

Definition word (w : Z) : Prop := in_range int16_t w.

(** The values of the type [integral_t]. *)
Definition int64_value (p : property) : Prop := match p with Integral z => in_range int64_t z | _ => True end.
Definition int64_values (p : property) : Prop := int64_value p /\ match p with Array l => Forall int64_value l | _ => True end.

(** A value stands for words: nothing for none, a number for one, an array of
    numbers for any. *)
Definition represents (p : property) (ws : list Z) : Prop :=
  match p with
  | Null => ws = []
  | Integral w => ws = [w]
  | Array l => l = List.map Integral ws
  | _ => False
  end.

(** The word of an element. *)
Definition word_of (p : property) : Z + error_code :=
  match p with
  | Integral z => if in_range_b int16_t z then inl z else inr incompatible_variable_type
  | _ => inr incompatible_variable_type
  end.

Fixpoint words_of (l : list property) : list Z + error_code :=
  match l with
  | [] => inl []
  | p :: l' =>
      match word_of p with
      | inl w => match words_of l' with inl ws => inl (w :: ws) | inr e => inr e end
      | inr e => inr e
      end
  end.

Lemma in_range_b_iff t v : in_range_b t v = true <-> in_range t v.
Proof. unfold in_range_b, in_range. rewrite andb_true_iff, !Z.leb_le. done. Qed.

Lemma cast_word z : in_range int64_t z ->
  numeric_cast int16_t int64_t z = if in_range_b int16_t z then inl z else inr narrowing.
Proof.
  intros Hz. unfold numeric_cast. change (largest_common_type int16_t int64_t) with int64_t. rewrite (convert_id int64_t z) by done.
  rewrite !(convert_id int64_t) by (vm_compute; intuition congruence). unfold in_range_b.
  destruct (Z.ltb_spec z (int_min int16_t)), (Z.leb_spec (int_min int16_t) z); try lia; [done|]. simpl.
  destruct (Z.ltb_spec (int_max int16_t) z), (Z.leb_spec z (int_max int16_t)); try lia; [done|]. rewrite convert_id; done.
Qed.

Lemma aseba_words_eq l i n : Forall int64_value l -> (i + n = List.length l)%nat ->
  aseba_words (Array l) n i = Ok (words_of (drop i l)).
Proof.
  intros Hl. revert i. induction n as [|n IH]; intros i Hn; [by rewrite drop_ge by lia|].
  destruct (lookup_lt_is_Some_2 l i) as [e He]; [lia|]. rewrite (drop_S l e i) by done.
  rewrite Forall_lookup in Hl. specialize (Hl _ _ He). cbn [aseba_words]. unfold at_index. rewrite He. cbn [mbind res_bind].
  destruct e as [| |z| | | |]; try done. cbn [is_integral negb to_integral mbind res_bind words_of word_of]. simpl in Hl.
  rewrite convert_id, cast_word by done. destruct (in_range_b int16_t z); [|done]. rewrite IH by lia. done.
Qed.

Lemma words_of_spec l ws : words_of l = inl ws <-> l = List.map Integral ws /\ Forall word ws.
Proof.
  revert ws. induction l as [|p l IH]; intros ws; simpl.
  - split; [by intros [= <-]|]. intros [E _]. by destruct ws.
  - split.
    + destruct (word_of p) as [w|] eqn:Ew; [|done]. destruct (words_of l) as [ws'|]; [|done]. intros [= <-].
      destruct (proj1 (IH ws') eq_refl) as [-> Hws]. unfold word_of in Ew. destruct p; try done.
      destruct (in_range_b int16_t z) eqn:Er; [|done]. injection Ew as ->. apply in_range_b_iff in Er.
      split; [done|]. by constructor.
    + intros [E Hws]. destruct ws as [|w ws]; [done|]. injection E as -> ->. apply Forall_cons in Hws as [Hw Hws]. simpl.
      rewrite (proj2 (in_range_b_iff _ _)) by done. by rewrite (proj2 (IH ws)).
Qed.

Lemma words_of_error l e : words_of l = inr e -> e = incompatible_variable_type.
Proof.
  induction l as [|p l IH]; simpl; [done|]. destruct (word_of p) as [w|] eqn:Ew.
  - destruct (words_of l); [done|]. intros [= <-]. by apply IH.
  - intros [= <-]. unfold word_of in Ew. destruct p; try congruence. destruct (in_range_b _ _); congruence.
Qed.

(** A value is accepted for a variable of [n] words exactly if it stands for
    [n] words of 16 bits, and these are the words sent; anything else is
    reported as incompatible, and no access to the variant goes wrong. *)
Theorem to_aseba_variable_spec p n : int64_values p ->
  exists r, to_aseba_variable p n = Ok r /\
    (forall ws, r = inl ws <-> represents p ws /\ Z.of_nat (List.length ws) = n /\ Forall word ws) /\
    (forall e, r = inr e -> e = incompatible_variable_type).
Proof.
  intros [Hp Hl]. unfold to_aseba_variable. destruct p as [| |z| | |l|]; cbn [is_null is_integral is_array andb];
    try (rewrite andb_false_r; eexists; split; [done|]; split; [intros ws; split; [done|]; by intros [? _]|by intros e [= <-]]).
  - destruct (Z.eqb_spec n 0) as [->|Hn]; (eexists; split; [rewrite ?andb_false_r; done|]); split; try done; try by intros e [= <-].
    + intros ws. split; [intros [= <-]; by repeat constructor|]. by intros [-> _].
    + intros ws. split; [done|]. intros [-> [E _]]. by destruct Hn.
  - rewrite andb_true_r. destruct (Z.eqb_spec n 1) as [->|Hn].
    + cbn [to_integral mbind res_bind]. rewrite convert_id, cast_word by done. destruct (in_range_b int16_t z) eqn:Er.
      * eexists; split; [done|]. split; [|done]. apply in_range_b_iff in Er. intros ws. split.
        -- intros [= <-]. split; [done|split; [done|]]. constructor; [exact Er|constructor].
        -- by intros [-> _].
      * eexists; split; [done|]. split; [|by intros e [= <-]]. intros ws. split; [done|].
        intros [-> [_ Hw]]. apply Forall_cons in Hw as [Hw _]. apply in_range_b_iff in Hw. congruence.
    + eexists; split; [done|]. split; [|by intros e [= <-]]. intros ws. split; [done|]. intros [-> [E _]]. by destruct Hn.
  - rewrite andb_false_r. cbn [size]. destruct (Z.eqb_spec n (Z.of_nat (List.length l))) as [->|Hn].
    + rewrite aseba_words_eq by done. eexists; split; [done|]. rewrite drop_0. split; [|apply words_of_error].
      intros ws. rewrite words_of_spec. simpl. split; [intros [-> Hw]; by rewrite length_map|]. by intros (-> & _ & Hw).
    + eexists; split; [done|]. split; [|by intros e [= <-]]. intros ws. split; [done|]. intros (-> & E & _).
      by rewrite length_map in Hn.
Qed.

(** What the virtual machine holds, sent back, is accepted. *)
Lemma from_range_represents ws : represents (aseba_variable_from_range ws) ws.
Proof. by destruct ws. Qed.

Lemma to_aseba_variable_spec_witness :
  to_aseba_variable (aseba_variable_from_range [1; -2]) 2 = Ok (inl [1; -2]) /\
  to_aseba_variable (Integral 40000) 1 = Ok (inr incompatible_variable_type).
Proof.
  destruct (to_aseba_variable_spec (aseba_variable_from_range [1; -2]) 2) as (r & E & Hr & _).
  - split; [done|]. repeat constructor; vm_compute; congruence.
  - rewrite (proj2 (Hr [1; -2])) in E; [|split; [reflexivity|split; [reflexivity|]]; repeat constructor; vm_compute; congruence].
    split; [exact E|]. reflexivity.
Defined.
