(* ===== verification/Queue.v ===== *)
(** * The queue of outgoing messages of an endpoint

    thymio-device-manager/aseba_endpoint.h: [write_messages], [write_next] and
    [handle_write].  A write callback is a value of the type [C]. *)
From Stdlib Require Import ZArith Lia List.
From stdpp Require Import base list list_monad relations.
From S2P Require Import Prelude Consts MsgClasses Msg.

Local Open Scope Z_scope.

Section Queue.
Context {C : Type}.

(** The members that the queue uses. *)
Record queue : Type := mkQueue {
  m_msg_queue : list (Message * option C);
  m_upgrading_firmware : bool;
  m_rebooting : bool
}.

Definition set_msg_queue (l : list (Message * option C)) (q : queue) : queue :=
  mkQueue l (m_upgrading_firmware q) (m_rebooting q).

Definition is_rebooting (q : queue) : bool := m_upgrading_firmware q || m_rebooting q.

(** What the queue does to the outside: [async_write_aseba_message], or a
    callback posted to the executor with the error code of success. *)
Inductive output : Type :=
| StartWrite (m : Message)
| PostCallback (c : C).

Definition write_next (q : queue) : list output :=
  if is_rebooting q && bool_decide (m_msg_queue q = []) then []
  else if m_upgrading_firmware q then []
  else match m_msg_queue q with [] => [] | (m, _) :: _ => [StartWrite m] end.

(** The messages that are sent regularly. *)
Definition periodic (m : Message) : bool :=
  (type m =? ASEBA_MESSAGE_LIST_NODES) || (type m =? ASEBA_MESSAGE_GET_EXECUTION_STATE)
  || (type m =? ASEBA_MESSAGE_GET_CHANGED_VARIABLES).

(** The loop that looks for the place to insert at, from the end: [it] is the
    index of the iterator. *)
Fixpoint find_insert (l : list (Message * option C)) (it : nat) : nat :=
  match it with
  | O => O
  | S it' =>
      if (it =? List.length l)%nat then it
      else match l !! it with
           | Some (m, _) => if periodic m then find_insert l it' else it
           | None => it
           end
  end.

(** [vector::insert] at an index. *)
Definition insert_at {A} (it : nat) (x : A) (l : list A) : list A := take it l ++ x :: drop it l.

(** Every insertion returns the iterator of the new element, before which the
    next one is inserted. *)
Fixpoint insert_all (it : nat) (ms : list Message) (l : list (Message * option C)) : list (Message * option C) :=
  match ms with
  | [] => l
  | m :: ms' => insert_all it ms' (insert_at it (m, None) l)
  end.

(** [it->second = cb] *)
Definition set_callback (it : nat) (cb : option C) (l : list (Message * option C)) : list (Message * option C) :=
  match cb with
  | None => l
  | Some c => alter (fun e => (fst e, Some c)) it l
  end.

Definition write_messages (messages : list Message) (cb : option C) (q : queue) : queue * list output :=
  match messages with
  | [] => (q, [])
  | _ =>
      let it := find_insert (m_msg_queue q) (List.length (m_msg_queue q)) in
      let q := set_msg_queue (set_callback it cb (insert_all it messages (m_msg_queue q))) q in
      (q, if (List.length messages <? List.length (m_msg_queue q))%nat then [] else write_next q)
  end.

(** The completion of a write; [ec] is [true] for an error. *)
Definition handle_write (ec : bool) (q : queue) : queue * list output :=
  match m_msg_queue q with
  | [] => (q, [])
  | (_, cb) :: rest =>
      if ec then (set_msg_queue [] q, [])
      else
        let q := set_msg_queue rest q in
        (q, match cb with Some c => [PostCallback c] | None => [] end ++ write_next q)
  end.

(** [upgrade_firmware] of an endpoint stops the queue. *)
Definition start_upgrade (q : queue) : queue := mkQueue (m_msg_queue q) true (m_rebooting q).

(** ** A batch *)

(** What a call adds to the queue: the messages in reverse, the callback with
    the one that was last in the call. *)
Definition batch (messages : list Message) (cb : option C) : list (Message * option C) :=
  match rev messages with
  | [] => []
  | m :: ms => (m, cb) :: List.map (fun m => (m, None)) ms
  end.

(** The search for a place never leaves the end. *)
Lemma find_insert_end l : find_insert l (List.length l) = List.length l.
Proof. destruct l; [done|]. cbn [List.length find_insert]. by rewrite Nat.eqb_refl. Qed.

Lemma insert_all_end ms l l' :
  insert_all (List.length l) ms (l ++ l') = l ++ List.map (fun m => (m, None)) (rev ms) ++ l'.
Proof.
  revert l'. induction ms as [|m ms IH]; intros l'; [done|]. cbn [insert_all rev]. unfold insert_at.
  rewrite take_app_length, drop_app_length, IH, map_app, <- app_assoc. done.
Qed.

Lemma alter_middle {A} (f : A -> A) l x r : alter f (List.length l) (l ++ x :: r) = l ++ f x :: r.
Proof. induction l as [|y l IH]; [done|]. simpl. by f_equal. Qed.

Lemma batch_app ms m cb : batch (ms ++ [m]) cb = (m, cb) :: List.map (fun m => (m, None)) (rev ms).
Proof. unfold batch. by rewrite rev_app_distr. Qed.

Lemma write_messages_queue ms cb q : ms <> [] ->
  m_msg_queue (fst (write_messages ms cb q)) = m_msg_queue q ++ batch ms cb.
Proof.
  intros Hne. destruct ms as [|x ms _] using rev_ind; [done|].
  assert (exists y l, ms ++ [x] = y :: l) as (y & l & E) by (destruct ms; eauto). unfold write_messages. rewrite E, <- E.
  cbn [fst m_msg_queue set_msg_queue]. rewrite find_insert_end.
  pose proof (insert_all_end (ms ++ [x]) (m_msg_queue q) []) as H. rewrite !app_nil_r in H. rewrite H, batch_app, rev_app_distr.
  cbn [List.map rev app]. unfold set_callback. destruct cb as [c|]; [|done].
  by rewrite alter_middle.
Qed.

Lemma batch_length ms cb : List.length (batch ms cb) = List.length ms.
Proof.
  destruct ms as [|x ms _] using rev_ind; [done|]. rewrite batch_app. simpl. rewrite length_map, length_rev, length_app. simpl. lia.
Qed.

(** ** The queue and its transport

    A system is the queue, the number of writes in flight, and three logs that
    the code does not keep: what was given to the queue, what left it and
    whether it was sent, and the callbacks posted. *)
Record system : Type := mkSystem {
  endpoint : queue;
  in_flight : nat;
  accepted : list (Message * option C);
  history : list (Message * option C * bool);
  posted : list C
}.

(** The writes that a list of outputs starts, and its callbacks. *)
Definition starts (o : list output) : nat := List.length (List.filter (fun x => match x with StartWrite _ => true | _ => false end) o).
Definition posts (o : list output) : list C := mjoin (List.map (fun x => match x with PostCallback c => [c] | _ => [] end) o).

(** What can happen: a call of [write_messages], the end of a write that is in
    flight, and the start of a firmware upgrade. *)
Inductive step : system -> system -> Prop :=
| StepWrite s ms cb :
    step s (let '(q, o) := write_messages ms cb (endpoint s) in
            mkSystem q (in_flight s + starts o) (accepted s ++ batch ms cb) (history s) (posted s ++ posts o))
| StepWritten s (ec : bool) n :
    in_flight s = S n ->
    step s (let '(q, o) := handle_write ec (endpoint s) in
            let gone := if ec then m_msg_queue (endpoint s) else take 1 (m_msg_queue (endpoint s)) in
            mkSystem q (n + starts o) (accepted s) (history s ++ List.map (fun e => (e, negb ec)) gone) (posted s ++ posts o))
| StepUpgrade s : step s (mkSystem (start_upgrade (endpoint s)) (in_flight s) (accepted s) (history s) (posted s)).

Definition start : system := mkSystem (mkQueue [] false false) 0 [] [] [].

Definition reachable : system -> Prop := rtc step start.

(** The callbacks of the messages that were sent. *)
Definition called_back (h : list (Message * option C * bool)) : list C :=
  mjoin (List.map (fun e => match e with (_, Some c, true) => [c] | _ => [] end) h).

Record queue_ok (s : system) : Prop := {
  (** A channel: first in, first out. *)
  fifo : accepted s = List.map fst (history s) ++ m_msg_queue (endpoint s);
  (** The callback of a message runs once it is sent, in the order of the queue. *)
  callbacks : posted s = called_back (history s);
  (** Writes do not overlap. *)
  single : (in_flight s <= 1)%nat;
  pending : in_flight s = 1%nat -> m_msg_queue (endpoint s) <> [];
  (** A queue with messages is being written, unless the firmware is upgraded. *)
  active : m_upgrading_firmware (endpoint s) = false -> m_msg_queue (endpoint s) <> [] -> in_flight s = 1%nat
}.

Lemma called_back_app h1 h2 : called_back (h1 ++ h2) = called_back h1 ++ called_back h2.
Proof. unfold called_back. by rewrite map_app, join_app. Qed.

Lemma write_next_starts q : 
  posts (write_next q) = [] /\
  starts (write_next q) = if m_upgrading_firmware q then 0%nat else match m_msg_queue q with [] => 0%nat | _ => 1%nat end.
Proof.
  unfold write_next, is_rebooting. destruct (m_upgrading_firmware q); simpl.
  - destruct (bool_decide _); done.
  - destruct (m_rebooting q), (m_msg_queue q) as [|[m c] l]; done.
Qed.

(** A call writes at once if the queue was empty and is not stopped. *)
Lemma write_messages_outputs ms cb q : ms <> [] ->
  let (q', o) := write_messages ms cb q in
  m_upgrading_firmware q' = m_upgrading_firmware q /\ posts o = [] /\
  starts o = if m_upgrading_firmware q then 0%nat else match m_msg_queue q with [] => 1%nat | _ => 0%nat end.
Proof.
  intros Hne. pose proof (write_messages_queue ms cb q Hne) as Hq. unfold write_messages in *. destruct ms as [|m ms]; [done|].
  cbn [fst] in Hq. split; [done|]. rewrite Hq, length_app, batch_length.
  destruct (Nat.ltb_spec (List.length (m :: ms)) (List.length (m_msg_queue q) + List.length (m :: ms))) as [Hlt|Hge].
  - destruct (m_msg_queue q); [simpl in Hlt; lia|]. by destruct (m_upgrading_firmware q).
  - destruct (m_msg_queue q) eqn:E; [|simpl in Hge; lia].
    pose proof (write_next_starts (set_msg_queue (set_callback (find_insert [] (List.length (@nil (Message * option C)))) cb
      (insert_all (find_insert [] (List.length (@nil (Message * option C)))) (m :: ms) [])) q)) as [Hp Hs].
    split; [done|]. rewrite Hs, Hq. cbn [m_upgrading_firmware set_msg_queue app].
    pose proof (batch_length (m :: ms) cb). by destruct (batch (m :: ms) cb).
Qed.

Lemma write_ok s ms cb : queue_ok s ->
  queue_ok (let '(q, o) := write_messages ms cb (endpoint s) in
            mkSystem q (in_flight s + starts o) (accepted s ++ batch ms cb) (history s) (posted s ++ posts o)).
Proof.
  intros [Hf Hc Hs Hp Ha]. destruct (decide (ms = [])) as [->|Hne].
  { simpl; split; simpl; rewrite ?app_nil_r, ?Nat.add_0_r; done. }
  pose proof (write_messages_queue ms cb (endpoint s) Hne) as Hq.
  pose proof (write_messages_outputs ms cb (endpoint s) Hne) as Ho.
  assert (m_msg_queue (endpoint s) ++ batch ms cb <> []) as Hnil.
  { intros E. apply (f_equal List.length) in E. rewrite length_app, batch_length in E. destruct ms; [done|simpl in E; lia]. }
  destruct (write_messages ms cb (endpoint s)) as [q o]. destruct Ho as (Hu & Hpo & Hst). cbn [fst] in Hq.
  split; cbn [accepted history endpoint posted in_flight]; rewrite ?Hq, ?Hpo, ?Hst, ?app_nil_r, ?Hu; try done.
  - by rewrite Hf, app_assoc.
  - destruct (m_upgrading_firmware (endpoint s)), (m_msg_queue (endpoint s)); try lia.
    destruct (in_flight s) as [|[|]]; [lia| |lia]. by destruct (Hp eq_refl).
  - intros Hup _. rewrite Hup. destruct (m_msg_queue (endpoint s)) eqn:E; [|rewrite Nat.add_0_r; by apply Ha].
    destruct (in_flight s) as [|[|]]; [lia| |lia]. by destruct (Hp eq_refl).
Qed.

Lemma written_ok s (ec : bool) n : queue_ok s -> in_flight s = S n ->
  queue_ok (let '(q, o) := handle_write ec (endpoint s) in
            let gone := if ec then m_msg_queue (endpoint s) else take 1 (m_msg_queue (endpoint s)) in
            mkSystem q (n + starts o) (accepted s) (history s ++ List.map (fun e => (e, negb ec)) gone) (posted s ++ posts o)).
Proof.
  intros [Hf Hc Hs Hp Ha] Hn. assert (n = 0%nat) as -> by lia. specialize (Hp Hn). unfold handle_write.
  destruct (m_msg_queue (endpoint s)) as [|[m cb] rest] eqn:Eq; [done|]. destruct ec.
  - split; cbn [accepted history endpoint posted in_flight m_msg_queue set_msg_queue starts List.filter List.length Nat.add]; try done; try lia.
    + rewrite Hf, map_app, app_nil_r, map_map. cbn [fst]. by rewrite map_id.
    + rewrite called_back_app, Hc. f_equal. clear. unfold called_back. generalize ((m, cb) :: rest) as l.
      induction l as [|[m' [c|]] l IH]; [done|exact IH|exact IH].
  - destruct (write_next_starts (set_msg_queue rest (endpoint s))) as [Hpo Hst].
    assert (forall o, posts (match cb with Some c => [PostCallback c] | None => [] end ++ o)
      = called_back [((m, cb), true)] ++ posts o) as Hposts by (by intros o; destruct cb).
    assert (forall o, starts (match cb with Some c => [PostCallback c] | None => [] end ++ o) = starts o) as Hstarts
      by (by intros o; destruct cb).
    split; cbn [accepted history endpoint posted in_flight take List.map negb]; rewrite ?Hposts, ?Hstarts, ?Hpo, ?Hst;
      cbn [m_msg_queue set_msg_queue m_upgrading_firmware Nat.add].
    + by rewrite Hf, map_app, <- app_assoc.
    + by rewrite called_back_app, Hc, app_nil_r.
    + destruct (m_upgrading_firmware (endpoint s)), rest; lia.
    + destruct (m_upgrading_firmware (endpoint s)), rest; done.
    + intros -> Hr. by destruct rest.
Qed.

Lemma step_ok s s' : queue_ok s -> step s s' -> queue_ok s'.
Proof.
  intros Hs Hstep. destruct Hstep as [s0 ms cb|s0 ec n Hn|s0]; [by apply write_ok|by apply written_ok|].
  destruct Hs as [Hf Hc Hi Hp Ha]. by split.
Qed.

Lemma start_ok : queue_ok start.
Proof. split; simpl; try done; lia. Qed.


(** As long as writes succeed and the firmware is not upgraded, every
    message that was given to the queue is sent. *)
Theorem queue_drains s : reachable s -> m_upgrading_firmware (endpoint s) = false ->
  exists s', rtc step s s' /\ m_msg_queue (endpoint s') = [] /\ accepted s' = accepted s /\
    history s' = history s ++ List.map (fun e => (e, true)) (m_msg_queue (endpoint s)).
Proof.
  intros Hr Hu. assert (queue_ok s) as Hok by (eapply (rtc_invariant step queue_ok); [exact step_ok|exact start_ok|exact Hr]).
  clear Hr. remember (m_msg_queue (endpoint s)) as l eqn:El. revert s El Hu Hok. induction l as [|[m cb] l IH]; intros s El Hu Hok.
  - exists s. rewrite app_nil_r. split_and!; [constructor|done|done|done].
  - assert (in_flight s = 1%nat) as Hone by (apply Hok; [done|by rewrite <- El]).
    pose proof (StepWritten s false 0 Hone) as Hstep. pose proof (step_ok _ _ Hok Hstep) as Hok1.
    revert Hstep Hok1. unfold handle_write. rewrite <- El. cbn [take negb List.map]. intros Hstep Hok1.
    match type of Hok1 with queue_ok ?s1 => destruct (IH s1 eq_refl Hu Hok1) as (s' & Hrun & Hq & Ha & Hh) end.
    exists s'. split_and!; [by econstructor|done|done|]. rewrite Hh. cbn [history List.map]. by rewrite <- app_assoc.
Qed.
End Queue.

(** ** Samples *)

Definition sample (n : Z) : Message := mkMessage 0 ASEBA_MESSAGE_RUN (Run (CmdMessage.mk n)).

Lemma sample_reachable : exists s : system (C:=Z), reachable s /\ in_flight s = 1%nat /\
  m_msg_queue (endpoint s) = [(sample 2, None); (sample 1, None)] /\ posted s = [7].
Proof.
  eexists. split; [|split; [|split]].
  - unfold reachable. eapply rtc_l; [apply (StepWrite start [sample 1; sample 2; sample 3] (Some 7))|].
    eapply rtc_l; [apply (StepWritten _ false 0); reflexivity|]. apply rtc_refl.
  - reflexivity.
  - reflexivity.
  - reflexivity.
Qed.


Lemma queue_drains_witness : exists s s' : system (C:=Z), rtc step s s' /\ m_msg_queue (endpoint s') = [] /\
  List.length (history s') = 3%nat.
Proof.
  destruct (queue_drains (C:=Z)
    (let '(q, o) := write_messages [sample 1; sample 2; sample 3] (Some 7) (endpoint (C:=Z) start) in
     mkSystem q (in_flight (C:=Z) start + starts o) (accepted start ++ batch [sample 1; sample 2; sample 3] (Some 7))
       (history start) (posted start ++ posts o))) as (s' & Hr & Hq & _ & Hh).
  - unfold reachable. apply rtc_once. apply (StepWrite start).
  - reflexivity.
  - eexists _, s'. split; [exact Hr|]. split; [exact Hq|]. rewrite Hh. reflexivity.
Defined.

(** The callback of a batch of three runs when one message has been sent and
    two have not. *)
Lemma callback_before_end : exists s : system (C:=Z), reachable s /\ posted s = [7] /\
  List.length (history s) = 1%nat /\ List.length (m_msg_queue (endpoint s)) = 2%nat.
Proof.
  eexists. split; [|split; [|split]].
  - unfold reachable. eapply rtc_l; [apply (StepWrite start [sample 1; sample 2; sample 3] (Some 7))|].
    eapply rtc_l; [apply (StepWritten _ false 0); reflexivity|]. apply rtc_refl.
  - reflexivity.
  - reflexivity.
  - reflexivity.
Qed.

(** A failed write empties the queue, and the callbacks never run. *)
Lemma failure_is_silent (q : queue (C:=Z)) : snd (handle_write true q) = [] /\ m_msg_queue (fst (handle_write true q)) = [].
Proof. unfold handle_write. by destruct (m_msg_queue q) as [|[m cb] l] eqn:E. Qed.

(** A call without messages never runs its callback. *)
Lemma empty_batch_is_silent cb (q : queue (C:=Z)) : write_messages [] cb q = (q, []).
Proof. reflexivity. Qed.
