(* ===== verification/Node.v ===== *)
(** * A robot as the manager sees it

    thymio-device-manager/aseba_node.{h,cpp}.  A handler runs on the state of
    the node and gives what it does to the other objects, in order: messages
    for the queue of the endpoint, changes of status for the registry, tasks
    posted to the executor, signals and timers.  A callback of an application
    is a value of the type [K], its answer is what it is posted with. *)
From Stdlib Require Import ZArith Lia List String.
From stdpp Require Import base list list_monad.
From S2P Require Import Prelude Consts OrdMap Bits Target Utils Errors Lookup Emit Link MsgClasses Msg Property.

Local Open Scope Z_scope.

(** ** Data *)

Inductive status : Type := connected | available | busy | ready | disconnected | upgrading.

#[global] Instance status_eq_dec : EqDecision status.
Proof. solve_decision. Defined.

(** [aseba_endpoint::endpoint_type] and [fb::NodeType]. *)
Inductive endpoint_type : Type := unknown | thymio | simulated_thymio | simulated_dummy_node.
Inductive node_type : Type := Thymio2 | Thymio2Wireless | SimulatedThymio2 | DummyNode | UnknownType.

#[global] Instance node_type_eq_dec : EqDecision node_type.
Proof. solve_decision. Defined.

(** What a node asks of its endpoint; [None] where [m_endpoint.lock()] is
    null. *)
Record endpoint_info : Type := mkEndpointInfo {
  ep_type : endpoint_type;
  ep_wireless : bool;
  ep_name : list Z;
  ep_definitions : CommonDefinitions
}.

(** [boost::system::error_code], as far as it is told apart. *)
Inductive system_error : Type :=
| success
| operation_canceled
| io_error
| tdm_error (e : error_code).

(** [fb::VMExecutionState], [fb::VMExecutionError] and
    [aseba_node::vm_execution_state]. *)
Inductive VMExecutionState : Type := Running | Stopped | Paused.

#[global] Instance VMExecutionState_eq_dec : EqDecision VMExecutionState.
Proof. solve_decision. Defined.

Inductive VMExecutionError : Type := NoError | OutOfBoundAccess | DivisionByZeroError | Killed | GenericError.

Record vm_execution_state : Type := mkExecutionState {
  es_state : VMExecutionState;
  es_line : Z;
  es_error : VMExecutionError;
  es_message : option (list Z)
}.

(** [m_vm_state]. *)
Record vm_state : Type := mkVmState { vm_pc : Z; vm_flags : Z; vm_line : Z; vm_running : VMExecutionState }.

(** [aseba_vm_variable]. *)
Record aseba_vm_variable : Type := mkVmVariable { v_name : list Z; v_start : Z; v_size : Z; v_value : list Z }.

Definition variables_map : Type := omap (list Z) property.

(** [compilation_result], one of the two. *)
Inductive compilation_result : Type :=
| CompilationError (character line column : Z) (msg : list Z)
| CompilationDone (bytecode_size variables_size bytecode_total_size variables_total_size : Z).

(** [fb::ProgrammingLanguage]. *)
Inductive programming_language : Type := Aseba | Aesl.

Section Node.
Context {K : Type}.

(** [break_point_cb_data] and [step_cb_data].  The number stands for the object
    that a weak pointer refers to. *)
Record breakpoint_request : Type := mkBreakpointRequest {
  br_id : nat;
  br_pending : omap Z Z;
  br_set : list Z;
  br_error : system_error;
  br_cb : K
}.

Record step_request : Type := mkStepRequest {
  sr_id : nat;
  sr_pc : Z;
  sr_line : Z;
  sr_error : system_error;
  sr_cb : K
}.

(** The callbacks given to [write_messages]. *)
Inductive write_callback : Type :=
| NoCallback
| AppWritten (k : K)
| BreakpointsWritten (id : nat)
| StepWritten (id : nat)
| ProgramWritten (k : K) (result : compilation_result).

(** What is posted: a callback of an application with its arguments. *)
Inductive task : Type :=
| WriteTask (k : K) (ec : system_error)
| BreakpointsTask (k : K) (ec : system_error) (set : list Z)
| CompileTask (k : K) (ec : system_error) (result : option compilation_result).

Inductive timer : Type := VariablesTimer (delay_ms : Z) | StatusTimer (delay_ms : Z) | ResendTimer (delay_ms : Z).

Inductive effect : Type :=
| Write (messages : list Message) (cb : write_callback)
| Post (t : task)
| StatusChanged (s : status)
| UuidChanged
| VariablesChanged (m : variables_map)
| EventsReceived (m : variables_map)
| VmStateChanged (s : vm_execution_state)
| Arm (t : timer)
| CancelResend
| UpgradeEndpoint.

(** What the resend timer will do. *)
Inductive resend : Type := ResendNothing | ResendFragment | ResendDeviceInfo.

Record node : Type := mkNode {
  m_id : Z;
  m_uuid : list Z;
  m_friendly_name : list Z;
  m_status : status;
  m_firmware_version : Z;
  m_available_firmware_version : Z;
  m_protocol_version : Z;
  m_connected_app : option Z;
  m_description : TargetDescription;
  counter_variables : Z;
  counter_events : Z;
  counter_functions : Z;
  m_bytecode : list BytecodeElement;
  m_breakpoints : list Z;
  m_vm_state : vm_state;
  m_rf : Z * Z * Z;
  m_variables : list aseba_vm_variable;
  m_resend_all_variables : bool;
  m_resend_timer : resend;
  m_pending_breakpoint_request : option breakpoint_request;
  m_pending_step_request : option step_request;
  m_callbacks_pending_execution_state_change : list task;
  m_watchers : bool;
  next_id : nat
}.
End Node.

Arguments breakpoint_request : clear implicits.
Arguments step_request : clear implicits.
Arguments write_callback : clear implicits.
Arguments task : clear implicits.
Arguments effect : clear implicits.
Arguments node : clear implicits.

(** ** Setters *)
Section Setters.
Context {K : Type}.
Implicit Types n : node K.

Definition set_m_uuid x n : node K := mkNode (m_id n) x (m_friendly_name n) (m_status n) (m_firmware_version n) (m_available_firmware_version n) (m_protocol_version n) (m_connected_app n) (m_description n) (counter_variables n) (counter_events n) (counter_functions n) (m_bytecode n) (m_breakpoints n) (m_vm_state n) (m_rf n) (m_variables n) (m_resend_all_variables n) (m_resend_timer n) (m_pending_breakpoint_request n) (m_pending_step_request n) (m_callbacks_pending_execution_state_change n) (m_watchers n) (next_id n).
Definition set_m_friendly_name x n : node K := mkNode (m_id n) (m_uuid n) x (m_status n) (m_firmware_version n) (m_available_firmware_version n) (m_protocol_version n) (m_connected_app n) (m_description n) (counter_variables n) (counter_events n) (counter_functions n) (m_bytecode n) (m_breakpoints n) (m_vm_state n) (m_rf n) (m_variables n) (m_resend_all_variables n) (m_resend_timer n) (m_pending_breakpoint_request n) (m_pending_step_request n) (m_callbacks_pending_execution_state_change n) (m_watchers n) (next_id n).
Definition set_m_status x n : node K := mkNode (m_id n) (m_uuid n) (m_friendly_name n) x (m_firmware_version n) (m_available_firmware_version n) (m_protocol_version n) (m_connected_app n) (m_description n) (counter_variables n) (counter_events n) (counter_functions n) (m_bytecode n) (m_breakpoints n) (m_vm_state n) (m_rf n) (m_variables n) (m_resend_all_variables n) (m_resend_timer n) (m_pending_breakpoint_request n) (m_pending_step_request n) (m_callbacks_pending_execution_state_change n) (m_watchers n) (next_id n).
Definition set_m_firmware_version x n : node K := mkNode (m_id n) (m_uuid n) (m_friendly_name n) (m_status n) x (m_available_firmware_version n) (m_protocol_version n) (m_connected_app n) (m_description n) (counter_variables n) (counter_events n) (counter_functions n) (m_bytecode n) (m_breakpoints n) (m_vm_state n) (m_rf n) (m_variables n) (m_resend_all_variables n) (m_resend_timer n) (m_pending_breakpoint_request n) (m_pending_step_request n) (m_callbacks_pending_execution_state_change n) (m_watchers n) (next_id n).
Definition set_m_available_firmware_version x n : node K := mkNode (m_id n) (m_uuid n) (m_friendly_name n) (m_status n) (m_firmware_version n) x (m_protocol_version n) (m_connected_app n) (m_description n) (counter_variables n) (counter_events n) (counter_functions n) (m_bytecode n) (m_breakpoints n) (m_vm_state n) (m_rf n) (m_variables n) (m_resend_all_variables n) (m_resend_timer n) (m_pending_breakpoint_request n) (m_pending_step_request n) (m_callbacks_pending_execution_state_change n) (m_watchers n) (next_id n).
Definition set_m_connected_app x n : node K := mkNode (m_id n) (m_uuid n) (m_friendly_name n) (m_status n) (m_firmware_version n) (m_available_firmware_version n) (m_protocol_version n) x (m_description n) (counter_variables n) (counter_events n) (counter_functions n) (m_bytecode n) (m_breakpoints n) (m_vm_state n) (m_rf n) (m_variables n) (m_resend_all_variables n) (m_resend_timer n) (m_pending_breakpoint_request n) (m_pending_step_request n) (m_callbacks_pending_execution_state_change n) (m_watchers n) (next_id n).
Definition set_m_description x n : node K := mkNode (m_id n) (m_uuid n) (m_friendly_name n) (m_status n) (m_firmware_version n) (m_available_firmware_version n) (m_protocol_version n) (m_connected_app n) x (counter_variables n) (counter_events n) (counter_functions n) (m_bytecode n) (m_breakpoints n) (m_vm_state n) (m_rf n) (m_variables n) (m_resend_all_variables n) (m_resend_timer n) (m_pending_breakpoint_request n) (m_pending_step_request n) (m_callbacks_pending_execution_state_change n) (m_watchers n) (next_id n).
Definition set_counter_variables x n : node K := mkNode (m_id n) (m_uuid n) (m_friendly_name n) (m_status n) (m_firmware_version n) (m_available_firmware_version n) (m_protocol_version n) (m_connected_app n) (m_description n) x (counter_events n) (counter_functions n) (m_bytecode n) (m_breakpoints n) (m_vm_state n) (m_rf n) (m_variables n) (m_resend_all_variables n) (m_resend_timer n) (m_pending_breakpoint_request n) (m_pending_step_request n) (m_callbacks_pending_execution_state_change n) (m_watchers n) (next_id n).
Definition set_counter_events x n : node K := mkNode (m_id n) (m_uuid n) (m_friendly_name n) (m_status n) (m_firmware_version n) (m_available_firmware_version n) (m_protocol_version n) (m_connected_app n) (m_description n) (counter_variables n) x (counter_functions n) (m_bytecode n) (m_breakpoints n) (m_vm_state n) (m_rf n) (m_variables n) (m_resend_all_variables n) (m_resend_timer n) (m_pending_breakpoint_request n) (m_pending_step_request n) (m_callbacks_pending_execution_state_change n) (m_watchers n) (next_id n).
Definition set_counter_functions x n : node K := mkNode (m_id n) (m_uuid n) (m_friendly_name n) (m_status n) (m_firmware_version n) (m_available_firmware_version n) (m_protocol_version n) (m_connected_app n) (m_description n) (counter_variables n) (counter_events n) x (m_bytecode n) (m_breakpoints n) (m_vm_state n) (m_rf n) (m_variables n) (m_resend_all_variables n) (m_resend_timer n) (m_pending_breakpoint_request n) (m_pending_step_request n) (m_callbacks_pending_execution_state_change n) (m_watchers n) (next_id n).
Definition set_m_bytecode x n : node K := mkNode (m_id n) (m_uuid n) (m_friendly_name n) (m_status n) (m_firmware_version n) (m_available_firmware_version n) (m_protocol_version n) (m_connected_app n) (m_description n) (counter_variables n) (counter_events n) (counter_functions n) x (m_breakpoints n) (m_vm_state n) (m_rf n) (m_variables n) (m_resend_all_variables n) (m_resend_timer n) (m_pending_breakpoint_request n) (m_pending_step_request n) (m_callbacks_pending_execution_state_change n) (m_watchers n) (next_id n).
Definition set_m_breakpoints x n : node K := mkNode (m_id n) (m_uuid n) (m_friendly_name n) (m_status n) (m_firmware_version n) (m_available_firmware_version n) (m_protocol_version n) (m_connected_app n) (m_description n) (counter_variables n) (counter_events n) (counter_functions n) (m_bytecode n) x (m_vm_state n) (m_rf n) (m_variables n) (m_resend_all_variables n) (m_resend_timer n) (m_pending_breakpoint_request n) (m_pending_step_request n) (m_callbacks_pending_execution_state_change n) (m_watchers n) (next_id n).
Definition set_m_vm_state x n : node K := mkNode (m_id n) (m_uuid n) (m_friendly_name n) (m_status n) (m_firmware_version n) (m_available_firmware_version n) (m_protocol_version n) (m_connected_app n) (m_description n) (counter_variables n) (counter_events n) (counter_functions n) (m_bytecode n) (m_breakpoints n) x (m_rf n) (m_variables n) (m_resend_all_variables n) (m_resend_timer n) (m_pending_breakpoint_request n) (m_pending_step_request n) (m_callbacks_pending_execution_state_change n) (m_watchers n) (next_id n).
Definition set_m_rf x n : node K := mkNode (m_id n) (m_uuid n) (m_friendly_name n) (m_status n) (m_firmware_version n) (m_available_firmware_version n) (m_protocol_version n) (m_connected_app n) (m_description n) (counter_variables n) (counter_events n) (counter_functions n) (m_bytecode n) (m_breakpoints n) (m_vm_state n) x (m_variables n) (m_resend_all_variables n) (m_resend_timer n) (m_pending_breakpoint_request n) (m_pending_step_request n) (m_callbacks_pending_execution_state_change n) (m_watchers n) (next_id n).
Definition set_m_variables x n : node K := mkNode (m_id n) (m_uuid n) (m_friendly_name n) (m_status n) (m_firmware_version n) (m_available_firmware_version n) (m_protocol_version n) (m_connected_app n) (m_description n) (counter_variables n) (counter_events n) (counter_functions n) (m_bytecode n) (m_breakpoints n) (m_vm_state n) (m_rf n) x (m_resend_all_variables n) (m_resend_timer n) (m_pending_breakpoint_request n) (m_pending_step_request n) (m_callbacks_pending_execution_state_change n) (m_watchers n) (next_id n).
Definition set_m_resend_all_variables x n : node K := mkNode (m_id n) (m_uuid n) (m_friendly_name n) (m_status n) (m_firmware_version n) (m_available_firmware_version n) (m_protocol_version n) (m_connected_app n) (m_description n) (counter_variables n) (counter_events n) (counter_functions n) (m_bytecode n) (m_breakpoints n) (m_vm_state n) (m_rf n) (m_variables n) x (m_resend_timer n) (m_pending_breakpoint_request n) (m_pending_step_request n) (m_callbacks_pending_execution_state_change n) (m_watchers n) (next_id n).
Definition set_m_resend_timer x n : node K := mkNode (m_id n) (m_uuid n) (m_friendly_name n) (m_status n) (m_firmware_version n) (m_available_firmware_version n) (m_protocol_version n) (m_connected_app n) (m_description n) (counter_variables n) (counter_events n) (counter_functions n) (m_bytecode n) (m_breakpoints n) (m_vm_state n) (m_rf n) (m_variables n) (m_resend_all_variables n) x (m_pending_breakpoint_request n) (m_pending_step_request n) (m_callbacks_pending_execution_state_change n) (m_watchers n) (next_id n).
Definition set_m_pending_breakpoint_request x n : node K := mkNode (m_id n) (m_uuid n) (m_friendly_name n) (m_status n) (m_firmware_version n) (m_available_firmware_version n) (m_protocol_version n) (m_connected_app n) (m_description n) (counter_variables n) (counter_events n) (counter_functions n) (m_bytecode n) (m_breakpoints n) (m_vm_state n) (m_rf n) (m_variables n) (m_resend_all_variables n) (m_resend_timer n) x (m_pending_step_request n) (m_callbacks_pending_execution_state_change n) (m_watchers n) (next_id n).
Definition set_m_pending_step_request x n : node K := mkNode (m_id n) (m_uuid n) (m_friendly_name n) (m_status n) (m_firmware_version n) (m_available_firmware_version n) (m_protocol_version n) (m_connected_app n) (m_description n) (counter_variables n) (counter_events n) (counter_functions n) (m_bytecode n) (m_breakpoints n) (m_vm_state n) (m_rf n) (m_variables n) (m_resend_all_variables n) (m_resend_timer n) (m_pending_breakpoint_request n) x (m_callbacks_pending_execution_state_change n) (m_watchers n) (next_id n).
Definition set_m_callbacks_pending_execution_state_change x n : node K := mkNode (m_id n) (m_uuid n) (m_friendly_name n) (m_status n) (m_firmware_version n) (m_available_firmware_version n) (m_protocol_version n) (m_connected_app n) (m_description n) (counter_variables n) (counter_events n) (counter_functions n) (m_bytecode n) (m_breakpoints n) (m_vm_state n) (m_rf n) (m_variables n) (m_resend_all_variables n) (m_resend_timer n) (m_pending_breakpoint_request n) (m_pending_step_request n) x (m_watchers n) (next_id n).
Definition set_m_watchers x n : node K := mkNode (m_id n) (m_uuid n) (m_friendly_name n) (m_status n) (m_firmware_version n) (m_available_firmware_version n) (m_protocol_version n) (m_connected_app n) (m_description n) (counter_variables n) (counter_events n) (counter_functions n) (m_bytecode n) (m_breakpoints n) (m_vm_state n) (m_rf n) (m_variables n) (m_resend_all_variables n) (m_resend_timer n) (m_pending_breakpoint_request n) (m_pending_step_request n) (m_callbacks_pending_execution_state_change n) x (next_id n).
Definition set_next_id x n : node K := mkNode (m_id n) (m_uuid n) (m_friendly_name n) (m_status n) (m_firmware_version n) (m_available_firmware_version n) (m_protocol_version n) (m_connected_app n) (m_description n) (counter_variables n) (counter_events n) (counter_functions n) (m_bytecode n) (m_breakpoints n) (m_vm_state n) (m_rf n) (m_variables n) (m_resend_all_variables n) (m_resend_timer n) (m_pending_breakpoint_request n) (m_pending_step_request n) (m_callbacks_pending_execution_state_change n) (m_watchers n) x.
End Setters.

(** ** Handlers *)

(** A handler: the new state, the effects in order, and a result. *)
Definition handler (K A : Type) : Type := node K -> res runtime_error (A * node K * list (effect K)).

#[export] Instance handler_ret {K} : MRet (handler K) := fun A a n => Ok (a, n, []).
#[export] Instance handler_bind {K} : MBind (handler K) := fun A B f m n =>
  match m n with
  | Ok (a, n1, e1) =>
      match f a n1 with
      | Ok (b, n2, e2) => Ok (b, n2, e1 ++ e2)
      | Throw e => Throw e
      | Crash => Crash
      | Undef => Undef
      | NoFuel => NoFuel
      end
  | Throw e => Throw e
  | Crash => Crash
  | Undef => Undef
  | NoFuel => NoFuel
  end.

Definition read {K A} (f : node K -> A) : handler K A := fun n => Ok (f n, n, []).
Definition modify {K} (f : node K -> node K) : handler K unit := fun n => Ok (tt, f n, []).
Definition emit {K} (e : effect K) : handler K unit := fun n => Ok (tt, n, [e]).
Definition skip {K} : handler K unit := mret tt.
Definition when {K} (b : bool) (h : handler K unit) : handler K unit := if b then h else skip.
Definition lift {K A} (r : res runtime_error A) : handler K A := fun n => a ← r; Ok (a, n, []).

Section Handlers.
Context {K : Type}.
(** The endpoint that [m_endpoint.lock()] finds, a fresh random uuid, and the
    classification of letters that the lexer needs. *)
Variable endpoint : option endpoint_info.
Variable random_uuid : list Z.
Variable is_utf8_alpha_num : Z -> bool.
Variable uninitialized : Z.

Abbreviation handler := (handler K).

(** [write_messages] and [write_message]: without an endpoint the messages and
    the callback are dropped. *)
Definition write_messages (messages : list Message) (cb : write_callback K) : handler unit :=
  match endpoint with Some _ => emit (Write messages cb) | None => skip end.

Definition write_message (m : Message) (cb : write_callback K) : handler unit := write_messages [m] cb.

Definition message (type : Z) (b : Body) : Message := mkMessage ASEBA_DEST_DEBUG type b.
Definition to (id : Z) : CmdMessage.t := CmdMessage.mk id.

(** ** Status and locks *)

Definition set_status (s : status) : handler unit :=
  modify (set_m_status s);; emit (StatusChanged s).

(** [connect_app] is null where no application holds the node. *)
Definition lock (app : Z) : handler bool :=
  holder ← read m_connected_app;
  if decide (holder = Some app) then mret true
  else
    s ← read m_status;
    if negb (bool_decide (holder = None)) || negb (bool_decide (s = available)) then mret false
    else modify (set_m_connected_app (Some app));; set_status busy;; mret true.

Definition unlock (app : Z) : handler bool :=
  holder ← read m_connected_app;
  if negb (bool_decide (holder = Some app)) then mret false
  else modify (set_m_connected_app None);; set_status available;; mret true.

(** ** The kind of the node *)

Definition is_wirelessly_connected : bool := match endpoint with Some ep => ep_wireless ep | None => false end.

Definition node_kind : node_type :=
  match endpoint with
  | None => UnknownType
  | Some ep =>
      match ep_type ep with
      | thymio => if is_wirelessly_connected then Thymio2Wireless else Thymio2
      | simulated_thymio => SimulatedThymio2
      | simulated_dummy_node => DummyNode
      | unknown => UnknownType
      end
  end.

Definition friendly_name (n : node K) : list Z :=
  match m_friendly_name n with
  | [] => match endpoint with Some ep => ep_name ep | None => [] end
  | name => name
  end.

Definition can_be_renamed (n : node K) : bool :=
  match endpoint with
  | Some ep => match ep_type ep with thymio => 6 <=? protocolVersion (m_description n) | _ => false end
  | None => false
  end.

(** ** Variables *)

(** [std::find_if] over [m_variables] from the index [it]. *)
Fixpoint find_var (p : aseba_vm_variable -> bool) (it : nat) (l : list aseba_vm_variable) : option nat :=
  match l with
  | [] => None
  | v :: l' =>
      match it with
      | O => if p v then Some O else option_map S (find_var p 0 l')
      | S it' => option_map S (find_var p it' l')
      end
  end.

Definition covers (start : Z) (v : aseba_vm_variable) : bool := (v_start v <=? start) && (start <? v_start v + v_size v).

(** [resize(n, 0)]. *)
Definition resize (n : nat) (l : list Z) : list Z := take n l ++ replicate (n - List.length l) 0.

(** [std::copy] over a part of a vector. *)
Definition overwrite (l : list Z) (at_ : nat) (d : list Z) : list Z := take at_ l ++ d ++ drop (at_ + List.length d) l.

Definition name_of (s : string) : list Z := ws s.

(** The loop of [set_variables]: [it] is the index of the iterator. *)
Fixpoint set_variables_loop (fuel : nat) (it : nat) (start : Z) (data : list Z) (vars : variables_map) : handler variables_map :=
  match fuel with
  | O => lift NoFuel
  | S fuel' =>
      match data with
      | [] => mret vars
      | _ =>
          variables ← read m_variables;
          match find_var (covers start) it variables with
          | None => mret vars
          | Some it =>
              match variables !! it with
              | None => mret vars
              | Some var =>
                  let var_start := start - v_start var in
                  let force_change := negb (v_size var =? Z.of_nat (List.length (v_value var))) in
                  let value := resize (Z.to_nat (v_size var)) (v_value var) in
                  let count := Z.min (v_size var - var_start) (Z.of_nat (List.length data)) in
                  let chunk := take (Z.to_nat count) data in
                  let changed := force_change || negb (bool_decide (take (Z.to_nat count) (drop (Z.to_nat var_start) value) = chunk)) in
                  let value' := if changed then overwrite value (Z.to_nat var_start) chunk else value in
                  modify (set_m_variables (<[it := mkVmVariable (v_name var) (v_start var) (v_size var) value']> variables));;
                  (if changed then
                     version ← read m_firmware_version;
                     when (bool_decide (v_name var = name_of "_fwversion") && negb (version =? List.hd 0 value'))
                       (modify (set_m_firmware_version (List.hd 0 value'));; s ← read m_status; set_status s)
                   else skip);;
                  set_variables_loop fuel' it (u16 (start + u16 count)) (drop (Z.to_nat count) data)
                    (if changed then om_insert (v_name var) (aseba_variable_from_range value') vars else vars)
              end
          end
      end
  end.

Definition set_variables (start : Z) (data : list Z) (vars : variables_map) : handler variables_map :=
  set_variables_loop (S (List.length data)) 0 start data vars.

Definition schedule_variables_update (delay_ms : Z) : handler unit := emit (Arm (VariablesTimer delay_ms)).

Definition on_variables (m : Variables.t) : handler unit :=
  changed ← set_variables (Variables.start m) (Variables.variables m) [];
  emit (VariablesChanged changed);;
  schedule_variables_update 100.

Fixpoint set_areas (l : list ChangedVariables.area) (vars : variables_map) : handler variables_map :=
  match l with
  | [] => mret vars
  | a :: l' => vars ← set_variables (ChangedVariables.area_start a) (ChangedVariables.area_variables a) vars; set_areas l' vars
  end.

Definition on_changed_variables (m : ChangedVariables.t) : handler unit :=
  changed ← set_areas (ChangedVariables.variables m) [];
  emit (VariablesChanged changed);;
  schedule_variables_update 100.

(** [variables()]: an entry for every name, the first one. *)
Definition variables (n : node K) : variables_map :=
  foldl (fun m v => om_insert (v_name v) (aseba_variable_from_range (v_value v)) m) [] (m_variables n).

(** The loop of [request_variables]: messages are cut at the boundaries of
    variables. *)
Definition get_variables (id start size : Z) : Message :=
  message ASEBA_MESSAGE_GET_VARIABLES (GetVariables (GetVariables.mk (to id) start size)).

Definition request_step (id : Z) (acc : Z * Z * list Message) (v : aseba_vm_variable) : Z * Z * list Message :=
  let '(start, size, messages) := acc in
  let '(start, size, messages) :=
    if ASEBA_MAX_EVENT_ARG_COUNT - 2 <? size + v_size v then (u16 (start + size), 0, messages ++ [get_variables id start size])
    else (start, size, messages) in
  (start, u16 (size + v_size v), messages).

Definition request_all (id : Z) (vars : list aseba_vm_variable) : list Message :=
  let '(start, size, messages) := foldl (request_step id) (0, 0, []) vars in
  if 0 <? size then messages ++ [get_variables id start size] else messages.

Definition request_variables : handler unit :=
  n ← read (fun n => n);
  if negb (m_resend_all_variables n) && (100 <=? protocolVersion (m_description n)) then
    write_messages [message ASEBA_MESSAGE_GET_CHANGED_VARIABLES (GetChangedVariables (to (m_id n)))] NoCallback
  else
    modify (set_m_resend_all_variables false);;
    write_messages (request_all (m_id n) (m_variables n)) NoCallback.

(** The timer of [schedule_variables_update]. *)
Definition on_variables_timer : handler unit :=
  s ← read m_status;
  if decide (s = disconnected) then skip
  else
    watched ← read m_watchers;
    when watched request_variables;;
    schedule_variables_update 1000.

(** [connect_to_variables_changes]. *)
Definition connect_to_variables_changes : handler unit :=
  modify (set_m_resend_all_variables true);;
  schedule_variables_update 100;;
  modify (set_m_watchers true).

(** [lower_bound] by the address, and the insertion at its result unless the
    address is taken. *)
Fixpoint insert_variable (v : aseba_vm_variable) (start : Z) (l : list aseba_vm_variable) : list aseba_vm_variable * bool :=
  match l with
  | [] => ([v], true)
  | x :: l' =>
      if v_start x <? start then let '(l'', b) := insert_variable v start l' in (x :: l'', b)
      else if v_start x =? start then (l, false)
      else (v :: l, true)
  end.

Definition known_step (acc : list aseba_vm_variable * variables_map) (var : wstring * (Z * Z)) : list aseba_vm_variable * variables_map :=
  let '(vars, removed) := acc in
  let '(wname, (start, size)) := var in
  let name := WStringToUTF8 wname in
  let '(vars', inserted) := insert_variable (mkVmVariable name (u16 start) (u16 size) []) start vars in
  (vars', if inserted then om_erase name removed else removed).

Definition reset_known_variables (map : VariablesMap) : handler unit :=
  vars ← read m_variables;
  let removed : variables_map := foldl (fun m v => om_insert (v_name v) Null m) [] vars in
  let '(vars, removed) := foldl known_step ([], removed) map in
  modify (set_m_variables vars);;
  emit (VariablesChanged removed);;
  modify (set_m_resend_all_variables true).

(** [set_node_variables]: the first variable that does not exist or does not fit
    makes an error, before anything is sent. *)
Fixpoint set_messages (n : node K) (map : variables_map) : res runtime_error (list Message + error_code) :=
  match map with
  | [] => Ok (inl [])
  | (name, value) :: map' =>
      match find_var (fun v => bool_decide (v_name v = name)) 0 (m_variables n) with
      | None => Ok (inr no_such_variable)
      | Some it =>
          match m_variables n !! it with
          | None => Crash
          | Some var =>
              match to_aseba_variable value (v_size var) with
              | Ok (inl words) =>
                  rest ← set_messages n map';
                  Ok (match rest with
                      | inl ms => inl (message ASEBA_MESSAGE_SET_VARIABLES (SetVariables (SetVariables.mk (to (m_id n)) (v_start var) words)) :: ms)
                      | inr e => inr e
                      end)
              | Ok (inr e) => Ok (inr e)
              | Undef => Undef
              | NoFuel => NoFuel
              | Throw _ | Crash => Crash
              end
          end
      end
  end.

Definition set_node_variables (map : variables_map) (cb : write_callback K) : handler (option error_code) :=
  n ← read (fun n => n);
  ms ← lift (set_messages n map);
  match ms with
  | inl messages => write_messages messages cb;; mret None
  | inr e => mret (Some e)
  end.
End Handlers.
