(* ===== verification/NodeCode.v ===== *)
(** * Programs, execution state and breakpoints of a node

    thymio-device-manager/aseba_node.cpp: compiling and sending programs,
    commands to the virtual machine, single steps and breakpoints. *)
From Stdlib Require Import ZArith Lia List String.
From stdpp Require Import base list list_monad.
From S2P Require Import Prelude Consts OrdMap Bits Target Utils Errors Lookup Emit Link MsgClasses Msg Property Node.

Local Open Scope Z_scope.

Section Code.
Context {K : Type}.
(** As in Node, with the process-wide counter of temporary names and the map of
    variables that a rejected program leaves in its compiler. *)
Variable endpoint : option endpoint_info.
Variable is_utf8_alpha_num : Z -> bool.
Variable uninitialized : Z.
Variable static_uid : Z.
Variable partial_map : VariablesMap.

Abbreviation handler := (handler K).
Abbreviation write_messages := (write_messages endpoint).
Abbreviation write_message := (write_message endpoint).

Definition post (t : task K) : handler unit := emit (Post t).

(** ** Execution state *)

Definition line_from_pc (pc : Z) (n : node K) : Z :=
  let pc := u32 pc in
  if (5 <=? pc) && (pc <? Z.of_nat (List.length (m_bytecode n))) then
    match m_bytecode n !! Z.to_nat pc with Some e => line e + 1 | None => 0 end
  else 0.

(** [cancel_pending_step_request]: without an error it is a cancellation. *)
Definition canceled (e : system_error) : system_error := match e with success => operation_canceled | e => e end.

Definition cancel_step : handler unit :=
  pending ← read m_pending_step_request;
  match pending with
  | Some r =>
      post (WriteTask (sr_cb r) (canceled (sr_error r)))
  | None => skip
  end;;
  modify (set_m_pending_step_request None).

Definition handle_step_request : handler unit :=
  pending ← read m_pending_step_request;
  match pending with
  | None => skip
  | Some r =>
      vm ← read m_vm_state;
      if negb (bool_decide (vm_running vm = Paused)) then cancel_step
      else if negb (vm_line vm =? sr_line r) then
        post (WriteTask (sr_cb r) (sr_error r));;
        modify (set_m_pending_step_request None)
      else
        id ← read m_id;
        write_message (message ASEBA_MESSAGE_STEP (Step (to id))) (StepWritten (sr_id r))
  end.

Definition fresh_id : handler nat :=
  i ← read next_id; modify (set_next_id (S i));; mret i.

Definition step_to_next_line (cb : K) : handler unit :=
  cancel_step;;
  i ← fresh_id;
  vm ← read m_vm_state;
  modify (set_m_pending_step_request (Some (mkStepRequest i (u16 (vm_pc vm)) (u16 (vm_line vm)) success cb)));;
  handle_step_request.

(** The posts of [on_execution_state_message]. *)
Fixpoint post_all (l : list (task K)) : handler unit :=
  match l with
  | [] => skip
  | t :: l' => post t;; post_all l'
  end.

Definition on_execution_state (m : ExecutionStateChanged.t) : handler unit :=
  tasks ← read m_callbacks_pending_execution_state_change;
  post_all tasks;;
  modify (set_m_callbacks_pending_execution_state_change []);;
  n ← read (fun n => n);
  let pc := ExecutionStateChanged.pc m in
  let flags := ExecutionStateChanged.flags m in
  let state :=
    if Z.land flags ASEBA_VM_STEP_BY_STEP_MASK =? 0 then Running
    else if Z.land flags ASEBA_VM_EVENT_ACTIVE_MASK =? 0 then Stopped else Paused in
  let line := line_from_pc pc n in
  modify (set_m_vm_state (mkVmState pc flags line state));;
  handle_step_request;;
  pending ← read m_pending_step_request;
  match pending with
  | Some _ => skip
  | None => emit (VmStateChanged (mkExecutionState state line NoError None))
  end.

(** [on_vm_runtime_error] of the four messages that it is called with. *)
Definition runtime_error_of (b : Body) : option (Z * VMExecutionError * list Z) :=
  match b with
  | ArrayAccessOutOfBounds m => Some (ArrayAccessOutOfBounds.pc m, OutOfBoundAccess, name_of "Out of bound access")
  | DivisionByZero m => Some (DivisionByZero.pc m, DivisionByZeroError, name_of "Division by 0")
  | EventExecutionKilled m => Some (EventExecutionKilled.pc m, Killed, name_of "VM Execution killed")
  | NodeSpecificError m => Some (NodeSpecificError.pc m, GenericError, WStringToUTF8 (NodeSpecificError.message m))
  | _ => None
  end.

Definition on_vm_runtime_error (b : Body) : handler unit :=
  cancel_step;;
  match runtime_error_of b with
  | None => lift Crash
  | Some (pc, error, text) =>
      n ← read (fun n => n);
      let line := line_from_pc pc n in
      modify (set_m_vm_state (mkVmState pc (vm_flags (m_vm_state n)) line Stopped));;
      emit (VmStateChanged (mkExecutionState Stopped line error (Some text)))
  end.

Definition execution_state (n : node K) : vm_execution_state :=
  mkExecutionState (vm_running (m_vm_state n)) (vm_line (m_vm_state n)) NoError None.

Definition schedule_execution_state_update : handler unit :=
  id ← read m_id;
  write_message (message ASEBA_MESSAGE_GET_EXECUTION_STATE (GetExecutionState (to id))) NoCallback;;
  emit (Arm (StatusTimer 1000)).

Definition on_status_timer : handler unit :=
  s ← read m_status;
  if decide (s = disconnected) then skip else schedule_execution_state_update.

(** ** Breakpoints *)

(** Insertion in an [unordered_set]; its order is the one of the insertions. *)
Definition insert_line (b : Z) (l : list Z) : list Z := if bool_decide (b ∈ l) then l else l ++ [b].

Fixpoint pc_from (i : Z) (code : list BytecodeElement) (line : Z) : Z :=
  match code with
  | [] => -1
  | e :: code' => if Emit.line e =? line - 1 then i else pc_from (i + 1) code' line
  end.

(** [pc_from_line]: the line number becomes an [int]. *)
Definition pc_from_line (n : node K) (b : Z) : Z := pc_from 0 (m_bytecode n) (s32 b).

Definition cancel_breakpoints : handler unit :=
  pending ← read m_pending_breakpoint_request;
  match pending with
  | Some r => post (BreakpointsTask (br_cb r) operation_canceled [])
  | None => skip
  end;;
  modify (set_m_pending_breakpoint_request None).

(** What the loops of [set_breakpoints] collect: the messages, the breakpoints
    to wait for, and the ones that are set already. *)
Definition breakpoint_step (n : node K) (acc : list Message * omap Z Z * list Z) (b : Z) : list Message * omap Z Z * list Z :=
  let '(messages, pending, set) := acc in
  if bool_decide (b ∈ m_breakpoints n) then (messages, pending, insert_line b set)
  else
    let pc := pc_from_line n b in
    if 0 <=? pc then
      (messages ++ [message ASEBA_MESSAGE_BREAKPOINT_SET (BreakpointSet (BreakpointSet.mk (to (m_id n)) (u16 pc)))],
       om_set pc b pending, set)
    else acc.

Definition clear_step (n : node K) (wanted : list Z) (messages : list Message) (b : Z) : list Message :=
  let pc := pc_from_line n b in
  if (0 <=? pc) && negb (bool_decide (b ∈ wanted)) then
    messages ++ [message ASEBA_MESSAGE_BREAKPOINT_CLEAR (BreakpointClear (BreakpointClear.mk (to (m_id n)) (u16 pc)))]
  else messages.

Definition set_breakpoints (wanted : list Z) (cb : K) : handler unit :=
  n ← read (fun n => n);
  let '(messages, pending, set) :=
    match wanted with
    | [] => ([message ASEBA_MESSAGE_BREAKPOINT_CLEAR_ALL (BreakpointClearAll (to (m_id n)))], [], [])
    | _ =>
        let '(messages, pending, set) := foldl (breakpoint_step n) ([], [], []) wanted in
        (foldl (clear_step n wanted) messages (m_breakpoints n), pending, set)
    end in
  modify (set_m_breakpoints (foldl (fun l b => insert_line b l) [] wanted));;
  cancel_breakpoints;;
  i ← fresh_id;
  modify (set_m_pending_breakpoint_request (Some (mkBreakpointRequest i pending set success cb)));;
  match messages with
  | [] =>
      modify (set_m_breakpoints set);;
      modify (set_m_pending_breakpoint_request None);;
      post (BreakpointsTask cb success set)
  | _ => skip
  end;;
  write_messages messages (BreakpointsWritten i).

Definition on_breakpoint_set_result (m : BreakpointSetResult.t) : handler unit :=
  pending ← read m_pending_breakpoint_request;
  match pending with
  | None => skip
  | Some r =>
      match om_find (BreakpointSetResult.pc m) (br_pending r) with
      | None => skip
      | Some b =>
          let set := if BreakpointSetResult.success m =? 0 then br_set r else insert_line b (br_set r) in
          let rest := om_erase (BreakpointSetResult.pc m) (br_pending r) in
          match rest with
          | [] =>
              modify (set_m_breakpoints set);;
              post (BreakpointsTask (br_cb r) (br_error r) set);;
              modify (set_m_pending_breakpoint_request None)
          | _ => modify (set_m_pending_breakpoint_request (Some (mkBreakpointRequest (br_id r) rest set (br_error r) (br_cb r))))
          end
      end
  end.

(** ** The callbacks of writes *)

Definition is_success (ec : system_error) : bool := match ec with success => true | _ => false end.

(** What a callback given to [write_messages] does with the error code. *)
Definition on_written (cb : write_callback K) (ec : system_error) : handler unit :=
  match cb with
  | NoCallback => skip
  | AppWritten k => post (WriteTask k ec)
  | BreakpointsWritten i =>
      pending ← read m_pending_breakpoint_request;
      match pending with
      | Some r =>
          if (br_id r =? i)%nat then
            if negb (is_success ec) || bool_decide (br_pending r = []) then
              modify (set_m_breakpoints (br_set r));;
              modify (set_m_pending_breakpoint_request None);;
              post (BreakpointsTask (br_cb r) ec (br_set r))
            else modify (set_m_pending_breakpoint_request (Some (mkBreakpointRequest (br_id r) (br_pending r) (br_set r) ec (br_cb r))))
          else skip
      | None => skip
      end
  | StepWritten i =>
      if is_success ec then skip
      else
        pending ← read m_pending_step_request;
        match pending with
        | Some r =>
            if (sr_id r =? i)%nat then
              modify (set_m_pending_step_request (Some (mkStepRequest (sr_id r) (sr_pc r) (sr_line r) ec (sr_cb r))));;
              cancel_step
            else skip
        | None => skip
        end
  | ProgramWritten k result =>
      if is_success ec then
        tasks ← read m_callbacks_pending_execution_state_change;
        modify (set_m_callbacks_pending_execution_state_change (tasks ++ [CompileTask k ec (Some result)]))
      else post (CompileTask k ec (Some result))
  end.

(** ** Programs *)

Definition fresh_compiler (desc : TargetDescription) (defs : CommonDefinitions) : Compiler :=
  mkCompiler [] [] [] [] [] [] [] [] [] 0 0 desc defs static_uid.

(** [do_compile_program]: the result, the vector of the caller and the map of
    the variables.  Only the language is an error of the call; a program that
    does not compile is a result. *)
Definition do_compile_program (desc : TargetDescription) (defs : CommonDefinitions) (language : programming_language)
  (program : list Z) (bytecode : list BytecodeElement)
  : res runtime_error ((compilation_result + error_code) * list BytecodeElement * VariablesMap) :=
  match language with
  | Aesl => Ok (inr unsupported_language, bytecode, partial_map)
  | Aseba =>
      source ← UTF8ToWString program;
      match compile is_utf8_alpha_num uninitialized source (fresh_compiler desc defs) with
      | Ok (Rejected e linked, _) =>
          text ← err_message e;
          Ok (inl (CompilationError (character (err_pos e)) (row (err_pos e)) (column (err_pos e)) (WStringToUTF8 text)),
              match linked with Some v => v | None => [] end, partial_map)
      | Ok (Compiled code count, c) =>
          Ok (inl (CompilationDone (Z.of_nat (List.length code)) count (bytecodeSize desc) (variablesSize desc)), code, variablesMap c)
      | Throw _ | Crash => Crash
      | Undef => Undef
      | NoFuel => NoFuel
      end
  end.

(** [endpoint()->aseba_compiler_definitions()]. *)
Definition definitions : handler CommonDefinitions :=
  match endpoint with Some ep => mret (ep_definitions ep) | None => lift Crash end.

Definition compile_program (language : programming_language) (program : list Z) (cb : K) : handler unit :=
  defs ← definitions;
  n ← read (fun n => n);
  '(result, _, _) ← lift (do_compile_program (m_description n) defs language program []);
  match result with
  | inr e => post (CompileTask cb (tdm_error e) None)
  | inl r => post (CompileTask cb success (Some r))
  end.

Definition words (code : list BytecodeElement) : list Z := List.map bytecode code.

(** [sendBytecode] and the write of its messages. *)
Definition send_code (code : list BytecodeElement) : handler (list Message) :=
  id ← read m_id;
  lift (match sendBytecode [] id (words code) with Some ms => Ok ms | None => NoFuel end).

(** What compiling a program does first. *)
Definition forget_requests : handler unit :=
  modify (set_m_breakpoints []);; cancel_step;; cancel_breakpoints.

(** The callback is called at once for a language that is not supported; the
    callbacks of applications post, too. *)
Definition compile_and_send_program (language : programming_language) (program : list Z) (cb : K) : handler unit :=
  forget_requests;;
  defs ← definitions;
  n ← read (fun n => n);
  '(result, code, map) ← lift (do_compile_program (m_description n) defs language program (m_bytecode n));
  modify (set_m_bytecode code);;
  match result with
  | inr e => post (CompileTask cb (tdm_error e) None)
  | inl r =>
      messages ← send_code code;
      reset_known_variables map;;
      write_messages messages (ProgramWritten cb r);;
      vars ← read variables;
      emit (VariablesChanged vars)
  end.

Definition swapByteOrder (us : Z) : Z := u16 (Z.lor (Z.shiftr us 8) (Z.shiftl us 8)).

(** [compile_and_save]: the words of an .abo file; the callback is for the
    language that is not supported.  The version of the firmware is read from
    a value that may not have arrived. *)
Definition compile_and_save (language : programming_language) (program : list Z) (cb : K) : handler (list Z) :=
  forget_requests;;
  defs ← definitions;
  n ← read (fun n => n);
  '(result, code, _) ← lift (do_compile_program (m_description n) defs language program (m_bytecode n));
  modify (set_m_bytecode code);;
  let data := words code in
  match result with
  | inr e => post (CompileTask cb (tdm_error e) None);; mret data
  | inl _ =>
      let desc := m_description n in
      version ← match find_var (fun v => bool_decide (v_name v = name_of "_fwversion")) 0 (m_variables n) with
                | None => mret []
                | Some it =>
                    match m_variables n !! it with
                    | Some var => match v_value var with w :: _ => mret [swapByteOrder (u16 w)] | [] => lift Crash end
                    | None => lift Crash
                    end
                end;
      mret ([65; 66; 79; 0; 0; swapByteOrder (u16 (protocolVersion desc)); swapByteOrder 8] ++ version ++
            [swapByteOrder 1; swapByteOrder (crcXModem_wstring 0 (target_name desc)); swapByteOrder (crc desc);
             swapByteOrder (u16 (Z.of_nat (List.length data)))] ++
            List.map swapByteOrder data ++
            [swapByteOrder (foldl crcXModem_u16 0 data)])
  end.

Definition compile_and_send_aseba_command (program : list Z) : handler unit :=
  defs ← definitions;
  n ← read (fun n => n);
  source ← lift (UTF8ToWString program);
  code ← lift (match compile is_utf8_alpha_num uninitialized source (fresh_compiler (m_description n) defs) with
               | Ok (Compiled code _, _) => Ok code
               | Ok (Rejected _ linked, _) => Ok (match linked with Some v => v | None => [] end)
               | Throw _ | Crash => Crash
               | Undef => Undef
               | NoFuel => NoFuel
               end);
  modify (set_m_bytecode code);;
  messages ← send_code code;
  write_messages messages NoCallback.

(** [fb::VMExecutionStateCommand]. *)
Inductive vm_command : Type :=
| CommandRun | CommandReset | CommandStop | CommandPause | CommandStepToNextLine | CommandStep | CommandSuspend
| CommandReboot | CommandWriteProgramToDeviceMemory.

Definition stop_program : list Z := name_of "
                                         motor.left.target = 0
                                         motor.right.target = 0 ".

(** The second use of the callback of [Stop] finds it moved away. *)
Definition set_vm_execution_state (command : vm_command) (cb : K) : handler unit :=
  id ← read m_id;
  let write (type : Z) (b : Body) (cb : write_callback K) := write_message (message type b) cb in
  match command with
  | CommandRun => write ASEBA_MESSAGE_RUN (Run (to id)) (AppWritten cb)
  | CommandReset => write ASEBA_MESSAGE_RESET (Reset (to id)) (AppWritten cb)
  | CommandStop =>
      compile_and_send_aseba_command stop_program;;
      write ASEBA_MESSAGE_RUN (Run (to id)) (AppWritten cb);;
      write ASEBA_MESSAGE_STOP (Stop (to id)) NoCallback
  | CommandPause => write ASEBA_MESSAGE_PAUSE (Pause (to id)) (AppWritten cb)
  | CommandStepToNextLine => step_to_next_line cb
  | CommandStep => write ASEBA_MESSAGE_STEP (Step (to id)) (AppWritten cb)
  | CommandSuspend => write ASEBA_MESSAGE_SUSPEND_TO_RAM (Sleep (to id)) (AppWritten cb)
  | CommandReboot => write ASEBA_MESSAGE_REBOOT (Reboot (to id)) (AppWritten cb)
  | CommandWriteProgramToDeviceMemory => write ASEBA_MESSAGE_WRITE_BYTECODE (WriteBytecode (to id)) (AppWritten cb)
  end.
End Code.
