(* ===== verification/NodeInfo.v ===== *)
(** * Description, identity and dispatch of a node

    thymio-device-manager/aseba_node.cpp: the exchange of the description, the
    persistent information of the device, and [on_message]. *)
From Stdlib Require Import ZArith Lia List String.
From stdpp Require Import base list list_monad.
From S2P Require Import Prelude Consts OrdMap Bits Target Utils Errors Lookup Emit Link MsgClasses Msg Property Node NodeCode.

Local Open Scope Z_scope.

Definition MAX_FRIENDLY_NAME_SIZE : Z := 30.

Section Info.
Context {K : Type}.
Variable endpoint : option endpoint_info.
Variable random_uuid : list Z.

Abbreviation handler := (handler K).
Abbreviation write_message := (write_message endpoint).

(** ** The description *)

(** A description without the counters of what has been received. *)
Definition fragment_number (n : node K) : Z :=
  if 0 <? protocolVersion (m_description n)
  then s16 (counter_variables n + counter_functions n + counter_events n)
  else -1.

Definition request_next_description_fragment : handler unit :=
  n ← read (fun n => n);
  write_message (message ASEBA_MESSAGE_GET_NODE_DESCRIPTION_FRAGMENT
    (GetNodeDescriptionFragment (GetNodeDescriptionFragment.mk (to (m_id n)) ASEBA_PROTOCOL_VERSION (fragment_number n)))) NoCallback;;
  emit (Arm (ResendTimer 1000));;
  modify (set_m_resend_timer ResendFragment).

Definition get_description : handler unit :=
  n ← read (fun n => n);
  if 8 <=? m_protocol_version n then request_next_description_fragment
  else write_message (message ASEBA_MESSAGE_GET_NODE_DESCRIPTION
         (GetNodeDescription (GetNodeDescription.mk (to (m_id n)) ASEBA_PROTOCOL_VERSION))) NoCallback.

(** [safe_description_update]: at the counter, unless the list is full or has
    the name. *)
Definition safe_description_update {A} (name : A -> wstring) (x : A) (list : list A) (counter : Z) : Datatypes.list A * Z :=
  if Z.of_nat (List.length list) <=? counter then (list, counter)
  else if existsb (fun y => bool_decide (name y = name x)) list then (list, counter)
  else (<[Z.to_nat counter := x]> list, u16 (counter + 1)).

Definition with_variables (l : list NamedVariable) (d : TargetDescription) : TargetDescription :=
  mkTarget (target_name d) (protocolVersion d) (bytecodeSize d) (variablesSize d) (stackSize d) l (localEvents d) (nativeFunctions d).
Definition with_events (l : list LocalEvent) (d : TargetDescription) : TargetDescription :=
  mkTarget (target_name d) (protocolVersion d) (bytecodeSize d) (variablesSize d) (stackSize d) (namedVariables d) l (nativeFunctions d).
Definition with_functions (l : list NativeFunction) (d : TargetDescription) : TargetDescription :=
  mkTarget (target_name d) (protocolVersion d) (bytecodeSize d) (variablesSize d) (stackSize d) (namedVariables d) (localEvents d) l.

(** The switch of [handle_description_messages]; other messages are dropped. *)
Definition update_description (b : Body) (n : node K) : option (node K) :=
  let desc := m_description n in
  match b with
  | Description m => Some (set_m_description (Description.target m) n)
  | NamedVariableDescription m =>
      let '(l, c) := safe_description_update var_name (NamedVariableDescription.variable m) (namedVariables desc) (counter_variables n) in
      Some (set_counter_variables c (set_m_description (with_variables l desc) n))
  | LocalEventDescription m =>
      let '(l, c) := safe_description_update event_name (LocalEventDescription.event m) (localEvents desc) (counter_events n) in
      Some (set_counter_events c (set_m_description (with_events l desc) n))
  | NativeFunctionDescription m =>
      let '(l, c) := safe_description_update func_name (NativeFunctionDescription.function m) (nativeFunctions desc) (counter_functions n) in
      Some (set_counter_functions c (set_m_description (with_functions l desc) n))
  | _ => None
  end.

Definition description_ready (n : node K) : bool :=
  let desc := m_description n in
  negb (bool_decide (target_name desc = [])) &&
  (counter_variables n =? Z.of_nat (List.length (namedVariables desc))) &&
  (counter_events n =? Z.of_nat (List.length (localEvents desc))) &&
  (counter_functions n =? Z.of_nat (List.length (nativeFunctions desc))).

Definition get_device_info (n : node K) (info : Z) : Message :=
  message ASEBA_MESSAGE_GET_DEVICE_INFO (GetDeviceInfo (GetDeviceInfo.mk (to (m_id n)) info)).

Definition set_device_info (n : node K) (info : Z) (data : list Z) : Message :=
  message ASEBA_MESSAGE_SET_DEVICE_INFO (SetDeviceInfo (SetDeviceInfo.mk (to (m_id n)) info data)).

(** [request_device_info]; [m_uuid_received] is never set. *)
Definition request_device_info : handler unit :=
  n ← read (fun n => n);
  if protocolVersion (m_description n) <? 6 then skip
  else
    write_message (get_device_info n DEVICE_INFO_NAME) NoCallback;;
    when (9 <=? protocolVersion (m_description n)) (write_message (get_device_info n DEVICE_INFO_THYMIO2_RF_SETTINGS) NoCallback);;
    write_message (get_device_info n DEVICE_INFO_UUID) NoCallback;;
    emit (Arm (ResendTimer 1000));;
    modify (set_m_resend_timer ResendDeviceInfo).

Definition on_resend_timer : handler unit :=
  t ← read m_resend_timer;
  modify (set_m_resend_timer ResendNothing);;
  match t with
  | ResendNothing => skip
  | ResendFragment => request_next_description_fragment
  | ResendDeviceInfo => request_device_info
  end.

Definition cancel_resend : handler unit := emit CancelResend;; modify (set_m_resend_timer ResendNothing).

Definition is_thymio2 : bool :=
  match node_kind endpoint with Thymio2 | Thymio2Wireless => true | _ => false end.

Definition on_description_received : handler unit :=
  desc ← read m_description;
  reset_known_variables (fst (getVariablesMap desc));;
  schedule_variables_update 100;;
  schedule_execution_state_update endpoint;;
  n ← read (fun n => n);
  match find_var (fun v => bool_decide (v_name v = name_of "_fwversion")) 0 (m_variables n) with
  | Some it =>
      match m_variables n !! it with
      | Some v => write_message (get_variables (m_id n) (v_start v) (v_size v)) NoCallback
      | None => skip
      end
  | None => skip
  end;;
  if (6 <=? protocolVersion (m_description n)) && is_thymio2 then request_device_info
  else set_status available.

Definition update (b : Body) (n : node K) : node K :=
  match update_description b n with Some n' => n' | None => n end.

Definition handle_description_messages (b : Body) : handler unit :=
  known ← read (update_description b);
  match known with
  | None => skip
  | Some _ =>
      modify (update b);;
      cancel_resend;;
      n ← read (fun n => n);
      let ready := description_ready n in
      when (negb ready && (8 <=? m_protocol_version n)) request_next_description_fragment;;
      when ready on_description_received
  end.

(** ** Identity *)

Definition nil_uuid : list Z := replicate 16 0.

(** A 16-bit word of the host at an offset; the swap is the identity. *)
Definition word_at (data : list Z) (i : nat) : Z := u16_of_bytes (nth i data 0) (nth (S i) data 0).

Definition on_device_info (m : DeviceInfo.t) : handler unit :=
  let data := DeviceInfo.data m in
  if DeviceInfo.info m =? DEVICE_INFO_UUID then
    cancel_resend;;
    let full := Z.of_nat (List.length data) =? 16 in
    when full (modify (set_m_uuid data));;
    uuid ← read m_uuid;
    let nil := bool_decide (uuid = nil_uuid) in
    when nil (modify (set_m_uuid random_uuid));;
    n ← read (fun n => n);
    when (nil || negb full) (write_message (set_device_info n DEVICE_INFO_UUID (m_uuid n)) NoCallback);;
    emit UuidChanged;;
    set_status available
  else if DeviceInfo.info m =? DEVICE_INFO_NAME then
    modify (set_m_friendly_name data);;
    s ← read m_status;
    set_status s
  else if DeviceInfo.info m =? DEVICE_INFO_THYMIO2_RF_SETTINGS then
    when (Z.of_nat (List.length data) =? 6)
      (modify (set_m_rf (word_at data 0, word_at data 2, word_at data 4)))
  else skip.

Definition set_rf_settings (network node channel : Z) : handler bool :=
  n ← read (fun n => n);
  if protocolVersion (m_description n) <? 9 then mret false
  else
    let node := if node =? 0 then m_id n else node in
    write_message (set_device_info n DEVICE_INFO_THYMIO2_RF_SETTINGS (u16_bytes network ++ u16_bytes node ++ u16_bytes channel)) NoCallback;;
    write_message (message ASEBA_MESSAGE_REBOOT (Reboot (to (m_id n)))) NoCallback;;
    write_message (message ASEBA_MESSAGE_REBOOT (Reboot (to (m_id n)))) NoCallback;;
    mret true.

Definition set_friendly_name (name : list Z) : handler unit :=
  if bool_decide (name = []) || (MAX_FRIENDLY_NAME_SIZE <? Z.of_nat (List.length name)) then skip
  else
    n ← read (fun n => n);
    write_message (set_device_info n DEVICE_INFO_NAME name) NoCallback;;
    modify (set_m_friendly_name name).

Definition rename (name : list Z) : handler unit :=
  set_friendly_name name;;
  n ← read (fun n => n);
  write_message (get_device_info n DEVICE_INFO_NAME) NoCallback.

(** [upgrade_firmware] of the node: what the endpoint answers is a parameter. *)
Definition upgrade_firmware (started : bool) : handler bool :=
  s ← read m_status;
  if is_wirelessly_connected endpoint || negb (bool_decide (s = available)) then mret false
  else
    set_status upgrading;;
    match endpoint with
    | Some _ => emit UpgradeEndpoint;; mret started
    | None => mret false
    end.

(** ** Messages of the device *)

Definition on_message (m : Message) : handler unit :=
  match body m with
  | DeviceInfo i => on_device_info i
  | Variables v => on_variables v
  | ChangedVariables v => on_changed_variables v
  | ExecutionStateChanged s => on_execution_state endpoint s
  | ArrayAccessOutOfBounds _ | DivisionByZero _ | EventExecutionKilled _ | NodeSpecificError _ =>
      on_vm_runtime_error (body m)
  | BreakpointSetResult r => on_breakpoint_set_result r
  | Description _ | NamedVariableDescription _ | NativeFunctionDescription _ | LocalEventDescription _ =>
      handle_description_messages (body m)
  | _ => skip
  end.

Definition on_event_received (events : variables_map) : handler unit := emit (EventsReceived events).

Definition disconnect : handler unit :=
  cancel_step;; cancel_breakpoints;; set_status disconnected.

(** [~aseba_node]; it also warns when the node was not disconnected before. *)
Definition destroy : handler unit := cancel_step;; cancel_breakpoints.

(** [create]: a new node, registered as connected. *)
Definition new_node (id protocol_version : Z) : node K :=
  mkNode id random_uuid [] disconnected 0 0 protocol_version None
    (mkTarget [] 0 0 0 0 [] [] []) 0 0 0 [] [] (mkVmState 0 0 0 Stopped) (0, 0, 0) [] true ResendNothing None None [] false 0.

Definition create (id protocol_version : Z) : res runtime_error (unit * node K * list (effect K)) :=
  set_status connected (new_node id protocol_version).
End Info.
