(* ===== verification/NodeSpec.v ===== *)
(** * What the handlers of a node keep

    The operations of a node as one type, the callbacks of applications it
    owes, and who holds its lock. *)
From Stdlib Require Import ZArith Lia List String.
From stdpp Require Import base list list_monad sorting.
From S2P Require Import Prelude Consts OrdMap Bits Target Utils Errors Lookup Emit Link MsgClasses Msg Property Node NodeCode NodeInfo.

Local Open Scope Z_scope.

(** ** Operations *)

(** The entries of a node: messages of the device, timers, ends of writes, and
    the calls of applications and of the manager. *)
Inductive operation (K : Type) : Type :=
| OnMessage (m : Message)
| OnVariablesTimer
| OnStatusTimer
| OnResendTimer
| OnWritten (cb : write_callback K) (ec : system_error)
| Lock (app : Z)
| Unlock (app : Z)
| CompileProgram (language : programming_language) (program : list Z) (cb : K)
| CompileAndSend (language : programming_language) (program : list Z) (cb : K)
| SetExecutionState (command : vm_command) (cb : K)
| SetBreakpoints (lines : list Z) (cb : K)
| SetVariables (map : variables_map) (cb : K)
| Rename (name : list Z)
| WatchVariables
| GetDescriptionOf
| SetRfSettings (network node channel : Z)
| UpgradeFirmware (started : bool)
| Disconnect.
Arguments OnMessage {K}. Arguments OnVariablesTimer {K}. Arguments OnStatusTimer {K}. Arguments OnResendTimer {K}.
Arguments OnWritten {K}. Arguments Lock {K}. Arguments Unlock {K}. Arguments CompileProgram {K}. Arguments CompileAndSend {K}.
Arguments SetExecutionState {K}. Arguments SetBreakpoints {K}. Arguments SetVariables {K}. Arguments Rename {K}.
Arguments WatchVariables {K}. Arguments GetDescriptionOf {K}. Arguments SetRfSettings {K}. Arguments UpgradeFirmware {K}.
Arguments Disconnect {K}.

Section Spec.
Context {K : Type}.
Variable endpoint : option endpoint_info.
Variable random_uuid : list Z.
Variable is_utf8_alpha_num : Z -> bool.
Variable uninitialized static_uid : Z.
Variable partial_map : VariablesMap.

(** The result is whether the caller has to answer the application itself. *)
Definition perform (op : operation K) : handler K bool :=
  match op with
  | OnMessage m => on_message endpoint random_uuid m;; mret false
  | OnVariablesTimer => on_variables_timer endpoint;; mret false
  | OnStatusTimer => on_status_timer endpoint;; mret false
  | OnResendTimer => on_resend_timer endpoint;; mret false
  | OnWritten cb ec => on_written cb ec;; mret false
  | Lock app => lock app;; mret false
  | Unlock app => unlock app;; mret false
  | CompileProgram l p cb => compile_program endpoint is_utf8_alpha_num uninitialized static_uid partial_map l p cb;; mret false
  | CompileAndSend l p cb => compile_and_send_program endpoint is_utf8_alpha_num uninitialized static_uid partial_map l p cb;; mret false
  | SetExecutionState c cb => set_vm_execution_state endpoint is_utf8_alpha_num uninitialized static_uid c cb;; mret false
  | SetBreakpoints l cb => set_breakpoints endpoint l cb;; mret false
  | SetVariables m cb => r ← set_node_variables endpoint m (AppWritten cb); mret (match r with Some _ => true | None => false end)
  | Rename name => rename endpoint name;; mret false
  | WatchVariables => connect_to_variables_changes;; mret false
  | GetDescriptionOf => get_description endpoint;; mret false
  | SetRfSettings w n c => set_rf_settings endpoint w n c;; mret false
  | UpgradeFirmware s => upgrade_firmware endpoint s;; mret false
  | Disconnect => disconnect;; mret false
  end.

(** ** Handlers that keep a part of the state *)

Definition keeps {A B} (f : node K -> B) (h : handler K A) : Prop :=
  forall n a n' e, h n = Ok (a, n', e) -> f n' = f n.

Lemma keeps_ret {A B} (f : node K -> B) (a : A) : keeps f (mret a).
Proof. by intros n a' n' e [= _ <- _]. Qed.

Lemma keeps_bind {A A' B} (f : node K -> B) (h : handler K A) (k : A -> handler K A') :
  keeps f h -> (forall a, keeps f (k a)) -> keeps f (h ≫= k).
Proof.
  intros Hh Hk n a n' e. cbv [mbind handler_bind]. destruct (h n) as [[[a1 n1] e1]| | | |] eqn:E; try done.
  destruct (k a1 n1) as [[[a2 n2] e2]| | | |] eqn:E2; try done. intros [= <- <- _].
  rewrite (Hk _ _ _ _ _ E2). by eapply Hh.
Qed.

Lemma keeps_read {A B} (f : node K -> B) (g : node K -> A) : keeps f (read g).
Proof. by intros n a n' e [= _ <- _]. Qed.
Lemma keeps_emit {B} (f : node K -> B) x : keeps f (Node.emit x).
Proof. by intros n a n' e [= _ <- _]. Qed.
Lemma keeps_modify {B} (f : node K -> B) g : (forall n, f (g n) = f n) -> keeps f (modify g).
Proof. by intros H n a n' e [= _ <- _]. Qed.
Lemma keeps_lift {A B} (f : node K -> B) (r : res runtime_error A) : keeps f (lift r).
Proof. intros n a n' e. unfold lift. destruct r; try done. by intros [= _ <- _]. Qed.
Lemma keeps_when {B} (f : node K -> B) b h : keeps f h -> keeps f (when b h).
Proof. intros H. destruct b; [exact H|apply keeps_ret]. Qed.
End Spec.

(** One step of a proof that a handler keeps something; recursive handlers have
    lemmas of their own in the database. *)
Create HintDb keeps.
#[export] Hint Resolve keeps_ret keeps_read keeps_emit keeps_lift : keeps.

Ltac keeps :=
  repeat first
    [ progress intros
    | apply keeps_bind
    | apply keeps_when
    | apply keeps_modify; reflexivity
    | solve [eauto with keeps]
    | progress cbv beta iota
    | match goal with |- keeps _ ?h => match h with context [match ?x with _ => _ end] => destruct x end end
    | progress autounfold with handlers ].

Create HintDb handlers.
#[export] Hint Unfold Node.write_messages Node.write_message Node.set_status Node.lock Node.unlock Node.set_variables
  Node.schedule_variables_update Node.on_variables Node.on_changed_variables Node.request_variables Node.on_variables_timer
  Node.connect_to_variables_changes Node.reset_known_variables Node.set_node_variables Node.skip : handlers.
#[export] Hint Unfold NodeCode.post NodeCode.cancel_step NodeCode.handle_step_request NodeCode.fresh_id NodeCode.step_to_next_line
  NodeCode.on_execution_state NodeCode.on_vm_runtime_error NodeCode.schedule_execution_state_update NodeCode.on_status_timer
  NodeCode.cancel_breakpoints NodeCode.set_breakpoints NodeCode.on_breakpoint_set_result NodeCode.on_written
  NodeCode.definitions NodeCode.compile_program NodeCode.send_code NodeCode.forget_requests NodeCode.compile_and_send_program
  NodeCode.compile_and_save NodeCode.compile_and_send_aseba_command NodeCode.set_vm_execution_state : handlers.
#[export] Hint Unfold NodeInfo.request_next_description_fragment NodeInfo.get_description NodeInfo.request_device_info
  NodeInfo.on_resend_timer NodeInfo.cancel_resend NodeInfo.on_description_received NodeInfo.handle_description_messages
  NodeInfo.on_device_info NodeInfo.set_rf_settings NodeInfo.set_friendly_name NodeInfo.rename NodeInfo.upgrade_firmware
  NodeInfo.on_message NodeInfo.on_event_received NodeInfo.disconnect : handlers.

(** ** The lock *)
Section Lock.
Context {K : Type}.
Variable endpoint : option endpoint_info.
Variable random_uuid : list Z.
Variable is_utf8_alpha_num : Z -> bool.
Variable uninitialized static_uid : Z.
Variable partial_map : VariablesMap.

Lemma keeps_set_variables_loop {B} (f : node K -> B) fuel it start data vars :
  (forall x n, f (set_m_variables x n) = f n) -> (forall x n, f (set_m_firmware_version x n) = f n) ->
  (forall x n, f (set_m_status x n) = f n) ->
  keeps f (set_variables_loop fuel it start data vars).
Proof.
  intros Hv Hf Hs. revert it start data vars. induction fuel as [|fuel IH]; intros it start data vars; [apply keeps_lift|].
  cbn [set_variables_loop]. destruct data; [apply keeps_ret|]. apply keeps_bind; [apply keeps_read|]. intros l.
  destruct (find_var _ _ _); [|apply keeps_ret]. destruct (l !! _); [|apply keeps_ret]. cbv zeta.
  apply keeps_bind; [apply keeps_modify; auto|]. intros _. apply keeps_bind; [|intros _; apply IH].
  destruct (_ || _); [|apply keeps_ret]. keeps; apply keeps_modify; auto.
Qed.

Lemma keeps_set_areas {B} (f : node K -> B) l vars :
  (forall x n, f (set_m_variables x n) = f n) -> (forall x n, f (set_m_firmware_version x n) = f n) ->
  (forall x n, f (set_m_status x n) = f n) ->
  keeps f (set_areas l vars).
Proof.
  intros Hv Hf Hs. revert vars. induction l as [|a l IH]; intros vars; [apply keeps_ret|]. cbn [set_areas].
  apply keeps_bind; [by apply keeps_set_variables_loop|exact IH].
Qed.

Lemma keeps_post_all {B} (f : node K -> B) l : keeps f (post_all l).
Proof. induction l as [|t l IH]; [apply keeps_ret|]. cbn [post_all]. apply keeps_bind; [apply keeps_emit|done]. Qed.

Lemma update_fields b (n : node K) :
  m_connected_app (update b n) = m_connected_app n.
Proof.
  unfold update, update_description. destruct b; try done; destruct (safe_description_update _ _ _ _); done.
Qed.

Lemma keeps_holder (op : operation K) : match op with Lock _ | Unlock _ => True | _ =>
  keeps m_connected_app (perform (K:=K) endpoint random_uuid is_utf8_alpha_num uninitialized static_uid partial_map op) end.
Proof.
  assert (forall l v, keeps (m_connected_app (K:=K)) (set_areas l v)) by (intros; by apply keeps_set_areas).
  assert (forall f i s d v, keeps (m_connected_app (K:=K)) (set_variables_loop f i s d v)) by (intros; by apply keeps_set_variables_loop).
  assert (forall b, keeps (m_connected_app (K:=K)) (modify (update b))) by (intros; apply keeps_modify, update_fields).
  pose proof (fun l => keeps_post_all (m_connected_app (K:=K)) l).
  destruct op; try exact I; cbn [perform]; keeps.
Qed.

(** A sequence of operations that returns. *)
Inductive performs : list (operation K) -> node K -> node K -> Prop :=
| performs_nil n : performs [] n n
| performs_cons op ops n b n1 e n2 :
    perform endpoint random_uuid is_utf8_alpha_num uninitialized static_uid partial_map op n = Ok (b, n1, e) ->
    performs ops n1 n2 -> performs (op :: ops) n n2.

Lemma lock_result app (n : node K) : exists b n' e, lock app n = Ok (b, n', e) /\
  (b = true <-> m_connected_app n' = Some app) /\
  (m_connected_app n <> None -> m_connected_app n' = m_connected_app n) /\
  (b = true -> m_connected_app n = Some app \/ (m_connected_app n = None /\ m_status n = available /\ m_status n' = busy)).
Proof.
  unfold lock, set_status. cbv [mbind handler_bind read mret handler_ret modify Node.emit].
  destruct (decide (m_connected_app n = Some app)) as [Ha|Ha].
  { exists true, n, []. split; [done|]. split; [by split|]. auto. }
  destruct (m_connected_app n) as [x|] eqn:Eh; simpl.
  { exists false, n, []. rewrite Eh. split; [done|]. by split; [split; [done|congruence]|]. }
  destruct (decide (m_status n = available)) as [Hs|Hs].
  - rewrite bool_decide_eq_true_2 by done. simpl. eexists true, _, _. split; [done|]. split; [done|]. by split; [|auto].
  - rewrite bool_decide_eq_false_2 by done. simpl. eexists false, _, _. split; [done|]. rewrite Eh. by split; [split; [done|congruence]|].
Qed.

Lemma unlock_result app (n : node K) : exists b n' e, unlock app n = Ok (b, n', e) /\
  (b = true <-> m_connected_app n = Some app) /\
  m_connected_app n' = if b then None else m_connected_app n.
Proof.
  unfold unlock, set_status. cbv [mbind handler_bind read mret handler_ret modify Node.emit].
  destruct (decide (m_connected_app n = Some app)) as [Ha|Ha].
  - rewrite bool_decide_eq_true_2 by done. simpl. eexists true, _, _. split; [done|]. by split.
  - rewrite bool_decide_eq_false_2 by done. simpl. eexists false, _, _. split; [done|]. by split.
Qed.

Lemma holder_kept op (n : node K) b n' e a :
  perform endpoint random_uuid is_utf8_alpha_num uninitialized static_uid partial_map op n = Ok (b, n', e) ->
  m_connected_app n = Some a -> op <> Unlock a -> m_connected_app n' = Some a.
Proof.
  intros Hp Ha Hop. pose proof (keeps_holder op) as Hk. destruct op; try (rewrite <- Ha; by eapply Hk).
  - destruct (lock_result app n) as (r & n1 & e1 & E & _ & Hkeep & _). cbn [perform] in Hp.
    cbv [mbind handler_bind] in Hp. rewrite E in Hp. injection Hp as <- <- <-. rewrite Hkeep; congruence.
  - destruct (unlock_result app n) as (r & n1 & e1 & E & Hr & Hh). cbn [perform] in Hp.
    cbv [mbind handler_bind] in Hp. rewrite E in Hp. injection Hp as <- <- <-. rewrite Hh, Ha. destruct r; [|done].
    rewrite Ha in Hr. assert (Some a = Some app) as [= ->] by by apply Hr. done.
Qed.

(** C12: whoever holds the lock of a node keeps it through all messages, timers
    and calls until it releases the lock itself; until then no other
    application gets the lock. *)
Theorem lock_exclusive a (n : node K) ops n' :
  m_connected_app n = Some a -> Unlock a ∉ ops -> performs ops n n' ->
  m_connected_app n' = Some a /\ forall b, b <> a -> exists e, lock b n' = Ok (false, n', e).
Proof.
  intros Ha Hops Hrun. assert (m_connected_app n' = Some a) as Ha'.
  { induction Hrun as [|op ops n b n1 e n2 Hop _ IH]; [done|]. apply not_elem_of_cons in Hops as [Hne Hops].
    apply IH; [|done]. eapply holder_kept; [exact Hop|exact Ha|congruence]. }
  split; [done|]. intros b Hb. unfold lock. cbv [mbind handler_bind read mret handler_ret]. rewrite Ha'.
  rewrite decide_False by congruence. by eexists.
Qed.
End Lock.

(** ** Samples *)

Definition sample_uuid : list Z := [9; 1; 1; 1; 1; 1; 0x41; 1; 0x81; 1; 1; 1; 1; 1; 1; 1].
Definition sample_description : TargetDescription :=
  mkTarget (ws "thymio") 6 100 50 32 [mkNamedVariable (ws "_id") 1; mkNamedVariable (ws "acc") 3] [] [].
Definition sample_endpoint : endpoint_info := mkEndpointInfo thymio false [] (mkCommon [] []).
Definition sample_node : node Z :=
  set_m_status available (set_m_description sample_description (new_node sample_uuid 1 6)).
Definition letters (c : Z) : bool := ((97 <=? c) && (c <=? 122)) || ((48 <=? c) && (c <=? 57)).

Definition sample_operations : list (operation Z) :=
  [OnMessage (mkMessage 1 ASEBA_MESSAGE_DEVICE_INFO (DeviceInfo (DeviceInfo.mk DEVICE_INFO_UUID sample_uuid))); Unlock 5; Lock 5].

Lemma lock_exclusive_witness : let n := set_m_connected_app (Some 4) sample_node in
  m_connected_app n = Some 4 /\ forall b, b <> 4 -> exists e, lock b n = Ok (false, n, e).
Proof.
  apply (lock_exclusive (Some sample_endpoint) sample_uuid letters 0 0 [] 4 (set_m_connected_app (Some 4) sample_node) sample_operations).
  - reflexivity.
  - unfold sample_operations. rewrite !not_elem_of_cons. split_and!; [congruence|congruence|congruence|apply not_elem_of_nil].
  - unfold sample_operations. econstructor; [vm_compute; reflexivity|]. econstructor; [vm_compute; reflexivity|].
    econstructor; [vm_compute; reflexivity|]. constructor.
Defined.

(** A second answer to the request of the uuid makes a node that is locked
    available. *)
Lemma locked_but_available : exists n e,
  on_device_info (Some sample_endpoint) sample_uuid (DeviceInfo.mk DEVICE_INFO_UUID sample_uuid)
    (set_m_status busy (set_m_connected_app (Some 4) sample_node)) = Ok (tt, n, e) /\
  m_connected_app n = Some 4 /\ m_status n = available /\ (StatusChanged available) ∈ e.
Proof.
  eexists _, _. split; [vm_compute; reflexivity|]. split; [reflexivity|]. split; [reflexivity|].
  apply elem_of_cons; right. apply elem_of_cons; right. apply elem_of_cons; by left.
Qed.

(** A program that does not compile is sent all the same: nothing, or the code
    that does not fit. *)
Definition sent_code (r : res runtime_error (unit * node Z * list (effect Z))) : list (list Z) :=
  match r with
  | Ok (_, _, e) => mjoin (List.map (fun x => match x with
      | Write ms _ => mjoin (List.map (fun m => match body m with SetBytecode b => [SetBytecode.bytecode b] | _ => [] end) ms)
      | _ => [] end) e)
  | _ => []
  end.

Lemma rejected_program_sent :
  sent_code (compile_and_send_program (Some sample_endpoint) letters 0 0 [] Aseba (ws "undeclared = 1") 7 sample_node) = [[]].
Proof. vm_compute. reflexivity. Qed.

Lemma oversized_program_sent :
  sent_code (compile_and_send_program (Some sample_endpoint) letters 0 0 [] Aseba (ws "acc[0] = 1")
    7 (set_m_description (mkTarget (ws "thymio") 6 3 50 32 [mkNamedVariable (ws "acc") 3] [] []) sample_node)) = [[3; 65535; 3; 4097; 16384; 0]].
Proof. vm_compute. reflexivity. Qed.
