(* ===== verification/Callbacks.v ===== *)
(** * Where the callbacks are

    A callback that an application gives to a node is at any time in one place:
    with a request of the node, in a task that was posted, or with messages in
    the queue of the endpoint. *)
From Stdlib Require Import ZArith Lia List String.
From stdpp Require Import base list list_monad.
From S2P Require Import Prelude Consts OrdMap Bits Target Utils Errors Lookup Emit Link MsgClasses Msg Property Node NodeCode NodeInfo NodeSpec.

Local Open Scope Z_scope.

Section Callbacks.
Context {K : Type}.
Variable endpoint : option endpoint_info.
Variable random_uuid : list Z.
Variable is_utf8_alpha_num : Z -> bool.
Variable uninitialized static_uid : Z.
Variable partial_map : VariablesMap.

(** ** Where the callbacks are *)

Definition task_callback (t : task K) : K :=
  match t with WriteTask k _ => k | BreakpointsTask k _ _ => k | CompileTask k _ _ => k end.

Definition write_callbacks (cb : write_callback K) : list K :=
  match cb with AppWritten k => [k] | ProgramWritten k _ => [k] | _ => [] end.

Definition step_owed (n : node K) : list K := match m_pending_step_request n with Some r => [sr_cb r] | None => [] end.
Definition breakpoints_owed (n : node K) : list K := match m_pending_breakpoint_request n with Some r => [br_cb r] | None => [] end.
Definition queued (n : node K) : list K := List.map task_callback (m_callbacks_pending_execution_state_change n).

(** The callbacks that a node keeps, and those that effects carry away. *)
Definition owed (n : node K) : list K := step_owed n ++ breakpoints_owed n ++ queued n.

Definition effect_callbacks (x : effect K) : list K :=
  match x with Post t => [task_callback t] | Write _ cb => write_callbacks cb | _ => [] end.
Definition handed (e : list (effect K)) : list K := mjoin (List.map effect_callbacks e).

Lemma handed_app e1 e2 : handed (e1 ++ e2) = handed e1 ++ handed e2.
Proof. unfold handed. by rewrite map_app, join_app. Qed.

(** The callbacks that an operation brings. *)
Definition given (op : operation K) : list K :=
  match op with
  | OnWritten cb _ => write_callbacks cb
  | CompileProgram _ _ cb | CompileAndSend _ _ cb | SetExecutionState _ cb | SetBreakpoints _ cb | SetVariables _ cb => [cb]
  | _ => []
  end.

(** A handler that is given callbacks loses none and answers none twice. *)
Definition conserves {A} (g : list K) (h : handler K A) : Prop :=
  forall n a n' e, h n = Ok (a, n', e) -> owed n ++ g ≡ₚ owed n' ++ handed e.

Lemma conserves_ret {A} (a : A) : conserves [] (mret a).
Proof. by intros n a' n' e [= _ <- <-]. Qed.

Lemma conserves_read {A} (f : node K -> A) : conserves [] (read f).
Proof. by intros n a n' e [= _ <- <-]. Qed.

Lemma conserves_lift {A} (r : res runtime_error A) : conserves [] (lift r).
Proof. intros n a n' e. unfold lift. destruct r; try done. by intros [= _ <- <-]. Qed.

Lemma conserves_modify f : (forall n, owed (f n) = owed n) -> conserves [] (modify f).
Proof. intros H n a n' e [= _ <- <-]. unfold handed. simpl. by rewrite H. Qed.

Lemma conserves_emit x : conserves (effect_callbacks x) (Node.emit x).
Proof. intros n a n' e [= _ <- <-]. unfold handed. simpl. by rewrite app_nil_r. Qed.

Lemma conserves_bind {A B} g1 g2 (h : handler K A) (k : A -> handler K B) :
  conserves g1 h -> (forall a, conserves g2 (k a)) -> conserves (g1 ++ g2) (h ≫= k).
Proof.
  intros Hh Hk n a n' e. cbv [mbind handler_bind]. destruct (h n) as [[[a1 n1] e1]| | | |] eqn:E; try done.
  destruct (k a1 n1) as [[[a2 n2] e2]| | | |] eqn:E2; try done. intros [= <- <- <-].
  apply Hh in E. apply Hk in E2. rewrite handed_app, app_assoc, E, (Permutation_app_comm _ (handed e1)), <- app_assoc, E2.
  rewrite !app_assoc. apply Permutation_app_tail, Permutation_app_comm.
Qed.

(** The callback goes with the rest, or with the first part. *)
Lemma conserves_later {A B} g (h : handler K A) (k : A -> handler K B) :
  conserves [] h -> (forall a, conserves g (k a)) -> conserves g (h ≫= k).
Proof. apply (conserves_bind []). Qed.

Lemma conserves_now {A B} g (h : handler K A) (k : A -> handler K B) :
  conserves g h -> (forall a, conserves [] (k a)) -> conserves g (h ≫= k).
Proof. intros H1 H2. rewrite <- (app_nil_r g). by apply conserves_bind. Qed.

Lemma conserves_when b h : conserves [] h -> conserves [] (when b h).
Proof. destruct b; [done|intros _; apply conserves_ret]. Qed.

(** The same of a handler that writes with the callback, which an endpoint that
    is gone drops. *)
Definition conserves_alive {A} (g : list K) (h : handler K A) : Prop :=
  forall n a n' e, h n = Ok (a, n', e) ->
    exists lost, owed n ++ g ≡ₚ owed n' ++ handed e ++ lost /\ lost ⊆+ g /\ (endpoint <> None -> lost = []).

Lemma conserves_exactly {A} g (h : handler K A) : conserves g h -> conserves_alive g h.
Proof. intros H n a n' e E. exists []. rewrite app_nil_r. split_and!; [by eapply H|apply submseteq_nil_l|done]. Qed.

Lemma alive_later {A B} g (h : handler K A) (k : A -> handler K B) :
  conserves [] h -> (forall a, conserves_alive g (k a)) -> conserves_alive g (h ≫= k).
Proof.
  intros Hh Hk n a n' e. cbv [mbind handler_bind]. destruct (h n) as [[[a1 n1] e1]| | | |] eqn:E; try done.
  destruct (k a1 n1) as [[[a2 n2] e2]| | | |] eqn:E2; try done. intros [= <- <- <-].
  apply Hh in E. rewrite app_nil_r in E. apply Hk in E2 as (l & E2 & Hl). exists l. split; [|exact Hl].
  rewrite handed_app, E, <- app_assoc, (Permutation_app_comm (handed e1)), app_assoc, E2, <- !app_assoc.
  by rewrite (Permutation_app_comm (handed e1)), <- app_assoc.
Qed.

Lemma alive_now {A B} g (h : handler K A) (k : A -> handler K B) :
  conserves_alive g h -> (forall a, conserves [] (k a)) -> conserves_alive g (h ≫= k).
Proof.
  intros Hh Hk n a n' e. cbv [mbind handler_bind]. destruct (h n) as [[[a1 n1] e1]| | | |] eqn:E; try done.
  destruct (k a1 n1) as [[[a2 n2] e2]| | | |] eqn:E2; try done. intros [= <- <- <-].
  apply Hk in E2. rewrite app_nil_r in E2. apply Hh in E as (l & E & Hl). exists l. split; [|exact Hl].
  rewrite handed_app, E, E2, <- !app_assoc. apply Permutation_app_head. rewrite !app_assoc. apply Permutation_app_tail, Permutation_app_comm.
Qed.

Lemma write_alive ms cb : conserves_alive (write_callbacks cb) (Node.write_messages endpoint ms cb).
Proof.
  unfold Node.write_messages. destruct endpoint eqn:Ee; [apply conserves_exactly, (conserves_emit (Write ms cb))|].
  intros n a n' e [= _ <- <-]. by exists (write_callbacks cb).
Qed.

(** A write without a callback of an application. *)
Lemma conserves_write ms cb : write_callbacks cb = [] -> conserves [] (Node.write_messages endpoint ms cb).
Proof.
  intros E. unfold Node.write_messages. destruct endpoint; [|apply conserves_ret]. rewrite <- E. apply (conserves_emit (Write ms cb)).
Qed.

(** ** The requests *)

Lemma cancel_step_eq (n : node K) : cancel_step n =
  Ok (tt, set_m_pending_step_request None n,
      match m_pending_step_request n with Some r => [Post (WriteTask (sr_cb r) (canceled (sr_error r)))] | None => [] end).
Proof. destruct n as [? ? ? ? ? ? ? ? ? ? ? ? ? ? ? ? ? ? ? ? [] ? ? ?]; reflexivity. Qed.

Lemma cancel_breakpoints_eq (n : node K) : cancel_breakpoints n =
  Ok (tt, set_m_pending_breakpoint_request None n,
      match m_pending_breakpoint_request n with Some r => [Post (BreakpointsTask (br_cb r) operation_canceled [])] | None => [] end).
Proof. destruct n as [? ? ? ? ? ? ? ? ? ? ? ? ? ? ? ? ? ? ? [] ? ? ? ?]; reflexivity. Qed.

Lemma cancel_step_conserves : conserves [] cancel_step.
Proof.
  intros n a n' e. rewrite cancel_step_eq. intros [= _ <- <-]. rewrite app_nil_r. unfold owed, step_owed, handed.
  cbn. destruct (m_pending_step_request n); simpl; [|by rewrite app_nil_r]. apply Permutation_cons_append.
Qed.

Lemma cancel_breakpoints_conserves : conserves [] cancel_breakpoints.
Proof.
  intros n a n' e. rewrite cancel_breakpoints_eq. intros [= _ <- <-]. rewrite app_nil_r. unfold owed, breakpoints_owed, handed.
  cbn. destruct (m_pending_breakpoint_request n); simpl; [|by rewrite app_nil_r].
  rewrite <- app_assoc. apply Permutation_app_head. apply Permutation_cons_append.
Qed.

Ltac run_handler := cbv [mbind handler_bind read mret handler_ret modify Node.emit NodeCode.post skip fresh_id
  Node.write_message Node.write_messages].

Lemma handle_step_conserves : conserves [] (handle_step_request endpoint).
Proof.
  intros n a n' e. unfold handle_step_request. run_handler. rewrite app_nil_r.
  destruct (m_pending_step_request n) as [r|] eqn:Er; [|intros [= _ <- <-]; by rewrite app_nil_r].
  destruct (negb _); [|destruct (negb _)]; simpl.
  - rewrite cancel_step_eq, Er. intros [= _ <- <-]. unfold owed, step_owed, handed. cbn. rewrite Er. simpl.
    apply Permutation_cons_append.
  - intros [= _ <- <-]. unfold owed, step_owed, handed. cbn. rewrite Er. simpl. apply Permutation_cons_append.
  - destruct endpoint; intros [= _ <- <-]; by rewrite app_nil_r.
Qed.

(** A new request after the old one was cancelled. *)
Lemma conserves_request g f (h : handler K unit) : conserves [] h ->
  (forall n, owed (f n) = owed n ++ g \/ owed (f n) = g ++ owed n) -> conserves g (modify f;; h).
Proof.
  intros Hh Hf n a n' e. cbv [mbind handler_bind modify].
  destruct (h (f n)) as [[[a2 n2] e2]| | | |] eqn:E2; try done. intros [= <- <- <-]. apply Hh in E2.
  rewrite app_nil_r in E2. simpl. rewrite <- E2. destruct (Hf n) as [->| ->]; [done|]. apply Permutation_app_comm.
Qed.

Lemma step_conserves cb : conserves [cb] (step_to_next_line endpoint cb).
Proof.
  intros n a n' e. unfold step_to_next_line. cbv [mbind handler_bind]. rewrite cancel_step_eq. run_handler.
  destruct (handle_step_request endpoint _) as [[[a1 n1] e1]| | | |] eqn:E; try done. intros [= <- <- <-].
  apply handle_step_conserves in E. unfold owed in E at 1. unfold step_owed in E at 1. cbn in E.
  rewrite handed_app. unfold owed at 1. unfold step_owed at 1. destruct (m_pending_step_request n); unfold handed at 1; cbn.
  - rewrite app_nil_r in E. rewrite Permutation_app_comm, <- Permutation_middle, <- E. done.
  - rewrite app_nil_r in E. rewrite Permutation_app_comm, <- E. done.
Qed.

Lemma post_all_eq (l : list (task K)) n : post_all l n = Ok (tt, n, List.map Post l).
Proof.
  revert n. induction l as [|t l IH]; intros n; [reflexivity|]. cbn [post_all]. run_handler. by rewrite IH.
Qed.

Lemma handed_posts (l : list (task K)) : handed (List.map Post l) = List.map task_callback l.
Proof. unfold handed. induction l as [|t l IH]; [done|]. simpl. by f_equal. Qed.

Lemma execution_state_conserves m : conserves [] (on_execution_state endpoint m).
Proof.
  intros n a n' e. unfold on_execution_state. cbv [mbind handler_bind read modify]. rewrite post_all_eq.
  destruct (handle_step_request endpoint _) as [[[a1 n1] e1]| | | |] eqn:E; try done. apply handle_step_conserves in E.
  rewrite app_nil_r in *. unfold owed in E at 1. unfold step_owed in E at 1. unfold breakpoints_owed in E at 1. unfold queued in E at 1. cbn in E. rewrite app_nil_r in E.
  assert (forall x, handed (List.map Post (m_callbacks_pending_execution_state_change n) ++ e1 ++ x) ≡ₚ queued n ++ handed e1 ++ handed x) as Hx
    by (intros x; by rewrite !handed_app, handed_posts).
  unfold owed at 1. unfold step_owed at 1, breakpoints_owed at 1. rewrite app_assoc, E.
  destruct (m_pending_step_request n1); run_handler; cbn; intros [= _ <- <-]; rewrite Hx, app_nil_r, <- app_assoc;
    apply Permutation_app_head, Permutation_app_comm.
Qed.

(** ** Breakpoints *)

Lemma breakpoints_owed_set r (n : node K) : breakpoints_owed (set_m_pending_breakpoint_request (Some r) n) = [br_cb r].
Proof. reflexivity. Qed.

Lemma set_breakpoints_conserves lines cb : conserves [cb] (set_breakpoints endpoint lines cb).
Proof.
  apply conserves_later; [apply conserves_read|]. intros n. destruct (match lines with [] => _ | _ => _ end) as [[messages pending] set].
  apply conserves_later; [by apply conserves_modify|]. intros _.
  intros n0 a n' e. cbv [mbind handler_bind]. rewrite cancel_breakpoints_eq. run_handler.
  destruct messages as [|m ms], endpoint; cbn; intros [= <- <- <-]; unfold owed, handed;
    unfold breakpoints_owed at 1; destruct (m_pending_breakpoint_request n0); cbn; unfold breakpoints_owed, queued; cbn;
    rewrite ?app_nil_r, <- ?app_assoc; apply Permutation_app_head; cbn;
    rewrite ?(Permutation_app_comm _ [cb]), ?(Permutation_app_comm _ [_; cb]); cbn; try done; try apply perm_swap.
  all: rewrite (Permutation_app_comm _ [_]); cbn; by try apply perm_swap.
Qed.

Lemma owed_of_breakpoints (n n' : node K) l :
  step_owed n' = step_owed n -> queued n' = queued n -> breakpoints_owed n ≡ₚ breakpoints_owed n' ++ l ->
  owed n ≡ₚ owed n' ++ l.
Proof.
  intros Hs Hq Hb. unfold owed. rewrite Hs, Hq, Hb, <- !app_assoc. do 2 apply Permutation_app_head. apply Permutation_app_comm.
Qed.

Lemma breakpoint_result_conserves m : conserves [] (on_breakpoint_set_result (K:=K) m).
Proof.
  intros n a n' e. unfold on_breakpoint_set_result. run_handler. rewrite app_nil_r.
  destruct (m_pending_breakpoint_request n) as [r|] eqn:Er; [|intros [= _ <- <-]; by rewrite app_nil_r].
  destruct (om_find _ _) as [b|]; [|intros [= _ <- <-]; by rewrite app_nil_r].
  destruct (om_erase _ _) eqn:Ee; intros [= _ <- <-]; apply owed_of_breakpoints; try done; unfold breakpoints_owed; cbn; by rewrite Er.
Qed.

Lemma written_conserves cb ec : conserves (write_callbacks cb) (on_written (K:=K) cb ec).
Proof.
  destruct cb as [|k|i|i|k r]; cbn [write_callbacks on_written].
  - apply conserves_ret.
  - apply (conserves_emit (Post (WriteTask k ec))).
  - intros n a n' e. run_handler. rewrite app_nil_r.
    destruct (m_pending_breakpoint_request n) as [r|] eqn:Er; [|intros [= _ <- <-]; by rewrite app_nil_r].
    destruct (_ =? _)%nat; [|intros [= _ <- <-]; by rewrite app_nil_r].
    destruct (_ || _); intros [= _ <- <-]; apply owed_of_breakpoints; try done; unfold breakpoints_owed; cbn; by rewrite Er.
  - destruct (is_success ec); [apply conserves_ret|]. intros n a n' e. run_handler. rewrite app_nil_r.
    destruct (m_pending_step_request n) as [r|] eqn:Er; [|intros [= _ <- <-]; by rewrite app_nil_r].
    destruct (_ =? _)%nat; [|intros [= _ <- <-]; by rewrite app_nil_r].
    rewrite cancel_step_eq. intros [= _ <- <-]. unfold owed, step_owed, handed. cbn. rewrite Er. apply Permutation_cons_append.
  - destruct (is_success ec); [|apply (conserves_emit (Post (CompileTask k ec (Some r))))].
    intros n a n' e. run_handler. intros [= _ <- <-]. unfold owed, queued. cbn. rewrite map_app, app_nil_r, <- !app_assoc. done.
Qed.

(** ** Everything else carries no callback *)

Lemma conserves_silent x : effect_callbacks x = [] -> conserves [] (Node.emit x).
Proof. intros E. rewrite <- E. apply conserves_emit. Qed.

Lemma conserves_write_none ms : conserves [] (Node.write_messages endpoint ms NoCallback).
Proof. by apply conserves_write. Qed.

Lemma set_variables_conserves fuel it start data vars : conserves [] (set_variables_loop (K:=K) fuel it start data vars).
Proof.
  revert it start data vars. induction fuel as [|fuel IH]; intros it start data vars; [apply conserves_lift|].
  cbn [set_variables_loop]. destruct data; [apply conserves_ret|]. apply conserves_later; [apply conserves_read|]. intros l.
  destruct (find_var _ _ _); [|apply conserves_ret]. destruct (l !! _); [|apply conserves_ret]. cbv zeta.
  apply conserves_later; [by apply conserves_modify|]. intros _. apply conserves_later; [|intros _; apply IH].
  destruct (_ || _); [|apply conserves_ret]. apply conserves_later; [apply conserves_read|]. intros v.
  apply conserves_when. apply conserves_later; [by apply conserves_modify|]. intros _.
  apply conserves_later; [apply conserves_read|]. intros st. apply conserves_later; [by apply conserves_modify|]. intros _.
  by apply conserves_silent.
Qed.

Lemma set_areas_conserves l vars : conserves [] (set_areas (K:=K) l vars).
Proof.
  revert vars. induction l as [|a l IH]; intros vars; [apply conserves_ret|]. cbn [set_areas].
  apply conserves_later; [apply set_variables_conserves|exact IH].
Qed.

Lemma update_owed b (n : node K) : owed (update b n) = owed n.
Proof. unfold update, update_description. destruct b; try done; by destruct (safe_description_update _ _ _ _). Qed.
End Callbacks.

Create HintDb conserves.
#[export] Hint Resolve conserves_ret conserves_read conserves_lift conserves_write_none cancel_step_conserves
  cancel_breakpoints_conserves handle_step_conserves execution_state_conserves breakpoint_result_conserves
  set_variables_conserves set_areas_conserves : conserves.

(** A handler that is given nothing. *)
Ltac conserves :=
  repeat first
    [ progress intros
    | solve [eauto with conserves]
    | apply conserves_later
    | apply conserves_when
    | apply conserves_modify; first [reflexivity | apply update_owed]
    | apply conserves_silent; reflexivity
    | progress cbv beta iota
    | match goal with |- conserves _ ?h => match h with context [match ?x with _ => _ end] => destruct x end end
    | progress autounfold with handlers ].

Section Conservation.
Context {K : Type}.
Variable endpoint : option endpoint_info.
Variable random_uuid : list Z.
Variable is_utf8_alpha_num : Z -> bool.
Variable uninitialized static_uid : Z.
Variable partial_map : VariablesMap.

Lemma message_conserves m : conserves [] (on_message (K:=K) endpoint random_uuid m).
Proof. unfold on_message. conserves. Qed.
#[local] Hint Resolve message_conserves : conserves.

Lemma compile_conserves l p (cb : K) :
  conserves [cb] (compile_program endpoint is_utf8_alpha_num uninitialized static_uid partial_map l p cb).
Proof.
  unfold compile_program. apply conserves_later; [conserves|intros defs]. apply conserves_later; [conserves|intros n].
  apply conserves_later; [conserves|intros [[[r|e] code] map]]; [exact (conserves_emit (Post (CompileTask cb success (Some r))))|].
  exact (conserves_emit (Post (CompileTask cb (tdm_error e) None))).
Qed.

Lemma send_program_conserves l p (cb : K) :
  conserves_alive endpoint [cb] (compile_and_send_program endpoint is_utf8_alpha_num uninitialized static_uid partial_map l p cb).
Proof.
  unfold compile_and_send_program. apply alive_later; [conserves|intros _]. apply alive_later; [conserves|intros defs].
  apply alive_later; [conserves|intros n]. apply alive_later; [conserves|intros [[[r|e] code] map]];
    (apply alive_later; [conserves|intros _]); [|exact (conserves_exactly _ _ _ (conserves_emit (Post (CompileTask cb (tdm_error e) None))))].
  apply alive_later; [conserves|intros ms]. apply alive_later; [conserves|intros _].
  apply alive_now; [exact (write_alive endpoint ms (ProgramWritten cb r))|intros _]. conserves.
Qed.

Lemma execution_command_conserves c (cb : K) :
  conserves_alive endpoint [cb] (set_vm_execution_state endpoint is_utf8_alpha_num uninitialized static_uid c cb).
Proof.
  unfold set_vm_execution_state. apply alive_later; [conserves|intros id].
  destruct c; try exact (write_alive endpoint _ (AppWritten cb)); [|apply conserves_exactly, step_conserves].
  apply alive_later; [conserves|intros _].
  apply alive_now; [exact (write_alive endpoint _ (AppWritten cb))|intros _]. conserves.
Qed.

Lemma set_variables_callback m (cb : K) n a n' e : set_node_variables endpoint m (AppWritten cb) n = Ok (a, n', e) ->
  exists lost, owed n ++ [cb] ≡ₚ owed n' ++ handed e ++ lost /\ lost ⊆+ [cb] /\
    (endpoint <> None -> lost = match a with Some _ => [cb] | None => [] end).
Proof.
  unfold set_node_variables. cbv [mbind handler_bind read lift]. destruct (set_messages n m) as [r| | | |]; try done.
  destruct r as [ms|err]; cbv [mret handler_ret res_bind]; cbv beta iota.
  - destruct (write_messages endpoint ms (AppWritten cb) n) as [[[u n1] e1]| | | |] eqn:E; try done. intros [= <- <- <-].
    rewrite app_nil_r. exact (write_alive endpoint ms (AppWritten cb) _ _ _ _ E).
  - intros [= <- <- <-]. by exists [cb].
Qed.

(** With an endpoint that is alive nothing is lost. *)
Lemma alive_conserves {A} ep g (h : handler K A) : conserves_alive (Some ep) g h -> conserves g h.
Proof. intros Hh n a n' e E. apply Hh in E as (l & E & _ & Hl). rewrite Hl, app_nil_r in E by done. exact E. Qed.

(** The destructor of a node answers the requests that are pending, and
    conserves callbacks as the operations do. *)
Lemma destroy_conserves : conserves (K:=K) [] destroy.
Proof. apply (conserves_bind [] []); [apply cancel_step_conserves|intros; apply cancel_breakpoints_conserves]. Qed.

(** But nothing is left to answer what it keeps: the callbacks of programs that
    were written and wait for the next state of the device are lost. *)
Lemma destroy_loses (n : node K) : exists n' e, destroy n = Ok (tt, n', e) /\
  handed e = step_owed n ++ breakpoints_owed n /\ owed n' = queued n.
Proof.
  unfold destroy. cbv [mbind handler_bind]. rewrite cancel_step_eq. cbv beta iota. rewrite cancel_breakpoints_eq. eexists _, _.
  split; [reflexivity|]. unfold handed, owed, step_owed, breakpoints_owed, queued. cbn.
  rewrite map_app, join_app. split; [|done]. destruct (m_pending_step_request n), (m_pending_breakpoint_request n); reflexivity.
Qed.

End Conservation.

