(* ===== verification/Describe.v ===== *)
(** * The exchange of the description of a node

    A node with a protocol of at least 8 sends its description in fragments on
    request.  The answers may be lost, delayed, repeated and overtake each
    other; the manager repeats its request on a timer. *)
From Stdlib Require Import ZArith Lia List String.
From stdpp Require Import base list list_monad relations.
From S2P Require Import Prelude Consts OrdMap Bits Target Utils Errors Lookup Emit Link MsgClasses Msg Property Node NodeCode NodeInfo NodeSpec.

Local Open Scope Z_scope.

(** ** Filling a list in order *)
Section Fill.
Context {A : Type} (name : A -> wstring) (blank : A).
Hypothesis blank_name : name blank = [].

(** A list of [n] of which the first ones have been received. *)
Definition fill (n : nat) (l : list A) : list A := l ++ replicate (n - List.length l) blank.

Lemma fill_length n l : (List.length l <= n)%nat -> List.length (fill n l) = n.
Proof. intros H. unfold fill. rewrite length_app, length_replicate. lia. Qed.

Lemma fill_all l : fill (List.length l) l = l.
Proof. unfold fill. by rewrite Nat.sub_diag, app_nil_r. Qed.

Lemma existsb_fill x n l : name x <> [] ->
  existsb (fun y => bool_decide (name y = name x)) (fill n l) = existsb (fun y => bool_decide (name y = name x)) l.
Proof.
  intros Hx. unfold fill. rewrite existsb_app. replace (existsb _ (replicate _ _)) with false; [apply orb_false_r|].
  induction (n - List.length l)%nat as [|k IH]; [done|]. simpl. rewrite <- IH, bool_decide_eq_false_2; [done|].
  rewrite blank_name. congruence.
Qed.

(** A new element goes to the next place. *)
Lemma update_new x n l : name x <> [] -> name x ∉ List.map name l -> (List.length l < n)%nat -> Z.of_nat n < 65536 ->
  safe_description_update name x (fill n l) (Z.of_nat (List.length l)) = (fill n (l ++ [x]), Z.of_nat (List.length (l ++ [x]))).
Proof.
  intros Hx Hl Hn Hb. unfold safe_description_update. rewrite fill_length by lia.
  rewrite (proj2 (Z.leb_gt _ _)) by lia. rewrite existsb_fill by done.
  replace (existsb _ l) with false.
  - rewrite Nat2Z.id. rewrite length_app. simpl. f_equal; [|rewrite u16_id by lia; lia].
    unfold fill. rewrite length_app. simpl. replace (n - List.length l)%nat with (S (n - (List.length l + 1))) by lia.
    simpl. rewrite insert_app_r_alt by lia. rewrite Nat.sub_diag. simpl. by rewrite <- app_assoc.
  - symmetry. apply not_true_iff_false. rewrite existsb_exists. intros (y & Hy & Hd). apply bool_decide_eq_true in Hd.
    apply Hl. rewrite <- Hd. apply list_elem_of_In, in_map, Hy.
Qed.

(** An element that is there is ignored. *)
Lemma update_old x n l : name x <> [] -> name x ∈ List.map name l ->
  safe_description_update name x (fill n l) (Z.of_nat (List.length l)) = (fill n l, Z.of_nat (List.length l)).
Proof.
  intros Hx Hl. unfold safe_description_update. destruct (_ <=? _); [done|]. rewrite existsb_fill by done.
  replace (existsb _ l) with true; [done|]. symmetry. rewrite existsb_exists.
  apply list_elem_of_In, in_map_iff in Hl as (y & E & Hy). exists y. split; [done|]. by apply bool_decide_eq_true_2.
Qed.

Lemma fill_next full l x r : full = l ++ x :: r -> NoDup (List.map name full) -> name x <> [] -> Z.of_nat (List.length full) < 65536 ->
  safe_description_update name x (fill (List.length full) l) (Z.of_nat (List.length l))
  = (fill (List.length full) (l ++ [x]), Z.of_nat (List.length (l ++ [x]))).
Proof.
  intros -> Hd Hx Hb. apply update_new; [done| |rewrite length_app; simpl; lia|done].
  rewrite map_app in Hd. apply NoDup_app in Hd as (_ & Hd & _). intros Hin. apply (Hd _ Hin). simpl. apply elem_of_cons. by left.
Qed.

Lemma fill_seen n l x : x ∈ l -> name x <> [] ->
  safe_description_update name x (fill n l) (Z.of_nat (List.length l)) = (fill n l, Z.of_nat (List.length l)).
Proof. intros Hl Hx. apply update_old; [done|]. apply list_elem_of_In, in_map, list_elem_of_In, Hl. Qed.
End Fill.

(** ** What a device says of itself *)
Section Protocol.
Context {K : Type}.
Variable ep : endpoint_info.
Variable random_uuid : list Z.

Abbreviation endpoint := (Some ep).

(** The description and the order of its fragments, which is the one of the
    device. *)
Variable d : TargetDescription.
Variable items : list Body.

Definition variables_of (l : list Body) : list NamedVariable :=
  mjoin (List.map (fun b => match b with NamedVariableDescription m => [NamedVariableDescription.variable m] | _ => [] end) l).
Definition events_of (l : list Body) : list LocalEvent :=
  mjoin (List.map (fun b => match b with LocalEventDescription m => [LocalEventDescription.event m] | _ => [] end) l).
Definition functions_of (l : list Body) : list NativeFunction :=
  mjoin (List.map (fun b => match b with NativeFunctionDescription m => [NativeFunctionDescription.function m] | _ => [] end) l).

Definition is_item (b : Body) : Prop :=
  match b with
  | NamedVariableDescription m => var_name (NamedVariableDescription.variable m) <> []
  | LocalEventDescription m => event_name (LocalEventDescription.event m) <> []
  | NativeFunctionDescription m => func_name (NativeFunctionDescription.function m) <> []
  | _ => False
  end.

Record device_ok : Prop := {
  named : target_name d <> [];
  versioned : 0 < protocolVersion d;
  of_variables : variables_of items = namedVariables d;
  of_events : events_of items = localEvents d;
  of_functions : functions_of items = nativeFunctions d;
  all_items : Forall is_item items;
  distinct_variables : NoDup (List.map var_name (namedVariables d));
  distinct_events : NoDup (List.map event_name (localEvents d));
  distinct_functions : NoDup (List.map func_name (nativeFunctions d));
  few : Z.of_nat (List.length items) < 32768
}.
Hypothesis device : device_ok.

(** The description as far as the first [k] fragments tell. *)
Definition partial (k : nat) : TargetDescription :=
  mkTarget (target_name d) (protocolVersion d) (bytecodeSize d) (variablesSize d) (stackSize d)
    (fill default_variable (List.length (namedVariables d)) (variables_of (take k items)))
    (fill default_event (List.length (localEvents d)) (events_of (take k items)))
    (fill default_function (List.length (nativeFunctions d)) (functions_of (take k items))).

(** The answer to a request: the first message has the sizes of the lists. *)
Definition answer (k : Z) : option Body :=
  if k =? -1 then Some (Description (Description.mk (partial 0)))
  else if k <? 0 then None else items !! Z.to_nat k.

(** ** The exchange *)

(** The fragments that effects ask for. *)
Definition asked_in (x : effect K) : list Z :=
  match x with
  | Write ms _ => mjoin (List.map (fun m => match body m with
      | GetNodeDescriptionFragment f => [GetNodeDescriptionFragment.fragment f] | _ => [] end) ms)
  | _ => []
  end.
Definition asked (e : list (effect K)) : list Z := mjoin (List.map asked_in e).

(** The robot and all requests made; any of them may be answered at any time
    and again, but the description itself is answered once. *)
Record exchange : Type := mkExchange { robot : node K; requests : list Z }.

Inductive exchange_step : exchange -> exchange -> Prop :=
| Answered s k b n' e :
    k ∈ requests s -> answer k = Some b -> (k = -1 -> protocolVersion (m_description (robot s)) = 0) ->
    handle_description_messages endpoint b (robot s) = Ok (tt, n', e) ->
    exchange_step s (mkExchange n' (requests s ++ asked e))
| Resent s n' e :
    m_resend_timer (robot s) = ResendFragment -> on_resend_timer endpoint (robot s) = Ok (tt, n', e) ->
    exchange_step s (mkExchange n' (requests s ++ asked e)).

(** What the manager knows of a robot of which it has [k] fragments. *)
Definition knows (k : nat) (n : node K) : Prop :=
  m_description n = partial k /\
  counter_variables n = Z.of_nat (List.length (variables_of (take k items))) /\
  counter_events n = Z.of_nat (List.length (events_of (take k items))) /\
  counter_functions n = Z.of_nat (List.length (functions_of (take k items))).

Definition knows_nothing (n : node K) : Prop :=
  m_description n = mkTarget [] 0 0 0 0 [] [] [] /\ counter_variables n = 0 /\ counter_events n = 0 /\ counter_functions n = 0.

Definition exchange_ok (s : exchange) : Prop :=
  8 <= m_protocol_version (robot s) /\
  (description_ready (robot s) = false -> m_resend_timer (robot s) = ResendFragment) /\
  ((knows_nothing (robot s) /\ Forall (fun r => r = -1) (requests s)) \/
   exists k, (k <= List.length items)%nat /\ knows k (robot s) /\ Forall (fun r => -1 <= r <= Z.of_nat k) (requests s)).

(** ** Fragments *)

Lemma counts l : Forall is_item l ->
  List.length l = (List.length (variables_of l) + List.length (events_of l) + List.length (functions_of l))%nat.
Proof.
  induction 1 as [|b l Hb _ IH]; [done|]. unfold variables_of, events_of, functions_of in *.
  destruct b; try done; simpl; lia.
Qed.

Lemma take_items k : Forall is_item (take k items).
Proof. apply Forall_take, device. Qed.

Lemma projections_take k :
  (exists l, namedVariables d = variables_of (take k items) ++ l) /\
  (exists l, localEvents d = events_of (take k items) ++ l) /\
  (exists l, nativeFunctions d = functions_of (take k items) ++ l).
Proof.
  rewrite <- (of_variables device), <- (of_events device), <- (of_functions device).
  assert (items = take k items ++ drop k items) as E by (by rewrite take_drop).
  split_and!; [exists (variables_of (drop k items))|exists (events_of (drop k items))|exists (functions_of (drop k items))];
    rewrite E at 1; unfold variables_of, events_of, functions_of; by rewrite map_app, join_app.
Qed.

Lemma partial_all : partial (List.length items) = d.
Proof.
  unfold partial. rewrite take_ge, (of_variables device), (of_events device), (of_functions device), !fill_all by done.
  by destruct d.
Qed.

Lemma projections_next k b : items !! k = Some b ->
  variables_of (take (S k) items) = variables_of (take k items) ++ variables_of [b] /\
  events_of (take (S k) items) = events_of (take k items) ++ events_of [b] /\
  functions_of (take (S k) items) = functions_of (take k items) ++ functions_of [b].
Proof.
  intros Hb. rewrite (take_S_r items k b Hb). unfold variables_of, events_of, functions_of. by rewrite !map_app, !join_app.
Qed.

Lemma lists_small :
  Z.of_nat (List.length (namedVariables d)) < 65536 /\ Z.of_nat (List.length (localEvents d)) < 65536 /\
  Z.of_nat (List.length (nativeFunctions d)) < 65536.
Proof.
  pose proof (counts items (all_items device)) as H. pose proof (few device).
  rewrite (of_variables device), (of_events device), (of_functions device) in H. lia.
Qed.

Lemma item_named j b : items !! j = Some b -> is_item b.
Proof. intros Hb. pose proof (all_items device) as H. rewrite Forall_lookup in H. by eapply H. Qed.

(** The next fragment is taken. *)
Lemma knows_next k b (n : node K) : knows k n -> items !! k = Some b -> knows (S k) (update b n).
Proof.
  intros (Hd & Hv & He & Hf) Hb. pose proof (item_named k b Hb) as Hitem.
  destruct (projections_next k b Hb) as (Pv & Pe & Pf). destruct (projections_take (S k)) as ((rv & Rv) & (re & Re) & (rf & Rf)).
  destruct lists_small as (Sv & Se & Sf). unfold knows, partial. rewrite Pv, Pe, Pf in *.
  unfold update, update_description. rewrite Hd, Hv, He, Hf. unfold partial.
  destruct b as [| | | | | | | | | |m|m|m| | | | | | | | | | | | | | | | | | | | | | | | | | | | | | | |]; try done;
    unfold variables_of, events_of, functions_of in *; simpl in Hitem |- *; simpl in Rv, Re, Rf.
  - rewrite <- app_assoc in Rv. rewrite (fill_next var_name default_variable eq_refl _ _ _ rv Rv (distinct_variables device) Hitem Sv).
    simpl. by rewrite !app_nil_r.
  - rewrite <- app_assoc in Re. rewrite (fill_next event_name default_event eq_refl _ _ _ re Re (distinct_events device) Hitem Se).
    simpl. by rewrite !app_nil_r.
  - rewrite <- app_assoc in Rf. rewrite (fill_next func_name default_function eq_refl _ _ _ rf Rf (distinct_functions device) Hitem Sf).
    simpl. by rewrite !app_nil_r.
Qed.

(** A fragment that is known changes nothing. *)
Lemma knows_seen k j b (n : node K) : knows k n -> (j < k)%nat -> items !! j = Some b -> knows k (update b n).
Proof.
  intros (Hd & Hv & He & Hf) Hj Hb. pose proof (item_named j b Hb) as Hitem.
  assert (b ∈ take k items) as Hin by (apply list_elem_of_lookup; exists j; by rewrite lookup_take_lt).
  unfold knows, partial, update, update_description. rewrite Hd, Hv, He, Hf. unfold partial.
  destruct b as [| | | | | | | | | |m|m|m| | | | | | | | | | | | | | | | | | | | | | | | | | | | | | | |]; try done; simpl in Hitem |- *.
  - rewrite (fill_seen var_name default_variable eq_refl); [done| |done]. apply list_elem_of_join. eexists. split; [|apply list_elem_of_fmap; eexists; split; [|exact Hin]; reflexivity]. by left.
  - rewrite (fill_seen event_name default_event eq_refl); [done| |done]. apply list_elem_of_join. eexists. split; [|apply list_elem_of_fmap; eexists; split; [|exact Hin]; reflexivity]. by left.
  - rewrite (fill_seen func_name default_function eq_refl); [done| |done]. apply list_elem_of_join. eexists. split; [|apply list_elem_of_fmap; eexists; split; [|exact Hin]; reflexivity]. by left.
Qed.

Lemma knows_first (n : node K) : knows_nothing n -> knows 0 (update (Description (Description.mk (partial 0))) n).
Proof. intros (_ & Hv & He & Hf). by split_and!. Qed.

Lemma counts_take k : (k <= List.length items)%nat ->
  k = (List.length (variables_of (take k items)) + List.length (events_of (take k items)) + List.length (functions_of (take k items)))%nat.
Proof. intros Hk. rewrite <- counts by apply take_items. rewrite length_take. lia. Qed.

Lemma knows_ready k (n : node K) : knows k n -> (k <= List.length items)%nat -> description_ready n = (k =? List.length items)%nat.
Proof.
  intros (Hd & Hv & He & Hf) Hk. unfold description_ready. rewrite Hd, Hv, He, Hf.
  rewrite bool_decide_eq_false_2 by exact (named device). cbn [namedVariables localEvents nativeFunctions partial negb andb].
  destruct (projections_take k) as ((rv & Rv) & (re & Re) & (rf & Rf)).
  apply (f_equal List.length) in Rv, Re, Rf. rewrite length_app in Rv, Re, Rf.
  rewrite !fill_length by lia. pose proof (counts_take k Hk) as Hc. pose proof (counts items (all_items device)) as Ha.
  rewrite (of_variables device), (of_events device), (of_functions device) in Ha.
  destruct (Nat.eqb_spec k (List.length items)) as [E|E].
  - rewrite !(proj2 (Z.eqb_eq _ _)) by lia. done.
  - destruct (Z.eqb_spec (Z.of_nat (List.length (variables_of (take k items)))) (Z.of_nat (List.length (namedVariables d)))); [|done].
    destruct (Z.eqb_spec (Z.of_nat (List.length (events_of (take k items)))) (Z.of_nat (List.length (localEvents d)))); [|done].
    simpl. apply Z.eqb_neq. lia.
Qed.

Lemma knows_fragment k (n : node K) : knows k n -> (k <= List.length items)%nat -> fragment_number n = Z.of_nat k.
Proof.
  intros (Hd & Hv & He & Hf) Hk. unfold fragment_number. rewrite Hd, Hv, He, Hf. cbn [protocolVersion partial].
  rewrite (proj2 (Z.ltb_lt _ _)) by apply (versioned device). pose proof (counts_take k Hk). pose proof (few device).
  unfold s16. rewrite Z.mod_small by lia. lia.
Qed.

Lemma nothing_fragment (n : node K) : knows_nothing n -> fragment_number n = -1.
Proof. intros (Hd & _). unfold fragment_number. by rewrite Hd. Qed.

(** ** The handlers *)

(** What the exchange looks at. *)
Definition seen (n : node K) : TargetDescription * Z * Z * Z * Z :=
  (m_description n, counter_variables n, counter_events n, counter_functions n, m_protocol_version n).

(** A handler that always returns, changes nothing of it and asks for nothing. *)
Definition steady {A} (h : handler K A) : Prop :=
  forall n, exists a n' e, h n = Ok (a, n', e) /\ seen n' = seen n /\ asked e = [].

Lemma described_ret {A} (a : A) : steady (mret a).
Proof. intros n. by eexists _, _, _. Qed.
Lemma steady_read {A} (f : node K -> A) : steady (read f).
Proof. intros n. by eexists _, _, _. Qed.
Lemma steady_emit x : asked_in x = [] -> steady (Node.emit x).
Proof. intros E n. eexists _, _, _. split; [reflexivity|]. split; [done|]. unfold asked. simpl. by rewrite E. Qed.
Lemma steady_modify f : (forall n, seen (f n) = seen n) -> steady (modify f).
Proof. intros E n. by eexists _, _, _. Qed.
Lemma steady_when b h : steady h -> steady (when b h).
Proof. destruct b; [done|intros _; apply described_ret]. Qed.

Lemma asked_app e1 e2 : asked (e1 ++ e2) = asked e1 ++ asked e2.
Proof. unfold asked. by rewrite map_app, join_app. Qed.

Lemma described_bind {A B} (h : handler K A) (k : A -> handler K B) : steady h -> (forall a, steady (k a)) -> steady (h ≫= k).
Proof.
  intros Hh Hk n. destruct (Hh n) as (a & n1 & e1 & E1 & S1 & A1). destruct (Hk a n1) as (b & n2 & e2 & E2 & S2 & A2).
  exists b, n2, (e1 ++ e2). cbv [mbind handler_bind]. rewrite E1, E2. split; [done|]. split; [congruence|].
  by rewrite asked_app, A1, A2.
Qed.

Lemma steady_received : steady (on_description_received endpoint).
Proof.
  unfold on_description_received, request_device_info, reset_known_variables, schedule_variables_update,
    schedule_execution_state_update, Node.write_message, Node.write_messages, set_status, Node.skip.
  repeat first [ progress intros | apply described_bind | apply described_ret | apply steady_read | apply steady_modify; reflexivity
    | apply steady_when | apply steady_emit; reflexivity
    | match goal with |- steady ?h => match h with context [match ?x with _ => _ end] => destruct x end end ].
Qed.

(** After a fragment the manager asks for the next one and arms its timer, or
    the description is complete. *)
Lemma handle_description (b : Body) (n : node K) : is_item b \/ b = Description (Description.mk (partial 0)) ->
  8 <= m_protocol_version (update b n) ->
  exists n' e, handle_description_messages endpoint b n = Ok (tt, n', e) /\ seen n' = seen (update b n) /\
    if description_ready (update b n) then asked e = []
    else asked e = [fragment_number (update b n)] /\ m_resend_timer n' = ResendFragment.
Proof.
  intros Hb Hp. unfold handle_description_messages, cancel_resend. cbv [mbind handler_bind read modify Node.emit].
  assert (exists n1, update_description b n = Some n1) as [n1 ->].
  { unfold update_description. destruct Hb as [Hb| ->]; [|by eexists].
    destruct b; try done; destruct (safe_description_update _ _ _ _); by eexists. }
  change (description_ready (set_m_resend_timer ResendNothing (update b n))) with (description_ready (update b n)).
  change (m_protocol_version (set_m_resend_timer ResendNothing (update b n))) with (m_protocol_version (update b n)).
  rewrite (proj2 (Z.leb_le 8 _)) by done. destruct (description_ready (update b n)).
  - destruct (steady_received (set_m_resend_timer ResendNothing (update b n))) as (a & n2 & e2 & E2 & S2 & A2). destruct a.
    cbn [negb andb when Node.skip mret handler_ret]. rewrite E2. eexists _, _. split; [reflexivity|]. split; [exact S2|exact A2].
  - cbn [negb andb when Node.skip mret handler_ret]. eexists _, _. split; [reflexivity|]. split; [done|]. split; [|done].
    reflexivity.
Qed.

Lemma seen_knows k (n n' : node K) : seen n' = seen n -> knows k n -> knows k n'.
Proof. intros [= Hd Hv He Hf _] (? & ? & ? & ?). unfold knows. rewrite Hd, Hv, He, Hf. by split_and!. Qed.

Lemma seen_nothing (n n' : node K) : seen n' = seen n -> knows_nothing n -> knows_nothing n'.
Proof. intros [= Hd Hv He Hf _] (? & ? & ? & ?). unfold knows_nothing. rewrite Hd, Hv, He, Hf. by split_and!. Qed.

Lemma seen_ready (n n' : node K) : seen n' = seen n -> description_ready n' = description_ready n /\ fragment_number n' = fragment_number n /\
  m_protocol_version n' = m_protocol_version n.
Proof. intros [= Hd Hv He Hf Hp]. unfold description_ready, fragment_number. by rewrite Hd, Hv, He, Hf. Qed.

Lemma update_protocol b (n : node K) : m_protocol_version (update b n) = m_protocol_version n.
Proof. unfold update, update_description. destruct b; try done; by destruct (safe_description_update _ _ _ _). Qed.

(** The state after the answer [b] that makes the manager know [k] fragments. *)
Lemma answer_ok s b k n' e : (is_item b \/ b = Description (Description.mk (partial 0))) ->
  8 <= m_protocol_version (robot s) -> (k <= List.length items)%nat -> knows k (update b (robot s)) ->
  Forall (fun r => -1 <= r <= Z.of_nat k) (requests s) ->
  handle_description_messages endpoint b (robot s) = Ok (tt, n', e) ->
  exchange_ok (mkExchange n' (requests s ++ asked e)).
Proof.
  intros Hb Hp Hk Hkn Hr Hh. destruct (handle_description b (robot s) Hb) as (n1 & e1 & E & S & A); [by rewrite update_protocol|].
  rewrite Hh in E. injection E as <- <-. destruct (seen_ready _ _ S) as (Sr & Sf & Sp).
  split; [simpl; rewrite Sp, update_protocol; done|]. cbn [robot requests]. rewrite Sr. split.
  - intros E. rewrite E in A. apply A.
  - right. exists k. split; [done|]. split; [by eapply seen_knows|]. apply Forall_app. split; [done|].
    destruct (description_ready _); [by rewrite A|]. destruct A as [-> _]. constructor; [|constructor].
    rewrite (knows_fragment k) by done. lia.
Qed.

Lemma answered_ok s k b n' e : exchange_ok s -> k ∈ requests s -> answer k = Some b ->
  (k = -1 -> protocolVersion (m_description (robot s)) = 0) ->
  handle_description_messages endpoint b (robot s) = Ok (tt, n', e) ->
  exchange_ok (mkExchange n' (requests s ++ asked e)).
Proof.
  intros (Hp & _ & Hok) Hk Hb Hfirst Hh. unfold answer in Hb. destruct Hok as [[Hn Hr]|(j & Hj & Hkn & Hr)].
  - rewrite Forall_forall in Hr. pose proof (Hr k Hk) as ->. simpl in Hb. injection Hb as <-.
    eapply (answer_ok s _ 0); [by right|done|lia|by apply knows_first| |exact Hh].
    apply Forall_forall. intros r Hin. rewrite (Hr r Hin). lia.
  - destruct (Z.eqb_spec k (-1)) as [->|Hne].
    { destruct Hkn as (Hd & _). rewrite Hd in Hfirst. pose proof (versioned device). cbn in Hfirst. lia. }
    destruct (Z.ltb_spec k 0); [done|]. pose proof (item_named _ _ Hb) as Hitem.
    pose proof Hr as Hr'. rewrite Forall_forall in Hr'. pose proof (Hr' k Hk) as Hkj. pose proof (lookup_lt_Some _ _ _ Hb) as Hlt.
    destruct (decide (Z.to_nat k < j)%nat) as [Hjk|Hjk].
    + eapply (answer_ok s _ j); [by left|done|done|by eapply knows_seen|done|exact Hh].
    + assert (Z.to_nat k = j) as E by lia. rewrite E in *.
      eapply (answer_ok s _ (S j)); [by left|done|lia|by apply knows_next| |exact Hh].
      eapply Forall_impl; [exact Hr|]. simpl. lia.
Qed.

(** The repeated request. *)
Lemma resend_eq (n : node K) : m_resend_timer n = ResendFragment ->
  exists n' e, on_resend_timer endpoint n = Ok (tt, n', e) /\ seen n' = seen n /\ asked e = [fragment_number n] /\
    m_resend_timer n' = ResendFragment.
Proof.
  intros H. unfold on_resend_timer. cbv [mbind handler_bind read modify]. rewrite H. eexists _, _. split; [reflexivity|]. by split.
Qed.

Lemma exchange_step_ok s s' : exchange_ok s -> exchange_step s s' -> exchange_ok s'.
Proof.
  intros Hok Hstep. destruct Hstep as [s k b n' e Hk Hb Hf Hh|s n' e Ht Hh]; [by eapply answered_ok|].
  destruct (resend_eq _ Ht) as (n1 & e1 & E & S & A & T). rewrite Hh in E. injection E as <- <-.
  destruct (seen_ready _ _ S) as (Sr & Sf & Sp). destruct Hok as (Hp & _ & Hkn).
  split; [simpl; by rewrite Sp|]. cbn [robot requests]. split; [done|]. rewrite A.
  destruct Hkn as [[Hn Hr]|(k & Hk & Hkn & Hr)].
  - left. split; [by eapply seen_nothing|]. apply Forall_app. split; [done|]. constructor; [by apply nothing_fragment|done].
  - right. exists k. split; [done|]. split; [by eapply seen_knows|]. apply Forall_app. split; [done|].
    constructor; [|done]. rewrite (knows_fragment k) by done. lia.
Qed.

(** A new node whose description has been asked for. *)
Definition begins (s : exchange) : Prop :=
  exists id protocol e, 8 <= protocol /\ requests s = asked e /\
    get_description endpoint (new_node random_uuid id protocol) = Ok (tt, robot s, e).

Lemma begins_ok s : begins s -> exchange_ok s.
Proof.
  destruct s as [n r]. intros (id & protocol & e & Hp & Hr & E). simpl in Hr. revert E. unfold get_description. cbv [mbind handler_bind read].
  cbn [m_protocol_version new_node]. rewrite (proj2 (Z.leb_le 8 protocol)) by done. intros [= <- <-].
  split; [done|]. split; [done|]. left. split; [by split_and!|]. rewrite Hr. constructor; [done|constructor].
Qed.

(** C36: with a robot of protocol version 8 or later, whatever fragments are
    lost, repeated or overtake each other, a description that the manager takes
    for complete is the one of the device, if the message with the sizes of the
    lists arrives once. *)
Theorem description_exact s s' : begins s -> rtc exchange_step s s' ->
  description_ready (robot s') = true -> m_description (robot s') = d.
Proof.
  intros Hb Hrun Hready. pose proof (rtc_invariant _ _ _ _ exchange_step_ok (begins_ok s Hb) Hrun) as (_ & _ & [[(Hd & _) _]|(k & Hk & Hkn & _)]).
  - unfold description_ready in Hready. rewrite Hd in Hready. done.
  - rewrite (knows_ready k) in Hready by done. apply Nat.eqb_eq in Hready as ->. destruct Hkn as (-> & _). apply partial_all.
Qed.

(** One repetition of the request and one answer to it bring the next fragment. *)
Lemma answer_step s b : exchange_ok s -> m_resend_timer (robot s) = ResendFragment ->
  answer (fragment_number (robot s)) = Some b ->
  (fragment_number (robot s) = -1 -> protocolVersion (m_description (robot s)) = 0) ->
  is_item b \/ b = Description (Description.mk (partial 0)) ->
  exists s', rtc exchange_step s s' /\ exchange_ok s' /\ seen (robot s') = seen (update b (robot s)).
Proof.
  intros Hok Ht Ha Hf Hb. destruct (resend_eq _ Ht) as (n1 & e1 & E1 & S1 & A1 & _).
  pose proof (Resent s n1 e1 Ht E1) as Hs1. pose proof (exchange_step_ok _ _ Hok Hs1) as Hok1.
  assert (seen (update b n1) = seen (update b (robot s))) as Su.
  { injection S1 as Hd Hv He Hfu Hp. unfold update, update_description. rewrite Hd, Hv, He, Hfu.
    destruct b; try (unfold seen; congruence); try (destruct (safe_description_update _ _ _ _); unfold seen; simpl; congruence).
    unfold seen. simpl. congruence. }
  destruct (seen_ready _ _ S1) as (_ & Sf & Sp). destruct Hok as (Hp & _).
  destruct (handle_description b n1 Hb) as (n2 & e2 & E2 & S2 & _); [rewrite update_protocol, Sp; done|].
  assert (exchange_step (mkExchange n1 (requests s ++ asked e1)) (mkExchange n2 ((requests s ++ asked e1) ++ asked e2))) as Hs2.
  { eapply (Answered (mkExchange n1 _)); [|exact Ha| |exact E2]; cbn [robot requests].
    - rewrite A1. apply elem_of_app. right. by apply list_elem_of_singleton.
    - injection S1 as -> _ _ _ _. exact Hf. }
  eexists. split; [eapply rtc_l; [exact Hs1|]; apply rtc_once, Hs2|]. split; [by eapply exchange_step_ok|]. cbn [robot]. congruence.
Qed.

Lemma completes_from m s k : (m + k = List.length items)%nat -> exchange_ok s -> knows k (robot s) ->
  exists s', rtc exchange_step s s' /\ description_ready (robot s') = true.
Proof.
  revert s k. induction m as [|m IH]; intros s k Hm Hok Hkn.
  - exists s. split; [constructor|]. rewrite (knows_ready k) by (done || lia). apply Nat.eqb_eq. lia.
  - destruct (lookup_lt_is_Some_2 items k) as [b Hb]; [lia|].
    destruct (answer_step s b Hok) as (s1 & Hrun & Hok1 & S1).
    + apply Hok. rewrite (knows_ready k) by (done || lia). apply Nat.eqb_neq. lia.
    + rewrite (knows_fragment k) by (done || lia). unfold answer. rewrite (proj2 (Z.eqb_neq _ _)) by lia.
      rewrite (proj2 (Z.ltb_ge _ _)), Nat2Z.id by lia. exact Hb.
    + rewrite (knows_fragment k) by (done || lia). lia.
    + left. by eapply item_named.
    + destruct (IH s1 (S k)) as (s2 & Hrun2 & H2); [lia|done|eapply seen_knows; [exact S1|]; by apply knows_next|].
      exists s2. split; [by etrans|done].
Qed.

Lemma exchange_completes s : exchange_ok s -> exists s', rtc exchange_step s s' /\ description_ready (robot s') = true.
Proof.
  intros Hok. pose proof Hok as (_ & _ & [[Hn _]|(k & Hk & Hkn & _)]);
    [|apply (completes_from (List.length items - k) s k); [lia|done|done]].
  destruct (answer_step s (Description (Description.mk (partial 0))) Hok) as (s1 & Hrun & Hok1 & S1).
  - apply Hok. destruct Hn as (Hd & _). unfold description_ready. by rewrite Hd.
  - by rewrite nothing_fragment.
  - intros _. destruct Hn as (Hd & _). by rewrite Hd.
  - by right.
  - destruct (completes_from (List.length items) s1 0%nat) as (s2 & Hrun2 & H2); [lia|done|eapply seen_knows; [exact S1|]; by apply knows_first|].
    exists s2. split; [by etrans|done].
Qed.

(** C16: with a robot of protocol version 8 or later, whose description is asked
    for in fragments, the exchange never gets stuck: whatever has been lost, the
    timer of the robot is armed until its description is complete, and repeating
    the requests, each answered once, completes it.  The robot describes itself
    with a name and distinct items, as in [device_ok]. *)
Theorem description_completes s s' : begins s -> rtc exchange_step s s' ->
  (description_ready (robot s') = false -> m_resend_timer (robot s') = ResendFragment) /\
  exists s'', rtc exchange_step s' s'' /\ description_ready (robot s'') = true.
Proof.
  intros Hb Hrun. pose proof (rtc_invariant _ _ _ _ exchange_step_ok (begins_ok s Hb) Hrun) as Hok.
  split; [apply Hok|by apply exchange_completes].
Qed.
End Protocol.

(** ** A device *)

Definition sample_items : list Body :=
  [NamedVariableDescription (NamedVariableDescription.mk (mkNamedVariable (ws "_id") 1));
   NamedVariableDescription (NamedVariableDescription.mk (mkNamedVariable (ws "acc") 3))].

Lemma sample_device : device_ok sample_description sample_items.
Proof.
  split; try reflexivity; try done.
  - repeat constructor; done.
  - apply (bool_decide_unpack _). vm_compute. exact I.
  - constructor.
  - constructor.
Qed.

Definition sample_begin : exchange (K:=Z) :=
  match get_description (Some sample_endpoint) (new_node (K:=Z) sample_uuid 1 8) with
  | Ok (_, n, e) => mkExchange n (asked e)
  | _ => mkExchange (new_node sample_uuid 1 8) []
  end.

Lemma sample_begins : begins sample_endpoint sample_uuid sample_begin.
Proof. exists 1, 8. eexists. split; [lia|]. split; [|vm_compute; reflexivity]. vm_compute. reflexivity. Qed.

Lemma description_completes_witness : exists s, rtc (exchange_step sample_endpoint sample_description sample_items) sample_begin s /\
  description_ready (robot s) = true.
Proof.
  apply (description_completes sample_endpoint sample_uuid sample_description sample_items sample_device sample_begin sample_begin sample_begins).
  constructor.
Defined.

(** The second fragment is answered twice. *)
Lemma sample_exchange : exists s, rtc (exchange_step sample_endpoint sample_description sample_items) sample_begin s /\
  description_ready (robot s) = true.
Proof.
  eexists. split.
  - eapply rtc_l; [eapply (Answered _ _ _ _ (-1)); [apply elem_of_cons; by left|reflexivity|reflexivity|vm_compute; reflexivity]|].
    eapply rtc_l; [eapply (Answered _ _ _ _ 0); [apply elem_of_cons; right; apply elem_of_cons; by left|reflexivity|done|vm_compute; reflexivity]|].
    eapply rtc_l; [eapply (Answered _ _ _ _ 0); [apply elem_of_cons; right; apply elem_of_cons; by left|reflexivity|done|vm_compute; reflexivity]|].
    eapply rtc_l; [eapply (Answered _ _ _ _ 1); [do 2 (apply elem_of_cons; right); apply elem_of_cons; by left|reflexivity|done|vm_compute; reflexivity]|].
    apply rtc_refl.
  - vm_compute. reflexivity.
Qed.

Lemma description_exact_witness : exists s, rtc (exchange_step sample_endpoint sample_description sample_items) sample_begin s /\
  m_description (robot s) = sample_description.
Proof.
  destruct sample_exchange as (s & Hrun & Hready). exists s. split; [exact Hrun|].
  apply (description_exact sample_endpoint sample_uuid sample_description sample_items sample_device sample_begin s sample_begins Hrun Hready).
Defined.

(** A repeated message with the sizes of the lists, after the first variable:
    the list is made anew but not its counter, and the description that is
    complete at the end has a variable without a name and a size. *)
Definition handled (b : Body) (r : res runtime_error (unit * node Z * list (effect Z))) :=
  match r with Ok (_, n, _) => handle_description_messages (Some sample_endpoint) b n | r => r end.

Lemma description_repeated : exists n e,
  let sizes := Description (Description.mk (partial sample_description sample_items 0)) in
  handled (nth 1 sample_items sizes) (handled sizes (handled (nth 0 sample_items sizes)
    (handled sizes (get_description (Some sample_endpoint) (new_node sample_uuid 1 8))))) = Ok (tt, n, e) /\
  description_ready n = true /\
  namedVariables (m_description n) = [mkNamedVariable [] 0; mkNamedVariable (ws "acc") 3].
Proof. eexists _, _. split; [vm_compute; reflexivity|]. split; vm_compute; reflexivity. Qed.
