(* ===== verification/Group.v ===== *)
(** * Groups: programs that wait for their robots

    thymio-device-manager/group.{h,cpp}: the scratchpads of a group and their
    assignment to nodes.  Vectors of pads are lists, references to pads are
    indices.  The other operations of a group are in GroupOps.v. *)
From Stdlib Require Import ZArith Lia List String.
From stdpp Require Import base list list_monad.
From S2P Require Import Prelude OrdMap Property Node NodeInfo.

Local Open Scope Z_scope.

(** ** Data *)

Record scratchpad : Type := mkScratchpad {
  scratchpad_id : list Z;
  language : programming_language;
  nodeid : list Z;
  preferred_node_id : list Z;
  pad_name : list Z;
  aseba_id : Z;
  text : list Z;
  deleted : bool
}.

Definition set_nodeid (id : list Z) (s : scratchpad) : scratchpad :=
  mkScratchpad (scratchpad_id s) (language s) id (preferred_node_id s) (pad_name s) (aseba_id s) (text s) (deleted s).
Definition set_keys (preferred name : list Z) (id : Z) (s : scratchpad) : scratchpad :=
  mkScratchpad (scratchpad_id s) (language s) (nodeid s) preferred name id (text s) (deleted s).
Definition set_text (l : programming_language) (t : list Z) (s : scratchpad) : scratchpad :=
  mkScratchpad (scratchpad_id s) l (nodeid s) (preferred_node_id s) (pad_name s) (aseba_id s) t (deleted s).
Definition set_deleted (s : scratchpad) : scratchpad :=
  mkScratchpad (scratchpad_id s) (language s) (nodeid s) (preferred_node_id s) (pad_name s) (aseba_id s) (text s) true.

(** [mobsya::event]; its type is always [aseba]. *)
Record event : Type := mkEvent { ev_name : list Z; ev_size : Z }.

(** What a group looks at in the nodes of its endpoints. *)
Record group_node : Type := mkGroupNode {
  gn_uuid : list Z;
  gn_native_id : Z;
  gn_status : status;
  gn_friendly_name : list Z
}.

(** [std::find_if], as the index that it finds. *)
Fixpoint find_index {A} (p : A -> bool) (l : list A) : option nat :=
  match l with
  | [] => None
  | x :: l' => if p x then Some O else option_map S (find_index p l')
  end.

Definition is_nil (id : list Z) : bool := bool_decide (id = nil_uuid).

Section Pads.
(** A fresh random uuid, and what the members of a pad hold that
    [scratchpad s;] leaves uninitialized. *)
Variable default_id : list Z.
Variable default_language : programming_language.

(** ** Finding and creating pads *)

Definition create_scratchpad (uuid : list Z) (pads : list scratchpad) : list scratchpad :=
  pads ++ [mkScratchpad uuid default_language default_id default_id [] 65535 [] false].

Definition pad_matches (preferred : option (list Z)) (name : option (list Z)) (id : option Z) (s : scratchpad) : bool :=
  match preferred with
  | Some p => bool_decide (nodeid s = p) || bool_decide (preferred_node_id s = p)
  | None => false
  end ||
  match id with Some i => aseba_id s =? i | None => false end ||
  match name with Some n => bool_decide (pad_name s = n) | None => false end.

Definition keyed (preferred : option (list Z)) (name : option (list Z)) (id : option Z) (s : scratchpad) : scratchpad :=
  set_keys (default (preferred_node_id s) preferred) (default (pad_name s) name) (default (aseba_id s) id) s.

Definition find_or_create_scratch_pad (uuid : list Z) (preferred : option (list Z)) (name : option (list Z)) (id : option Z)
    (pads : list scratchpad) : list scratchpad * nat :=
  match find_index (pad_matches preferred name id) pads with
  | Some i => (pads, i)
  | None => (alter (keyed preferred name id) (List.length pads) (create_scratchpad uuid pads), List.length pads)
  end.

Definition find_or_create_scratch_pad_for_node (uuid id : list Z) (pads : list scratchpad) : list scratchpad * nat :=
  match find_index (fun s => bool_decide (nodeid s = id)) pads with
  | Some i => (pads, i)
  | None => (alter (set_nodeid id) (List.length pads) (create_scratchpad uuid pads), List.length pads)
  end.
End Pads.

(** ** The assignment of pads to nodes *)

Definition connected_nodes (nodes : list group_node) : list group_node :=
  List.filter (fun n => negb (bool_decide (gn_status n = disconnected) || bool_decide (gn_status n = connected))) nodes.

(** A pad, and whether it is in the set [modified]. *)
Abbreviation pads_state := (list (scratchpad * bool)).

Definition assigned (id : list Z) (sm : scratchpad * bool) : scratchpad * bool := (set_nodeid id (fst sm), true).

Definition reset_pad (connected : list group_node) (s : scratchpad) : scratchpad * bool :=
  if bool_decide (nodeid s ∈ List.map gn_uuid connected) then (s, false) else assigned nil_uuid (s, false).

Definition used (ps : pads_state) : list (list Z) :=
  List.filter (fun id => negb (is_nil id)) (List.map (fun sm => nodeid (fst sm)) ps).

Definition free_nodes (connected : list group_node) (ps : pads_state) : list group_node :=
  List.filter (fun n => negb (bool_decide (gn_uuid n ∈ used ps))) connected.

Definition to_assign (sm : scratchpad * bool) : bool := is_nil (nodeid (fst sm)).

(** The lambda [assign]: the nodes that are free at its start, each with the
    first unassigned pad that the predicate relates to it. *)
Definition assign_step (predicate : group_node -> scratchpad -> bool) (ps : pads_state) (n : group_node) : pads_state :=
  match find_index (fun sm => to_assign sm && predicate n (fst sm)) ps with
  | Some i => alter (assigned (gn_uuid n)) i ps
  | None => ps
  end.

Definition assign (predicate : group_node -> scratchpad -> bool) (connected : list group_node) (ps : pads_state) : pads_state :=
  foldl (assign_step predicate) ps (free_nodes connected ps).

(** The last loop; the answer is whether it ends without the early return. *)
Fixpoint assign_rest (connected : list group_node) (visited todo : pads_state) : pads_state * bool :=
  match todo with
  | [] => (visited, true)
  | sm :: todo' =>
      if to_assign sm then
        match free_nodes connected (visited ++ todo) with
        | [] => (visited ++ todo, false)
        | n :: _ => assign_rest connected (visited ++ [assigned (gn_uuid n) sm]) todo'
        end
      else assign_rest connected (visited ++ [sm]) todo'
  end.

(** The new pads and the pads that are signalled. *)
Definition assign_scratchpads (nodes : list group_node) (pads : list scratchpad) : list scratchpad * list scratchpad :=
  let connected := connected_nodes nodes in
  let ps := List.map (reset_pad connected) pads in
  let ps := assign (fun n s => bool_decide (nodeid s = gn_uuid n)) connected ps in
  let ps := assign (fun n s => aseba_id s =? gn_native_id n) connected ps in
  let ps := assign (fun n s => bool_decide (pad_name s = gn_friendly_name n)) connected ps in
  let '(ps, finished) := assign_rest connected [] ps in
  (List.map fst ps, if finished then List.map fst (List.filter snd ps) else []).

(** * What the assignment of scratchpads guarantees

    It is a maximal matching of the pads with the nodes that keeps the pairs
    that were there. *)

(** ** Searching *)

Lemma find_index_Some {A} (p : A -> bool) l i :
  find_index p l = Some i -> exists x, l !! i = Some x /\ p x = true.
Proof.
  revert i. induction l as [|y l IH]; intros i; [done|]. simpl. destruct (p y) eqn:E.
  - intros [= <-]. by exists y.
  - destruct (find_index p l) as [j|]; [|done]. intros [= <-]. by apply IH.
Qed.

Lemma find_index_None {A} (p : A -> bool) l : find_index p l = None -> Forall (fun x => p x = false) l.
Proof.
  induction l as [|y l IH]; [constructor|]. simpl. destruct (p y) eqn:E; [done|].
  destruct (find_index p l); [done|]. intros _. constructor; auto.
Qed.

Lemma find_index_first {A} (p : A -> bool) l1 x l2 :
  Forall (fun y => p y = false) l1 -> p x = true -> find_index p (l1 ++ x :: l2) = Some (List.length l1).
Proof. induction 1 as [|y l1 Hy _ IH]; intros Hx; simpl; [by rewrite Hx|]. by rewrite Hy, IH. Qed.

Lemma is_nil_iff id : is_nil id = true <-> id = nil_uuid.
Proof. apply bool_decide_eq_true. Qed.
Lemma is_nil_false id : is_nil id = false <-> id <> nil_uuid.
Proof. apply bool_decide_eq_false. Qed.

(** ** What an assignment does to the pads *)

(** A pad keeps its node, or gets one if it has none. *)
Definition moved (a b : scratchpad * bool) : Prop :=
  b = a \/ (to_assign a = true /\ exists id, b = assigned id a).

#[local] Instance moved_preorder : PreOrder moved.
Proof.
  split; [by left|]. intros a b c [->|[Ha [id ->]]] [->|[Hb [id' ->]]]; unfold moved; eauto.
Qed.

Lemma moved_alter ps i id sm :
  ps !! i = Some sm -> to_assign sm = true -> Forall2 moved ps (alter (assigned id) i ps).
Proof.
  intros Hi Hs. apply Forall2_same_length_lookup_2; [by rewrite length_alter|].
  intros j a b Ha. rewrite list_lookup_alter. case_decide as Hj.
  - subst j. rewrite Ha. simpl. intros [= <-]. right. simplify_eq. eauto.
  - rewrite Ha. intros [= <-]. by left.
Qed.

Lemma used_cons sm ps : used (sm :: ps) = if to_assign sm then used ps else nodeid (fst sm) :: used ps.
Proof. unfold used, to_assign. simpl. by destruct (is_nil _). Qed.

Lemma used_app ps1 ps2 : used (ps1 ++ ps2) = used ps1 ++ used ps2.
Proof. unfold used. by rewrite map_app, List.filter_app. Qed.

Lemma used_alter ps i id sm :
  ps !! i = Some sm -> to_assign sm = true -> id <> nil_uuid ->
  used (alter (assigned id) i ps) ≡ₚ id :: used ps.
Proof.
  intros Hi Hs Hid. apply list_elem_of_split_length in Hi as (l1 & l2 & -> & ->).
  rewrite alter_app_r_alt, Nat.sub_diag by done. simpl. rewrite !used_app, !used_cons, Hs.
  replace (to_assign (assigned id sm)) with false by (symmetry; by apply is_nil_false).
  simpl. by rewrite Permutation_middle.
Qed.

Lemma elem_of_used id ps : id ∈ used ps <-> id <> nil_uuid /\ id ∈ List.map (fun sm => nodeid (fst sm)) ps.
Proof.
  unfold used. rewrite !list_elem_of_In, List.filter_In, negb_true_iff, is_nil_false. tauto.
Qed.

Lemma assign_step_moved predicate ps n : Forall2 moved ps (assign_step predicate ps n).
Proof.
  unfold assign_step. destruct (find_index _ ps) as [i|] eqn:E; [|done].
  apply find_index_Some in E as (sm & Hi & Hsm). apply andb_prop in Hsm as [Hsm _]. by eapply moved_alter.
Qed.

Lemma assign_moved predicate connected ps : Forall2 moved ps (assign predicate connected ps).
Proof.
  unfold assign. generalize (free_nodes connected ps). intros l. revert ps.
  induction l as [|n l IH]; intros ps; [done|]. simpl. etrans; [apply assign_step_moved|apply IH].
Qed.

Lemma assign_rest_moved connected visited todo : Forall2 moved (visited ++ todo) (fst (assign_rest connected visited todo)).
Proof.
  revert visited. induction todo as [|sm todo IH]; intros visited; simpl; [by rewrite app_nil_r|].
  assert (forall b, moved sm b -> Forall2 moved (visited ++ sm :: todo) (fst (assign_rest connected (visited ++ [b]) todo))) as Hb.
  { intros b Hb. etrans; [|apply IH]. rewrite <- app_assoc. apply Forall2_app; [done|]. by constructor. }
  destruct (to_assign sm) eqn:E; [|by apply Hb]. destruct (free_nodes _ _); [done|]. apply Hb. right. eauto.
Qed.

(** ** The matching *)

Section Matching.
Variable nodes : list group_node.

Definition ids : list (list Z) := List.map gn_uuid (connected_nodes nodes).

Hypothesis Hdistinct : NoDup ids.
Hypothesis Hnil : nil_uuid ∉ ids.

(** No two pads have one node, and the nodes of pads are connected. *)
Definition valid (ps : pads_state) : Prop := NoDup (used ps) /\ (forall id, id ∈ used ps -> id ∈ ids).

Lemma valid_extend ps ps' id : valid ps -> used ps' ≡ₚ id :: used ps -> id ∈ ids -> id ∉ used ps -> valid ps'.
Proof.
  intros [Hnd Hin] Hp Hid Hfree. split; [rewrite Hp; by constructor|].
  intros x. rewrite Hp, elem_of_cons. intros [->|Hx]; auto.
Qed.

Lemma assign_step_ok predicate ps n :
  valid ps -> gn_uuid n ∈ ids -> gn_uuid n ∉ used ps ->
  let ps' := assign_step predicate ps n in
  valid ps' /\ forall id, id ∈ used ps' -> id = gn_uuid n \/ id ∈ used ps.
Proof.
  intros Hv Hid Hfree. unfold assign_step. destruct (find_index _ ps) as [i|] eqn:E; [|by split; [|auto]].
  apply find_index_Some in E as (sm & Hi & Hsm). apply andb_prop in Hsm as [Hsm _].
  assert (used (alter (assigned (gn_uuid n)) i ps) ≡ₚ gn_uuid n :: used ps) as Hp.
  { eapply used_alter; [done..|]. intros Hx. apply Hnil. by rewrite <- Hx. }
  split; [by eapply valid_extend|]. intros id. rewrite Hp, elem_of_cons. tauto.
Qed.

Lemma assign_fold_ok predicate l ps :
  valid ps -> NoDup (List.map gn_uuid l) -> (forall n, n ∈ l -> gn_uuid n ∈ ids /\ gn_uuid n ∉ used ps) ->
  valid (foldl (assign_step predicate) ps l).
Proof.
  revert ps. induction l as [|n l IH]; intros ps Hv Hnd Hl; [done|]. simpl in *.
  apply NoDup_cons in Hnd as [Hn Hnd]. destruct (Hl n) as [Hid Hfree]; [left|].
  destruct (assign_step_ok predicate ps n Hv Hid Hfree) as (Hv' & Hu).
  apply (IH (assign_step predicate ps n)); [done|done|].
  intros n' Hn'. destruct (Hl n') as [Hid' Hfree']; [by right|]. split; [done|]. intros [Hx|Hx]%Hu; [|done].
  apply Hn. rewrite <- Hx. apply list_elem_of_In, in_map. by apply list_elem_of_In.
Qed.

Lemma free_nodes_ok ps : NoDup (List.map gn_uuid (free_nodes (connected_nodes nodes) ps)) /\
  forall n, n ∈ free_nodes (connected_nodes nodes) ps <-> n ∈ connected_nodes nodes /\ gn_uuid n ∉ used ps.
Proof.
  split.
  - unfold free_nodes, ids in *. revert Hdistinct. generalize (connected_nodes nodes). clear.
    induction l as [|n l IH]; [done|]. simpl. intros [Hn Hnd]%NoDup_cons. destruct (negb _); [|by apply IH].
    simpl. constructor; [|by apply IH]. intros Hx. apply Hn. rewrite list_elem_of_In, in_map_iff in *.
    destruct Hx as (m & Hm & [Hx _]%List.filter_In). by exists m.
  - intros n. unfold free_nodes. by rewrite list_elem_of_In, List.filter_In, negb_true_iff, bool_decide_eq_false, <- list_elem_of_In.
Qed.

Lemma assign_ok predicate ps :
  valid ps -> valid (assign predicate (connected_nodes nodes) ps).
Proof.
  intros Hv. destruct (free_nodes_ok ps) as [Hnd Hin]. apply assign_fold_ok; [done|done|].
  intros n [Hn Hfree]%Hin. split; [|done]. apply list_elem_of_In, in_map. by apply list_elem_of_In.
Qed.

(** The last loop leaves no pad without a node, or no node without a pad. *)
Lemma assign_rest_ok visited todo ps finished :
  valid (visited ++ todo) -> Forall (fun sm => to_assign sm = false) visited ->
  assign_rest (connected_nodes nodes) visited todo = (ps, finished) ->
  valid ps /\
  (if finished then Forall (fun sm => to_assign sm = false) ps
   else Exists (fun sm => to_assign sm = true) ps /\ forall id, id ∈ ids -> id ∈ used ps).
Proof.
  revert visited. induction todo as [|sm todo IH]; intros visited Hv Hvis; simpl.
  { intros [= <- <-]. rewrite app_nil_r in *. done. }
  destruct (to_assign sm) eqn:Et.
  - destruct (free_nodes_ok (visited ++ sm :: todo)) as [_ Hfree].
    destruct (free_nodes _ _) as [|n rest].
    + intros [= <- <-]. split_and!; [done|apply Exists_app; right; by left|].
      intros id (n & <- & Hn)%list_elem_of_In%in_map_iff. apply dec_stable. intros Hx.
      apply (list_elem_of_In (A:=group_node)) in Hn. by apply not_elem_of_nil with n, Hfree.
    + destruct (Hfree n) as [[Hn Hu] _]; [left|].
      assert (gn_uuid n ∈ ids) as Hid by (apply list_elem_of_In, in_map; by apply list_elem_of_In).
      assert (gn_uuid n <> nil_uuid) as Hne by (intros Hx; apply Hnil; by rewrite <- Hx).
      intros E. apply IH in E; [done| |].
      * rewrite <- app_assoc. eapply valid_extend; [exact Hv| |done..].
        rewrite !used_app, !used_cons, Et. replace (to_assign _) with false by (symmetry; by apply is_nil_false).
        simpl. by rewrite Permutation_middle.
      * apply Forall_app. split; [done|]. constructor; [by apply is_nil_false|constructor].
  - intros E. replace (visited ++ sm :: todo) with ((visited ++ [sm]) ++ todo) in * by (by rewrite <- app_assoc).
    apply IH in E; [done|done|]. apply Forall_app. split; [done|]. by constructor.
Qed.

(** The pads before the loops: those without a connected node have none. *)
Lemma reset_ok pads :
  NoDup (List.filter (fun id => bool_decide (id ∈ ids)) (List.map nodeid pads)) ->
  valid (List.map (reset_pad (connected_nodes nodes)) pads).
Proof.
  assert (used (List.map (reset_pad (connected_nodes nodes)) pads)
          = List.filter (fun id => bool_decide (id ∈ ids)) (List.map nodeid pads)) as Hu.
  { induction pads as [|s pads IH]; [done|]. simpl. rewrite used_cons, IH. unfold reset_pad. fold ids.
    case_bool_decide as Hin; [|replace (to_assign _) with true by (symmetry; by apply is_nil_iff); done].
    replace (to_assign (s, false)) with false; [done|]. symmetry. apply is_nil_false. simpl. congruence. }
  unfold valid. rewrite Hu. intros Hnd. split; [done|]. intros id. rewrite list_elem_of_In, List.filter_In.
  by intros [_ ?%bool_decide_eq_true].
Qed.

Record matched (pads pads' : list scratchpad) : Prop := {
  matched_pads : Forall2 (fun s s' => s' = set_nodeid (nodeid s') s /\ (nodeid s ∈ ids -> nodeid s' = nodeid s)) pads pads';
  matched_nodes : forall s, s ∈ pads' -> nodeid s = nil_uuid \/ nodeid s ∈ ids;
  matched_once : NoDup (List.filter (fun id => negb (is_nil id)) (List.map nodeid pads'));
  matched_all : (exists s, s ∈ pads' /\ nodeid s = nil_uuid) -> forall id, id ∈ ids -> id ∈ List.map nodeid pads'
}.

Lemma used_nodeids ps : used ps = List.filter (fun id => negb (is_nil id)) (List.map nodeid (List.map fst ps)).
Proof. unfold used. by rewrite List.map_map. Qed.

(** What has moved since the pads were reset. *)
Lemma reset_moved s b : moved (reset_pad (connected_nodes nodes) s) b ->
  fst b = set_nodeid (nodeid (fst b)) s /\ (nodeid s ∈ ids -> nodeid (fst b) = nodeid s) /\
  (nodeid (fst b) <> nodeid s -> snd b = true).
Proof.
  unfold reset_pad. fold ids. case_bool_decide as Hin; intros [->|[Ht [id ->]]].
  - by destruct s.
  - apply is_nil_iff in Ht. simpl in Ht. congruence.
  - done.
  - done.
Qed.
End Matching.

(** The pads before and after, with what is in the set [modified]. *)
Lemma assign_scratchpads_eq nodes pads : exists ps finished,
  assign_scratchpads nodes pads = (List.map fst ps, if finished : bool then List.map fst (List.filter snd ps) else []) /\
  Forall2 (fun s b => moved (reset_pad (connected_nodes nodes) s) b) pads ps /\
  (NoDup (ids nodes) -> nil_uuid ∉ ids nodes ->
   NoDup (List.filter (fun id => bool_decide (id ∈ ids nodes)) (List.map nodeid pads)) ->
   valid nodes ps /\
   (if finished then Forall (fun sm => to_assign sm = false) ps
    else Exists (fun sm => to_assign sm = true) ps /\ forall id, id ∈ ids nodes -> id ∈ used ps)).
Proof.
  unfold assign_scratchpads. set (ps0 := List.map _ pads). set (ps1 := assign _ _ ps0). set (ps2 := assign _ _ ps1).
  set (ps3 := assign _ _ ps2). destruct (assign_rest _ _ _) as [ps finished] eqn:E. exists ps, finished. split; [done|]. split.
  - refine (proj1 (Forall2_fmap_l (reset_pad (connected_nodes nodes)) moved _ _) _).
    trans ps1; [apply assign_moved|]. trans ps2; [apply assign_moved|]. trans ps3; [apply assign_moved|].
    pose proof (assign_rest_moved (connected_nodes nodes) [] ps3) as H. by rewrite E in H.
  - intros Hnd Hnil Hp. apply reset_ok in Hp; [|done]. eapply assign_rest_ok in E; [done|done|done| |done].
    simpl. unfold ps3, ps2, ps1. by repeat (apply assign_ok; [done|done|]).
Qed.

Lemma reset_same connected s b : moved (reset_pad connected s) b -> fst b = set_nodeid (nodeid (fst b)) s.
Proof. unfold reset_pad. case_bool_decide; intros [->|[_ [id ->]]]; by destruct s. Qed.

(** Only the nodes of the pads change. *)
Lemma assign_scratchpads_same nodes pads :
  Forall2 (fun s s' => s' = set_nodeid (nodeid s') s) pads (fst (assign_scratchpads nodes pads)).
Proof.
  destruct (assign_scratchpads_eq nodes pads) as (ps & f & -> & Hm & _). simpl.
  refine (proj2 (Forall2_fmap_r fst _ _ _) _). eapply Forall2_impl; [exact Hm|]. intros s b H.
  by apply reset_same in H.
Qed.

(** C25: the pads of a group are matched with its connected nodes: a pad that has
    one of them keeps it, no node gets two pads, and no pad stays without a
    node while a node has no pad; nothing else of the pads changes.  When every
    pad has a node, all pads whose node changed are signalled. *)
Theorem assign_scratchpads_spec nodes pads pads' signals :
  NoDup (ids nodes) -> nil_uuid ∉ ids nodes ->
  NoDup (List.filter (fun id => bool_decide (id ∈ ids nodes)) (List.map nodeid pads)) ->
  assign_scratchpads nodes pads = (pads', signals) ->
  matched nodes pads pads' /\
  ((forall s, s ∈ pads' -> nodeid s <> nil_uuid) ->
   forall i s s', pads !! i = Some s -> pads' !! i = Some s' -> nodeid s' <> nodeid s -> s' ∈ signals).
Proof.
  intros Hnd Hnil Hp. destruct (assign_scratchpads_eq nodes pads) as (ps & finished & -> & Hm & Hend).
  destruct (Hend Hnd Hnil Hp) as [Hv4 Hend']. clear Hend. rename Hend' into Hend.
  intros [= <- <-]. split; [split|].
  - refine (proj2 (Forall2_fmap_r fst _ _ _) _). eapply Forall2_impl; [exact Hm|]. intros s b H. simpl. apply (reset_moved nodes Hnil) in H as (? & ? & _). by split.
  - intros s (b & <- & Hb)%list_elem_of_In%in_map_iff.
    destruct (decide (nodeid (fst b) = nil_uuid)) as [|Hne]; [by left|right]. apply Hv4, elem_of_used. split; [done|].
    apply list_elem_of_In, in_map_iff. by exists b.
  - rewrite <- used_nodeids. apply Hv4.
  - intros (s & Hs & Hz) id Hid. destruct finished.
    + apply list_elem_of_In, in_map_iff in Hs as (b & <- & Hb). rewrite Forall_forall in Hend.
      apply list_elem_of_In, Hend, is_nil_false in Hb. done.
    + apply Hend, elem_of_used in Hid as [_ Hid]. by rewrite List.map_map.
  - intros Hall i s s' Hs Hs' Hne. destruct finished.
    + apply (list_lookup_fmap_Some fst) in Hs' as (b & -> & Hb).
      eapply Forall2_lookup_lr in Hm; [|done..]. apply (reset_moved nodes Hnil) in Hm as (_ & _ & Hflag).
      apply list_elem_of_In, in_map, List.filter_In. split; [|by apply Hflag]. apply list_elem_of_In. by eapply list_elem_of_lookup_2.
    + destruct Hend as [(b & Hb & Ht)%Exists_exists _]. exfalso.
      apply (Hall (fst b)); [|by apply is_nil_iff]. apply list_elem_of_In, in_map. by apply list_elem_of_In.
Qed.

Definition sample_nodes : list group_node := [mkGroupNode [1] 1 available []; mkGroupNode [2] 2 available []].
Definition sample_pads : list scratchpad :=
  [mkScratchpad [7] Aseba [2] [] [] 5 [] false; mkScratchpad [8] Aseba [] [] [] 2 [] false].

Lemma assign_scratchpads_spec_witness :
  List.map nodeid (fst (assign_scratchpads sample_nodes sample_pads)) = [[2]; [1]] /\
  matched sample_nodes sample_pads (fst (assign_scratchpads sample_nodes sample_pads)).
Proof.
  split; [reflexivity|]. destruct (assign_scratchpads sample_nodes sample_pads) as [pads' signals] eqn:E.
  refine (proj1 (assign_scratchpads_spec sample_nodes sample_pads pads' signals _ _ _ E)); apply (bool_decide_unpack _); vm_compute; exact I.
Defined.

(** When a pad stays without a node, no pad is signalled, not even those that
    got a node. *)
Lemma assignment_unannounced nodes pads pads' signals s :
  NoDup (ids nodes) -> nil_uuid ∉ ids nodes ->
  NoDup (List.filter (fun id => bool_decide (id ∈ ids nodes)) (List.map nodeid pads)) ->
  assign_scratchpads nodes pads = (pads', signals) -> s ∈ pads' -> nodeid s = nil_uuid -> signals = [].
Proof.
  intros Hnd Hnil Hp. destruct (assign_scratchpads_eq nodes pads) as (ps & finished & -> & _ & Hend).
  destruct (Hend Hnd Hnil Hp) as [_ He]. intros [= <- <-] (b & <- & Hb)%list_elem_of_In%in_map_iff Hs. destruct finished; [|done].
  rewrite Forall_forall in He. apply list_elem_of_In, He, is_nil_false in Hb. done.
Qed.
