(* ===== verification/GroupOps.v ===== *)
(** * Documents with programs

    thymio-device-manager/aesl_parser.{h,cpp}: the constants, the events and the
    programs of an XML document.  What pugixml finds in the document, the
    conversions of Boost and the parsing of uuids are parameters.  Below, the
    operations of a group (group.cpp). *)
From Stdlib Require Import ZArith Lia List String.
From stdpp Require Import base list list_monad.
From S2P Require Import Prelude Consts OrdMap Property Node NodeInfo Group.

Local Open Scope Z_scope.

(** ** Data *)

(** The elements that the queries /network/constant, /network/event and
    /network/node select; an attribute or a text may be missing. *)
Record xml_constant : Type := mkXmlConstant { xc_name : option (list Z); xc_value : option (list Z) }.
Record xml_event : Type := mkXmlEvent { xe_name : option (list Z); xe_size : option (list Z) }.
Record xml_node : Type := mkXmlNode { xn_name : option (list Z); xn_node_id : option (list Z); xn_text : option (list Z) }.

Record xml_document : Type := mkXmlDocument {
  xml_constants : list xml_constant;
  xml_events : list xml_event;
  xml_nodes : list xml_node
}.

(** [variant<monostate, uint16_t, node_id>] and [node_info]. *)
Inductive program_id : Type := NoId | NativeId (id : Z) | Uuid (id : list Z).

Record node_info : Type := mkNodeInfo { ni_name : option (list Z); ni_id : program_id; ni_code : list Z }.

Inductive aesl_error : Type :=
| invalid_constant_declaration
| invalid_constant_type
| invalid_event_declaration
| invalid_event_type
| invalid_node_declaration.

Section Aesl.
(** [try_lexical_convert] to an integral type, from a string and from a
    [long long]; [as_llong] of an attribute; [string_generator], which throws,
    and whether the version of the uuid is known. *)
Variable lexical_convert : int_type -> list Z -> option Z.
Variable lexical_convert_llong : int_type -> Z -> option Z.
Variable as_llong : option (list Z) -> Z.
Variable string_generator : list Z -> option (list Z).
Variable version_known : list Z -> bool.

(** [as_string]: an attribute that is missing reads as the empty string. *)
Definition as_string (a : option (list Z)) : list Z := default [] a.

Definition constants_step (acc : variables_map) (c : xml_constant) : variables_map + aesl_error :=
  let n := as_string (xc_name c) in
  match n, xc_value c with
  | [], _ | _, None => inr invalid_constant_declaration
  | _, Some v =>
      match lexical_convert int16_t v with
      | None => inr invalid_constant_type
      | Some value => inl (om_set n (Integral value) acc)
      end
  end.

(** A loop that returns at the first error. *)
Fixpoint parse_all_of {A X} (step : A -> X -> A + aesl_error) (acc : A) (l : list X) : A + aesl_error :=
  match l with
  | [] => inl acc
  | x :: l' => match step acc x with inl acc' => parse_all_of step acc' l' | inr e => inr e end
  end.

Definition constants (d : xml_document) : variables_map + aesl_error := parse_all_of constants_step [] (xml_constants d).

Definition uint64_t : int_type := mkInt false 64.

Definition events_step (acc : list event) (e : xml_event) : list event + aesl_error :=
  match xe_name e, xe_size e with
  | Some name, Some s =>
      match lexical_convert uint64_t s with
      | Some size =>
          if (0 <? Z.of_nat (List.length name)) && (size <=? ASEBA_MAX_EVENT_ARG_COUNT) then inl (acc ++ [mkEvent name size])
          else inr invalid_event_type
      | None => inr invalid_event_type
      end
  | _, _ => inr invalid_event_declaration
  end.

Definition global_events (d : xml_document) : list event + aesl_error := parse_all_of events_step [] (xml_events d).

Definition node_info_id (id_attr : option (list Z)) : program_id :=
  match string_generator (as_string id_attr) with
  | Some uuid => if version_known uuid then Uuid uuid else NoId
  | None =>
      match lexical_convert_llong uint16_t (as_llong id_attr) with
      | Some id => if 0 <? id then NativeId id else NoId
      | None => NoId
      end
  end.

Definition nodes_step (acc : list node_info) (n : xml_node) : list node_info + aesl_error :=
  match xn_text n with
  | None => inr invalid_event_type
  | Some code =>
      match xn_node_id n, node_info_id (xn_node_id n) with
      | Some _, NoId => inr invalid_event_type
      | _, id => inl (acc ++ [mkNodeInfo (Some (as_string (xn_name n))) id code])
      end
  end.

Definition program_nodes (d : xml_document) : list node_info + aesl_error := parse_all_of nodes_step [] (xml_nodes d).
End Aesl.

(** * The operations of a group

    thymio-device-manager/group.cpp: what a group does to its pads, its
    variables and its events, and what it has done to its endpoints and to the
    applications that listen. *)

(** An endpoint is a number.  [generated] counts the pads that were created: it
    selects the next uuid. *)
Record group : Type := mkGroup {
  g_uuid : list Z;
  m_endpoints : list nat;
  m_events_table : list event;
  m_shared_variables : variables_map;
  m_scratchpads : list scratchpad;
  generated : nat
}.

(** What a group does, in order: signals, and calls of its endpoints. *)
Inductive group_effect : Type :=
| PadChanged (s : scratchpad)
| SharedChanged (m : variables_map)
| EventsChanged (l : list event)
| SetEndpointVariables (ep : nat) (m : variables_map)
| SetEndpointEvents (ep : nat) (l : list event)
| EmitEvents (ep : nat) (m : variables_map).

Section GroupOps.
Variable generate : nat -> list Z.
Variable default_id : list Z.
Variable default_language : programming_language.
(** [ptr.lock()] of an endpoint. *)
Variable alive : nat -> bool.

Definition set_pads (pads : list scratchpad) (n : nat) (g : group) : group :=
  mkGroup (g_uuid g) (m_endpoints g) (m_events_table g) (m_shared_variables g) pads n.

Definition has_state (g : group) : bool :=
  (1 <? List.length (m_endpoints g))%nat || negb (bool_decide (List.length (m_events_table g) = 0%nat)) ||
  negb (bool_decide (List.length (m_shared_variables g) = 0%nat)).

Definition endpoints (g : group) : list nat := List.filter alive (m_endpoints g).

(** The pad of a key, created if there is none, changed by [f]. *)
Definition update_pad (found : list scratchpad * nat) (f : scratchpad -> scratchpad) (g : group) : group :=
  let '(pads, i) := found in
  set_pads (alter f i pads) (if (List.length (m_scratchpads g) <? List.length pads)%nat then S (generated g) else generated g) g.

Definition set_node_scratchpad (id content : list Z) (l : programming_language) (g : group) : group * list group_effect :=
  let found := find_or_create_scratch_pad_for_node default_id default_language (generate (generated g)) id (m_scratchpads g) in
  let g' := update_pad found (set_text l content) g in
  (g', match m_scratchpads g' !! snd found with Some pad => [PadChanged pad] | None => [] end).

Definition set_shared_variables (map : variables_map) (g : group) : group * list group_effect :=
  (mkGroup (g_uuid g) (m_endpoints g) (m_events_table g) map (m_scratchpads g) (generated g),
   List.map (fun ep => SetEndpointVariables ep map) (endpoints g) ++ [SharedChanged map]).

Definition set_events_table (events : list event) (g : group) : group * list group_effect :=
  (mkGroup (g_uuid g) (m_endpoints g) events (m_shared_variables g) (m_scratchpads g) (generated g),
   List.map (fun ep => SetEndpointEvents ep events) (endpoints g) ++ [EventsChanged events]).

Definition on_event_received (source_ep : nat) (events : variables_map) (g : group) : list group_effect :=
  List.map (fun ep => EmitEvents ep events) (List.filter (fun ep => negb (ep =? source_ep)%nat) (endpoints g)).

Definition emit_events (map : variables_map) (g : group) : list group_effect :=
  List.map (fun ep => EmitEvents ep map) (endpoints g).

(** What the callback of [emit_events] is called with.  Each endpoint calls its
    copy once, or drops it ([None]).  The copies report errors; the deleter of
    the shared pointer calls the callback with success when the last copy is
    gone, as only the copies are reset. *)
Definition emit_answers (outcomes : list (option system_error)) : list system_error :=
  List.flat_map (fun o => match o with Some success | None => [] | Some e => [e] end) outcomes ++ [success].

(** The two variables that [load_code] fills. *)
Definition shared_step (acc : res variant_error variables_map) (c : list Z * property) : res variant_error variables_map :=
  vars ← acc;
  if negb (is_integral (snd c)) then Ok vars
  else
    z ← to_integral int64_t (snd c);
    match numeric_cast int16_t int64_t z with
    | inl v => Ok (om_insert (fst c) (Integral v) vars)
    | inr _ => Ok vars
    end.

Definition shared_of (constants : variables_map) : res variant_error variables_map := foldl shared_step (Ok []) constants.

(** One program of the document. *)
Definition load_program (g : group) (node : node_info) : group :=
  let '(preferred, id) := match ni_id node with
                          | NoId => (None, None)
                          | Uuid u => (Some u, None)
                          | NativeId i => (None, Some i)
                          end in
  update_pad (find_or_create_scratch_pad default_id default_language (generate (generated g)) preferred (ni_name node) id (m_scratchpads g))
    (set_text Aesl (ni_code node)) g.

(** [load_code] of a document that was parsed, for a group whose nodes are
    [nodes]. *)
Definition load_document (nodes : list group_node) (constants : variables_map) (events : list event) (programs : list node_info) (g : group)
    : res variant_error (group * list group_effect) :=
  shared ← shared_of constants;
  let dropped := List.map (fun s => PadChanged (set_deleted s)) (m_scratchpads g) in
  let g := foldl load_program (set_pads [] (generated g) g) programs in
  let '(g, e1) := set_shared_variables shared g in
  let '(g, e2) := set_events_table events g in
  let '(pads, signals) := assign_scratchpads nodes (m_scratchpads g) in
  Ok (set_pads pads (generated g) g, dropped ++ e1 ++ e2 ++ List.map PadChanged signals).

Section LoadCode.
Variable lexical_convert : int_type -> list Z -> option Z.
Variable lexical_convert_llong : int_type -> Z -> option Z.
Variable as_llong : option (list Z) -> Z.
Variable string_generator : list Z -> option (list Z).
Variable version_known : list Z -> bool.
(** [load_aesl]. *)
Variable load_aesl : list Z -> option xml_document.

(** A document with an error in any part leaves the group as it is. *)
Definition load_code (nodes : list group_node) (data : list Z) (l : programming_language) (g : group)
    : res variant_error (option error_code * group * list group_effect) :=
  match l with
  | Aseba => Ok (Some unsupported_language, g, [])
  | Aesl =>
      match load_aesl data with
      | None => Ok (Some invalid_aesl, g, [])
      | Some doc =>
          match constants lexical_convert doc, global_events lexical_convert doc,
                program_nodes lexical_convert_llong as_llong string_generator version_known doc with
          | inl cs, inl es, inl ns => '(g', e) ← load_document nodes cs es ns g; Ok (None, g', e)
          | _, _, _ => Ok (Some invalid_aesl, g, [])
          end
      end
  end.
End LoadCode.
End GroupOps.
