(* ===== verification/GroupLoad.v ===== *)
(** * Loading a document

    A document whose programs can be told apart gives every program a pad of
    its own. *)
From Stdlib Require Import ZArith Lia List String.
From stdpp Require Import base list list_monad.
From S2P Require Import Prelude Consts OrdMap Property Node NodeInfo Group GroupOps.

Local Open Scope Z_scope.

(** ** Constants *)

Lemma om_set_last {V} k (v : V) (m : omap (list Z) V) :
  Forall (fun kv => key_lt (fst kv) k = true) m -> om_set k v m = m ++ [(k, v)].
Proof.
  induction 1 as [|[k' v'] m Hk _ IH]; [done|]. cbn [om_set app fst] in *. rewrite key_eqb_neq.
  - destruct (key_lt k k') eqn:E; [|by rewrite IH]. pose proof (key_lt_trans _ _ _ E Hk) as Hx. by rewrite key_lt_irrefl in Hx.
  - intros ->. by rewrite key_lt_irrefl in Hk.
Qed.

Definition constant_ok (c : list Z * property) : Prop := exists v, snd c = Integral v /\ in_range int16_t v.

Lemma int16_int64 v : in_range int16_t v -> in_range int64_t v.
Proof. intros Hv. eapply wider_range; [| |exact Hv]; [done|by left]. Qed.

Lemma shared_step_ok acc k v : in_range int16_t v -> Forall (fun kv => key_lt (fst kv) k = true) acc ->
  shared_step (Ok acc) (k, Integral v) = Ok (acc ++ [(k, Integral v)]).
Proof.
  intros Hv Hk. unfold shared_step. cbn [snd fst is_integral negb to_integral mbind res_bind].
  rewrite convert_id, cast_word by (done || by apply int16_int64).
  replace (in_range_b int16_t v) with true by (symmetry; by apply in_range_b_iff).
  unfold om_insert. rewrite om_find_notin; [by rewrite om_set_last|].
  eapply Forall_impl; [exact Hk|]. intros [k' v']. cbn [fst]. intros H ->. by rewrite key_lt_irrefl in H.
Qed.

Lemma shared_fold acc cs : om_sorted (acc ++ cs) -> Forall constant_ok cs -> foldl shared_step (Ok acc) cs = Ok (acc ++ cs).
Proof.
  revert acc. induction cs as [|[k p] cs IH]; intros acc Hs Hc; [by rewrite app_nil_r|].
  apply Forall_cons in Hc as [(v & Hp & Hv) Hc]. cbn [snd] in Hp. subst p. cbn [foldl].
  rewrite shared_step_ok; [|done|].
  - rewrite (IH (acc ++ [(k, Integral v)])); rewrite <- ?app_assoc; done.
  - clear -Hs. induction acc as [|[k' v'] acc IH]; [constructor|]. destruct Hs as [Hf Hs]. constructor; [|by apply IH].
    apply Forall_app in Hf as [_ Hf]. by apply Forall_cons in Hf as [Hf _].
Qed.

Lemma shared_of_ok cs : om_sorted cs -> Forall constant_ok cs -> shared_of cs = Ok cs.
Proof. intros Hs Hc. by apply (shared_fold []). Qed.

(** ** Programs *)

(** Two programs that no key of a pad confuses. *)
Definition apart (p q : node_info) : Prop :=
  ni_name p <> ni_name q /\
  match ni_id p, ni_id q with
  | Uuid u, Uuid u' => u <> u'
  | NativeId i, NativeId i' => i <> i'
  | _, _ => True
  end.

Section Load.
Variable generate : nat -> list Z.
Variable default_id : list Z.
Variable default_language : programming_language.
Variable alive : nat -> bool.

(** A key that is not one of a pad that was just created. *)
Definition nameable (p : node_info) : Prop :=
  is_Some (ni_name p) /\ ni_id p <> Uuid default_id /\ ni_id p <> NativeId 65535.

Definition holds_program (p : node_info) (s : scratchpad) : Prop :=
  pad_name s = default [] (ni_name p) /\ text s = ni_code p /\ language s = Aesl /\ nodeid s = default_id /\ deleted s = false /\
  preferred_node_id s = match ni_id p with Uuid u => u | _ => default_id end /\
  aseba_id s = match ni_id p with NativeId i => i | _ => 65535 end.

Definition preferred_of (p : node_info) : option (list Z) := match ni_id p with Uuid u => Some u | _ => None end.
Definition native_of (p : node_info) : option Z := match ni_id p with NativeId i => Some i | _ => None end.

Lemma load_program_eq g p : load_program generate default_id default_language g p =
  update_pad (find_or_create_scratch_pad default_id default_language (generate (generated g)) (preferred_of p) (ni_name p) (native_of p) (m_scratchpads g))
    (set_text Aesl (ni_code p)) g.
Proof. unfold load_program, preferred_of, native_of. by destruct (ni_id p). Qed.

Lemma no_match p q s : nameable p -> nameable q -> apart q p -> holds_program q s ->
  pad_matches (preferred_of p) (ni_name p) (native_of p) s = false.
Proof.
  intros ([np Hn] & Hu & Hi) ([nq Hq] & _) (Hname & Hid) (Es & _ & _ & En & _ & Ep & Ea).
  unfold pad_matches, preferred_of, native_of. rewrite Hn, Hq in *. cbn [default id] in Es. rewrite Es, Ep, Ea, En.
  rewrite (bool_decide_eq_false_2 (nq = np)) by congruence. rewrite orb_false_r.
  destruct (ni_id p) as [|i|u]; [done|rewrite orb_false_l; apply Z.eqb_neq; destruct (ni_id q); congruence|].
  rewrite orb_false_r. apply orb_false_iff. rewrite !bool_decide_eq_false. destruct (ni_id q); split; congruence.
Qed.

(** A program that no pad knows gets a new one. *)
Lemma load_program_new g p qs : Forall2 holds_program qs (m_scratchpads g) ->
  nameable p -> Forall nameable qs -> Forall (fun q => apart q p) qs ->
  exists s, m_scratchpads (load_program generate default_id default_language g p) = m_scratchpads g ++ [s] /\ holds_program p s.
Proof.
  intros Hg Hp Hqs Ha. rewrite load_program_eq. unfold find_or_create_scratch_pad.
  destruct (find_index _ _) as [i|] eqn:E.
  - exfalso. apply find_index_Some in E as (s & Hs & Hm). apply (Forall2_lookup_r _ _ _ _ _ Hg) in Hs as (q & Hq & Hqs').
    rewrite Forall_lookup in Ha, Hqs. erewrite no_match in Hm; [done|done|by eapply Hqs|by eapply Ha|done].
  - unfold create_scratchpad, update_pad. cbn [m_scratchpads set_pads].
    rewrite !alter_app_r_alt, !Nat.sub_diag by done. eexists. split; [done|].
    destruct Hp as ([np Hn] & _). unfold holds_program, preferred_of, native_of. cbn. rewrite Hn. by destruct (ni_id p).
Qed.

Lemma load_programs_ok g qs ps : Forall2 holds_program qs (m_scratchpads g) ->
  Forall nameable (qs ++ ps) -> ForallOrdPairs apart (qs ++ ps) ->
  Forall2 holds_program (qs ++ ps) (m_scratchpads (foldl (load_program generate default_id default_language) g ps)).
Proof.
  revert g qs. induction ps as [|p ps IH]; intros g qs Hg Hn Ha; [by rewrite app_nil_r|].
  apply Forall_app in Hn as Hn'. destruct Hn' as [Hqs Hp]. apply Forall_cons in Hp as [Hp _].
  destruct (load_program_new g p qs) as (s & Es & Hs); [done|done|done| |].
  { clear -Ha. induction qs as [|q qs IH]; [constructor|]. inversion Ha as [|? ? Hq Ha']; subst. constructor; [|by apply IH].
    rewrite List.Forall_app in Hq. destruct Hq as [_ Hq]. by inversion Hq. }
  replace (qs ++ p :: ps) with ((qs ++ [p]) ++ ps) in * by (by rewrite <- app_assoc). apply IH; [|done|done].
  rewrite Es. apply Forall2_app; [done|]. by constructor.
Qed.

Lemma load_program_kept g p :
  let g' := load_program generate default_id default_language g p in m_endpoints g' = m_endpoints g /\ g_uuid g' = g_uuid g.
Proof. rewrite load_program_eq. unfold update_pad. by destruct (find_or_create_scratch_pad _ _ _ _ _ _ _). Qed.

Lemma load_programs_kept g ps :
  let g' := foldl (load_program generate default_id default_language) g ps in m_endpoints g' = m_endpoints g /\ g_uuid g' = g_uuid g.
Proof.
  revert g. induction ps as [|p ps IH]; intros g; [done|]. simpl. destruct (IH (load_program generate default_id default_language g p)) as [-> ->].
  apply load_program_kept.
Qed.
End Load.

(** ** A whole document *)

Section Document.
Variable generate : nat -> list Z.
Variable default_id : list Z.
Variable default_language : programming_language.
Variable alive : nat -> bool.
Variable lexical_convert : int_type -> list Z -> option Z.
Variable lexical_convert_llong : int_type -> Z -> option Z.
Variable as_llong : option (list Z) -> Z.
Variable string_generator : list Z -> option (list Z).
Variable version_known : list Z -> bool.
Variable load_aesl : list Z -> option xml_document.

(** The conversion gives values of the type. *)
Hypothesis lexical_range : forall s v, lexical_convert int16_t s = Some v -> in_range int16_t v.

Lemma parse_invariant {A X} (I : A -> Prop) (step : A -> X -> A + aesl_error) acc l r :
  (forall acc x acc', I acc -> step acc x = inl acc' -> I acc') -> I acc -> parse_all_of step acc l = inl r -> I r.
Proof.
  intros Hstep. revert acc. induction l as [|x l IH]; intros acc Ha; simpl; [by intros [= <-]|].
  destruct (step acc x) as [acc'|] eqn:E; [|done]. by eauto.
Qed.

(** The constants of a document are in the order of their names, each a word. *)
Lemma constants_ok d cs : constants lexical_convert d = inl cs -> om_sorted cs /\ Forall constant_ok cs.
Proof.
  unfold constants. apply (parse_invariant (fun cs => om_sorted cs /\ Forall constant_ok cs)); [|by repeat constructor].
  intros acc c acc' [Hs Hc]. unfold constants_step.
  destruct (as_string (xc_name c)) as [|z n]; [done|]. destruct (xc_value c) as [v|]; [|done].
  destruct (lexical_convert int16_t v) as [x|] eqn:E; [|done]. intros [= <-]. split; [by apply om_set_sorted|].
  apply om_set_Forall; [|done]. exists x. split; [done|]. by eapply lexical_range.
Qed.

(** C40: loading an Aesl document whose constants, events and programs parse,
    whose programs all have names and no identifier that stands for none (the nil
    uuid or 65535), and no two of whose programs have the same name or the same
    identifier, succeeds: every program gets a pad of its own, in order, with its
    name and its code, and there are no others; the constants and the events
    become those of the group, and every live endpoint is given them.  (Two
    programs of one name share a pad and the code of the first is lost.) *)
Theorem load_code_spec nodes data doc cs es ns g :
  load_aesl data = Some doc -> constants lexical_convert doc = inl cs -> global_events lexical_convert doc = inl es ->
  program_nodes lexical_convert_llong as_llong string_generator version_known doc = inl ns ->
  Forall (nameable default_id) ns -> ForallOrdPairs apart ns ->
  exists g' e,
    load_code generate default_id default_language alive lexical_convert lexical_convert_llong as_llong string_generator version_known load_aesl
      nodes data Aesl g = Ok (None, g', e) /\
    Forall2 (fun p s => pad_name s = default [] (ni_name p) /\ text s = ni_code p /\ language s = Aesl /\ deleted s = false) ns (m_scratchpads g') /\
    m_events_table g' = es /\ m_shared_variables g' = cs /\ m_endpoints g' = m_endpoints g /\
    forall ep, ep ∈ m_endpoints g -> alive ep = true -> SetEndpointVariables ep cs ∈ e /\ SetEndpointEvents ep es ∈ e.
Proof.
  intros Hdoc Hc He Hn Hnames Hapart. apply constants_ok in Hc as Hc'. destruct Hc' as [Hsorted Hwords].
  unfold load_code. rewrite Hdoc, Hc, He, Hn. unfold load_document. rewrite shared_of_ok by done. cbn [mbind res_bind].
  set (g1 := foldl _ _ ns).
  assert (Forall2 (holds_program default_id) ns (m_scratchpads g1)) as Hpads.
  { apply (load_programs_ok generate default_id default_language (set_pads [] (generated g) g) []); [constructor|done|done]. }
  destruct (load_programs_kept generate default_id default_language (set_pads [] (generated g) g) ns) as [Hends _]. fold g1 in Hends.
  cbn [set_shared_variables set_events_table m_scratchpads generated].
  pose proof (assign_scratchpads_same nodes (m_scratchpads g1)) as Hsame.
  destruct (assign_scratchpads nodes (m_scratchpads g1)) as [pads signals]. cbn [fst] in Hsame.
  eexists _, _. split; [reflexivity|]. split; [|split_and!; [done..|]].
  - cbn [m_scratchpads set_pads]. apply Forall2_same_length_lookup_2.
    { by rewrite (Forall2_length _ _ _ Hpads), (Forall2_length _ _ _ Hsame). }
    intros i p s Hp Hs. destruct (Forall2_lookup_l _ _ _ _ _ Hpads Hp) as (s0 & Hs0 & H0).
    pose proof (Forall2_lookup_lr _ _ _ _ _ _ Hsame Hs0 Hs) as ->. destruct H0 as (? & ? & ? & ? & ? & _). done.
  - intros ep Hep Hlive. assert (In ep (List.filter alive (m_endpoints g))) as Hin by (apply List.filter_In; by rewrite <- list_elem_of_In).
    unfold endpoints. cbn [m_endpoints]. rewrite Hends. cbn [m_endpoints set_pads].
    rewrite !elem_of_app, !list_elem_of_In. split; [right; left; left|right; right; left; left];
      (apply in_map_iff; by exists ep).
Qed.

(** A document with an error, or a program in another language, leaves the
    group as it was. *)
Lemma load_code_error nodes data l g e g' eff :
  load_code generate default_id default_language alive lexical_convert lexical_convert_llong as_llong string_generator version_known load_aesl
    nodes data l g = Ok (Some e, g', eff) -> g' = g /\ eff = [].
Proof.
  unfold load_code. destruct l; [by intros [= _ <- <-]|]. destruct (load_aesl data) as [doc|]; [|by intros [= _ <- <-]].
  destruct (constants lexical_convert doc), (global_events lexical_convert doc),
    (program_nodes lexical_convert_llong as_llong string_generator version_known doc); try by intros [= _ <- <-].
  destruct (load_document _ _ _ _ _ _ _ _) as [[]| | | |]; done.
Qed.
End Document.

(** ** A sample document *)

Definition sample_convert (t : int_type) (s : list Z) : option Z :=
  match s with [c] => if (48 <=? c) && (c <=? 57) then Some (c - 48) else None | _ => None end.
Definition sample_llong (a : option (list Z)) : Z := match a with Some [c] => c - 48 | _ => 0 end.
Definition sample_generator (s : list Z) : option (list Z) := None.

Definition sample_document : xml_document :=
  mkXmlDocument [mkXmlConstant (Some (ws "speed")) (Some (ws "7"))] [mkXmlEvent (Some (ws "go")) (Some (ws "2"))]
    [mkXmlNode (Some (ws "left")) (Some (ws "1")) (Some (ws "a = 1"));
     mkXmlNode (Some (ws "right")) (Some (ws "2")) (Some (ws "a = 2"))].

Definition sample_group : group := mkGroup [1] [3%nat] [] [] [] 0.

Lemma load_code_spec_witness : exists g' e,
  load_code (fun n => [Z.of_nat n]) [9] Aseba (fun _ => true) sample_convert (fun _ z => Some z) sample_llong sample_generator
    (fun _ => false) (fun _ => Some sample_document) [] [] Aesl sample_group = Ok (None, g', e) /\
  List.map text (m_scratchpads g') = [ws "a = 1"; ws "a = 2"].
Proof.
  destruct (load_code_spec (fun n => [Z.of_nat n]) [9] Aseba (fun _ => true) sample_convert (fun _ z => Some z) sample_llong
    sample_generator (fun _ => false) (fun _ => Some sample_document)) with (nodes := @nil group_node) (data := @nil Z)
    (doc := sample_document) (cs := [(ws "speed", Integral 7)]) (es := [mkEvent (ws "go") 2])
    (ns := [mkNodeInfo (Some (ws "left")) (NativeId 1) (ws "a = 1"); mkNodeInfo (Some (ws "right")) (NativeId 2) (ws "a = 2")])
    (g := sample_group) as (g' & e & H & Hp & _).
  - intros [|c [|c' s]] v; try done. unfold sample_convert. destruct (_ && _) eqn:E; [|done]. intros [= <-].
    apply andb_prop in E as [?%Z.leb_le ?%Z.leb_le]. unfold in_range, int_min, int_max. cbn. lia.
  - reflexivity.
  - reflexivity.
  - reflexivity.
  - reflexivity.
  - repeat constructor; simpl; try done; by eexists.
  - repeat constructor; simpl; done.
  - exists g', e. split; [exact H|].
    inversion Hp as [|p1 s1 ? ? H1 Hp1]; subst. inversion Hp1 as [|p2 s2 ? ? H2 Hp2]; subst. inversion Hp2.
    cbn [List.map]. destruct H1 as (_ & -> & _), H2 as (_ & -> & _). reflexivity.
Defined.

(** Two programs with one name share a pad, whatever their identifiers are: the
    code of the first one is lost. *)
Example same_name_lost :
  List.map text (m_scratchpads (foldl (load_program (fun n => [Z.of_nat n]) [9] Aseba) sample_group
    [mkNodeInfo (Some (ws "thymio-II")) (NativeId 1) (ws "a = 1"); mkNodeInfo (Some (ws "thymio-II")) (NativeId 2) (ws "a = 2")]))
  = [ws "a = 2"].
Proof. reflexivity. Qed.

(** When an endpoint refuses the events of an application, the application is
    told of the error and then of the success. *)
Example emit_answered_twice :
  emit_answers [Some (tdm_error no_such_variable)] = [tdm_error no_such_variable; success].
Proof. reflexivity. Qed.
