(* ===== verification/Endpoint.v ===== *)
(** * An endpoint: its table of nodes, its events and its constants

    thymio-device-manager/aseba_endpoint.{h,cpp}.  A node is a number.  What an
    endpoint does to its nodes, its group and its queue is an effect; time is
    in milliseconds. *)
From Stdlib Require Import ZArith Lia List String.
From stdpp Require Import base list list_monad.
From S2P Require Import Prelude Consts OrdMap Target Utils Errors Lookup MsgClasses Msg Property Node NodeInfo Group.

Local Open Scope Z_scope.

(** ** Data *)

(** [node_info] of the endpoint. *)
Record node_entry : Type := mkNodeEntry { ne_node : nat; last_seen : Z }.

(** The device behind the endpoint. *)
Inductive device_kind : Type := TcpDevice | UsbDevice | WirelessDevice.

Record endpoint : Type := mkEndpoint {
  m_nodes : list (Z * node_entry);
  m_defs : CommonDefinitions;
  m_upgrading_firmware : bool;
  m_rebooting : bool;
  m_first_ping : bool;
  m_device : device_kind
}.

Inductive endpoint_effect : Type :=
| ReadNext
| CreateNode (handle : nat) (id protocol_version : Z)
| AskDescription (handle : nat)
| NodeMessage (handle : nat) (m : Message)
| NodeEvents (handle : nat) (events : variables_map)
| GroupEvents (source : nat) (events : variables_map)
| WriteMessages (ms : list Message)
| NodeUnresponsive (handle : nat)
| NodeDisconnect (handle : nat)
| CancelAllOps
| ArmPing (delay_ms : Z)
| ArmHealthCheck (delay_s : Z).

Definition set_nodes (l : list (Z * node_entry)) (e : endpoint) : endpoint :=
  mkEndpoint l (m_defs e) (m_upgrading_firmware e) (m_rebooting e) (m_first_ping e) (m_device e).
Definition set_defs (d : CommonDefinitions) (e : endpoint) : endpoint :=
  mkEndpoint (m_nodes e) d (m_upgrading_firmware e) (m_rebooting e) (m_first_ping e) (m_device e).
Definition set_first_ping (b : bool) (e : endpoint) : endpoint :=
  mkEndpoint (m_nodes e) (m_defs e) (m_upgrading_firmware e) (m_rebooting e) b (m_device e).

Definition is_rebooting (e : endpoint) : bool := m_upgrading_firmware e || m_rebooting e.

Definition is_usb (e : endpoint) : bool := match m_device e with UsbDevice => true | _ => false end.
Definition is_wireless (e : endpoint) : bool := match m_device e with WirelessDevice => true | _ => false end.

Definition needs_health_check (e : endpoint) : bool := match m_device e with UsbDevice => false | _ => true end.
Definition needs_ping (e : endpoint) : bool := if is_usb e then true else needs_health_check e.

(** ** The table of nodes *)

Fixpoint find_node (id : Z) (l : list (Z * node_entry)) : option node_entry :=
  match l with
  | [] => None
  | (id', n) :: l' => if id =? id' then Some n else find_node id l'
  end.

Definition seen (now : Z) (id : Z) (l : list (Z * node_entry)) : list (Z * node_entry) :=
  List.map (fun e => if fst e =? id then (fst e, mkNodeEntry (ne_node (snd e)) now) else e) l.

(** ** Events and constants *)

Fixpoint event_named (name : wstring) (i : Z) (l : list NamedValue) : option (NamedValue * Z) :=
  match l with
  | [] => None
  | ev :: l' => if bool_decide (nv_name ev = name) then Some (ev, i) else event_named name (i + 1) l'
  end.

Definition get_event_by_name (name : list Z) (e : endpoint) : res runtime_error (option (NamedValue * Z)) :=
  wname ← UTF8ToWString name;
  mret (event_named wname 0 (events (m_defs e))).

Definition get_event (id : Z) (e : endpoint) : option (NamedValue * Z) :=
  match events (m_defs e) !! Z.to_nat id with Some ev => Some (ev, id) | None => None end.

(** [EventDescription] has an [int] for the size. *)
Definition set_events_table (table : list event) (e : endpoint) : res runtime_error endpoint :=
  evs ← mapR (fun ev => name ← UTF8ToWString (ev_name ev); mret (mkNamed name (s32 (ev_size ev)))) table;
  mret (set_defs (mkCommon evs (constants (m_defs e))) e).

(** [vector::erase] of the first constant of a name. *)
Fixpoint erase_named (name : wstring) (l : list NamedValue) : list NamedValue :=
  match l with
  | [] => []
  | c :: l' => if bool_decide (name = nv_name c) then l' else c :: erase_named name l'
  end.

(** The word of a constant; no constant for null. *)
Definition constant_value (p : property) : option Z + error_code :=
  match p with
  | Null => inl None
  | Integral z => match numeric_cast int16_t int64_t z with inl v => inl (Some v) | inr _ => inr incompatible_variable_type end
  | _ => inr incompatible_variable_type
  end.

(** The loop of [set_shared_variables]: what was done before an error stays. *)
Fixpoint set_constants (map : variables_map) (cs : list NamedValue) : res runtime_error (list NamedValue * option error_code) :=
  match map with
  | [] => mret (cs, None)
  | (name, p) :: map' =>
      n ← UTF8ToWString name;
      let cs := erase_named n cs in
      match constant_value p with
      | inl None => set_constants map' cs
      | inl (Some v) => set_constants map' (cs ++ [mkNamed n v])
      | inr e => mret (cs, Some e)
      end
  end.

Definition set_shared_variables (map : variables_map) (e : endpoint) : res runtime_error (endpoint * option error_code) :=
  '(cs, r) ← set_constants map (constants (m_defs e));
  mret (set_defs (mkCommon (events (m_defs e)) cs) e, r).

(** [emit_events]: the messages, or the error that the callback gets. *)
Fixpoint event_messages (map : variables_map) (e : endpoint) : res runtime_error (list Message + error_code) :=
  match map with
  | [] => mret (inl [])
  | (name, value) :: map' =>
      def ← get_event_by_name name e;
      match def with
      | None => mret (inr no_such_variable)
      | Some (def, i) =>
          match to_aseba_variable value (u16 (nv_value def)) with
          | Ok (inl words) =>
              rest ← event_messages map' e;
              mret (match rest with
                    | inl ms => inl (mkMessage ASEBA_DEST_DEBUG (u16 i) (UserMessage (UserMessage.mk words)) :: ms)
                    | inr err => inr err
                    end)
          | Ok (inr err) => mret (inr err)
          | Undef => Undef
          | NoFuel => NoFuel
          | Throw _ | Crash => Crash
          end
      end
  end.

Definition emit_events (map : variables_map) (e : endpoint) : res runtime_error (list endpoint_effect + error_code) :=
  r ← event_messages map e;
  mret (match r with inl ms => inl [WriteMessages ms] | inr err => inr err end).

(** ** Messages of the device *)

(** [on_event]. *)
Definition on_event (source : Z) (data : list Z) (def : NamedValue) (e : endpoint) : list endpoint_effect :=
  match find_node source (m_nodes e) with
  | None => []
  | Some n =>
      let p := aseba_variable_from_range data in
      if (is_integral p && negb (nv_value def =? 1)) || negb (Z.of_nat (size p) =? nv_value def) then []
      else
        let evs := om_insert (WStringToUTF8 (nv_name def)) p [] in
        [GroupEvents (ne_node n) evs; NodeEvents (ne_node n) evs]
  end.

(** The end of [handle_read]: the node, if there is one, gets the message. *)
Definition deliver (msg : Message) (now : Z) (eff : list endpoint_effect) (known : option node_entry) (e : endpoint)
    : endpoint * list endpoint_effect :=
  let '(e, eff) := match known with
                   | Some n => (set_nodes (seen now (source msg) (m_nodes e)) e, eff ++ [NodeMessage (ne_node n) msg])
                   | None => (e, eff)
                   end in
  (e, if is_rebooting e then eff else eff ++ [ReadNext]).

(** [handle_read]: [fresh] is the node that [aseba_node::create] makes. *)
Definition handle_read (ec : bool) (msg : option Message) (fresh : nat) (now : Z) (e : endpoint) : endpoint * list endpoint_effect :=
  match ec, msg with
  | true, _ => (e, [])
  | false, None => (e, if m_upgrading_firmware e then [] else [ReadNext])
  | false, Some msg =>
      let id := source msg in
      let known := find_node id (m_nodes e) in
      if type msg <? 0x8000 then
        match get_event (type msg) e, body msg with
        | Some (def, _), UserMessage m => deliver msg now (on_event id (UserMessage.data m) def e) known e
        | _, _ => deliver msg now [] known e
        end
      else
        let create : endpoint := set_nodes (m_nodes e ++ [(id, mkNodeEntry fresh now)]) e in
        match known, body msg with
        | None, NodePresent m =>
            (create, [CreateNode fresh id (NodePresent.version m); AskDescription fresh; ReadNext])
        | None, Description m =>
            deliver msg now [CreateNode fresh id (protocolVersion (Description.target m))] (Some (mkNodeEntry fresh now)) create
        | _, _ => deliver msg now [] known e
        end
  end.

(** ** Timers *)

Definition message_of (type : Z) (b : Body) : Message := mkMessage ASEBA_DEST_DEBUG type b.

Definition schedule_send_ping (delay_ms : Z) (e : endpoint) : list endpoint_effect :=
  if is_rebooting e then [] else [ArmPing delay_ms].

(** The handler of [schedule_send_ping]; [ec] is an error of the timer. *)
Definition on_ping_timer (ec : bool) (e : endpoint) : endpoint * list endpoint_effect :=
  if ec || m_upgrading_firmware e then (e, [])
  else
    let first := m_first_ping e && is_usb e in
    let e' := if first then set_first_ping false e else e in
    (e', WriteMessages [message_of ASEBA_MESSAGE_LIST_NODES (ListNodes (ListNodes.mk ASEBA_PROTOCOL_VERSION))]
         :: (if first then [WriteMessages [message_of ASEBA_MESSAGE_GET_DESCRIPTION (GetDescription (GetDescription.mk ASEBA_PROTOCOL_VERSION))]] else [])
         ++ (if needs_ping e' then schedule_send_ping 1000 e' else [])).

Definition schedule_nodes_health_check (delay_s : Z) (e : endpoint) : list endpoint_effect :=
  if m_upgrading_firmware e then [] else [ArmHealthCheck delay_s].

Definition unresponsive (status_of : nat -> status) (now : Z) (e : endpoint) (n : node_entry) : bool :=
  negb (is_rebooting e) && ((if decide (status_of (ne_node n) = connected) then 25 else 5) <=? (now - last_seen n) / 1000).

(** The handler of [schedule_nodes_health_check]. *)
Definition on_health_check (status_of : nat -> status) (now : Z) (e : endpoint) : endpoint * list endpoint_effect :=
  let gone := List.filter (fun n => unresponsive status_of now e (snd n)) (m_nodes e) in
  let e' := set_nodes (List.filter (fun n => negb (unresponsive status_of now e (snd n))) (m_nodes e)) e in
  (e', List.flat_map (fun n => NodeUnresponsive (ne_node (snd n)) :: (if is_wireless e then [] else [CancelAllOps])) gone
       ++ schedule_nodes_health_check 5 e').

(** [remove_node]: the loop does not advance over a node that is not the one. *)
Fixpoint remove_node (fuel : nat) (uuid_of : nat -> list Z) (n : list Z) (e : endpoint) : res runtime_error (endpoint * list endpoint_effect) :=
  match fuel with
  | O => NoFuel
  | S fuel' =>
      match m_nodes e with
      | [] => Ok (e, [])
      | (_, info) :: rest =>
          if bool_decide (uuid_of (ne_node info) = n) then Ok (set_nodes rest e, [NodeDisconnect (ne_node info)])
          else remove_node fuel' uuid_of n e
      end
  end.

(** [destroy], for an endpoint whose device is not empty. *)
Definition destroy (e : endpoint) : list endpoint_effect := List.map (fun n => NodeDisconnect (ne_node (snd n))) (m_nodes e).
