(* ===== verification/EndpointSpec.v ===== *)
(** * What an endpoint guarantees

    Events pass unchanged, through the group, from the robots of one endpoint to
    those of another,
    the constants are those of the group, the table has every node once. *)
From Stdlib Require Import ZArith Lia List String.
From stdpp Require Import base list list_monad.
From S2P Require Import GroupOps.
From S2P Require Import Prelude Consts OrdMap Target Utils UtilsSpec Errors Lookup MsgClasses Msg MsgSpec Property Node NodeInfo Group.
From S2P Require Import Endpoint.

Local Open Scope Z_scope.

(** ** Events *)

Lemma decode_text s : Forall (fun c => 0 <= c < 0xd800) s -> UTF8ToWString (WStringToUTF8 s) = Ok s.
Proof.
  intros Hs. unfold UTF8ToWString. rewrite decode_encode, carried_id; [done|done| |done].
  eapply Forall_impl; [exact Hs|]. simpl. lia.
Qed.

Lemma event_named_nth l i ev k : NoDup (List.map nv_name l) -> l !! i = Some ev ->
  event_named (nv_name ev) k l = Some (ev, k + Z.of_nat i).
Proof.
  revert i k. induction l as [|x l IH]; intros i k Hnd Hi; [done|]. simpl in *. apply NoDup_cons in Hnd as [Hx Hnd].
  destruct i as [|i]; simpl in Hi.
  - injection Hi as ->. rewrite bool_decide_eq_true_2 by done. by rewrite Z.add_0_r.
  - rewrite bool_decide_eq_false_2; [rewrite (IH i) by done; f_equal; f_equal; lia|].
    intros Heq. apply Hx. rewrite Heq. apply list_elem_of_In, in_map, list_elem_of_In. by eapply list_elem_of_lookup_2.
Qed.

Lemma word_int64 ws : Forall word ws -> Forall int64_value (List.map Integral ws).
Proof.
  intros Hw. apply Forall_map. eapply Forall_impl; [exact Hw|]. intros w H. simpl.
  eapply wider_range; [| |exact H]; [done|by left].
Qed.

(** The words of a device make a value that stands for these words. *)
Lemma from_range_words ws n : Forall word ws -> Z.of_nat (List.length ws) = n ->
  to_aseba_variable (aseba_variable_from_range ws) n = Ok (inl ws).
Proof.
  intros Hw <-. destruct ws as [|w ws]; [done|]. unfold aseba_variable_from_range, to_aseba_variable.
  cbn [is_null is_integral is_array andb]. rewrite andb_false_r. cbn [size]. rewrite length_map, Z.eqb_refl.
  rewrite aseba_words_eq; [|by apply word_int64|by rewrite length_map]. rewrite drop_0. f_equal.
  by apply words_of_spec.
Qed.

Lemma seen_find now id l : find_node id (seen now id l) = option_map (fun n => mkNodeEntry (ne_node n) now) (find_node id l).
Proof.
  induction l as [|[id' n] l IH]; [done|]. unfold seen. simpl. rewrite (Z.eqb_sym id' id). destruct (id =? id') eqn:E; simpl.
  - by rewrite E.
  - rewrite E. exact IH.
Qed.

(** What the group does with an event: all endpoints that live get it except
    the one it comes from. *)
Lemma broadcast alive src evs g ep : EmitEvents ep evs ∈ GroupOps.on_event_received alive src evs g <->
  ep ∈ m_endpoints g /\ alive ep = true /\ ep <> src.
Proof.
  unfold GroupOps.on_event_received, GroupOps.endpoints. rewrite list_elem_of_In, in_map_iff. split.
  - intros (x & [= ->] & [[Hin Ha]%List.filter_In Hx]%List.filter_In). apply list_elem_of_In in Hin. split_and!; try done.
    intros ->. by rewrite Nat.eqb_refl in Hx.
  - intros (Hin & Ha & Hne). exists ep. split; [done|]. apply List.filter_In. split; [apply List.filter_In; split; [by apply list_elem_of_In|done]|].
    by apply negb_true_iff, Nat.eqb_neq.
Qed.

(** A message that the endpoint [a], which is [src] in the group, reads becomes
    events for the group, which has all its other endpoints emit them; an
    endpoint in the state [b] writes the same message. *)
Definition passes_on (alive : nat -> bool) (g : group) (src : nat) (a b : endpoint) (fresh : nat) (now : Z) (m : Message) : Prop :=
  exists n evs, GroupEvents n evs ∈ snd (handle_read false (Some m) fresh now a) /\
  (forall ep, EmitEvents ep evs ∈ GroupOps.on_event_received alive src evs g <-> ep ∈ m_endpoints g /\ alive ep = true /\ ep <> src) /\
  Endpoint.emit_events evs b = Ok (inl [WriteMessages [mkMessage ASEBA_DEST_DEBUG (type m) (body m)]]).

(** C31: an event of a robot that the endpoint knows is passed on as it is: the
    group gives it to all its endpoints that live, except the one it comes from,
    and an endpoint with the same table of events writes one message with the
    same number and the same data, from source 0.  The number of arguments must
    be the one that the event is declared with (any other event is dropped), and
    the names of the events must be distinct (the event is looked up again by its
    name, and a duplicate would get the number of the first), with characters
    that the conversion to UTF-8 and back preserves. *)
Theorem event_forwarded alive g src a b fresh now id i data def n :
  find_node id (m_nodes a) = Some n -> events (m_defs a) !! i = Some def -> events (m_defs b) = events (m_defs a) ->
  NoDup (List.map nv_name (events (m_defs a))) -> Forall (fun c => 0 <= c < 0xd800) (nv_name def) ->
  Forall word data -> nv_value def = Z.of_nat (List.length data) -> nv_value def < 65536 -> Z.of_nat i < 0x8000 ->
  passes_on alive g src a b fresh now (mkMessage id (Z.of_nat i) (UserMessage (UserMessage.mk data))).
Proof.
  intros Hn Hi Hab Hnd Hname Hw Hlen Hsize Hi16. exists (ne_node n), [(WStringToUTF8 (nv_name def), aseba_variable_from_range data)].
  split; [|split; [intros ep; apply broadcast|]].
  - unfold handle_read. cbn [type source body]. rewrite (proj2 (Z.ltb_lt _ _)) by lia. unfold get_event. rewrite Nat2Z.id, Hi.
    cbn [UserMessage.data]. unfold on_event. rewrite Hn.
    assert (Z.of_nat (size (aseba_variable_from_range data)) = nv_value def) as Hsz.
    { rewrite Hlen. destruct data; [done|]. cbn [aseba_variable_from_range size]. by rewrite length_map. }
    rewrite Hsz, Z.eqb_refl. replace (is_integral (aseba_variable_from_range data)) with false by (by destruct data).
    cbn [andb orb negb om_insert om_find om_set]. unfold deliver. destruct (is_rebooting (set_nodes _ a)); left.
  - unfold Endpoint.emit_events, event_messages, get_event_by_name. rewrite decode_text by done. cbn [mbind res_bind mret res_ret].
    rewrite Hab, (event_named_nth _ i) by done. cbn [fst]. rewrite Z.add_0_l.
    rewrite u16_id, u16_id by lia. by rewrite from_range_words.
Qed.

Lemma event_forwarded_witness :
  passes_on (fun _ => true) (mkGroup [20] [0%nat; 1%nat] [] [] [] 0) 0
    (mkEndpoint [(5, mkNodeEntry 1 0)] (mkCommon [mkNamed (ws "stop") 0; mkNamed (ws "go") 2] []) false false true TcpDevice)
    (mkEndpoint [] (mkCommon [mkNamed (ws "stop") 0; mkNamed (ws "go") 2] []) false false true WirelessDevice)
    9 0 (mkMessage 5 1 (UserMessage (UserMessage.mk [3; -4]))).
Proof.
  apply (event_forwarded _ _ _ _ _ 9 0 5 1 [3; -4] (mkNamed (ws "go") 2) (mkNodeEntry 1 0)); try reflexivity.
  - apply (bool_decide_unpack _). vm_compute. exact I.
  - repeat constructor; vm_compute; congruence.
  - repeat constructor; vm_compute; congruence.
Defined.

(** ** Constants *)

Fixpoint value_of (n : wstring) (cs : list NamedValue) : option Z :=
  match cs with
  | [] => None
  | c :: cs' => if bool_decide (nv_name c = n) then Some (nv_value c) else value_of n cs'
  end.

Definition distinct (cs : list NamedValue) : Prop := NoDup (List.map nv_name cs).

Lemma value_of_absent n cs : n ∉ List.map nv_name cs -> value_of n cs = None.
Proof.
  induction cs as [|c cs IH]; [done|]. simpl. rewrite not_elem_of_cons. intros [Hne Hn].
  rewrite bool_decide_eq_false_2 by congruence. by apply IH.
Qed.

Lemma erase_named_sub n m cs : m ∈ List.map nv_name (erase_named n cs) -> m ∈ List.map nv_name cs.
Proof.
  induction cs as [|c cs IH]; [done|]. simpl. case_bool_decide; [by right|]. simpl. rewrite !elem_of_cons. intros [|]; auto.
Qed.

Lemma erase_named_ok n cs : distinct cs ->
  distinct (erase_named n cs) /\ forall m, value_of m (erase_named n cs) = if bool_decide (m = n) then None else value_of m cs.
Proof.
  unfold distinct. induction cs as [|c cs IH]; simpl; [intros _; split; [constructor|]; intros m; by case_bool_decide|].
  intros [Hc Hnd]%NoDup_cons. destruct (IH Hnd) as [IH1 IH2]. case_bool_decide as Hn.
  - split; [done|]. intros m. case_bool_decide as Hm; [subst; by apply value_of_absent|]. by rewrite bool_decide_eq_false_2 by congruence.
  - split.
    + simpl. constructor; [|done]. intros Hx. apply Hc. by eapply erase_named_sub.
    + intros m. simpl. rewrite IH2. repeat case_bool_decide; congruence.
Qed.

Lemma value_of_snoc m cs n v : value_of n cs = None ->
  value_of m (cs ++ [mkNamed n v]) = if bool_decide (m = n) then Some v else value_of m cs.
Proof.
  intros Hn. induction cs as [|c cs IH]; simpl in *.
  - repeat case_bool_decide; congruence.
  - destruct (decide (nv_name c = n)) as [Hc|Hc]; [by rewrite bool_decide_eq_true_2 in Hn|].
    rewrite bool_decide_eq_false_2 in Hn by done. rewrite IH by done. repeat case_bool_decide; congruence.
Qed.

Lemma distinct_snoc cs n v : distinct cs -> n ∉ List.map nv_name cs -> distinct (cs ++ [mkNamed n v]).
Proof.
  unfold distinct. intros Hd Hn. rewrite map_app. apply NoDup_app. split_and!; [done| |apply NoDup_singleton].
  intros x Hx Hx'. apply list_elem_of_singleton in Hx'. by subst.
Qed.

Lemma erased_absent n cs : distinct cs -> n ∉ List.map nv_name (erase_named n cs).
Proof.
  induction cs as [|c cs IH]; simpl; [by intros _ ?%elem_of_nil|]. intros [Hc Hnd]%NoDup_cons. case_bool_decide as Hn; [by subst|].
  simpl. rewrite not_elem_of_cons. split; [done|by apply IH].
Qed.

(** The variables of a group, with the names that the compiler uses. *)
Definition decoded (map : variables_map) : res runtime_error (list (wstring * property)) :=
  mapR (fun kp => n ← UTF8ToWString (fst kp); mret (n, snd kp)) map.

(** What a constant is after the variables were set, the last one first. *)
Fixpoint shared_value (m : wstring) (ds : list (wstring * property)) : option property :=
  match ds with
  | [] => None
  | (n, p) :: ds' => match shared_value m ds' with Some q => Some q | None => if bool_decide (m = n) then Some p else None end
  end.

Definition value_in (p : property) : option Z := match constant_value p with inl v => v | inr _ => None end.

Lemma set_constants_ok map ds cs : decoded map = Ok ds -> distinct cs ->
  exists cs' r, set_constants map cs = Ok (cs', r) /\ distinct cs' /\
    (r = None <-> Forall (fun d => exists v, constant_value (snd d) = inl v) ds) /\
    (r = None -> forall m, value_of m cs' = match shared_value m ds with Some p => value_in p | None => value_of m cs end).
Proof.
  revert ds cs. induction map as [|[k p] map IH]; intros ds cs; unfold decoded; cbn [mapR fst snd].
  { intros [= <-] Hd. exists cs, None. split_and!; [done|done|done|done]. }
  destruct (UTF8ToWString k) as [n| | | |] eqn:Ek; try done. cbn [mbind res_bind mret res_ret].
  fold (decoded map). destruct (decoded map) as [ds'| | | |] eqn:Ed; try done. intros [= <-] Hd.
  cbn [set_constants]. rewrite Ek. cbn [mbind res_bind]. destruct (erase_named_ok n cs Hd) as [He Hv].
  destruct (constant_value p) as [[v|]|err] eqn:Ep.
  - destruct (IH ds' (erase_named n cs ++ [mkNamed n v])) as (cs' & r & -> & Hd' & Hr & Hval); [done|by apply distinct_snoc, erased_absent|].
    exists cs', r. split_and!; [done|done| |].
    + rewrite Hr, Forall_cons. cbn [snd]. rewrite Ep. split; [intros; split; eauto|by intros [_ ?]].
    + intros Hnone m. rewrite (Hval Hnone). cbn [shared_value]. destruct (shared_value m ds'); [done|].
      rewrite value_of_snoc by (rewrite Hv; by rewrite bool_decide_eq_true_2). rewrite Hv. unfold value_in.
      case_bool_decide; [by rewrite Ep|done].
  - destruct (IH ds' (erase_named n cs)) as (cs' & r & -> & Hd' & Hr & Hval); [done|done|].
    exists cs', r. split_and!; [done|done| |].
    + rewrite Hr, Forall_cons. cbn [snd]. rewrite Ep. split; [intros; split; eauto|by intros [_ ?]].
    + intros Hnone m. rewrite (Hval Hnone). cbn [shared_value]. destruct (shared_value m ds'); [done|].
      rewrite Hv. unfold value_in. case_bool_decide; [by rewrite Ep|done].
  - exists (erase_named n cs), (Some err). split_and!; [done|done| |done]. split; [done|].
    intros [[v Hx] _]%Forall_cons. cbn [snd] in Hx. congruence.
Qed.

(** The shared variables become constants of the compiler: those that are
    words get their value, those that are null disappear, the others keep
    theirs, and no name appears twice; an error is reported exactly if some
    value is neither null nor a word. *)
Theorem set_shared_variables_spec map ds e : decoded map = Ok ds -> distinct (constants (m_defs e)) ->
  exists e' r, set_shared_variables map e = Ok (e', r) /\ distinct (constants (m_defs e')) /\
    events (m_defs e') = events (m_defs e) /\ m_nodes e' = m_nodes e /\
    (r = None <-> Forall (fun d => exists v, constant_value (snd d) = inl v) ds) /\
    (r = None -> forall m, value_of m (constants (m_defs e'))
                           = match shared_value m ds with Some p => value_in p | None => value_of m (constants (m_defs e)) end).
Proof.
  intros Hd Hc. destruct (set_constants_ok map ds (constants (m_defs e)) Hd Hc) as (cs' & r & E & Hd' & Hr & Hv).
  unfold set_shared_variables. rewrite E. eexists _, r. split; [reflexivity|]. done.
Qed.

Definition sample_endpoint : endpoint := mkEndpoint [] (mkCommon [] [mkNamed (ws "b") 9; mkNamed (ws "c") 8]) false false true UsbDevice.

Lemma set_shared_variables_spec_witness : exists e',
  set_shared_variables [(ws "a", Integral 7); (ws "b", Null)] sample_endpoint = Ok (e', None) /\
  value_of (ws "a") (constants (m_defs e')) = Some 7 /\ value_of (ws "b") (constants (m_defs e')) = None /\
  value_of (ws "c") (constants (m_defs e')) = Some 8.
Proof.
  destruct (set_shared_variables_spec [(ws "a", Integral 7); (ws "b", Null)] [(ws "a", Integral 7); (ws "b", Null)] sample_endpoint)
    as (e' & r & E & _ & _ & _ & Hr & Hv).
  - reflexivity.
  - apply (bool_decide_unpack _). vm_compute. exact I.
  - assert (r = None) as Hnone by (apply Hr; repeat constructor; by eexists).
    rewrite Hnone in E, Hv. exists e'. split; [exact E|]. rewrite !(Hv eq_refl). split; [reflexivity|split; reflexivity].
Defined.

(** ** The table of nodes *)

Definition ids_of (e : endpoint) : list Z := List.map fst (m_nodes e).

Lemma seen_ids now id l : List.map fst (seen now id l) = List.map fst l.
Proof. unfold seen. rewrite map_map. apply map_ext. intros [i n]. simpl. by destruct (i =? id). Qed.

Lemma find_node_None id l : find_node id l = None <-> id ∉ List.map fst l.
Proof.
  induction l as [|[i n] l IH]; simpl; [split; [by intros _ ?%elem_of_nil|done]|]. rewrite not_elem_of_cons.
  destruct (Z.eqb_spec id i) as [->|Hne]; [split; [done|by intros [? _]]|]. rewrite IH. tauto.
Qed.

(** What [deliver] makes of a table with the node. *)
Lemma deliver_ok m now eff known e : find_node (source m) (m_nodes e) = known ->
  let '(e', eff') := deliver m now eff known e in
  ids_of e' = ids_of e /\ m_defs e' = m_defs e /\ (forall x, x ∈ eff -> x ∈ eff') /\
  (is_rebooting e = false -> ReadNext ∈ eff') /\
  (forall n, known = Some n -> NodeMessage (ne_node n) m ∈ eff' /\ find_node (source m) (m_nodes e') = Some (mkNodeEntry (ne_node n) now)).
Proof.
  intros Hk. unfold deliver. destruct known as [n|].
  - cbn [set_nodes m_nodes m_defs]. change (is_rebooting (set_nodes _ e)) with (is_rebooting e). split_and!.
    + apply seen_ids.
    + done.
    + intros x Hx. destruct (is_rebooting e); rewrite !elem_of_app; auto.
    + intros ->. rewrite !elem_of_app. right. by left.
    + intros n' [= <-]. split; [|by rewrite seen_find, Hk]. destruct (is_rebooting e); rewrite !elem_of_app; [|left]; right; by left.
  - split_and!; [done|done| | |done].
    + intros x Hx. destruct (is_rebooting e); [done|]. rewrite elem_of_app. by left.
    + intros ->. rewrite elem_of_app. right. by left.
Qed.

Lemma find_node_snoc id n l : id ∉ List.map fst l -> find_node id (l ++ [(id, n)]) = Some n.
Proof.
  induction l as [|[i x] l IH]; simpl; [by rewrite Z.eqb_refl|]. rewrite not_elem_of_cons. intros [Hne Hn].
  rewrite (proj2 (Z.eqb_neq id i)) by done. by apply IH.
Qed.

(** What a message of the device does: the node that it comes from gets it; a
    node is created for the first message that presents it, and for no other;
    the table has every node once. *)
Definition dispatched (m : Message) (fresh : nat) (now : Z) (e e' : endpoint) (eff : list endpoint_effect) : Prop :=
  NoDup (ids_of e') /\ m_defs e' = m_defs e /\ (is_rebooting e = false -> ReadNext ∈ eff) /\
  match find_node (source m) (m_nodes e) with
  | Some n => ids_of e' = ids_of e /\ NodeMessage (ne_node n) m ∈ eff /\
      find_node (source m) (m_nodes e') = Some (mkNodeEntry (ne_node n) now)
  | None => ids_of e' = ids_of e \/
      (ids_of e' = ids_of e ++ [source m] /\ find_node (source m) (m_nodes e') = Some (mkNodeEntry fresh now) /\
       exists v, CreateNode fresh (source m) v ∈ eff)
  end.

Lemma dispatched_deliver m fresh now eff e : NoDup (ids_of e) ->
  dispatched m fresh now e (fst (deliver m now eff (find_node (source m) (m_nodes e)) e))
    (snd (deliver m now eff (find_node (source m) (m_nodes e)) e)).
Proof.
  intros Hnd. pose proof (deliver_ok m now eff _ e eq_refl) as H. unfold dispatched.
  destruct (deliver _ _ _ _ _) as [e' eff']. cbn [fst snd]. destruct H as (Hids & Hdefs & _ & Hr & Hn). rewrite Hids.
  split_and!; [done|done|done|]. destruct (find_node _ _) as [n|] eqn:E; [|by left]. by destruct (Hn n eq_refl).
Qed.

Lemma handle_read_message m fresh now e : NoDup (ids_of e) ->
  dispatched m fresh now e (fst (handle_read false (Some m) fresh now e)) (snd (handle_read false (Some m) fresh now e)).
Proof.
  intros Hnd. unfold handle_read. destruct (type m <? 0x8000).
  { destruct (get_event (type m) e) as [[def k]|]; [|by apply dispatched_deliver]. destruct (body m); by apply dispatched_deliver. }
  pose proof (dispatched_deliver m fresh now [] e Hnd) as Hold.
  destruct (find_node (source m) (m_nodes e)) as [n|] eqn:E; [exact Hold|].
  set (e1 := set_nodes _ e). apply find_node_None in E as Hfresh.
  assert (ids_of e1 = ids_of e ++ [source m]) as Hids by (unfold ids_of, e1; cbn [m_nodes set_nodes]; by rewrite map_app).
  assert (NoDup (ids_of e1)) as Hnd1.
  { rewrite Hids. apply NoDup_app. split_and!; [done| |apply NoDup_singleton]. intros x Hx Hx'.
    apply list_elem_of_singleton in Hx'. by subst. }
  assert (find_node (source m) (m_nodes e1) = Some (mkNodeEntry fresh now)) as Hfind by by apply find_node_snoc.
  destruct (body m); try exact Hold; unfold dispatched; rewrite E.
  - cbn [fst snd]. split_and!; [done|done|intros _; right; right; by left|]. right. split_and!; [done|done|]. eexists. by left.
  - pose proof (deliver_ok m now [CreateNode fresh (source m) (protocolVersion (Description.target m0))] _ e1 Hfind) as H.
    revert H. generalize (deliver m now [CreateNode fresh (source m) (protocolVersion (Description.target m0))] (Some (mkNodeEntry fresh now)) e1).
    intros [e' eff] (H1 & H2 & H3 & H4 & H5). cbn [fst snd]. rewrite H1.
    destruct (H5 _ eq_refl) as [_ H6]. split_and!; [done|done|done|]. right. split_and!; [done|exact H6|]. eexists. apply H3. by left.
Qed.

(** A node that is not the first of its endpoint is looked for without end. *)
Lemma remove_node_diverges fuel uuid_of n id info rest e :
  m_nodes e = (id, info) :: rest -> uuid_of (ne_node info) <> n -> remove_node fuel uuid_of n e = NoFuel.
Proof.
  intros He Hne. induction fuel as [|fuel IH]; [done|]. cbn [remove_node]. rewrite He. by rewrite bool_decide_eq_false_2.
Qed.

(** An endpoint with one node loses it. *)
Lemma remove_node_single uuid_of id info e :
  m_nodes e = [(id, info)] ->
  remove_node 1 uuid_of (uuid_of (ne_node info)) e = Ok (set_nodes [] e, [NodeDisconnect (ne_node info)]).
Proof. intros He. cbn [remove_node]. rewrite He. by rewrite bool_decide_eq_true_2. Qed.

(** A silent node is dropped when its time is over, a node that was seen stays. *)
Lemma health_check_nodes status_of now e :
  m_nodes (fst (on_health_check status_of now e)) = List.filter (fun n => negb (unresponsive status_of now e (snd n))) (m_nodes e) /\
  (forall n, n ∈ m_nodes e -> (now - last_seen (snd n)) / 1000 < 5 -> n ∈ m_nodes (fst (on_health_check status_of now e))) /\
  (forall n, NodeUnresponsive n ∈ snd (on_health_check status_of now e) <->
     exists i, i ∈ m_nodes e /\ ne_node (snd i) = n /\ unresponsive status_of now e (snd i) = true).
Proof.
  split_and!; [done| |].
  - intros n Hn Ht. cbn [on_health_check fst m_nodes set_nodes]. apply list_elem_of_In, List.filter_In. split; [by apply list_elem_of_In|].
    unfold unresponsive. apply negb_true_iff, andb_false_iff. right. apply Z.leb_gt. destruct (decide _); lia.
  - intros n. cbn [on_health_check snd]. rewrite elem_of_app, list_elem_of_In, in_flat_map. split.
    + intros [(i & Hi & Hx)|Hx].
      * apply List.filter_In in Hi as [Hi Hu]. exists i. split; [by apply list_elem_of_In|]. split; [|done].
        destruct Hx as [[= ->]|Hx]; [done|]. destruct (is_wireless e); [done|]. by destruct Hx as [|[]].
      * unfold schedule_nodes_health_check in Hx. apply list_elem_of_In in Hx. destruct (m_upgrading_firmware _); [done|].
        by destruct Hx as [|[]].
    + intros (i & Hi & <- & Hu). left. exists i. split; [|by left]. apply List.filter_In. split; [by apply list_elem_of_In|done].
Qed.
