(* ===== verification/Registry.v ===== *)
(** * The registry of nodes, and the groups that nodes come back to

    thymio-device-manager/aseba_node_registery.{h,cpp} with the calls that go
    through nodes, endpoints and groups and back.  Objects are numbers in
    stores; a weak pointer is a number, [lock] is a lookup. *)
From Stdlib Require Import ZArith Lia List String.
From stdpp Require Import base list list_monad gmap.
From S2P Require Import Prelude Consts OrdMap Target Utils Errors Lookup MsgClasses Msg Property Node NodeInfo Group GroupOps Endpoint.

Local Open Scope Z_scope.

(** ** The world *)

(** What the registry and the groups see of a node. *)
Record node_object : Type := mkNodeObject {
  no_uuid : list Z;
  no_native_id : Z;
  no_status : status;
  no_friendly_name : list Z;
  no_endpoint : nat
}.

Definition set_no_status (s : status) (n : node_object) : node_object :=
  mkNodeObject (no_uuid n) (no_native_id n) s (no_friendly_name n) (no_endpoint n).
Definition set_no_uuid (id : list Z) (n : node_object) : node_object :=
  mkNodeObject id (no_native_id n) (no_status n) (no_friendly_name n) (no_endpoint n).

(** An endpoint with its group. *)
Record endpoint_object : Type := mkEndpointObject { eo_endpoint : endpoint; eo_group : option nat }.

Inductive signal : Type :=
| NodeStatusChanged (node : nat) (id : list Z) (s : status)
| GroupSignal (g : nat) (e : group_effect).

Record world : Type := mkWorld {
  w_nodes : gmap nat node_object;
  w_endpoints : gmap nat endpoint_object;
  w_groups : gmap nat group;
  m_aseba_nodes : list (list Z * nat);
  m_ghost_groups : omap (list Z) nat;
  w_signals : list signal
}.

Definition set_w_nodes x w := mkWorld x (w_endpoints w) (w_groups w) (m_aseba_nodes w) (m_ghost_groups w) (w_signals w).
Definition set_w_endpoints x w := mkWorld (w_nodes w) x (w_groups w) (m_aseba_nodes w) (m_ghost_groups w) (w_signals w).
Definition set_w_groups x w := mkWorld (w_nodes w) (w_endpoints w) x (m_aseba_nodes w) (m_ghost_groups w) (w_signals w).
Definition set_m_aseba_nodes x w := mkWorld (w_nodes w) (w_endpoints w) (w_groups w) x (m_ghost_groups w) (w_signals w).
Definition set_m_ghost_groups x w := mkWorld (w_nodes w) (w_endpoints w) (w_groups w) (m_aseba_nodes w) x (w_signals w).
Definition set_w_signals x w := mkWorld (w_nodes w) (w_endpoints w) (w_groups w) (m_aseba_nodes w) (m_ghost_groups w) x.

Definition action (A : Type) : Type := world -> res runtime_error (A * world).

#[export] Instance action_ret : MRet action := fun A a w => Ok (a, w).
#[export] Instance action_bind : MBind action := fun A B f m w =>
  match m w with
  | Ok (a, w') => f a w'
  | Throw e => Throw e
  | Crash => Crash
  | Undef => Undef
  | NoFuel => NoFuel
  end.

Definition get : action world := fun w => Ok (w, w).
Definition update (f : world -> world) : action unit := fun w => Ok (tt, f w).
Definition raise_signal (s : signal) : action unit := update (fun w => set_w_signals (w_signals w ++ [s]) w).
Definition of_res {A} (r : res runtime_error A) : action A := fun w => a ← r; Ok (a, w).
Definition unless_none {A} (o : option A) (f : A -> action unit) : action unit :=
  match o with Some a => f a | None => mret tt end.

Fixpoint for_each {A} (f : A -> action unit) (l : list A) : action unit :=
  match l with [] => mret tt | x :: l' => f x;; for_each f l' end.

(** ** The map of nodes *)

(** [find] by the node, and by the id. *)
Definition find_registered (h : nat) (w : world) : option (list Z * nat) :=
  List.find (fun e => (snd e =? h)%nat) (m_aseba_nodes w).
Definition find_id (id : list Z) (l : list (list Z * nat)) : option (list Z * nat) :=
  List.find (fun e => bool_decide (fst e = id)) l.
Definition erase_id (id : list Z) (l : list (list Z * nat)) : list (list Z * nat) :=
  List.filter (fun e => negb (bool_decide (fst e = id))) l.

(** [insert]: no effect if the id is taken. *)
Definition insert_id (id : list Z) (h : nat) (l : list (list Z * nat)) : list (list Z * nat) :=
  match find_id id l with Some _ => l | None => l ++ [(id, h)] end.

Definition node_from_id (id : list Z) (w : world) : option nat :=
  match find_id id (m_aseba_nodes w) with
  | Some (_, h) => match w_nodes w !! h with Some _ => Some h | None => None end
  | None => None
  end.

Definition group_of_node (n : node_object) (w : world) : option nat :=
  match w_endpoints w !! no_endpoint n with Some e => eo_group e | None => None end.

(** [group_from_id]: of a node, or of the group of a node. *)
Definition group_from_id (id : list Z) (w : world) : option nat :=
  match List.find (fun e =>
    match w_nodes w !! snd e with
    | Some n =>
        bool_decide (no_uuid n = id) ||
        match group_of_node n w with
        | Some g => match w_groups w !! g with Some g => bool_decide (g_uuid g = id) | None => false end
        | None => false
        end
    | None => false
    end) (m_aseba_nodes w) with
  | Some e => match w_nodes w !! snd e with Some n => group_of_node n w | None => None end
  | None => None
  end.

(** ** Groups and their endpoints *)

Definition endpoint_alive (w : world) (ep : nat) : bool := match w_endpoints w !! ep with Some _ => true | None => false end.

Definition nodes_of_endpoint (ep : nat) (w : world) : list nat :=
  match w_endpoints w !! ep with Some e => List.map (fun n => ne_node (snd n)) (Endpoint.m_nodes (eo_endpoint e)) | None => [] end.

(** [group::nodes]. *)
Definition group_nodes (g : group) (w : world) : list group_node :=
  flat_map (fun ep => flat_map (fun h =>
    match w_nodes w !! h with
    | Some n => [mkGroupNode (no_uuid n) (no_native_id n) (no_status n) (no_friendly_name n)]
    | None => []
    end) (nodes_of_endpoint ep w)) (endpoints (endpoint_alive w) g).

Definition with_group (g : nat) (f : group -> action unit) : action unit :=
  w ← get; unless_none (w_groups w !! g) f.

Definition set_group (h : nat) (g : group) : action unit := update (fun w => set_w_groups (<[h := g]> (w_groups w)) w).

Definition assign_group_scratchpads (h : nat) : action unit :=
  with_group h (fun g =>
    w ← get;
    let '(pads, signals) := assign_scratchpads (group_nodes g w) (m_scratchpads g) in
    set_group h (set_pads pads (generated g) g);;
    for_each (fun s => raise_signal (GroupSignal h (PadChanged s))) signals).

Definition set_endpoint (ep : nat) (e : endpoint_object) : action unit :=
  update (fun w => set_w_endpoints (<[ep := e]> (w_endpoints w)) w).

Definition add_endpoint (ep : nat) (g : group) : group :=
  mkGroup (g_uuid g) (m_endpoints g ++ [ep]) (m_events_table g) (m_shared_variables g) (m_scratchpads g) (generated g).

Section Registry.
(** A random uuid for a node without one, and the bound on the loop of
    [remove_node]. *)
Variable generate : list Z.
Variable loop_fuel : nat.

Section Calls.
(** [aseba_node::set_status], which the calls below come back to. *)
Variable set_status : nat -> status -> action unit.

Definition attach_to_endpoint (h ep : nat) : action unit :=
  w ← get;
  unless_none (w_endpoints w !! ep) (fun e =>
    with_group h (fun g =>
      (if bool_decide (ep ∈ endpoints (endpoint_alive w) g) then mret tt else set_group h (add_endpoint ep g));;
      e' ← of_res (Endpoint.set_events_table (m_events_table g) (eo_endpoint e));
      set_endpoint ep (mkEndpointObject e' (Some h));;
      for_each (fun n =>
        w ← get;
        unless_none (w_nodes w !! n) (fun o => set_status n (no_status o))) (nodes_of_endpoint ep w);;
      with_group h (fun g =>
        raise_signal (GroupSignal h (SharedChanged (m_shared_variables g)));;
        raise_signal (GroupSignal h (EventsChanged (m_events_table g))));;
      assign_group_scratchpads h)).

(** [aseba_endpoint::remove_node]. *)
Definition remove_from_endpoint (ep : nat) (id : list Z) : action unit :=
  w ← get;
  unless_none (w_endpoints w !! ep) (fun e =>
    r ← of_res (remove_node loop_fuel (fun h => match w_nodes w !! h with Some n => no_uuid n | None => [] end) id (eo_endpoint e));
    for_each (fun x => match x with NodeDisconnect h => set_status h disconnected | _ => mret tt end) (snd r);;
    w ← get;
    unless_none (w_endpoints w !! ep) (fun e' => set_endpoint ep (mkEndpointObject (fst r) (eo_group e')))).

Definition remove_duplicated_node (h : nat) : action unit :=
  w ← get;
  unless_none (w_nodes w !! h) (fun n =>
    unless_none (find_id (no_uuid n) (m_aseba_nodes w)) (fun it =>
      let old := w_nodes w !! snd it in
      if bool_decide (is_Some old) && (snd it =? h)%nat then mret tt
      else
        update (fun w => set_m_aseba_nodes (erase_id (no_uuid n) (m_aseba_nodes w)) w);;
        unless_none old (fun o => remove_from_endpoint (no_endpoint o) (no_uuid n)))).

Definition save_group_affiliation (n : node_object) : action unit :=
  w ← get;
  unless_none (group_of_node n w) (fun g => update (fun w => set_m_ghost_groups (om_set (no_uuid n) g (m_ghost_groups w)) w)).

Definition restore_group_affiliation (n : node_object) : action unit :=
  w ← get;
  unless_none (om_find (no_uuid n) (m_ghost_groups w)) (fun ghost =>
    unless_none (w_endpoints w !! no_endpoint n) (fun e =>
      let stateless := match eo_group e with
                       | Some g => match w_groups w !! g with Some g => negb (has_state g) | None => true end
                       | None => true
                       end in
      if negb (bool_decide (eo_group e = Some ghost)) && stateless then attach_to_endpoint ghost (no_endpoint n) else mret tt);;
    update (fun w => set_m_ghost_groups (om_erase (no_uuid n) (m_ghost_groups w)) w)).

(** Both, as the registry does after a change. *)
Definition restore_and_save (h : nat) : action unit :=
  w ← get;
  unless_none (w_nodes w !! h) (fun n => restore_group_affiliation n;; save_group_affiliation n).

Definition add_node (h : nat) : action unit :=
  remove_duplicated_node h;;
  w ← get;
  match find_registered h w, w_nodes w !! h with
  | None, Some n =>
      let id := if is_nil (no_uuid n) then generate else no_uuid n in
      update (fun w => set_m_aseba_nodes (insert_id id h (m_aseba_nodes w)) w);;
      restore_and_save h;;
      raise_signal (NodeStatusChanged h id connected)
  | _, _ => mret tt
  end.

Definition handle_node_uuid_change (h : nat) : action unit :=
  w ← get;
  unless_none (find_registered h w) (fun it =>
    raise_signal (NodeStatusChanged h (fst it) disconnected);;
    update (fun w => set_m_aseba_nodes (erase_id (fst it) (m_aseba_nodes w)) w));;
  remove_duplicated_node h;;
  w ← get;
  unless_none (w_nodes w !! h) (fun n => update (fun w => set_m_aseba_nodes (insert_id (no_uuid n) h (m_aseba_nodes w)) w));;
  restore_and_save h.
End Calls.

Definition remove_registered (h : nat) : action unit :=
  w ← get;
  unless_none (find_registered h w) (fun it =>
    update (fun w => set_m_aseba_nodes (erase_id (fst it) (m_aseba_nodes w)) w);;
    raise_signal (NodeStatusChanged h (fst it) disconnected)).

Definition set_node_status (h : nat) (s : status) : action unit :=
  w ← get;
  unless_none (find_registered h w) (fun it => raise_signal (NodeStatusChanged h (fst it) s)).

(** [aseba_node::set_status]; the fuel bounds the depth of the calls. *)
Fixpoint set_status (fuel : nat) (h : nat) (s : status) : action unit :=
  match fuel with
  | O => of_res NoFuel
  | S fuel' =>
      update (fun w => set_w_nodes (alter (set_no_status s) h (w_nodes w)) w);;
      match s with
      | connected => add_node (set_status fuel') h
      | disconnected => remove_registered h
      | _ => set_node_status h s
      end
  end.

(** The new uuid of a node, as [on_device_info] sets it. *)
Definition change_uuid (fuel : nat) (h : nat) (id : list Z) : action unit :=
  update (fun w => set_w_nodes (alter (set_no_uuid id) h (w_nodes w)) w);;
  handle_node_uuid_change (set_status fuel) h;;
  set_status fuel h available.
End Registry.
