(* ===== verification/RegistrySpec.v ===== *)
(** * What the registry guarantees

    Every node is registered once, under one id, through all the calls that go
    back and forth between the registry, the endpoints and the groups; when a
    device tells a uuid that no other live node has, the calls return, the uuid
    leads to its node, and its group is restored. *)
From Stdlib Require Import ZArith Lia List String.
From stdpp Require Import base list list_monad gmap.
From S2P Require Import Prelude Consts OrdMap Target Utils Errors Lookup MsgClasses Msg Property Node NodeInfo Group GroupOps Endpoint Registry.

Local Open Scope Z_scope.

(** ** Actions that keep an invariant *)

Definition keeps {A} (I : world -> Prop) (m : action A) : Prop := forall w a w', I w -> m w = Ok (a, w') -> I w'.

Section Keeps.
Variable I : world -> Prop.

Lemma kept_ret {A} (a : A) : keeps I (mret a).
Proof. by intros w a' w' Hw [= _ <-]. Qed.

Lemma kept_bind {A B} (m : action A) (f : A -> action B) : keeps I m -> (forall a, keeps I (f a)) -> keeps I (m ≫= f).
Proof.
  intros Hm Hf w b w' Hw. cbv [mbind action_bind]. destruct (m w) as [[a w1]| | | |] eqn:E; try done.
  apply Hf. by eapply Hm.
Qed.

Lemma bind_inv {A B} (m : action A) (f : A -> action B) w b w' : (m ≫= f) w = Ok (b, w') ->
  exists a w1, m w = Ok (a, w1) /\ f a w1 = Ok (b, w').
Proof. cbv [mbind action_bind]. destruct (m w) as [[a w1]| | | |]; try done. eauto. Qed.

(** The state that is read satisfies the invariant. *)
Lemma kept_get {B} (f : world -> action B) : (forall w, I w -> forall b w', f w w = Ok (b, w') -> I w') -> keeps I (w ← get; f w).
Proof. intros Hf w b w' Hw E. by eapply Hf. Qed.

Lemma kept_read {B} (f : world -> action B) : (forall w, keeps I (f w)) -> keeps I (w ← get; f w).
Proof. intros Hf. apply kept_get. intros w Hw b w'. by apply Hf. Qed.

Lemma kept_update f : (forall w, I w -> I (f w)) -> keeps I (update f).
Proof. intros Hf w a w' Hw [= _ <-]. by apply Hf. Qed.

Lemma kept_update_from {B} f (m : action B) w b w' : I (f w) -> keeps I m -> (update f;; m) w = Ok (b, w') -> I w'.
Proof. intros Hf Hm E. by eapply Hm. Qed.

Lemma kept_res {A} (r : res runtime_error A) : keeps I (of_res r).
Proof. intros w a w' Hw. unfold of_res. destruct r; try done. by intros [= _ <-]. Qed.

Lemma kept_unless {A} (o : option A) f : (forall a, o = Some a -> keeps I (f a)) -> keeps I (unless_none o f).
Proof. intros Hf. destruct o as [a|]; [by apply Hf|apply kept_ret]. Qed.

Lemma kept_for_each {A} (f : A -> action unit) l : (forall x, x ∈ l -> keeps I (f x)) -> keeps I (for_each f l).
Proof.
  induction l as [|x l IH]; intros Hf; [apply kept_ret|]. simpl. apply kept_bind; [apply Hf; left|intros _].
  apply IH. intros y Hy. apply Hf. by right.
Qed.
End Keeps.

(** Invariants that do not look at endpoints, groups, ghosts and signals. *)
Definition blind (I : world -> Prop) : Prop :=
  forall w w', w_nodes w' = w_nodes w -> m_aseba_nodes w' = m_aseba_nodes w -> I w -> I w'.

Section Blind.
Variable I : world -> Prop.
Hypothesis HI : blind I.

Lemma blind_signal s : keeps I (raise_signal s).
Proof. apply kept_update. intros w. by apply HI. Qed.

Lemma blind_set_group h g : keeps I (set_group h g).
Proof. apply kept_update. intros w. by apply HI. Qed.

Lemma blind_set_endpoint ep e : keeps I (set_endpoint ep e).
Proof. apply kept_update. intros w. by apply HI. Qed.

Lemma blind_assign h : keeps I (assign_group_scratchpads h).
Proof.
  apply kept_read. intros w. apply kept_unless. intros g _. apply kept_read. intros w1.
  destruct (assign_scratchpads _ _) as [pads signals]. apply kept_bind; [apply blind_set_group|intros _].
  apply kept_for_each. intros s _. apply blind_signal.
Qed.

Lemma blind_save n : keeps I (save_group_affiliation n).
Proof. apply kept_read. intros w. apply kept_unless. intros g _. apply kept_update. intros w'. by apply HI. Qed.

(** Attaching a group sets the status of nodes to what it is. *)
Lemma blind_attach (set_status : nat -> status -> action unit) h ep :
  (forall w n o, I w -> w_nodes w !! n = Some o -> forall a w', set_status n (no_status o) w = Ok (a, w') -> I w') ->
  keeps I (attach_to_endpoint set_status h ep).
Proof.
  intros Hs. apply kept_read. intros w. apply kept_unless. intros e _. apply kept_read. intros w1. apply kept_unless. intros g _.
  apply kept_bind; [case_bool_decide; [apply kept_ret|apply blind_set_group]|intros _].
  apply kept_bind; [apply kept_res|intros e']. apply kept_bind; [apply blind_set_endpoint|intros _].
  apply kept_bind.
  - apply kept_for_each. intros n _. apply kept_get. intros w2 Hw2 b w'.
    destruct (w_nodes w2 !! n) as [o|] eqn:E; [|by intros [= _ <-]]. by apply Hs.
  - intros _. apply kept_bind; [|intros _; apply blind_assign]. apply kept_read. intros w2. apply kept_unless. intros g' _.
    apply kept_bind; intros; apply blind_signal.
Qed.

Lemma blind_restore (set_status : nat -> status -> action unit) n :
  (forall w n o, I w -> w_nodes w !! n = Some o -> forall a w', set_status n (no_status o) w = Ok (a, w') -> I w') ->
  keeps I (restore_group_affiliation set_status n).
Proof.
  intros Hs. apply kept_read. intros w. apply kept_unless. intros ghost _. apply kept_bind.
  - apply kept_unless. intros e _. cbv zeta. destruct (_ && _); [by apply blind_attach|apply kept_ret].
  - intros _. apply kept_update. intros w'. by apply HI.
Qed.

Lemma blind_restore_and_save (set_status : nat -> status -> action unit) h :
  (forall w n o, I w -> w_nodes w !! n = Some o -> forall a w', set_status n (no_status o) w = Ok (a, w') -> I w') ->
  keeps I (restore_and_save set_status h).
Proof.
  intros Hs. apply kept_read. intros w. apply kept_unless. intros n _.
  apply kept_bind; [by apply blind_restore|intros _; apply blind_save].
Qed.
End Blind.

(** ** One entry per node *)

Definition registered_once (w : world) : Prop :=
  NoDup (List.map fst (m_aseba_nodes w)) /\ NoDup (List.map snd (m_aseba_nodes w)).

Lemma NoDup_map_filter {A B} (f : A -> B) p l : NoDup (List.map f l) -> NoDup (List.map f (List.filter p l)).
Proof.
  induction l as [|x l IH]; [done|]. simpl. intros [Hx Hnd]%NoDup_cons. destruct (p x); [|by apply IH].
  simpl. constructor; [|by apply IH]. intros Hin. apply Hx. rewrite list_elem_of_In, in_map_iff in *.
  destruct Hin as (y & Hy & [Hin _]%List.filter_In). by exists y.
Qed.

Lemma NoDup_map_inj {A B} (f : A -> B) l x y : NoDup (List.map f l) -> x ∈ l -> y ∈ l -> f x = f y -> x = y.
Proof.
  intros Hnd Hx Hy Hf. induction l as [|z l IH]; [by apply elem_of_nil in Hx|]. simpl in Hnd. apply NoDup_cons in Hnd as [Hz Hnd].
  assert (forall v, v ∈ l -> f v <> f z) as Hne.
  { intros v Hv E. apply Hz. rewrite <- E. apply list_elem_of_In, in_map. by apply list_elem_of_In. }
  apply elem_of_cons in Hx as [->|Hx], Hy as [->|Hy]; [done|by apply Hne in Hy|by apply Hne in Hx|by apply IH].
Qed.

Lemma find_registered_None h w : find_registered h w = None <-> h ∉ List.map snd (m_aseba_nodes w).
Proof.
  unfold find_registered. rewrite list_elem_of_In, in_map_iff. split.
  - intros Hf (e & <- & He). apply (List.find_none _ _ Hf) in He. simpl in He. by rewrite Nat.eqb_refl in He.
  - intros Hn. destruct (List.find _ _) as [e|] eqn:E; [|done]. apply List.find_some in E as [He Heq%Nat.eqb_eq].
    exfalso. apply Hn. by exists e.
Qed.

Lemma find_id_Some id l e : find_id id l = Some e -> e ∈ l /\ fst e = id.
Proof. intros H. apply List.find_some in H as [H1 H2%bool_decide_eq_true]. split; [by apply list_elem_of_In|done]. Qed.

Lemma find_id_None id l : find_id id l = None -> id ∉ List.map fst l.
Proof.
  intros Hf Hin. apply list_elem_of_In, in_map_iff in Hin as (e & <- & He). apply (List.find_none _ _ Hf) in He.
  simpl in He. by rewrite bool_decide_eq_true_2 in He.
Qed.

Lemma insert_id_once id h l : NoDup (List.map fst l) -> NoDup (List.map snd l) -> h ∉ List.map snd l ->
  NoDup (List.map fst (insert_id id h l)) /\ NoDup (List.map snd (insert_id id h l)).
Proof.
  intros Hk Hh Hn. unfold insert_id. destruct (find_id id l) eqn:E; [done|]. apply find_id_None in E. rewrite !map_app.
  split; apply NoDup_app; (split_and!; [done| |apply NoDup_singleton]); intros x Hx Hx'; apply list_elem_of_singleton in Hx'; by subst.
Qed.

Lemma erase_once id w : registered_once w -> registered_once (set_m_aseba_nodes (erase_id id (m_aseba_nodes w)) w).
Proof. intros [Hk Hh]. split; cbn [m_aseba_nodes set_m_aseba_nodes]; by apply NoDup_map_filter. Qed.

Lemma blind_once : blind registered_once.
Proof. intros w w' _ E [Hk Hh]. unfold registered_once. by rewrite E. Qed.

Section Once.
Variable generate : list Z.
Variable loop_fuel : nat.

Definition without (h : nat) (w : world) : Prop := registered_once w /\ h ∉ List.map snd (m_aseba_nodes w).

Lemma blind_without h : blind (without h).
Proof. intros w w' _ E [[Hk Hh] Hn]. unfold without, registered_once. by rewrite E. Qed.

Lemma erase_without id h w : without h w -> without h (set_m_aseba_nodes (erase_id id (m_aseba_nodes w)) w).
Proof.
  intros [Ho Hn]. split; [by apply erase_once|]. cbn [m_aseba_nodes set_m_aseba_nodes]. intros Hx. apply Hn.
  rewrite list_elem_of_In, in_map_iff in *. destruct Hx as (e & <- & [He _]%List.filter_In). by exists e.
Qed.

Lemma remove_registered_keeps I h : blind I ->
  (forall id w, I w -> I (set_m_aseba_nodes (erase_id id (m_aseba_nodes w)) w)) -> keeps I (remove_registered h).
Proof.
  intros HI He. apply kept_read. intros w. apply kept_unless. intros it _. apply kept_bind; [apply kept_update; auto|intros _].
  by apply blind_signal.
Qed.

Lemma disconnect_without fuel h h' : keeps (without h') (set_status generate loop_fuel fuel h disconnected).
Proof.
  destruct fuel; [apply kept_res|]. cbn [set_status]. apply kept_bind; [apply kept_update; intros w; done|intros _].
  apply remove_registered_keeps; [apply blind_without|intros; by apply erase_without].
Qed.

Lemma remove_from_endpoint_keeps I (set_status : nat -> status -> action unit) ep id : blind I ->
  (forall h, keeps I (set_status h disconnected)) -> keeps I (remove_from_endpoint loop_fuel set_status ep id).
Proof.
  intros HI Hs. apply kept_read. intros w. apply kept_unless. intros e _. apply kept_bind; [apply kept_res|intros r].
  apply kept_bind; [apply kept_for_each; intros x _; destruct x; try apply kept_ret; apply Hs|intros _].
  apply kept_read. intros w1. apply kept_unless. intros e' _. by apply blind_set_endpoint.
Qed.

Lemma remove_duplicated_keeps I (set_status : nat -> status -> action unit) h : blind I ->
  (forall id w, I w -> I (set_m_aseba_nodes (erase_id id (m_aseba_nodes w)) w)) ->
  (forall h, keeps I (set_status h disconnected)) -> keeps I (remove_duplicated_node loop_fuel set_status h).
Proof.
  intros HI He Hs. apply kept_read. intros w. apply kept_unless. intros n _. apply kept_unless. intros it _.
  cbv zeta. destruct (_ && _); [apply kept_ret|]. apply kept_bind; [apply kept_update; auto|intros _].
  apply kept_unless. intros o _. by apply remove_from_endpoint_keeps.
Qed.

Lemma disconnect_once fuel h : keeps registered_once (set_status generate loop_fuel fuel h disconnected).
Proof.
  destruct fuel; [apply kept_res|]. cbn [set_status]. apply kept_bind; [apply kept_update; intros w; done|intros _].
  apply remove_registered_keeps; [apply blind_once|intros; by apply erase_once].
Qed.

(** An id is inserted for a node that has none. *)
Lemma insert_from {B} id h (m : action B) w b w' : without h w -> keeps registered_once m ->
  (update (fun w => set_m_aseba_nodes (insert_id id h (m_aseba_nodes w)) w);; m) w = Ok (b, w') -> registered_once w'.
Proof. intros [[Hk Hh] Hn] Hm. apply kept_update_from; [|done]. by apply insert_id_once. Qed.

Lemma add_node_once (set_status : nat -> status -> action unit) h : (forall h s, keeps registered_once (set_status h s)) ->
  keeps registered_once (add_node generate loop_fuel set_status h).
Proof.
  intros Hs. apply kept_bind; [apply remove_duplicated_keeps; [apply blind_once|intros; by apply erase_once|auto]|intros _].
  apply kept_get. intros w Hw b w'. destruct (find_registered h w) as [|] eqn:Ef; [by intros [= _ <-]|].
  destruct (w_nodes w !! h) as [n|]; [|by intros [= _ <-]]. cbv zeta. apply insert_from.
  { split; [done|]. by apply find_registered_None. }
  apply kept_bind; [|intros _; apply blind_signal; apply blind_once].
  apply blind_restore_and_save; [apply blind_once|]. intros w1 n1 o Hw1 _ a w2. by apply Hs.
Qed.

Lemma set_status_once fuel h s : keeps registered_once (set_status generate loop_fuel fuel h s).
Proof.
  revert h s. induction fuel as [|fuel IH]; intros h s; [apply kept_res|]. cbn [set_status].
  apply kept_bind; [apply kept_update; intros w; done|intros _].
  destruct s; try (apply kept_read; intros w; apply kept_unless; intros it _; apply blind_signal, blind_once).
  - by apply add_node_once.
  - apply remove_registered_keeps; [apply blind_once|intros; by apply erase_once].
Qed.
End Once.

(** ** The uuid of a device *)

Section Identity.
Variable generate : list Z.
Variable loop_fuel : nat.
(** The node and its uuid. *)
Variable h : nat.
Variable id : list Z.

Abbreviation set_status := (set_status generate loop_fuel).

(** The node is there and not disconnected, and no other node has its uuid. *)
Definition identified (w : world) : Prop :=
  (exists o, w_nodes w !! h = Some o /\ no_uuid o = id /\ no_status o <> disconnected) /\
  forall h' o, h' <> h -> w_nodes w !! h' = Some o -> no_uuid o <> id.

Definition known (w : world) : Prop := registered_once w /\ (id, h) ∈ m_aseba_nodes w /\ identified w.

(** Between the erasure of the old entries and the insertion of the new one. *)
Definition vacant (w : world) : Prop := without h w /\ (id ∉ List.map fst (m_aseba_nodes w)) /\ identified w.

Lemma blind_known : blind known.
Proof. intros w w' En Er (Ho & Hin & Hi). unfold known, registered_once, identified. by rewrite En, Er. Qed.

Lemma blind_vacant : blind vacant.
Proof. intros w w' En Er ([Ho Hn] & Hin & Hi). unfold vacant, without, registered_once, identified. by rewrite En, Er. Qed.

Lemma identified_status s h' w : (h' = h -> s <> disconnected) -> identified w ->
  identified (set_w_nodes (alter (set_no_status s) h' (w_nodes w)) w).
Proof.
  intros Hs [(o & Ho & Hid & Hst) Hother]. unfold identified. cbn [w_nodes set_w_nodes]. split.
  - destruct (decide (h' = h)) as [->|Hne].
    + exists (set_no_status s o). rewrite lookup_alter_eq, Ho. split_and!; [done|done|by apply Hs].
    + exists o. by rewrite lookup_alter_ne.
  - intros h2 o2 Hne. destruct (decide (h' = h2)) as [->|Hne2]; [|rewrite lookup_alter_ne by done; by apply Hother].
    rewrite lookup_alter_eq. destruct (w_nodes w !! h2) as [o'|] eqn:E; [|done]. intros [= <-]. exact (Hother h2 o' Hne E).
Qed.

Lemma known_entry e w : registered_once w -> (id, h) ∈ m_aseba_nodes w -> e ∈ m_aseba_nodes w -> fst e = id \/ snd e = h -> e = (id, h).
Proof.
  intros [Hk Hh] Hin He [Hf|Hs]; [by apply (NoDup_map_inj fst _ e _ Hk)|by apply (NoDup_map_inj snd _ e _ Hh)].
Qed.

Lemma known_erase k w : k <> id -> known w -> known (set_m_aseba_nodes (erase_id k (m_aseba_nodes w)) w).
Proof.
  intros Hk (Ho & Hin & Hi). split_and!; [by apply erase_once| |exact Hi]. cbn [m_aseba_nodes set_m_aseba_nodes].
  apply list_elem_of_In, List.filter_In. split; [by apply list_elem_of_In|]. simpl. apply negb_true_iff, bool_decide_eq_false. congruence.
Qed.

Lemma vacant_erase k w : vacant w -> vacant (set_m_aseba_nodes (erase_id k (m_aseba_nodes w)) w).
Proof.
  intros (Hw & Hn & Hi). split_and!; [by apply erase_without| |exact Hi]. cbn [m_aseba_nodes set_m_aseba_nodes]. intros Hx. apply Hn.
  rewrite list_elem_of_In, in_map_iff in *. destruct Hx as (e & He & [Hin _]%List.filter_In). by exists e.
Qed.

(** The node that is looked for is the one that is disconnected. *)
Lemma remove_node_target fuel uuid_of n e e' eff x :
  remove_node fuel uuid_of n e = Ok (e', eff) -> NodeDisconnect x ∈ eff -> uuid_of x = n.
Proof.
  induction fuel as [|fuel IH]; [done|]. cbn [remove_node]. destruct (Endpoint.m_nodes e) as [|[k i] rest].
  - intros [= _ <-] Hx. by apply elem_of_nil in Hx.
  - case_bool_decide as Hb; [|by apply IH]. intros [= _ <-] Hx%list_elem_of_singleton. by injection Hx as ->.
Qed.

Lemma remove_from_endpoint_identified I (set : nat -> status -> action unit) ep uuid : blind I ->
  (forall w, I w -> identified w) -> uuid <> id ->
  (forall h', h' <> h -> keeps I (set h' disconnected)) -> keeps I (remove_from_endpoint loop_fuel set ep uuid).
Proof.
  intros HI Hid Hne Hs. apply kept_get. intros w Hw b w'. destruct (w_endpoints w !! ep) as [e|]; [|by intros [= _ <-]].
  cbn [unless_none]. cbv [of_res mbind action_bind]. destruct (remove_node _ _ _ _) as [[e' eff]| | | |] eqn:E; try done.
  cbv [res_bind]. fold (@mbind action _). intros Hrun.
  refine (kept_bind I _ _ _ _ w b w' Hw Hrun).
  - apply kept_for_each. intros x Hx. destruct x; try apply kept_ret. apply Hs. intros ->.
    apply (remove_node_target _ _ _ _ _ _ _ E) in Hx. destruct (Hid w Hw) as [(o & Ho & Ho2 & _) _]. rewrite Ho in Hx. congruence.
  - intros _. apply kept_read. intros w1. apply kept_unless. intros e1 _. by apply blind_set_endpoint.
Qed.

Lemma disconnect_vacant fuel h' : h' <> h -> keeps vacant (set_status fuel h' disconnected).
Proof.
  intros Hne. destruct fuel; [apply kept_res|]. cbn [Registry.set_status]. apply kept_bind.
  - apply kept_update. intros w (Hw & Hn & Hi). split_and!; [done|done|]. by apply identified_status.
  - intros _. apply remove_registered_keeps; [apply blind_vacant|intros; by apply vacant_erase].
Qed.

Lemma remove_registered_known h' : h' <> h -> keeps known (remove_registered h').
Proof.
  intros Hne. apply kept_get. intros w Hw b w'. destruct (find_registered h' w) as [it|] eqn:E; [|by intros [= _ <-]].
  apply kept_update_from; [|apply blind_signal, blind_known]. apply known_erase; [|done]. intros Hk.
  apply List.find_some in E as [Hit Hs%Nat.eqb_eq]. destruct Hw as (Ho & Hin & _).
  apply Hne. rewrite <- Hs. by rewrite (known_entry it w Ho Hin) by (try apply list_elem_of_In; auto).
Qed.

(** The duplicates of other nodes are not this node. *)
Lemma remove_duplicated_known (set : nat -> status -> action unit) h' :
  (forall h', h' <> h -> keeps known (set h' disconnected)) -> keeps known (remove_duplicated_node loop_fuel set h').
Proof.
  intros Hs. apply kept_get. intros w Hw b w'. destruct (w_nodes w !! h') as [n|] eqn:En; [|by intros [= _ <-]]. cbn [unless_none].
  destruct (find_id (no_uuid n) (m_aseba_nodes w)) as [it|] eqn:Ei; [|by intros [= _ <-]]. cbn [unless_none]. cbv zeta.
  destruct (_ && _) eqn:Eb; [by intros [= _ <-]|]. apply find_id_Some in Ei as [Hit Hk].
  assert (no_uuid n <> id) as Hne.
  { intros Hid. destruct Hw as (Ho & Hin & (o & Hh & _ & _) & Hother).
    assert (it = (id, h)) as -> by (apply (known_entry it w Ho Hin Hit); left; congruence).
    destruct (decide (h' = h)) as [->|Hx]; [|by apply (Hother h' n)]. simpl in Eb. rewrite Hh, Nat.eqb_refl in Eb. done. }
  apply kept_update_from; [by apply known_erase|]. apply kept_unless. intros o _.
  apply remove_from_endpoint_identified; [apply blind_known| |done|done]. by intros w1 (_ & _ & ?).
Qed.

Lemma set_status_known fuel h' s : (h' = h -> s <> disconnected) -> keeps known (set_status fuel h' s).
Proof.
  revert h' s. induction fuel as [|fuel IH]; intros h' s Hs; [apply kept_res|]. cbn [Registry.set_status].
  apply kept_bind.
  { apply kept_update. intros w (Ho & Hin & Hi). split_and!; [done|done|]. by apply identified_status. }
  intros _. destruct s; try (apply kept_read; intros w; apply kept_unless; intros it _; apply blind_signal, blind_known).
  - apply kept_bind; [apply remove_duplicated_known; intros h2 Hh2; by apply IH|intros _].
    apply kept_get. intros w Hw b w'. destruct (find_registered h' w) eqn:Ef; [by intros [= _ <-]|].
    destruct (w_nodes w !! h') as [n|]; [|by intros [= _ <-]]. cbv zeta. apply kept_update_from.
    + destruct Hw as (Ho & Hin & Hi). apply find_registered_None in Ef. split_and!; [|  |exact Hi].
      * destruct Ho. by apply insert_id_once.
      * cbn [m_aseba_nodes set_m_aseba_nodes]. unfold insert_id. destruct (find_id _ _); [done|]. apply elem_of_app. by left.
    + apply kept_bind; [|intros _; apply blind_signal, blind_known]. apply blind_restore_and_save; [apply blind_known|].
      intros w1 n1 o Hw1 Ho1 a w2. apply IH; [|done]. intros ->. destruct Hw1 as (_ & _ & (o' & Ho' & _ & Hst) & _). congruence.
  - apply remove_registered_known. intros ->. by apply Hs.
Qed.

(** No other live node is registered under the id. *)
Definition unclaimed (w : world) : Prop :=
  forall e o, e ∈ m_aseba_nodes w -> snd e <> h -> w_nodes w !! snd e = Some o -> fst e <> id.

(** Nodes, endpoints, groups and ghosts are not touched. *)
Definition same_rest (w w' : world) : Prop :=
  w_nodes w' = w_nodes w /\ w_endpoints w' = w_endpoints w /\ w_groups w' = w_groups w /\ m_ghost_groups w' = m_ghost_groups w.

(** Erasing what the uuid leads to, which is a node that is gone, makes room. *)
Lemma remove_duplicated_vacant fuel w b w' : without h w -> identified w -> unclaimed w ->
  remove_duplicated_node loop_fuel (set_status fuel) h w = Ok (b, w') -> vacant w' /\ same_rest w w'.
Proof.
  intros Hw Hi Ha. pose proof Hi as [(n & Hn & Hid & _) Hother]. unfold remove_duplicated_node. cbv [mbind action_bind get]. rewrite Hn.
  cbn [unless_none]. fold (@mbind action _). rewrite Hid. destruct (find_id id (m_aseba_nodes w)) as [it|] eqn:Ei.
  - cbn [unless_none]. cbv zeta. apply find_id_Some in Ei as [Hit Hk].
    assert (snd it <> h) as Hne.
    { intros Heq. apply (proj2 Hw), list_elem_of_In, in_map_iff. exists it. split; [done|by apply list_elem_of_In]. }
    assert (w_nodes w !! snd it = None) as Hdead.
    { destruct (w_nodes w !! snd it) as [o|] eqn:E; [|done]. exfalso. by apply (Ha it o Hit Hne E). }
    rewrite Hdead. cbn [unless_none]. intros [= <- <-]. split; [|by split_and!]. split_and!; [by apply erase_without| |exact Hi].
    cbn [m_aseba_nodes set_m_aseba_nodes].
    intros (e & He & [_ Hx]%List.filter_In)%list_elem_of_In%in_map_iff. simpl in Hx. by rewrite bool_decide_eq_true_2 in Hx.
  - intros [= <- <-]. split; [|by split_and!]. split_and!; [done|by apply find_id_None|done].
Qed.

(** Without its old entry the node is not registered. *)
Lemma erase_own it w : registered_once w -> find_registered h w = Some it ->
  without h (set_m_aseba_nodes (erase_id (fst it) (m_aseba_nodes w)) w).
Proof.
  intros Ho E. apply List.find_some in E as [Hit Hs%Nat.eqb_eq]. split; [by apply erase_once|]. cbn [m_aseba_nodes set_m_aseba_nodes].
  intros (e & He & [Hin Hx]%List.filter_In)%list_elem_of_In%in_map_iff. apply negb_true_iff, bool_decide_eq_false in Hx.
  apply Hx. f_equal. apply (NoDup_map_inj snd _ e it (proj2 Ho)); [by apply list_elem_of_In|by apply list_elem_of_In|congruence].
Qed.

Lemma unclaimed_erase k w : unclaimed w -> unclaimed (set_m_aseba_nodes (erase_id k (m_aseba_nodes w)) w).
Proof.
  intros Ha e o He. apply Ha. apply list_elem_of_In, List.filter_In in He as [He _]. by apply list_elem_of_In.
Qed.

(** The registration under the new uuid, before the group is looked for. *)
Lemma handle_change_steps fuel w b w' : registered_once w -> identified w -> unclaimed w ->
  handle_node_uuid_change loop_fuel (set_status fuel) h w = Ok (b, w') ->
  exists w1, known w1 /\ same_rest w w1 /\ restore_and_save (set_status fuel) h w1 = Ok (b, w').
Proof.
  intros Ho Hi Ha E. apply bind_inv in E as (w0 & w0' & [= <- <-] & E). apply bind_inv in E as ([] & w1 & E1 & E).
  assert (without h w1 /\ identified w1 /\ unclaimed w1 /\ same_rest w w1) as (H1 & H2 & H3 & Hr1).
  { destruct (find_registered h w) as [it|] eqn:Ef.
    - injection E1 as <-. cbn [set_w_signals m_aseba_nodes]. split; [|split; [exact Hi|split]].
      + by apply (erase_own it (set_w_signals _ w)).
      + by apply (unclaimed_erase (fst it) (set_w_signals _ w)).
      + by split_and!.
    - injection E1 as <-. split; [split; [done|by apply find_registered_None]|]. split; [done|split; [done|by split_and!]]. }
  apply bind_inv in E as ([] & w2 & E2 & E). apply remove_duplicated_vacant in E2 as [(H4 & H5 & H6) Hr2]; [|done..].
  apply bind_inv in E as (w0 & w0' & [= <- <-] & E). pose proof H6 as [(n & Hn & Hid & Hst) _]. rewrite Hn in E. cbn [unless_none] in E.
  apply bind_inv in E as ([] & w3 & [= <-] & E). eexists. split; [|split; [|exact E]].
  - rewrite Hid. destruct H4 as [[Hk Hh] Hnin]. split_and!; [by apply insert_id_once| |exact H6].
    cbn [m_aseba_nodes set_m_aseba_nodes]. unfold insert_id. destruct (find_id id _) as [e|] eqn:Ef.
    + exfalso. apply H5. apply find_id_Some in Ef as [He <-]. apply list_elem_of_In, in_map. by apply list_elem_of_In.
    + apply elem_of_app. right. by left.
  - destruct Hr1 as (Rn & Ra & Rb & Rc), Hr2 as (Sn & Sa & Sb & Sc). unfold same_rest.
    cbn [w_nodes w_endpoints w_groups m_ghost_groups set_m_aseba_nodes]. by rewrite Sn, Sa, Sb, Sc.
Qed.

Lemma handle_change_known fuel w b w' : registered_once w -> identified w -> unclaimed w ->
  handle_node_uuid_change loop_fuel (set_status fuel) h w = Ok (b, w') -> known w'.
Proof.
  intros Ho Hi Ha E. apply handle_change_steps in E as (w1 & Hw1 & _ & E); [|done..]. revert Hw1 E.
  apply blind_restore_and_save; [apply blind_known|]. intros w1' n1 o Hw1 Ho1 a w3. apply set_status_known; [|done].
  intros ->. destruct Hw1 as (_ & _ & (o' & Ho' & _ & Hst') & _). congruence.
Qed.

(** ** The group of a device that comes back *)

(** The status of the node itself moves nothing but signals. *)
Lemma own_status fuel s w b w' : known w -> s <> disconnected -> set_status fuel h s w = Ok (b, w') ->
  w_endpoints w' = w_endpoints w /\ w_groups w' = w_groups w /\ m_ghost_groups w' = m_ghost_groups w.
Proof.
  intros Hw Hs. destruct fuel as [|fuel]; [done|]. cbn [Registry.set_status]. intros E.
  apply bind_inv in E as ([] & w1 & [= <-] & E). set (w1 := set_w_nodes _ w) in E.
  assert (known w1) as (Ho & Hin & (o & Hh & Hid & Hst) & Hother).
  { destruct Hw as (Ho & Hin & Hi). split_and!; [done|done|]. apply identified_status; [|done]. auto. }
  assert (find_id id (m_aseba_nodes w1) = Some (id, h)) as Hfind.
  { destruct (find_id id (m_aseba_nodes w1)) as [it|] eqn:Ef.
    - apply find_id_Some in Ef as [He Hke]. f_equal. apply (known_entry it w1 Ho Hin He). by left.
    - apply find_id_None in Ef. destruct Ef. apply list_elem_of_In, in_map_iff. exists (id, h). split; [done|]. by apply list_elem_of_In. }
  assert (is_Some (find_registered h w1)) as [it Hreg].
  { destruct (find_registered h w1) eqn:Ef; [eauto|]. apply find_registered_None in Ef. destruct Ef.
    apply list_elem_of_In, in_map_iff. exists (id, h). split; [done|]. by apply list_elem_of_In. }
  assert (forall s', set_node_status h s' w1 = Ok (b, w') ->
    w_endpoints w' = w_endpoints w /\ w_groups w' = w_groups w /\ m_ghost_groups w' = m_ghost_groups w) as Hsig.
  { intros s' E'. apply bind_inv in E' as (x & w2 & [= <- <-] & E'). rewrite Hreg in E'. injection E' as <- <-. by split_and!. }
  destruct s; try done; try by apply Hsig in E.
  unfold add_node in E. apply bind_inv in E as ([] & w2 & E2 & E).
  apply bind_inv in E2 as (x & w3 & [= <- <-] & E2). rewrite Hh in E2. cbn [unless_none] in E2. rewrite Hid, Hfind in E2.
  cbn [unless_none snd] in E2. rewrite Hh, Nat.eqb_refl in E2. injection E2 as <-.
  apply bind_inv in E as (x & w3 & [= <- <-] & E). rewrite Hreg in E. injection E as <- <-. by split_and!.
Qed.

(** What a group is apart from its scratchpads. *)
Definition group_view (g : group) : list nat * list event * variables_map := (m_endpoints g, m_events_table g, m_shared_variables g).

Lemma signals_loop {A} (f : A -> signal) l w b w' : for_each (fun x => raise_signal (f x)) l w = Ok (b, w') ->
  exists s, w' = set_w_signals s w.
Proof.
  revert w. induction l as [|x l IH]; intros w; cbn [for_each].
  - intros [= _ <-]. exists (w_signals w). by destruct w.
  - intros E. apply bind_inv in E as ([] & w1 & [= <-] & E). apply IH in E as [s ->]. by exists s.
Qed.

Lemma assign_view g w b w' : assign_group_scratchpads g w = Ok (b, w') ->
  w_endpoints w' = w_endpoints w /\ m_ghost_groups w' = m_ghost_groups w /\
  forall k, option_map group_view (w_groups w' !! k) = option_map group_view (w_groups w !! k).
Proof.
  intros E. apply bind_inv in E as (x & w1 & [= <- <-] & E). destruct (w_groups w !! g) as [gr|] eqn:Eg; [|injection E as <- <-; by split_and!].
  cbn [unless_none] in E. apply bind_inv in E as (x & w1 & [= <- <-] & E). destruct (assign_scratchpads _ _) as [pads signals].
  apply bind_inv in E as ([] & w1 & [= <-] & E). apply signals_loop in E as [s ->]. split_and!; [done|done|]. intros k.
  cbn [w_groups set_w_signals set_w_groups]. destruct (decide (g = k)) as [<-|Hne]; [by rewrite lookup_insert_eq, Eg|by rewrite lookup_insert_ne].
Qed.

(** Attaching a group to the endpoint of this node alone. *)
Lemma attach_ok fuel g ep w b w' e gr : known w -> w_endpoints w !! ep = Some e -> w_groups w !! g = Some gr ->
  nodes_of_endpoint ep w = [h] -> attach_to_endpoint (set_status fuel) g ep w = Ok (b, w') ->
  exists e' gr', w_endpoints w' !! ep = Some (mkEndpointObject e' (Some g)) /\
    Endpoint.set_events_table (m_events_table gr) (eo_endpoint e) = Ok e' /\ w_groups w' !! g = Some gr' /\ ep ∈ m_endpoints gr' /\
    m_events_table gr' = m_events_table gr /\ m_shared_variables gr' = m_shared_variables gr.
Proof.
  intros Hw He Hg Hn E. apply bind_inv in E as (x & w1 & [= <- <-] & E). rewrite He in E. cbn [unless_none] in E.
  apply bind_inv in E as (x & w1 & [= <- <-] & E). rewrite Hg in E. cbn [unless_none] in E.
  apply bind_inv in E as ([] & w1 & E1 & E). apply bind_inv in E as (e' & w2 & E2 & E).
  unfold of_res in E2. destruct (Endpoint.set_events_table _ _) as [e1| | | |] eqn:Et; try done. injection E2 as <- <-.
  assert (exists gr1, w_groups w1 !! g = Some gr1 /\ ep ∈ m_endpoints gr1 /\ m_events_table gr1 = m_events_table gr /\
    m_shared_variables gr1 = m_shared_variables gr /\ w_nodes w1 = w_nodes w /\ m_aseba_nodes w1 = m_aseba_nodes w) as (gr1 & Hg1 & Hep & Hev & Hsh & Hn1 & Hr1).
  { case_bool_decide as Hin.
    - injection E1 as <-. exists gr. split_and!; try done. apply list_elem_of_In, List.filter_In in Hin as [Hin _]. by apply list_elem_of_In.
    - injection E1 as <-. exists (add_endpoint ep gr). split_and!; try done; [apply lookup_insert_eq|]. apply elem_of_app. right. by left. }
  apply bind_inv in E as ([] & w3 & [= <-] & E). set (w3 := set_w_endpoints _ w1) in E.
  assert (known w3) as Hw3 by (by apply (blind_known w)).
  apply bind_inv in E as ([] & w4 & E4 & E). rewrite Hn in E4. cbn [for_each] in E4.
  apply bind_inv in E4 as ([] & w5 & E5 & E6). injection E6 as <-. apply bind_inv in E5 as (x & w6 & [= <- <-] & E5).
  destruct Hw3 as (Ho & Hin & (o & Hh & Hid & Hst) & Hother). rewrite Hh in E5. cbn [unless_none] in E5.
  apply own_status in E5 as (Ha & Hb & Hc); [|by split_and!; [| |split; [exists o|]]|done].
  apply bind_inv in E as ([] & w7 & E7 & E). apply assign_view in E as (Hd & _ & Hview).
  apply bind_inv in E7 as (x & w8 & [= <- <-] & E7). rewrite Hb in E7. change (w_groups w3) with (w_groups w1) in E7. rewrite Hg1 in E7.
  injection E7 as <-. cbn [w_endpoints w_groups set_w_signals] in Hd, Hview. rewrite Hb in Hview.
  specialize (Hview g). change (w_groups w3) with (w_groups w1) in Hview. rewrite Hg1 in Hview.
  destruct (w_groups w' !! g) as [gr'|]; [|done]. injection Hview as Hv1 Hv2 Hv3. exists e1, gr'. rewrite Hd, Ha.
  split_and!; [apply lookup_insert_eq|done|done|congruence..].
Qed.

(** ** A change of the uuid returns

    The calls that come back from the endpoint find every node where it says it
    is, and go no deeper. *)

Lemma bind_ok {A B} (m : action A) (f : A -> action B) w a w1 : m w = Ok (a, w1) -> (m ≫= f) w = f a w1.
Proof. intros E. cbv [mbind action_bind]. by rewrite E. Qed.

(** The other nodes that are connected are registered, and no id leads from
    them to another node. *)
Definition settled (w : world) : Prop :=
  forall n o, n <> h -> w_nodes w !! n = Some o -> no_status o = connected ->
    n ∈ List.map snd (m_aseba_nodes w) /\ forall it, find_id (no_uuid o) (m_aseba_nodes w) = Some it -> snd it = n.

Lemma find_id_entry l it : NoDup (List.map fst l) -> it ∈ l -> find_id (fst it) l = Some it.
Proof.
  intros Hn Hit. destruct (find_id (fst it) l) as [e|] eqn:E.
  - apply find_id_Some in E as [He Hf]. f_equal. by apply (NoDup_map_inj fst l e it Hn).
  - apply find_id_None in E. destruct E. apply list_elem_of_In, in_map. by apply list_elem_of_In.
Qed.

Lemma elem_of_erase_id k l e : e ∈ erase_id k l <-> e ∈ l /\ fst e <> k.
Proof. unfold erase_id. by rewrite !list_elem_of_In, List.filter_In, negb_true_iff, bool_decide_eq_false. Qed.

Lemma elem_of_map_snd (n : nat) (l : list (list Z * nat)) : n ∈ List.map snd l <-> exists k, (k, n) ∈ l.
Proof.
  rewrite list_elem_of_In, in_map_iff. split.
  - intros ([k x] & Hx & He). cbn in Hx. subst x. exists k. by apply list_elem_of_In.
  - intros [k Hk]. exists (k, n). split; [done|by apply list_elem_of_In].
Qed.

Lemma settled_erase k w : registered_once w -> settled w ->
  (forall n o, (k, n) ∈ m_aseba_nodes w -> n <> h -> w_nodes w !! n = Some o -> no_status o <> connected) ->
  settled (set_m_aseba_nodes (erase_id k (m_aseba_nodes w)) w).
Proof.
  intros [Hf _] Hs Hk n o Hn Ho Hc. destruct (Hs n o Hn Ho Hc) as [Hin Hid]. cbn [m_aseba_nodes set_m_aseba_nodes]. split.
  - apply elem_of_map_snd in Hin as [j Hj]. apply elem_of_map_snd. exists j. apply elem_of_erase_id. split; [done|].
    cbn. intros ->. by apply (Hk n o Hj Hn Ho).
  - intros it [Hit He]%find_id_Some. apply elem_of_erase_id in Hit as [Hit _]. apply Hid. rewrite <- He. by apply find_id_entry.
Qed.

Lemma settled_all w n o : known w -> settled w -> w_nodes w !! n = Some o -> no_status o = connected ->
  n ∈ List.map snd (m_aseba_nodes w) /\ forall it, find_id (no_uuid o) (m_aseba_nodes w) = Some it -> snd it = n.
Proof.
  intros (Ho & Hin & (oh & Hh & Hid & _) & _) Hs. destruct (decide (n = h)) as [->|Hne]; [|by apply Hs].
  rewrite Hh. intros [= <-] _. split; [apply elem_of_map_snd; by exists id|]. intros it [Hit He]%find_id_Some.
  rewrite Hid in He. by rewrite (known_entry it w Ho Hin Hit (or_introl He)).
Qed.

Lemma signal_total s w : raise_signal s w = Ok (tt, set_w_signals (w_signals w ++ [s]) w).
Proof. done. Qed.

(** A node is told the status that it has. *)
Lemma resend_ok fuel n o w : known w -> settled w -> w_nodes w !! n = Some o ->
  exists w', set_status (S fuel) n (no_status o) w = Ok (tt, w') /\ settled w' /\ w_nodes w' = w_nodes w /\
    w_endpoints w' = w_endpoints w /\ w_groups w' = w_groups w.
Proof.
  intros Hk Hs Ho. cbn [Registry.set_status].
  assert (alter (set_no_status (no_status o)) n (w_nodes w) = w_nodes w) as Halt.
  { apply alter_id. intros x Hx. rewrite Ho in Hx. injection Hx as <-. by destruct o. }
  erewrite bind_ok by reflexivity. rewrite Halt. replace (set_w_nodes (w_nodes w) w) with w by by destruct w.
  assert (forall s, exists w', set_node_status n s w = Ok (tt, w') /\ settled w' /\ w_nodes w' = w_nodes w /\
    w_endpoints w' = w_endpoints w /\ w_groups w' = w_groups w) as Hsig.
  { intros s. unfold set_node_status. erewrite bind_ok by reflexivity. destruct (find_registered n w); cbn [unless_none]; by eexists. }
  destruct (no_status o) eqn:Est; try apply Hsig.
  - destruct (settled_all w n o Hk Hs Ho Est) as [Hin Hid]. exists w. split; [|done]. unfold add_node.
    assert (remove_duplicated_node loop_fuel (set_status fuel) n w = Ok (tt, w)) as Hdup.
    { unfold remove_duplicated_node. erewrite bind_ok by reflexivity. rewrite Ho. cbn [unless_none].
      destruct (find_id (no_uuid o) (m_aseba_nodes w)) as [it|] eqn:Ef; [|done]. cbn [unless_none]. cbv zeta. specialize (Hid it eq_refl).
      rewrite Hid, Ho, Nat.eqb_refl. done. }
    erewrite bind_ok by exact Hdup. erewrite bind_ok by reflexivity.
    destruct (find_registered n w) eqn:Ef; [done|]. by apply find_registered_None in Ef.
  - assert (n <> h) as Hne by (intros ->; destruct Hk as (_ & _ & (oh & Hh & _ & Hst) & _); congruence).
    unfold remove_registered. erewrite bind_ok by reflexivity. destruct (find_registered n w) as [it|] eqn:Ef; [|by exists w].
    cbn [unless_none]. erewrite bind_ok by reflexivity. eexists. split; [reflexivity|]. split_and!; try done.
    apply List.find_some in Ef as [Hit Hn%Nat.eqb_eq]. apply list_elem_of_In in Hit.
    apply (settled_erase (fst it) w (proj1 Hk) Hs). intros m om Hm _ Hom. assert (m = n) as ->; [|congruence].
    rewrite <- Hn. pose proof (NoDup_map_inj fst (m_aseba_nodes w) (fst it, m) it (proj1 (proj1 Hk)) Hm Hit eq_refl) as Heq. by rewrite <- Heq.
Qed.

Lemma resend_all fuel l w : known w -> settled w ->
  exists w', for_each (fun n => w ← get; unless_none (w_nodes w !! n) (fun o => set_status (S fuel) n (no_status o))) l w = Ok (tt, w').
Proof.
  revert w. induction l as [|n l IH]; intros w Hk Hs; [by exists w|]. cbn [for_each].
  destruct (w_nodes w !! n) as [o|] eqn:Ho.
  - destruct (resend_ok fuel n o w Hk Hs Ho) as (w1 & E1 & Hs1 & _).
    erewrite bind_ok by (erewrite bind_ok by reflexivity; rewrite Ho; exact E1). apply IH; [|done].
    refine (set_status_known (S fuel) n (no_status o) _ w tt w1 Hk E1). intros ->. destruct Hk as (_ & _ & (oh & Hh & _ & Hst) & _). congruence.
  - erewrite bind_ok by (erewrite bind_ok by reflexivity; rewrite Ho; reflexivity). by apply IH.
Qed.

Lemma signals_total {A} (f : A -> signal) l w : exists w', for_each (fun x => raise_signal (f x)) l w = Ok (tt, w').
Proof. revert w. induction l as [|x l IH]; intros w; [by exists w|]. cbn [for_each]. erewrite bind_ok by reflexivity. apply IH. Qed.

Lemma assign_total g w : exists w', assign_group_scratchpads g w = Ok (tt, w').
Proof.
  unfold assign_group_scratchpads, with_group. erewrite bind_ok by reflexivity. destruct (w_groups w !! g) as [gr|]; [|by exists w].
  cbn [unless_none]. erewrite bind_ok by reflexivity. destruct (assign_scratchpads _ _) as [pads signals].
  erewrite bind_ok by reflexivity. apply signals_total.
Qed.

(** The names of the events of the group that is remembered for the uuid are
    UTF-8. *)
Definition readable (w : world) : Prop :=
  forall g gr e, om_find id (m_ghost_groups w) = Some g -> w_groups w !! g = Some gr ->
    exists e', Endpoint.set_events_table (m_events_table gr) e = Ok e'.

Lemma attach_total fuel g ep w : known w -> settled w ->
  (forall gr e, w_groups w !! g = Some gr -> exists e', Endpoint.set_events_table (m_events_table gr) e = Ok e') ->
  exists w', attach_to_endpoint (set_status (S fuel)) g ep w = Ok (tt, w').
Proof.
  intros Hk Hs Hr. unfold attach_to_endpoint, with_group. erewrite bind_ok by reflexivity.
  destruct (w_endpoints w !! ep) as [e|]; [|by exists w]. cbn [unless_none]. erewrite bind_ok by reflexivity.
  destruct (w_groups w !! g) as [gr|] eqn:Eg; [|by exists w]. cbn [unless_none]. destruct (Hr gr (eo_endpoint e) eq_refl) as [e' Et].
  assert (exists w1, (if bool_decide (ep ∈ endpoints (endpoint_alive w) gr) then mret tt else set_group g (add_endpoint ep gr)) w = Ok (tt, w1) /\
    known w1 /\ settled w1) as (w1 & E1 & Hk1 & Hs1).
  { case_bool_decide; [by exists w|]. eexists. split; [reflexivity|]. split; [by apply (blind_known w)|exact Hs]. }
  erewrite bind_ok by exact E1. erewrite bind_ok by (unfold of_res; rewrite Et; reflexivity). erewrite bind_ok by reflexivity.
  match goal with |- context [for_each _ ?l] => match goal with |- context [set_w_endpoints ?x w1] =>
    destruct (resend_all fuel l (set_w_endpoints x w1)) as [w2 E2]; [by apply (blind_known w1)|exact Hs1|] end end.
  erewrite bind_ok by exact E2. assert (exists w3, (w ← get; unless_none (w_groups w !! g) (fun g' =>
    raise_signal (GroupSignal g (SharedChanged (m_shared_variables g')));; raise_signal (GroupSignal g (EventsChanged (m_events_table g'))))) w2 = Ok (tt, w3)) as [w3 E3].
  { erewrite bind_ok by reflexivity. destruct (w_groups w2 !! g); by eexists. }
  erewrite bind_ok by exact E3. apply assign_total.
Qed.

Lemma restore_and_save_total fuel w : known w -> settled w -> readable w ->
  exists w', restore_and_save (set_status (S fuel)) h w = Ok (tt, w').
Proof.
  intros Hk Hs Hr. unfold restore_and_save. erewrite bind_ok by reflexivity.
  pose proof Hk as (_ & _ & (o & Hh & Hid & _) & _). rewrite Hh. cbn [unless_none].
  assert (exists w1, restore_group_affiliation (set_status (S fuel)) o w = Ok (tt, w1)) as [w1 E1].
  { unfold restore_group_affiliation. erewrite bind_ok by reflexivity. rewrite Hid. destruct (om_find id (m_ghost_groups w)) as [g|] eqn:Eg; [|by exists w].
    cbn [unless_none]. destruct (w_endpoints w !! no_endpoint o) as [e|]; cbn [unless_none]; [|by eexists]. cbv zeta.
    destruct (_ && _); [|by eexists]. destruct (attach_total fuel g (no_endpoint o) w Hk Hs) as [w2 E2]; [intros gr e' Hg; by eapply Hr|].
    erewrite bind_ok by exact E2. by eexists. }
  erewrite bind_ok by exact E1. unfold save_group_affiliation. erewrite bind_ok by reflexivity. destruct (group_of_node o w1); by eexists.
Qed.

Lemma handle_change_total fuel w : registered_once w -> identified w -> unclaimed w -> settled w -> readable w ->
  exists w', handle_node_uuid_change loop_fuel (set_status (S fuel)) h w = Ok (tt, w').
Proof.
  intros Ho Hi Ha Hs Hr. unfold handle_node_uuid_change. erewrite bind_ok by reflexivity.
  assert (exists w1, unless_none (find_registered h w) (fun it => raise_signal (NodeStatusChanged h (fst it) disconnected);;
    update (fun w => set_m_aseba_nodes (erase_id (fst it) (m_aseba_nodes w)) w)) w = Ok (tt, w1) /\
    without h w1 /\ identified w1 /\ unclaimed w1 /\ settled w1 /\ readable w1) as (w1 & E1 & H1 & H2 & H3 & H4 & H5).
  { destruct (find_registered h w) as [it|] eqn:Ef; cbn [unless_none].
    - eexists. split; [reflexivity|]. split_and!; [by apply (erase_own it (set_w_signals _ w))|exact Hi|by apply (unclaimed_erase (fst it) (set_w_signals _ w))| |exact Hr].
      apply (settled_erase (fst it) (set_w_signals _ w)); [exact Ho|exact Hs|]. intros n o Hn Hne. destruct Hne.
      apply List.find_some in Ef as [Hit Hx%Nat.eqb_eq]. apply list_elem_of_In in Hit. rewrite <- Hx.
      by rewrite (NoDup_map_inj fst (m_aseba_nodes w) it (fst it, n) (proj1 Ho)).
    - exists w. split_and!; [done|split; [done|by apply find_registered_None]|done..]. }
  erewrite bind_ok by exact E1.
  assert (exists w2, remove_duplicated_node loop_fuel (set_status (S fuel)) h w1 = Ok (tt, w2) /\ settled w2 /\ readable w2) as (w2 & E2 & H6 & H7).
  { pose proof H2 as [(n & Hn & Hid & _) Hother]. unfold remove_duplicated_node. erewrite bind_ok by reflexivity. rewrite Hn. cbn [unless_none]. rewrite Hid.
    destruct (find_id id (m_aseba_nodes w1)) as [it|] eqn:Ei; [|by exists w1]. cbn [unless_none]. cbv zeta. apply find_id_Some in Ei as [Hit Hk].
    assert (snd it <> h) as Hne.
    { intros Heq. apply (proj2 H1), list_elem_of_In, in_map_iff. exists it. split; [done|by apply list_elem_of_In]. }
    assert (w_nodes w1 !! snd it = None) as ->.
    { destruct (w_nodes w1 !! snd it) as [o|] eqn:E; [|done]. exfalso. by apply (H3 it o Hit Hne E). }
    rewrite bool_decide_eq_false_2 by by intros [? ?]. cbn [andb]. erewrite bind_ok by reflexivity. eexists. split; [reflexivity|]. split; [|exact H5].
    apply (settled_erase id w1 (proj1 H1) H4). intros m om Hm Hmh Hom _. exact (H3 (id, m) om Hm Hmh Hom eq_refl). }
  destruct (remove_duplicated_vacant (S fuel) w1 tt w2 H1 H2 H3 E2) as [(H8 & H9 & H10) _]. pose proof H10 as [(n & Hn & Hid & _) Hother].
  erewrite bind_ok by exact E2. erewrite bind_ok by reflexivity. rewrite Hn. cbn [unless_none]. erewrite bind_ok by reflexivity.
  rewrite Hid. apply restore_and_save_total; [| |exact H7].
  - destruct H8 as [[Hk Hh] Hnin]. split_and!; [by apply insert_id_once| |exact H10].
    cbn [m_aseba_nodes set_m_aseba_nodes]. unfold insert_id. destruct (find_id id _) as [e|] eqn:Ef; [|apply elem_of_app; right; by left].
    exfalso. apply H9. apply find_id_Some in Ef as [He <-]. apply list_elem_of_In, in_map. by apply list_elem_of_In.
  - intros m om Hm Hom Hc. destruct (H6 m om Hm Hom Hc) as [Hin Hlead]. cbn [m_aseba_nodes set_m_aseba_nodes]. unfold insert_id.
    destruct (find_id id (m_aseba_nodes w2)) eqn:Ef; [by split|]. split; [rewrite map_app; apply elem_of_app; by left|].
    intros it [Hit He]%find_id_Some. apply elem_of_app in Hit as [Hit| ->%list_elem_of_singleton]; [|by destruct (Hother m om Hm Hom)].
    apply Hlead. rewrite <- He. apply find_id_entry; [apply H8|done].
Qed.

(** With some fuel for the calls that come back, the whole call returns. *)
Lemma change_total fuel w o : registered_once w -> unclaimed w -> settled w -> readable w ->
  w_nodes w !! h = Some o -> no_status o <> disconnected ->
  (forall h' o', h' <> h -> w_nodes w !! h' = Some o' -> no_uuid o' <> id) ->
  exists w', change_uuid generate loop_fuel (S fuel) h id w = Ok (tt, w').
Proof.
  intros Ho Ha Hs Hr Hh Hst Hother. unfold Registry.change_uuid. erewrite bind_ok by reflexivity.
  destruct (handle_change_total fuel (set_w_nodes (alter (set_no_uuid id) h (w_nodes w)) w)) as [w1 E1].
  - exact Ho.
  - split.
    + exists (set_no_uuid id o). cbn [w_nodes set_w_nodes]. by rewrite lookup_alter_eq, Hh.
    + intros h2 o2 Hne. cbn [w_nodes set_w_nodes]. rewrite lookup_alter_ne by done. by apply Hother.
  - intros e oe He Hne. cbn [w_nodes set_w_nodes]. rewrite lookup_alter_ne by done. by apply Ha.
  - intros n on Hne. cbn [w_nodes set_w_nodes]. rewrite lookup_alter_ne by done. by apply Hs.
  - exact Hr.
  - erewrite bind_ok by exact E1. cbn [Registry.set_status]. erewrite bind_ok by reflexivity. unfold set_node_status.
    erewrite bind_ok by reflexivity. destruct (find_registered h _); by eexists.
Qed.
End Identity.

(** C24: when a device tells its uuid, and no other live node has it or is
    registered under it, the call returns, the uuid leads to the node of the
    device, whatever the registry, the endpoints and the groups do in between,
    and every node stays registered at most once.  The other nodes that are
    connected are registered, without an id that leads from them elsewhere; the
    names of the events of the group that is remembered for the uuid are
    UTF-8.  (With a second live node of the same uuid the loop of remove_node can
    run forever.) *)
Theorem uuid_leads_to_node generate loop_fuel fuel h id w o :
  registered_once w -> unclaimed h id w -> settled h w -> readable id w ->
  w_nodes w !! h = Some o -> no_status o <> disconnected ->
  (forall h' o', h' <> h -> w_nodes w !! h' = Some o' -> no_uuid o' <> id) ->
  exists w', change_uuid generate loop_fuel (S fuel) h id w = Ok (tt, w') /\ registered_once w' /\ node_from_id id w' = Some h.
Proof.
  intros Ho Ha Hs Hr Hh Hst Hother. destruct (change_total generate loop_fuel h id fuel w o) as [w' E]; [done..|].
  exists w'. split; [exact E|]. apply bind_inv in E as ([] & w1 & [= <-] & E). apply bind_inv in E as ([] & w2 & E2 & E3).
  apply (handle_change_known generate loop_fuel h id) in E2.
  - eapply set_status_known in E3 as ([Hk Hh'] & Hin & (o' & Ho' & _) & _); [|done|exact E2]. split; [by split|].
    unfold node_from_id. destruct (find_id id (m_aseba_nodes w')) as [[k h2]|] eqn:Ef.
    + apply find_id_Some in Ef as [He Hke]. assert ((k, h2) = (id, h)) as [= -> ->]; [|by rewrite Ho'].
      by apply (known_entry h id _ w' (conj Hk Hh') Hin He); left.
    + apply find_id_None in Ef. destruct Ef. apply list_elem_of_In, in_map_iff. exists (id, h). split; [done|]. by apply list_elem_of_In.
  - exact Ho.
  - split.
    + exists (set_no_uuid id o). cbn [w_nodes set_w_nodes]. by rewrite lookup_alter_eq, Hh.
    + intros h2 o2 Hne. cbn [w_nodes set_w_nodes]. rewrite lookup_alter_ne by done. by apply Hother.
  - intros e oe He Hne. cbn [w_nodes set_w_nodes]. rewrite lookup_alter_ne by done. by apply Ha.
Qed.

(** C32: a device that comes back gets its group back: when it tells a uuid that
    no other live node has and that a group remembers, it is the only node of
    its endpoint, and the endpoint is in another group that has no state, then
    the call returns, the endpoint has joined the remembered group and has the
    events of this group, and the group goes on remembering the uuid.  The
    registry is as in the theorem above. *)
Theorem group_restored generate loop_fuel fuel h id w o e g gr g0 gr0 :
  registered_once w -> unclaimed h id w -> settled h w -> readable id w ->
  w_nodes w !! h = Some o -> no_status o <> disconnected ->
  (forall h' o', h' <> h -> w_nodes w !! h' = Some o' -> no_uuid o' <> id) ->
  w_endpoints w !! no_endpoint o = Some e -> nodes_of_endpoint (no_endpoint o) w = [h] ->
  eo_group e = Some g0 -> w_groups w !! g0 = Some gr0 -> has_state gr0 = false ->
  om_find id (m_ghost_groups w) = Some g -> w_groups w !! g = Some gr -> g <> g0 ->
  exists w' e' gr', change_uuid generate loop_fuel (S fuel) h id w = Ok (tt, w') /\
    w_endpoints w' !! no_endpoint o = Some (mkEndpointObject e' (Some g)) /\
    Endpoint.set_events_table (m_events_table gr) (eo_endpoint e) = Ok e' /\
    w_groups w' !! g = Some gr' /\ no_endpoint o ∈ m_endpoints gr' /\ m_events_table gr' = m_events_table gr /\
    om_find id (m_ghost_groups w') = Some g.
Proof.
  intros Ho Ha Hs Hr Hh Hst Hother He Hnodes Hg0 Hgr0 Hstate Hghost Hg Hne.
  destruct (change_total generate loop_fuel h id fuel w o) as [w' E]; [done..|]. exists w'.
  pose proof E as Erun.
  apply bind_inv in E as ([] & w1 & [= <-] & E). set (w1 := set_w_nodes _ w) in E.
  assert (w_nodes w1 !! h = Some (set_no_uuid id o)) as Hh1 by (unfold w1; cbn [w_nodes set_w_nodes]; by rewrite lookup_alter_eq, Hh).
  apply bind_inv in E as ([] & w2 & E2 & E3). apply handle_change_steps with (id := id) in E2 as (w3 & Hw3 & (Sn & Se & Sg & Sc) & E2).
  2: exact Ho.
  2: { split; [by exists (set_no_uuid id o)|]. intros h2 o2 Hne2. unfold w1. cbn [w_nodes set_w_nodes]. rewrite lookup_alter_ne by done. by apply Hother. }
  2: { intros x ox Hx Hnx. unfold w1. cbn [w_nodes set_w_nodes]. rewrite lookup_alter_ne by done. by apply Ha. }
  change (w_endpoints w1) with (w_endpoints w) in Se. change (w_groups w1) with (w_groups w) in Sg.
  change (m_ghost_groups w1) with (m_ghost_groups w) in Sc.
  apply bind_inv in E2 as (x & w4 & [= <- <-] & E2). rewrite Sn, Hh1 in E2. cbn [unless_none] in E2.
  apply bind_inv in E2 as ([] & w4 & E4 & E5). apply bind_inv in E4 as (x & w5 & [= <- <-] & E4).
  cbn [no_uuid set_no_uuid no_endpoint] in E4, E5. rewrite Sc, Hghost in E4. cbn [unless_none] in E4.
  apply bind_inv in E4 as ([] & w5 & E4 & E6). rewrite Se, He in E4. cbn [unless_none] in E4. cbv zeta in E4.
  rewrite Hg0, Sg, Hgr0, Hstate, bool_decide_eq_false_2 in E4 by congruence. cbn [negb andb] in E4.
  assert (known h id w5) as Hw5.
  { revert Hw3 E4. apply blind_attach; [apply blind_known|]. intros w0 n1 o1 Hw0 Ho1 a w0'. apply set_status_known; [|done].
    intros ->. destruct Hw0 as (_ & _ & (o' & Ho' & _ & Hst') & _). congruence. }
  eapply attach_ok in E4 as (e' & gr' & Ee & Et & Eg & Hep & Hev & _); [|exact Hw3|by rewrite Se|by rewrite Sg|by unfold nodes_of_endpoint; rewrite Se].
  injection E6 as <-. apply bind_inv in E5 as (x & w6 & [= <- <-] & E5). unfold group_of_node in E5.
  cbn [no_endpoint set_no_uuid w_endpoints set_m_ghost_groups] in E5. rewrite Ee in E5. cbn [eo_group unless_none] in E5. injection E5 as <-.
  apply own_status with (id := id) in E3 as (Ha' & Hb' & Hc'); [|by apply (blind_known h id w5)|done].
  cbn [w_endpoints w_groups m_ghost_groups set_m_ghost_groups] in Ha', Hb', Hc'. exists e', gr'. split; [exact Erun|]. rewrite Ha', Hb', Hc'.
  split_and!; try done. apply om_find_set.
Qed.

(** ** A robot that comes back *)

Definition sample_world : world :=
  mkWorld {[0%nat := mkNodeObject [1] 5 connected [] 0]}
    {[0%nat := mkEndpointObject (mkEndpoint [(5, mkNodeEntry 0 0)] (mkCommon [] []) false false true UsbDevice) (Some 0%nat)]}
    {[0%nat := mkGroup [20] [0%nat] [] [] [] 0; 1%nat := mkGroup [21] [] [mkEvent (ws "go") 2] [(ws "speed", Integral 3)] [] 0]}
    [([1], 0%nat)] [([9], 1%nat)] [].

Lemma sample_others : forall h' o', h' <> 0%nat -> w_nodes sample_world !! h' = Some o' -> no_uuid o' <> [9].
Proof. intros h' o' Hne. cbn [w_nodes sample_world]. by rewrite lookup_singleton_ne. Qed.

Lemma sample_unclaimed : unclaimed 0 [9] sample_world.
Proof. intros e o He Hne. apply list_elem_of_singleton in He as ->. by destruct Hne. Qed.

Lemma sample_settled : settled 0 sample_world.
Proof. intros n o Hne. cbn [w_nodes sample_world]. by rewrite lookup_singleton_ne. Qed.

Lemma sample_readable : readable [9] sample_world.
Proof.
  intros g gr e [= <-]. intros E. assert (m_events_table gr = [mkEvent (ws "go") 2]) as ->; [|by eexists].
  vm_compute in E. by injection E as <-.
Qed.

Lemma sample_once : registered_once sample_world.
Proof. split; apply NoDup_singleton. Qed.

Lemma uuid_leads_to_node_witness : exists w', change_uuid [7] 3 4 0 [9] sample_world = Ok (tt, w') /\ node_from_id [9] w' = Some 0%nat.
Proof.
  destruct (uuid_leads_to_node [7] 3 3 0 [9] sample_world (mkNodeObject [1] 5 connected [] 0)) as (w' & E & _ & H);
    [exact sample_once|exact sample_unclaimed|exact sample_settled|exact sample_readable|reflexivity|discriminate|exact sample_others|].
  exists w'. split; [exact E|exact H].
Defined.

Lemma group_restored_witness : exists w' e', change_uuid [7] 3 4 0 [9] sample_world = Ok (tt, w') /\
  w_endpoints w' !! 0%nat = Some (mkEndpointObject e' (Some 1%nat)).
Proof.
  destruct (group_restored [7] 3 3 0 [9] sample_world (mkNodeObject [1] 5 connected [] 0)
    (mkEndpointObject (mkEndpoint [(5, mkNodeEntry 0 0)] (mkCommon [] []) false false true UsbDevice) (Some 0%nat))
    1 (mkGroup [21] [] [mkEvent (ws "go") 2] [(ws "speed", Integral 3)] [] 0) 0 (mkGroup [20] [0%nat] [] [] [] 0))
    as (w' & e' & gr' & E & He & _); [exact sample_once|exact sample_unclaimed|exact sample_settled|exact sample_readable|reflexivity|discriminate|
      exact sample_others|reflexivity..|discriminate|].
  exists w', e'. split; [exact E|exact He].
Defined.

(** The endpoint that joins a group is not given the constants of the group. *)
Lemma constants_not_given table e e' : Endpoint.set_events_table table e = Ok e' -> Lookup.constants (m_defs e') = Lookup.constants (m_defs e).
Proof. unfold Endpoint.set_events_table. destruct (mapR _ _); [|done..]. by intros [= <-]. Qed.
