(* ===== verification/UsbDevice.v ===== *)
(** * USB devices

    thymio-device-manager/usbdevice.h, usbdevice.cpp and usbcontext.h: the
    buffer of what has been received, opening and closing, the settings of the
    line, the blocking transfers, and the asynchronous transfers as a state
    machine over the completions of libusb.  libusb is a parameter; a pointer
    into a buffer of the pool is the number of the buffer. *)
From Stdlib Require Import ZArith Lia List.
From stdpp Require Import base list list_monad.
From S2P Require Import Prelude Bits.

Local Open Scope Z_scope.

(** [std::size_t]. *)
Definition size_t (z : Z) : Z := z mod 2 ^ 64.

Definition len {A} (l : list A) : Z := Z.of_nat (List.length l).

(** ** [usb_device_service::buffer] *)

Record buffer : Type := mkBuffer { buf_v : list Z; buf_s : Z }.

Definition empty_buffer : buffer := mkBuffer [] 0.

Definition reserve (size buffer_size : Z) (b : buffer) : buffer :=
  let n := Z.max (size_t (50 * buffer_size)) 1 in
  mkBuffer (resize (Z.to_nat (size_t (size_t (buf_s b + size + n - 1) / n * n))) 0 (buf_v b)) (buf_s b).

(** The bytes that are copied to a destination of the given size, which counts
    with the whole vector, whatever of it was committed. *)
Definition read (dest : Z) (b : buffer) : list Z * buffer :=
  let n := Z.min dest (len (buf_v b)) in
  (take (Z.to_nat n) (buf_v b), mkBuffer (drop (Z.to_nat n) (buf_v b)) (size_t (buf_s b - n))).

Definition write_capacity (b : buffer) : Z := size_t (len (buf_v b) - buf_s b).
Definition commit (n : Z) (b : buffer) : buffer := mkBuffer (buf_v b) (size_t (buf_s b + n)).

(** A write to [write_begin]; behind the vector it is undefined. *)
Definition store {E} (bytes : list Z) (b : buffer) : res E buffer :=
  if buf_s b + len bytes <=? len (buf_v b) then
    Ok (mkBuffer (take (Z.to_nat (buf_s b)) (buf_v b) ++ bytes ++ drop (Z.to_nat (buf_s b + len bytes)) (buf_v b)) (buf_s b))
  else Undef.

(** ** Devices *)

(** [native_handle] is the number of the device that was opened.  A buffer of
    the pool is free if its mark is [true]. *)
Record implementation_type : Type := mkImpl {
  device : option Z;
  handle : option Z;
  control_line : list Z;
  dtr : bool;
  rts : bool;
  out_address : Z;
  in_address : Z;
  read_size : Z;
  write_size : Z;
  read_buffer : buffer;
  transfers : list Z;
  buffers_pool : list (Z * (buffer * bool))
}.

Definition set_device x i := mkImpl x (handle i) (control_line i) (dtr i) (rts i) (out_address i) (in_address i) (read_size i) (write_size i) (read_buffer i) (transfers i) (buffers_pool i).
Definition set_handle x i := mkImpl (device i) x (control_line i) (dtr i) (rts i) (out_address i) (in_address i) (read_size i) (write_size i) (read_buffer i) (transfers i) (buffers_pool i).
Definition set_control_line x i := mkImpl (device i) (handle i) x (dtr i) (rts i) (out_address i) (in_address i) (read_size i) (write_size i) (read_buffer i) (transfers i) (buffers_pool i).
Definition set_lines x y i := mkImpl (device i) (handle i) (control_line i) x y (out_address i) (in_address i) (read_size i) (write_size i) (read_buffer i) (transfers i) (buffers_pool i).
Definition set_in x y i := mkImpl (device i) (handle i) (control_line i) (dtr i) (rts i) (out_address i) x y (write_size i) (read_buffer i) (transfers i) (buffers_pool i).
Definition set_out x y i := mkImpl (device i) (handle i) (control_line i) (dtr i) (rts i) x (in_address i) (read_size i) y (read_buffer i) (transfers i) (buffers_pool i).
Definition set_read_buffer x i := mkImpl (device i) (handle i) (control_line i) (dtr i) (rts i) (out_address i) (in_address i) (read_size i) (write_size i) x (transfers i) (buffers_pool i).
Definition set_transfers x i := mkImpl (device i) (handle i) (control_line i) (dtr i) (rts i) (out_address i) (in_address i) (read_size i) (write_size i) (read_buffer i) x (buffers_pool i).
Definition set_buffers_pool x i := mkImpl (device i) (handle i) (control_line i) (dtr i) (rts i) (out_address i) (in_address i) (read_size i) (write_size i) (read_buffer i) (transfers i) x.

(** [construct]; the control line has no initial value. *)
Definition new_implementation (uninitialized : list Z) : implementation_type :=
  mkImpl None None uninitialized true false 0 0 0 0 empty_buffer [] [].

(** The move constructor swaps with a fresh object, the move assignment with
    [this]; both swap [dtr] with the [rts] of the other object. *)
Definition swap_implementation (a b : implementation_type) : implementation_type * implementation_type :=
  (mkImpl (device b) (handle b) (control_line b) (rts b) (rts a) (out_address b) (in_address b) (read_size b) (write_size b) (read_buffer b) (transfers b) (buffers_pool b),
   mkImpl (device a) (handle a) (control_line a) (dtr b) (dtr a) (out_address a) (in_address a) (read_size a) (write_size a) (read_buffer a) (transfers a) (buffers_pool a)).

Definition baud_rate : list (Z * Z) :=
  [(1200, 1200); (2400, 2400); (4800, 4800); (9600, 9600); (19200, 19200); (38400, 34800); (57600, 57600); (115200, 115200)].

(** ** libusb *)

Definition LIBUSB_SUCCESS : Z := 0.
Definition LIBUSB_ERROR_IO : Z := -1.
Definition LIBUSB_ERROR_NO_DEVICE : Z := -4.
Definition LIBUSB_ERROR_NOT_FOUND : Z := -5.
Definition LIBUSB_ERROR_TIMEOUT : Z := -7.
Definition LIBUSB_ERROR_OVERFLOW : Z := -8.
Definition LIBUSB_ERROR_INTERRUPTED : Z := -10.
Definition LIBUSB_ERROR_NOT_SUPPORTED : Z := -12.
Definition LIBUSB_ERROR_OTHER : Z := -99.
Definition LIBUSB_CLASS_DATA : Z := 0x0a.
Definition LIBUSB_TRANSFER_TYPE_BULK : Z := 2.
Definition LIBUSB_ENDPOINT_IN : Z := 0x80.
Definition LIBUSB_ENDPOINT_OUT : Z := 0.

Inductive transfer_status : Type :=
| TransferCompleted | TransferError | TransferTimedOut | TransferCancelled | TransferStall | TransferNoDevice | TransferOverflow.

(** error.h: [make_error_code_from_transfer]. *)
Definition make_error_code_from_transfer (s : transfer_status) : Z :=
  match s with
  | TransferError => LIBUSB_ERROR_IO
  | TransferTimedOut => LIBUSB_ERROR_TIMEOUT
  | TransferCancelled => LIBUSB_ERROR_INTERRUPTED
  | TransferNoDevice => LIBUSB_ERROR_NO_DEVICE
  | TransferOverflow => LIBUSB_ERROR_OVERFLOW
  | TransferStall => LIBUSB_ERROR_IO
  | TransferCompleted => LIBUSB_ERROR_OTHER
  end.

Record usb_endpoint : Type := mkUsbEndpoint { bmAttributes : Z; bEndpointAddress : Z; wMaxPacketSize : Z }.
Record altsetting : Type := mkAltsetting { bInterfaceClass : Z; altsetting_endpoints : list usb_endpoint }.

Inductive usb_call : Type :=
| Open (d : Z)
| ResetDevice
| KernelDriverActive (if_num : Z)
| DetachKernelDriver (if_num : Z)
| ClaimInterface (if_num : Z)
| ControlTransfer (request value : Z) (data : list Z)
| ClearHalt (address : Z)
| CloseHandle
| CancelTransfer (t : Z).

Class Libusb (D : Type) : Type := {
  usb : usb_call -> D -> Z * D;
  config_descriptor : D -> Z + list (list altsetting);
  bulk_in : Z -> D -> Z * list Z * D;
  bulk_out : list Z -> D -> Z * Z * D
}.

Inductive usb_error : Type := already_open | Libusb_error (code : Z).

(** ** Opening and closing *)

Section Device.
Context {D : Type} `{!Libusb D}.

(** The device and libusb, with the devices that [usb_context] knows as open. *)
Record usb_state : Type := mkState { impl : implementation_type; m_open_devices : list (option Z); lib : D }.

Definition usb_m (A : Type) : Type := usb_state -> A * usb_state.
#[export] Instance usb_ret : MRet usb_m := fun A a s => (a, s).
#[export] Instance usb_bind : MBind usb_m := fun A B f m s => let '(a, s1) := m s in f a s1.

Definition get {A} (f : implementation_type -> A) : usb_m A := fun s => (f (impl s), s).
Definition modify (f : implementation_type -> implementation_type) : usb_m unit :=
  fun s => (tt, mkState (f (impl s)) (m_open_devices s) (lib s)).
Definition libusb (c : usb_call) : usb_m Z :=
  fun s => let '(r, d) := usb c (lib s) in (r, mkState (impl s) (m_open_devices s) d).

Definition mark_open (d : option Z) : usb_m unit := fun s => (tt, mkState (impl s) (m_open_devices s ++ [d]) (lib s)).
Definition mark_not_open (d : option Z) : usb_m unit :=
  fun s => (tt, mkState (impl s) (List.filter (fun e => negb (bool_decide (e = d))) (m_open_devices s)) (lib s)).
Definition is_device_open (d : option Z) (s : usb_state) : bool := existsb (fun e => bool_decide (e = d)) (m_open_devices s).

Fixpoint each {A} (f : A -> usb_m unit) (l : list A) : usb_m unit :=
  match l with [] => mret tt | x :: l' => f x;; each f l' end.

Definition cancel : usb_m unit :=
  l ← get transfers;
  each (fun t => libusb (CancelTransfer t);; mret tt) l;;
  modify (set_transfers []).

Definition close : usb_m unit :=
  cancel;;
  h ← get handle;
  (match h with Some _ => libusb CloseHandle;; modify (set_handle None) | None => mret tt end);;
  modify (set_in 0 0);; modify (set_out 0 0);;
  modify (set_read_buffer empty_buffer);;
  modify (set_lines false false).

Definition destroy : usb_m unit :=
  d ← get device;
  mark_not_open d;; close.

Definition assign (d : Z) : usb_m unit :=
  close;; modify (set_device (Some d));; mark_open (Some d).

Definition is_open : usb_m bool := get (fun i => match handle i with Some _ => true | None => false end).

Definition send_control_transfer : usb_m bool :=
  o ← is_open;
  if negb o then mret false
  else
    i ← get (fun i => i);
    r ← libusb (ControlTransfer 0x22 (Z.lor (if dtr i then 0x01 else 0) (if rts i then 0x02 else 0)) []);
    mret (r =? LIBUSB_SUCCESS).

Definition send_encoding : usb_m bool :=
  o ← is_open;
  if negb o then mret false
  else
    data ← get control_line;
    r ← libusb (ControlTransfer 0x20 0 data);
    mret (r =? LIBUSB_SUCCESS).

(** The endpoints for bulk transfers; the last of a direction wins. *)
Definition consider_endpoint (i : implementation_type) (e : usb_endpoint) : implementation_type :=
  if negb (Z.land (bmAttributes e) LIBUSB_TRANSFER_TYPE_BULK =? 0) then
    if Z.land (bEndpointAddress e) LIBUSB_ENDPOINT_IN =? LIBUSB_ENDPOINT_IN then set_in (bEndpointAddress e) (wMaxPacketSize e) i
    else if Z.land (bEndpointAddress e) LIBUSB_ENDPOINT_OUT =? LIBUSB_ENDPOINT_OUT then set_out (bEndpointAddress e) (wMaxPacketSize e) i
    else i
  else i.

Definition consider_interface (k : nat * list altsetting) : usb_m unit :=
  each (fun a =>
    if negb (bInterfaceClass a =? LIBUSB_CLASS_DATA) then mret tt
    else
      libusb (ClaimInterface (Z.of_nat (fst k)));;
      modify (fun i => foldl consider_endpoint i (altsetting_endpoints a))) (snd k).

(** The two interfaces are taken from the kernel; the error of the first that
    fails ends the call. *)
Fixpoint claim (l : list Z) : usb_m (option usb_error) :=
  match l with
  | [] => mret None
  | if_num :: l' =>
      active ← libusb (KernelDriverActive if_num);
      r ← (if active =? 0 then mret 0 else libusb (DetachKernelDriver if_num));
      if (0 <? r) && negb (r =? LIBUSB_ERROR_NOT_SUPPORTED) then mret (Some (Libusb_error r))
      else
        r ← libusb (ClaimInterface if_num);
        if negb (r =? 0) then mret (Some (Libusb_error r)) else claim l'
  end.

Definition usable (i : implementation_type) : bool :=
  negb ((in_address i =? 0) || (out_address i =? 0) || (read_size i =? 0) || (write_size i =? 0)).

(** The end of [open]. *)
Definition start_device : usb_m unit :=
  libusb (ControlTransfer 0x22 0 []);; libusb (ControlTransfer 0x22 3 []);; libusb (ControlTransfer 0x22 0 []);;
  i ← get (fun i => i);
  libusb (ClearHalt (in_address i));; libusb (ClearHalt (out_address i));;
  send_control_transfer;; send_encoding;;
  mret tt.

(** [None] is success.  [libusb_open] sets the handle only when it succeeds. *)
Definition open : usb_m (option usb_error) :=
  h ← get handle;
  match h with
  | Some _ => mret (Some already_open)
  | None =>
      modify (set_in 0 0);; modify (set_out 0 0);;
      d ← get device;
      r ← libusb (Open (default 0 d));
      if negb (r =? LIBUSB_SUCCESS) then mret (Some (Libusb_error r))
      else
        modify (set_handle d);;
        mark_open d;;
        libusb ResetDevice;;
        e ← claim [0; 1];
        match e with
        | Some e => mret (Some e)
        | None =>
            c ← (fun s => (config_descriptor (lib s), s));
            match c with
            | inl r => mret (Some (Libusb_error r))
            | inr l =>
                each consider_interface (imap pair l);;
                ok ← get usable;
                if negb ok then close;; mret (Some (Libusb_error LIBUSB_ERROR_NOT_FOUND))
                else
                  start_device;; mret None
            end
        end
  end.

(** ** Settings *)

Definition set_baud_rate (br : Z) : usb_m bool :=
  modify (fun i => set_control_line
    (<[0%nat := Z.land br 0xff]> (<[1%nat := Z.land (Z.shiftr br 8) 0xff]> (<[2%nat := Z.land (Z.shiftr br 16) 0xff]>
      (<[3%nat := Z.land (Z.shiftr br 24) 0xff]> (control_line i))))) i);;
  send_encoding.
Definition set_stop_bits (x : Z) : usb_m bool := modify (fun i => set_control_line (<[4%nat := x]> (control_line i)) i);; send_encoding.
Definition set_parity (x : Z) : usb_m bool := modify (fun i => set_control_line (<[5%nat := x]> (control_line i)) i);; send_encoding.
Definition set_data_bits (x : Z) : usb_m bool := modify (fun i => set_control_line (<[6%nat := x]> (control_line i)) i);; send_encoding.
Definition set_data_terminal_ready (x : bool) : usb_m bool := modify (fun i => set_lines x (rts i) i);; send_control_transfer.
Definition set_rts (x : bool) : usb_m bool := modify (fun i => set_lines (dtr i) x i);; send_control_transfer.

(** ** Blocking transfers *)

Fixpoint write_some (buffers : list (list Z)) (total : Z) (d : D) : (Z + Z) * D :=
  match buffers with
  | [] => (inr total, d)
  | b :: buffers' =>
      let '(err, written, d) := bulk_out b d in
      if err =? LIBUSB_SUCCESS then write_some buffers' (total + written) d
      else if err =? LIBUSB_ERROR_TIMEOUT then (inr (total + written), d)
      else (inl err, d)
  end.
End Device.
Arguments usb_state : clear implicits.

(** [read_from_buffer]: destinations are filled as long as enough is there; the
    destinations that are left, what was copied, and the sum of the sizes. *)
Fixpoint read_from_buffer (l : list Z) (total : Z) (b : buffer) : list Z * list Z * Z * buffer :=
  match l with
  | [] => ([], [], total, b)
  | n :: l' =>
      if buf_s b <? n then (l, [], total, b)
      else
        let '(copied, b) := read n b in
        let '(rest, copied', total, b) := read_from_buffer l' (total + n) b in
        (rest, copied ++ copied', total, b)
  end.

Section Blocking.
Context {D : Type} `{!Libusb D}.

(** [read_some] fills the remaining destinations with one transfer each: what
    was copied, and the number that is returned or an error. *)
Fixpoint read_transfers {E} (read_size : Z) (l : list Z) (total : Z) (b : buffer) (d : D)
    : res E (list Z * (Z + Z) * buffer * D) :=
  match l with
  | [] => Ok ([], inr total, b, d)
  | n :: l' =>
      let b := reserve n read_size b in
      let '(err, bytes, d) := bulk_in (write_capacity b) d in
      b ← store bytes b;
      if (err =? LIBUSB_SUCCESS) || (err =? LIBUSB_ERROR_TIMEOUT) then
        let '(copied, b) := read n (commit (len bytes) b) in
        if err =? LIBUSB_ERROR_TIMEOUT then Ok (copied, inr (total + len bytes), b, d)
        else
          '(copied', r, b, d) ← read_transfers read_size l' (total + len bytes) b d;
          Ok (copied ++ copied', r, b, d)
      else Ok ([], inl err, b, d)
  end.

Definition read_some {E} (i : implementation_type) (l : list Z) (d : D) : res E (list Z * (Z + Z) * implementation_type * D) :=
  let '(rest, copied, total, b) := read_from_buffer l 0 (read_buffer i) in
  '(copied', r, b, d) ← read_transfers (read_size i) rest total b d;
  Ok (copied ++ copied', r, set_read_buffer b i, d).
End Blocking.

(** *** [usb_device]

    The members of [usb_device] call those of the service.  An error is thrown;
    the overloads with an error code call the ones that throw. *)
Section Wrappers.
Context {D : Type} `{!Libusb D}.

Definition value_or_throw {A} (r : A * (Z + Z)) : res Z (A * Z) :=
  match r with (x, inr n) => Ok (x, n) | (_, inl e) => Throw e end.

Definition device_write_some (buffers : list (list Z)) (d : D) : res Z Z * D :=
  let '(r, d) := write_some buffers 0 d in
  (x ← value_or_throw (tt, r); Ok (snd x), d).

(** The number that is returned, and the error code that the caller passed. *)
Definition device_write_some_ec (buffers : list (list Z)) (ec : Z) (d : D) : res Z (Z * Z) * D :=
  let '(r, d) := device_write_some buffers d in
  (n ← r; Ok (n, ec), d).

Definition device_read_some (i : implementation_type) (l : list Z) (d : D) : res Z (list Z * Z * implementation_type * D) :=
  '(copied, r, i, d) ← read_some i l d;
  '(copied, n) ← value_or_throw (copied, r);
  Ok (copied, n, i, d).

Definition device_read_some_ec (i : implementation_type) (l : list Z) (ec : Z) (d : D) : res Z (list Z * Z * Z * implementation_type * D) :=
  '(copied, n, i, d) ← device_read_some i l d;
  Ok (copied, n, ec, i, d).

(** Observed: the overload with an error code never sets it; it throws the
    error of the transfer. *)
Lemma write_some_never_reports buffers ec d :
  match fst (device_write_some_ec buffers ec d) with
  | Ok (_, ec') => ec' = ec
  | Throw e => fst (write_some buffers 0 d) = inl e
  | _ => False
  end.
Proof. unfold device_write_some_ec, device_write_some. by destruct (write_some buffers 0 d) as [[e|n] d']. Qed.
End Wrappers.

(** [usb_device_name]: what libusb gives of the string of the product, without
    the white space at its end; a number that is not positive is an error. *)
Definition isspace (ch : Z) : bool := ((9 <=? ch) && (ch <=? 13)) || (ch =? 32).

Fixpoint drop_spaces (l : list Z) : list Z :=
  match l with ch :: l' => if isspace ch then drop_spaces l' else l | [] => [] end.

Definition usb_device_name (i : implementation_type) (string_descriptor : Z * list Z) : list Z :=
  match handle i with
  | None => []
  | Some _ =>
      let '(l, s) := string_descriptor in
      if l <=? 0 then [] else rev (drop_spaces (rev (resize (Z.to_nat l) 0 (resize 256 0 s))))
  end.

Definition usb_device_address (i : implementation_type) (address : Z) : Z := match handle i with None => -1 | Some _ => address end.

Lemma drop_spaces_suffix l : exists sp, l = sp ++ drop_spaces l /\ forallb isspace sp = true /\
  match drop_spaces l with ch :: _ => isspace ch = false | [] => True end.
Proof.
  induction l as [|ch l (sp & He & Hs & Hh)]; [by exists []|]. cbn [drop_spaces]. destruct (isspace ch) eqn:E.
  - exists (ch :: sp). cbn [app forallb]. by rewrite E, <- He.
  - exists []. by split_and!.
Qed.

(** A name ends with a character that is not a space, and only spaces were cut. *)
Lemma device_name_trimmed i l s : handle i <> None -> 0 < l <= 256 -> List.length s = Z.to_nat l ->
  exists sp, s = usb_device_name i (l, s) ++ sp /\ forallb isspace sp = true /\
    match last (usb_device_name i (l, s)) with Some ch => isspace ch = false | None => True end.
Proof.
  intros Hi Hl Hs. unfold usb_device_name. destruct (handle i); [|done]. rewrite (proj2 (Z.leb_gt l 0)) by lia.
  assert (resize (Z.to_nat l) 0 (resize 256 0 s) = s) as ->.
  { rewrite (resize_ge s 256) by lia. rewrite resize_le by (rewrite length_app; lia). by rewrite <- Hs, take_app_length. }
  destruct (drop_spaces_suffix (rev s)) as (sp & He & Hsp & Hh). exists (rev sp). split; [|split].
  - rewrite <- rev_app_distr, <- He. by rewrite rev_involutive.
  - rewrite forallb_forall in *. intros x Hx. apply Hsp. by apply in_rev.
  - destruct (drop_spaces (rev s)) as [|ch m]; [done|]. cbn [rev]. by rewrite last_snoc.
Qed.

(** ** Properties *)

Section Properties.
Context {D : Type} `{!Libusb D}.

(** What a computation leaves as it is. *)
Definition keeps_impl {A B} (f : implementation_type -> B) (m : usb_m (D:=D) A) : Prop :=
  forall s, f (impl (snd (m s))) = f (impl s).

Lemma usb_keeps_ret {A B} (f : implementation_type -> B) (x : A) : keeps_impl f (mret x).
Proof. by intros s. Qed.

Lemma usb_keeps_bind {A B C} (f : implementation_type -> C) (m : usb_m A) (k : A -> usb_m B) :
  keeps_impl f m -> (forall x, keeps_impl f (k x)) -> keeps_impl f (m ≫= k).
Proof. intros Hm Hk s. cbv [mbind usb_bind]. specialize (Hm s). destruct (m s) as [x s1]. cbn in Hm. by rewrite (Hk x s1). Qed.

Lemma keeps_get {A B} (f : implementation_type -> B) (g : implementation_type -> A) : keeps_impl f (get (D:=D) g).
Proof. by intros s. Qed.

Lemma keeps_libusb {B} (f : implementation_type -> B) c : keeps_impl f (libusb c).
Proof. intros s. unfold libusb. by destruct (usb c (lib s)). Qed.

Lemma usb_keeps_modify {B} (f : implementation_type -> B) g : (forall i, f (g i) = f i) -> keeps_impl f (modify (D:=D) g).
Proof. intros H s. apply H. Qed.

Lemma keeps_each {A B} (f : implementation_type -> B) (k : A -> usb_m unit) l : (forall x, keeps_impl f (k x)) -> keeps_impl f (each k l).
Proof. intros Hk. induction l as [|x l IH]; [apply usb_keeps_ret|]. cbn [each]. by apply usb_keeps_bind. Qed.

Lemma keeps_claim {B} (f : implementation_type -> B) l : keeps_impl f (claim l).
Proof.
  induction l as [|x l IH]; [apply usb_keeps_ret|]. cbn [claim]. apply usb_keeps_bind; [apply keeps_libusb|intros a].
  apply usb_keeps_bind; [destruct (a =? 0); [apply usb_keeps_ret|apply keeps_libusb]|intros r]. destruct (_ && _); [apply usb_keeps_ret|].
  apply usb_keeps_bind; [apply keeps_libusb|intros r2]. destruct (negb _); [apply usb_keeps_ret|exact IH].
Qed.

Lemma keeps_control {B} (f : implementation_type -> B) : keeps_impl f send_control_transfer.
Proof.
  apply usb_keeps_bind; [apply keeps_get|intros []]; [|apply usb_keeps_ret]. apply usb_keeps_bind; [apply keeps_get|intros i].
  apply usb_keeps_bind; [apply keeps_libusb|intros r; apply usb_keeps_ret].
Qed.

Lemma keeps_encoding {B} (f : implementation_type -> B) : keeps_impl f send_encoding.
Proof.
  apply usb_keeps_bind; [apply keeps_get|intros []]; [|apply usb_keeps_ret]. apply usb_keeps_bind; [apply keeps_get|intros i].
  apply usb_keeps_bind; [apply keeps_libusb|intros r; apply usb_keeps_ret].
Qed.

Lemma keeps_start {B} (f : implementation_type -> B) : keeps_impl f start_device.
Proof.
  repeat first [apply keeps_libusb | apply keeps_control | apply keeps_encoding | apply keeps_get | apply usb_keeps_ret | apply usb_keeps_bind; [|intros]].
Qed.

Lemma consider_handle i e : handle (consider_endpoint i e) = handle i /\ device (consider_endpoint i e) = device i.
Proof. unfold consider_endpoint. by repeat case_match. Qed.

Lemma keeps_interface k : keeps_impl handle (consider_interface k) /\ keeps_impl device (consider_interface k).
Proof.
  assert (forall l i, handle (foldl consider_endpoint i l) = handle i /\ device (foldl consider_endpoint i l) = device i) as H.
  { intros l. induction l as [|e l IH]; intros i; [done|]. cbn [foldl]. destruct (IH (consider_endpoint i e)) as [-> ->]. apply consider_handle. }
  split; apply keeps_each; intros a; destruct (negb _); try apply usb_keeps_ret; apply usb_keeps_bind; try apply keeps_libusb; intros _;
    apply usb_keeps_modify; intros i; apply H.
Qed.
End Properties.

Section Opened.
Context {D : Type} `{!Libusb D}.

Lemma bind_run {A B} (m : usb_m (D:=D) A) (k : A -> usb_m B) s : (m ≫= k) s = k (fst (m s)) (snd (m s)).
Proof. cbv [mbind usb_bind]. by destruct (m s). Qed.

(** A device that was opened has its handle, and endpoints for both directions
    with packets that are not empty. *)
Lemma open_usable s s' : open s = (None, s') -> usable (impl s') = true /\ handle (impl s') = device (impl s) /\ handle (impl s) = None.
Proof.
  unfold open. rewrite bind_run. cbn [fst snd get]. destruct (handle (impl s)) as [h|] eqn:Eh; [done|].
  rewrite !bind_run. cbn [fst snd get modify impl set_in set_out device].
  destruct (libusb _ _) as [r s1] eqn:E1. cbn [fst snd]. destruct (negb _); [done|]. rewrite !bind_run.
  assert (device (impl s1) = device (impl s)) as Hd1.
  { pose proof (keeps_libusb device (Open (default 0 (device (impl s)))) (mkState (set_out 0 0 (set_in 0 0 (impl s))) (m_open_devices s) (lib s))) as H.
    unfold modify in E1. cbn [impl m_open_devices lib] in E1. by rewrite E1 in H. }
  match goal with |- context [claim [0; 1] ?s0] => set (s2 := s0); pose proof (keeps_claim handle [0; 1] s2) as Hc end.
  assert (handle (impl s2) = device (impl s)) as H2 by (unfold s2; rewrite (keeps_libusb handle); cbn; done).
  destruct (claim [0; 1] s2) as [[e|] s3]; [done|]. cbn [fst snd] in *. rewrite bind_run. cbn [fst snd].
  destruct (config_descriptor (lib s3)) as [r3|l]; [done|]. rewrite !bind_run.
  match goal with |- context [each consider_interface ?l s3] => assert (keeps_impl handle (each consider_interface l)) as Hi by (apply keeps_each; intros; apply keeps_interface); specialize (Hi s3); set (s4 := snd (each consider_interface l s3)) in * end.
  cbn [fst snd get]. destruct (usable (impl s4)) eqn:Eu; cbn [negb]; rewrite bind_run; [|done]. intros [= <-].
  rewrite (keeps_start usable), (keeps_start handle), Eu, Hi, Hc, H2. done.
Qed.

(** The layout of the settings of a line: rate, stop bits, parity, data bits. *)
Lemma line_coding s br stop par bits : 0 <= br < 2 ^ 32 -> List.length (control_line (impl s)) = 7%nat ->
  control_line (impl (snd ((set_baud_rate br;; set_stop_bits stop;; set_parity par;; set_data_bits bits) s)))
  = [br mod 256; br / 256 mod 256; br / 65536 mod 256; br / 16777216; stop; par; bits].
Proof.
  intros Hbr Hlen. rewrite !bind_run. unfold set_data_bits at 1, set_parity at 1, set_stop_bits at 1, set_baud_rate at 1.
  rewrite !bind_run, !(keeps_encoding control_line). cbn [fst snd modify impl control_line set_control_line].
  rewrite !(keeps_encoding control_line). cbn [fst snd modify impl control_line set_control_line].
  destruct (control_line (impl s)) as [|a0 [|a1 [|a2 [|a3 [|a4 [|a5 [|a6 [|]]]]]]]]; try discriminate Hlen. cbn.
  rewrite !land_255, !Z.shiftr_div_pow2 by lia. change (2 ^ 8) with 256. change (2 ^ 16) with 65536. change (2 ^ 24) with 16777216.
  rewrite (Z.mod_small (br / 16777216)); [done|]. split; [apply Z.div_pos; lia|apply Z.div_lt_upper_bound; lia].
Qed.
End Opened.
