(* ===== verification/UsbTransfer.v ===== *)
(** * Asynchronous transfers of USB devices

    thymio-device-manager/usbdevice.h: [async_transfer_some] and the callback
    that it gives to libusb.  The transfers that libusb works on are a list;
    their completions, in any order, are events, and so are the results of
    [libusb_submit_transfer].  The callbacks of libusb run in another thread,
    as if each ran alone. *)
From Stdlib Require Import ZArith Lia List.
From stdpp Require Import base list list_monad.
From S2P Require Import Prelude Bits UsbDevice.

Local Open Scope Z_scope.

(** ** State *)

(** The sizes of the destinations of a read, or the buffers of a write. *)
Inductive buffers : Type := Reading (l : list Z) | Writing (l : list (list Z)).

Record transfer_data : Type := mkTransferData { td_seq : buffers; td_idx : nat; total_transfered : Z; td_handler : Z }.

(** A transfer that was submitted; [fl_buffer] is the number of its buffer in
    the pool, if it reads. *)
Record flight : Type := mkFlight { fl_id : Z; fl_data : transfer_data; fl_buffer : option Z }.

Record usb_device : Type := mkUsb {
  u_impl : implementation_type;
  m_transfer_pool : list Z;
  in_flight : list flight;
  fresh : Z
}.

Definition new_device (i : implementation_type) : usb_device := mkUsb i [] [] 0.

Inductive usb_effect : Type :=
| Copied (h : Z) (bytes : list Z)
| Submitted (t : Z) (address capacity : Z)
| PostHandler (h : Z) (ec : option Z) (total : Z).

Definition set_impl x u := mkUsb x (m_transfer_pool u) (in_flight u) (fresh u).
Definition set_in_flight x u := mkUsb (u_impl u) (m_transfer_pool u) x (fresh u).

Definition result : Type := res unit (usb_device * list usb_effect).

(** ** Transfers and buffers *)

Definition alloc_transfer (u : usb_device) : Z * usb_device :=
  match m_transfer_pool u with
  | [] => (fresh u, mkUsb (u_impl u) [] (in_flight u) (fresh u + 1))
  | t :: pool => (t, mkUsb (u_impl u) pool (in_flight u) (fresh u))
  end.
Definition free_transfer (t : Z) (u : usb_device) : usb_device := mkUsb (u_impl u) (m_transfer_pool u ++ [t]) (in_flight u) (fresh u).

(** [detail::alloc_buffer]: a buffer that is marked as free, or a new one. *)
Definition alloc_buffer (size : Z) (u : usb_device) : Z * buffer * usb_device :=
  let i := u_impl u in
  match List.find (fun e => snd (snd e)) (buffers_pool i) with
  | Some (k, (b, _)) =>
      let b := reserve size (read_size i) b in
      (k, b, set_impl (set_buffers_pool (List.map (fun e => if fst e =? k then (k, (b, false)) else e) (buffers_pool i)) i) u)
  | None =>
      let k := fresh u in
      let b := reserve size (read_size i) empty_buffer in
      (k, b, mkUsb (set_buffers_pool (buffers_pool i ++ [(k, (b, false))]) i) (m_transfer_pool u) (in_flight u) (k + 1))
  end.

Definition pool_has (k : Z) (i : implementation_type) : bool := existsb (fun e => fst e =? k) (buffers_pool i).
Definition erase_buffer (k : Z) (i : implementation_type) : implementation_type :=
  set_buffers_pool (List.filter (fun e => negb (fst e =? k)) (buffers_pool i)) i.

(** [detail::commit_buffer]. *)
Definition commit_buffer (k : Z) (bytes : list Z) (i : implementation_type) : res unit implementation_type :=
  _ ← assert_ (pool_has k i);
  b ← store bytes (reserve (read_size i) (len bytes) (read_buffer i));
  Ok (erase_buffer k (set_read_buffer (commit (len bytes) b) i)).

(** [detail::release]; the buffer of a write is in no pool. *)
Definition release (k : option Z) (i : implementation_type) : res unit implementation_type :=
  match k with
  | Some k => _ ← assert_ (pool_has k i); Ok (erase_buffer k i)
  | None => Crash
  end.

Definition sum (l : list Z) : Z := foldr Z.add 0 l.

(** [detail::prepare_transfer]: the buffer of the transfer, its address and its
    size. *)
Definition prepare_transfer (d : transfer_data) (u : usb_device) : option Z * Z * Z * usb_device :=
  match td_seq d with
  | Reading l =>
      let '(k, b, u) := alloc_buffer (sum (drop (td_idx d) l)) u in
      (Some k, in_address (u_impl u), write_capacity b, u)
  | Writing l => (None, out_address (u_impl u), match l !! td_idx d with Some b => len b | None => 0 end, u)
  end.

(** A transfer that was prepared is given to libusb. *)
Definition submit (t : Z) (d : transfer_data) (k : option Z) (u : usb_device) : usb_device :=
  set_in_flight (in_flight u ++ [mkFlight t d k]) (set_impl (set_transfers (transfers (u_impl u) ++ [t]) (u_impl u)) u).

(** ** [async_transfer_some] *)

Definition start_transfer (d : transfer_data) (copied : list Z) (submitted : Z) (u : usb_device) : usb_device * list usb_effect :=
  let '(t, u) := alloc_transfer u in
  let '(k, address, capacity, u) := prepare_transfer d u in
  if submitted =? LIBUSB_SUCCESS then (submit t d k u, [Copied (td_handler d) copied; Submitted t address capacity])
  else (free_transfer t u, [Copied (td_handler d) copied; PostHandler (td_handler d) (Some submitted) 0]).

Definition async_read_some (h : Z) (l : list Z) (submitted : Z) (u : usb_device) : usb_device * list usb_effect :=
  let '(rest, copied, total, b) := read_from_buffer l 0 (read_buffer (u_impl u)) in
  let u := set_impl (set_read_buffer b (u_impl u)) u in
  match rest with
  | [] => (u, [Copied h copied; PostHandler h None total])
  | _ => start_transfer (mkTransferData (Reading l) (List.length l - List.length rest) total h) copied submitted u
  end.

Definition async_write_some (h : Z) (l : list (list Z)) (submitted : Z) (u : usb_device) : usb_device * list usb_effect :=
  start_transfer (mkTransferData (Writing l) 0 0 h) [] submitted u.

(** ** The callback *)

(** What is left to transfer; the result of submitting again is not looked at,
    and a transfer that is refused is never heard of again. *)
Definition continue (t : Z) (d : transfer_data) (copied : list Z) (submitted : Z) (u : usb_device) : result :=
  let '(k, address, capacity, u) := prepare_transfer d u in
  let u' := submit t d k u in
  Ok (if submitted =? LIBUSB_SUCCESS then (u', [Copied (td_handler d) copied; Submitted t address capacity])
      else (set_in_flight (in_flight u) u', [Copied (td_handler d) copied])).

Definition finish (t : Z) (d : transfer_data) (copied : list Z) (ec : option Z) (u : usb_device) : result :=
  Ok (free_transfer t u, [Copied (td_handler d) copied; PostHandler (td_handler d) ec (total_transfered d)]).

Definition find_flight (t : Z) (u : usb_device) : option flight := List.find (fun f => fl_id f =? t) (in_flight u).
Definition remove_flight (t : Z) (u : usb_device) : usb_device :=
  let i := u_impl u in
  set_in_flight (List.filter (fun f => negb (fl_id f =? t)) (in_flight u))
    (set_impl (set_transfers (List.filter (fun x => negb (x =? t)) (transfers i)) i) u).

(** [bytes] are what was received; a write only counts them. *)
Definition on_completion (t : Z) (s : transfer_status) (bytes : list Z) (submitted : Z) (u : usb_device) : result :=
  match find_flight t u with
  | None => Ok (u, [])
  | Some f =>
      let d := fl_data f in
      let u := remove_flight t u in
      match s, td_seq d with
      | TransferCompleted, Reading l =>
          match fl_buffer f with
          | Some k =>
              i ← commit_buffer k bytes (u_impl u);
              let '(rest, copied, total, b) := read_from_buffer (drop (td_idx d) l) (total_transfered d) (read_buffer i) in
              let u := set_impl (set_read_buffer b i) u in
              let d := mkTransferData (Reading l) (List.length l - List.length rest) total (td_handler d) in
              match rest with
              | [] => finish t d copied None u
              | _ => continue t d copied submitted u
              end
          | None => Crash
          end
      | TransferCompleted, Writing l =>
          let d := mkTransferData (Writing l) (S (td_idx d)) (len bytes) (td_handler d) in
          if (td_idx d <? List.length l)%nat then continue t d [] submitted u else finish t d [] None u
      | _, _ =>
          i ← release (fl_buffer f) (u_impl u);
          finish t d [] (Some (make_error_code_from_transfer s)) (set_impl i u)
      end
  end.

(** ** What happens on a device *)

Inductive event : Type :=
| AsyncRead (h : Z) (l : list Z) (submitted : Z)
| AsyncWrite (h : Z) (l : list (list Z)) (submitted : Z)
| Completion (t : Z) (s : transfer_status) (bytes : list Z) (submitted : Z)
| CancelAll.

Definition step (e : event) (u : usb_device) : result :=
  match e with
  | AsyncRead h l r => Ok (async_read_some h l r u)
  | AsyncWrite h l r => Ok (async_write_some h l r u)
  | Completion t s bytes r => on_completion t s bytes r u
  | CancelAll => Ok (set_impl (set_transfers [] (u_impl u)) u, [])
  end.

Fixpoint steps (l : list event) (u : usb_device) : result :=
  match l with
  | [] => Ok (u, [])
  | e :: l' =>
      '(u, e1) ← step e u;
      '(u, e2) ← steps l' u;
      Ok (u, e1 ++ e2)
  end.
