(* ===== verification/UsbStream.v ===== *)
(** * What an USB device guarantees to its reader

    However the transfers are cut and whoever waits for them, the bytes that
    the readers get are the bytes that were received, in order; a reader that
    is called without an error has got all that it asked for.  One reader at a
    time that asks for a moderate number of bytes never overruns a buffer. *)
From Stdlib Require Import ZArith Lia List.
From stdpp Require Import base list list_monad.
From S2P Require Import Prelude Bits UsbDevice UsbTransfer.

Local Open Scope Z_scope.

(** ** The buffer as a queue of bytes *)

(** The bytes that were committed. *)
Definition contents (b : buffer) : list Z := take (Z.to_nat (buf_s b)) (buf_v b).

Definition buffer_ok (b : buffer) : Prop := 0 <= buf_s b <= len (buf_v b).

Lemma size_t_id z : 0 <= z < 2 ^ 64 -> size_t z = z.
Proof. apply Z.mod_small. Qed.

Lemma len_app {A} (l k : list A) : len (l ++ k) = len l + len k.
Proof. unfold len. rewrite length_app. lia. Qed.

Lemma len_nonneg {A} (l : list A) : 0 <= len l.
Proof. unfold len. lia. Qed.

Lemma len_contents b : buffer_ok b -> len (contents b) = buf_s b.
Proof. unfold buffer_ok, contents, len. rewrite length_take. lia. Qed.

(** The size of the vector after [reserve]. *)
Definition reserved (size buffer_size s : Z) : Z :=
  let n := Z.max (50 * buffer_size) 1 in (s + size + n - 1) / n * n.

Lemma reserved_spec size buffer_size s : 0 <= size -> 0 <= buffer_size -> 0 <= s ->
  s + size <= reserved size buffer_size s < s + size + Z.max (50 * buffer_size) 1 /\
  (0 < s + size -> Z.max (50 * buffer_size) 1 <= reserved size buffer_size s).
Proof.
  intros H1 H2 H3. unfold reserved. set (n := Z.max (50 * buffer_size) 1). assert (0 < n) as Hn by lia.
  pose proof (Z.div_mod (s + size + n - 1) n). pose proof (Z.mod_pos_bound (s + size + n - 1) n).
  split; [lia|]. intros Hpos. assert (1 <= (s + size + n - 1) / n); [|nia]. apply Z.div_le_lower_bound; lia.
Qed.

Lemma reserve_eq size buffer_size b : buffer_ok b -> 0 <= size -> 0 <= buffer_size ->
  buf_s b + size + 50 * buffer_size < 2 ^ 63 ->
  contents (reserve size buffer_size b) = contents b /\ buf_s (reserve size buffer_size b) = buf_s b /\
  len (buf_v (reserve size buffer_size b)) = reserved size buffer_size (buf_s b).
Proof.
  intros Hb H1 H2 H3. unfold buffer_ok in Hb. pose proof (reserved_spec size buffer_size (buf_s b)) as Hr. unfold reserve, reserved in *.
  rewrite (size_t_id (50 * buffer_size)) by lia. set (n := Z.max (50 * buffer_size) 1) in *. cbn [buf_s buf_v].
  rewrite (size_t_id (buf_s b + size + n - 1)) by lia. rewrite size_t_id by lia.
  set (r := (buf_s b + size + n - 1) / n * n) in *. destruct Hr as [Hr _]; [lia..|]. unfold contents, len. cbn [buf_s buf_v].
  rewrite length_resize. split; [|split; [done|lia]]. rewrite take_resize_le by lia.
  unfold len in Hb. rewrite resize_le by lia. done.
Qed.

Lemma read_eq n b : buffer_ok b -> 0 <= n <= buf_s b -> buf_s b < 2 ^ 64 ->
  let '(copied, b') := read n b in
  contents b = copied ++ contents b' /\ buffer_ok b' /\ len copied = n /\ buf_s b' = buf_s b - n.
Proof.
  intros Hb Hn Hs. unfold buffer_ok in Hb. unfold read, contents, buffer_ok. rewrite Z.min_l by lia. cbn [buf_v buf_s]. rewrite size_t_id by lia.
  unfold len in *. rewrite length_take, length_drop. split; [|split; [lia|split; lia]].
  rewrite take_drop_commute. replace (Z.to_nat n + Z.to_nat (buf_s b - n))%nat with (Z.to_nat (buf_s b)) by lia.
  rewrite <- (take_drop (Z.to_nat n) (take (Z.to_nat (buf_s b)) (buf_v b))) at 1. rewrite take_take. do 2 f_equal. lia.
Qed.

Lemma store_eq {E} bytes b b' : buffer_ok b -> buf_s b + len bytes < 2 ^ 64 -> store (E:=E) bytes b = Ok b' ->
  contents (commit (len bytes) b') = contents b ++ bytes /\ buffer_ok (commit (len bytes) b') /\
  buf_s (commit (len bytes) b') = buf_s b + len bytes.
Proof.
  intros Hb Hs. unfold buffer_ok in Hb. unfold store. destruct (Z.leb_spec (buf_s b + len bytes) (len (buf_v b))); [|done]. intros [= <-].
  pose proof (len_nonneg bytes). unfold commit, contents, buffer_ok. cbn [buf_s buf_v]. rewrite size_t_id by lia.
  assert (len (take (Z.to_nat (buf_s b)) (buf_v b)) = buf_s b) as Ht by (unfold len in *; rewrite length_take; lia). split.
  - rewrite app_assoc. apply take_app_length'. rewrite length_app. unfold len in *. lia.
  - split; [|done]. rewrite !len_app, Ht. pose proof (len_nonneg (drop (Z.to_nat (buf_s b + len bytes)) (buf_v b))). lia.
Qed.

Definition sizes_ok (l : list Z) : Prop := Forall (fun n => 0 <= n) l.

Lemma sum_app l k : sum (l ++ k) = sum l + sum k.
Proof. unfold sum. induction l as [|x l IH]; cbn; lia. Qed.

Lemma sum_nonneg l : sizes_ok l -> 0 <= sum l.
Proof. unfold sum. induction 1 as [|x l Hx _ IH]; cbn; lia. Qed.

(** Destinations are filled from the front of the queue. *)
Lemma read_from_buffer_eq l total b rest copied total' b' : sizes_ok l -> buffer_ok b -> buf_s b < 2 ^ 64 ->
  read_from_buffer l total b = (rest, copied, total', b') ->
  contents b = copied ++ contents b' /\ buffer_ok b' /\ total' = total + len copied /\
  exists filled, l = filled ++ rest /\ len copied = sum filled /\ buf_s b' = buf_s b - len copied /\
  match rest with [] => True | n :: _ => buf_s b' < n end.
Proof.
  intros Hl. revert total b copied total'. induction Hl as [|n l Hn _ IH]; intros total b copied total' Hb Hs; cbn [read_from_buffer].
  - intros [= <- <- <- <-]. split_and!; [done..|unfold len; cbn; lia|]. exists []. split_and!; try done; unfold len; cbn; lia.
  - destruct (Z.ltb_spec (buf_s b) n) as [Hlt|Hge].
    + intros [= <- <- <- <-]. split_and!; [done..|unfold len; cbn; lia|]. exists []. split_and!; try done; unfold len; cbn; lia.
    + pose proof (read_eq n b Hb) as Hr. destruct (read n b) as [c b1] eqn:E1. destruct Hr as (Hc & Hb1 & Hn1 & Hs1); [lia..|].
      destruct (read_from_buffer l (total + n) b1) as [[[r c2] t2] b2] eqn:E2. intros [= <- <- <- <-].
      destruct (IH _ _ _ _ Hb1 ltac:(lia) E2) as (Hc2 & Hb2 & Ht2 & f & -> & Hf & Hs2 & Hrest).
      rewrite Hc, Hc2, len_app. split_and!; [by rewrite app_assoc|done|lia|]. exists (n :: f).
      split_and!; [done|unfold sum in *; cbn; lia|lia|done].
Qed.

(** ** What happens, and to whom *)

Definition copied (e : list usb_effect) : list Z :=
  List.flat_map (fun x => match x with Copied _ b => b | _ => [] end) e.
Definition delivered (h : Z) (e : list usb_effect) : list Z :=
  List.flat_map (fun x => match x with Copied h' b => if h' =? h then b else [] | _ => [] end) e.

(** A transfer that somebody waits for. *)
Definition waiting : Type := Z * buffers * Z.
Definition waiter (f : flight) : waiting := (td_handler (fl_data f), td_seq (fl_data f), total_transfered (fl_data f)).

(** Whom an event concerns. *)
Definition acting (e : event) (u : usb_device) : option waiting :=
  match e with
  | AsyncRead h l _ => Some (h, Reading l, 0)
  | AsyncWrite h l _ => Some (h, Writing l, 0)
  | Completion t _ _ _ => option_map waiter (find_flight t u)
  | CancelAll => None
  end.

(** The bytes that come with an event. *)
Definition received (e : event) (u : usb_device) : list Z :=
  match e with
  | Completion t TransferCompleted bytes _ =>
      match find_flight t u with
      | Some f => match td_seq (fl_data f) with Reading _ => bytes | Writing _ => [] end
      | None => []
      end
  | _ => []
  end.

Definition waiting_ok (w : waiting) : Prop :=
  match w with
  | (_, Reading l, t) => sizes_ok l /\ exists k, t = sum (take k l)
  | _ => True
  end.

Definition flight_ok (f : flight) : Prop :=
  match td_seq (fl_data f) with
  | Reading l => sizes_ok l /\ (td_idx (fl_data f) <= List.length l)%nat /\ total_transfered (fl_data f) = sum (take (td_idx (fl_data f)) l)
  | Writing _ => True
  end.

Record device_ok (u : usb_device) : Prop := {
  queue_ok : buffer_ok (read_buffer (u_impl u));
  size_ok : 0 <= read_size (u_impl u) < 2 ^ 20;
  flights_ok : Forall flight_ok (in_flight u)
}.

Definition event_ok (e : event) : Prop := match e with AsyncRead _ l _ => sizes_ok l | _ => True end.

Definition queue (u : usb_device) : list Z := contents (read_buffer (u_impl u)).
Definition queued (u : usb_device) : Z := buf_s (read_buffer (u_impl u)).

(** What a step does for the one that it concerns, [w]: it copies some bytes,
    and then either goes on waiting, with the count brought up to date, or
    calls the handler; a reader is called without an error only when it has
    everything. *)
Definition served (w : waiting) (u u' : usb_device) (others : list flight) (e : list usb_effect) : Prop :=
  let '(h, s, t) := w in
  exists c rest, e = Copied h c :: rest /\ copied rest = [] /\
  ((in_flight u' = others /\ (forall h' t', PostHandler h' None t' ∈ rest -> h' = h /\
      match s with Reading l => t' = sum l /\ t' = t + len c | Writing _ => True end)) \/
   (exists f t', in_flight u' = others ++ [f] /\ waiter f = (h, s, t') /\ (forall h' ec k, PostHandler h' ec k ∉ rest) /\
      match s with Reading _ => t' = t + len c | Writing _ => True end)).

(** Preparing a transfer does not touch the queue. *)
Lemma alloc_buffer_keeps size u : let '(_, _, u') := alloc_buffer size u in
  read_buffer (u_impl u') = read_buffer (u_impl u) /\ read_size (u_impl u') = read_size (u_impl u) /\ in_flight u' = in_flight u.
Proof. unfold alloc_buffer. by destruct (List.find _ _) as [[k [b m]]|]. Qed.

Lemma prepare_keeps d u : let '(_, _, _, u') := prepare_transfer d u in
  read_buffer (u_impl u') = read_buffer (u_impl u) /\ read_size (u_impl u') = read_size (u_impl u) /\ in_flight u' = in_flight u.
Proof.
  unfold prepare_transfer. destruct (td_seq d) as [l|l]; [|done].
  pose proof (alloc_buffer_keeps (sum (drop (td_idx d) l)) u) as H. by destruct (alloc_buffer _ _) as [[k b] u'].
Qed.

Lemma alloc_transfer_keeps u : u_impl (snd (alloc_transfer u)) = u_impl u /\ in_flight (snd (alloc_transfer u)) = in_flight u.
Proof. unfold alloc_transfer. by destruct (m_transfer_pool u). Qed.

Definition same_queue (u u' : usb_device) : Prop :=
  read_buffer (u_impl u') = read_buffer (u_impl u) /\ read_size (u_impl u') = read_size (u_impl u).

Lemma start_served d c r u : let '(u', e) := start_transfer d c r u in
  same_queue u u' /\ copied e = c /\
  (in_flight u' = in_flight u /\ (forall h t, PostHandler h None t ∉ e) \/
   (exists k f, in_flight u' = in_flight u ++ [f] /\ f = mkFlight k d (fl_buffer f) /\ forall h ec t, PostHandler h ec t ∉ e)) /\
  exists rest, e = Copied (td_handler d) c :: rest /\ copied rest = [].
Proof.
  unfold start_transfer. pose proof (alloc_transfer_keeps u) as [H1 H2]. destruct (alloc_transfer u) as [t u1]. cbn [snd] in *.
  pose proof (prepare_keeps d u1) as H3. destruct (prepare_transfer d u1) as [[[k a] cap] u2]. destruct H3 as (H3 & H4 & H5).
  destruct (r =? LIBUSB_SUCCESS); (split; [by split; cbn; congruence|]); (split; [cbn; by rewrite app_nil_r|]); split; try (eexists; split; [reflexivity|done]).
  - right. exists t, (mkFlight t d k). cbn. split; [congruence|]. split; [done|]. intros h ec t' [?|[?|?%elem_of_nil]%elem_of_cons]%elem_of_cons; congruence.
  - left. cbn. split; [congruence|]. intros h t' [?|[?|?%elem_of_nil]%elem_of_cons]%elem_of_cons; congruence.
Qed.

Lemma continue_served t d c r u u' e : continue t d c r u = Ok (u', e) ->
  same_queue u u' /\ copied e = c /\
  (in_flight u' = in_flight u \/ (exists k, in_flight u' = in_flight u ++ [mkFlight t d k])) /\
  (forall h ec t, PostHandler h ec t ∉ e) /\
  exists rest, e = Copied (td_handler d) c :: rest /\ copied rest = [].
Proof.
  unfold continue. pose proof (prepare_keeps d u) as H3. destruct (prepare_transfer d u) as [[[k a] cap] u2]. destruct H3 as (H3 & H4 & H5).
  destruct (r =? LIBUSB_SUCCESS); intros [= <- <-]; (split; [done|]); (split; [cbn; by rewrite app_nil_r|]); split; try (split; [|eexists; split; [reflexivity|done]]).
  - right. exists k. cbn. by rewrite H5.
  - intros h ec t' [?|[?|?%elem_of_nil]%elem_of_cons]%elem_of_cons; congruence.
  - left. cbn. done.
  - intros h ec t' [?|?%elem_of_nil]%elem_of_cons; congruence.
Qed.

Lemma filled_take (l : list Z) idx filled rest : (idx <= List.length l)%nat -> drop idx l = filled ++ rest ->
  take (List.length l - List.length rest) l = take idx l ++ filled.
Proof.
  intros Hi Hd. assert (l = (take idx l ++ filled) ++ rest) as Hl by (rewrite <- app_assoc, <- Hd; by rewrite take_drop).
  generalize dependent (take idx l ++ filled). intros k Hl. rewrite Hl. apply take_app_length'. rewrite length_app. lia.
Qed.

Lemma flights_removed t u : Forall flight_ok (in_flight u) -> Forall flight_ok (in_flight (remove_flight t u)).
Proof.
  cbn. intros H. apply List.Forall_forall. intros f [Hf _]%List.filter_In. rewrite List.Forall_forall in H. by apply H.
Qed.

(** The flights that are not concerned. *)
Definition bystanders (e : event) (u : usb_device) : list flight :=
  match e with Completion t _ _ _ => in_flight (remove_flight t u) | _ => in_flight u end.

Definition step_ok (e : event) (u u' : usb_device) (eff : list usb_effect) : Prop :=
  queue u ++ received e u = copied eff ++ queue u' /\ queued u' + len (copied eff) = queued u + len (received e u) /\
  read_size (u_impl u') = read_size (u_impl u) /\ device_ok u' /\
  match acting e u with
  | Some w => served w u u' (bystanders e u) eff
  | None => in_flight u' = bystanders e u /\ eff = []
  end.

Lemma same_queue_ok u u' : same_queue u u' -> device_ok u -> Forall flight_ok (in_flight u') -> device_ok u'.
Proof. intros [H1 H2] [Hb Hr Hf] Hf'. split; rewrite ?H1, ?H2; done. Qed.

Lemma read_step h l r u u' e : device_ok u -> sizes_ok l -> queued u < 2 ^ 40 ->
  step (AsyncRead h l r) u = Ok (u', e) -> step_ok (AsyncRead h l r) u u' e.
Proof.
  intros Hd Hl Hq. cbn [step]. unfold async_read_some.
  destruct (read_from_buffer l 0 (read_buffer (u_impl u))) as [[[rest c] total] b] eqn:Er.
  apply read_from_buffer_eq in Er as (Hc & Hb & -> & filled & Hfill & Hlen & Hs & _); [|done|apply Hd|unfold queued in Hq; lia].
  set (u1 := set_impl (set_read_buffer b (u_impl u)) u). assert (device_ok u1) as Hd1 by (by split; [|apply Hd..]).
  intros E. unfold step_ok. cbn [received bystanders acting]. rewrite app_nil_r. unfold len at 2. cbn [List.length].
  destruct rest as [|n rest].
  - injection E as <- <-. rewrite app_nil_r in Hfill. subst filled. unfold queue, queued. cbn [copied flat_map]. rewrite !app_nil_r.
    split_and!; try done; [cbn; lia|]. exists c, [PostHandler h None (0 + len c)]. split_and!; try done. left. split; [done|].
    intros h' t' Hp%list_elem_of_singleton. injection Hp as -> ->. split; [done|]. lia.
  - pose proof (start_served (mkTransferData (Reading l) (List.length l - List.length (n :: rest)) (0 + len c) h) c r u1) as Hst.
    injection E as E. cbn [List.length] in Hst; rewrite E in Hst. destruct Hst as ([Hq1 Hr1] & Hcop & Hfl & rest' & He & Hrest). unfold queue, queued in *. rewrite Hq1, Hcop.
    split_and!; try done; [cbn; lia| |].
    + eapply same_queue_ok; [by split|done|]. destruct Hfl as [[-> _]|(k & f & -> & -> & _)]; [apply Hd1|].
      apply List.Forall_app. split; [apply Hd1|]. constructor; [|done]. unfold flight_ok. cbn. split_and!; [done|lia|].
      pose proof (filled_take l 0 filled (n :: rest) ltac:(lia) Hfill) as Ht. cbn [List.length] in Ht. rewrite Ht. change (take 0 l ++ filled) with filled. unfold sum in Hlen. lia.
    + exists c, rest'. split_and!; try done. destruct Hfl as [[Hfl Hp]|(k & f & Hfl & Hf & Hp)]; [left|right].
      * split; [done|]. intros h' t' Hin. destruct (Hp h' t'). rewrite He. by right.
      * eexists _, _. split; [exact Hfl|]. split; [by rewrite Hf|]. split; [|by rewrite Hf]. intros h' ec t' Hin. apply (Hp h' ec t'). rewrite He. by right.
Qed.

Lemma write_step h l r u u' e : device_ok u -> step (AsyncWrite h l r) u = Ok (u', e) -> step_ok (AsyncWrite h l r) u u' e.
Proof.
  intros Hd. cbn [step]. unfold async_write_some. intros [= E].
  pose proof (start_served (mkTransferData (Writing l) 0 0 h) [] r u) as Hst. rewrite E in Hst.
  destruct Hst as ([Hq1 Hr1] & Hcop & Hfl & rest' & He & Hrest). unfold step_ok, queue, queued. cbn [received bystanders acting].
  rewrite Hq1, Hcop, app_nil_r. split_and!; try done.
  - eapply same_queue_ok; [by split|done|]. destruct Hfl as [[-> _]|(k & f & -> & -> & _)]; [apply Hd|].
    apply List.Forall_app. split; [apply Hd|]. by constructor.
  - exists [], rest'. split_and!; try done. destruct Hfl as [[Hfl Hp]|(k & f & Hfl & Hf & Hp)]; [left|right].
    + split; [done|]. intros h' t' Hin. destruct (Hp h' t'). rewrite He. by right.
    + eexists _, 0. split; [exact Hfl|]. split; [by rewrite Hf|]. split; [|done]. intros h' ec t' Hin. apply (Hp h' ec t'). rewrite He. by right.
Qed.

Lemma commit_buffer_eq k bytes i i' : buffer_ok (read_buffer i) -> 0 <= read_size i < 2 ^ 20 -> buf_s (read_buffer i) + len bytes < 2 ^ 40 ->
  commit_buffer k bytes i = Ok i' ->
  contents (read_buffer i') = contents (read_buffer i) ++ bytes /\ buffer_ok (read_buffer i') /\
  buf_s (read_buffer i') = buf_s (read_buffer i) + len bytes /\ read_size i' = read_size i.
Proof.
  intros Hb Hr Hs. unfold commit_buffer. pose proof (len_nonneg bytes).
  destruct (reserve_eq (read_size i) (len bytes) (read_buffer i)) as (Hc & Hs1 & Hl); [done|lia|lia|unfold buffer_ok in Hb; lia|].
  pose proof (reserved_spec (read_size i) (len bytes) (buf_s (read_buffer i))) as Hres. intros E. inv_ok.
  match goal with Hst : store _ _ = Ok _ |- _ => apply store_eq in Hst as (Hc2 & Hb2 & Hs2) end.
  - rewrite Hc in Hc2. split_and!; [exact Hc2|exact Hb2|etrans; [exact Hs2|lia]|done].
  - unfold buffer_ok in *. rewrite Hs1, Hl. lia.
  - unfold buffer_ok in *. lia.
Qed.

Lemma find_flight_ok t u f : Forall flight_ok (in_flight u) -> find_flight t u = Some f -> flight_ok f /\ f ∈ in_flight u /\ fl_id f = t.
Proof.
  intros H [Hin Ht]%List.find_some. apply Z.eqb_eq in Ht. split_and!; [|by apply list_elem_of_In|done].
  rewrite List.Forall_forall in H. by apply H.
Qed.

Lemma release_keeps k i i' : release k i = Ok i' -> read_buffer i' = read_buffer i /\ read_size i' = read_size i.
Proof. unfold release. destruct k; [|done]. intros E. inv_ok. done. Qed.

(** The handler is called. *)
Lemma finish_step t d c ec u u' eff : finish t d c ec u = Ok (u', eff) ->
  same_queue u u' /\ copied eff = c /\ in_flight u' = in_flight u /\
  eff = Copied (td_handler d) c :: [PostHandler (td_handler d) ec (total_transfered d)].
Proof. intros [= <- <-]. cbn. by rewrite app_nil_r. Qed.

Lemma removed_ok t u : device_ok u -> device_ok (remove_flight t u).
Proof. intros [H1 H2 H3]. split; [done|done|by apply flights_removed]. Qed.

Lemma no_flight t u : find_flight t u = None -> in_flight (remove_flight t u) = in_flight u.
Proof.
  intros H. cbn. apply List.forallb_filter_id, List.forallb_forall. intros f Hf. apply (List.find_none _ _ H) in Hf. cbn in Hf. by rewrite Hf.
Qed.

(** A transfer that ends without data, in one way or the other. *)
Lemma ended t d ec u u0 u' eff f : device_ok u0 -> fl_data f = d ->
  same_queue u0 u -> in_flight u = in_flight u0 ->
  finish t d [] ec u = Ok (u', eff) -> (match td_seq d with Reading _ => ec <> None | Writing _ => True end) ->
  queue u' = queue u0 /\ queued u' = queued u0 /\ copied eff = [] /\ read_size (u_impl u') = read_size (u_impl u0) /\ device_ok u' /\
  served (waiter f) u0 u' (in_flight u0) eff.
Proof.
  intros Hd Hf [Hq Hr] Hfl E Hec. apply finish_step in E as ([Hq' Hr'] & Hc & Hfl' & ->). unfold queue, queued. rewrite Hq', Hq, Hr', Hr.
  split_and!; try done.
  - eapply (same_queue_ok u0); [split; congruence|done|]. rewrite Hfl', Hfl. apply Hd.
  - unfold waiter. rewrite Hf. eexists [], _. split; [reflexivity|]. split; [done|]. left. split; [congruence|].
    intros h' t' Hp%list_elem_of_singleton. injection Hp as -> <- ->. split; [done|]. by destruct (td_seq d).
Qed.

Lemma completed_read t k bytes r u u' e f l : device_ok u -> fl_data f = mkTransferData (Reading l) (td_idx (fl_data f)) (total_transfered (fl_data f)) (td_handler (fl_data f)) ->
  flight_ok f -> queued u + len bytes < 2 ^ 40 ->
  (i ← commit_buffer k bytes (u_impl u);
   let '(rest, copied, total, b) := read_from_buffer (drop (td_idx (fl_data f)) l) (total_transfered (fl_data f)) (read_buffer i) in
   let u := set_impl (set_read_buffer b i) u in
   let d := mkTransferData (Reading l) (List.length l - List.length rest) total (td_handler (fl_data f)) in
   match rest with [] => finish t d copied None u | _ => continue t d copied r u end) = Ok (u', e) ->
  queue u ++ bytes = copied e ++ queue u' /\ queued u' + len (copied e) = queued u + len bytes /\
  read_size (u_impl u') = read_size (u_impl u) /\ device_ok u' /\ served (waiter f) u u' (in_flight u) e.
Proof.
  intros Hd Hf Hok Hq E. apply bind_Ok in E as (i & Ei & E).
  apply commit_buffer_eq in Ei as (Hc & Hb & Hs & Hr); [|apply Hd|apply Hd|exact Hq].
  unfold flight_ok in Hok. rewrite Hf in Hok. cbn [td_seq td_idx total_transfered] in Hok. destruct Hok as (Hl & Hidx & Ht).
  pose proof (len_nonneg bytes) as Hlb. pose proof (queue_ok u Hd) as Hbu. unfold buffer_ok in Hbu. unfold queued in Hq.
  destruct (read_from_buffer _ _ (read_buffer i)) as [[[rest c] total] b] eqn:Er.
  assert (sizes_ok (drop (td_idx (fl_data f)) l)) as Hl' by by apply Forall_drop.
  apply read_from_buffer_eq in Er as (Hc2 & Hb2 & -> & filled & Hfill & Hlen & Hs2 & _); [|done|done|unfold queued in *; lia].
  set (u1 := set_impl (set_read_buffer b i) u) in *.
  assert (device_ok u1) as Hd1 by (split; [done|cbn; rewrite Hr; apply Hd|apply Hd]).
  assert (queue u ++ bytes = c ++ contents b) as Hall by (unfold queue; by rewrite <- Hc, Hc2).
  assert (buf_s b + len c = queued u + len bytes) as Hcount by (unfold queued; lia).
  pose proof (filled_take l (td_idx (fl_data f)) filled rest Hidx Hfill) as Htake.
  assert (total_transfered (fl_data f) + len c = sum (take (List.length l - List.length rest) l)) as Htot by (rewrite Htake, sum_app; lia).
  assert (waiter f = (td_handler (fl_data f), Reading l, total_transfered (fl_data f))) as Hw by (unfold waiter; by rewrite Hf).
  rewrite Hw. destruct rest as [|n rest].
  - apply finish_step in E as ([Hq' Hr'] & Hcop & Hfl' & ->). unfold queue at 2, queued at 1. rewrite Hq', Hr', Hcop. split_and!; try done.
    + eapply same_queue_ok; [by split|exact Hd1|]. rewrite Hfl'. apply Hd1.
    + eexists c, _. split; [reflexivity|]. split; [done|]. left. split; [done|]. intros h' t' Hp%list_elem_of_singleton. injection Hp as -> ->.
      split; [done|]. split; [|done]. rewrite Htot. cbn [List.length]. rewrite Nat.sub_0_r, firstn_all. done.
  - apply continue_served in E as ([Hq' Hr'] & Hcop & Hfl & Hp & rest' & He & Hrest). unfold queue at 2, queued at 1. rewrite Hq', Hr', Hcop.
    split_and!; try done.
    + eapply same_queue_ok; [by split|exact Hd1|]. destruct Hfl as [->|[k' ->]]; [apply Hd1|]. apply List.Forall_app. split; [apply Hd1|].
      constructor; [|done]. unfold flight_ok. cbn [fl_data td_seq td_idx total_transfered]. split_and!; [done|lia|exact Htot].
    + exists c, rest'. split; [exact He|]. split; [done|]. assert (forall h ec t, PostHandler h ec t ∉ rest') as Hp' by (intros h ec t0 Hin; apply (Hp h ec t0); rewrite He; by right).
      destruct Hfl as [Hfl|[k' Hfl]]; [left|right].
      * split; [done|]. intros h' t' Hin. by destruct (Hp' _ _ _ Hin).
      * eexists _, _. split; [exact Hfl|]. split; [reflexivity|]. by split.
Qed.

Lemma completion_step t st bytes r u u' e : device_ok u -> queued u + len (received (Completion t st bytes r) u) < 2 ^ 40 ->
  step (Completion t st bytes r) u = Ok (u', e) -> step_ok (Completion t st bytes r) u u' e.
Proof.
  intros Hd Hq. cbn [step]. unfold on_completion, step_ok. cbn [received acting bystanders] in *.
  destruct (find_flight t u) as [f|] eqn:Ef; [|intros [= <- <-]; rewrite (no_flight t u Ef); destruct st; rewrite app_nil_r; by split_and!].
  pose proof (removed_ok t u Hd) as Hd1. destruct (find_flight_ok t u f (flights_ok u Hd) Ef) as (Hok & _ & _). cbn [option_map].
  set (u1 := remove_flight t u) in *. change (queue u) with (queue u1). change (queued u) with (queued u1) in *.
  change (read_size (u_impl u)) with (read_size (u_impl u1)).
  assert (forall s0, st = s0 -> s0 <> TransferCompleted ->
    (i ← release (fl_buffer f) (u_impl u1);
     finish t (fl_data f) [] (Some (make_error_code_from_transfer s0)) (set_impl i u1)) = Ok (u', e) ->
    queue u1 ++ [] = copied e ++ queue u' /\ queued u' + len (copied e) = queued u1 + 0 /\
    read_size (u_impl u') = read_size (u_impl u1) /\ device_ok u' /\ served (waiter f) u1 u' (in_flight u1) e) as Hend.
  { intros s0 -> Hs0 E. apply bind_Ok in E as (i & Ei & E). apply release_keeps in Ei as [Hb Hr].
    apply (ended t (fl_data f) _ _ u1 u' e f) in E as (-> & Hqq & -> & -> & Hd' & Hs); [|done|done|by split|done|by destruct (td_seq _)].
    split_and!; try done; [by rewrite app_nil_r|unfold len; cbn; lia]. }
  assert (forall s0, served s0 u1 u' (in_flight u1) e -> served s0 u u' (in_flight u1) e) as Hserved by by intros [[? []] ?].
  destruct st; try (intros E; destruct (Hend _ eq_refl ltac:(done) E) as (H1 & H2 & H3 & H4 & H5); exact (conj H1 (conj H2 (conj H3 (conj H4 (Hserved _ H5)))))).
  destruct (td_seq (fl_data f)) as [l|l] eqn:El.
  - destruct (fl_buffer f) as [k|]; [|done]. intros E. eapply completed_read in E as (? & ? & ? & ? & ?); [|done| |done|done].
    + split_and!; auto.
    + rewrite <- El. by destruct (fl_data f).
  - rewrite app_nil_r. unfold len at 2. cbn [List.length]. intros E. destruct (_ <? _)%nat.
    + apply continue_served in E as ([Hq' Hr'] & Hcop & Hfl & Hp & rest' & He & Hrest). unfold queue at 2, queued at 1. rewrite Hq', Hr', Hcop.
      split_and!; try done.
      * eapply same_queue_ok; [by split|exact Hd1|]. destruct Hfl as [->|[k' ->]]; [apply Hd1|]. apply List.Forall_app. split; [apply Hd1|]. by constructor.
      * unfold waiter. rewrite El. exists [], rest'. split; [exact He|]. split; [done|].
        assert (forall h ec t, PostHandler h ec t ∉ rest') as Hp' by (intros h ec t0 Hin; apply (Hp h ec t0); rewrite He; by right).
        destruct Hfl as [Hfl|[k' Hfl]]; [left|right]; [split; [done|]; intros h' t' Hin; by destruct (Hp' _ _ _ Hin)|].
        eexists _, _. split; [exact Hfl|]. split; [reflexivity|]. by split.
    + apply (ended t _ _ u1 u1 u' e (mkFlight t (mkTransferData (Writing l) (S (td_idx (fl_data f))) (len bytes) (td_handler (fl_data f))) None)) in E
        as (Hqu & Hqq & -> & -> & Hd' & Hs); [|done..|by split|done].
      rewrite Hqu. split_and!; try done; [unfold len; cbn; lia|]. unfold waiter in *. rewrite El. exact Hs.
Qed.

Lemma step_correct e u u' eff : device_ok u -> event_ok e -> queued u + len (received e u) < 2 ^ 40 ->
  step e u = Ok (u', eff) -> step_ok e u u' eff.
Proof.
  intros Hd He Hq. pose proof (len_nonneg (received e u)). destruct e as [h l r|h l r|t st bytes r|].
  - apply read_step; [done|done|lia].
  - by apply write_step.
  - by apply completion_step.
  - intros [= <- <-]. unfold step_ok. cbn. rewrite app_nil_r. split_and!; try done. by destruct Hd.
Qed.

(** ** Runs *)

Fixpoint received_by (l : list event) (u : usb_device) : list Z :=
  match l with
  | [] => []
  | e :: l' => received e u ++ match step e u with Ok (u', _) => received_by l' u' | _ => [] end
  end.

(** Who has asked for what; everybody has a handler of his own. *)
Definition asks (e : event) : list (Z * buffers) :=
  match e with AsyncRead h l _ => [(h, Reading l)] | AsyncWrite h l _ => [(h, Writing l)] | _ => [] end.

Definition handler_of (f : flight) : Z := td_handler (fl_data f).

Record tracked (asked : list (Z * buffers)) (log : list usb_effect) (u : usb_device) : Prop := {
  alone : NoDup (List.map handler_of (in_flight u));
  waits f : f ∈ in_flight u -> (handler_of f, td_seq (fl_data f)) ∈ asked /\
    match td_seq (fl_data f) with Reading _ => len (delivered (handler_of f) log) = total_transfered (fl_data f) | Writing _ => True end;
  unknown h : h ∉ List.map fst asked -> delivered h log = [] /\ forall t, PostHandler h None t ∉ log;
  satisfied h l t : (h, Reading l) ∈ asked -> PostHandler h None t ∈ log ->
    t = sum l /\ len (delivered h log) = t /\ h ∉ List.map handler_of (in_flight u)
}.

Lemma NoDup_handler_inj {A B} (f : A -> B) l x y : NoDup (List.map f l) -> x ∈ l -> y ∈ l -> f x = f y -> x = y.
Proof.
  induction l as [|z l IH]; [by intros _ ?%elem_of_nil|]. intros [Hz Hn]%NoDup_cons [->|Hx]%elem_of_cons [->|Hy]%elem_of_cons E; [done| | |by apply IH].
  - destruct Hz. apply list_elem_of_fmap. eauto.
  - destruct Hz. apply list_elem_of_fmap. eauto.
Qed.

Lemma NoDup_fst_filter {A B} (f : A -> B) (p : A -> bool) l : NoDup (List.map f l) -> NoDup (List.map f (List.filter p l)).
Proof.
  induction l as [|x l IH]; [done|]. intros [Hx Hn]%NoDup_cons. cbn. destruct (p x); [|by apply IH]. apply NoDup_cons. split; [|by apply IH].
  intros (y & E & Hy)%list_elem_of_fmap. apply Hx. apply list_elem_of_fmap. exists y. split; [done|].
  apply list_elem_of_In, List.filter_In in Hy as [Hy _]. by apply list_elem_of_In.
Qed.

Lemma delivered_app h e1 e2 : delivered h (e1 ++ e2) = delivered h e1 ++ delivered h e2.
Proof. apply flat_map_app. Qed.

Lemma copied_app e1 e2 : copied (e1 ++ e2) = copied e1 ++ copied e2.
Proof. apply flat_map_app. Qed.

Lemma delivered_none h e : copied e = [] -> delivered h e = [].
Proof.
  unfold copied, delivered. induction e as [|[h' b|t a c|h' ec t] e IH]; [done| |exact IH..]. cbn. intros [-> H]%app_nil.
  rewrite (IH H). by destruct (h' =? h).
Qed.

(** What is known of the one that an event concerns. *)
Lemma acting_known asked log e u w : tracked asked log u -> acting e u = Some w -> NoDup (List.map fst (asked ++ asks e)) ->
  let '(h, s, t) := w in
  h ∉ List.map handler_of (bystanders e u) /\ (h, s) ∈ asked ++ asks e /\ (forall t, (PostHandler h None t ∉ log) \/ exists l, s = Writing l) /\
  match s with Reading _ => len (delivered h log) = t | Writing _ => True end.
Proof.
  intros Ht Hw Hn. destruct e as [h l r|h l r|t st bytes r|]; try done; cbn [acting bystanders asks] in *.
  1, 2: injection Hw as <-; rewrite map_app in Hn; apply NoDup_app in Hn as (_ & Hn & _);
    assert (h ∉ List.map fst asked) as Hh by (intros Hin; apply (Hn h Hin), list_elem_of_here);
    destruct (unknown _ _ _ Ht h Hh) as [Hd Hp]; split_and!; try done; try (by apply elem_of_app; right; left);
    first [ by rewrite Hd | intros t; left; apply Hp
          | intros (f & -> & Hf)%list_elem_of_fmap; apply Hh; apply (waits _ _ _ Ht) in Hf as [Hf _]; apply list_elem_of_fmap;
            exists (handler_of f, td_seq (fl_data f)); by split ].
  destruct (find_flight t u) as [f|] eqn:Ef; [|done]. injection Hw as <-. apply List.find_some in Ef as [Hin Hid]. apply list_elem_of_In in Hin.
  destruct (waits _ _ _ Ht f Hin) as [Hask Hcount]. split_and!; [|by apply elem_of_app; left| |exact Hcount].
  - intros (g & Hg & Hin2)%list_elem_of_fmap. apply list_elem_of_In in Hin2. cbn in Hin2. apply List.filter_In in Hin2 as [Hin2 Hne].
    rewrite (NoDup_handler_inj handler_of (in_flight u) f g) in Hid; [|apply Ht|done|by apply list_elem_of_In|done]. by rewrite Hid in Hne.
  - intros t'. destruct (td_seq (fl_data f)) as [l|l]; [left|right; eauto]. intros Hp.
    destruct (satisfied _ _ _ Ht _ l t' Hask Hp) as (_ & _ & Hno). apply Hno, list_elem_of_fmap. by exists f.
Qed.

Lemma bystanders_fine asked log e u : tracked asked log u ->
  NoDup (List.map handler_of (bystanders e u)) /\ forall f, f ∈ bystanders e u -> f ∈ in_flight u.
Proof.
  intros Ht. destruct e; cbn [bystanders]; try (split; [apply Ht|done]). cbn. split; [apply NoDup_fst_filter, Ht|].
  intros f. rewrite !list_elem_of_In. by intros [? _]%List.filter_In.
Qed.

Lemma track_step asked log e u u' eff : tracked asked log u -> NoDup (List.map fst (asked ++ asks e)) -> step_ok e u u' eff ->
  tracked (asked ++ asks e) (log ++ eff) u'.
Proof.
  intros Ht Hn (_ & _ & _ & _ & Hs). destruct (bystanders_fine asked log e u Ht) as [Hb Hsub].
  pose proof (acting_known asked log e u) as Hk. destruct (acting e u) as [[[h s] t]|] eqn:Ea.
  - destruct (Hk _ Ht eq_refl Hn) as (Hh & Hask & Hpost & Hcount). destruct Hs as (c & rest & -> & Hrest & Hcase). clear Hk.
    assert (forall h', delivered h' (log ++ Copied h c :: rest) = delivered h' log ++ (if h =? h' then c else [])) as Hdel.
    { intros h'. rewrite delivered_app. change (delivered h' (Copied h c :: rest)) with ((if h =? h' then c else []) ++ delivered h' rest).
      by rewrite (delivered_none h' rest Hrest), app_nil_r. }
    assert (forall f, f ∈ bystanders e u -> handler_of f <> h) as Hother.
    { intros f Hf <-. apply Hh, list_elem_of_fmap. by exists f. }
    assert (forall f, f ∈ bystanders e u -> (handler_of f, td_seq (fl_data f)) ∈ asked ++ asks e /\
      match td_seq (fl_data f) with Reading _ => len (delivered (handler_of f) (log ++ Copied h c :: rest)) = total_transfered (fl_data f) | Writing _ => True end) as Hw.
    { intros f Hf. destruct (waits _ _ _ Ht f (Hsub f Hf)) as [H1 H2]. split; [apply elem_of_app; by left|].
      destruct (td_seq _); [|done]. rewrite Hdel, (proj2 (Z.eqb_neq h (handler_of f))), app_nil_r by (intros E; by apply (Hother f Hf)). done. }
    assert (forall h' : Z, h' ∉ List.map fst (asked ++ asks e) -> h' <> h) as Hnot.
    { intros h' Hh' ->. apply Hh', list_elem_of_fmap. by exists (h, s). }
    assert (forall h' l, (h', Reading l) ∈ asked ++ asks e -> h' = h -> s = Reading l) as Hsame.
    { intros h' l Hin ->. eapply (NoDup_handler_inj fst _ (h, s) (h, Reading l)) in Hn; [by injection Hn|done..]. }
    assert (forall h', h' ∉ List.map fst (asked ++ asks e) -> delivered h' (log ++ Copied h c :: rest) = [] /\ forall t', PostHandler h' None t' ∉ log) as Hunknown.
    { intros h' Hh'. pose proof (Hnot h' Hh') as Hne. rewrite Hdel, (proj2 (Z.eqb_neq h h')), app_nil_r by congruence.
      apply (unknown _ _ _ Ht). intros Hin. apply Hh'. rewrite map_app. apply elem_of_app. by left. }
    assert (forall h' l t', (h', Reading l) ∈ asked ++ asks e -> PostHandler h' None t' ∈ log ->
      t' = sum l /\ len (delivered h' (log ++ Copied h c :: rest)) = t' /\ h' ∉ List.map handler_of (bystanders e u) /\ h' <> h) as Hold.
    { intros h' l t' Hin Hp. assert (h' <> h) as Hne.
      { intros ->. destruct (Hpost t') as [Hno|[l' Hs]]; [done|]. pose proof (Hsame _ _ Hin eq_refl). congruence. }
      rewrite Hdel, (proj2 (Z.eqb_neq h h')), app_nil_r by congruence. apply elem_of_app in Hin as [Hin|Hin].
      - destruct (satisfied _ _ _ Ht h' l t' Hin Hp) as (H1 & H2 & H3). split_and!; try done. intros (f & Hf & Hin2)%list_elem_of_fmap.
        apply H3, list_elem_of_fmap. exists f. split; [done|]. by apply Hsub.
      - exfalso. rewrite map_app in Hn. apply NoDup_app in Hn as (_ & Hn & _).
        destruct (unknown _ _ _ Ht h') as [_ Hno]; [|by apply (Hno t')]. intros Hin2. apply (Hn h' Hin2), list_elem_of_fmap. by exists (h', Reading l). }
    destruct Hcase as [[Hfl Hp]|(f & t' & Hfl & Hwf & Hp & Hcnt)].
    + split; rewrite ?Hfl; [done|done| |].
      * intros h' Hh'. destruct (Hunknown h' Hh') as [H1 H2]. split; [done|]. intros t' [Hin|[?|Hin]%elem_of_cons]%elem_of_app; [by apply (H2 t')|done|].
        apply Hp in Hin as [-> _]. by apply (Hnot _ Hh').
      * intros h' l t' Hin [Hin2|[?|Hin2]%elem_of_cons]%elem_of_app; [destruct (Hold h' l t' Hin Hin2) as (? & ? & ? & _); by split_and!|done|].
        apply Hp in Hin2 as [-> Htot]. rewrite (Hsame h l Hin eq_refl) in Htot, Hcount. destruct Htot as [Hsum Htot].
        rewrite Hdel, Z.eqb_refl, len_app. split_and!; [done|lia|done].
    + injection Hwf as Hfh Hfs Hft. change (td_handler (fl_data f)) with (handler_of f) in Hfh. split; rewrite ?Hfl.
      * rewrite map_app. apply NoDup_app. split; [done|]. split; [|apply NoDup_singleton]. intros x Hx ->%list_elem_of_singleton. by rewrite Hfh in Hx.
      * intros g [Hg| ->%list_elem_of_singleton]%elem_of_app; [by apply Hw|]. rewrite Hfh, Hfs. split; [done|].
        destruct s; [|done]. rewrite Hdel, Z.eqb_refl, len_app. lia.
      * intros h' Hh'. destruct (Hunknown h' Hh') as [H1 H2]. split; [done|]. intros t1 [Hin|[?|Hin]%elem_of_cons]%elem_of_app; [by apply (H2 t1)|done|].
        by apply (Hp h' None t1).
      * intros h' l t1 Hin [Hin2|[?|Hin2]%elem_of_cons]%elem_of_app; [|done|by destruct (Hp h' None t1)].
        destruct (Hold h' l t1 Hin Hin2) as (? & ? & H3 & H4). split_and!; try done. rewrite map_app. intros [?|Hx%list_elem_of_singleton]%elem_of_app; [done|].
        by rewrite Hfh in Hx.
  - destruct Hs as [Hfl ->]. assert (asks e = []) as -> by (by destruct e). rewrite !app_nil_r.
    split; rewrite ?Hfl; [done| | |].
    + intros f Hf. by apply (waits _ _ _ Ht), Hsub.
    + apply Ht.
    + intros h l t Hin Hp. destruct (satisfied _ _ _ Ht h l t Hin Hp) as (H1 & H2 & H3). split_and!; try done.
      intros (f & Hf & Hin2)%list_elem_of_fmap. apply H3, list_elem_of_fmap. exists f. split; [done|]. by apply Hsub.
Qed.

Lemma steps_correct l asked log u u' e : device_ok u -> Forall event_ok l -> queued u + len (received_by l u) < 2 ^ 40 ->
  tracked asked log u -> NoDup (List.map fst (asked ++ List.flat_map asks l)) -> steps l u = Ok (u', e) ->
  queue u ++ received_by l u = copied e ++ queue u' /\ tracked (asked ++ List.flat_map asks l) (log ++ e) u' /\ device_ok u'.
Proof.
  intros Hd Hl. revert asked log u u' e Hd. induction Hl as [|x l Hx _ IH]; intros asked log u u' e Hd Hq Ht Hn E.
  - injection E as <- <-. cbn. by rewrite !app_nil_r.
  - cbn [steps received_by List.flat_map] in *. apply bind_Ok in E as ([u1 e1] & E1 & E). apply bind_Ok in E as ([u2 e2] & E2 & E). injection E as <- <-.
    rewrite E1 in *. rewrite len_app in Hq. pose proof (len_nonneg (received x u)). pose proof (len_nonneg (received_by l u1)).
    rewrite app_assoc in Hn. assert (NoDup (List.map fst (asked ++ asks x))) as Hn1 by (rewrite map_app in Hn; by apply NoDup_app in Hn as [Hn _]).
    pose proof (step_correct x u u1 e1 Hd Hx ltac:(lia) E1) as Hs. pose proof (track_step asked log x u u1 e1 Ht Hn1 Hs) as Ht1.
    destruct Hs as (Hfifo & Hcount & _ & Hd1 & _). pose proof (len_nonneg (copied e1)).
    destruct (IH _ _ u1 u2 e2 Hd1 ltac:(lia) Ht1 Hn E2) as (Hfifo2 & Ht2 & Hd2).
    split_and!; [|by rewrite (app_assoc asked), (app_assoc log)|done]. by rewrite app_assoc, Hfifo, <- app_assoc, Hfifo2, app_assoc, <- copied_app.
Qed.

(** C20: A USB device is a stream of bytes to its readers: whatever reads,
    writes, cancellations and completions come in whatever order, and however
    the transfers cut the bytes, what has been copied to the readers, in the
    order of time, and what is still in the buffer are the bytes that were
    received; and a reader that is called without an error is told the size of
    what it asked for, and has got so many bytes. *)
Theorem usb_stream i l u e : read_buffer i = UsbDevice.empty_buffer -> 0 <= read_size i < 2 ^ 20 ->
  Forall event_ok l -> NoDup (List.map fst (List.flat_map asks l)) -> len (received_by l (new_device i)) < 2 ^ 40 ->
  steps l (new_device i) = Ok (u, e) ->
  received_by l (new_device i) = copied e ++ queue u /\
  forall h sizes r t, AsyncRead h sizes r ∈ l -> PostHandler h None t ∈ e -> t = sum sizes /\ len (delivered h e) = t.
Proof.
  intros Hb Hr Hl Hn Hlen E. assert (device_ok (new_device i)) as Hd by (split; cbn; rewrite ?Hb; [done|done|constructor]).
  assert (tracked [] [] (new_device i)) as Ht.
  { split; [constructor|by intros f ?%elem_of_nil|intros h _; split; [done|]; by intros t ?%elem_of_nil|by intros h l' t ?%elem_of_nil]. }
  assert (queued (new_device i) = 0) as Hq0 by (unfold queued; cbn; by rewrite Hb).
  assert (queue (new_device i) = []) as Hq1 by (unfold queue; cbn; by rewrite Hb).
  destruct (steps_correct l [] [] (new_device i) u e Hd Hl) as (Hfifo & Htr & _); [lia|done..|].
  rewrite Hq1 in Hfifo. split; [exact Hfifo|]. intros h sizes r t Hin Hp. cbn [app] in Htr.
  destruct (satisfied _ _ _ Htr h sizes t) as (H1 & H2 & _); [|done|by split].
  apply list_elem_of_In, List.in_flat_map. exists (AsyncRead h sizes r). split; [by apply list_elem_of_In|by left].
Qed.
