(* ===== verification/UsbBounds.v ===== *)
(** * One reader at a time stays within the buffers

    [detail::commit_buffer] swaps the arguments of [reserve]: the room that it
    makes is for the size of a packet, in blocks of fifty times what was
    received.  This is enough when one reader at a time asks for no more than
    49 packets in one piece, as the readers of the manager do. *)
From Stdlib Require Import ZArith Lia List.
From stdpp Require Import base list list_monad.
From S2P Require Import Prelude Bits UsbDevice UsbTransfer UsbStream.

Local Open Scope Z_scope.

Definition reads (f : flight) : Prop := exists l, td_seq (fl_data f) = Reading l.

(** A reader waits for a destination that the queue cannot fill, with a buffer
    of the pool. *)
Definition reader_ok (u : usb_device) (f : flight) : Prop :=
  match td_seq (fl_data f) with
  | Reading l =>
      (exists n rest, drop (td_idx (fl_data f)) l = n :: rest /\ queued u < n) /\
      Forall (fun n => n <= 49 * read_size (u_impl u)) l /\
      exists k, fl_buffer f = Some k /\ pool_has k (u_impl u) = true
  | Writing _ => True
  end.

Record calm (u : usb_device) : Prop := {
  calm_ok : device_ok u;
  packets : 1 <= read_size (u_impl u);
  moderate : queued u < 2 ^ 32;
  one_reader f g : f ∈ in_flight u -> g ∈ in_flight u -> reads f -> reads g -> fl_id f = fl_id g;
  readers_ok f : f ∈ in_flight u -> reader_ok u f
}.

(** A reader starts when no other is waiting; libusb reports an [int] number of
    bytes, and no write fails. *)
Definition disciplined (e : event) (u : usb_device) : Prop :=
  match e with
  | AsyncRead _ l _ => (forall f, f ∈ in_flight u -> ~ reads f) /\ Forall (fun n => 0 <= n <= 49 * read_size (u_impl u)) l
  | Completion t st bytes _ =>
      match find_flight t u with
      | Some f => match td_seq (fl_data f) with Reading _ => len bytes < 2 ^ 31 | Writing _ => st = TransferCompleted end
      | None => True
      end
  | _ => True
  end.

(** The same, as a test. *)
Definition is_reader (f : flight) : bool := match td_seq (fl_data f) with Reading _ => true | Writing _ => false end.

Definition obeys (e : event) (u : usb_device) : bool :=
  match e with
  | AsyncRead _ l _ => negb (existsb is_reader (in_flight u)) && forallb (fun n => (0 <=? n) && (n <=? 49 * read_size (u_impl u))) l
  | Completion t st bytes _ =>
      match find_flight t u with
      | Some f => match td_seq (fl_data f) with
                  | Reading _ => len bytes <? 2 ^ 31
                  | Writing _ => match st with TransferCompleted => true | _ => false end
                  end
      | None => true
      end
  | _ => true
  end.

Fixpoint obeyed (l : list event) (u : usb_device) : bool :=
  match l with
  | [] => true
  | e :: l' => obeys e u && match step e u with Ok (u', _) => obeyed l' u' | _ => true end
  end.

Lemma obeys_disciplined e u : obeys e u = true -> disciplined e u.
Proof.
  destruct e as [h l r|h l r|t st bytes r|]; cbn [obeys disciplined]; try done.
  - intros [Hr Hl]%andb_true_iff. rewrite negb_true_iff in Hr. split.
    + intros f Hf [k Hk]. assert (existsb is_reader (in_flight u) = true) as Hex; [|congruence]. apply existsb_exists. exists f.
      split; [by apply list_elem_of_In|]. unfold is_reader. by rewrite Hk.
    + rewrite forallb_forall in Hl. apply List.Forall_forall. intros n Hn. apply Hl in Hn. lia.
  - destruct (find_flight t u) as [f|]; [|done]. destruct (td_seq _); [apply Z.ltb_lt|by destruct st].
Qed.

(** ** The room that is made *)

Lemma commit_room k bytes i : buffer_ok (read_buffer i) -> 1 <= read_size i < 2 ^ 20 -> pool_has k i = true ->
  buf_s (read_buffer i) < 49 * read_size i -> len bytes < 2 ^ 31 -> exists i', commit_buffer k bytes i = Ok i'.
Proof.
  intros Hb Hr Hk Hs Hl. unfold commit_buffer. rewrite Hk. cbn [assert_ mbind res_bind]. pose proof (len_nonneg bytes).
  destruct (reserve_eq (read_size i) (len bytes) (read_buffer i)) as (_ & Hs1 & Hlen); [done|lia|lia|unfold buffer_ok in Hb; lia|].
  pose proof (reserved_spec (read_size i) (len bytes) (buf_s (read_buffer i))) as Hres. unfold store. rewrite Hs1, Hlen.
  rewrite (proj2 (Z.leb_le _ _)); [eexists; reflexivity|]. unfold buffer_ok in Hb. lia.
Qed.

Lemma pool_has_alloc size u : let '(k, _, u') := alloc_buffer size u in pool_has k (u_impl u') = true.
Proof.
  unfold alloc_buffer. destruct (List.find _ _) as [[k [b m]]|] eqn:E.
  - apply List.find_some in E as [Hin _]. cbn. unfold pool_has. apply existsb_exists. cbn.
    exists (k, (reserve size (read_size (u_impl u)) b, false)). split; [|cbn; by rewrite Z.eqb_refl]. apply List.in_map_iff.
    exists (k, (b, m)). cbn. by rewrite Z.eqb_refl.
  - cbn. unfold pool_has. cbn. rewrite existsb_app. cbn. by rewrite Z.eqb_refl, orb_true_r.
Qed.

(** A reader that starts or goes on. *)
Lemma prepare_reader d u l : td_seq d = Reading l ->
  let '(k, _, _, u') := prepare_transfer d u in
  exists k', k = Some k' /\ pool_has k' (u_impl u') = true.
Proof.
  intros Hl. unfold prepare_transfer. rewrite Hl. pose proof (pool_has_alloc (sum (drop (td_idx d) l)) u) as H.
  destruct (alloc_buffer _ u) as [[k b] u']. by exists k.
Qed.

Lemma prepare_writer d u l : td_seq d = Writing l -> snd (prepare_transfer d u) = u.
Proof. intros Hl. unfold prepare_transfer. by rewrite Hl. Qed.

(** ** The reader through a step *)

Definition fine (u : usb_device) : Prop :=
  (forall f g, f ∈ in_flight u -> g ∈ in_flight u -> reads f -> reads g -> fl_id f = fl_id g) /\
  forall f, f ∈ in_flight u -> reader_ok u f.

Definition quiet (u : usb_device) : Prop := forall f, f ∈ in_flight u -> ~ reads f.

Lemma fine_quiet u : quiet u -> fine u.
Proof.
  intros H. split; [intros f g Hf _ Hr; by destruct (H f Hf)|]. intros f Hf. unfold reader_ok.
  destruct (td_seq _) as [l|] eqn:E; [|done]. destruct (H f Hf). by exists l.
Qed.

(** Nothing that a reader depends on changes. *)
Definition unchanged (u u' : usb_device) : Prop :=
  read_buffer (u_impl u') = read_buffer (u_impl u) /\ read_size (u_impl u') = read_size (u_impl u) /\
  buffers_pool (u_impl u') = buffers_pool (u_impl u).

Lemma fine_unchanged u u' : fine u -> unchanged u u' -> (forall f, f ∈ in_flight u' -> reads f -> f ∈ in_flight u) -> fine u'.
Proof.
  intros [H1 H2] (Hb & Hr & Hp) Hsub. split; [intros f g Hf Hg Rf Rg; apply H1; auto|].
  intros f Hf. unfold reader_ok, queued, pool_has. rewrite Hb, Hr, Hp.
  destruct (td_seq (fl_data f)) as [l|] eqn:E; [|done]. assert (f ∈ in_flight u) as Hf' by (apply Hsub; [done|by exists l]).
  apply H2 in Hf'. unfold reader_ok in Hf'. by rewrite E in Hf'.
Qed.

(** What a reader that goes on needs. *)
Definition hungry (d : transfer_data) (u : usb_device) : Prop :=
  exists l n rest, td_seq d = Reading l /\ drop (td_idx d) l = n :: rest /\ queued u < n /\
  Forall (fun n => n <= 49 * read_size (u_impl u)) l.

Lemma fine_submit t d k u : quiet u -> hungry d u -> pool_has k (u_impl u) = true -> fine (submit t d (Some k) u).
Proof.
  intros Hq (l & n & rest & Hl & Hd & Hn & Hf) Hk.
  assert (forall f, f ∈ in_flight (submit t d (Some k) u) -> reads f -> f = mkFlight t d (Some k)) as Hone.
  { intros f [Hin| ->%list_elem_of_singleton]%elem_of_app Hr; [by destruct (Hq f Hin)|done]. }
  split; [intros f g Hf1 Hg1 Rf Rg; by rewrite (Hone f Hf1 Rf), (Hone g Hg1 Rg)|]. intros f Hin. unfold reader_ok.
  destruct (td_seq (fl_data f)) as [l'|] eqn:E; [|done]. assert (reads f) as Hr by by exists l'.
  rewrite (Hone f Hin Hr) in E |- *. cbn [fl_data fl_buffer] in *. rewrite Hl in E. injection E as <-. split_and!; [by exists n, rest|done|by exists k].
Qed.

Lemma hungry_kept d u u' : hungry d u -> read_buffer (u_impl u') = read_buffer (u_impl u) -> read_size (u_impl u') = read_size (u_impl u) -> hungry d u'.
Proof. intros (l & n & rest & ? & ? & ? & ?) Hb Hr. exists l, n, rest. unfold queued. by rewrite Hb, Hr. Qed.

Lemma start_fine d c r u : quiet u -> hungry d u -> fine (fst (start_transfer d c r u)).
Proof.
  intros Hq Hh. unfold start_transfer. pose proof (alloc_transfer_keeps u) as [H1 H2]. destruct (alloc_transfer u) as [t u1]. cbn [snd] in *.
  pose proof (prepare_keeps d u1) as H3. pose proof Hh as (l & n & rest & Hl & _). pose proof (prepare_reader d u1 l Hl) as H4.
  destruct (prepare_transfer d u1) as [[[k a] cap] u2]. destruct H3 as (H3 & H5 & H6), H4 as (k' & -> & Hk).
  assert (quiet u2) as Hq2 by (intros f; rewrite H6, H2; apply Hq). assert (hungry d u2) as Hh2.
  { eapply (hungry_kept d u); [exact Hh|congruence..]. }
  destruct (r =? LIBUSB_SUCCESS); [by apply fine_submit|]. by apply fine_quiet.
Qed.

Lemma continue_fine t d c r u u' e : quiet u -> hungry d u -> continue t d c r u = Ok (u', e) -> fine u'.
Proof.
  intros Hq Hh. unfold continue. pose proof (prepare_keeps d u) as H3. pose proof Hh as (l & n & rest & Hl & _). pose proof (prepare_reader d u l Hl) as H4.
  destruct (prepare_transfer d u) as [[[k a] cap] u2]. destruct H3 as (H3 & H5 & H6), H4 as (k' & -> & Hk).
  assert (quiet u2) as Hq2 by (intros f; rewrite H6; apply Hq). assert (hungry d u2) as Hh2.
  { eapply (hungry_kept d u); [exact Hh|congruence..]. }
  destruct (r =? LIBUSB_SUCCESS); intros [= <- <-]; [by apply fine_submit|]. by apply fine_quiet.
Qed.

(** After the reader is taken away there is none. *)
Lemma quiet_removed t u f : fine u -> find_flight t u = Some f -> reads f -> quiet (remove_flight t u).
Proof.
  intros [H1 _] [Hin Hid]%List.find_some Hr g Hg Rg. apply Z.eqb_eq in Hid. apply list_elem_of_In in Hg. cbn in Hg.
  apply List.filter_In in Hg as [Hg Hne]. apply list_elem_of_In in Hin, Hg. rewrite <- (H1 f g Hin Hg Hr Rg), Hid, Z.eqb_refl in Hne. done.
Qed.

Lemma removed_fine t u : fine u -> fine (remove_flight t u).
Proof.
  intros Hf. apply (fine_unchanged u); [done|done|]. intros f Hin _. apply list_elem_of_In in Hin. cbn in Hin.
  apply List.filter_In in Hin as [Hin _]. by apply list_elem_of_In.
Qed.

Lemma copied_leftover l (u1 : usb_device) total b0 rest c total' b n h : sizes_ok l -> buffer_ok b0 -> buf_s b0 < 2 ^ 64 ->
  read_from_buffer (drop n l) total b0 = (rest, c, total', b) -> (n <= List.length l)%nat ->
  Forall (fun n => n <= 49 * read_size (u_impl u1)) l -> rest <> [] -> buf_s b = queued u1 ->
  hungry (mkTransferData (Reading l) (List.length l - List.length rest) total' h) u1.
Proof.
  intros Hl Hb Hs E Hn Hf Hrest Hq. apply read_from_buffer_eq in E as (_ & _ & _ & filled & Hfill & _ & _ & Hlast); [|by apply Forall_drop|done|done].
  destruct rest as [|x rest]; [done|]. exists l, x, rest. cbn [td_seq td_idx]. split_and!; [done| |lia|done].
  pose proof (filled_take l n filled (x :: rest) Hn Hfill) as Ht.
  apply (app_inv_head (take (List.length l - List.length (x :: rest)) l)). rewrite take_drop, Ht, <- app_assoc, <- Hfill. by rewrite take_drop.
Qed.

Lemma read_fine h l r u : device_ok u -> queued u < 2 ^ 32 -> quiet u -> Forall (fun n => 0 <= n <= 49 * read_size (u_impl u)) l ->
  fine (fst (async_read_some h l r u)).
Proof.
  intros Hd Hq Hquiet Hl. assert (sizes_ok l) as Hl1 by (eapply Forall_impl; [exact Hl|]; cbn; lia).
  assert (Forall (fun n => n <= 49 * read_size (u_impl u)) l) as Hl2 by (eapply Forall_impl; [exact Hl|]; cbn; lia).
  unfold async_read_some. destruct (read_from_buffer l 0 (read_buffer (u_impl u))) as [[[rest c] total] b] eqn:E.
  assert (quiet (set_impl (set_read_buffer b (u_impl u)) u)) as Hq1 by exact Hquiet.
  destruct rest as [|n rest]; [by apply fine_quiet|]. apply start_fine; [done|].
  eapply (copied_leftover l _ 0 (read_buffer (u_impl u)) (n :: rest) c total b 0); [done|apply Hd|unfold queued in Hq; lia|done|lia|done|done|done].
Qed.

Lemma completed_fine t f l k bytes r u : device_ok u -> 1 <= read_size (u_impl u) -> quiet u -> flight_ok f ->
  td_seq (fl_data f) = Reading l -> queued u < 49 * read_size (u_impl u) -> Forall (fun n => n <= 49 * read_size (u_impl u)) l ->
  pool_has k (u_impl u) = true -> len bytes < 2 ^ 31 ->
  exists u' e, (i ← commit_buffer k bytes (u_impl u);
   let '(rest, copied, total, b) := read_from_buffer (drop (td_idx (fl_data f)) l) (total_transfered (fl_data f)) (read_buffer i) in
   let u := set_impl (set_read_buffer b i) u in
   let d := mkTransferData (Reading l) (List.length l - List.length rest) total (td_handler (fl_data f)) in
   match rest with [] => finish t d copied None u | _ => continue t d copied r u end) = Ok (u', e) /\ fine u'.
Proof.
  intros Hd Hp Hquiet Hok Hl Hq Hf Hk Hb. pose proof (size_ok u Hd). pose proof (queue_ok u Hd) as Hbu. unfold queued, buffer_ok in *.
  destruct (commit_room k bytes (u_impl u)) as [i Ei]; [done|lia|done|done|done|]. rewrite Ei. cbn [mbind res_bind]. pose proof (len_nonneg bytes).
  apply commit_buffer_eq in Ei as (_ & Hbi & Hsi & Hri); [|done|lia|lia].
  unfold flight_ok in Hok. rewrite Hl in Hok. destruct Hok as (Hs & Hidx & _).
  destruct (read_from_buffer _ _ _) as [[[rest c] total] b] eqn:Er. set (u1 := set_impl (set_read_buffer b i) u).
  assert (quiet u1) as Hq1 by exact Hquiet. assert (Forall (fun n => n <= 49 * read_size (u_impl u1)) l) as Hf1 by (cbn; by rewrite Hri).
  destruct rest as [|n rest].
  - eexists _, _. split; [reflexivity|]. by apply fine_quiet.
  - assert (hungry (mkTransferData (Reading l) (List.length l - List.length (n :: rest)) total (td_handler (fl_data f))) u1) as Hh.
    { eapply copied_leftover; [exact Hs|exact Hbi|lia|exact Er|exact Hidx|exact Hf1|done|done]. }
    destruct (continue _ _ _ _ u1) as [[u' e]| | | |] eqn:Ec; try (unfold continue in Ec; by destruct (prepare_transfer _ u1) as [[[? ?] ?] ?]).
    exists u', e. split; [done|]. by eapply continue_fine.
Qed.

Lemma writer_submitted t d u l : fine u -> td_seq d = Writing l -> fine (submit t d None u).
Proof.
  intros Hf Hl. apply (fine_unchanged u); [done|done|]. intros f [Hin| ->%list_elem_of_singleton]%elem_of_app [k Hk]; [done|].
  cbn in Hk. congruence.
Qed.

Lemma write_fine h l r u : fine u -> fine (fst (async_write_some h l r u)).
Proof.
  intros Hf. unfold async_write_some, start_transfer. pose proof (alloc_transfer_keeps u) as [H1 H2]. destruct (alloc_transfer u) as [t u1]. cbn [snd] in *.
  assert (fine u1) as Hf1 by (apply (fine_unchanged u); [done|unfold unchanged; by rewrite H1|intros f; by rewrite H2]).
  cbn [prepare_transfer td_seq]. destruct (r =? LIBUSB_SUCCESS); [by eapply writer_submitted|]. by apply (fine_unchanged u1).
Qed.

Lemma written_fine t d l r u : fine u -> td_seq d = Writing l -> exists u' e, continue t d [] r u = Ok (u', e) /\ fine u'.
Proof.
  intros Hf Hl. unfold continue, prepare_transfer. rewrite Hl.
  destruct (r =? LIBUSB_SUCCESS); eexists _, _; (split; [reflexivity|]); [by eapply writer_submitted|]. by apply (fine_unchanged u).
Qed.

Lemma finish_fine t d c ec u : fine u -> exists u' e, finish t d c ec u = Ok (u', e) /\ fine u'.
Proof. intros Hf. eexists _, _. split; [reflexivity|]. by apply (fine_unchanged u). Qed.

Lemma completion_fine t st bytes r u : calm u -> disciplined (Completion t st bytes r) u ->
  exists u' e, on_completion t st bytes r u = Ok (u', e) /\ fine u'.
Proof.
  intros [Hd Hp Hm H1 H2] Hdis. assert (fine u) as Hf by by split. unfold on_completion. cbn [disciplined] in Hdis.
  destruct (find_flight t u) as [f|] eqn:Ef; [|by exists u, []].
  destruct (find_flight_ok t u f (flights_ok u Hd) Ef) as (Hok & Hin & _). pose proof (removed_ok t u Hd) as Hd1.
  pose proof (H2 f Hin) as Hr. unfold reader_ok in Hr. destruct (td_seq (fl_data f)) as [l|l] eqn:El.
  - destruct Hr as ((n & rest & Hdrop & Hn) & Hl & k & -> & Hk). assert (quiet (remove_flight t u)) as Hq by (eapply quiet_removed; [done|exact Ef|by exists l]).
    assert (n <= 49 * read_size (u_impl u)) as Hnl.
    { rewrite <- (take_drop (td_idx (fl_data f)) l), Hdrop in Hl. apply Forall_app in Hl as [_ Hl]. by apply Forall_cons in Hl as [? _]. }
    destruct st; [eapply completed_fine; try done; unfold queued in *; cbn; lia|..];
      (unfold release; change (pool_has k (u_impl (remove_flight t u))) with (pool_has k (u_impl u)); rewrite Hk; cbn [assert_ mbind res_bind];
       apply finish_fine, fine_quiet; exact Hq).
  - subst st. pose proof (removed_fine t u Hf) as Hf1. destruct (_ <? _)%nat; [by eapply written_fine|by apply finish_fine].
Qed.

Lemma step_calm e u : calm u -> disciplined e u -> exists u' eff, step e u = Ok (u', eff) /\ calm u'.
Proof.
  intros Hc Hdis. assert (fine u) as Hf by (split; apply Hc). destruct Hc as [Hd Hp Hm H1 H2] eqn:Hcalm.
  assert (exists u' eff, step e u = Ok (u', eff) /\ fine u') as (u' & eff & E & Hf').
  { destruct e as [h l r|h l r|t st bytes r|]; cbn [step disciplined] in *.
    - destruct Hdis as [Hq Hl]. pose proof (read_fine h l r u Hd Hm Hq Hl). destruct (async_read_some h l r u) as [u' eff]. by exists u', eff.
    - pose proof (write_fine h l r u Hf). destruct (async_write_some h l r u) as [u' eff]. by exists u', eff.
    - by apply completion_fine.
    - eexists _, _. split; [reflexivity|]. by apply (fine_unchanged u). }
  exists u', eff. split; [done|]. assert (event_ok e) as He.
  { destruct e; try done. destruct Hdis as [_ Hl]. eapply Forall_impl; [exact Hl|]. cbn. lia. }
  assert (len (received e u) < 2 ^ 31 /\ (received e u = [] \/ queued u < 49 * 2 ^ 20)) as [Hr1 Hr2].
  { destruct e as [h l r|h l r|t st bytes r|]; cbn [received disciplined] in *; try (split; [done|by left]).
    destruct (find_flight t u) as [f|] eqn:Ef; [|destruct st; (split; [done|by left])].
    destruct (find_flight_ok t u f (flights_ok u Hd) Ef) as (_ & Hin & _). pose proof (H2 f Hin) as Hr. unfold reader_ok in Hr.
    destruct (td_seq (fl_data f)) as [l|l]; [|subst st; (split; [done|by left])]. destruct Hr as ((n & rest & Hdrop & Hn) & Hl & _).
    rewrite <- (take_drop (td_idx (fl_data f)) l), Hdrop in Hl. apply Forall_app in Hl as [_ Hl]. apply Forall_cons in Hl as [Hl _].
    pose proof (size_ok u Hd). destruct st; (split; [done|]); first [by left|right; lia]. }
  destruct (step_correct e u u' eff Hd He) as (_ & Hcount & Hsize & Hd' & _); [lia|done|]. pose proof (len_nonneg (copied eff)).
  split; [done|lia| |apply Hf'|apply Hf']. destruct Hr2 as [Hr2|Hr2]; [rewrite Hr2 in Hcount; unfold len in Hcount at 2; cbn in Hcount|]; lia.
Qed.

(** C22: One reader at a time that asks for at most 49 packets in one piece never
    overruns the buffers and never finds its buffer missing: whatever the device
    delivers and whenever, every completion is handled, although the room that
    is made for what arrived is computed from the wrong numbers. *)
Theorem usb_reads_in_bounds i l : read_buffer i = UsbDevice.empty_buffer -> 1 <= read_size i < 2 ^ 20 ->
  obeyed l (new_device i) = true -> exists u e, steps l (new_device i) = Ok (u, e) /\ queued u < 2 ^ 32.
Proof.
  intros Hb Hr. assert (calm (new_device i)) as Hc.
  { split; [split; cbn; rewrite ?Hb; [done|lia|constructor]|cbn; lia|unfold queued; cbn; by rewrite Hb|by intros f g ?%elem_of_nil|by intros f ?%elem_of_nil]. }
  revert Hc. generalize (new_device i). induction l as [|x l IH]; intros u Hc Hdis.
  - exists u, []. split; [done|]. apply Hc.
  - apply andb_true_iff in Hdis as [Hx Hdis]. apply obeys_disciplined in Hx. destruct (step_calm x u Hc Hx) as (u1 & e1 & E1 & Hc1). rewrite E1 in Hdis.
    destruct (IH u1 Hc1 Hdis) as (u2 & e2 & E2 & Hm). exists u2, (e1 ++ e2). split; [|done]. cbn [steps]. rewrite E1. cbn [mbind res_bind]. by rewrite E2.
Qed.

(** ** Samples *)

(** A robot as it is after it was opened, with packets of 64 bytes. *)
Definition sample_usb : implementation_type :=
  mkImpl (Some 3) (Some 3) [0; 194; 1; 0; 0; 0; 8] false true 0x01 0x82 64 64 UsbDevice.empty_buffer [] [].

Definition numbers (first : Z) (n : nat) : list Z := imap (fun i _ => u8 (first + Z.of_nat i)) (replicate n 0).

(** A reader that gets its bytes in two transfers, and one that is served at
    once; a write in between. *)
Definition sample_events : list event :=
  [AsyncRead 1 [6; 4] 0; AsyncWrite 2 [[7; 8; 9]] 0; Completion 0 TransferCompleted (numbers 1 8) 0;
   Completion 2 TransferCompleted [7; 8; 9] 0; Completion 0 TransferCompleted (numbers 9 5) 0; AsyncRead 3 [3] 0; CancelAll].

Lemma usb_stream_witness : exists u e, steps sample_events (new_device sample_usb) = Ok (u, e) /\
  (numbers 1 13 = copied e ++ queue u /\
   forall h sizes r t, AsyncRead h sizes r ∈ sample_events -> PostHandler h None t ∈ e -> t = sum sizes /\ len (delivered h e) = t) /\
  delivered 1 e = numbers 1 10 /\ PostHandler 3 None 3 ∈ e.
Proof.
  eexists _, _. match goal with |- ?P /\ _ => assert P as E end; [vm_compute; reflexivity|]. split; [exact E|]. split.
  - refine (usb_stream sample_usb sample_events _ _ eq_refl _ _ _ _ E).
    + split; reflexivity || discriminate.
    + repeat constructor; discriminate.
    + vm_compute. repeat constructor; rewrite ?elem_of_cons, ?elem_of_nil; intuition discriminate.
    + reflexivity.
  - split; [reflexivity|]. apply list_elem_of_In. vm_compute. auto 20.
Defined.

Lemma usb_reads_in_bounds_witness : exists u e, steps sample_events (new_device sample_usb) = Ok (u, e) /\ queued u < 2 ^ 32.
Proof.
  refine (usb_reads_in_bounds sample_usb sample_events eq_refl _ _); [split; reflexivity || discriminate|]. vm_compute. reflexivity.
Defined.

(** Two readers at a time can overrun the buffer: the room for 65 bytes is made
    in front of 3186 that nobody took. *)
Example two_readers_overrun :
  steps [AsyncRead 1 [4000] 0; AsyncRead 2 [10] 0; Completion 2 TransferCompleted (numbers 0 3196) 0;
         Completion 0 TransferCompleted (numbers 0 65) 0] (new_device sample_usb) = Undef.
Proof. vm_compute. reflexivity. Qed.

(** A write that fails looks for its buffer in the pool, where it is not. *)
Example failed_write_crashes :
  steps [AsyncWrite 1 [[1; 2]] 0; Completion 0 TransferStall [] 0] (new_device sample_usb) = Crash.
Proof. vm_compute. reflexivity. Qed.

(** A transfer that is refused when it goes on is forgotten, with its handler. *)
Example refused_transfer_forgotten :
  match steps [AsyncRead 1 [6; 4] 0; Completion 0 TransferCompleted (numbers 1 6) LIBUSB_ERROR_NO_DEVICE] (new_device sample_usb) with
  | Ok (u, e) => Some (in_flight u, List.filter (fun x => match x with PostHandler _ _ _ => true | _ => false end) e)
  | _ => None
  end = Some ([], []).
Proof. vm_compute. reflexivity. Qed.

(** A write of two buffers counts only the last. *)
Example write_counts_last :
  match steps [AsyncWrite 1 [[1; 2; 3]; [4]] 0; Completion 0 TransferCompleted [1; 2; 3] 0; Completion 0 TransferCompleted [4] 0] (new_device sample_usb) with
  | Ok (_, e) => List.flat_map (fun x => match x with PostHandler h ec n => [(h, ec, n)] | _ => [] end) e
  | _ => []
  end = [(1, None, 1)].
Proof. vm_compute. reflexivity. Qed.

(** A blocking read that gets less than it asked for: the number of bytes in
    the buffer wraps around, and from then on there is always something to
    read, without asking the device. *)
#[local] Instance short_device : Libusb (list (list Z)) := {
  usb := fun _ d => (0, d);
  config_descriptor := fun _ => inr [];
  bulk_in := fun _ d => match d with b :: d' => (0, b, d') | [] => (LIBUSB_ERROR_NO_DEVICE, [], []) end;
  bulk_out := fun b d => (0, len b, d)
}.

Example short_read_wraps :
  match read_some (E:=unit) sample_usb [8] [numbers 1 7] with
  | Ok (bytes, r, i, d) =>
      Some (bytes, r, buf_s (read_buffer i), match read_some (E:=unit) i [8] d with Ok (bytes, r, _, _) => Some (bytes, r) | _ => None end)
  | _ => None
  end = Some ([1; 2; 3; 4; 5; 6; 7; 0], inr 7, 2 ^ 64 - 1, Some (replicate 8 0, inr 8)).
Proof. vm_compute. reflexivity. Qed.

(** The name of a rate and the rate differ. *)
Example baud_38400 : List.find (fun e => negb (fst e =? snd e)) baud_rate = Some (38400, 34800).
Proof. reflexivity. Qed.

(** Moving a device mixes up its lines. *)
Example moved_lines :
  let '(a, b) := swap_implementation (new_implementation []) (set_lines false true (new_implementation [])) in
  (dtr a, rts a, dtr b, rts b) = (true, false, false, true).
Proof. reflexivity. Qed.

(** After an interface was busy the device is half open: a second attempt says
    that it is open already. *)
#[local] Instance busy_device : Libusb unit := {
  usb := fun c d => (match c with ClaimInterface _ => -6 | _ => 0 end, d);
  config_descriptor := fun _ => inr [];
  bulk_in := fun _ d => (0, [], d);
  bulk_out := fun b d => (0, len b, d)
}.

Example busy_device_stays_open :
  let s := mkState (set_device (Some 3) (new_implementation [])) [] tt in
  (fst (open s), fst (open (snd (open s)))) = (Some (Libusb_error (-6)), Some already_open).
Proof. reflexivity. Qed.
