(* ===== verification/Acceptor.v ===== *)
(** * What an acceptor of devices promises

    The USB and the serial acceptors (usbacceptor.h, serialacceptor.h) share a
    contract: requests are served in the order in which they come, and a device
    that was given to a session is given to no other before it is released.
    The contract is a class; what follows from it is proved once. *)
From Stdlib Require Import ZArith Lia List.
From stdpp Require Import base list gmap.
From S2P Require Import Prelude.

Local Open Scope Z_scope.

(** ** Data *)

(** usb_utils.h and aseba_device.h. *)
Record usb_device_identifier : Type := mkId { vendor_id : Z; product_id : Z }.

#[export] Instance usb_device_identifier_eq : EqDecision usb_device_identifier.
Proof. solve_decision. Defined.

Definition THYMIO2_DEVICE_ID : usb_device_identifier := mkId 0x0617 0x000a.
Definition THYMIO_WIRELESS_DEVICE_ID : usb_device_identifier := mkId 0x0617 0x000c.

(** A request: what its acceptor is compatible with, and its handler. *)
Record request : Type := mkRequest { compatible_devices : list usb_device_identifier; handler : Z }.

Definition compatible (r : request) (id : usb_device_identifier) : bool := bool_decide (id ∈ compatible_devices r).

(** What an acceptor does: it gives a device to the handler of a request,
    releases a device, signals [device_unplugged], arms its timer, or waits for
    a change of the devices. *)
Inductive output (D : Type) : Type :=
| Gave (h : Z) (d : D)
| Released (d : D)
| Unplugged (d : D)
| Timer (ms : Z)
| Wait.
Arguments Gave {D}.
Arguments Released {D}.
Arguments Unplugged {D}.
Arguments Timer {D}.
Arguments Wait {D}.

#[export] Instance output_eq {D} `{EqDecision D} : EqDecision (output D).
Proof. solve_decision. Defined.

Definition given {D} (o : list (output D)) : list Z := omap (fun x => match x with Gave h _ => Some h | _ => None end) o.

(** ** The contract *)

(** The devices in use, through what an acceptor does. *)
Inductive tracks {D} `{Countable D} : gset D -> list (output D) -> gset D -> Prop :=
| tracks_nil u : tracks u [] u
| tracks_gave u h d o u' : d ∉ u -> tracks ({[d]} ∪ u) o u' -> tracks u (Gave h d :: o) u'
| tracks_released u d o u' : tracks (u ∖ {[d]}) o u' -> tracks u (Released d :: o) u'
| tracks_unplugged u d o u' : tracks u o u' -> tracks u (Unplugged d :: o) u'
| tracks_timer u ms o u' : tracks u o u' -> tracks u (Timer ms :: o) u'
| tracks_wait u o u' : tracks u o u' -> tracks u (Wait :: o) u'.

(** A step that serves requests: those that were waiting and those that join
    are served from the front. *)
Class Acceptor (S E D : Type) `{Countable D} : Type := {
  initial : S;
  step : E -> S -> S * list (output D);
  joins : E -> list Z;
  requests_of : S -> list Z;
  in_use : S -> gset D;
  valid : S -> Prop;
  initial_ok : valid initial /\ requests_of initial = [] /\ in_use initial = ∅;
  step_valid e s : valid s -> valid (step e s).1;
  step_order e s : valid s -> requests_of s ++ joins e = given (step e s).2 ++ requests_of (step e s).1;
  step_tracks e s : valid s -> tracks (in_use s) (step e s).2 (in_use (step e s).1)
}.

Lemma given_app {D} (o1 o2 : list (output D)) : given (o1 ++ o2) = given o1 ++ given o2.
Proof. apply omap_app. Qed.

Section Contract.
Context {S E D : Type} `{Countable D} {A : Acceptor S E D}.

Fixpoint steps (l : list E) (s : S) : S * list (output D) :=
  match l with
  | [] => (s, [])
  | e :: l' => let '(s1, o1) := step e s in let '(s2, o2) := steps l' s1 in (s2, o1 ++ o2)
  end.

(** The two promises. *)
Definition in_order : Prop := forall l, let '(s, o) := steps l initial in List.flat_map joins l = given o ++ requests_of s.
Definition exclusive : Prop := forall l h1 h2 d o1 o2 o3,
  (steps l initial).2 = o1 ++ Gave h1 d :: o2 ++ Gave h2 d :: o3 -> Released d ∈ o2.
End Contract.
Arguments in_order {S E D _ _} A.
Arguments exclusive {S E D _ _} A.

Section Tracks.
Context {D : Type} `{Countable D}.

Lemma tracks_app u (o1 o2 : list (output D)) u1 u2 : tracks u o1 u1 -> tracks u1 o2 u2 -> tracks u (o1 ++ o2) u2.
Proof. induction 1; cbn; intros; try constructor; auto. Qed.

Lemma tracks_split u (o1 o2 : list (output D)) u2 : tracks u (o1 ++ o2) u2 -> exists u1, tracks u o1 u1 /\ tracks u1 o2 u2.
Proof.
  revert u. induction o1 as [|x o1 IH]; intros u Ht; [eexists; split; [constructor|done]|].
  inversion Ht; subst; edestruct IH as (u1 & ? & ?); try eassumption; exists u1; (split; [constructor; auto|done]).
Qed.

(** A device leaves the set only when it is released. *)
Lemma tracks_stays u o u' (d : D) : tracks u o u' -> d ∈ u -> Released d ∉ o -> d ∈ u'.
Proof. induction 1; rewrite ?elem_of_cons; intros Hd Hr; auto; apply IHtracks; try tauto; set_unfold; naive_solver. Qed.

Lemma tracks_exclusive u o1 h1 (d : D) o2 h2 o3 u' :
  tracks u (o1 ++ Gave h1 d :: o2 ++ Gave h2 d :: o3) u' -> Released d ∈ o2.
Proof.
  intros (u1 & _ & Ht)%tracks_split. inversion Ht as [|? ? ? ? ? _ Ht2| | | |]; subst. apply tracks_split in Ht2 as (u2 & Ht2 & Ht3).
  inversion Ht3; subst. destruct (decide (Released d ∈ o2)) as [|Hr]; [done|]. exfalso.
  eapply (tracks_stays _ _ _ d) in Ht2; [|set_solver|exact Hr]. done.
Qed.
End Tracks.

Section Consequences.
Context {S E D : Type} `{Countable D} {A : Acceptor S E D}.

Lemma steps_ok l s : valid s ->
  let '(s', o) := steps l s in
  valid s' /\ requests_of s ++ List.flat_map joins l = given o ++ requests_of s' /\ tracks (in_use s) o (in_use s').
Proof.
  revert s. induction l as [|e l IH]; intros s Hs; cbn [steps List.flat_map]; [rewrite app_nil_r; split_and!; [done..|constructor]|].
  pose proof (step_valid e s Hs) as Hv. pose proof (step_order e s Hs) as Ho. pose proof (step_tracks e s Hs) as Ht.
  destruct (step e s) as [s1 o1]. cbn in *. specialize (IH s1 Hv). destruct (steps l s1) as [s2 o2]. destruct IH as (Hv2 & Ho2 & Ht2).
  split_and!; [done| |by eapply tracks_app]. by rewrite given_app, <- app_assoc, <- Ho2, !app_assoc, Ho.
Qed.

Lemma acceptor_in_order : in_order A.
Proof.
  intros l. destruct initial_ok as (Hv & Hr & _). pose proof (steps_ok l initial Hv) as Hok. destruct (steps l initial) as [s o].
  destruct Hok as (_ & Ho & _). by rewrite Hr in Ho.
Qed.

Lemma acceptor_exclusive : exclusive A.
Proof.
  intros l h1 h2 d o1 o2 o3 He. destruct initial_ok as (Hv & _). pose proof (steps_ok l initial Hv) as Hok.
  destruct (steps l initial) as [s o]. cbn in He. subst o. destruct Hok as (_ & _ & Ht). by eapply tracks_exclusive.
Qed.
End Consequences.
