(* ===== verification/SerialAcceptor.v ===== *)
(** * Acceptors of serial devices

    thymio-device-manager/serialacceptor.h, with serialacceptor_udev.cpp (the
    devices come from udev) and serialacceptor_osx.cpp, serialacceptor_win32.cpp
    (the devices are polled).  What the operating system enumerates is an
    argument of every enumeration; what macOS and Windows list is at the end. *)
From Stdlib Require Import ZArith Lia List String.
From stdpp Require Import base list gmap list_numbers strings list_monad.
From S2P Require Import Prelude Errors Acceptor.

Local Open Scope Z_scope.

Definition text : Type := list Z.

(** ** State *)

Record usb_serial_port : Type := mkPort { m_device_id : usb_device_identifier; m_device_name : text; m_port_name : text }.

(** [ports] are the ports of the requests, by their handlers. *)
Record service : Type := mkSerial {
  m_requests : list request;
  m_known_devices : list text;
  m_connected_devices : list text;
  m_paused : bool;
  m_udev_monitor : bool;
  ports : list (Z * usb_serial_port)
}.

Definition new_service : service := mkSerial [] [] [] false false [].

Definition set_requests x s := mkSerial x (m_known_devices s) (m_connected_devices s) (m_paused s) (m_udev_monitor s) (ports s).
Definition set_known x s := mkSerial (m_requests s) x (m_connected_devices s) (m_paused s) (m_udev_monitor s) (ports s).
Definition set_connected x s := mkSerial (m_requests s) (m_known_devices s) x (m_paused s) (m_udev_monitor s) (ports s).
Definition set_monitor s := mkSerial (m_requests s) (m_known_devices s) (m_connected_devices s) (m_paused s) true (ports s).
Definition set_port h p s := mkSerial (m_requests s) (m_known_devices s) (m_connected_devices s) (m_paused s) (m_udev_monitor s) ((h, p) :: List.filter (fun e => negb (fst e =? h)) (ports s)).
Definition pause x s := mkSerial (m_requests s) (m_known_devices s) (m_connected_devices s) x (m_udev_monitor s) (ports s).

(** [std::find] and [erase]: the first occurrence. *)
Fixpoint erase_first (d : text) (l : list text) : list text :=
  match l with
  | [] => []
  | x :: l' => if bool_decide (x = d) then l' else x :: erase_first d l'
  end.

Definition has (d : text) (l : list text) : bool := bool_decide (d ∈ l).

Definition remove_connected_device (d : text) (s : service) : service * list (output text) :=
  if has d (m_connected_devices s) then (set_connected (erase_first d (m_connected_devices s)) s, [Released d]) else (s, []).

(** The request at the front gets a device. *)
Definition give (r : request) (rest : list request) (d : text) (s : service) : service * list (output text) :=
  (set_requests rest (set_connected (m_connected_devices s ++ [d]) s), [Gave (handler r) d]).

(** ** udev *)

Definition is_space (c : Z) : bool := (c =? 32) || ((9 <=? c) && (c <=? 13)).
Definition hex_digit (c : Z) : option Z :=
  if (48 <=? c) && (c <=? 57) then Some (c - 48)
  else if (65 <=? c) && (c <=? 70) then Some (c - 55)
  else if (97 <=? c) && (c <=? 102) then Some (c - 87)
  else None.

Fixpoint hex_digits (l : text) : list Z :=
  match l with
  | c :: l' => match hex_digit c with Some d => d :: hex_digits l' | None => [] end
  | [] => []
  end.

Definition hex_value (l : list Z) : Z := foldl (fun a d => 16 * a + d) 0 l.

Fixpoint skip_spaces (l : text) : text := match l with c :: l' => if is_space c then skip_spaces l' else l | [] => [] end.

(** [std::stoi(s, nullptr, 16)]; [None] is an exception. *)
Definition stoi16 (s : text) : option Z :=
  let l := skip_spaces s in
  let '(sign, l) := match l with 45 :: l' => (-1, l') | 43 :: l' => (1, l') | _ => (1, l) end in
  let l := match l with
           | 48 :: x :: d :: l' => if ((x =? 120) || (x =? 88)) && match hex_digit d with Some _ => true | None => false end then d :: l' else l
           | _ => l
           end in
  match hex_digits l with
  | [] => None
  | ds => let v := sign * hex_value ds in if in_s32 v then Some v else None
  end.

(** The attributes of the USB parent of a device, where there is one. *)
Record usb_parent : Type := mkParent { idProduct : option text; idVendor : option text; product : option text }.
Record udev_device : Type := mkUdev { devnode : option text; parent : option usb_parent }.

(** [None] is an exception, which the enumeration swallows. *)
Definition handle_request (dev : option udev_device) (r : request) (s : service) : option (bool * service * list (output text)) :=
  match m_requests s with
  | [] => Some (false, s, [])
  | _ :: rest =>
      if m_paused s then Some (false, s, [])
      else match dev with
      | None => Some (false, s, [])
      | Some dev =>
          match devnode dev with
          | None => Some (false, s, [])
          | Some n =>
              if has n (m_connected_devices s) then Some (false, s, [])
              else match parent dev with
              | None => Some (false, s, [])
              | Some usb =>
                  name ← product usb;
                  match idProduct usb, idVendor usb with
                  | Some p, Some v =>
                      v ← stoi16 v; p ← stoi16 p;
                      let id := mkId (u16 v) (u16 p) in
                      if negb (compatible r id) then Some (false, s, [])
                      else
                        let s := set_known (m_known_devices s ++ [n]) s in
                        let s := set_port (handler r) (mkPort id name n) s in
                        let '(s, o) := give r rest n s in
                        Some (true, s, o)
                  | _, _ => Some (false, s, [])
                  end
              end
          end
      end
  end.

(** The loop over the devices, which ends with the first that is given. *)
Fixpoint scan (l : list (option udev_device)) (known : list text) (s : service) : list text * service * list (output text) :=
  match l, m_requests s with
  | dev :: l', r :: _ =>
      let known := match dev ≫= devnode with Some n => n :: known | None => known end in
      match handle_request dev r s with
      | Some (true, s, o) => (known, s, o)
      | _ => scan l' known s
      end
  | _, _ => (known, s, [])
  end.

(** The devices that are not among those that were seen. *)
Fixpoint sweep (seen l : list text) (s : service) : list text * service * list (output text) :=
  match l with
  | [] => ([], s, [])
  | d :: l' =>
      if has d seen then let '(kept, s, o) := sweep seen l' s in (d :: kept, s, o)
      else
        let '(s, o1) := remove_connected_device d s in
        let '(kept, s, o2) := sweep seen l' s in
        (kept, s, Unplugged d :: o1 ++ o2)
  end.

Definition udev_enumeration (l : list (option udev_device)) (s : service) : service * list (output text) :=
  match m_requests s with
  | [] => (s, [])
  | _ =>
      if m_paused s then (s, [])
      else
        let '(seen, s, o1) := scan l [] s in
        let '(kept, s, o2) := sweep seen (m_known_devices s) s in
        (set_known kept s, o1 ++ o2 ++ [Wait])
  end.

Definition free_device (d : text) (s : service) : service * list (output text) :=
  remove_connected_device d (set_known (erase_first d (m_known_devices s)) s).

Inductive udev_event : Type :=
| UAccept (r : request)
| UEnumerate (l : list (option udev_device))
| UdevEvent (ec : option Z) (l : list (option udev_device))
| UPause (x : bool)
| UFree (d : text).

(** [register_request]; the monitor is made with the first request. *)
Definition udev_accept_async (m_udev : bool) (r : request) (s : service) : service * list (output text) :=
  let s := set_requests (m_requests s ++ [r]) s in
  if negb m_udev then (s, [])
  else if m_udev_monitor s then (s, [Timer 500])
  else (set_monitor s, [Timer 500; Wait]).

Definition udev_step (m_udev : bool) (e : udev_event) (s : service) : service * list (output text) :=
  match e with
  | UAccept r => udev_accept_async m_udev r s
  | UEnumerate l => udev_enumeration l s
  | UdevEvent ec l => match ec with Some _ => (s, []) | None => udev_enumeration l s end
  | UPause x => (pause x s, [])
  | UFree d => let '(s, o) := free_device d s in (s, o ++ [Timer 500])
  end.

(** ** Polling *)

(** A device that the system lists, and whether its port opens. *)
Record serial_service : Type := mkService { ss_id : usb_device_identifier; ss_name : text; ss_path : text; ss_opens : bool }.

Definition poll_one (devices : list usb_device_identifier) (e : serial_service) (s : service) : list text * service * list (output text) :=
  if negb (bool_decide (ss_id e ∈ devices)) then ([], s, [])
  else
    match m_requests s with
    | [] => ([ss_path e], s, [])
    | r :: rest =>
        if has (ss_path e) (m_connected_devices s) then ([ss_path e], s, [])
        else
          let s := set_port (handler r) (mkPort (ss_id e) (ss_name e) (ss_path e)) s in
          let '(s, o) := if ss_opens e then give r rest (ss_path e) s else (s, []) in
          ([ss_path e], s, o)
    end.

Fixpoint poll (devices : list usb_device_identifier) (l : list serial_service) (s : service) : list text * service * list (output text) :=
  match l with
  | [] => ([], s, [])
  | e :: l' =>
      let '(known1, s, o1) := poll_one devices e s in
      let '(known2, s, o2) := poll devices l' s in
      (known1 ++ known2, s, o1 ++ o2)
  end.

Fixpoint poll_sweep (seen l : list text) (s : service) : service * list (output text) :=
  match l with
  | [] => (s, [])
  | d :: l' =>
      if has d seen then poll_sweep seen l' s
      else
        let '(s, o1) := remove_connected_device d s in
        let '(s, o2) := poll_sweep seen l' s in
        (s, o1 ++ Unplugged d :: o2)
  end.

Definition poll_enumeration (l : list serial_service) (s : service) : service * list (output text) :=
  match m_requests s with
  | [] => (s, [])
  | r :: _ =>
      if m_paused s then (s, [])
      else
        let '(known, s, o1) := poll (compatible_devices r) l s in
        let '(s, o2) := poll_sweep known (m_known_devices s) s in
        (set_known known s, o1 ++ o2)
  end.

(** The interval is half a second on macOS and a second on Windows. *)
Definition on_active_timer (interval : Z) (ec : option Z) (l : list serial_service) (s : service) : service * list (output text) :=
  match ec with
  | Some _ => (s, [])
  | None =>
      let '(s, o) := poll_enumeration l s in
      (s, o ++ match m_requests s with [] => [] | _ => [Timer interval] end)
  end.

(** On Windows a device that is freed starts an enumeration at once. *)
Inductive poll_event : Type :=
| PAccept (r : request)
| PTimer (ec : option Z) (l : list serial_service)
| PEnumerate (l : list serial_service)
| PPause (x : bool)
| PFree (d : text)
| PFreeNow (d : text) (l : list serial_service).

Definition poll_step (interval : Z) (e : poll_event) (s : service) : service * list (output text) :=
  match e with
  | PAccept r => (set_requests (m_requests s ++ [r]) s, [Timer 1])
  | PTimer ec l => on_active_timer interval ec l s
  | PEnumerate l => poll_enumeration l s
  | PPause x => (pause x s, [])
  | PFree d => free_device d s
  | PFreeNow d l =>
      let '(s, o1) := free_device d s in
      let '(s, o2) := on_active_timer interval None l s in
      (s, o1 ++ o2)
  end.

(** ** Both keep the contract *)

Lemma erase_first_spec d l : NoDup l -> NoDup (erase_first d l) /\ forall x, x ∈ erase_first d l <-> x ∈ l /\ x <> d.
Proof.
  induction 1 as [|y l Hy Hl [IH1 IH2]]; cbn [erase_first]; [split; [constructor|set_solver]|]. case_bool_decide as Hd.
  - subst. split; [done|]. set_solver.
  - split; [constructor; [rewrite IH2; tauto|done]|]. set_solver.
Qed.

Definition used (s : service) : gset text := list_to_set (m_connected_devices s).
Definition queued (s : service) : list Z := List.map handler (m_requests s).

(** A part of a step, with what it does. *)
Record deals (s s' : service) (o : list (output text)) : Prop := {
  deals_valid : NoDup (m_connected_devices s');
  deals_order : queued s = given o ++ queued s';
  deals_tracks : tracks (used s) o (used s')
}.

Lemma deals_refl s s' o : NoDup (m_connected_devices s) -> m_connected_devices s' = m_connected_devices s -> m_requests s' = m_requests s ->
  Forall (fun x => match x with Unplugged _ | Timer _ | Wait => True | _ => False end) o -> deals s s' o.
Proof.
  intros Hs Hc Hr Ho. unfold queued, used. split; unfold queued, used; rewrite ?Hc, ?Hr; [done|..];
    induction Ho as [|x o Hx _ IH]; try done; try constructor; destruct x; try done; try constructor; done.
Qed.

Lemma deals_trans s1 s2 s3 o1 o2 : deals s1 s2 o1 -> deals s2 s3 o2 -> deals s1 s3 (o1 ++ o2).
Proof.
  intros [V1 O1 T1] [V2 O2 T2]. split; [done| |by eapply tracks_app]. by rewrite given_app, <- app_assoc, <- O2.
Qed.

(** What a change of the other members leaves. *)
Lemma deals_change s s' s1 s1' o : deals s s' o -> m_connected_devices s1 = m_connected_devices s -> m_requests s1 = m_requests s ->
  m_connected_devices s1' = m_connected_devices s' -> m_requests s1' = m_requests s' -> deals s1 s1' o.
Proof. intros [V O T] H1 H2 H3 H4. unfold queued, used in *. by split; unfold queued, used; rewrite ?H1, ?H2, ?H3, ?H4. Qed.

Lemma remove_deals d s : NoDup (m_connected_devices s) -> let '(s', o) := remove_connected_device d s in deals s s' o.
Proof.
  intros Hs. unfold remove_connected_device, has. case_bool_decide as Hd; [|by apply deals_refl].
  destruct (erase_first_spec d _ Hs) as [H1 H2]. split; [done|done|]. constructor. unfold used. cbn.
  replace (list_to_set (m_connected_devices s) ∖ {[d]}) with (list_to_set (erase_first d (m_connected_devices s)) : gset text); [constructor|].
  apply set_eq. intros x. rewrite elem_of_difference, !elem_of_list_to_set, elem_of_singleton. apply H2.
Qed.

Lemma give_deals r rest d s : NoDup (m_connected_devices s) -> m_requests s = r :: rest -> d ∉ m_connected_devices s ->
  let '(s', o) := give r rest d s in deals s s' o.
Proof.
  intros Hs Hr Hd. unfold give. split; unfold queued, used; cbn.
  - apply NoDup_app. split_and!; [done|set_solver|apply NoDup_singleton].
  - by rewrite Hr.
  - constructor; [by rewrite elem_of_list_to_set|].
    replace (list_to_set (m_connected_devices s ++ [d])) with ({[d]} ∪ list_to_set (m_connected_devices s) : gset text) by set_solver. constructor.
Qed.

Lemma handle_request_deals dev r rest s : NoDup (m_connected_devices s) -> m_requests s = r :: rest ->
  match handle_request dev r s with Some (_, s', o) => deals s s' o | None => True end.
Proof.
  intros Hs Hr. unfold handle_request. rewrite Hr. destruct (m_paused s); [by apply deals_refl|]. destruct dev as [dev|]; [|by apply deals_refl].
  destruct (devnode dev) as [n|]; [|by apply deals_refl]. unfold has. case_bool_decide as Hn; [by apply deals_refl|].
  destruct (parent dev) as [usb|]; [|by apply deals_refl]. destruct (product usb); [cbn|done].
  destruct (idProduct usb) as [p|], (idVendor usb) as [v|]; try (by apply deals_refl). destruct (stoi16 v); [cbn|done]. destruct (stoi16 p); [cbn|done].
  destruct (compatible r _); [|by apply deals_refl]. cbn [negb give].
  match goal with |- deals s _ _ => pose proof (give_deals r rest n s Hs Hr Hn) as Hg; cbn in Hg; eapply (deals_change _ _ _ _ _ Hg); done end.
Qed.

Lemma scan_deals l known s : NoDup (m_connected_devices s) -> let '(_, s', o) := scan l known s in deals s s' o.
Proof.
  revert known. induction l as [|dev l IH]; intros known Hs; cbn [scan]; [by apply deals_refl|].
  destruct (m_requests s) as [|r rest] eqn:Hr; [by apply deals_refl|]. pose proof (handle_request_deals dev r rest s Hs Hr) as Hh.
  destruct (handle_request dev r s) as [[[[] s'] o]|]; [done|apply IH, Hs|apply IH, Hs].
Qed.

Lemma unplugged_deals d s s' o : deals s s' o -> deals s s' (Unplugged d :: o).
Proof. intros [V O T]. split; [done|done|by constructor]. Qed.

Lemma sweep_deals seen l s : NoDup (m_connected_devices s) -> let '(_, s', o) := sweep seen l s in deals s s' o.
Proof.
  revert s. induction l as [|d l IH]; intros s Hs; cbn [sweep]; [by apply deals_refl|]. destruct (has d seen).
  - specialize (IH s Hs). by destruct (sweep seen l s) as [[kept s'] o].
  - pose proof (remove_deals d s Hs) as Hr. destruct (remove_connected_device d s) as [s1 o1]. specialize (IH s1 (deals_valid _ _ _ Hr)).
    destruct (sweep seen l s1) as [[kept s2] o2]. by apply unplugged_deals, deals_trans with s1.
Qed.

Lemma free_deals d s : NoDup (m_connected_devices s) -> let '(s', o) := free_device d s in deals s s' o.
Proof.
  intros Hs. unfold free_device. pose proof (remove_deals d (set_known (erase_first d (m_known_devices s)) s) Hs) as Hr.
  destruct (remove_connected_device _ _) as [s1 o1]. by eapply deals_change.
Qed.

Lemma udev_enumeration_deals l s : NoDup (m_connected_devices s) -> let '(s', o) := udev_enumeration l s in deals s s' o.
Proof.
  intros Hs. unfold udev_enumeration. destruct (m_requests s) eqn:Hr; [by apply deals_refl|]. destruct (m_paused s); [by apply deals_refl|].
  pose proof (scan_deals l [] s Hs) as Hd. destruct (scan l [] s) as [[seen s1] o1].
  pose proof (sweep_deals seen (m_known_devices s1) s1 (deals_valid _ _ _ Hd)) as Hw. destruct (sweep _ _ s1) as [[kept s2] o2].
  eapply deals_trans; [exact Hd|]. eapply deals_trans; [exact Hw|]. apply deals_refl; [apply (deals_valid _ _ _ Hw)|done..|by repeat constructor].
Qed.

Lemma poll_one_deals devices e s : NoDup (m_connected_devices s) -> let '(_, s', o) := poll_one devices e s in deals s s' o.
Proof.
  intros Hs. unfold poll_one. destruct (negb _); [by apply deals_refl|]. destruct (m_requests s) as [|r rest] eqn:Hr; [by apply deals_refl|].
  unfold has. case_bool_decide as Hn; [by apply deals_refl|]. destruct (ss_opens e); [|by apply deals_refl]. cbn [give].
  pose proof (give_deals r rest (ss_path e) s Hs Hr Hn) as Hg. by eapply (deals_change _ _ _ _ _ Hg).
Qed.

Lemma poll_deals devices l s : NoDup (m_connected_devices s) -> let '(_, s', o) := poll devices l s in deals s s' o.
Proof.
  revert s. induction l as [|e l IH]; intros s Hs; cbn [poll]; [by apply deals_refl|]. pose proof (poll_one_deals devices e s Hs) as Hr.
  destruct (poll_one devices e s) as [[k1 s1] o1]. specialize (IH s1 (deals_valid _ _ _ Hr)). destruct (poll devices l s1) as [[k2 s2] o2].
  by apply deals_trans with s1.
Qed.

Lemma poll_sweep_deals seen l s : NoDup (m_connected_devices s) -> let '(s', o) := poll_sweep seen l s in deals s s' o.
Proof.
  revert s. induction l as [|d l IH]; intros s Hs; cbn [poll_sweep]; [by apply deals_refl|]. destruct (has d seen); [by apply IH|].
  pose proof (remove_deals d s Hs) as Hr. destruct (remove_connected_device d s) as [s1 o1]. specialize (IH s1 (deals_valid _ _ _ Hr)).
  destruct (poll_sweep seen l s1) as [s2 o2]. eapply deals_trans; [exact Hr|by apply unplugged_deals].
Qed.

Lemma poll_enumeration_deals l s : NoDup (m_connected_devices s) -> let '(s', o) := poll_enumeration l s in deals s s' o.
Proof.
  intros Hs. unfold poll_enumeration. destruct (m_requests s) as [|r rest] eqn:Hr; [by apply deals_refl|]. destruct (m_paused s); [by apply deals_refl|].
  pose proof (poll_deals (compatible_devices r) l s Hs) as Hd. destruct (poll _ l s) as [[known s1] o1].
  pose proof (poll_sweep_deals known (m_known_devices s1) s1 (deals_valid _ _ _ Hd)) as Hw. destruct (poll_sweep _ _ s1) as [s2 o2].
  pose proof (deals_trans _ _ _ _ _ Hd Hw) as Ht. by eapply deals_change.
Qed.

Lemma on_active_timer_deals i ec l s : NoDup (m_connected_devices s) -> let '(s', o) := on_active_timer i ec l s in deals s s' o.
Proof.
  intros Hs. unfold on_active_timer. destruct ec; [by apply deals_refl|]. pose proof (poll_enumeration_deals l s Hs) as Hd.
  destruct (poll_enumeration l s) as [s1 o1]. eapply deals_trans; [exact Hd|].
  apply deals_refl; [apply (deals_valid _ _ _ Hd)|done..|destruct (m_requests s1); by repeat constructor].
Qed.

(** A request that joins waits at the end. *)
Lemma join_deals r s s' o : NoDup (m_connected_devices s) -> m_connected_devices s' = m_connected_devices s -> m_requests s' = m_requests s ++ [r] ->
  given o = [] -> tracks (used s) o (used s) ->
  NoDup (m_connected_devices s') /\ queued s ++ [handler r] = given o ++ queued s' /\ tracks (used s) o (used s').
Proof.
  intros Hs Hc Hr Ho Ht. unfold queued, used in *. rewrite Hc, Hr, Ho, List.map_app. done.
Qed.

Definition udev_joins (e : udev_event) : list Z := match e with UAccept r => [handler r] | _ => [] end.
Definition poll_joins (e : poll_event) : list Z := match e with PAccept r => [handler r] | _ => [] end.

Lemma deals_step (s s' : service) (o : list (output text)) : deals s s' o ->
  NoDup (m_connected_devices s') /\ queued s ++ [] = given o ++ queued s' /\ tracks (used s) o (used s').
Proof. intros [V O T]. by rewrite app_nil_r. Qed.

Lemma udev_step_ok b e s : NoDup (m_connected_devices s) ->
  let '(s', o) := udev_step b e s in NoDup (m_connected_devices s') /\ queued s ++ udev_joins e = given o ++ queued s' /\ tracks (used s) o (used s').
Proof.
  intros Hs. destruct e as [r|l|[ec|] l|x|d]; cbn [udev_step udev_joins].
  - unfold udev_accept_async. destruct b; cbn [negb]; [destruct (m_udev_monitor _)|]; apply (join_deals r); try done; repeat constructor.
  - pose proof (udev_enumeration_deals l s Hs) as Hd. destruct (udev_enumeration l s). by apply deals_step.
  - by apply deals_step, deals_refl.
  - pose proof (udev_enumeration_deals l s Hs) as Hd. destruct (udev_enumeration l s). by apply deals_step.
  - by apply deals_step, deals_refl.
  - pose proof (free_deals d s Hs) as Hd. destruct (free_device d s) as [s1 o1]. apply deals_step. eapply deals_trans; [exact Hd|].
    apply deals_refl; [apply (deals_valid _ _ _ Hd)|done..|by repeat constructor].
Qed.

Lemma poll_step_ok i e s : NoDup (m_connected_devices s) ->
  let '(s', o) := poll_step i e s in NoDup (m_connected_devices s') /\ queued s ++ poll_joins e = given o ++ queued s' /\ tracks (used s) o (used s').
Proof.
  intros Hs. destruct e as [r|ec l|l|x|d|d l]; cbn [poll_step poll_joins].
  - apply (join_deals r); try done; repeat constructor.
  - pose proof (on_active_timer_deals i ec l s Hs) as Hd. destruct (on_active_timer i ec l s). by apply deals_step.
  - pose proof (poll_enumeration_deals l s Hs) as Hd. destruct (poll_enumeration l s). by apply deals_step.
  - by apply deals_step, deals_refl.
  - pose proof (free_deals d s Hs) as Hd. destruct (free_device d s). by apply deals_step.
  - pose proof (free_deals d s Hs) as Hd. destruct (free_device d s) as [s1 o1]. pose proof (on_active_timer_deals i None l s1 (deals_valid _ _ _ Hd)) as Ht.
    destruct (on_active_timer i None l s1) as [s2 o2]. by apply deals_step, deals_trans with s1.
Qed.

#[export] Instance udev_acceptor (b : bool) : Acceptor service udev_event text.
Proof.
  refine {| initial := new_service; step := udev_step b; joins := udev_joins; requests_of := queued; in_use := used;
            valid := fun s => NoDup (m_connected_devices s) |}; [split; [constructor|done]|..];
    intros e s Hs; pose proof (udev_step_ok b e s Hs) as H; destruct (udev_step b e s); tauto.
Defined.

#[export] Instance poll_acceptor (i : Z) : Acceptor service poll_event text.
Proof.
  refine {| initial := new_service; step := poll_step i; joins := poll_joins; requests_of := queued; in_use := used;
            valid := fun s => NoDup (m_connected_devices s) |}; [split; [constructor|done]|..];
    intros e s Hs; pose proof (poll_step_ok i e s Hs) as H; destruct (poll_step i e s); tauto.
Defined.

(** ** Who is served by polling *)

Definition gifts (o : list (output text)) : list (Z * text) := omap (fun x => match x with Gave h d => Some (h, d) | _ => None end) o.

(** The devices that can be given, in the order in which they are listed. *)
Fixpoint eligible (devices : list usb_device_identifier) (l : list serial_service) (connected : list text) : list text :=
  match l with
  | [] => []
  | e :: l' =>
      if bool_decide (ss_id e ∈ devices) && ss_opens e && negb (has (ss_path e) connected)
      then ss_path e :: eligible devices l' (connected ++ [ss_path e])
      else eligible devices l' connected
  end.

Definition listed (devices : list usb_device_identifier) (l : list serial_service) : list text :=
  List.map ss_path (List.filter (fun e => bool_decide (ss_id e ∈ devices)) l).

Lemma poll_spec devices l s :
  let '(known, s', o) := poll devices l s in
  gifts o = zip (queued s) (eligible devices l (m_connected_devices s)) /\ known = listed devices l /\
  m_known_devices s' = m_known_devices s /\ forall d, Unplugged d ∉ o.
Proof.
  revert s. induction l as [|e l IH]; intros s; cbn [poll eligible listed List.filter List.map].
  - split_and!; [by destruct (queued s)|done|done|set_solver].
  - unfold poll_one. case_bool_decide as Hd; cbn [negb andb].
    + destruct (m_requests s) as [|r rest] eqn:Hr.
      * specialize (IH s). destruct (poll devices l s) as [[k s'] o]. destruct IH as (Hg & -> & Hk & Hu). unfold queued in *. rewrite Hr in *.
        cbn in *. split_and!; [done..|set_solver].
      * destruct (has (ss_path e) (m_connected_devices s)) eqn:Hh.
        { specialize (IH s). destruct (poll devices l s) as [[k s'] o]. destruct IH as (Hg & -> & Hk & Hu).
          rewrite andb_false_r. cbn. split_and!; [done..|set_solver]. }
        destruct (ss_opens e); cbn [give andb negb].
        -- match goal with |- context [poll devices l ?s1] => specialize (IH s1); destruct (poll devices l s1) as [[k s'] o] end.
           destruct IH as (Hg & -> & Hk & Hu). cbn in *. unfold queued in *. rewrite Hr. cbn. split_and!; [by f_equal|done|done|set_solver].
        -- match goal with |- context [poll devices l ?s1] => specialize (IH s1); destruct (poll devices l s1) as [[k s'] o] end.
           destruct IH as (Hg & -> & Hk & Hu). cbn in *. split_and!; [done..|set_solver].
    + specialize (IH s). destruct (poll devices l s) as [[k s'] o]. destruct IH as (Hg & -> & Hk & Hu). cbn. split_and!; [done..|set_solver].
Qed.

Lemma remove_gifts d s : let '(s', o) := remove_connected_device d s in gifts o = [] /\ (forall x, Unplugged x ∉ o) /\ m_known_devices s' = m_known_devices s.
Proof. unfold remove_connected_device. destruct (has _ _); (split_and!; [done|set_solver|done]). Qed.

Lemma poll_sweep_spec seen l s :
  let '(s', o) := poll_sweep seen l s in gifts o = [] /\ forall d, Unplugged d ∈ o <-> d ∈ l /\ d ∉ seen.
Proof.
  revert s. induction l as [|d l IH]; intros s; cbn [poll_sweep]; [split; [done|set_solver]|]. unfold has. case_bool_decide as Hd.
  - specialize (IH s). destruct (poll_sweep seen l s) as [s' o]. destruct IH as [Hg Hu]. split; [done|]. intros x. rewrite Hu. set_solver.
  - pose proof (remove_gifts d s) as Hr. destruct (remove_connected_device d s) as [s1 o1]. destruct Hr as (Hr & Hx & _). specialize (IH s1).
    destruct (poll_sweep seen l s1) as [s2 o2]. destruct IH as [Hg Hu]. split; [unfold gifts in *; by rewrite omap_app, Hr|].
    intros x. rewrite elem_of_app, elem_of_cons, Hu. specialize (Hx x). set_solver.
Qed.

(** An enumeration on macOS and Windows gives the compatible devices that
    can be opened and that no session has, in the order of the listing, to the
    requests, in the order in which they came, until one of the two is
    exhausted; the devices it knows afterwards are the compatible ones that are
    listed, and it signals exactly those that it knew and that are gone. *)
Theorem poll_serves r rest l s : m_requests s = r :: rest -> m_paused s = false ->
  let '(s', o) := poll_enumeration l s in
  gifts o = zip (queued s) (eligible (compatible_devices r) l (m_connected_devices s)) /\
  m_known_devices s' = listed (compatible_devices r) l /\
  forall d, Unplugged d ∈ o <-> d ∈ m_known_devices s /\ d ∉ m_known_devices s'.
Proof.
  intros Hr Hp. unfold poll_enumeration. rewrite Hr, Hp. pose proof (poll_spec (compatible_devices r) l s) as H1.
  destruct (poll _ l s) as [[known s1] o1]. destruct H1 as (Hg & -> & Hk & Hu).
  pose proof (poll_sweep_spec (listed (compatible_devices r) l) (m_known_devices s1) s1) as H2. destruct (poll_sweep _ _ s1) as [s2 o2].
  destruct H2 as [Hg2 Hu2]. split; [unfold gifts in *; by rewrite omap_app, Hg2, app_nil_r|]. split; [done|]. intros d. cbn.
  rewrite elem_of_app, Hu2, Hk. specialize (Hu d). tauto.
Qed.

(** Two robots and a dongle that is not compatible; one port is in use. *)
Definition thymio (port : Z) (opens : bool) : serial_service := mkService THYMIO2_DEVICE_ID [84] [port] opens.
Definition sample_serial : service :=
  mkSerial [mkRequest [THYMIO2_DEVICE_ID] 1; mkRequest [THYMIO2_DEVICE_ID] 2] [[10]; [20]] [[10]] false true [].
Definition sample_listing : list serial_service :=
  [thymio 10 true; thymio 30 false; mkService (mkId 1 2) [] [40] true; thymio 50 true].

Lemma poll_serves_witness : gifts (snd (poll_enumeration sample_listing sample_serial)) = [(1, [50])].
Proof. pose proof (poll_serves (mkRequest [THYMIO2_DEVICE_ID] 1) [mkRequest [THYMIO2_DEVICE_ID] 2] sample_listing sample_serial eq_refl eq_refl) as H. vm_compute in H |- *. tauto. Defined.

(** With udev the loop over the devices ends with the first that is given: the
    devices behind it count as removed, although they are there, and are given
    again. *)
Definition udev_thymio (port : Z) : option udev_device :=
  Some (mkUdev (Some [port]) (Some (mkParent (Some [48; 48; 48; 97]) (Some [48; 54; 49; 55]) (Some [84])))).

Example udev_gives_twice :
  let r h := UAccept (mkRequest [THYMIO2_DEVICE_ID] h) in
  snd (steps [r 1; UEnumerate [udev_thymio 10]; r 2; UEnumerate [udev_thymio 5; udev_thymio 10]; r 3; UEnumerate [udev_thymio 5; udev_thymio 10]]
             (new_service : service) (A := udev_acceptor true))
  = [Timer 500; Wait; Gave 1 [10]; Wait; Timer 500; Gave 2 [5]; Unplugged [10]; Released [10]; Wait;
     Timer 500; Gave 3 [10]; Wait].
Proof. vm_compute. reflexivity. Qed.

(** * The serial devices that macOS and Windows list

    serialacceptor_osx.cpp and serialacceptor_win32.cpp: from what IOKit and the
    registry of Windows say about a device to its identifier, name and port. *)

(** ** macOS *)

(** The properties of an entry of the registry, where they are there; a number
    that is no number counts as missing, as does a string that is no string. *)
Record registry_entry : Type := mkEntry { kUSBVendorID : option Z; kUSBProductID : option Z; kUSBProductString : option text; kIOCalloutDeviceKey : option text }.

(** Numbers are read as [int16_t] and stored as [uint16_t]. *)
Definition property_as_short (p : option Z) : Z := u16 (s16 (default 0 p)).

Definition trim_end (l : text) : text := rev (skip_spaces (rev l)).
Definition property_as_string (p : option text) : text := trim_end (default [] p).

Definition is_empty (l : text) : bool := match l with [] => true | _ => false end.

(** A device and its parents, up to the root of the plane. *)
Fixpoint collect (l : list registry_entry) (v p : Z) (name path : text) : usb_device_identifier * text * text :=
  match l with
  | [] => (mkId v p, name, path)
  | e :: l' =>
      let v := if v =? 0 then property_as_short (kUSBVendorID e) else v in
      let p := if p =? 0 then property_as_short (kUSBProductID e) else p in
      let name := if is_empty name then property_as_string (kUSBProductString e) else name in
      let path := if is_empty path then property_as_string (kIOCalloutDeviceKey e) else path in
      if (p =? 0) || (v =? 0) || is_empty name || is_empty path then collect l' v p name path
      else (mkId v p, name, path)
  end.

Definition osx_service (opens : text -> bool) (l : list registry_entry) : option serial_service :=
  let '(id, name, path) := collect l 0 0 [] [] in
  if is_empty path then None else Some (mkService id name path (opens path)).

Definition osx_listing (opens : text -> bool) (l : list (list registry_entry)) : list serial_service := omap (osx_service opens) l.

(** ** Windows *)

Definition MAX_PATH : Z := 260.
Definition MAX_DEVICE_ID_LEN : Z := 200.

Definition toupper (c : Z) : Z := if (97 <=? c) && (c <=? 122) then c - 32 else c.

(** A buffer of the given size that was filled with zeros. *)
Definition in_buffer (size : Z) (l : text) : text := l ++ replicate (Z.to_nat size - List.length l) 0.

Definition device_instance_identifier (id : option text) : text :=
  match id with
  | None => []
  | Some id => List.map toupper (in_buffer (MAX_DEVICE_ID_LEN + 1) id)
  end.

(** [std::from_chars] of a [uint16_t]; a failure leaves it as it was. *)
Definition from_chars16 (l : text) : Z :=
  let v := hex_value (hex_digits l) in if v <? 65536 then v else 0.

Definition id_value (prefix : text) (str : text) : Z :=
  match find_sub prefix str with
  | Some needle => from_chars16 (drop (needle + List.length prefix) str)
  | None => 0
  end.

Definition device_id_from_interface_id (str : text) : usb_device_identifier :=
  mkId (id_value (ws "VID_") str) (id_value (ws "PID_") str).

(** The description of a device, of one of the two types of strings. *)
Definition get_device_name (description : option text) : text :=
  match description with
  | None => []
  | Some d => if Z.of_nat (List.length d) <=? MAX_PATH then in_buffer (MAX_PATH + 1) d else d
  end.

Inductive reg_value : Type := RegSz (bytes : text) | RegDword (n : Z) | RegOther.

(** When the value is too long the buffer is made smaller, and the second call
    writes behind it. *)
Definition com_value (v : option reg_value) : res unit text :=
  match v with
  | None | Some RegOther => Ok []
  | Some (RegSz bytes) =>
      if MAX_PATH <? Z.of_nat (List.length bytes) then Undef
      else
        let str := in_buffer (MAX_PATH + 1) bytes in
        Ok (if bool_decide (take 3 str = ws "COM") then ws "\\.\" ++ str else str)
  | Some (RegDword n) => Ok (ws "\\.\COM" ++ dec_str n)
  end.

(** [None] is a key that does not open. *)
Definition get_com_portname (key : option (option reg_value * option reg_value)) : res unit text :=
  match key with
  | None => Ok []
  | Some (PortName, PortNumber) =>
      port_name ← com_value PortName;
      if is_empty port_name then com_value PortNumber else Ok port_name
  end.

Record win32_device : Type := mkWin32 { instance : option text; description : option text; registry : option (option reg_value * option reg_value) }.

(** The name of the port is looked up for compatible devices only. *)
Definition win32_service (devices : list usb_device_identifier) (opens : text -> bool) (d : win32_device) : res unit (option serial_service) :=
  let id := device_id_from_interface_id (device_instance_identifier (instance d)) in
  if negb (bool_decide (id ∈ devices)) then Ok None
  else
    port_name ← get_com_portname (registry d);
    Ok (Some (mkService id (get_device_name (description d)) port_name (opens port_name))).

Fixpoint win32_listing (devices : list usb_device_identifier) (opens : text -> bool) (l : list win32_device) : res unit (list serial_service) :=
  match l with
  | [] => Ok []
  | d :: l' =>
      s ← win32_service devices opens d;
      rest ← win32_listing devices opens l';
      Ok (match s with Some s => s :: rest | None => rest end)
  end.

(** ** Examples and properties *)

(** The identifier of a robot, as Windows writes it. *)
Definition hex4 (z : Z) : text :=
  List.map (fun d => if d <? 10 then 48 + d else 55 + d) [z / 4096 mod 16; z / 256 mod 16; z / 16 mod 16; z mod 16].

Lemma hex_digit_hex d : 0 <= d < 16 -> hex_digit (if d <? 10 then 48 + d else 55 + d) = Some d.
Proof.
  intros Hd. unfold hex_digit. destruct (Z.ltb_spec d 10).
  - rewrite (proj2 (Z.leb_le 48 (48 + d))), (proj2 (Z.leb_le (48 + d) 57)) by lia. f_equal. lia.
  - rewrite (proj2 (Z.leb_gt (55 + d) 57)), andb_false_r by lia.
    rewrite (proj2 (Z.leb_le 65 (55 + d))), (proj2 (Z.leb_le (55 + d) 70)) by lia. f_equal. lia.
Qed.

Lemma from_chars_hex4 z rest : 0 <= z < 65536 -> match rest with c :: _ => hex_digit c = None | [] => True end ->
  from_chars16 (hex4 z ++ rest) = z.
Proof.
  intros Hz Hrest. unfold from_chars16, hex4. cbn [List.map app hex_digits]. rewrite !hex_digit_hex by (apply Z.mod_pos_bound; lia).
  replace (hex_digits rest) with (@nil Z) by (destruct rest; cbn; [done|by rewrite Hrest]). unfold hex_value. cbn [foldl].
  replace (16 * (16 * (16 * (16 * 0 + z / 4096 mod 16) + z / 256 mod 16) + z / 16 mod 16) + z mod 16) with z by (Z.div_mod_to_equations; lia).
  by rewrite (proj2 (Z.ltb_lt z 65536)) by lia.
Qed.

Lemma find_at (pat s : text) n : take (List.length pat) (drop n s) = pat ->
  (forall k, (k < n)%nat -> take (List.length pat) (drop k s) <> pat) -> (n <= List.length s)%nat -> find_sub pat s = Some n.
Proof.
  revert s. induction n as [|n IH]; intros s Hn Hbefore Hlen.
  - destruct s; cbn [find_sub]; by rewrite decide_True.
  - destruct s as [|c s]; [cbn in Hlen; lia|]. cbn [find_sub]. rewrite decide_False by (apply (Hbefore 0%nat); lia).
    rewrite (IH s); [done|exact Hn| |cbn in Hlen; lia]. intros k Hk. apply (Hbefore (S k)). lia.
Qed.

(** The identifier in the name of an instance is the one of the device. *)
Lemma interface_id v p rest : 0 <= v < 65536 -> 0 <= p < 65536 -> match rest with c :: _ => hex_digit c = None | [] => True end ->
  device_id_from_interface_id (ws "USB\VID_" ++ hex4 v ++ ws "&PID_" ++ hex4 p ++ rest) = mkId v p.
Proof.
  intros Hv Hp Hrest. unfold device_id_from_interface_id, id_value.
  assert (forall d, hex_digit d <> None -> d <> 95 /\ d <> 73) as Hd by (intros d Hd; split; intros ->; by apply Hd).
  assert (exists a b c d, hex4 v = [a; b; c; d] /\ (hex_digit a <> None /\ hex_digit b <> None /\ hex_digit c <> None /\ hex_digit d <> None)) as (a & b & c & d & Ev & Ha & Hb & Hc & Hdd).
  { do 4 eexists. split; [reflexivity|]. rewrite !hex_digit_hex by (apply Z.mod_pos_bound; lia). done. }
  rewrite (find_at (ws "VID_") _ 4); [|reflexivity| |cbn; lia].
  2: { intros k Hk. do 4 (destruct k as [|k]; [vm_compute; discriminate|]). lia. }
  rewrite (find_at (ws "PID_") _ 13); [| by rewrite Ev | |rewrite Ev; cbn; lia].
  2: { intros k Hk. rewrite Ev. do 13 (destruct k as [|k]; [cbn; intros Heq; try discriminate Heq; injection Heq; intros; subst; naive_solver|]). lia. }
  f_equal.
  - change (drop _ _) with (hex4 v ++ ws "&PID_" ++ hex4 p ++ rest). by apply from_chars_hex4.
  - rewrite Ev. change (drop _ _) with (hex4 p ++ rest). by apply from_chars_hex4.
Qed.

(** The name of a port has the zeros of its buffer. *)
Example port_name_zeros : match get_com_portname (Some (Some (RegSz (ws "COM3" ++ [0])), None)) with Ok s => Some (List.length s, take 9 s) | _ => None end
  = Some (265%nat, ws "\\.\COM3" ++ [0]).
Proof. vm_compute. reflexivity. Qed.

Example long_port_name : get_com_portname (Some (Some (RegSz (replicate 300 65)), None)) = Undef.
Proof. reflexivity. Qed.

(** A dongle on macOS: the port is an entry below the USB device. *)
Example osx_dongle :
  osx_listing (fun _ => true) [[mkEntry None None None (Some (ws "/dev/cu.usb")); mkEntry (Some 0x0617) (Some 0x000c) (Some (ws "Thymio ")) None]]
  = [mkService THYMIO_WIRELESS_DEVICE_ID (ws "Thymio") (ws "/dev/cu.usb") true].
Proof. vm_compute. reflexivity. Qed.
