(* ===== verification/UsbAcceptor.v ===== *)
(** * The acceptor of USB devices

    thymio-device-manager/usbacceptor.h and usbacceptor.cpp, with the list of
    open devices of usbcontext.h, which tells it what is in use: [assign] marks
    a device that is given to a session, and the end of the session removes the
    mark.  What libusb enumerates is an argument of every enumeration. *)
From Stdlib Require Import ZArith Lia List.
From stdpp Require Import base list gmap.
From S2P Require Import Prelude Acceptor.

Local Open Scope Z_scope.

(** ** State *)

Record usb_service : Type := mkUsbService {
  m_requests : list request;
  m_known_devices : list Z;
  m_paused : bool;
  m_open_devices : list Z
}.

Definition new_usb_service : usb_service := mkUsbService [] [] false [].

Definition set_requests x s := mkUsbService x (m_known_devices s) (m_paused s) (m_open_devices s).
Definition set_known x s := mkUsbService (m_requests s) x (m_paused s) (m_open_devices s).
Definition pause x s := mkUsbService (m_requests s) (m_known_devices s) x (m_open_devices s).
Definition set_open x s := mkUsbService (m_requests s) (m_known_devices s) (m_paused s) x.

Fixpoint erase_first (d : Z) (l : list Z) : list Z :=
  match l with
  | [] => []
  | x :: l' => if x =? d then l' else x :: erase_first d l'
  end.

Definition has (d : Z) (l : list Z) : bool := bool_decide (d ∈ l).

(** ** Operations *)

(** A device and the identifier in its descriptor. *)
Definition listing : Type := list (Z * usb_device_identifier).

Definition device_plugged (dev : Z) (id : usb_device_identifier) (r : request) (rest : list request) (s : usb_service) : usb_service * list (output Z) :=
  if has dev (m_open_devices s) then (s, [])
  else if negb (compatible r id) then (s, [])
  else (set_requests rest (set_open (m_open_devices s ++ [dev]) s), [Gave (handler r) dev]).

(** The devices that the loop reaches: it ends with the last request. *)
Fixpoint scan (l : listing) (s : usb_service) : list Z * usb_service * list (output Z) :=
  match l, m_requests s with
  | (dev, id) :: l', r :: rest =>
      let '(s, o1) := if has dev (m_known_devices s) then (s, []) else device_plugged dev id r rest s in
      let '(sessions, s, o2) := scan l' s in
      (dev :: sessions, s, o1 ++ o2)
  | _, _ => ([], s, [])
  end.

Definition vanished (sessions known : list Z) : list (output Z) :=
  List.map Unplugged (List.filter (fun d => negb (has d sessions)) known).

Definition handle_request_by_active_enumeration (l : listing) (s : usb_service) : usb_service * list (output Z) :=
  let '(sessions, s, o) := scan l s in
  (set_known sessions s, o ++ vanished sessions (m_known_devices s)).

(** The list of devices, or a negative number: the vector for the devices is
    given this number as its capacity. *)
Definition enumerate (l : Z + listing) (s : usb_service) : res unit (usb_service * list (output Z)) :=
  match l with
  | inl _ => Throw tt
  | inr l => Ok (handle_request_by_active_enumeration l s)
  end.

Definition on_active_timer (ec : option Z) (l : listing) (s : usb_service) : usb_service * list (output Z) :=
  match ec with
  | Some _ => (s, [])
  | None =>
      let '(s, o) := handle_request_by_active_enumeration l s in
      (s, o ++ match m_requests s with [] => [] | _ => [Timer 1000] end)
  end.

Definition accept_async (r : request) (s : usb_service) : usb_service * list (output Z) :=
  (set_requests (m_requests s ++ [r]) s, [Timer 1000]).

Definition free_device (d : Z) (s : usb_service) : usb_service * list (output Z) :=
  (set_known (erase_first d (m_known_devices s)) s, [Timer 500]).

(** The end of a session: usb_device_service's [destroy]. *)
Definition mark_not_open (d : Z) (s : usb_service) : usb_service * list (output Z) :=
  (set_open (List.filter (fun x => negb (x =? d)) (m_open_devices s)) s, if has d (m_open_devices s) then [Released d] else []).

Inductive usb_event : Type :=
| UsbAccept (r : request)
| UsbTimer (ec : option Z) (l : listing)
| UsbEnumerate (l : listing)
| UsbPause (x : bool)
| UsbFree (d : Z)
| UsbDestroy (d : Z).

Definition usb_step (e : usb_event) (s : usb_service) : usb_service * list (output Z) :=
  match e with
  | UsbAccept r => accept_async r s
  | UsbTimer ec l => on_active_timer ec l s
  | UsbEnumerate l => handle_request_by_active_enumeration l s
  | UsbPause x => (pause x s, [])
  | UsbFree d => free_device d s
  | UsbDestroy d => mark_not_open d s
  end.

(** ** The contract *)

Definition usb_used (s : usb_service) : gset Z := list_to_set (m_open_devices s).
Definition usb_queued (s : usb_service) : list Z := List.map handler (m_requests s).
Definition usb_joins (e : usb_event) : list Z := match e with UsbAccept r => [handler r] | _ => [] end.

Lemma plugged_ok dev id r rest s : m_requests s = r :: rest ->
  let '(s', o) := device_plugged dev id r rest s in usb_queued s = given o ++ usb_queued s' /\ tracks (usb_used s) o (usb_used s').
Proof.
  intros Hr. unfold device_plugged, has, usb_queued, usb_used. case_bool_decide as Ho; [by split; [|constructor]|].
  destruct (compatible r id); cbn; [|by split; [|constructor]]. rewrite Hr. split; [done|]. constructor; [by rewrite elem_of_list_to_set|].
  replace (list_to_set (m_open_devices s ++ [dev])) with ({[dev]} ∪ list_to_set (m_open_devices s) : gset Z) by set_solver. constructor.
Qed.

Lemma scan_ok l s : let '(_, s', o) := scan l s in usb_queued s = given o ++ usb_queued s' /\ tracks (usb_used s) o (usb_used s').
Proof.
  revert s. induction l as [|[dev id] l IH]; intros s; cbn [scan]; [by split; [|constructor]|].
  destruct (m_requests s) as [|r rest] eqn:Hr; [by split; [|constructor]|].
  pose proof (plugged_ok dev id r rest s Hr) as Hp. destruct (has dev (m_known_devices s)).
  - specialize (IH s). by destruct (scan l s) as [[se s2] o2].
  - destruct (device_plugged dev id r rest s) as [s1 o1]. specialize (IH s1). destruct (scan l s1) as [[se s2] o2]. destruct Hp as [H1 H2], IH as [H3 H4].
    split; [by rewrite given_app, <- app_assoc, <- H3|by eapply tracks_app].
Qed.

(** Outputs that give and release nothing. *)
Lemma passive_ok o (u : gset Z) : Forall (fun x => match x with Unplugged _ | Timer _ | Wait => True | _ => False end) o -> given o = [] /\ tracks u o u.
Proof. induction 1 as [|x o Hx _ [IH1 IH2]]; [split; [done|constructor]|]. destruct x; try done; by split; [|constructor]. Qed.

Lemma passive_after s s1 s2 o1 o2 : usb_queued s = given o1 ++ usb_queued s1 /\ tracks (usb_used s) o1 (usb_used s1) ->
  m_requests s2 = m_requests s1 -> m_open_devices s2 = m_open_devices s1 ->
  Forall (fun x => match x with Unplugged _ | Timer _ | Wait => True | _ => False end) o2 ->
  usb_queued s = given (o1 ++ o2) ++ usb_queued s2 /\ tracks (usb_used s) (o1 ++ o2) (usb_used s2).
Proof.
  intros [H1 H2] Hr Hu Ho. destruct (passive_ok o2 (usb_used s1) Ho) as [H3 H4]. rewrite given_app, H3, app_nil_r. unfold usb_queued, usb_used in *.
  rewrite Hr, Hu. split; [done|by eapply tracks_app].
Qed.

Lemma vanished_passive sessions known : Forall (fun x => match x with Unplugged _ | Timer _ | Wait => True | _ => False end) (vanished sessions known).
Proof. unfold vanished. induction (List.filter _ known); by constructor. Qed.

Lemma enumeration_ok l s : let '(s', o) := handle_request_by_active_enumeration l s in
  usb_queued s = given o ++ usb_queued s' /\ tracks (usb_used s) o (usb_used s').
Proof.
  unfold handle_request_by_active_enumeration. pose proof (scan_ok l s) as Hs. destruct (scan l s) as [[sessions s1] o1].
  by apply (passive_after s s1); [exact Hs|done|done|apply vanished_passive].
Qed.

Lemma usb_step_ok e s : let '(s', o) := usb_step e s in
  usb_queued s ++ usb_joins e = given o ++ usb_queued s' /\ tracks (usb_used s) o (usb_used s').
Proof.
  destruct e as [r|ec l|l|x|d|d]; cbn [usb_step usb_joins]; rewrite ?app_nil_r.
  - split; [unfold usb_queued; cbn; by rewrite List.map_app|repeat constructor].
  - unfold on_active_timer. destruct ec; [by split; [|constructor]|]. pose proof (enumeration_ok l s) as He.
    destruct (handle_request_by_active_enumeration l s) as [s1 o1]. apply (passive_after s s1); [exact He|done|done|destruct (m_requests s1); by repeat constructor].
  - apply enumeration_ok.
  - by split; [|constructor].
  - split; [done|repeat constructor].
  - split; unfold mark_not_open, has; case_bool_decide as Hd; try done; unfold usb_used; cbn.
    + constructor. replace (list_to_set (List.filter (fun x => negb (x =? d)) (m_open_devices s))) with (list_to_set (m_open_devices s) ∖ {[d]} : gset Z); [constructor|].
      apply set_eq. intros x. rewrite elem_of_difference, !elem_of_list_to_set, elem_of_singleton, !list_elem_of_In, List.filter_In, negb_true_iff, Z.eqb_neq. done.
    + replace (list_to_set (List.filter (fun x => negb (x =? d)) (m_open_devices s))) with (list_to_set (m_open_devices s) : gset Z); [constructor|].
      apply set_eq. intros x. rewrite !elem_of_list_to_set, !list_elem_of_In, List.filter_In, negb_true_iff, Z.eqb_neq. rewrite list_elem_of_In in Hd. naive_solver.
Qed.

#[export] Instance usb_acceptor : Acceptor usb_service usb_event Z.
Proof.
  refine {| initial := new_usb_service; step := usb_step; joins := usb_joins; requests_of := usb_queued; in_use := usb_used; valid := fun _ => True |};
    [done|done|..]; intros e s _; pose proof (usb_step_ok e s) as H; destruct (usb_step e s); tauto.
Defined.

(** ** Who is served *)

(** A device that is plugged in is given to the session that waits. *)
Lemma plugged_served r rest dev id s l1 l2 : m_requests s = r :: rest ->
  Forall (fun e => has e.1 (m_known_devices s) || has e.1 (m_open_devices s) || negb (compatible r e.2) = true) l1 ->
  has dev (m_known_devices s) = false -> has dev (m_open_devices s) = false -> compatible r id = true ->
  exists o, snd (handle_request_by_active_enumeration (l1 ++ (dev, id) :: l2) s) = Gave (handler r) dev :: o.
Proof.
  intros Hr Hl Hk Ho Hc. unfold handle_request_by_active_enumeration.
  assert (exists se s' o, scan (l1 ++ (dev, id) :: l2) s = (se, s', Gave (handler r) dev :: o)) as (se & s' & o & ->); [|cbn; eauto].
  induction Hl as [|[d i] l1 Hd _ IH]; cbn [app scan]; rewrite Hr.
  - rewrite Hk. unfold device_plugged. rewrite Ho, Hc. cbn [negb]. destruct (scan _ _) as [[se s'] o]. do 3 eexists. reflexivity.
  - destruct IH as (se & s' & o & IH). assert ((if has d (m_known_devices s) then (s, []) else device_plugged d i r rest s) = (s, [])) as ->.
    { unfold device_plugged. cbn in Hd. destruct (has d (m_known_devices s)), (has d (m_open_devices s)), (compatible r i); done. }
    rewrite IH. do 3 eexists. reflexivity.
Qed.

(** The loop ends with the last request: the devices behind the one that was
    given count as unplugged, although they are there; a dongle that waits to
    be configured is forgotten when a robot is plugged in. *)
Example usb_unplugged_while_plugged :
  let r h := UsbAccept (mkRequest [THYMIO2_DEVICE_ID; THYMIO_WIRELESS_DEVICE_ID] h) in
  snd (steps [r 1; UsbEnumerate [(7, THYMIO_WIRELESS_DEVICE_ID)]; r 2; UsbEnumerate [(4, THYMIO2_DEVICE_ID); (7, THYMIO_WIRELESS_DEVICE_ID)]]
             (new_usb_service : usb_service) (A := usb_acceptor))
  = [Timer 1000; Gave 1 7; Timer 1000; Gave 2 4; Unplugged 7].
Proof. vm_compute. reflexivity. Qed.

(** A device that could not be opened has no handle, and so nobody frees it: it
    stays known and is not given again while it is plugged in. *)
Example usb_not_given_again :
  let r h := UsbAccept (mkRequest [THYMIO2_DEVICE_ID] h) in
  snd (steps [r 1; UsbEnumerate [(4, THYMIO2_DEVICE_ID)]; UsbDestroy 4; r 2; UsbEnumerate [(4, THYMIO2_DEVICE_ID)]; UsbEnumerate [(4, THYMIO2_DEVICE_ID)]]
             (new_usb_service : usb_service) (A := usb_acceptor))
  = [Timer 1000; Gave 1 4; Released 4; Timer 1000].
Proof. vm_compute. reflexivity. Qed.
