(* ===== verification/TcpAcceptor.v ===== *)
(** * The acceptor of robots on the network

    thymio-device-manager/aseba_tcpacceptor.h and aseba_tcpacceptor.cpp: robots
    that announce themselves (simulated ones, above all) become contacts that
    wait, connections, and endpoints.  The monitor, the connections and the
    tasks that are posted are events.  A session is a number; it lives as long
    as somebody holds it. *)
From Stdlib Require Import ZArith Lia List String.
From stdpp Require Import base list.
From S2P Require Import Prelude Node.

Local Open Scope Z_scope.

Abbreviation text := wstring.

(** ** State *)

Record contact : Type := mkContact {
  contact_empty : bool;
  contact_type : text;
  contact_name : text;
  address : Z;
  port : Z;
  contact_properties : list (text * text)
}.

#[export] Instance contact_eq : EqDecision contact.
Proof. solve_decision. Defined.

Definition known_ep : Type := text * Z.

Record tcp_acceptor : Type := mkTcp {
  m_pending_contacts : list contact;
  m_disconnected_contacts : list contact;
  m_connected_endpoints : list (known_ep * Z);
  m_known_contacts : list (Z * contact);
  connecting : list (Z * contact);
  alive : list Z;
  fresh : Z;
  posted : nat
}.

Definition new_acceptor : tcp_acceptor := mkTcp [] [] [] [] [] [] 0 0.

(** What the acceptor does: it starts a connection or an endpoint, waits for
    the next contact, or destroys a session, whose device posts that it is
    free. *)
Inductive tcp_output : Type :=
| Considered (c : contact)
| Connect (s : Z) (c : contact)
| Start (s : Z) (k : known_ep) (name : text) (type : endpoint_type)
| Destroyed (s : Z)
| Listen.

Definition set_pending x a := mkTcp x (m_disconnected_contacts a) (m_connected_endpoints a) (m_known_contacts a) (connecting a) (alive a) (fresh a) (posted a).
Definition set_disconnected x a := mkTcp (m_pending_contacts a) x (m_connected_endpoints a) (m_known_contacts a) (connecting a) (alive a) (fresh a) (posted a).
Definition set_connected x a := mkTcp (m_pending_contacts a) (m_disconnected_contacts a) x (m_known_contacts a) (connecting a) (alive a) (fresh a) (posted a).
Definition set_known x a := mkTcp (m_pending_contacts a) (m_disconnected_contacts a) (m_connected_endpoints a) x (connecting a) (alive a) (fresh a) (posted a).
Definition set_connecting x a := mkTcp (m_pending_contacts a) (m_disconnected_contacts a) (m_connected_endpoints a) (m_known_contacts a) x (alive a) (fresh a) (posted a).
Definition set_alive x a := mkTcp (m_pending_contacts a) (m_disconnected_contacts a) (m_connected_endpoints a) (m_known_contacts a) (connecting a) x (fresh a) (posted a).
Definition set_posted x a := mkTcp (m_pending_contacts a) (m_disconnected_contacts a) (m_connected_endpoints a) (m_known_contacts a) (connecting a) (alive a) (fresh a) x.

Definition post_accept (a : tcp_acceptor) : tcp_acceptor := set_posted (S (posted a)) a.

Definition tcp_result : Type := tcp_acceptor * list tcp_output.

(** ** Names and types *)

(** [std::regex_replace] of " on [^ ]+$". *)
Definition host_suffix (l : text) : bool :=
  bool_decide (take 4 l = ws " on ") && negb (bool_decide (drop 4 l = [])) && forallb (fun c => negb (c =? 32)) (drop 4 l).

Fixpoint remove_host_from_name (l : text) : text :=
  match l with
  | [] => []
  | c :: l' => if host_suffix l then [] else c :: remove_host_from_name l'
  end.

Definition endpoint_type_mapping : list (text * endpoint_type) :=
  [(ws "Thymio II", simulated_thymio); (ws "Dummy Node", simulated_dummy_node)].

Definition find_text {A} (k : text) (l : list (text * A)) : option A := option_map snd (List.find (fun e => bool_decide (fst e = k)) l).

Definition type_of (c : contact) : endpoint_type :=
  match find_text (ws "type") (contact_properties c) with
  | Some t => default unknown (find_text t endpoint_type_mapping)
  | None => unknown
  end.

Section Tcp.
(** interfaces.cpp: [endpoint_is_local]; [boost::asio::ip::host_name]. *)
Variable endpoint_is_local : Z -> bool.
Variable host_name : text.

(** ** Contacts *)

Definition key_of (c : contact) : known_ep := (host_name, port c).
Definition find_key (k : known_ep) (l : list (known_ep * Z)) : option Z := option_map snd (List.find (fun e => bool_decide (fst e = k)) l).
Definition is_alive (s : Z) (a : tcp_acceptor) : bool := existsb (Z.eqb s) (alive a).
Definition already_connected (k : known_ep) (a : tcp_acceptor) : bool :=
  match find_key k (m_connected_endpoints a) with Some s => is_alive s a | None => false end.

(** A session that nobody holds any more. *)
Definition drop_session (s : Z) (a : tcp_acceptor) : tcp_result :=
  (set_alive (List.filter (fun x => negb (x =? s)) (alive a)) a, [Destroyed s]).

Definition starts_with (prefix l : text) : bool := bool_decide (take (List.length prefix) l = prefix).

Definition do_accept_contact (c : contact) (a : tcp_acceptor) : tcp_result :=
  let session := fresh a in
  let a := mkTcp (m_pending_contacts a) (m_disconnected_contacts a) (m_connected_endpoints a) (m_known_contacts a) (connecting a) (session :: alive a) (session + 1) (posted a) in
  if contact_empty c || negb (bool_decide (contact_type c = ws "aseba")) then drop_session session (post_accept a)
  else if negb (endpoint_is_local (address c)) && negb (starts_with (ws "Not A Thymio 3") (contact_name c)) then drop_session session (post_accept a)
  else if already_connected (key_of c) a then drop_session session (post_accept a)
  else
    (set_connecting (connecting a ++ [(session, c)]) (set_known (m_known_contacts a ++ [(session, c)]) a), [Connect session c]).

Definition do_accept (a : tcp_acceptor) : tcp_result :=
  match m_pending_contacts a with
  | [] => (a, [])
  | c :: rest => let '(a, o) := do_accept_contact c (set_pending rest a) in (a, Considered c :: o)
  end.

(** The completion of [async_connect]. *)
Definition on_connect (session : Z) (ec : option Z) (a : tcp_acceptor) : tcp_result :=
  match List.find (fun e => fst e =? session) (connecting a) with
  | None => (a, [])
  | Some (_, c) =>
      let a := set_connecting (List.filter (fun e => negb (fst e =? session)) (connecting a)) a in
      match ec with
      | Some _ => drop_session session (post_accept a)
      | None =>
          let a := set_disconnected (List.filter (fun c' => negb (bool_decide (c' = c))) (m_disconnected_contacts a)) a in
          if already_connected (key_of c) a then drop_session session (post_accept a)
          else
            let a := set_connected ((key_of c, session) :: List.filter (fun e => negb (bool_decide (fst e = key_of c))) (m_connected_endpoints a)) a in
            (post_accept a, [Start session (key_of c) (remove_host_from_name (contact_name c)) (type_of c)])
      end
  end.

Definition free_endpoint (session : Z) (a : tcp_acceptor) : tcp_acceptor :=
  match List.find (fun e => fst e =? session) (m_known_contacts a) with
  | None => a
  | Some (_, c) =>
      let a := set_disconnected (if bool_decide (c ∈ m_disconnected_contacts a) then m_disconnected_contacts a else m_disconnected_contacts a ++ [c]) a in
      post_accept (set_known (List.filter (fun e => negb (fst e =? session)) (m_known_contacts a)) a)
  end.

(** The monitor heard of a contact; after an error it does not listen again. *)
Definition on_contact (stopped : bool) (c : Z + contact) (a : tcp_acceptor) : tcp_result :=
  match c with
  | inl _ => (a, [])
  | inr c => (post_accept (set_pending (m_pending_contacts a ++ [c]) a), if stopped then [] else [Listen])
  end.

(** ** What happens *)

Inductive tcp_event : Type :=
| OnContact (stopped : bool) (c : Z + contact)
| Accept
| DoAccept
| OnConnect (s : Z) (ec : option Z)
| SessionGone (s : Z)
| FreeEndpoint (s : Z).

Definition tcp_step (e : tcp_event) (a : tcp_acceptor) : tcp_result :=
  match e with
  | OnContact stopped c => on_contact stopped c a
  | Accept => do_accept a
  | DoAccept => match posted a with O => (a, []) | S n => do_accept (set_posted n a) end
  | OnConnect s ec => on_connect s ec a
  | SessionGone s => if existsb (fun e => fst e =? s) (connecting a) then (a, []) else drop_session s a
  | FreeEndpoint s => (free_endpoint s a, [])
  end.

Fixpoint tcp_steps (l : list tcp_event) (a : tcp_acceptor) : tcp_result :=
  match l with
  | [] => (a, [])
  | e :: l' => let '(a1, o1) := tcp_step e a in let '(a2, o2) := tcp_steps l' a1 in (a2, o1 ++ o2)
  end.
End Tcp.

(** ** Properties *)

Definition announced (l : list tcp_event) : list contact :=
  List.flat_map (fun e => match e with OnContact _ (inr c) => [c] | _ => [] end) l.
Definition considered (o : list tcp_output) : list contact :=
  List.flat_map (fun x => match x with Considered c => [c] | _ => [] end) o.

Section Properties.
Variable endpoint_is_local : Z -> bool.
Variable host_name : text.

Abbreviation step := (tcp_step endpoint_is_local host_name).
Abbreviation steps := (tcp_steps endpoint_is_local host_name).
Abbreviation key := (key_of host_name).

(** What was started, [o], with the state that came of it: a session that is
    alive is the one that its key leads to. *)
Record owned (a : tcp_acceptor) (o : list tcp_output) : Prop := {
  owned_key s k n t : Start s k n t ∈ o -> s ∈ alive a -> find_key k (m_connected_endpoints a) = Some s;
  owned_fresh s k n t : Start s k n t ∈ o -> s < fresh a;
  owned_connecting s c : (s, c) ∈ connecting a -> s < fresh a
}.

(** A step that starts nothing and revives nothing. *)
Lemma owned_quiet a a' o o' : owned a o ->
  m_connected_endpoints a' = m_connected_endpoints a -> fresh a <= fresh a' ->
  (forall s, s ∈ alive a' -> s < fresh a -> s ∈ alive a) ->
  (forall s c, (s, c) ∈ connecting a' -> (s, c) ∈ connecting a \/ s < fresh a') ->
  (forall s k n t, Start s k n t ∉ o') -> owned a' (o ++ o').
Proof.
  intros [H1 H2 H3] Hk Hf Ha Hc Ho. split; intros *; rewrite ?elem_of_app.
  - intros [Hs|Hs] Hal; [|by destruct (Ho _ _ _ _ Hs)]. rewrite Hk. eapply H1; [done|]. apply Ha; [done|]. by eapply H2.
  - intros [Hs|Hs]; [|by destruct (Ho _ _ _ _ Hs)]. apply H2 in Hs. lia.
  - intros [Hs|Hs]%Hc; [|done]. apply H3 in Hs. lia.
Qed.

Ltac quiet := eapply owned_quiet; [eassumption|cbn; try done; try lia..|]; try (intros * [?|?%elem_of_nil]%elem_of_cons; done); try (intros * ?%elem_of_nil; done); try (intros; by left).

Lemma alive_filter s x a : x ∈ List.filter (fun y => negb (y =? s)) (alive a) -> x ∈ alive a.
Proof. rewrite !list_elem_of_In, List.filter_In. tauto. Qed.

Lemma drop_owned s a o : owned a o -> let '(a', o') := drop_session s a in owned a' (o ++ o').
Proof. intros H. unfold drop_session. quiet. intros x Hx _. by apply alive_filter in Hx. Qed.

Lemma owned_post a o : owned a o -> owned (post_accept a) o.
Proof. intros [H1 H2 H3]. by split. Qed.

Lemma contact_owned c a o : owned a o -> let '(a', o') := do_accept_contact endpoint_is_local host_name c a in owned a' (o ++ o').
Proof.
  intros H. unfold do_accept_contact. cbv zeta.
  match goal with |- context [post_accept ?x] => assert (owned x o) as H1 end.
  { rewrite <- (app_nil_r o). quiet. intros x [->|Hx]%elem_of_cons Hlt; [lia|done]. }
  repeat match goal with |- context [if ?b then _ else _] => destruct b; [by apply drop_owned, owned_post|] end.
  quiet; cbn in *; try lia; try done. intros s k [Hs|[= -> _]%list_elem_of_singleton]%elem_of_app; [by left|right; lia].
Qed.

Lemma find_key_filter k k' l : k <> k' -> find_key k (List.filter (fun e => negb (bool_decide (fst e = k'))) l) = find_key k l.
Proof.
  intros Hk. unfold find_key. induction l as [|[x s] l IH]; [done|]. cbn [List.filter fst].
  case_bool_decide; cbn [negb]; [rewrite IH; cbn; by rewrite bool_decide_false by congruence|]. cbn. case_bool_decide; [done|exact IH].
Qed.

Lemma on_connect_owned s ec a o : owned a o -> let '(a', o') := on_connect host_name s ec a in owned a' (o ++ o').
Proof.
  intros H. unfold on_connect. destruct (List.find _ (connecting a)) as [[s' c]|] eqn:Hc; [|by rewrite app_nil_r].
  apply List.find_some in Hc as [Hin Hs]. cbn in Hs. apply Z.eqb_eq in Hs as ->.
  assert (owned (set_connecting (List.filter (fun e => negb (fst e =? s)) (connecting a)) a) o) as H1.
  { rewrite <- (app_nil_r o). quiet. intros x k Hx. left. rewrite list_elem_of_In, List.filter_In in Hx. destruct Hx as [Hx _]. by apply list_elem_of_In. }
  destruct ec; [by apply drop_owned, owned_post|]. destruct (already_connected _ _) eqn:Ha.
  { apply drop_owned, owned_post. destruct H1 as [A1 A2 A3]. split; [exact A1|exact A2|exact A3]. }
  destruct H as [K1 K2 K3]. split; intros *; cbn; rewrite ?elem_of_app, ?list_elem_of_singleton.
  - unfold find_key. cbn. intros [Ho|[= -> -> _ _]] Hal; [|by rewrite bool_decide_true]. pose proof (K1 _ _ _ _ Ho Hal) as Hf. case_bool_decide as Hk.
    + exfalso. unfold already_connected in Ha. cbn in Ha. rewrite Hk, Hf in Ha. apply not_true_iff_false in Ha. apply Ha. unfold is_alive. cbn.
      apply existsb_exists. exists s0. split; [by apply list_elem_of_In|apply Z.eqb_refl].
    + rewrite <- Hf. change (find_key k (List.filter (fun e => negb (bool_decide (fst e = key c))) (m_connected_endpoints a)) = find_key k (m_connected_endpoints a)).
      apply find_key_filter. congruence.
  - intros [Ho|[= -> _ _ _]]; [by eapply K2|]. apply list_elem_of_In in Hin. by eapply K3.
  - intros Hx. rewrite list_elem_of_In, List.filter_In in Hx. destruct Hx as [Hx _]. apply list_elem_of_In in Hx. by eapply K3.
Qed.
Lemma free_owned s a o : owned a o -> owned (free_endpoint s a) o.
Proof. intros [H1 H2 H3]. unfold free_endpoint. destruct (List.find _ _) as [[? ?]|]; by split. Qed.

Lemma posted_owned n a o : owned a o -> owned (set_posted n a) o.
Proof. intros [H1 H2 H3]. by split. Qed.

Lemma do_accept_owned a o : owned a o -> let '(a', o') := do_accept endpoint_is_local host_name a in owned a' (o ++ o').
Proof.
  intros H. unfold do_accept. destruct (m_pending_contacts a) as [|c rest]; [by rewrite app_nil_r|].
  assert (owned (set_pending rest a) (o ++ [Considered c])) as H1 by (quiet; intros * ?%list_elem_of_singleton; done).
  pose proof (contact_owned c _ _ H1) as H2. destruct (do_accept_contact _ _ _ _) as [a' o']. by rewrite <- app_assoc in H2.
Qed.

Lemma step_owned e a o : owned a o -> let '(a', o') := step e a in owned a' (o ++ o').
Proof.
  intros H. destruct e as [st [ec|c]| | |s ec|s|s]; cbn [tcp_step].
  - cbn. by rewrite app_nil_r.
  - cbn. quiet. intros * Hx. apply list_elem_of_In in Hx. destruct st; cbn in Hx; naive_solver.
  - by apply do_accept_owned.
  - destruct (posted a); [by rewrite app_nil_r|]. by apply do_accept_owned, posted_owned.
  - by apply on_connect_owned.
  - destruct (existsb _ _); [by rewrite app_nil_r|by apply drop_owned].
  - rewrite app_nil_r. by apply free_owned.
Qed.

Lemma steps_owned l a o : owned a o -> let '(a', o') := steps l a in owned a' (o ++ o').
Proof.
  revert a o. induction l as [|e l IH]; intros a o H; cbn [tcp_steps]; [by rewrite app_nil_r|]. pose proof (step_owned e a o H) as H1.
  destruct (step e a) as [a1 o1]. specialize (IH a1 _ H1). destruct (steps l a1) as [a2 o2]. by rewrite app_assoc.
Qed.

(** The contacts that wait have somebody who will look at them. *)
Definition attended (l : list contact) (a : tcp_acceptor) (o : list tcp_output) : Prop :=
  l = considered o ++ m_pending_contacts a /\ (List.length (m_pending_contacts a) <= posted a)%nat.

Lemma considered_app o1 o2 : considered (o1 ++ o2) = considered o1 ++ considered o2.
Proof. apply List.flat_map_app. Qed.

Lemma contact_attended c a : let '(a', o) := do_accept_contact endpoint_is_local host_name c a in
  considered o = [] /\ m_pending_contacts a' = m_pending_contacts a /\ (posted a <= posted a')%nat.
Proof. unfold do_accept_contact. cbv zeta. repeat match goal with |- context [if ?b then _ else _] => destruct b end; cbn; (split_and!; [done|done|lia]). Qed.

Lemma do_accept_attended l n a o : l = considered o ++ m_pending_contacts a -> (List.length (m_pending_contacts a) <= S n)%nat -> (n <= posted a)%nat ->
  let '(a', o') := do_accept endpoint_is_local host_name a in attended l a' (o ++ o').
Proof.
  intros Hl Hn Hp. unfold do_accept, attended. destruct (m_pending_contacts a) as [|c rest] eqn:Hc; [rewrite Hc, !app_nil_r; rewrite app_nil_r in Hl; cbn; split; [done|lia]|].
  pose proof (contact_attended c (set_pending rest a)) as H. destruct (do_accept_contact _ _ _ _) as [a' o']. destruct H as (Ho & Hr & Hq). cbn in *.
  rewrite considered_app. change (considered (Considered c :: o')) with (c :: considered o'). rewrite Ho, Hr, <- app_assoc. split; [done|lia].
Qed.

Lemma step_attended e l a o : attended l a o -> let '(a', o') := step e a in attended (l ++ announced [e]) a' (o ++ o').
Proof.
  intros [Hl Hp]. destruct e as [st [ec|c]| | |s ec|s|s]; cbn [tcp_step announced List.flat_map app]; rewrite ?app_nil_r.
  - cbn; by rewrite ?app_nil_r.
  - cbn. unfold attended. rewrite considered_app. cbn. rewrite length_app. cbn. split; [|lia]. destruct st; cbn; by rewrite app_nil_r, Hl, app_assoc.
  - apply (do_accept_attended _ (posted a)); [done|lia|done].
  - destruct (posted a) as [|n] eqn:E; [rewrite app_nil_r; split; [done|lia]|]. apply (do_accept_attended _ n); cbn; [done|lia|done].
  - unfold on_connect. destruct (List.find _ _) as [[x c]|]; [|by rewrite app_nil_r].
    destruct ec; [|destruct (already_connected _ _)]; unfold attended; cbn; rewrite considered_app; cbn; rewrite app_nil_r; (split; [done|lia]).
  - destruct (existsb _ _); [by rewrite app_nil_r|]. unfold attended. cbn. rewrite considered_app. cbn. rewrite app_nil_r. split; [done|lia].
  - unfold free_endpoint. destruct (List.find _ _) as [[x c]|]; [|done]. split; cbn; [done|lia].
Qed.

Lemma steps_attended l k a o : attended k a o -> let '(a', o') := steps l a in attended (k ++ announced l) a' (o ++ o').
Proof.
  revert k a o. induction l as [|e l IH]; intros k a o H; cbn [tcp_steps]; [unfold announced; cbn; by rewrite !app_nil_r|].
  pose proof (step_attended e k a o H) as H1. destruct (step e a) as [a1 o1]. specialize (IH _ a1 _ H1). destruct (steps l a1) as [a2 o2].
  rewrite app_assoc. unfold announced in *. cbn in *. by rewrite app_nil_r, <- app_assoc in IH.
Qed.

End Properties.

(** The key of a robot has the name of this machine, whatever machine the robot
    is on: of two robots of other machines with one port the second is refused. *)
Definition remote (a : Z) : contact := mkContact false (ws "aseba") (ws "Not A Thymio 3 on lab") a 33333 [].

Example remote_robots_collide :
  snd (tcp_steps (fun _ => false) (ws "here") [OnContact false (inr (remote 1)); OnContact false (inr (remote 2)); DoAccept; OnConnect 0 None; DoAccept] new_acceptor)
  = [Listen; Listen; Considered (remote 1); Connect 0 (remote 1); Start 0 (ws "here", 33333) (ws "Not A Thymio 3") unknown; Considered (remote 2); Destroyed 1].
Proof. vm_compute. reflexivity. Qed.

Example host_removed : remove_host_from_name (ws "Thymio II on on my-pc") = ws "Thymio II on" /\ remove_host_from_name (ws "Thymio on a b") = ws "Thymio on a b".
Proof. by vm_compute. Qed.
