(* ===== verification/Interfaces.v ===== *)
(** * The addresses of this machine and of its networks

    thymio-device-manager/interfaces.cpp: which connections come from this
    machine, and which from one of its networks.  The lists of interfaces that
    the system gives are arguments. *)
From Stdlib Require Import ZArith Lia List.
From stdpp Require Import base list.
From S2P Require Import Prelude Bits.

Local Open Scope Z_scope.

(** ** Addresses *)

(** [boost::asio::ip::address]: an IPv4 address is a number of 32 bits, an IPv6
    address its 16 bytes and its scope. *)
Inductive address : Type := V4 (a : Z) | V6 (b : list Z) (scope : Z).

#[export] Instance address_eq : EqDecision address.
Proof. solve_decision. Defined.

Definition any_address : address := V4 0.
Definition is_v4 (a : address) : bool := match a with V4 _ => true | _ => false end.
Definition is_unspecified (a : address) : bool :=
  match a with V4 a => a =? 0 | V6 b _ => forallb (Z.eqb 0) b end.

(** The bytes of an IPv4 address, most significant first, and back. *)
Definition v4_bytes (a : Z) : list Z := [a / 2 ^ 24 mod 256; a / 2 ^ 16 mod 256; a / 2 ^ 8 mod 256; a mod 256].
Definition v4_of_bytes (b : list Z) : Z := foldl (fun x y => 256 * x + y) 0 b.

Definition mapped_prefix : list Z := replicate 10 0 ++ [0xff; 0xff].
Definition is_v4_mapped (a : address) : bool :=
  match a with V4 _ => false | V6 b _ => bool_decide (take 12 b = mapped_prefix) end.

(** [make_address_v4(v4_mapped, a)]. *)
Definition make_v4 (a : address) : address := match a with V4 a => V4 a | V6 b _ => V4 (v4_of_bytes (drop 12 b)) end.

(** ** The interfaces *)

(** [std::map], whose order nothing depends on; [emplace] keeps what is there. *)
Definition addresses : Type := list (address * address).
Definition find (a : address) (l : addresses) : option address := option_map snd (List.find (fun e => bool_decide (fst e = a)) l).
Definition emplace (a m : address) (l : addresses) : addresses := match find a l with Some _ => l | None => l ++ [(a, m)] end.

(** A socket address; [None] is a family that is not of the internet. *)
Definition address_from_socket (sa : option address) : address := default any_address sa.

(** [getifaddrs]: the address and the mask of an interface can be missing. *)
Definition ifaddr : Type := option (option address) * option (option address).

Definition add_interface (l : addresses) (i : ifaddr) : addresses :=
  match i with
  | (Some ifa_addr, Some ifa_netmask) =>
      let a := address_from_socket ifa_addr in
      let m := address_from_socket ifa_netmask in
      if negb (is_unspecified a) && negb (is_unspecified m) then
        let l := emplace a m l in
        if is_v4_mapped a && is_v4_mapped m then emplace (make_v4 a) (make_v4 m) l else l
      else l
  | _ => l
  end.

(** [None] is an error of [getifaddrs]. *)
Definition network_interfaces_addresses (lst : option (list ifaddr)) : addresses :=
  match lst with None => [] | Some lst => foldl add_interface [] lst end.

(** *** Windows *)

(** [length] is unsigned; a shift by the width of the type is undefined. *)
Definition v4netmask_from_prefix (length : Z) : res unit Z :=
  let length := u32 (32 - length) in
  if 31 <? length then Undef else Ok (u32 (Z.shiftl 0xffffffff length)).

(** The bytes behind the prefix are what was in memory. *)
Fixpoint netmask_bytes (i : Z) (garbage : list Z) : list Z :=
  match garbage with
  | [] => []
  | g :: garbage' =>
      if 0 <? i then (if 8 <=? i then 0xff else Z.land (Z.shiftl 0xff (8 - i)) 0xff) :: netmask_bytes (i - 8) garbage'
      else g :: netmask_bytes i garbage'
  end.

Definition v6netmask_from_prefix (garbage : list Z) (length : Z) : address := V6 (netmask_bytes (s32 length) garbage) 0.

(** An address that is not in an invalid state, with the length of its prefix. *)
Definition add_adapter (garbage : list Z) (l : addresses) (a : address) (MaskSize : Z) : res unit addresses :=
  match a with
  | V4 _ => m ← v4netmask_from_prefix MaskSize; Ok (emplace a (V4 m) l)
  | V6 _ _ =>
      let mask := v6netmask_from_prefix garbage MaskSize in
      let l := emplace a mask l in
      Ok (if is_v4_mapped a && is_v4_mapped mask then emplace (make_v4 a) (make_v4 mask) l else l)
  end.

Fixpoint win32_addresses (garbage : list Z) (l : addresses) (adapters : list (address * Z)) : res unit addresses :=
  match adapters with
  | [] => Ok l
  | (a, size) :: adapters' => l ← add_adapter garbage l a size; win32_addresses garbage l adapters'
  end.

(** ** The tests *)

Definition address_is_local (local_ips : addresses) (a : address) : bool :=
  match find a local_ips with
  | Some _ => true
  | None => is_v4_mapped a && match find (make_v4 a) local_ips with Some _ => true | None => false end
  end.

Definition check_mask_v4 (netip mask ip : Z) : bool := Z.land netip mask =? Z.land ip mask.

(** The bytes are copied into an integer of the machine, little-endian. *)
Fixpoint from_buffer (b : list Z) : Z := match b with [] => 0 | x :: b' => x + 256 * from_buffer b' end.
Definition check_mask_v6 (netip mask ip : list Z) : bool :=
  Z.land (from_buffer netip) (from_buffer mask) =? Z.land (from_buffer ip) (from_buffer mask).

(** [mask.to_v4()] of another kind of address would throw; the masks have the
    kind of their address. *)
Definition check_mask (netip mask ip : address) : bool :=
  match netip, mask, ip with
  | V4 n, V4 m, V4 i => check_mask_v4 n m i
  | V6 n _, V6 m _, V6 i _ => check_mask_v6 n m i
  | _, _, _ => false
  end.

(** The second of the two addresses that are tested is 0.0.0.0 when the address
    is no mapped one. *)
Definition address_is_network_local (local_ips : addresses) (ip : address) : bool :=
  let ips := [ip; if is_v4_mapped ip then make_v4 ip else any_address] in
  existsb (fun ip => existsb (fun e => check_mask (fst e) (snd e) ip) local_ips) ips.

(** ** Properties *)

(** A mask of [k] bits compares the first [k] bits. *)
Lemma v4netmask_eq k : 1 <= k <= 32 -> v4netmask_from_prefix k = Ok (2 ^ 32 - 2 ^ (32 - k)).
Proof.
  intros Hk. unfold v4netmask_from_prefix. rewrite u32_id by lia. rewrite (proj2 (Z.ltb_ge 31 (32 - k))) by lia.
  f_equal. rewrite Z.shiftl_mul_pow2 by lia. unfold u32. replace (0xffffffff * 2 ^ (32 - k)) with (2 ^ 32 - 2 ^ (32 - k) + (2 ^ (32 - k) - 1) * 4294967296) by lia.
  rewrite Z.mod_add by lia. pose proof (Z.pow_pos_nonneg 2 (32 - k)). apply Z.mod_small. split; [|lia].
  pose proof (Z.pow_le_mono_r 2 (32 - k) 32). lia.
Qed.

Lemma land_mask a k : 1 <= k <= 32 -> 0 <= a < 2 ^ 32 -> Z.land a (2 ^ 32 - 2 ^ (32 - k)) = a / 2 ^ (32 - k) * 2 ^ (32 - k).
Proof.
  intros Hk Ha. replace (2 ^ 32 - 2 ^ (32 - k)) with (Z.shiftl (Z.ones k) (32 - k)).
  - rewrite <- Z.shiftl_mul_pow2, <- Z.shiftr_div_pow2 by lia. apply Z.bits_inj'. intros n Hn. rewrite Z.land_spec.
    destruct (Z.lt_ge_cases n (32 - k)).
    + rewrite !(Z.shiftl_spec_low _ (32 - k)) by lia. apply andb_false_r.
    + rewrite !Z.shiftl_spec, Z.shiftr_spec by lia. replace (n - (32 - k) + (32 - k)) with n by lia.
      destruct (Z.lt_ge_cases n 32); [rewrite Z.ones_spec_low by lia; apply andb_true_r|].
      rewrite Z.ones_spec_high by lia. rewrite andb_false_r. symmetry. apply Z.bits_above_log2; [lia|].
      destruct (Z.eq_dec a 0) as [->|]; [cbn; lia|]. apply Z.log2_lt_pow2; [lia|]. pose proof (Z.pow_le_mono_r 2 32 n). lia.
  - rewrite Z.shiftl_mul_pow2, Z.ones_equiv by lia. rewrite <- Z.sub_1_r, Z.mul_sub_distr_r, <- Z.pow_add_r by lia.
    replace (k + (32 - k)) with 32 by lia. lia.
Qed.

(** A network: its address, and the length of its prefix. *)
Definition in_network (n k a : Z) : Prop := n / 2 ^ (32 - k) = a / 2 ^ (32 - k).

Lemma check_mask_network n k a m : 1 <= k <= 32 -> 0 <= n < 2 ^ 32 -> 0 <= a < 2 ^ 32 -> v4netmask_from_prefix k = Ok m ->
  check_mask_v4 n m a = true <-> in_network n k a.
Proof.
  intros Hk Hn Ha. rewrite v4netmask_eq by done. intros [= <-]. unfold check_mask_v4, in_network. rewrite !land_mask by done.
  rewrite Z.eqb_eq. pose proof (Z.pow_pos_nonneg 2 (32 - k)). nia.
Qed.

(** The interfaces of a machine with IPv4 networks. *)
Fixpoint networks (l : list (Z * Z)) : addresses :=
  match l with
  | [] => []
  | (n, k) :: l' => (V4 n, V4 (2 ^ 32 - 2 ^ (32 - k))) :: networks l'
  end.

Definition network_ok (e : Z * Z) : Prop := 0 <= e.1 < 2 ^ 32 /\ 1 <= e.2 <= 32 /\ e.1 / 2 ^ (32 - e.2) <> 0.

Lemma v4_bytes_eq a : 0 <= a < 2 ^ 32 -> v4_of_bytes (v4_bytes a) = a.
Proof. intros Ha. unfold v4_of_bytes, v4_bytes. cbn [foldl]. change (2 ^ 24) with 16777216. change (2 ^ 16) with 65536. change (2 ^ 8) with 256. Z.div_mod_to_equations. lia. Qed.

(** An IPv4 address as it arrives at a socket that accepts both. *)
Definition mapped (a scope : Z) : address := V6 (mapped_prefix ++ v4_bytes a) scope.

Lemma networks_check l a : Forall network_ok l -> 0 <= a < 2 ^ 32 ->
  existsb (fun e => check_mask (fst e) (snd e) (V4 a)) (networks l) = true <-> exists n k, (n, k) ∈ l /\ in_network n k a.
Proof.
  intros Hl Ha. induction Hl as [|[n k] l (Hn & Hk & Hz) _ IH]; cbn [networks existsb fst snd check_mask].
  - split; [done|]. intros (? & ? & ?%elem_of_nil & _). done.
  - rewrite orb_true_iff, IH, (check_mask_network n k a) by (done || by apply v4netmask_eq). split.
    + intros [H|(n' & k' & H & H')]; [exists n, k; split; [by left|done]|exists n', k'; split; [by right|done]].
    + intros (n' & k' & [[= -> ->]|H]%elem_of_cons & H'); [by left|right; eauto].
Qed.

Lemma networks_zero l : Forall network_ok l -> existsb (fun e => check_mask (fst e) (snd e) any_address) (networks l) = false.
Proof.
  intros Hl. apply not_true_iff_false. intros H. apply (networks_check l 0 Hl) in H as (n & k & Hin & H); [|lia].
  rewrite Forall_forall in Hl. apply Hl in Hin as (_ & Hk & Hz). unfold in_network in H. cbn in *. rewrite Z.div_0_l in H; [done|]. apply Z.pow_nonzero; lia.
Qed.

Lemma networks_v6 l b s : existsb (fun e => check_mask (fst e) (snd e) (V6 b s)) (networks l) = false.
Proof. by induction l as [|[n k] l IH]. Qed.

(** On a machine with IPv4 networks, a connection counts as local to the
    network exactly if the address it comes from has the prefix of one of them,
    whether the address arrives as IPv4 or mapped to IPv6. *)
Theorem network_local_spec l a scope : Forall network_ok l -> 0 <= a < 2 ^ 32 ->
  (address_is_network_local (networks l) (V4 a) = true <-> exists n k, (n, k) ∈ l /\ in_network n k a) /\
  address_is_network_local (networks l) (mapped a scope) = address_is_network_local (networks l) (V4 a).
Proof.
  intros Hl Ha. unfold address_is_network_local, mapped. cbn [existsb is_v4_mapped]. rewrite bool_decide_true by done.
  cbn [make_v4]. rewrite (networks_zero l Hl), !orb_false_r. change (drop 12 (mapped_prefix ++ v4_bytes a)) with (v4_bytes a). rewrite v4_bytes_eq by done.
  split; [by apply networks_check|]. by rewrite networks_v6.
Qed.

Lemma network_local_spec_witness :
  address_is_network_local (networks [(0xC0A80117, 24); (0x7F000001, 8)]) (mapped 0xC0A801FE 0) = true.
Proof.
  assert (Forall network_ok [(0xC0A80117, 24); (0x7F000001, 8)]) as Hl by (repeat constructor; vm_compute; discriminate).
  destruct (network_local_spec [(0xC0A80117, 24); (0x7F000001, 8)] 0xC0A801FE 0 Hl) as [H1 H2]; [lia|]. rewrite H2. apply H1.
  exists 0xC0A80117, 24. split; [by left|reflexivity].
Defined.

(** On Windows the bytes of an IPv6 mask behind the prefix are not set: with what
    happens to be in memory, a neighbour counts as foreign. *)
Example v6_mask_garbage :
  let net b := V6 ([0xfe; 0x80] ++ replicate 13 0 ++ [b]) 0 in
  (match win32_addresses (replicate 16 0) [] [(net 1, 64)] with Ok l => Some (address_is_network_local l (net 2)) | _ => None end,
   match win32_addresses (replicate 16 255) [] [(net 1, 64)] with Ok l => Some (address_is_network_local l (net 2)) | _ => None end)
  = (Some true, Some false).
Proof. vm_compute. reflexivity. Qed.

Example v4_prefix_0 : v4netmask_from_prefix 0 = Undef.
Proof. reflexivity. Qed.
