(* ===== verification/Servers.v ===== *)
(** * Servers

    aseba_device.h, aseba_device.cpp: what a session holds.  usbserver.cpp,
    serialserver.cpp: what becomes of a device that was accepted, and the next
    request.  app_server.h, system_sleep_manager.h: connections of applications
    and the sleep of the machine. *)
From Stdlib Require Import ZArith Lia List.
From stdpp Require Import base list gmap.
From S2P Require Import Prelude Bits UsbDevice Acceptor SerialAcceptor UsbAcceptor Interfaces.

Local Open Scope Z_scope.

(** ** [aseba_device] *)

(** What [m_endpoint] holds; a USB device has a handle while it is open. *)
Inductive endpoint_t : Type :=
| Monostate
| TcpSocket
| UsbDevice (descriptor : usb_device_identifier) (native_handle : option Z)
| SerialPort (id : usb_device_identifier) (path : list Z).

Definition usb_device_id (e : endpoint_t) : option usb_device_identifier :=
  match e with
  | UsbDevice descriptor (Some _) => Some descriptor
  | UsbDevice _ None => Some (mkId 0 0)
  | SerialPort id _ => Some id
  | _ => None
  end.

Definition has_id (id : usb_device_identifier) (e : endpoint_t) : bool := bool_decide (usb_device_id e = Some id).
Definition is_usb (e : endpoint_t) : bool := has_id THYMIO2_DEVICE_ID e.
Definition is_wireless (e : endpoint_t) : bool := has_id THYMIO_WIRELESS_DEVICE_ID e.
Definition is_empty (e : endpoint_t) : bool := match e with Monostate => true | _ => false end.
Definition is_tcp (e : endpoint_t) : bool := match e with TcpSocket => true | _ => false end.

Inductive device_effect : Type :=
| PostFreeTcp
| FreeSerialIn (ms : Z) (path : list Z)
| PostFreeUsb (d : Z)
| CancelOps
| CloseDevice.

(** Whom the end of a session tells that the device is free: also the
    destructor. *)
Definition free_endpoint (e : endpoint_t) : list device_effect :=
  match e with
  | Monostate => []
  | TcpSocket => [PostFreeTcp]
  | SerialPort _ path => match path with [] => [] | _ => [FreeSerialIn 500 path] end
  | UsbDevice _ h => match h with Some d => [PostFreeUsb d] | None => [] end
  end.

Definition stop (e : endpoint_t) : list device_effect := match e with Monostate => [] | _ => [CancelOps] end.
Definition cancel_all_ops (e : endpoint_t) : list device_effect := match e with Monostate => [] | _ => [CancelOps] end.
Definition close_device (e : endpoint_t) : list device_effect :=
  match e with Monostate | TcpSocket => [] | _ => [CloseDevice] end.

(** The move constructor: what was there goes to the new object. *)
Definition move_device (o : endpoint_t) : endpoint_t * endpoint_t := (o, Monostate).

(** ** Robots on a bus *)

Inductive server_effect : Type :=
| AcceptAgain
| RegisterDongle
| StartEndpoint (name : list Z).

(** [should_open_for_configuration], of both servers. *)
Definition should_open_for_configuration (enabled : bool) (id : usb_device_identifier) : bool :=
  enabled && (product_id id =? product_id THYMIO_WIRELESS_DEVICE_ID).

Section Usb.
Context {D : Type} `{!Libusb D}.
(** The descriptor of the device and its name. *)
Variable id : usb_device_identifier.
Variable name : list Z.

(** The handler of [usb_server::accept]. *)
Definition usb_on_accept (enabled : bool) : usb_m (D:=D) (list server_effect) :=
  r ← open;
  match r with
  | Some _ => mret [AcceptAgain]
  | None =>
      if should_open_for_configuration enabled id then mret [RegisterDongle; AcceptAgain]
      else
        set_baud_rate 115200;; set_parity 0;; set_stop_bits 1;; set_data_terminal_ready true;;
        mret [StartEndpoint name; AcceptAgain]
  end.
End Usb.

(** The errors of the operations on a serial port. *)
Record port_result : Type := mkPortResult { port_is_open : bool; open_ec : option Z; baud_ec : option Z; parity_ec : option Z; stop_ec : option Z }.

Definition create_endpoint (r : port_result) (name : list Z) : bool * list server_effect :=
  let opened := if port_is_open r then None else open_ec r in
  match opened, baud_ec r, parity_ec r, stop_ec r with
  | None, None, None, None => (true, [StartEndpoint name])
  | _, _, _, _ => (false, [])
  end.

(** The handler of [serial_server::accept]. *)
Definition serial_on_accept (enabled : bool) (id : usb_device_identifier) (name : list Z) (r : port_result) : list server_effect :=
  if should_open_for_configuration enabled id then [RegisterDongle; AcceptAgain]
  else snd (create_endpoint r name) ++ [AcceptAgain].

(** ** A server and its acceptor

    The server has an acceptor that keeps the contract, and makes a request when
    it starts and in every handler. *)
Section Server.
Context {S E D : Type} `{Countable D} {A : Acceptor S E D}.
Variable accept_async : Z -> E.

Record server : Type := mkServer { acceptor : S; handlers : list Z; next_session : Z }.

Inductive server_event : Type := Device (e : E) | RunHandler.

Definition post_handlers (e : E) (s : server) : server * list (output D) :=
  let '(a, o) := step e (acceptor s) in (mkServer a (handlers s ++ given o) (next_session s), o).

(** [accept]: a new session, and the request for it. *)
Definition accept (s : server) : server * list (output D) :=
  post_handlers (accept_async (next_session s)) (mkServer (acceptor s) (handlers s) (next_session s + 1)).

Definition server_step (e : server_event) (s : server) : server * list (output D) :=
  match e with
  | Device e => post_handlers e s
  | RunHandler => match handlers s with [] => (s, []) | _ :: l => accept (mkServer (acceptor s) l (next_session s)) end
  end.

Fixpoint server_steps (l : list server_event) (s : server) : server * list (output D) :=
  match l with
  | [] => (s, [])
  | e :: l' => let '(s1, o1) := server_step e s in let '(s2, o2) := server_steps l' s1 in (s2, o1 ++ o2)
  end.

Definition start_server : server * list (output D) := accept (mkServer initial [] 0).

Hypothesis one_request : forall h, joins (accept_async h) = [h].

(** The events of the devices make no request. *)
Definition of_devices (e : server_event) : Prop := match e with Device e => joins e = [] | RunHandler => True end.

Definition listening (s : server) : Prop :=
  valid (acceptor s) /\ (List.length (requests_of (acceptor s)) + List.length (handlers s) = 1)%nat.

Lemma post_listening e s n : valid (acceptor s) -> joins e = n ->
  (List.length (requests_of (acceptor s)) + List.length n + List.length (handlers s) = 1)%nat ->
  let '(s', o) := post_handlers e s in listening s' /\ tracks (in_use (acceptor s)) o (in_use (acceptor s')).
Proof.
  intros Hv Hj Hn. unfold post_handlers. pose proof (step_order e (acceptor s) Hv) as Ho. pose proof (step_tracks e (acceptor s) Hv) as Ht.
  pose proof (step_valid e (acceptor s) Hv) as Hv2. destruct (step e (acceptor s)) as [a o]. cbn [fst snd] in *. split; [|done]. split; [done|]. cbn [acceptor handlers].
  rewrite Hj in Ho. apply (f_equal List.length) in Ho. rewrite !length_app in Ho. rewrite length_app. lia.
Qed.

Lemma server_step_listening e s : listening s -> of_devices e ->
  let '(s', o) := server_step e s in listening s' /\ tracks (in_use (acceptor s)) o (in_use (acceptor s')).
Proof.
  intros [Hv Hn] He. destruct e as [e|]; cbn [server_step of_devices] in *.
  - apply (post_listening e s []); [done|done|cbn; lia].
  - destruct (handlers s) as [|h l] eqn:Hh; [split; [split; [done|by rewrite Hh]|constructor]|].
    apply (post_listening _ (mkServer (acceptor s) l (next_session s + 1)) [next_session s]); [done|apply one_request|cbn in *; lia].
Qed.

Lemma server_steps_listening l s : listening s -> Forall of_devices l ->
  let '(s', o) := server_steps l s in listening s' /\ tracks (in_use (acceptor s)) o (in_use (acceptor s')).
Proof.
  intros Hs Hl. revert s Hs. induction Hl as [|e l He _ IH]; intros s Hs; cbn [server_steps]; [split; [done|constructor]|].
  pose proof (server_step_listening e s Hs He) as H1. destruct (server_step e s) as [s1 o1]. destruct H1 as [L1 T1].
  specialize (IH s1 L1). destruct (server_steps l s1) as [s2 o2]. destruct IH as [L2 T2]. split; [done|by eapply tracks_app].
Qed.

Lemma start_listening : let '(s, o) := start_server in listening s /\ tracks ∅ o (in_use (acceptor s)).
Proof.
  destruct initial_ok as (Hv & Hr & Hu). rewrite <- Hu.
  apply (post_listening _ (mkServer initial [] 1) [0]); [done|apply one_request|cbn; by rewrite Hr].
Qed.

(** The whole run of a server. *)
Definition run_server (l : list server_event) : server * list (output D) :=
  let '(s, o1) := start_server in let '(s, o2) := server_steps l s in (s, o1 ++ o2).

Lemma run_listening l : Forall of_devices l ->
  let '(s, o) := run_server l in listening s /\ forall h1 h2 d o1 o2 o3, o = o1 ++ Gave h1 d :: o2 ++ Gave h2 d :: o3 -> Released d ∈ o2.
Proof.
  intros Hl. unfold run_server. pose proof start_listening as H1. destruct start_server as [s1 o1]. destruct H1 as [L1 T1].
  pose proof (server_steps_listening l s1 L1 Hl) as H2. destruct (server_steps l s1) as [s2 o2]. destruct H2 as [L2 T2]. split; [done|].
  intros h1 h2 d p1 p2 p3 Ho. pose proof (tracks_app _ _ _ _ _ T1 T2) as Ht. rewrite Ho in Ht. by eapply tracks_exclusive.
Qed.
End Server.
Arguments server : clear implicits.

(** ** Applications *)

(** [system_sleep_manager]: applications are counted; the system is kept awake
    from the first, until the last. *)
Inductive app_output : Type :=
| Start (app : Z) (machine_local network_local : bool)
| Dropped (app : Z)
| KeepAwake
| LetSleep.

Record app_server : Type := mkAppServer { m_app_count : Z; running : list Z; next_app : Z }.

Definition new_app_server : app_server := mkAppServer 0 [] 0.

Definition set_count x s := mkAppServer x (running s) (next_app s).

Definition app_connected (s : app_server) : app_server * list app_output :=
  (set_count (m_app_count s + 1) s, if m_app_count s + 1 =? 1 then [KeepAwake] else []).
Definition app_disconnected (s : app_server) : app_server * list app_output :=
  (set_count (m_app_count s - 1) s, if m_app_count s - 1 =? 0 then [LetSleep] else []).

Section Apps.
Variable local_ips : addresses.
Variable allow_remote_connections : bool.

(** The handler of [application_server::accept].  After an error the socket is
    not connected, and asking for its remote endpoint throws.  A connection
    that is dropped destroys its endpoint, whose destructor says that an
    application has gone. *)
Definition on_accept (error : option Z) (remote : address) (s : app_server) : res Z (app_server * list app_output) :=
  match error with
  | Some e => Throw e
  | None =>
      let same_machine := address_is_local local_ips remote in
      let same_network := address_is_network_local local_ips remote in
      let app := next_app s in
      if negb same_machine && negb allow_remote_connections then
        let '(s, o) := app_disconnected (mkAppServer (m_app_count s) (running s) (app + 1)) in
        Ok (s, Dropped app :: o)
      else
        let '(s, o) := app_connected (mkAppServer (m_app_count s) (app :: running s) (app + 1)) in
        Ok (s, Start app same_machine same_network :: o)
  end.

Inductive app_event : Type := OnAccept (remote : address) | Gone (app : Z).

Definition app_step (e : app_event) (s : app_server) : app_server * list app_output :=
  match e with
  | OnAccept remote => match on_accept None remote s with Ok r => r | _ => (s, []) end
  | Gone app =>
      if existsb (Z.eqb app) (running s) then
        app_disconnected (mkAppServer (m_app_count s) (List.filter (fun x => negb (x =? app)) (running s)) (next_app s))
      else (s, [])
  end.

Fixpoint app_steps (l : list app_event) (s : app_server) : app_server * list app_output :=
  match l with
  | [] => (s, [])
  | e :: l' => let '(s1, o1) := app_step e s in let '(s2, o2) := app_steps l' s1 in (s2, o1 ++ o2)
  end.
End Apps.

(** Whether the system is kept awake, after what was done. *)
Definition awake (before : bool) (o : list app_output) : bool :=
  foldl (fun b x => match x with KeepAwake => true | LetSleep => false | _ => b end) before o.

(** * What the servers guarantee

    A server of robots always listens and never has a device twice; a robot on
    USB is configured before its endpoint starts; an application of another
    machine is let in only when this was asked for, and the machine is kept
    awake while an application is connected. *)

(** ** Robots *)

(** A server that is never without a request or a handler that will make one,
    and whose devices each belong to one session. *)
Definition serves {S E D} `{Countable D} (A : Acceptor S E D) (accept_async : Z -> E) : Prop :=
  forall l, Forall of_devices l ->
  let '(s, o) := run_server accept_async l in
  (List.length (requests_of (acceptor s)) + List.length (handlers s) = 1)%nat /\
  forall h1 h2 d o1 o2 o3, o = o1 ++ Gave h1 d :: o2 ++ Gave h2 d :: o3 -> Released d ∈ o2.

Definition robots (h : Z) : request := mkRequest [THYMIO2_DEVICE_ID; THYMIO_WIRELESS_DEVICE_ID] h.

Lemma serves_all {S E D} `{Countable D} (A : Acceptor S E D) (accept_async : Z -> E) :
  (forall h, joins (accept_async h) = [h]) -> serves A accept_async.
Proof.
  intros Hj l Hl. pose proof (run_listening accept_async Hj l Hl) as H1. destruct (run_server accept_async l) as [s o].
  destruct H1 as [[_ H1] H2]. by split.
Qed.

(** C21: The servers for robots, over USB, over udev, and on macOS and Windows:
    whatever is plugged in, freed or paused, there is one request that waits or
    one handler that will make the next, so that a new robot is always
    expected; and no device is given to a second session before the first has
    released it. *)
Theorem servers_listen has_udev interval :
  serves usb_acceptor (fun h => UsbAccept (robots h)) /\
  serves (udev_acceptor has_udev) (fun h => UAccept (robots h)) /\
  serves (poll_acceptor interval) (fun h => PAccept (robots h)).
Proof. split_and!; by apply serves_all. Qed.

Lemma servers_listen_witness :
  snd (run_server (A := usb_acceptor) (fun h => UsbAccept (robots h))
        [Device (UsbTimer None [(4, THYMIO2_DEVICE_ID)]); RunHandler; Device (UsbDestroy 4); Device (UsbFree 4); Device (UsbTimer None [(4, THYMIO2_DEVICE_ID)])])
  = [Timer 1000; Gave 0 4; Timer 1000; Released 4; Timer 500; Gave 1 4] /\
  Released (D:=Z) 4 ∈ [Timer 1000; Released 4; Timer 500].
Proof.
  assert (Forall of_devices [Device (UsbTimer None [(4, THYMIO2_DEVICE_ID)]); RunHandler; Device (UsbDestroy 4); Device (UsbFree 4);
            Device (UsbTimer None [(4, THYMIO2_DEVICE_ID)])]) as Hl by (repeat constructor).
  pose proof (proj1 (servers_listen true 500) _ Hl) as H. vm_compute in H |- *. split; [reflexivity|].
  destruct H as [_ H]. exact (H 0 1 4 [Timer 1000] [Timer 1000; Released 4; Timer 500] [] eq_refl).
Defined.

(** ** The session of a robot on USB *)

Section Usb.
Context {D : Type} `{!Libusb D}.

Lemma set_line (f : implementation_type -> implementation_type) (m : usb_m (D:=D) bool) s :
  keeps_impl id m -> impl (snd ((modify f;; m) s)) = f (impl s).
Proof. intros Hm. rewrite bind_run. exact (Hm _). Qed.

Lemma keeps_close : keeps_impl (D:=D) control_line close.
Proof.
  unfold close, cancel. repeat first [apply usb_keeps_modify; done | apply usb_keeps_ret | apply keeps_get | apply keeps_libusb
    | apply keeps_each; intros | apply usb_keeps_bind; [|intros] | progress case_match].
Qed.

(** The settings of the line survive the opening of the device. *)
Lemma keeps_open : keeps_impl (D:=D) control_line open.
Proof.
  assert (forall k, keeps_impl (D:=D) control_line (consider_interface k)) as Hi.
  { intros k. apply keeps_each. intros a. destruct (negb _); [apply usb_keeps_ret|]. apply usb_keeps_bind; [apply keeps_libusb|intros _]. apply usb_keeps_modify.
    intros i. revert i. induction (altsetting_endpoints a) as [|e l IH]; intros i; [done|]. cbn [foldl]. rewrite IH. unfold consider_endpoint. by repeat case_match. }
  unfold open. apply usb_keeps_bind; [apply keeps_get|intros [h|]; [apply usb_keeps_ret|]].
  do 2 (apply usb_keeps_bind; [by apply usb_keeps_modify|intros _]). apply usb_keeps_bind; [apply keeps_get|intros d].
  apply usb_keeps_bind; [apply keeps_libusb|intros r]. destruct (negb _); [apply usb_keeps_ret|].
  apply usb_keeps_bind; [by apply usb_keeps_modify|intros _]. apply usb_keeps_bind; [by intros s|intros _]. apply usb_keeps_bind; [apply keeps_libusb|intros _].
  apply usb_keeps_bind; [apply keeps_claim|intros [e|]; [apply usb_keeps_ret|]]. apply usb_keeps_bind; [by intros s|intros [r2|l]; [apply usb_keeps_ret|]].
  apply usb_keeps_bind; [by apply keeps_each|intros _]. apply usb_keeps_bind; [apply keeps_get|intros ok].
  destruct (negb ok); (apply usb_keeps_bind; [apply keeps_close || apply keeps_start|intros _; apply usb_keeps_ret]).
Qed.

(** When the acceptor of USB devices gives a device to its session, the next
    request is always made, last; an endpoint is started only on a device that
    is open and has an endpoint and a size of packets for both directions, with
    the line set to 115200 baud, as the robot expects. *)
Theorem usb_session id name enabled (s : usb_state D) : List.length (control_line (impl s)) = 7%nat ->
  let '(e, s') := usb_on_accept id name enabled s in
  (exists e', e = e' ++ [AcceptAgain] /\ AcceptAgain ∉ e') /\
  (StartEndpoint name ∈ e ->
   usable (impl s') = true /\ handle (impl s') = device (impl s) /\ take 6 (control_line (impl s')) = [0; 194; 1; 0; 1; 0] /\ dtr (impl s') = true).
Proof.
  intros Hlen. unfold usb_on_accept. rewrite bind_run. destruct (open s) as [[e|] s1] eqn:Ho; cbn [fst snd].
  { cbv [mret usb_ret]. split; [exists []; split; [done|set_solver]|]. intros [?|?%elem_of_nil]%elem_of_cons; done. }
  apply open_usable in Ho as Hu. destruct Hu as (Hu & Hh & _).
  destruct (should_open_for_configuration enabled id).
  { cbv [mret usb_ret]. split; [exists [RegisterDongle]; split; [done|set_solver]|]. intros Hs. set_unfold. naive_solver. }
  rewrite !bind_run. cbv [mret usb_ret]. cbn [fst snd]. split; [exists [StartEndpoint name]; split; [done|set_solver]|]. intros _.
  unfold set_data_terminal_ready, set_stop_bits, set_parity, set_baud_rate.
  assert (List.length (control_line (impl s1)) = 7%nat) as Hlen1.
  { pose proof (keeps_open s) as Hk. rewrite Ho in Hk. cbn in Hk. by rewrite Hk. }
  rewrite !set_line by (apply keeps_control || apply keeps_encoding).
  destruct (control_line (impl s1)) as [|a0 [|a1 [|a2 [|a3 [|a4 [|a5 [|a6 [|]]]]]]]] eqn:Hc; try discriminate Hlen1. cbn. split_and!; done.
Qed.
End Usb.

(** A robot, with endpoints 0x81 and 0x02 and packets of 64 bytes. *)
#[local] Instance robot_usb : Libusb unit := {
  usb := fun _ d => (0, d);
  config_descriptor := fun _ => inr [[mkAltsetting 2 []]; [mkAltsetting LIBUSB_CLASS_DATA [mkUsbEndpoint 2 0x81 64; mkUsbEndpoint 2 0x02 64]]];
  bulk_in := fun _ d => (0, [], d);
  bulk_out := fun b d => (0, len b, d)
}.

Definition sample_robot : usb_state unit := mkState (set_device (Some 3) (new_implementation (replicate 7 0xaa))) [] tt.

Lemma usb_session_witness :
  let '(e, s) := usb_on_accept THYMIO2_DEVICE_ID [84] false sample_robot in e = [StartEndpoint [84]; AcceptAgain] /\ usable (impl s) = true.
Proof.
  pose proof (usb_session THYMIO2_DEVICE_ID [84] false sample_robot eq_refl) as H.
  destruct (usb_on_accept _ _ _ sample_robot) as [e s] eqn:E. vm_compute in E. injection E as <- <-.
  split; [reflexivity|]. apply H. by left.
Defined.

(** The bits of the data are never set: the byte that is sent for them is what
    was in memory. *)
Example data_bits_unset :
  control_line (impl (snd (usb_on_accept THYMIO2_DEVICE_ID [84] false sample_robot)))
  = [0; 194; 1; 0; 1; 0; 0xaa].
Proof. vm_compute. reflexivity. Qed.

(** ** Applications *)

(** Who may connect. *)
Definition admitted (local_ips : addresses) (allow : bool) (remote : address) : bool := address_is_local local_ips remote || allow.

Section Apps.
Variable local_ips : addresses.
Variable allow : bool.

(** What a step starts, and for whom. *)
Lemma step_starts e s app m n : Start app m n ∈ snd (app_step local_ips allow e s) ->
  exists remote, e = OnAccept remote /\ m = address_is_local local_ips remote /\ n = address_is_network_local local_ips remote /\ admitted local_ips allow remote = true.
Proof.
  assert (forall b (o : list app_output), Start app m n ∉ o -> Start app m n ∉ (if b : bool then o else [])) as Hif by (intros [] o Ho; [done|set_solver]).
  destruct e as [remote|g]; cbn [app_step].
  - unfold on_accept, admitted. destruct (negb _ && negb _) eqn:E; cbn [app_disconnected app_connected snd]; intros [[=]|Hs]%elem_of_cons.
    + by apply Hif in Hs; [|set_solver].
    + subst. exists remote. split_and!; [done..|]. by rewrite <- negb_orb, negb_false_iff in E.
    + by apply Hif in Hs; [|set_solver].
  - destruct (existsb _ _); cbn [app_disconnected snd]; [|set_solver]. intros Hs. by apply Hif in Hs; [|set_solver].
Qed.


(** The count of the applications, when none was turned away. *)
Record counted (s : app_server) (b : bool) : Prop := {
  count_running : m_app_count s = Z.of_nat (List.length (running s));
  distinct : NoDup (running s);
  numbered : Forall (fun x => x < next_app s) (running s);
  kept_awake : b = negb (bool_decide (running s = []))
}.

Definition none_refused (l : list app_event) : Prop := Forall (fun e => match e with OnAccept remote => admitted local_ips allow remote = true | Gone _ => True end) l.

Lemma filter_other x l : NoDup l -> x ∈ l -> Z.of_nat (List.length (List.filter (fun y => negb (y =? x)) l)) = Z.of_nat (List.length l) - 1.
Proof.
  induction 1 as [|y l Hy Hl IH]; [set_solver|]. cbn [List.filter]. destruct (Z.eqb_spec y x) as [->|Hn]; cbn [negb List.length].
  - intros _. assert (List.filter (fun y => negb (y =? x)) l = l) as ->; [|lia]. clear IH Hl. induction l as [|z l IH]; [done|]. cbn.
    destruct (Z.eqb_spec z x) as [->|]; [set_solver|]. cbn. rewrite IH; [done|set_solver].
  - intros [?|Hin]%elem_of_cons; [congruence|]. specialize (IH Hin). lia.
Qed.

Lemma counted_step e s b : counted s b -> match e with OnAccept remote => admitted local_ips allow remote = true | Gone _ => True end ->
  let '(s', o) := app_step local_ips allow e s in counted s' (awake b o).
Proof.
  intros [H1 H2 H3 H4] He. destruct e as [remote|g]; cbn [app_step].
  - unfold on_accept. unfold admitted in He. rewrite <- negb_orb, He. cbn [negb]. unfold app_connected, set_count. cbn [m_app_count running next_app awake foldl].
    split; cbn [m_app_count running next_app List.length]; [lia| | |].
    + constructor; [|done]. intros Hin. rewrite Forall_forall in H3. apply H3 in Hin. lia.
    + constructor; [lia|]. eapply Forall_impl; [exact H3|]. cbn. lia.
    + destruct (Z.eqb_spec (m_app_count s + 1) 1) as [E|E]; [by cbn|]. cbn. rewrite H4. destruct (running s); [cbn in *; lia|done].
  - destruct (existsb (Z.eqb g) (running s)) eqn:E; [|by split].
    apply existsb_exists in E as (g' & Hin & ->%Z.eqb_eq). apply list_elem_of_In in Hin. pose proof (filter_other g' (running s) H2 Hin) as Hf.
    unfold app_disconnected, set_count. cbn [m_app_count running next_app]. split; cbn [m_app_count running next_app]; [lia| | |].
    + rewrite NoDup_ListNoDup in *. by apply List.NoDup_filter.
    + apply List.Forall_forall. intros x [Hx _]%List.filter_In. rewrite List.Forall_forall in H3. by apply H3.
    + destruct (running s) as [|x l] eqn:Er; [set_solver|]. cbn in H4. subst b. cbn [List.length] in *.
      destruct (List.filter _ (x :: l)) as [|y k] eqn:Ef; cbn [List.length] in Hf; destruct (Z.eqb_spec (m_app_count s - 1) 0); cbn; lia || done.
Qed.
End Apps.

(** As long as no connection is turned away, the number of applications is
    the number of those that are connected, and the machine is kept awake
    exactly while there is one. *)
Theorem awake_while_connected local_ips allow l : none_refused local_ips allow l ->
  let '(s, o) := app_steps local_ips allow l new_app_server in
  m_app_count s = Z.of_nat (List.length (running s)) /\ awake false o = negb (bool_decide (running s = [])).
Proof.
  intros Hl. assert (counted new_app_server false) as H0 by (split; by constructor). revert H0. generalize new_app_server, false.
  induction Hl as [|e l He _ IH]; intros s b Hs; cbn [app_steps]; [destruct Hs; by split|].
  pose proof (counted_step local_ips allow e s b Hs He) as H1. destruct (app_step local_ips allow e s) as [s1 o1]. specialize (IH s1 _ H1).
  destruct (app_steps local_ips allow l s1) as [s2 o2]. unfold awake in *. by rewrite foldl_app.
Qed.

Definition loopback : addresses := [(V4 0x7F000001, V4 0xFF000000)].

Lemma awake_while_connected_witness :
  awake false (snd (app_steps loopback false [OnAccept (V4 0x7F000001); OnAccept (mapped 0x7F000001 0); Gone 0] new_app_server)) = true.
Proof.
  assert (none_refused loopback false [OnAccept (V4 0x7F000001); OnAccept (mapped 0x7F000001 0); Gone 0]) as Hl by (repeat constructor).
  pose proof (awake_while_connected _ _ _ Hl) as H. destruct (app_steps loopback false _ _) as [s o] eqn:E. vm_compute in E. injection E as <- <-. apply H.
Defined.


(** A connection that is turned away counts as an application that has gone: the
    machine may go to sleep while an application is connected. *)
Example asleep_while_connected :
  let '(s, o) := app_steps loopback false [OnAccept (V4 0x7F000001); OnAccept (V4 0x08080808)] new_app_server in
  (running s, m_app_count s, awake false o) = ([0], 0, false).
Proof. vm_compute. reflexivity. Qed.

(** An accept that fails ends the manager. *)
Example accept_error_throws : on_accept loopback false (Some 24) (V4 0) new_app_server = Throw 24.
Proof. reflexivity. Qed.
