(* ===== verification/FwUpdate.v ===== *)
(** * The firmware that is downloaded

    thymio-device-manager/fw_update_service.h and fw_update_service.cpp: what is
    known of the latest firmware, the downloads, and the upgrades that wait for
    them.  The HTTP client and the parser of the manifest belong to libraries: a
    request that was sent is answered by an event, or never. *)
From Stdlib Require Import ZArith Lia List Permutation.
From stdpp Require Import base list sets.
From S2P Require Import Prelude Node.

Local Open Scope Z_scope.

(** ** State *)

(** [m_waiting] has the promises of each type; a promise is a number. *)
Record firmware_update_service : Type := mkFw {
  m_downloading : list node_type;
  m_versions : list (node_type * Z);
  m_urls : list (node_type * wstring);
  m_firmwares_data : list (node_type * list Z);
  m_waiting : list (node_type * list Z)
}.

Definition new_fw : firmware_update_service := mkFw [] [] [] [] [].

(** A node of the registry: its number, type and version. *)
Record fw_node : Type := mkFwNode { fn_id : Z; fn_type : node_type; fn_version : Z }.

Inductive fw_effect : Type :=
| GetInfo
| GetData (t : node_type) (url : wstring)
| SetAvailableVersion (n : Z) (v : Z)
| Fulfil (p : Z) (data : list Z)
| Broken (p : Z).

Definition fw_result : Type := firmware_update_service * list fw_effect.

Definition lookup {A} (t : node_type) (l : list (node_type * A)) : option A := option_map snd (List.find (fun e => bool_decide (fst e = t)) l).
Definition assign {A} (t : node_type) (x : A) (l : list (node_type * A)) : list (node_type * A) :=
  (t, x) :: List.filter (fun e => negb (bool_decide (fst e = t))) l.

Definition set_downloading x s := mkFw x (m_versions s) (m_urls s) (m_firmwares_data s) (m_waiting s).
Definition set_version t v url s := mkFw (m_downloading s) (assign t v (m_versions s)) (assign t url (m_urls s)) (m_firmwares_data s) (m_waiting s).
Definition set_data x s := mkFw (m_downloading s) (m_versions s) (m_urls s) x (m_waiting s).
Definition set_waiting x s := mkFw (m_downloading s) (m_versions s) (m_urls s) (m_firmwares_data s) x.

(** ** Operations *)

(** A robot behind a dongle has the firmware of a robot. *)
Definition without_wireless (t : node_type) : node_type := match t with Thymio2Wireless => Thymio2 | _ => t end.

Definition waiting_for (t : node_type) (s : firmware_update_service) : list Z := default [] (lookup t (m_waiting s)).

Definition download_thymio_2_firmware (s : firmware_update_service) : fw_result :=
  if bool_decide (Thymio2 ∈ m_downloading s) then (s, [])
  else (set_downloading (m_downloading s ++ [Thymio2]) s, [GetInfo]).

Definition download_firmare_info (t : node_type) (s : firmware_update_service) : fw_result :=
  match t with Thymio2 => download_thymio_2_firmware s | _ => (s, []) end.

Definition download_firmare_data (t : node_type) (s : firmware_update_service) : list fw_effect :=
  match lookup t (m_urls s) with None => [] | Some url => [GetData t url] end.

Definition update_nodes_versions (nodes : list fw_node) (t : node_type) (s : firmware_update_service) : list fw_effect :=
  match lookup t (m_versions s) with
  | None => []
  | Some v =>
      List.flat_map (fun n => if bool_decide (t = without_wireless (fn_type n)) && negb (fn_version n =? v) then [SetAvailableVersion (fn_id n) v] else []) nodes
      ++ match waiting_for t s with [] => [] | _ => download_firmare_data t s end
  end.

Definition node_changed (nodes : list fw_node) (n : option fw_node) (st : status) (s : firmware_update_service) : fw_result :=
  match n, st with
  | Some n, available =>
      let t := without_wireless (fn_type n) in
      match lookup t (m_versions s) with
      | Some _ => (s, update_nodes_versions nodes t s)
      | None => download_firmare_info t s
      end
  | _, _ => (s, [])
  end.

(** The answer to the request for the manifest: the version and the address in
    it, where it is one. *)
Definition on_info (nodes : list fw_node) (manifest : option (Z * wstring)) (s : firmware_update_service) : fw_result :=
  let s := set_downloading (List.filter (fun t => negb (bool_decide (t = Thymio2))) (m_downloading s)) s in
  match manifest with
  | None => (s, [])
  | Some (v, url) =>
      if v =? 0 then (s, [])
      else
        let s := set_version Thymio2 v url s in
        (s, update_nodes_versions nodes Thymio2 s)
  end.

(** [firmware_data] with the promise [p]. *)
Definition firmware_data (t : node_type) (p : Z) (s : firmware_update_service) : fw_result :=
  let t := without_wireless t in
  match lookup t (m_firmwares_data s) with
  | Some data => (s, [Fulfil p data])
  | None =>
      match lookup t (m_urls s) with
      | None => let '(s, o) := download_firmare_info t s in (s, o ++ [Broken p])
      | Some _ =>
          let s := set_waiting (assign t (waiting_for t s ++ [p]) (m_waiting s)) s in
          (s, match waiting_for t s with [_] => download_firmare_data t s | _ => [] end)
      end
  end.

(** The answer to the request for a firmware: its bytes, if it succeeded. *)
Definition on_data (t : node_type) (body : option (list Z)) (s : firmware_update_service) : fw_result :=
  match body with
  | None => (s, [])
  | Some body =>
      let s := match lookup t (m_firmwares_data s) with Some _ => s | None => set_data (assign t (List.map u8 body) (m_firmwares_data s)) s end in
      let data := default [] (lookup t (m_firmwares_data s)) in
      (set_waiting [] s, List.map (fun p => Fulfil p data) (waiting_for t s))
  end.

Inductive fw_event : Type :=
| NodeChanged (nodes : list fw_node) (n : option fw_node) (st : status)
| OnInfo (nodes : list fw_node) (manifest : option (Z * wstring))
| FirmwareData (t : node_type) (p : Z)
| OnData (t : node_type) (body : option (list Z)).

Definition fw_step (e : fw_event) (s : firmware_update_service) : fw_result :=
  match e with
  | NodeChanged nodes n st => node_changed nodes n st s
  | OnInfo nodes manifest => on_info nodes manifest s
  | FirmwareData t p => firmware_data t p s
  | OnData t body => on_data t body s
  end.

Fixpoint fw_steps (l : list fw_event) (s : firmware_update_service) : fw_result :=
  match l with
  | [] => (s, [])
  | e :: l' => let '(s1, o1) := fw_step e s in let '(s2, o2) := fw_steps l' s1 in (s2, o1 ++ o2)
  end.

(** ** Every promise is kept, broken or waits *)

Definition promised (l : list fw_event) : list Z := List.flat_map (fun e => match e with FirmwareData _ p => [p] | _ => [] end) l.
Definition settled (o : list fw_effect) : list Z := List.flat_map (fun x => match x with Fulfil p _ => [p] | Broken p => [p] | _ => [] end) o.
Definition responses (l : list fw_event) : list (list Z) := List.flat_map (fun e => match e with OnData _ (Some b) => [List.map u8 b] | _ => [] end) l.

(** Only the robot has an address, and so only its firmware is waited for; what
    was stored, was an answer. *)
Record fw_ok (s : firmware_update_service) (answers : list (list Z)) : Prop := {
  only_urls t : t <> Thymio2 -> lookup t (m_urls s) = None;
  only_waiting : m_waiting s = [] \/ exists w, m_waiting s = [(Thymio2, w)];
  known_data t d : lookup t (m_firmwares_data s) = Some d -> d ∈ answers
}.

Lemma lookup_assign {A} t t' (x : A) l : lookup t (assign t' x l) = if bool_decide (t' = t) then Some x else lookup t l.
Proof.
  unfold lookup, assign. cbn. case_bool_decide as Ht; [done|]. induction l as [|[k y] l IH]; [done|]. cbn.
  case_bool_decide as Hk; cbn; [subst; rewrite bool_decide_false by congruence; exact IH|]. case_bool_decide; [done|exact IH].
Qed.

Lemma settled_app o1 o2 : settled (o1 ++ o2) = settled o1 ++ settled o2.
Proof. apply List.flat_map_app. Qed.

Lemma update_settled nodes t s : settled (update_nodes_versions nodes t s) = [].
Proof.
  unfold update_nodes_versions. destruct (lookup t (m_versions s)) as [v|]; [|done]. rewrite settled_app.
  assert (settled (match waiting_for t s with [] => [] | _ => download_firmare_data t s end) = []) as ->.
  { unfold download_firmare_data. by repeat case_match. }
  rewrite app_nil_r. induction nodes as [|n nodes IH]; [done|]. cbn [List.flat_map]. rewrite settled_app, IH. by destruct (_ && _).
Qed.

Lemma info_settled t s : settled (snd (download_firmare_info t s)) = [] /\ m_waiting (fst (download_firmare_info t s)) = m_waiting s /\
  m_urls (fst (download_firmare_info t s)) = m_urls s /\ m_firmwares_data (fst (download_firmare_info t s)) = m_firmwares_data s.
Proof. unfold download_firmare_info, download_thymio_2_firmware. destruct t; try done. by case_bool_decide. Qed.

(** The waiting of a step. *)
Lemma waiting_eq s answers : fw_ok s answers -> concat (List.map snd (m_waiting s)) = waiting_for Thymio2 s.
Proof. intros [_ [Hw|[w Hw]] _]; unfold waiting_for, lookup; rewrite Hw; cbn; [done|by rewrite app_nil_r]. Qed.

Definition waiting_all (s : firmware_update_service) : list Z := concat (List.map snd (m_waiting s)).

(** What a step keeps: the promises, and where the data comes from. *)
Record fw_kept (s s' : firmware_update_service) (o : list fw_effect) (ps : list Z) (answers : list (list Z)) : Prop := {
  kept_ok : fw_ok s' answers;
  kept_promises : waiting_all s ++ ps ≡ₚ settled o ++ waiting_all s';
  kept_data p d : Fulfil p d ∈ o -> d ∈ answers;
  kept_requests t url : GetData t url ∈ o -> t = Thymio2
}.

Lemma fulfils_none o p d : settled o = [] -> Fulfil p d ∉ o.
Proof. intros Ho Hin. induction o as [|x o IH]; [by apply elem_of_nil in Hin|]. cbn in Ho. destruct x; try done; apply elem_of_cons in Hin as [?|?]; try done; auto. Qed.

Lemma get_data s answers t t' url : fw_ok s answers -> GetData t url ∈ download_firmare_data t' s -> t = Thymio2.
Proof.
  intros [Hu _ _]. unfold download_firmare_data. destruct (lookup t' (m_urls s)) eqn:E; [|by intros ?%elem_of_nil].
  intros [= -> _]%list_elem_of_singleton. destruct (decide (t' = Thymio2)); [done|]. by rewrite Hu in E.
Qed.

Lemma update_requests s answers nodes t t' url : fw_ok s answers -> GetData t url ∈ update_nodes_versions nodes t' s -> t = Thymio2.
Proof.
  intros Hs. unfold update_nodes_versions. destruct (lookup t' (m_versions s)); [|by intros ?%elem_of_nil]. rewrite elem_of_app. intros [H|H].
  - apply list_elem_of_In, List.in_flat_map in H as (n & _ & H). by destruct (_ && _); [destruct H as [[=]|[]]|].
  - case_match; [by apply elem_of_nil in H|]. by eapply get_data.
Qed.

Lemma quiet_kept s s' o answers : fw_ok s answers -> fw_ok s' answers -> m_waiting s' = m_waiting s -> settled o = [] ->
  (forall t url, GetData t url ∈ o -> t = Thymio2) -> fw_kept s s' o [] answers.
Proof.
  intros H1 H2 Hw Ho Hg. split; [done| |by intros p d ?%fulfils_none|done]. unfold waiting_all. by rewrite Hw, Ho, app_nil_r.
Qed.

Lemma fw_ok_same s s' answers : fw_ok s answers -> m_urls s' = m_urls s -> m_waiting s' = m_waiting s -> m_firmwares_data s' = m_firmwares_data s -> fw_ok s' answers.
Proof. intros [H1 H2 H3] Hu Hw Hd. by split; rewrite ?Hu, ?Hw, ?Hd. Qed.

Lemma info_requests t s t' url : GetData t' url ∉ snd (download_firmare_info t s).
Proof. unfold download_firmare_info, download_thymio_2_firmware. destruct t; try apply not_elem_of_nil. case_bool_decide; cbn; [apply not_elem_of_nil|]. by intros ?%list_elem_of_singleton. Qed.

Lemma info_kept t s answers : fw_ok s answers -> let '(s', o) := download_firmare_info t s in fw_kept s s' o [] answers.
Proof.
  intros Hs. destruct (info_settled t s) as (H1 & H2 & H3 & H4). pose proof (info_requests t s) as H5. destruct (download_firmare_info t s) as [s' o]. cbn in *.
  apply quiet_kept; [done|by eapply fw_ok_same|done|done|]. intros t' url Hin. by destruct (H5 t' url).
Qed.

Lemma node_changed_kept nodes n st s answers : fw_ok s answers -> let '(s', o) := node_changed nodes n st s in fw_kept s s' o [] answers.
Proof.
  intros Hs. unfold node_changed. destruct n as [n|]; [|by apply quiet_kept; try done; intros ? ? ?%elem_of_nil].
  destruct st; try (apply quiet_kept; try done; by intros ? ? ?%elem_of_nil). destruct (lookup _ (m_versions s)); [|by apply info_kept].
  apply quiet_kept; [done..|apply update_settled|]. intros t url. by eapply update_requests.
Qed.

Lemma on_info_kept nodes m s answers : fw_ok s answers -> let '(s', o) := on_info nodes m s in fw_kept s s' o [] answers.
Proof.
  intros Hs. unfold on_info. destruct m as [[v url]|]; [|apply quiet_kept; [done|by eapply fw_ok_same|done|done|by intros ? ? ?%elem_of_nil]].
  destruct (v =? 0); [apply quiet_kept; [done|by eapply fw_ok_same|done|done|by intros ? ? ?%elem_of_nil]|].
  match goal with |- context [update_nodes_versions _ _ ?x] => assert (fw_ok x answers) as Hx end.
  { destruct Hs as [H1 H2 H3]. split; [|exact H2|exact H3]. intros t Ht. cbn. rewrite lookup_assign. rewrite bool_decide_false by congruence. by apply H1. }
  apply quiet_kept; [done..|apply update_settled|]. intros t u. by eapply update_requests.
Qed.

Lemma firmware_data_kept t p s answers : fw_ok s answers -> let '(s', o) := firmware_data t p s in fw_kept s s' o [p] answers.
Proof.
  intros Hs. unfold firmware_data. set (t' := without_wireless t). destruct (lookup t' (m_firmwares_data s)) as [data|] eqn:Ed.
  { split; [done|cbn; symmetry; apply Permutation_cons_append| |by intros ? ? ?%list_elem_of_singleton].
    intros p' d' [= _ ->]%list_elem_of_singleton. by eapply known_data. }
  destruct (lookup t' (m_urls s)) as [url|] eqn:Eu.
  - assert (t' = Thymio2) as Et by (destruct (decide (t' = Thymio2)); [done|by rewrite (only_urls _ _ Hs) in Eu]). rewrite Et in *.
    match goal with |- context [set_waiting ?w s] => assert (exists w', w = [(Thymio2, w')] /\ w' = waiting_all s ++ [p]) as (w' & Hw & Hw') end.
    { unfold waiting_all. rewrite (waiting_eq s answers Hs). eexists. split; [|reflexivity]. destruct (only_waiting _ _ Hs) as [->|[w ->]]; reflexivity. }
    rewrite Hw. assert (fw_ok (set_waiting [(Thymio2, w')] s) answers) as Hs'.
    { destruct Hs as [H1 _ H3]. split; [exact H1|right; by exists w'|exact H3]. }
    split; [done| | |].
    + rewrite <- Hw'. unfold waiting_all at 1. cbn. rewrite app_nil_r. case_match; [done|]. case_match; [|done]. unfold download_firmare_data. by case_match.
    + intros p' d'. case_match; [by intros ?%elem_of_nil|]. case_match; [|by intros ?%elem_of_nil].
      unfold download_firmare_data. case_match; [by intros ?%list_elem_of_singleton|by intros ?%elem_of_nil].
    + intros t0 url0. case_match; [by intros ?%elem_of_nil|]. case_match; [|by intros ?%elem_of_nil]. by eapply get_data.
  - pose proof (info_kept t' s answers Hs) as Hk. destruct (download_firmare_info t' s) as [s' o]. destruct Hk as [K1 K2 K3 K4]. split; [done| | |].
    + rewrite settled_app. cbn. rewrite app_nil_r in K2. rewrite K2, <- !app_assoc. apply Permutation_app_head. symmetry. apply Permutation_cons_append.
    + intros p' d' [Hin|?%list_elem_of_singleton]%elem_of_app; [by eapply K3|done].
    + intros t0 url0 [Hin|?%list_elem_of_singleton]%elem_of_app; [by eapply K4|done].
Qed.

Lemma fw_ok_more s answers more : fw_ok s answers -> fw_ok s (answers ++ more).
Proof. intros [H1 H2 H3]. split; [done|done|]. intros t d Hd. apply elem_of_app. left. by eapply H3. Qed.

Lemma on_data_kept body s answers : fw_ok s answers ->
  let '(s', o) := on_data Thymio2 body s in fw_kept s s' o [] (answers ++ match body with Some b => [List.map u8 b] | None => [] end).
Proof.
  intros Hs. unfold on_data. destruct body as [b|]; [|rewrite app_nil_r; apply quiet_kept; [done..|by intros ? ? ?%elem_of_nil]].
  set (s1 := match lookup Thymio2 (m_firmwares_data s) with Some _ => s | None => set_data _ s end).
  assert (m_waiting s1 = m_waiting s /\ m_urls s1 = m_urls s /\ exists d, lookup Thymio2 (m_firmwares_data s1) = Some d /\
          forall t d, lookup t (m_firmwares_data s1) = Some d -> d ∈ answers ++ [List.map u8 b]) as (Hw & Hu & d & Hd & Hall).
  { unfold s1. destruct (lookup Thymio2 (m_firmwares_data s)) as [d|] eqn:E.
    - split_and!; [done..|]. exists d. split; [done|]. apply (fw_ok_more _ _ [List.map u8 b] Hs).
    - split_and!; [done..|]. exists (List.map u8 b). cbn. rewrite lookup_assign. rewrite bool_decide_true by done. split; [done|]. intros t d.
      rewrite lookup_assign. case_bool_decide; [intros [= <-]; set_solver|]. intros Hl. apply elem_of_app. left. by eapply known_data. }
  rewrite Hd. cbn [default]. assert (waiting_for Thymio2 s1 = waiting_all s) as Hwf.
  { unfold waiting_for. rewrite Hw. symmetry. by apply waiting_eq with answers. }
  rewrite Hwf. split.
  - split; [intros t Ht; cbn; rewrite Hu; by apply (only_urls _ _ Hs)|by left|exact Hall].
  - unfold waiting_all at 3. cbn. rewrite !app_nil_r. clear Hwf. induction (waiting_all s) as [|x l IH]; [by constructor|]. cbn. apply perm_skip. exact IH.
  - intros p d' Hin. apply list_elem_of_In, List.in_map_iff in Hin as (p' & [= <- <-] & _). by eapply Hall.
  - intros t url Hin. apply list_elem_of_In, List.in_map_iff in Hin as (p' & [=] & _).
Qed.

(** The events that answer a request for a firmware answer one that was made. *)
Definition data_event_ok (e : fw_event) : Prop := match e with OnData t _ => t = Thymio2 | _ => True end.

Lemma fw_step_kept e s answers : fw_ok s answers -> data_event_ok e ->
  let '(s', o) := fw_step e s in fw_kept s s' o (promised [e]) (answers ++ responses [e]).
Proof.
  intros Hs He. destruct e as [nodes n st|nodes m|t p|t body]; cbn [fw_step promised responses List.flat_map]; rewrite ?app_nil_r.
  - by apply node_changed_kept.
  - by apply on_info_kept.
  - by apply firmware_data_kept.
  - cbn in He. subst t. pose proof (on_data_kept body s answers Hs) as Hk. destruct (on_data Thymio2 body s). by destruct body.
Qed.

Lemma fw_steps_kept l s answers : fw_ok s answers -> Forall data_event_ok l ->
  let '(s', o) := fw_steps l s in fw_kept s s' o (promised l) (answers ++ responses l).
Proof.
  intros Hs Hl. revert s answers Hs. induction Hl as [|e l He _ IH]; intros s answers Hs; cbn [fw_steps].
  - rewrite app_nil_r. apply quiet_kept; [done..|by intros ? ? ?%elem_of_nil].
  - pose proof (fw_step_kept e s answers Hs He) as H1. destruct (fw_step e s) as [s1 o1]. specialize (IH s1 _ (kept_ok _ _ _ _ _ H1)).
    destruct (fw_steps l s1) as [s2 o2]. destruct H1 as [_ P1 D1 R1], IH as [K2 P2 D2 R2].
    assert (promised (e :: l) = promised [e] ++ promised l) as -> by apply (List.flat_map_app _ [e] l).
    assert (responses (e :: l) = responses [e] ++ responses l) as -> by apply (List.flat_map_app _ [e] l). rewrite app_assoc. split; [done| | |].
    + rewrite settled_app, app_assoc, P1, <- !app_assoc, P2. done.
    + intros p d [H|H]%elem_of_app; [apply elem_of_app; left; by eapply D1|by eapply D2].
    + intros t url [H|H]%elem_of_app; [by eapply R1|by eapply R2].
Qed.

(** C27: Every request for a firmware has one outcome: its promise is fulfilled,
    broken, or still waits, and this once; what it is fulfilled with is the
    content of an answer to a download; and only the firmware of robots is
    downloaded. *)
Theorem fw_promises l : Forall data_event_ok l ->
  let '(s, o) := fw_steps l new_fw in
  promised l ≡ₚ settled o ++ waiting_all s /\
  (forall p d, Fulfil p d ∈ o -> d ∈ responses l) /\
  (forall t url, GetData t url ∈ o -> t = Thymio2).
Proof.
  intros Hl. assert (fw_ok new_fw []) as H0 by (split; [done|by left|by intros t d [=]]). pose proof (fw_steps_kept l new_fw [] H0 Hl) as Hk.
  destruct (fw_steps l new_fw) as [s o]. by destruct Hk as [_ P D R].
Qed.

Definition sample_fw : list fw_event :=
  [FirmwareData Thymio2 1; OnInfo [mkFwNode 7 Thymio2Wireless 10] (Some (14, [104])); FirmwareData Thymio2 2; FirmwareData Thymio2Wireless 3; OnData Thymio2 (Some [58; -1])].

(** The first request comes before the address is known: its promise is broken. *)
Lemma fw_promises_witness :
  snd (fw_steps sample_fw new_fw) = [GetInfo; Broken 1; SetAvailableVersion 7 14; GetData Thymio2 [104]; Fulfil 2 [58; 255]; Fulfil 3 [58; 255]] /\
  [1; 2; 3] ≡ₚ settled (snd (fw_steps sample_fw new_fw)).
Proof.
  split; [reflexivity|]. assert (Forall data_event_ok sample_fw) as Hl by (repeat constructor). pose proof (fw_promises sample_fw Hl) as H.
  destruct (fw_steps sample_fw new_fw) as [s o] eqn:E. vm_compute in E. injection E as <- <-. destruct H as [H _]. exact H.
Defined.

(** A download that fails leaves its promises waiting, and so the next request
    does not start another. *)
Example failed_download_blocks :
  snd (fw_steps [OnInfo [] (Some (14, [104])); FirmwareData Thymio2 1; OnData Thymio2 None; FirmwareData Thymio2 2] new_fw) = [GetData Thymio2 [104]].
Proof. vm_compute. reflexivity. Qed.

(** A request for the manifest that is not answered is the last. *)
Example lost_request_is_final :
  let robot := NodeChanged [] (Some (mkFwNode 7 Thymio2 10)) available in
  snd (fw_steps [robot; robot; FirmwareData Thymio2 1; robot] new_fw) = [GetInfo; Broken 1].
Proof. vm_compute. reflexivity. Qed.
