(* ===== verification/UpgradeDevices.v ===== *)
(** * The devices of a firmware upgrade

    thymio-device-manager/thymio2_fwupgrade_impl.cpp: what the upgrade asks of
    a port of Linux or macOS, of a port of Windows, and of libusb, as three
    instances of the class [Device] of Upgrade.v.  The calls of the systems are
    classes; a port of Linux that fails finitely often is a device that fails
    finitely often.  Below, the upgrade from the endpoint to the acceptors. *)
From Stdlib Require Import ZArith Lia List.
From stdpp Require Import base list.
From S2P Require Import Prelude Bits Consts Utils Buffer MsgClasses Msg Frame HexFile HexSpec Upgrade UpgradeSpec.
From S2P Require UsbDevice.

Local Open Scope Z_scope.

(** An [error_code]: 0 is success. *)
Definition failed (ec : Z) : bool := negb (ec =? 0).
Definition timed_out : Z := 110.

(** ** Linux and macOS *)

Inductive flag : Type := CLOCAL | CREAD | CS8 | B1152000 | IGNPAR.
Record termios : Type := mkTermios { c_cflag : list flag; c_iflag : list flag; c_oflag : list flag; c_lflag : list flag; VTIME : Z; VMIN : Z; speed : Z }.

Inductive syscall : Type :=
| Open | Flock (fd : Z) | Close (fd : Z)
| SetModemBit (fd : Z) (on : bool)
| Drain (fd : Z) | Flush (fd : Z) | SetAttr (fd : Z) (t : termios)
| Select (fd tv_usec : Z)
| Write (fd : Z) (data : list Z).

Class Posix (D : Type) : Type := {
  sys : syscall -> D -> Z * D;
  sys_read : Z -> nat -> D -> Z * list Z * D;
  errno : D -> Z
}.

Section Posix.
Context {D : Type} `{!Posix D}.
Variable apple : bool.

(** The error of a call that failed, or success. *)
Definition checked (ok : Z -> bool) (c : syscall) (d : D) : Z * D := let '(r, d) := sys c d in (if ok r then 0 else errno d, d).

Definition set_data_terminal_ready (fd : Z) (dtr : bool) (d : D) : Z * D := checked (fun r => r =? 0) (SetModemBit fd dtr) d.

Definition flush (fd : Z) (d : D) : Z * D :=
  let '(r, d) := if apple then sys (Drain fd) d else (0, d) in
  let '(r, d) := if r =? 0 then sys (Flush fd) d else (r, d) in
  (if r =? 0 then 0 else errno d, d).

Definition newtio : termios :=
  if apple then mkTermios [CLOCAL; CREAD; CS8] [IGNPAR] [] [] 1 1 1152000 else mkTermios [CLOCAL; CREAD; CS8; B1152000] [IGNPAR] [] [] 1 1 0.

Definition reset_device (fd : Z) (d : D) : Z * D :=
  let '(r, d) := sys (Flush fd) d in
  let '(r, d) := if r <? 0 then (r, d) else sys (SetAttr fd newtio) d in
  if r <? 0 then (errno d, d)
  else
    let '(_, d) := set_data_terminal_ready fd true d in
    let '(_, d) := flush fd d in
    (0, d).

Definition close (fd : Z) (d : D) : Z * D := let '(_, d) := sys (Close fd) d in (0, d).

(** The descriptor, or the error. *)
Definition make_serial_device (d : D) : (Z + Z) * D :=
  let '(fd, d) := sys Open d in
  if fd =? -1 then (inr (errno d), d)
  else
    let '(r, d) := sys (Flock fd) d in
    if negb (r =? 0) then let '(_, d) := close fd d in (inr (errno d), d)
    else let '(_, d) := reset_device fd d in (inl fd, d).

(** The error and what was written, which may be -1. *)
Definition write (fd : Z) (data : list Z) (d : D) : Z * Z * D :=
  let '(written, d) := sys (Write fd data) d in
  (if 1 <=? written then 0 else errno d, written, d).

(** The descriptor is waited for first. *)
Definition read (fd : Z) (n : nat) (timeout_ms : Z) (d : D) : Z * list Z * D :=
  let '(rv, d) := sys (Select fd (timeout_ms * 1000)) d in
  if rv =? -1 then (errno d, [], d)
  else if rv =? 0 then (timed_out, [], d)
  else
    let '(r, bytes, d) := sys_read fd n d in
    (if 1 <=? r then 0 else errno d, bytes, d).

(** The handle of a port. *)
Record port : Type := mkPort { fd : Z; os : D }.

#[export] Instance posix_device : Device port := {
  dev_write p data := let '(ec, n, d) := write (fd p) data (os p) in (failed ec, n, mkPort (fd p) d);
  dev_read p n := let '(ec, bytes, d) := read (fd p) n 100 (os p) in (failed ec, bytes, mkPort (fd p) d);
  dev_flush p := mkPort (fd p) (snd (flush (fd p) (os p)));
  dev_reset p := mkPort (fd p) (snd (reset_device (fd p) (os p)));
  dev_close p := mkPort (fd p) (snd (close (fd p) (os p)));
  dev_open p := let '(h, d) := make_serial_device (os p) in
                match h with inl fd => (false, mkPort fd d) | inr _ => (true, mkPort (fd p) d) end
}.
End Posix.
Arguments port : clear implicits.

(** *** A port that fails finitely often

    A write fails with an error number or takes some of its bytes, as write(2)
    says; an answer of a bootloader arrives; what does not happen costs a fault.
    [unbroken] says that from here on a write that succeeds takes everything. *)
Class FinitePosix (D : Type) `{!Posix D} : Type := {
  faults : D -> nat;
  unbroken : D -> Prop;
  call_law c d : (faults (snd (sys c d)) <= faults d)%nat;
  write_fault fd data d r d' : data <> [] -> sys (Write fd data) d = (r, d') ->
    (1 <= r <= Z.of_nat (List.length data) /\ (unbroken d -> r = Z.of_nat (List.length data))) \/
    (r = -1 /\ errno d' <> 0 /\ (faults d' < faults d)%nat);
  select_fault fd t d r d' : sys (Select fd t) d = (r, d') -> r <= 0 -> (faults d' < faults d)%nat;
  sys_read_law fd n d r bytes d' : sys_read fd n d = (r, bytes, d') -> (faults d' <= faults d)%nat;
  read_fault fd d r bytes d' : sys_read fd 8 d = (r, bytes, d') -> (r = 8 /\ is_ack bytes = true) \/ (faults d' < faults d)%nat;
  unbroken_call c d : unbroken d -> unbroken (snd (sys c d));
  unbroken_read fd n d : unbroken d -> unbroken (snd (sys_read fd n d))
}.

Section Finite.
Context {D : Type} `{FinitePosix D}.
Variable apple : bool.

Ltac calls :=
  repeat match goal with
  | |- context [sys ?c ?d] => let E := fresh "E" in destruct (sys c d) as [? ?] eqn:E; pose proof (call_law c d); rewrite E in *
  end.

Lemma flush_faults fd d : (faults (snd (flush apple fd d)) <= faults d)%nat.
Proof.
  unfold flush. destruct apple.
  - pose proof (call_law (Drain fd) d) as Hd. destruct (sys (Drain fd) d) as [r d1]. cbn in *.
    destruct (r =? 0); [|done]. pose proof (call_law (Flush fd) d1) as Hf. destruct (sys (Flush fd) d1) as [r2 d2]. cbn in *. lia.
  - cbn. pose proof (call_law (Flush fd) d) as Hf. by destruct (sys (Flush fd) d) as [r2 d2].
Qed.

Lemma reset_faults fd d : (faults (snd (reset_device apple fd d)) <= faults d)%nat.
Proof.
  unfold reset_device. pose proof (call_law (Flush fd) d) as Hf. destruct (sys (Flush fd) d) as [r d1]. cbn in Hf.
  assert (exists r2 d2, (if r <? 0 then (r, d1) else sys (SetAttr fd (newtio apple)) d1) = (r2, d2) /\ (faults d2 <= faults d1)%nat) as (r2 & d2 & -> & H2).
  { destruct (r <? 0); [by eexists _, _|]. pose proof (call_law (SetAttr fd (newtio apple)) d1) as Hs. destruct (sys _ d1) as [r2 d2]. by eexists _, _. }
  destruct (r2 <? 0); cbn; [lia|]. unfold set_data_terminal_ready, checked.
  pose proof (call_law (SetModemBit fd true) d2) as Hm. destruct (sys (SetModemBit fd true) d2) as [r3 d3]. cbn in Hm.
  pose proof (flush_faults fd d3) as Hl. destruct (flush apple fd d3) as [r4 d4]. cbn in *. lia.
Qed.

Lemma open_faults d : (faults (snd (make_serial_device apple d)) <= faults d)%nat.
Proof.
  unfold make_serial_device. pose proof (call_law Open d) as Ho. destruct (sys Open d) as [fd d1]. cbn in Ho.
  destruct (fd =? -1); [done|]. pose proof (call_law (Flock fd) d1) as Hl. destruct (sys (Flock fd) d1) as [r d2]. cbn in Hl.
  destruct (negb (r =? 0)).
  - unfold close. pose proof (call_law (Close fd) d2) as Hc. destruct (sys (Close fd) d2) as [r3 d3]. cbn in *. lia.
  - pose proof (reset_faults fd d2) as Hr. destruct (reset_device apple fd d2) as [r3 d3]. cbn in *. lia.
Qed.

Lemma read_faults fd n t d : (faults (snd (read fd n t d)) <= faults d)%nat.
Proof.
  unfold read. pose proof (call_law (Select fd (t * 1000)) d) as Hs. destruct (sys (Select fd (t * 1000)) d) as [rv d1]. cbn in Hs.
  destruct (rv =? -1); [done|]. destruct (rv =? 0); [done|]. destruct (sys_read fd n d1) as [[r bytes] d2] eqn:E. apply sys_read_law in E. cbn. lia.
Qed.

(** An answer that is not an acknowledgement costs a fault. *)
Lemma ack_faults p p' : @read_ack _ (posix_device apple) p = (true, p') -> (faults (os p') < faults (os p))%nat.
Proof.
  rewrite read_ack_eq. cbn [dev_read posix_device]. unfold read. pose proof (call_law (Select (fd p) (100 * 1000)) (os p)) as Hs.
  destruct (sys (Select (fd p) (100 * 1000)) (os p)) as [rv d1] eqn:E. cbn [snd] in Hs. pose proof (select_fault _ _ _ _ _ E) as Hf.
  destruct (Z.eqb_spec rv (-1)) as [->|]; [cbn; intros [= _ <-]; apply Hf; lia|].
  destruct (Z.eqb_spec rv 0) as [->|]; [cbn; intros [= <-]; apply Hf; lia|]. clear Hf.
  destruct (sys_read (fd p) 8 d1) as [[r bytes] d2] eqn:Er. destruct (read_fault _ _ _ _ _ Er) as [[-> Ha]|Hlt]; [by rewrite Ha|].
  intros [= _ <-]. cbn. lia.
Qed.

(** Every operation is made of calls. *)
Lemma unbroken_flush fd d : unbroken d -> unbroken (snd (flush apple fd d)).
Proof.
  intros Hu. unfold flush. destruct apple.
  - pose proof (unbroken_call (Drain fd) d Hu) as Hd. destruct (sys (Drain fd) d) as [r d1]. destruct (r =? 0); [|done].
    pose proof (unbroken_call (Flush fd) d1 Hd) as Hf. by destruct (sys (Flush fd) d1) as [r2 d2].
  - cbn. pose proof (unbroken_call (Flush fd) d Hu) as Hf. by destruct (sys (Flush fd) d) as [r2 d2].
Qed.

Lemma unbroken_reset fd d : unbroken d -> unbroken (snd (reset_device apple fd d)).
Proof.
  intros Hu. unfold reset_device. pose proof (unbroken_call (Flush fd) d Hu) as Hf. destruct (sys (Flush fd) d) as [r d1]. cbn in Hf.
  assert (exists r2 d2, (if r <? 0 then (r, d1) else sys (SetAttr fd (newtio apple)) d1) = (r2, d2) /\ unbroken d2) as (r2 & d2 & -> & H2).
  { destruct (r <? 0); [by eexists _, _|]. pose proof (unbroken_call (SetAttr fd (newtio apple)) d1 Hf) as Hs. destruct (sys _ d1) as [r2 d2]. by eexists _, _. }
  destruct (r2 <? 0); [done|]. unfold set_data_terminal_ready, checked.
  pose proof (unbroken_call (SetModemBit fd true) d2 H2) as Hm. destruct (sys (SetModemBit fd true) d2) as [r3 d3].
  pose proof (unbroken_flush fd d3 Hm) as Hl. by destruct (flush apple fd d3) as [r4 d4].
Qed.

Lemma unbroken_close fd d : unbroken d -> unbroken (snd (close fd d)).
Proof. intros Hu. unfold close. pose proof (unbroken_call (Close fd) d Hu) as Hc. by destruct (sys (Close fd) d). Qed.

Lemma unbroken_open d : unbroken d -> unbroken (snd (make_serial_device apple d)).
Proof.
  intros Hu. unfold make_serial_device. pose proof (unbroken_call Open d Hu) as Ho. destruct (sys Open d) as [fd d1].
  destruct (fd =? -1); [done|]. pose proof (unbroken_call (Flock fd) d1 Ho) as Hl. destruct (sys (Flock fd) d1) as [r d2]. cbn in Hl.
  destruct (negb (r =? 0)).
  - pose proof (unbroken_close fd d2 Hl) as Hc. by destruct (close fd d2) as [r3 d3].
  - pose proof (unbroken_reset fd d2 Hl) as Hr. by destruct (reset_device apple fd d2) as [r3 d3].
Qed.

#[export, program] Instance posix_finite : @FiniteFailures (port D) (posix_device apple) := { failures p := faults (os p); whole p := unbroken (os p) }.
Next Obligation.
  intros p data err n p' Hd. cbn [dev_write posix_device]. unfold write. pose proof (call_law (Write (fd p) data) (os p)) as Hc.
  destruct (sys (Write (fd p) data) (os p)) as [r d] eqn:E. apply write_fault in E; [|done]. intros [= <- <- <-]. cbn in *.
  assert (0 < List.length data)%nat by (destruct data; [done|cbn; lia]).
  destruct E as [[Hr Hw]|(-> & He & Hf)]; unfold failed.
  - rewrite (proj2 (Z.leb_le 1 _)) by lia. exact (conj Hc (conj Hr Hw)).
  - cbn. by rewrite (proj2 (Z.eqb_neq _ _) He).
Qed.
Next Obligation.
  intros p n err bytes p'. cbn [dev_read posix_device]. pose proof (read_faults (fd p) n 100 (os p)) as Hr.
  destruct (read _ _ _ _) as [[ec l] d]. by intros [= _ _ <-].
Qed.
Next Obligation. intros p p' E. by apply ack_faults. Qed.
Next Obligation. intros p. apply flush_faults. Qed.
Next Obligation. intros p. apply reset_faults. Qed.
Next Obligation. intros p. cbn. unfold close. pose proof (call_law (Close (fd p)) (os p)) as Hc. by destruct (sys _ _). Qed.
Next Obligation.
  intros p err p'. cbn [dev_open posix_device]. pose proof (open_faults (os p)) as Ho. destruct (make_serial_device apple (os p)) as [[x|x] d]; by intros [= _ <-].
Qed.
Next Obligation. intros p data Hu. cbn. unfold write. pose proof (unbroken_call (Write (fd p) data) (os p) Hu) as Hc. by destruct (sys _ _). Qed.
Next Obligation.
  intros p n Hu. cbn [dev_read posix_device]. unfold read. pose proof (unbroken_call (Select (fd p) (100 * 1000)) (os p) Hu) as Hs.
  destruct (sys (Select (fd p) (100 * 1000)) (os p)) as [rv d1]. destruct (rv =? -1); [done|]. destruct (rv =? 0); [done|].
  pose proof (unbroken_read (fd p) n d1 Hs) as Hr. by destruct (sys_read (fd p) n d1) as [[? ?] ?].
Qed.
Next Obligation. intros p. apply unbroken_flush. Qed.
Next Obligation. intros p. apply unbroken_reset. Qed.
Next Obligation. intros p. apply unbroken_close. Qed.
Next Obligation. intros p Hu. cbn. pose proof (unbroken_open (os p) Hu) as Ho. by destruct (make_serial_device apple (os p)) as [[x|x] d]. Qed.
End Finite.

(** ** Windows *)

Inductive comm_function : Type := SETDTR | CLRDTR | SETRTS | CLRRTS.
Record dcb : Type := mkDCB { fOutxCtsFlow : bool; fRtsEnable : bool; fOutxDsrFlow : bool; fDtrEnable : bool; fDsrSensitivity : bool; fBinary : bool; fParity : bool; BaudRate : Z; ByteSize : Z }.
Record comm_timeouts : Type := mkTimeouts { ReadIntervalTimeout : Z; ReadTotalTimeoutConstant : Z; ReadTotalTimeoutMultiplier : Z; WriteTotalTimeoutConstant : Z; WriteTotalTimeoutMultiplier : Z }.

Inductive win_call : Type :=
| EscapeCommFunction (h : Z) (f : comm_function)
| GetCommState (h : Z) | SetCommState (h : Z) (c : dcb)
| GetCommTimeouts (h : Z) | SetCommTimeouts (h : Z) (t : comm_timeouts)
| CreateFileA | CloseHandle (h : Z).

Definition INVALID_HANDLE_VALUE : Z := -1.

(** A failed call gives 0, [CreateFileA] gives [INVALID_HANDLE_VALUE]. *)
Class Win32 (D : Type) : Type := {
  win : win_call -> D -> Z * D;
  WriteFile : Z -> list Z -> D -> bool * Z * D;
  ReadFile : Z -> nat -> D -> bool * list Z * D;
  GetLastError : D -> Z;
  win_errno : D -> Z
}.

Module Win.
Section Win.
Context {D : Type} `{!Win32 D}.

Definition checked (c : win_call) (d : D) : Z * D := let '(r, d) := win c d in (if r =? 0 then GetLastError d else 0, d).
Definition set_data_terminal_ready (h : Z) (dtr : bool) (d : D) : Z * D := checked (EscapeCommFunction h (if dtr then SETDTR else CLRDTR)) d.
Definition set_rts (h : Z) (rts : bool) (d : D) : Z * D := checked (EscapeCommFunction h (if rts then SETRTS else CLRRTS)) d.
Definition reset_usb (h : Z) (d : D) : Z * D := (0, d).
Definition flush (h : Z) (d : D) : Z * D := (0, d).

Definition line : dcb := mkDCB false false false true false true true 1152000 8.
Definition timeouts : comm_timeouts := mkTimeouts 10 100 0 100 0.

Definition reset_device (h : Z) (d : D) : Z * D :=
  let '(r, d1) := win (GetCommState h) d in
  if r =? 0 then (GetLastError d1, d1) else
  let '(r, d2) := win (SetCommState h line) d1 in
  if r =? 0 then (GetLastError d2, d2) else
  let '(r, d3) := win (GetCommTimeouts h) d2 in
  if r =? 0 then (GetLastError d3, d3) else
  let '(r, d4) := win (SetCommTimeouts h timeouts) d3 in
  if r =? 0 then (GetLastError d4, d4) else
  let '(_, d5) := set_data_terminal_ready h true d4 in
  flush h d5.

(** Only a null handle is an error here. *)
Definition make_serial_device (d : D) : (Z + Z) * D :=
  let '(h, d) := win CreateFileA d in
  if h =? 0 then (inr (GetLastError d), d) else let '(_, d) := reset_device h d in (inl h, d).

Definition close (h : Z) (d : D) : Z * D := checked (CloseHandle h) d.

(** The error of a failed write is [errno]. *)
Definition write (h : Z) (data : list Z) (d : D) : Z * Z * D :=
  let '(r, written, d) := WriteFile h data d in (if r : bool then 0 else win_errno d, written, d).
Definition read (h : Z) (n : nat) (d : D) : Z * list Z * D :=
  let '(r, bytes, d) := ReadFile h n d in (if r : bool then 0 else GetLastError d, bytes, d).

Record port : Type := mkPort { handle : Z; os : D }.

#[export] Instance win_device : Device port := {
  dev_write p data := let '(ec, n, d) := write (handle p) data (os p) in (failed ec, n, mkPort (handle p) d);
  dev_read p n := let '(ec, bytes, d) := read (handle p) n (os p) in (failed ec, bytes, mkPort (handle p) d);
  dev_flush p := mkPort (handle p) (snd (flush (handle p) (os p)));
  dev_reset p := mkPort (handle p) (snd (reset_device (handle p) (os p)));
  dev_close p := mkPort (handle p) (snd (close (handle p) (os p)));
  dev_open p := let '(h, d) := make_serial_device (os p) in
                match h with inl h => (false, mkPort h d) | inr _ => (true, mkPort (handle p) d) end
}.

(** Observed: a port that cannot be opened is taken for an open one, with the
    handle that says so. *)
Lemma open_never_fails p d : win CreateFileA (os p) = (INVALID_HANDLE_VALUE, d) -> exists p', dev_open p = (false, p') /\ handle p' = INVALID_HANDLE_VALUE.
Proof.
  intros E. cbn [dev_open win_device]. unfold make_serial_device. rewrite E. cbn. destruct (reset_device _ d) as [r d']. by eexists.
Qed.

(** Observed: while writes fail, and no call of the C library has left an error
    number, a page is written forever, since nothing is sent and no error is
    seen. *)
Lemma lost_write_hangs p data total : (forall h bytes d, WriteFile h bytes d = (false, 0, d)) -> win_errno (os p) = 0 ->
  0 <= total -> total + 64 <= Z.of_nat (List.length data) -> forall fuel, send_chunks fuel p data total = NoFuel.
Proof.
  intros Hw He Ht Hl fuel. induction fuel as [|fuel IH]; [done|]. cbn [send_chunks].
  rewrite (proj2 (Z.ltb_lt _ _)) by lia. rewrite Z.min_r by lia. rewrite (proj2 (Z.ltb_ge _ _)) by lia.
  cbn [dev_write win_device dev_flush]. unfold write. rewrite Hw, He. cbn. replace (total + 0) with total by lia. by destruct p.
Qed.
End Win.
Arguments port : clear implicits.
End Win.

(** ** libusb

    The handle is the library with the device behind it. *)
Module Usb.
Section Usb.
Context {D : Type} `{!UsbDevice.Libusb D}.
(** The bytes of the array that nothing sets. *)
Variables (parity data_bits : Z).

Definition call (c : UsbDevice.usb_call) (d : D) : Z * D := UsbDevice.usb c d.
Definition control (request value : Z) (data : list Z) (d : D) : D := snd (call (UsbDevice.ControlTransfer request value data) d).

Definition set_data_terminal_ready (dtr : bool) (d : D) : Z * D := call (UsbDevice.ControlTransfer 0x22 (if dtr then 0x01 else 0) []) d.
Definition set_rts (rts : bool) (d : D) : Z * D := call (UsbDevice.ControlTransfer 0x22 (if rts then 0x02 else 0) []) d.
Definition reset_usb (d : D) : Z * D := call UsbDevice.ResetDevice d.
Definition flush (d : D) : Z * D := (0, d).

(** Interfaces 0 and 1 are taken from the kernel.  Only a positive error of the
    detaching counts, and libusb has none. *)
Fixpoint claim (l : list Z) (d : D) : Z * D :=
  match l with
  | [] => (0, d)
  | if_num :: l' =>
      let '(active, d) := call (UsbDevice.KernelDriverActive if_num) d in
      let '(r, d) := if active =? 0 then (0, d) else call (UsbDevice.DetachKernelDriver if_num) d in
      if (0 <? r) && negb (r =? UsbDevice.LIBUSB_ERROR_NOT_SUPPORTED) then (r, d)
      else
        let '(r, d) := call (UsbDevice.ClaimInterface if_num) d in
        if negb (r =? 0) then (r, d) else claim l' d
  end.

Fixpoint claim_data (i : Z) (interfaces : list (list UsbDevice.altsetting)) (d : D) : D :=
  match interfaces with
  | [] => d
  | alts :: l =>
      claim_data (i + 1) l
        (foldl (fun d a => if negb (UsbDevice.bInterfaceClass a =? UsbDevice.LIBUSB_CLASS_DATA) then d else snd (call (UsbDevice.ClaimInterface i) d)) d alts)
  end.

(** 115200 baud; the bytes for parity and data bits have no value. *)
Definition control_line : list Z :=
  [Z.land 115200 0xff; Z.land (Z.shiftr 115200 8) 0xff; Z.land (Z.shiftr 115200 16) 0xff; Z.land (Z.shiftr 115200 24) 0xff; 1; parity; data_bits].

Definition reset_device (d : D) : Z * D :=
  match UsbDevice.config_descriptor d with
  | inl r => (r, d)
  | inr interfaces =>
      let '(_, d) := call UsbDevice.ResetDevice d in
      let '(r, d) := claim [0; 1] d in
      if negb (r =? 0) then (r, d)
      else
        let d := claim_data 0 interfaces d in
        let d := control 0x20 0 control_line (control 0x22 1 [] (control 0x22 2 [] (control 0x22 0 [] d))) in
        let '(_, d) := call (UsbDevice.ClearHalt 0x02) d in
        let '(_, d) := call (UsbDevice.ClearHalt 0x82) d in
        (0, d)
  end.

Definition close (d : D) : Z * D := let '(_, d) := call UsbDevice.CloseHandle d in (0, d).
Definition write (data : list Z) (d : D) : Z * Z * D := UsbDevice.bulk_out data d.
Definition read (n : nat) (d : D) : Z * list Z * D := UsbDevice.bulk_in (Z.of_nat n) d.

(** The handle is open before and after the upgrade: nothing opens it. *)
Definition usb_firmware_device : Device D := {|
  dev_write d data := let '(ec, n, d) := write data d in (failed ec, n, d);
  dev_read d n := let '(ec, bytes, d) := read n d in (failed ec, bytes, d);
  dev_flush d := snd (flush d);
  dev_reset d := snd (reset_device d);
  dev_close d := snd (close d);
  dev_open d := (false, d)
|}.
End Usb.
End Usb.

(** ** The upgrade over a port of Linux *)

(** An upgrade over a port that fails finitely often ends: all pages are sent
    and acknowledged, or the port could not be opened any more and this is
    reported last, or a partial write led behind the end of a page. *)
Theorem posix_upgrade_ends {D : Type} `{FinitePosix D} apple data id no_reboot (p : port D) fuel :
  Forall (fun e => exists c, List.length (snd e) = 64 * c)%nat data -> (List.length data + faults (os p) < fuel)%nat ->
  let r := @upgrade_serial _ (posix_device apple) data fuel p id no_reboot in
  (exists s, r = Ok s /\ (reported data true s \/ (calls s = [Failed] /\ acked s = []))) \/ (r = Undef /\ ~ unbroken (os p)).
Proof.
  intros Hw Hf. cbv zeta.
  destruct (@upgrade_serial_ends _ (posix_device apple) (posix_finite apple) (unbroken (os p)) data Hw p id no_reboot fuel) as [(s & E & Hr)|E];
    [done|exact Hf| |by right].
  left. exists s. split; [exact E|]. destruct Hr as [Hr|(_ & Hr)]; [by left|by right].
Qed.

(** *** A port for the witness: each fault makes one call fail *)
Record tty : Type := mkTty { script : list bool }.

Definition fault (t : tty) : bool * tty := match script t with b :: l => (b, mkTty l) | [] => (false, t) end.

Definition tty_sys (c : syscall) (t : tty) : Z * tty :=
  match c with
  | Open => (3, t)
  | Write _ data => let '(b, t) := fault t in (if b then -1 else Z.of_nat (List.length data), t)
  | Select _ _ => let '(b, t) := fault t in (if b then 0 else 1, t)
  | _ => (0, t)
  end.

#[export] Instance tty_posix : Posix tty := {
  sys := tty_sys;
  sys_read _ n t := (Z.of_nat (Nat.min n 8), take n (u16_bytes 2 ++ u16_bytes 1 ++ u16_bytes ASEBA_MESSAGE_BOOTLOADER_ACK ++ u16_bytes 0), t);
  errno _ := 5
}.

Definition tty_faults (t : tty) : nat := List.length (List.filter (fun b => b) (script t)).

Lemma fault_law t b t' : fault t = (b, t') -> if b then (tty_faults t' < tty_faults t)%nat else (tty_faults t' <= tty_faults t)%nat.
Proof. unfold fault, tty_faults. destruct (script t) as [|[] l] eqn:E; intros [= <- <-]; cbn; rewrite ?E; cbn; lia. Qed.

#[export, program] Instance tty_finite : FinitePosix tty := { faults := tty_faults; unbroken _ := True }.
Next Obligation.
  intros c t. destruct c; cbn; try lia; destruct (fault t) as [b t'] eqn:E; apply fault_law in E; destruct b; cbn; lia.
Qed.
Next Obligation.
  intros fd data t r t' Hd. cbn. destruct (fault t) as [b t1] eqn:E. apply fault_law in E. intros [= <- <-].
  destruct b; [|left; split; [destruct data; [done|cbn; lia]|done]]. right. cbn. split; [done|]. split; [lia|done].
Qed.
Next Obligation. intros fd m t r t'. cbn. destruct (fault t) as [b t1] eqn:E. apply fault_law in E. intros [= <- <-]. destruct b; [done|lia]. Qed.
Next Obligation. by intros fd n t r bytes t' [= _ _ <-]. Qed.
Next Obligation. intros fd t r bytes t' [= <- <- <-]. left. by split. Qed.
Solve Obligations with done.

Lemma posix_upgrade_ends_witness : exists s,
  @upgrade_serial _ (posix_device false) sample_pages 9 (mkPort 0 (mkTty [false; false; false; true; false; true])) 1 false = Ok s /\ acked s = [2; 1; 0]%nat.
Proof.
  destruct (posix_upgrade_ends false sample_pages 1 false (mkPort 0 (mkTty [false; false; false; true; false; true])) 9 sample_whole) as [(s & E & _)|[_ Hno]]; [vm_compute; lia| |by destruct Hno].
  exists s. split; [exact E|]. vm_compute in E. injection E as <-. reflexivity.
Defined.

(** * An upgrade from the endpoint to the acceptors

    [upgrade_firmware] and [restore_firmware] of aseba_endpoint.cpp, and
    [upgrade_thymio2_endpoint] of thymio2_fwupgrade.cpp: the firmware is asked
    for, the acceptor is paused, a thread uploads (Upgrade.v) and reports, and
    the last report frees the device for the acceptor. *)

(** The alternatives of the device of an endpoint. *)
Inductive device : Type := Monostate | LibusbDevice | SerialPort | TcpSocket.

Record endpoint : Type := mkEndpoint { ep_device : device; ep_wireless : bool; m_upgrading_firmware : bool }.

(** [Cb] is the callback of the application. *)
Inductive effect : Type :=
| AskFirmware
| PauseUsb (on : bool) | PauseSerial (on : bool)
| ClosePort
| StartUpload (id : Z) (no_reboot : bool)
| Cb (c : callback)
| FreeEndpoint.

Definition upgrade_firmware (e : endpoint) : bool * endpoint * list effect :=
  if ep_wireless e then (false, e, [])
  else (true, mkEndpoint (ep_device e) (ep_wireless e) true, [AskFirmware]).

(** The continuation of the firmware. *)
Definition on_firmware (e : endpoint) (id : Z) (no_reboot : bool) : list effect :=
  match ep_device e with
  | Monostate => []
  | LibusbDevice => [PauseUsb false; StartUpload id no_reboot]
  | SerialPort => [PauseSerial true; ClosePort; StartUpload id no_reboot]
  | TcpSocket => []
  end.

(** A report of the upload, posted to the strand of the endpoint. *)
Definition is_end (c : callback) : bool := match c with Progress _ _ => false | Complete | Failed => true end.
Definition on_report (e : endpoint) (c : callback) : list effect :=
  Cb c ::
  (if is_end c then
     match ep_device e with
     | LibusbDevice => [FreeEndpoint; PauseUsb false]
     | SerialPort => [FreeEndpoint; PauseSerial false]
     | _ => []
     end
   else []).

(** The callback of a restore only logs. *)
Definition restore_firmware (e : endpoint) : option (bool * endpoint * list effect * (Z * bool)) :=
  match ep_device e with
  | LibusbDevice | SerialPort => Some (upgrade_firmware e, (0, true))
  | _ => None
  end.

(** [upgrade_thymio2_endpoint]: a thread that uploads. *)
Section Upload.
Context {D : Type} `{Device D}.

Definition upgrade_thymio2_endpoint (uninitialized : Z) (fuel : nat) (e : endpoint) (firmware : list Z) (h : D) (id : Z) (no_reboot : bool) : res runtime_error upload :=
  match ep_device e with
  | SerialPort => do_upgrade (fun pages h => upgrade_serial pages fuel h id no_reboot) uninitialized firmware h
  | _ => do_upgrade (fun pages h => upgrade_usb pages fuel h id no_reboot) uninitialized firmware h
  end.

(** The whole of an upgrade of a device behind a cable. *)
Definition upgrade_flow (uninitialized : Z) (fuel : nat) (e : endpoint) (firmware : list Z) (h : D) (id : Z) (no_reboot : bool) : res runtime_error (list effect) :=
  u ← upgrade_thymio2_endpoint uninitialized fuel e firmware h id no_reboot;
  Ok (on_firmware e id no_reboot ++ List.flat_map (on_report e) (calls u)).
End Upload.

(** ** What an upgrade does to the rest *)

Definition resume (e : endpoint) : effect := match ep_device e with SerialPort => PauseSerial false | _ => PauseUsb false end.
Definition cabled (e : endpoint) : bool := match ep_device e with LibusbDevice | SerialPort => true | _ => false end.

(** The reports of an upload: progress, and one end. *)
Definition reports (l : list callback) : Prop := exists ps c, l = ps ++ [c] /\ forallb (fun p => negb (is_end p)) ps = true /\ is_end c = true.

Lemma progress_no_end data n : forallb (fun p => negb (is_end p)) (progress_upto data n) = true.
Proof. unfold progress_upto. by rewrite forallb_forall; intros c (k & <- & _)%in_map_iff. Qed.

Lemma reported_reports {D} data reopen (s : upload (D:=D)) : reported data reopen s -> reports (calls s).
Proof.
  intros [[-> _]|(_ & n & _ & -> & _)]; [exists (progress_upto data (List.length data)), Complete|exists (progress_upto data n), Failed]; (split_and!; [done|apply progress_no_end|done]).
Qed.

Lemma effects_of_reports e l : cabled e = true -> reports l ->
  exists ps c, l = ps ++ [c] /\ List.flat_map (on_report e) l = List.map Cb ps ++ [Cb c; FreeEndpoint; resume e].
Proof.
  intros He (ps & c & -> & Hp & Hc). exists ps, c. split; [done|]. rewrite flat_map_app. f_equal.
  - induction ps as [|p ps IH]; [done|]. cbn in Hp. apply andb_true_iff in Hp as [H1 H2]. apply negb_true_iff in H1. cbn [List.flat_map List.map]. rewrite (IH H2). unfold on_report. by rewrite H1.
  - cbn. unfold on_report, resume. rewrite Hc. unfold cabled in He. by destruct (ep_device e).
Qed.



(** Observed: an endpoint of a robot on the network says that an upgrade has
    started, stops its queue, and never reports. *)
Lemma tcp_upgrade_is_lost busy id no_reboot :
  let e := mkEndpoint TcpSocket false busy in
  fst (fst (upgrade_firmware e)) = true /\ m_upgrading_firmware (snd (fst (upgrade_firmware e))) = true /\ on_firmware e id no_reboot = [].
Proof. done. Qed.

(** Observed: the acceptor of USB devices is not paused by an upgrade. *)
Lemma usb_not_paused e id no_reboot c : ep_device e = LibusbDevice -> PauseUsb true ∉ on_firmware e id no_reboot ++ on_report e c.
Proof. intros He. unfold on_firmware, on_report. rewrite He. destruct (is_end c); cbn [app]; repeat (apply not_elem_of_cons; split; [discriminate|]); apply not_elem_of_nil. Qed.
