(* ===== verification/MsgText.v ===== *)
(** * Comparison and text of messages

    The comparison operators of common/msg/msg.cpp, as a call with two messages
    picks them, and the dumps of messages on a stream with its format. *)
From Stdlib Require Import ZArith Lia List String.
From stdpp Require Import base list.
From S2P Require Import Prelude Consts OrdMap Bits Target Utils Buffer MsgClasses Errors Msg MsgSpec.

Local Open Scope Z_scope.

(** ** Comparison *)

(** [operator==] of vectors, strings and arrays. *)
Fixpoint vector_equal {T} (eq : T -> T -> bool) (lhs rhs : list T) : bool :=
  match lhs, rhs with
  | [], [] => true
  | x :: lhs', y :: rhs' => eq x y && vector_equal eq lhs' rhs'
  | _, _ => false
  end.

Definition NamedVariable_equal (lhs rhs : NamedVariable) : bool := (var_size lhs =? var_size rhs) && vector_equal Z.eqb (var_name lhs) (var_name rhs).
Definition LocalEvent_equal (lhs rhs : LocalEvent) : bool := vector_equal Z.eqb (event_name lhs) (event_name rhs) && vector_equal Z.eqb (event_description lhs) (event_description rhs).
Definition NativeFunctionParameter_equal (lhs rhs : NativeFunctionParameter) : bool := (param_size lhs =? param_size rhs) && vector_equal Z.eqb (param_name lhs) (param_name rhs).
Definition NativeFunction_equal (lhs rhs : NativeFunction) : bool :=
  vector_equal Z.eqb (func_name lhs) (func_name rhs) && vector_equal Z.eqb (func_description lhs) (func_description rhs) && vector_equal NativeFunctionParameter_equal (parameters lhs) (parameters rhs).

(** The members of the parent class [Message]; [base] is its result in the
    operators below. *)
Definition Message_equal (lhs rhs : Message) : bool := (source lhs =? source rhs) && (type lhs =? type rhs).
Definition CmdMessage_equal (base : bool) (lhs rhs : CmdMessage.t) : bool := base && (CmdMessage.dest lhs =? CmdMessage.dest rhs).
Definition UserMessage_equal (base : bool) (lhs rhs : UserMessage.t) : bool := base && vector_equal Z.eqb (UserMessage.data lhs) (UserMessage.data rhs).
Definition BootloaderDescription_equal (base : bool) (lhs rhs : BootloaderDescription.t) : bool := base && (BootloaderDescription.pageSize lhs =? BootloaderDescription.pageSize rhs) && (BootloaderDescription.pagesStart lhs =? BootloaderDescription.pagesStart rhs) && (BootloaderDescription.pagesCount lhs =? BootloaderDescription.pagesCount rhs).
Definition BootloaderDataRead_equal (base : bool) (lhs rhs : BootloaderDataRead.t) : bool := base && vector_equal Z.eqb (BootloaderDataRead.data lhs) (BootloaderDataRead.data rhs).
Definition BootloaderAck_equal (base : bool) (lhs rhs : BootloaderAck.t) : bool := base && (BootloaderAck.errorCode lhs =? BootloaderAck.errorCode rhs) && (BootloaderAck.errorAddress lhs =? BootloaderAck.errorAddress rhs).
Definition ListNodes_equal (base : bool) (lhs rhs : ListNodes.t) : bool := base && (ListNodes.version lhs =? ListNodes.version rhs).
Definition NodePresent_equal (base : bool) (lhs rhs : NodePresent.t) : bool := base && (NodePresent.version lhs =? NodePresent.version rhs).
Definition GetDescription_equal (base : bool) (lhs rhs : GetDescription.t) : bool := base && (GetDescription.version lhs =? GetDescription.version rhs).
Definition GetNodeDescription_equal (base : bool) (lhs rhs : GetNodeDescription.t) : bool := CmdMessage_equal base (GetNodeDescription.cmd lhs) (GetNodeDescription.cmd rhs) && (GetNodeDescription.version lhs =? GetNodeDescription.version rhs).
Definition Description_equal (base : bool) (lhs rhs : Description.t) : bool := base && vector_equal Z.eqb (target_name (Description.target lhs)) (target_name (Description.target rhs)) && (protocolVersion (Description.target lhs) =? protocolVersion (Description.target rhs)) && (bytecodeSize (Description.target lhs) =? bytecodeSize (Description.target rhs)) && (stackSize (Description.target lhs) =? stackSize (Description.target rhs)) && (variablesSize (Description.target lhs) =? variablesSize (Description.target rhs)) && vector_equal NamedVariable_equal (namedVariables (Description.target lhs)) (namedVariables (Description.target rhs)) && vector_equal LocalEvent_equal (localEvents (Description.target lhs)) (localEvents (Description.target rhs)) && vector_equal NativeFunction_equal (nativeFunctions (Description.target lhs)) (nativeFunctions (Description.target rhs)).
Definition NamedVariableDescription_equal (base : bool) (lhs rhs : NamedVariableDescription.t) : bool := base && (var_size (NamedVariableDescription.variable lhs) =? var_size (NamedVariableDescription.variable rhs)) && vector_equal Z.eqb (var_name (NamedVariableDescription.variable lhs)) (var_name (NamedVariableDescription.variable rhs)).
Definition LocalEventDescription_equal (base : bool) (lhs rhs : LocalEventDescription.t) : bool := base && vector_equal Z.eqb (event_name (LocalEventDescription.event lhs)) (event_name (LocalEventDescription.event rhs)) && vector_equal Z.eqb (event_description (LocalEventDescription.event lhs)) (event_description (LocalEventDescription.event rhs)).
Definition NativeFunctionDescription_equal (base : bool) (lhs rhs : NativeFunctionDescription.t) : bool := base && vector_equal Z.eqb (func_name (NativeFunctionDescription.function lhs)) (func_name (NativeFunctionDescription.function rhs)) && vector_equal Z.eqb (func_description (NativeFunctionDescription.function lhs)) (func_description (NativeFunctionDescription.function rhs)) && vector_equal NativeFunctionParameter_equal (parameters (NativeFunctionDescription.function lhs)) (parameters (NativeFunctionDescription.function rhs)).
Definition Disconnected_equal (base : bool) (lhs rhs : Disconnected.t) : bool := base.
Definition Variables_equal (base : bool) (lhs rhs : Variables.t) : bool := base && (Variables.start lhs =? Variables.start rhs) && vector_equal Z.eqb (Variables.variables lhs) (Variables.variables rhs).
Definition ArrayAccessOutOfBounds_equal (base : bool) (lhs rhs : ArrayAccessOutOfBounds.t) : bool := base && (ArrayAccessOutOfBounds.pc lhs =? ArrayAccessOutOfBounds.pc rhs) && (ArrayAccessOutOfBounds.size lhs =? ArrayAccessOutOfBounds.size rhs) && (ArrayAccessOutOfBounds.index lhs =? ArrayAccessOutOfBounds.index rhs).
Definition DivisionByZero_equal (base : bool) (lhs rhs : DivisionByZero.t) : bool := base && (DivisionByZero.pc lhs =? DivisionByZero.pc rhs).
Definition EventExecutionKilled_equal (base : bool) (lhs rhs : EventExecutionKilled.t) : bool := base && (EventExecutionKilled.pc lhs =? EventExecutionKilled.pc rhs).
Definition NodeSpecificError_equal (base : bool) (lhs rhs : NodeSpecificError.t) : bool := base && (NodeSpecificError.pc lhs =? NodeSpecificError.pc rhs) && vector_equal Z.eqb (NodeSpecificError.message lhs) (NodeSpecificError.message rhs).
Definition ExecutionStateChanged_equal (base : bool) (lhs rhs : ExecutionStateChanged.t) : bool := base && (ExecutionStateChanged.pc lhs =? ExecutionStateChanged.pc rhs) && (ExecutionStateChanged.flags lhs =? ExecutionStateChanged.flags rhs).
Definition BreakpointSetResult_equal (base : bool) (lhs rhs : BreakpointSetResult.t) : bool := base && (BreakpointSetResult.pc lhs =? BreakpointSetResult.pc rhs) && (BreakpointSetResult.success lhs =? BreakpointSetResult.success rhs).
Definition BootloaderReset_equal (base : bool) (lhs rhs : CmdMessage.t) : bool := CmdMessage_equal base lhs rhs.
Definition BootloaderReadPage_equal (base : bool) (lhs rhs : BootloaderReadPage.t) : bool := CmdMessage_equal base (BootloaderReadPage.cmd lhs) (BootloaderReadPage.cmd rhs) && (BootloaderReadPage.pageNumber lhs =? BootloaderReadPage.pageNumber rhs).
Definition BootloaderWritePage_equal (base : bool) (lhs rhs : BootloaderWritePage.t) : bool := CmdMessage_equal base (BootloaderWritePage.cmd lhs) (BootloaderWritePage.cmd rhs) && (BootloaderWritePage.pageNumber lhs =? BootloaderWritePage.pageNumber rhs).
Definition BootloaderPageDataWrite_equal (base : bool) (lhs rhs : BootloaderPageDataWrite.t) : bool := CmdMessage_equal base (BootloaderPageDataWrite.cmd lhs) (BootloaderPageDataWrite.cmd rhs) && vector_equal Z.eqb (BootloaderPageDataWrite.data lhs) (BootloaderPageDataWrite.data rhs).
Definition SetBytecode_equal (base : bool) (lhs rhs : SetBytecode.t) : bool := CmdMessage_equal base (SetBytecode.cmd lhs) (SetBytecode.cmd rhs) && (SetBytecode.start lhs =? SetBytecode.start rhs) && vector_equal Z.eqb (SetBytecode.bytecode lhs) (SetBytecode.bytecode rhs).
Definition Reset_equal (base : bool) (lhs rhs : CmdMessage.t) : bool := CmdMessage_equal base lhs rhs.
Definition Run_equal (base : bool) (lhs rhs : CmdMessage.t) : bool := CmdMessage_equal base lhs rhs.
Definition Pause_equal (base : bool) (lhs rhs : CmdMessage.t) : bool := CmdMessage_equal base lhs rhs.
Definition Step_equal (base : bool) (lhs rhs : CmdMessage.t) : bool := CmdMessage_equal base lhs rhs.
Definition Stop_equal (base : bool) (lhs rhs : CmdMessage.t) : bool := CmdMessage_equal base lhs rhs.
Definition GetExecutionState_equal (base : bool) (lhs rhs : CmdMessage.t) : bool := CmdMessage_equal base lhs rhs.
Definition BreakpointSet_equal (base : bool) (lhs rhs : BreakpointSet.t) : bool := CmdMessage_equal base (BreakpointSet.cmd lhs) (BreakpointSet.cmd rhs) && (BreakpointSet.pc lhs =? BreakpointSet.pc rhs).
Definition BreakpointClear_equal (base : bool) (lhs rhs : BreakpointClear.t) : bool := CmdMessage_equal base (BreakpointClear.cmd lhs) (BreakpointClear.cmd rhs) && (BreakpointClear.pc lhs =? BreakpointClear.pc rhs).
Definition BreakpointClearAll_equal (base : bool) (lhs rhs : CmdMessage.t) : bool := CmdMessage_equal base lhs rhs.
Definition GetVariables_equal (base : bool) (lhs rhs : GetVariables.t) : bool := CmdMessage_equal base (GetVariables.cmd lhs) (GetVariables.cmd rhs) && (GetVariables.start lhs =? GetVariables.start rhs) && (GetVariables.length lhs =? GetVariables.length rhs).
Definition SetVariables_equal (base : bool) (lhs rhs : SetVariables.t) : bool := CmdMessage_equal base (SetVariables.cmd lhs) (SetVariables.cmd rhs) && (SetVariables.start lhs =? SetVariables.start rhs) && vector_equal Z.eqb (SetVariables.variables lhs) (SetVariables.variables rhs).
Definition WriteBytecode_equal (base : bool) (lhs rhs : CmdMessage.t) : bool := CmdMessage_equal base lhs rhs.
Definition Reboot_equal (base : bool) (lhs rhs : CmdMessage.t) : bool := CmdMessage_equal base lhs rhs.
Definition Sleep_equal (base : bool) (lhs rhs : CmdMessage.t) : bool := CmdMessage_equal base lhs rhs.

(** The part of a command that comes from [CmdMessage]. *)
Definition as_command (b : Body) : option CmdMessage.t :=
  match b with
  | GetNodeDescription m => Some (GetNodeDescription.cmd m)
  | GetNodeDescriptionFragment m => Some (GetNodeDescriptionFragment.cmd m)
  | BootloaderReset m => Some m
  | BootloaderReadPage m => Some (BootloaderReadPage.cmd m)
  | BootloaderWritePage m => Some (BootloaderWritePage.cmd m)
  | BootloaderPageDataWrite m => Some (BootloaderPageDataWrite.cmd m)
  | SetBytecode m => Some (SetBytecode.cmd m)
  | SetDeviceInfo m => Some (SetDeviceInfo.cmd m)
  | GetDeviceInfo m => Some (GetDeviceInfo.cmd m)
  | Reset m => Some m
  | Run m => Some m
  | Pause m => Some m
  | Step m => Some m
  | Stop m => Some m
  | GetExecutionState m => Some m
  | BreakpointSet m => Some (BreakpointSet.cmd m)
  | BreakpointClear m => Some (BreakpointClear.cmd m)
  | BreakpointClearAll m => Some m
  | GetVariables m => Some (GetVariables.cmd m)
  | GetChangedVariables m => Some m
  | SetVariables m => Some (SetVariables.cmd m)
  | WriteBytecode m => Some m
  | Reboot m => Some m
  | Sleep m => Some m
  | _ => None
  end.

(** [lhs == rhs] for messages whose classes are known: the operator of the
    class, or that of the nearest common parent. *)
Definition equal (lhs rhs : Message) : bool :=
  let base := Message_equal lhs rhs in
  match body lhs, body rhs with
  | UserMessage l, UserMessage r => UserMessage_equal base l r
  | BootloaderDescription l, BootloaderDescription r => BootloaderDescription_equal base l r
  | BootloaderDataRead l, BootloaderDataRead r => BootloaderDataRead_equal base l r
  | BootloaderAck l, BootloaderAck r => BootloaderAck_equal base l r
  | ListNodes l, ListNodes r => ListNodes_equal base l r
  | NodePresent l, NodePresent r => NodePresent_equal base l r
  | GetDescription l, GetDescription r => GetDescription_equal base l r
  | GetNodeDescription l, GetNodeDescription r => GetNodeDescription_equal base l r
  | Description l, Description r => Description_equal base l r
  | NamedVariableDescription l, NamedVariableDescription r => NamedVariableDescription_equal base l r
  | LocalEventDescription l, LocalEventDescription r => LocalEventDescription_equal base l r
  | NativeFunctionDescription l, NativeFunctionDescription r => NativeFunctionDescription_equal base l r
  | Disconnected l, Disconnected r => Disconnected_equal base l r
  | Variables l, Variables r => Variables_equal base l r
  | ArrayAccessOutOfBounds l, ArrayAccessOutOfBounds r => ArrayAccessOutOfBounds_equal base l r
  | DivisionByZero l, DivisionByZero r => DivisionByZero_equal base l r
  | EventExecutionKilled l, EventExecutionKilled r => EventExecutionKilled_equal base l r
  | NodeSpecificError l, NodeSpecificError r => NodeSpecificError_equal base l r
  | ExecutionStateChanged l, ExecutionStateChanged r => ExecutionStateChanged_equal base l r
  | BreakpointSetResult l, BreakpointSetResult r => BreakpointSetResult_equal base l r
  | BootloaderReset l, BootloaderReset r => BootloaderReset_equal base l r
  | BootloaderReadPage l, BootloaderReadPage r => BootloaderReadPage_equal base l r
  | BootloaderWritePage l, BootloaderWritePage r => BootloaderWritePage_equal base l r
  | BootloaderPageDataWrite l, BootloaderPageDataWrite r => BootloaderPageDataWrite_equal base l r
  | SetBytecode l, SetBytecode r => SetBytecode_equal base l r
  | Reset l, Reset r => Reset_equal base l r
  | Run l, Run r => Run_equal base l r
  | Pause l, Pause r => Pause_equal base l r
  | Step l, Step r => Step_equal base l r
  | Stop l, Stop r => Stop_equal base l r
  | GetExecutionState l, GetExecutionState r => GetExecutionState_equal base l r
  | BreakpointSet l, BreakpointSet r => BreakpointSet_equal base l r
  | BreakpointClear l, BreakpointClear r => BreakpointClear_equal base l r
  | BreakpointClearAll l, BreakpointClearAll r => BreakpointClearAll_equal base l r
  | GetVariables l, GetVariables r => GetVariables_equal base l r
  | SetVariables l, SetVariables r => SetVariables_equal base l r
  | WriteBytecode l, WriteBytecode r => WriteBytecode_equal base l r
  | Reboot l, Reboot r => Reboot_equal base l r
  | Sleep l, Sleep r => Sleep_equal base l r
  | l, r => match as_command l, as_command r with Some cl, Some cr => CmdMessage_equal base cl cr | _, _ => base end
  end.

(** The classes with members that no operator looks at. *)
Definition compared (b : Body) : bool :=
  match b with GetNodeDescriptionFragment _ | ChangedVariables _ | SetDeviceInfo _ | GetDeviceInfo _ | DeviceInfo _ => false | _ => true end.

(** *** What the operators decide *)

Lemma vector_equal_iff {T} (eq : T -> T -> bool) : (forall x y, eq x y = true <-> x = y) -> forall l r, vector_equal eq l r = true <-> l = r.
Proof.
  intros Heq l. induction l as [|x l IH]; intros [|y r]; cbn; try (split; done || discriminate).
  rewrite andb_true_iff, Heq, IH. split; [by intros [-> ->]|by intros [= -> ->]].
Qed.

Lemma text_equal_iff (l r : list Z) : vector_equal Z.eqb l r = true <-> l = r.
Proof. apply vector_equal_iff, Z.eqb_eq. Qed.

Create Rewrite HintDb equal.
#[export] Hint Rewrite andb_true_iff Z.eqb_eq text_equal_iff : equal.

Ltac equal_tac := autorewrite with equal; repeat match goal with x : _ |- _ => destruct x; cbn end; split; [intros; destruct_and?; by subst|by intros [=]; subst].

Lemma NamedVariable_equal_iff l r : NamedVariable_equal l r = true <-> l = r.
Proof. unfold NamedVariable_equal. destruct l, r. cbn. autorewrite with equal. split; [by intros [-> ->]|by intros [= -> ->]]. Qed.

Lemma LocalEvent_equal_iff l r : LocalEvent_equal l r = true <-> l = r.
Proof. unfold LocalEvent_equal. destruct l, r. cbn. autorewrite with equal. split; [by intros [-> ->]|by intros [= -> ->]]. Qed.

Lemma NativeFunctionParameter_equal_iff l r : NativeFunctionParameter_equal l r = true <-> l = r.
Proof. unfold NativeFunctionParameter_equal. destruct l, r. cbn. autorewrite with equal. split; [by intros [-> ->]|by intros [= -> ->]]. Qed.

Lemma parameters_equal_iff l r : vector_equal NativeFunctionParameter_equal l r = true <-> l = r.
Proof. apply vector_equal_iff, NativeFunctionParameter_equal_iff. Qed.

Lemma NativeFunction_equal_iff l r : NativeFunction_equal l r = true <-> l = r.
Proof. unfold NativeFunction_equal. destruct l, r. cbn. rewrite !andb_true_iff, parameters_equal_iff, !text_equal_iff. split; [by intros [[-> ->] ->]|by intros [= -> -> ->]]. Qed.

Lemma variables_equal_iff l r : vector_equal NamedVariable_equal l r = true <-> l = r.
Proof. apply vector_equal_iff, NamedVariable_equal_iff. Qed.
Lemma events_equal_iff l r : vector_equal LocalEvent_equal l r = true <-> l = r.
Proof. apply vector_equal_iff, LocalEvent_equal_iff. Qed.
Lemma functions_equal_iff l r : vector_equal NativeFunction_equal l r = true <-> l = r.
Proof. apply vector_equal_iff, NativeFunction_equal_iff. Qed.
#[export] Hint Rewrite parameters_equal_iff variables_equal_iff events_equal_iff functions_equal_iff : equal.

(** The number of a class in the union. *)
Definition tag (b : Body) : Z :=
  match b with
  | UserMessage _ => 0
  | BootloaderDescription _ => 1
  | BootloaderDataRead _ => 2
  | BootloaderAck _ => 3
  | ListNodes _ => 4
  | NodePresent _ => 5
  | GetDescription _ => 6
  | GetNodeDescription _ => 7
  | GetNodeDescriptionFragment _ => 8
  | Description _ => 9
  | NamedVariableDescription _ => 10
  | LocalEventDescription _ => 11
  | NativeFunctionDescription _ => 12
  | Disconnected _ => 13
  | Variables _ => 14
  | ChangedVariables _ => 15
  | ArrayAccessOutOfBounds _ => 16
  | DivisionByZero _ => 17
  | EventExecutionKilled _ => 18
  | NodeSpecificError _ => 19
  | ExecutionStateChanged _ => 20
  | BreakpointSetResult _ => 21
  | BootloaderReset _ => 22
  | BootloaderReadPage _ => 23
  | BootloaderWritePage _ => 24
  | BootloaderPageDataWrite _ => 25
  | SetBytecode _ => 26
  | SetDeviceInfo _ => 27
  | GetDeviceInfo _ => 28
  | DeviceInfo _ => 29
  | Reset _ => 30
  | Run _ => 31
  | Pause _ => 32
  | Step _ => 33
  | Stop _ => 34
  | GetExecutionState _ => 35
  | BreakpointSet _ => 36
  | BreakpointClear _ => 37
  | BreakpointClearAll _ => 38
  | GetVariables _ => 39
  | GetChangedVariables _ => 40
  | SetVariables _ => 41
  | WriteBytecode _ => 42
  | Reboot _ => 43
  | Sleep _ => 44
  end.

(** The operator of a class compares all members. *)
Lemma equal_same lhs rhs : compared (body lhs) = true -> tag (body lhs) = tag (body rhs) -> equal lhs rhs = true <-> lhs = rhs.
Proof.
  destruct lhs as [s t b], rhs as [s' t' b']. cbn [body]. intros Hc Ht.
  destruct b; try discriminate Hc; destruct b'; try discriminate Ht; clear Hc Ht;
    unfold equal; cbn [body as_command];
    match goal with |- ?f _ ?l ?r = true <-> _ => unfold f end; unfold Message_equal, CmdMessage_equal; cbn [source type];
    repeat match goal with m : ?T |- _ => lazymatch T with Z => fail | list _ => fail | _ => destruct m; cbn end end; autorewrite with equal.
  all: split; [intros; destruct_and?; by subst|by intros [=]; subst].
Qed.

Lemma equal_base lhs rhs : equal lhs rhs = true -> source lhs = source rhs /\ type lhs = type rhs.
Proof.
  intros He. assert (Message_equal lhs rhs = true) as Hm; [|unfold Message_equal in Hm; by autorewrite with equal in Hm].
  revert He. unfold equal. destruct (Message_equal lhs rhs); [done|]. by destruct (body lhs), (body rhs).
Qed.

(** A message with a type of the table has the class that is registered for
    it. *)
Lemma known_tag u m : known u m -> tag (createMessage u (type m)) = tag (body m).
Proof.
  destruct m as [s t b]. unfold known. cbn [body type]. intros Hk.
  destruct b; cbn [class_type] in Hk; [unfold createMessage; by rewrite Hk|..].
  all: destruct Hk as [-> Hk]; try (exfalso; apply Hk; reflexivity); reflexivity.
Qed.

(** The operators decide equality of the messages of a network, whatever their
    classes, if the left one has a class whose members are all compared. *)
Theorem equal_decides u lhs rhs : known u lhs -> known u rhs -> compared (body lhs) = true -> (equal lhs rhs = true <-> lhs = rhs).
Proof.
  intros Hl Hr Hc. split; intros He.
  - apply equal_same; [done| |done]. apply equal_base in He as [_ Ht]. by rewrite <- (known_tag u lhs Hl), Ht, known_tag.
  - subst rhs. by apply equal_same.
Qed.

Lemma equal_decides_witness :
  let m := mkMessage 1 ASEBA_MESSAGE_VARIABLES (Variables (Variables.mk 0 [1; 2])) in
  let m' := mkMessage 1 ASEBA_MESSAGE_VARIABLES (Variables (Variables.mk 0 [1; 3])) in
  equal m m' = false /\ equal m m = true.
Proof.
  intros m m'. assert (known 0 m) as Hm by (split; [reflexivity|vm_compute; discriminate]). assert (known 0 m') as Hm' by (split; [reflexivity|vm_compute; discriminate]).
  split; [|by apply (equal_decides 0 m m Hm Hm eq_refl)]. apply not_true_iff_false. rewrite (equal_decides 0 m m' Hm Hm' eq_refl). discriminate.
Defined.

(** Observed: messages with other members are equal. *)
Example different_but_equal :
  equal (mkMessage 1 ASEBA_MESSAGE_CHANGED_VARIABLES (ChangedVariables (ChangedVariables.mk []))) (mkMessage 1 ASEBA_MESSAGE_CHANGED_VARIABLES (ChangedVariables (ChangedVariables.mk [ChangedVariables.mkArea 0 [7]]))) = true /\
  equal (mkMessage 1 ASEBA_MESSAGE_DEVICE_INFO (DeviceInfo (DeviceInfo.mk 1 [5]))) (mkMessage 1 ASEBA_MESSAGE_DEVICE_INFO (DeviceInfo (DeviceInfo.mk 2 []))) = true.
Proof. by vm_compute. Qed.

(** ** Text *)

(** What goes to a stream with [<<]. *)
Inductive item : Type :=
| T (s : wstring) | N (z : Z)
| Hex | Dec | Showbase | Noshowbase | Setw (n : nat) | Setfill (c : Z).

(** The flags of a stream: the width holds for one item. *)
Record format : Type := mkFormat { hex : bool; showbase : bool; width : nat; fill : Z }.
Definition plain_format : format := mkFormat false false 0 32.

Definition pad (f : format) (s : wstring) : wstring := replicate (width f - List.length s) (fill f) ++ s.
Definition show (f : format) (z : Z) : wstring :=
  if hex f then (if showbase f && negb (z =? 0) then ws "0x" else []) ++ hex_str z else dec_str z.

Definition set_format (f : format) (i : item) : format :=
  match i with
  | T _ | N _ => mkFormat (hex f) (showbase f) 0 (fill f)
  | Hex => mkFormat true (showbase f) (width f) (fill f)
  | Dec => mkFormat false (showbase f) (width f) (fill f)
  | Showbase => mkFormat (hex f) true (width f) (fill f)
  | Noshowbase => mkFormat (hex f) false (width f) (fill f)
  | Setw n => mkFormat (hex f) (showbase f) n (fill f)
  | Setfill c => mkFormat (hex f) (showbase f) (width f) c
  end.
Definition text_of (f : format) (i : item) : wstring :=
  match i with T s => pad f s | N z => pad f (show f z) | _ => [] end.

Fixpoint print (f : format) (l : list item) : wstring * format :=
  match l with
  | [] => ([], f)
  | i :: l' => let (s, f') := print (set_format f i) l' in (text_of f i ++ s, f')
  end.

Definition size {T} (l : list T) : Z := Z.of_nat (List.length l).
Definition newline : wstring := [10].

(** *** [dumpSpecific] *)

Definition CmdMessage_dump (m : CmdMessage.t) : list item := [T (ws "dest "); N (CmdMessage.dest m); T (ws " ")].

Fixpoint parameters_dump (l : list NativeFunctionParameter) : list item :=
  match l with
  | [] => []
  | p :: l' => [T (param_name p); T (ws "<"); N (param_size p); T (ws ">")] ++ (match l' with [] => [] | _ => [T (ws ", ")] end) ++ parameters_dump l'
  end.

Definition UserMessage_dump (m : UserMessage.t) : list item :=
  [Dec; T (ws "user message of size "); N (size (UserMessage.data m)); T (ws " : ")] ++ List.flat_map (fun word => [Setw 4; N word; T (ws " ")]) (UserMessage.data m) ++ [Dec; Setfill 32].
Definition BootloaderDescription_dump (m : BootloaderDescription.t) : list item :=
  [N (BootloaderDescription.pagesCount m); T (ws " pages of size "); N (BootloaderDescription.pageSize m); T (ws " starting at page "); N (BootloaderDescription.pagesStart m)].
Definition BootloaderDataRead_dump (m : BootloaderDataRead.t) : list item :=
  [Hex; Setfill 48] ++ List.flat_map (fun word => [Setw 2; N word; T (ws " ")]) (BootloaderDataRead.data m) ++ [Dec; Setfill 32].
Definition BootloaderAck_dump (m : BootloaderAck.t) : list item :=
  (let c := BootloaderAck.errorCode m in
   if c =? BootloaderAck.SUCCESS then [T (ws "success")]
   else if c =? BootloaderAck.INVALID_FRAME_SIZE then [T (ws "error, invalid frame size")]
   else if c =? BootloaderAck.PROGRAMMING_FAILED then [T (ws "error, programming failed at low address "); Hex; Showbase; N (BootloaderAck.errorAddress m)]
   else if c =? BootloaderAck.NOT_PROGRAMMING then [T (ws "error, not programming")]
   else [T (ws "unknown error")]) ++ [Dec; Noshowbase].
Definition ListNodes_dump (m : ListNodes.t) : list item :=
  [T (ws "protocol version "); N (ListNodes.version m)].
Definition NodePresent_dump (m : NodePresent.t) : list item :=
  [T (ws "protocol version "); N (NodePresent.version m)].
Definition GetDescription_dump (m : GetDescription.t) : list item :=
  [T (ws "protocol version "); N (GetDescription.version m)].
Definition GetNodeDescription_dump (m : GetNodeDescription.t) : list item :=
  CmdMessage_dump (GetNodeDescription.cmd m) ++ [T (ws "protocol version "); N (GetNodeDescription.version m)].
Definition GetNodeDescriptionFragment_dump (m : GetNodeDescriptionFragment.t) : list item :=
  CmdMessage_dump (GetNodeDescriptionFragment.cmd m) ++ [T (ws "protocol version "); N (GetNodeDescriptionFragment.version m)].
Definition Description_dump (m : Description.t) : list item :=
  let d := Description.target m in
  [T (ws "Node "); T (target_name d); T (ws " using protocol version "); N (protocolVersion d); T newline;
   T (ws "bytecode: "); N (bytecodeSize d); T (ws ", stack: "); N (stackSize d); T (ws ", variables: "); N (variablesSize d);
   T (newline ++ ws "named variables: "); N (size (namedVariables d)); T newline;
   T (newline ++ ws "local events: "); N (size (localEvents d)); T newline;
   T (ws "native functions: "); N (size (nativeFunctions d))].
Definition NamedVariableDescription_dump (m : NamedVariableDescription.t) : list item :=
  let v := NamedVariableDescription.variable m in [T (var_name v); T (ws " of size "); N (var_size v)].
Definition LocalEventDescription_dump (m : LocalEventDescription.t) : list item :=
  let e := LocalEventDescription.event m in [T (event_name e); T (ws " : "); T (event_description e)].
Definition NativeFunctionDescription_dump (m : NativeFunctionDescription.t) : list item :=
  let f := NativeFunctionDescription.function m in
  [T (func_name f); T (ws " (")] ++ parameters_dump (parameters f) ++ [T (ws ") : "); T (func_description f)].
Definition Variables_dump (m : Variables.t) : list item :=
  [T (ws "start "); N (Variables.start m); T (ws ", variables vector of size "); N (size (Variables.variables m))].
Definition ChangedVariables_dump (m : ChangedVariables.t) : list item :=
  List.flat_map (fun v =>
    [N (ChangedVariables.area_start v); T (ws " : [ ")] ++ List.flat_map (fun x => [N x; T (ws ", ")]) (ChangedVariables.area_variables v) ++ [T (ws " ]")])
    (ChangedVariables.variables m).
Definition ArrayAccessOutOfBounds_dump (m : ArrayAccessOutOfBounds.t) : list item :=
  [T (ws "pc "); N (ArrayAccessOutOfBounds.pc m); T (ws ", size "); N (ArrayAccessOutOfBounds.size m); T (ws ", index "); N (ArrayAccessOutOfBounds.index m)].
Definition DivisionByZero_dump (m : DivisionByZero.t) : list item :=
  [T (ws "pc "); N (DivisionByZero.pc m)].
Definition EventExecutionKilled_dump (m : EventExecutionKilled.t) : list item :=
  [T (ws "pc "); N (EventExecutionKilled.pc m)].
Definition NodeSpecificError_dump (m : NodeSpecificError.t) : list item :=
  [T (ws "pc "); N (NodeSpecificError.pc m); T (ws " "); T (NodeSpecificError.message m)].
Definition ExecutionStateChanged_dump (m : ExecutionStateChanged.t) : list item :=
  [T (ws "pc "); N (ExecutionStateChanged.pc m); T (ws ", flags "); Hex; Showbase; Setw 4; N (ExecutionStateChanged.flags m); Dec; Noshowbase].
Definition BreakpointSetResult_dump (m : BreakpointSetResult.t) : list item :=
  [T (ws "pc "); N (BreakpointSetResult.pc m); T (ws ", success "); N (BreakpointSetResult.success m)].
Definition BootloaderReadPage_dump (m : BootloaderReadPage.t) : list item :=
  CmdMessage_dump (BootloaderReadPage.cmd m) ++ [T (ws "page "); N (BootloaderReadPage.pageNumber m)].
Definition BootloaderWritePage_dump (m : BootloaderWritePage.t) : list item :=
  CmdMessage_dump (BootloaderWritePage.cmd m) ++ [T (ws "page "); N (BootloaderWritePage.pageNumber m)].
Definition BootloaderPageDataWrite_dump (m : BootloaderPageDataWrite.t) : list item :=
  CmdMessage_dump (BootloaderPageDataWrite.cmd m) ++ [Hex; Setfill 48] ++ List.flat_map (fun word => [Setw 2; N word; T (ws " ")]) (BootloaderPageDataWrite.data m) ++ [Dec; Setfill 32].
Definition SetBytecode_dump (m : SetBytecode.t) : list item :=
  CmdMessage_dump (SetBytecode.cmd m) ++ [N (size (SetBytecode.bytecode m)); T (ws " words of bytecode of starting at "); N (SetBytecode.start m)].
Definition SetDeviceInfo_dump (m : SetDeviceInfo.t) : list item :=
  CmdMessage_dump (SetDeviceInfo.cmd m) ++ [T (ws "info type: "); N (SetDeviceInfo.info m); T (ws ", size: "); N (size (SetDeviceInfo.data m))].
Definition GetDeviceInfo_dump (m : GetDeviceInfo.t) : list item :=
  CmdMessage_dump (GetDeviceInfo.cmd m) ++ [T (ws "info type: "); N (GetDeviceInfo.info m)].
Definition DeviceInfo_dump (m : DeviceInfo.t) : list item :=
  [T (ws "info type: "); N (DeviceInfo.info m); T (ws ", size: "); N (size (DeviceInfo.data m))].
Definition BreakpointSet_dump (m : BreakpointSet.t) : list item :=
  CmdMessage_dump (BreakpointSet.cmd m) ++ [T (ws "pc "); N (BreakpointSet.pc m)].
Definition BreakpointClear_dump (m : BreakpointClear.t) : list item :=
  CmdMessage_dump (BreakpointClear.cmd m) ++ [T (ws "pc "); N (BreakpointClear.pc m)].
Definition GetVariables_dump (m : GetVariables.t) : list item :=
  CmdMessage_dump (GetVariables.cmd m) ++ [T (ws "start "); N (GetVariables.start m); T (ws ", length "); N (GetVariables.length m)].
Definition SetVariables_dump (m : SetVariables.t) : list item :=
  CmdMessage_dump (SetVariables.cmd m) ++ [T (ws "start "); N (SetVariables.start m); T (ws ", variables vector of size "); N (size (SetVariables.variables m))].

Definition dumpSpecific (b : Body) : list item :=
  match b with
  | UserMessage m => UserMessage_dump m
  | BootloaderDescription m => BootloaderDescription_dump m
  | BootloaderDataRead m => BootloaderDataRead_dump m
  | BootloaderAck m => BootloaderAck_dump m
  | ListNodes m => ListNodes_dump m
  | NodePresent m => NodePresent_dump m
  | GetDescription m => GetDescription_dump m
  | GetNodeDescription m => GetNodeDescription_dump m
  | GetNodeDescriptionFragment m => GetNodeDescriptionFragment_dump m
  | Description m => Description_dump m
  | NamedVariableDescription m => NamedVariableDescription_dump m
  | LocalEventDescription m => LocalEventDescription_dump m
  | NativeFunctionDescription m => NativeFunctionDescription_dump m
  | Disconnected m => []
  | Variables m => Variables_dump m
  | ChangedVariables m => ChangedVariables_dump m
  | ArrayAccessOutOfBounds m => ArrayAccessOutOfBounds_dump m
  | DivisionByZero m => DivisionByZero_dump m
  | EventExecutionKilled m => EventExecutionKilled_dump m
  | NodeSpecificError m => NodeSpecificError_dump m
  | ExecutionStateChanged m => ExecutionStateChanged_dump m
  | BreakpointSetResult m => BreakpointSetResult_dump m
  | BootloaderReset m => CmdMessage_dump m
  | BootloaderReadPage m => BootloaderReadPage_dump m
  | BootloaderWritePage m => BootloaderWritePage_dump m
  | BootloaderPageDataWrite m => BootloaderPageDataWrite_dump m
  | SetBytecode m => SetBytecode_dump m
  | SetDeviceInfo m => SetDeviceInfo_dump m
  | GetDeviceInfo m => GetDeviceInfo_dump m
  | DeviceInfo m => DeviceInfo_dump m
  | Reset m => CmdMessage_dump m
  | Run m => CmdMessage_dump m
  | Pause m => CmdMessage_dump m
  | Step m => CmdMessage_dump m
  | Stop m => CmdMessage_dump m
  | GetExecutionState m => CmdMessage_dump m
  | BreakpointSet m => BreakpointSet_dump m
  | BreakpointClear m => BreakpointClear_dump m
  | BreakpointClearAll m => CmdMessage_dump m
  | GetVariables m => GetVariables_dump m
  | GetChangedVariables m => CmdMessage_dump m
  | SetVariables m => SetVariables_dump m
  | WriteBytecode m => CmdMessage_dump m
  | Reboot m => CmdMessage_dump m
  | Sleep m => CmdMessage_dump m
  end.

(** [operator const char*]. *)
Definition name (b : Body) : wstring :=
  match b with
  | UserMessage _ => ws "user message"
  | BootloaderDescription _ => ws "bootloader description"
  | BootloaderDataRead _ => ws "bootloader page data read"
  | BootloaderAck _ => ws "bootloader ack"
  | ListNodes _ => ws "list nodes"
  | NodePresent _ => ws "node present"
  | GetDescription _ => ws "presence"
  | GetNodeDescription _ => ws "get node description"
  | GetNodeDescriptionFragment _ => ws "get node description fragment"
  | Description _ => ws "description"
  | NamedVariableDescription _ => ws "named variable"
  | LocalEventDescription _ => ws "local event"
  | NativeFunctionDescription _ => ws "native function description"
  | Disconnected _ => ws "disconnected"
  | Variables _ => ws "variables"
  | ChangedVariables _ => ws "changed variables"
  | ArrayAccessOutOfBounds _ => ws "array access out of bounds"
  | DivisionByZero _ => ws "division by zero"
  | EventExecutionKilled _ => ws "event execution killed"
  | NodeSpecificError _ => ws "node specific error"
  | ExecutionStateChanged _ => ws "execution state"
  | BreakpointSetResult _ => ws "breakpoint set result"
  | BootloaderReset _ => ws "bootloader reset"
  | BootloaderReadPage _ => ws "bootloader read page"
  | BootloaderWritePage _ => ws "bootloader write page"
  | BootloaderPageDataWrite _ => ws "bootloader page data write"
  | SetBytecode _ => ws "set bytecode"
  | SetDeviceInfo _ => ws "SetDeviceInfo"
  | GetDeviceInfo _ => ws "GetDeviceInfo"
  | DeviceInfo _ => ws "DeviceInfo"
  | Reset _ => ws "reset"
  | Run _ => ws "run"
  | Pause _ => ws "pause"
  | Step _ => ws "step"
  | Stop _ => ws "stop"
  | GetExecutionState _ => ws "get execution state"
  | BreakpointSet _ => ws "breakpoint set"
  | BreakpointClear _ => ws "breakpoint clear"
  | BreakpointClearAll _ => ws "breakpoint clear all"
  | GetVariables _ => ws "get variables"
  | GetChangedVariables _ => ws "get changed variables"
  | SetVariables _ => ws "set variables"
  | WriteBytecode _ => ws "save bytecode"
  | Reboot _ => ws "reboot"
  | Sleep _ => ws "sleep"
  end.

Definition dump (m : Message) : list item :=
  [Hex; Setw 4; Setfill 48; N (type m); T (ws " "); Dec; Setfill 32; T (name (body m)); T (ws " from "); N (source m); T (ws " : ")] ++ dumpSpecific (body m).

(** [SerializationBuffer::dump]: the bytes are numbers for a stream of wide
    characters, too. *)
Definition buffer_dump (rawData : list Z) : list item :=
  List.flat_map (fun word => [N word; T (ws " ("); N word; T (ws "), ")]) rawData ++ [T newline].

Definition dumpKnownMessagesTypes (types : list Z) : list item :=
  [Hex; Showbase] ++ List.flat_map (fun t => [T (ws "	"); Setw 4; N t; T newline]) types ++ [Dec; Noshowbase].

Example dump_ex :
  fst (print plain_format (dump (mkMessage 3 ASEBA_MESSAGE_EXECUTION_STATE_CHANGED (ExecutionStateChanged (ExecutionStateChanged.mk 17 2))))) = ws "900a execution state from 3 : pc 17, flags  0x2" /\
  fst (print plain_format (dump (mkMessage 3 ASEBA_MESSAGE_GET_DESCRIPTION (GetDescription (GetDescription.mk 9))))) = ws "a000 presence from 3 : protocol version 9".
Proof. by vm_compute. Qed.

(** *** The format of the stream *)

Definition formats (l : list item) (f : format) : format := fold_left set_format l f.

Lemma print_format l f : snd (print f l) = formats l f.
Proof. revert f. induction l as [|i l IH]; intros f; [done|]. cbn. specialize (IH (set_format f i)). by destruct (print _ l). Qed.

Lemma formats_app l l' f : formats (l ++ l') f = formats l' (formats l f).
Proof. apply fold_left_app. Qed.

(** Items that leave a format alone. *)
Definition neutral (l : list item) : Prop := forall f, width f = O -> formats l f = f.

Lemma neutral_app l l' : neutral l -> neutral l' -> neutral (l ++ l').
Proof. intros H H' f Hf. rewrite formats_app, H by done. by apply H'. Qed.

Lemma neutral_flat_map {A} (g : A -> list item) l : (forall x, neutral (g x)) -> neutral (List.flat_map g l).
Proof. intros Hg. induction l; cbn; [by intros f|]. by apply neutral_app. Qed.

Ltac neutral_tac := let f := fresh in intros f ?; destruct f; cbn in *; by subst.

Lemma neutral_word w z : neutral [Setw w; N z; T (ws " ")].
Proof. neutral_tac. Qed.

Lemma neutral_command m : neutral (CmdMessage_dump m).
Proof. neutral_tac. Qed.

Lemma neutral_parameters l : neutral (parameters_dump l).
Proof. induction l as [|p l IH]; [by intros f|]. cbn [parameters_dump]. apply neutral_app; [neutral_tac|]. apply neutral_app; [|done]. destruct l; neutral_tac. Qed.

Lemma formats_neutral l f : neutral l -> width f = O -> formats l f = f.
Proof. auto. Qed.

Lemma words_format w ds : formats ([Hex; Setfill 48] ++ List.flat_map (fun word => [Setw w; N word; T (ws " ")]) ds ++ [Dec; Setfill 32]) plain_format = plain_format.
Proof. rewrite !formats_app, (formats_neutral (List.flat_map _ _)); [done| |done]. apply neutral_flat_map. intros x. apply neutral_word. Qed.

Lemma dumpSpecific_format b : formats (dumpSpecific b) plain_format = plain_format.
Proof.
  destruct b; try reflexivity; cbn [dumpSpecific].
  - unfold UserMessage_dump. rewrite !formats_app, (formats_neutral (List.flat_map _ _)); [done| |done]. apply neutral_flat_map. intros x. apply neutral_word.
  - apply words_format.
  - unfold BootloaderAck_dump. rewrite formats_app. by repeat case_match.
  - unfold NativeFunctionDescription_dump. rewrite !formats_app, (formats_neutral (parameters_dump _)); [done|apply neutral_parameters|done].
  - unfold ChangedVariables_dump. apply formats_neutral; [|done]. apply neutral_flat_map. intros v. apply neutral_app; [neutral_tac|]. apply neutral_app; [|neutral_tac].
    apply neutral_flat_map. intros x. neutral_tac.
  - unfold BootloaderPageDataWrite_dump. rewrite formats_app, (formats_neutral (CmdMessage_dump _)); [|apply neutral_command|done]. apply words_format.
Qed.

(** A dump gives the stream back with decimal numbers, without prefix, padding
    or width, whatever the message. *)
Theorem dump_format m f : hex f = false -> showbase f = false -> snd (print f (dump m)) = plain_format.
Proof.
  intros Hh Hs. rewrite print_format. unfold dump. rewrite formats_app.
  replace (formats _ f) with plain_format by (destruct f; cbn in *; by subst). apply dumpSpecific_format.
Qed.

Lemma dump_format_witness : snd (print plain_format (dump (mkMessage 3 ASEBA_MESSAGE_BOOTLOADER_ACK (BootloaderAck (BootloaderAck.mk 2 4096))))) = plain_format.
Proof. apply (dump_format (mkMessage 3 ASEBA_MESSAGE_BOOTLOADER_ACK (BootloaderAck (BootloaderAck.mk 2 4096)) ) plain_format); reflexivity. Defined.
