(* ===== verification/Dumps.v ===== *)
(** * The text of a syntax tree

    compiler/tree-dump.cpp: the names of operators, the line of a node, and the
    dump of a tree, one line per node.  A text is made by positional
    substitution, which asserts that the placeholder exists. *)
From Stdlib Require Import ZArith Lia List String.
From Stdlib Require SpecFloat.
From stdpp Require Import base list list_monad strings.
From S2P Require Import Prelude Errors Consts OrdMap Target Lexer Lookup Disasm Tree Parser Emit CodeSpec.
From S2P Require Import Link LinkSpec.

Local Open Scope Z_scope.

Definition binaryOperatorToString (op : AsebaBinaryOperator) : wstring :=
  match op with
  | ASEBA_OP_SHIFT_LEFT => ws "<<"
  | ASEBA_OP_SHIFT_RIGHT => ws ">>"
  | ASEBA_OP_ADD => ws "+"
  | ASEBA_OP_SUB => ws "-"
  | ASEBA_OP_MULT => ws "*"
  | ASEBA_OP_DIV => ws "/"
  | ASEBA_OP_MOD => ws "modulo"
  | ASEBA_OP_BIT_OR => ws "binary or"
  | ASEBA_OP_BIT_XOR => ws "binary xor"
  | ASEBA_OP_BIT_AND => ws "binary and"
  | ASEBA_OP_EQUAL => ws "=="
  | ASEBA_OP_NOT_EQUAL => ws "!="
  | ASEBA_OP_BIGGER_THAN => ws ">"
  | ASEBA_OP_BIGGER_EQUAL_THAN => ws ">="
  | ASEBA_OP_SMALLER_THAN => ws "<"
  | ASEBA_OP_SMALLER_EQUAL_THAN => ws "<="
  | ASEBA_OP_OR => ws "or"
  | ASEBA_OP_AND => ws "and"
  end.

Definition unaryOperatorToString (op : AsebaUnaryOperator) : wstring :=
  match op with
  | ASEBA_UNARY_OP_SUB => ws "unary -"
  | ASEBA_UNARY_OP_ABS => ws "abs"
  | ASEBA_UNARY_OP_BIT_NOT => ws "binary not"
  | ASEBA_UNARY_OP_NOT => ws "not"
  end.

(** [WFormatableString(s).arg(a0).arg(a1)...]. *)
Definition format (s : wstring) (args : list wstring) : res error wstring :=
  f ← foldl (fun r a => f ← r; proceedReplace f a) (Ok (mkFS s 0)) args; Ok (fs_text f).

Definition array_text (s : wstring) (addr size : Z) (name : wstring) : res error wstring := format s [dec_str addr; dec_str size; name].

Fixpoint template_text (i : Z) (templateArgs : list Z) (s : wstring) : res error wstring :=
  match templateArgs with
  | [] => Ok s
  | a :: l => t ← format (ws ", template %0 has size %1") [dec_str i; dec_str a]; template_text (i + 1) l (s ++ t)
  end.

(** [size] is what [getVectorSize] of the node gives. *)
Definition kind_text (k : kind) (size : res error Z) : res error wstring :=
  match k with
  | BlockNode => Ok (ws "Block")
  | ProgramNode => Ok (ws "ProgramBlock")
  | AssignmentNode => Ok (ws "Assign")
  | IfWhenNode edgeSensitive _ => Ok (if edgeSensitive then ws "When: " else ws "If: ")
  | FoldedIfWhenNode op edgeSensitive _ => Ok ((if edgeSensitive then ws "Folded When: " else ws "Folded If: ") ++ binaryOperatorToString op)
  | WhileNode => Ok (ws "While: ")
  | FoldedWhileNode op => Ok (ws "Folded While: " ++ binaryOperatorToString op)
  | EventDeclNode eventId => if eventId =? ASEBA_EVENT_INIT then Ok (ws "ContextSwitcher: to init") else format (ws "ContextSwitcher: to event %0") [dec_str eventId]
  | EmitNode eventId arrayAddr arraySize =>
      s ← format (ws "Emit: %0 ") [dec_str eventId];
      if negb (arraySize =? 0) then t ← format (ws "addr %0 size %1 ") [dec_str arrayAddr; dec_str arraySize]; Ok (s ++ t) else Ok s
  | SubDeclNode subroutineId => format (ws "Sub: %0") [dec_str subroutineId]
  | CallSubNode subroutineName _ => Ok (ws "CallSub: " ++ subroutineName)
  | BinaryArithmeticNode op => Ok (ws "BinaryArithmetic: " ++ binaryOperatorToString op)
  | UnaryArithmeticNode op => Ok (ws "UnaryArithmetic: " ++ unaryOperatorToString op)
  | ImmediateNode value => format (ws "Immediate: %0") [dec_str value]
  | StoreNode varAddr => format (ws "Store: addr %0") [dec_str varAddr]
  | LoadNode varAddr => format (ws "Load: addr %0") [dec_str varAddr]
  | ArrayWriteNode addr size name => array_text (ws "ArrayWrite: addr %0 size %1 (var %2)") addr size name
  | ArrayReadNode addr size name => array_text (ws "ArrayRead: addr %0 size %1 (var %2)") addr size name
  | LoadNativeArgNode tempAddr addr size name => format (ws "LoadNativeArgNode: addr %0 size %1 (var %2) using temp %3") [dec_str addr; dec_str size; name; dec_str tempAddr]
  | CallNode funcId templateArgs => s ← format (ws "Call: id %0") [dec_str funcId]; template_text 0 templateArgs s
  | ReturnNode => Ok (ws "Return")
  | TupleVectorNode => s ← size; format (ws "Tuple Vector: size %0") [dec_str s]
  | MemoryVectorNode addr size name _ => array_text (ws "Memory Vector Access: addr %0 size %1 (var %2)") addr size name
  | ArithmeticAssignmentNode op => Ok (ws "BinaryArithmeticAssign: " ++ binaryOperatorToString op)
  | UnaryArithmeticAssignmentNode op =>
      Ok (ws "UnaryArithmeticAssign: " ++ (if decide (op = ASEBA_OP_ADD) then ws "++" else if decide (op = ASEBA_OP_SUB) then ws "--" else ws "unknown"))
  end.

Definition toWString (n : node) : res error wstring := kind_text (node_kind n) (getVectorSize n).

Definition newline : wstring := [10].
Definition line (pos : SourcePos) (indent : nat) (s : wstring) : wstring :=
  SourcePos_toWString pos ++ ws " " ++ concat (replicate indent (ws "    ")) ++ s.

(** The children of a node, the same behind their numbers. *)
Fixpoint dump_children (d : node -> res error wstring) (l : list node) : res error wstring :=
  match l with [] => Ok [] | c :: l' => s ← d c; t ← dump_children d l'; Ok (s ++ t) end.
Fixpoint dump_numbered (d : node -> res error wstring) (pos : SourcePos) (indent : nat) (i : Z) (l : list node) : res error wstring :=
  match l with
  | [] => Ok []
  | c :: l' =>
      n ← format (ws "[%0]:" ++ newline) [dec_str i];
      s ← d c; t ← dump_numbered d pos indent (i + 1) l'; Ok (line pos indent n ++ s ++ t)
  end.

Fixpoint dump (n : node) (indent : nat) : res error wstring :=
  let 'Node k pos cs := n in
  s ← kind_text k (getVectorSize n);
  t ← match k with
      | TupleVectorNode => dump_numbered (fun c => dump c (S (S indent))) pos (S indent) 0 cs
      | _ => dump_children (fun c => dump c (S indent)) cs
      end;
  Ok (line pos indent (s ++ newline) ++ t).

Definition place (r c : Z) : SourcePos := mkPos 0 r c true.

Example tree_dump_ex :
  dump (Node AssignmentNode (place 0 4) [Node (StoreNode 3) (place 0 0) []; Node (ImmediateNode (-7)) (place 0 4) []]) 0 =
  Ok (ws "   1:4    Assign" ++ newline ++ ws "   1:0        Store: addr 3" ++ newline ++ ws "   1:4        Immediate: -7" ++ newline).
Proof. by vm_compute. Qed.

(** ** Every tree has a text *)

Definition clean (s : wstring) : Prop := count_percent s = O.

Lemma dec_str_clean z : clean (dec_str z).
Proof.
  assert (forall d, clean (ws (DecimalString.NilEmpty.string_of_uint d))) as Hu by (induction d; [done|..]; exact IHd).
  assert (forall d, clean (ws (DecimalString.NilZero.string_of_uint d))) as Hz by (intros d; unfold DecimalString.NilZero.string_of_uint; by destruct d).
  unfold dec_str. destruct (Z.to_int z); cbn; apply Hz.
Qed.

(** A text with the placeholders from 0 to [n]-1, and no other sign. *)
Definition template (n : nat) (s : wstring) : bool :=
  Nat.eqb (count_percent s) n && forallb (fun k => match find_sub (placeholder (Z.of_nat k)) s with Some _ => true | None => false end) (seq 0 n).

Lemma format_ok s args : (List.length args <= 10)%nat -> template (List.length args) s = true -> Forall clean args -> exists t, format s args = Ok t.
Proof.
  intros Hn [Hc%Nat.eqb_eq Ht]%andb_true_iff Ha. unfold format.
  destruct (proceedReplace_all (E:=error) (List.length args) args (mkFS s 0)) as (f & -> & _); [lia| |cbn; lia|done|by eexists].
  split; [cbn; lia|]. split; cbn [fs_text argLevel]; [|lia]. intros k Hk. rewrite forallb_forall in Ht. specialize (Ht (Z.to_nat k)).
  rewrite Z2Nat.id in Ht by lia. destruct (find_sub _ s) as [i|] eqn:E.
  - apply find_sub_spec in E as (a & b & -> & _). by exists a, b.
  - discriminate Ht. apply in_seq. lia.
Qed.

Definition names_clean (k : kind) : Prop :=
  match k with
  | ArrayWriteNode _ _ name | ArrayReadNode _ _ name | LoadNativeArgNode _ _ _ name | MemoryVectorNode _ _ name _ => clean name
  | _ => True
  end.

#[local] Hint Resolve dec_str_clean : core.

Ltac text := apply format_ok; [cbn; lia|reflexivity|repeat constructor; auto].

Lemma template_text_ok l i s : exists t, template_text i l s = Ok t.
Proof.
  revert i s. induction l as [|a l IH]; intros i s; [by eexists|]. cbn [template_text].
  destruct (format_ok (ws ", template %0 has size %1") [dec_str i; dec_str a]) as [t ->]; [cbn; lia|reflexivity|repeat constructor; auto|]. apply IH.
Qed.

Lemma kind_text_ok k size : names_clean k -> (k = TupleVectorNode -> exists z, size = Ok z) -> exists t, kind_text k size = Ok t.
Proof.
  intros Hk Hs. destruct k; cbn [kind_text names_clean] in *; try (by eexists); try (unfold array_text; text).
  - destruct (_ =? _); [by eexists|text].
  - destruct (format_ok (ws "Emit: %0 ") [dec_str eventId]) as [t ->]; [cbn; lia|reflexivity|repeat constructor; auto|]. cbn [mbind res_bind].
    destruct (negb _); [|by eexists]. destruct (format_ok (ws "addr %0 size %1 ") [dec_str arrayAddr; dec_str arraySize]) as [u ->]; [cbn; lia|reflexivity|repeat constructor; auto|]. by eexists.
  - destruct (format_ok (ws "Call: id %0") [dec_str funcId]) as [t ->]; [cbn; lia|reflexivity|repeat constructor; auto|]. apply template_text_ok.
  - destruct (Hs eq_refl) as [z ->]. cbn [mbind res_bind]. text.
Qed.

(** Names without a percent sign, and tuples that have a size. *)
Inductive dumpable : node -> Prop :=
| dumpable_node k pos cs :
    names_clean k -> (k = TupleVectorNode -> exists z, getVectorSize (Node k pos cs) = Ok z) -> Forall dumpable cs -> dumpable (Node k pos cs).

(** The dump of such a tree runs to its end: no assertion of the substitution
    fails, and nothing is thrown. *)
Theorem dump_total n indent : dumpable n -> exists t, dump n indent = Ok t.
Proof.
  revert indent. induction n as [k pos cs IH] using node_rose_ind. intros indent Hd. inversion Hd as [k' p' cs' Hk Hs Hcs]; subst.
  cbn [dump]. destruct (kind_text_ok k _ Hk Hs) as [s ->]. cbn [mbind res_bind].
  assert (forall j, exists t, dump_children (fun c => dump c j) cs = Ok t) as Hc.
  { intros j. clear Hd Hs. induction IH as [|c cs Hc _ IHcs]; [by eexists|]. inversion Hcs as [|? ? H1 H2]; subst. cbn [dump_children].
    destruct (Hc j H1) as [t ->]. destruct (IHcs H2) as [u ->]. by eexists. }
  assert (forall j p i, exists t, dump_numbered (fun c => dump c j) pos p i cs = Ok t) as Hn.
  { intros j p. clear Hd Hs Hc. induction IH as [|c cs Hc _ IHcs]; intros i; [by eexists|]. inversion Hcs as [|? ? H1 H2]; subst. cbn [dump_numbered].
    destruct (format_ok (ws "[%0]:" ++ newline) [dec_str i]) as [t ->]; [cbn; lia|reflexivity|repeat constructor; auto|]. cbn [mbind res_bind].
    destruct (Hc j H1) as [u ->]. destruct (IHcs H2 (i + 1)) as [v ->]. by eexists. }
  destruct (Hc (S indent)) as [t Ht]. destruct (Hn (S (S indent)) (S indent) 0) as [u Hu].
  destruct k; rewrite ?Ht, ?Hu; by eexists.
Qed.

Lemma dump_total_witness : exists t, dump (Node TupleVectorNode (place 0 0) [Node (ImmediateNode 1) (place 0 1) []]) 0 = Ok t.
Proof. apply dump_total. constructor; [exact I|by exists 1|]. constructor; [|constructor]. constructor; [exact I|discriminate|constructor]. Defined.

(** * The listing of a program

    [Compiler::disassemble] (compiler/compiler.cpp): a title, then the
    instructions of the linked bytecode, with a heading where an event or a
    subroutine starts; [Compiler::dumpTokens] (compiler/lexer.cpp). *)

(** ** Numbers of type [float]

    [operator<<] for a floating-point number, in the default format: six
    significant digits, without trailing zeros.  The sign of a NaN is not
    specified; it is left out. *)

(** The exponent of [num / den] in base ten, at least [k]. *)
Fixpoint exponent10 (fuel : nat) (num den k : Z) : Z :=
  match fuel with
  | O => k
  | S fuel' => if num <? 10 * den then k else exponent10 fuel' num (10 * den) (k + 1)
  end.

(** [num / den], rounded to the nearest integer, ties to even. *)
Definition round_quotient (num den : Z) : Z :=
  let q := num / den in let r := num mod den in
  if 2 * r <? den then q else if den <? 2 * r then q + 1 else if Z.even q then q else q + 1.

Definition zeros (n : Z) : wstring := replicate (Z.to_nat n) 48.
Definition strip_zeros (digits : wstring) : wstring :=
  rev ((fix go l := match l with 48 :: l' => go l' | _ => l end) (rev digits)).
Definition with_fraction (whole digits : wstring) : wstring :=
  match strip_zeros digits with [] => whole | f => whole ++ ws "." ++ f end.

(** The six digits [d] of a number of exponent [x]. *)
Definition general_text (d x : Z) : wstring :=
  let ds := dec_str d in
  if (x <? -4) || (6 <=? x) then
    with_fraction (take 1 ds) (drop 1 ds) ++ ws "e" ++ (if x <? 0 then ws "-" else ws "+")
      ++ (if Z.abs x <? 10 then zeros 1 else []) ++ dec_str (Z.abs x)
  else if x <? 0 then with_fraction (ws "0") (zeros (- x - 1) ++ ds)
  else with_fraction (take (Z.to_nat (x + 1)) ds) (drop (Z.to_nat (x + 1)) ds).

(** The numbers of type [float] are above [10 ^ -46] and below [10 ^ 39]. *)
Definition positive_text (num den : Z) : wstring :=
  let x := exponent10 90 (num * 10 ^ 46) den 0 - 46 in
  let d := round_quotient (num * 10 ^ Z.max (5 - x) 0) (den * 10 ^ Z.max (x - 5) 0) in
  if d =? 1000000 then general_text 100000 (x + 1) else general_text d x.

Definition float_text (f : SpecFloat.spec_float) : wstring :=
  let signed (s : bool) t := if s then ws "-" ++ t else t in
  match f with
  | SpecFloat.S754_zero s => signed s (ws "0")
  | SpecFloat.S754_infinity s => signed s (ws "inf")
  | SpecFloat.S754_nan => ws "nan"
  | SpecFloat.S754_finite s m e => signed s (positive_text (Z.pos m * 2 ^ Z.max e 0) (2 ^ Z.max (- e) 0))
  end.

(** The conversion of an unsigned integer to [float]. *)
Definition float_of (z : Z) : SpecFloat.spec_float := SpecFloat.binary_normalize 24 128 z 0 false.

(** [float(size * 100.f) / float(bytecodeSize)]. *)
Definition fillPercentage (size bytecodeSize : Z) : SpecFloat.spec_float :=
  SpecFloat.SFdiv 24 128 (SpecFloat.SFmul 24 128 (float_of size) (float_of 100)) (float_of bytecodeSize).

Example fill_ex : List.map (fun p => float_text (fillPercentage (fst p) (snd p))) [(40, 1536); (0, 7); (12, 12); (1, 3); (5, 0); (0, 0); (1, 2000000000); (70000, 3)]
  = [ws "2.60417"; ws "0"; ws "100"; ws "33.3333"; ws "inf"; ws "nan"; ws "5e-08"; ws "2.33333e+06"].
Proof. by vm_compute. Qed.

(** ** Instructions *)

Definition all_unops : list AsebaUnaryOperator := [ASEBA_UNARY_OP_SUB; ASEBA_UNARY_OP_ABS; ASEBA_UNARY_OP_BIT_NOT; ASEBA_UNARY_OP_NOT].

(** The names of operators from the low byte of a word, the [default] of the
    switches included. *)
Definition binary_text (code : Z) : wstring :=
  match binop_of_code code with Some op => binaryOperatorToString op | None => ws "? (binary operator)" end.
Definition unary_text (code : Z) : wstring :=
  match List.find (fun op => unop_code op =? code) all_unops with
  | Some op => unaryOperatorToString op | None => ws "? (unary operator)" end.

Section Listing.
Variables (t : TargetDescription) (d : CommonDefinitions).

Section Text.
Variable table : list SubroutineDescriptor.

(** The name of the last subroutine of the table at an address. *)
Definition sub_name_at (address : Z) : wstring :=
  foldl (fun name i => if sub_address i =? address then sub_name i else name) (ws "unknown") table.

Definition instr_text (i : instr) : wstring :=
  match i with
  | STOP => ws "STOP"
  | SMALL_IMMEDIATE v => ws "SMALL_IMMEDIATE " ++ dec_str v
  | LARGE_IMMEDIATE v => ws "LARGE_IMMEDIATE " ++ dec_str v
  | LOAD a => ws "LOAD " ++ dec_str a
  | STORE a => ws "STORE " ++ dec_str a
  | LOAD_INDIRECT a n => ws "LOAD_INDIRECT in array at " ++ dec_str a ++ ws " of size " ++ dec_str n
  | STORE_INDIRECT a n => ws "STORE_INDIRECT in array at " ++ dec_str a ++ ws " of size " ++ dec_str n
  | UNARY_ARITHMETIC op => ws "UNARY_ARITHMETIC " ++ unary_text op
  | BINARY_ARITHMETIC op => ws "BINARY_ARITHMETIC " ++ binary_text op
  | JUMP offset => ws "JUMP " ++ dec_str offset
  | CONDITIONAL_BRANCH op edge skip =>
      ws "CONDITIONAL_BRANCH " ++ binary_text op ++ (if edge then ws " (edge), " else ws ", ")
        ++ ws "skip " ++ dec_str skip ++ ws " if false"
  | EMIT eventId a n =>
      ws "EMIT " ++ match events d !! Z.to_nat eventId with Some e => nv_name e | None => dec_str eventId end
        ++ ws " addr " ++ dec_str a ++ ws " size " ++ dec_str n
  | NATIVE_CALL id => ws "CALL " ++ dec_str id
  | SUB_CALL address => ws "SUB_CALL to " ++ sub_name_at address ++ ws " @ " ++ dec_str address
  | SUB_RET => ws "SUB_RET"
  | UNKNOWN => ws "?"
  end.

(** The line of the instruction at [pc], of first word [e]. *)
Definition instr_line (pc : Z) (e : BytecodeElement) (i : instr) : wstring :=
  ws "    " ++ dec_str pc ++ ws " (" ++ dec_str (Emit.line e) ++ ws ") : " ++ instr_text i ++ newline.
End Text.

(** ** Headings *)

Definition depth_text (v : BytecodeVector) : wstring := ws "(max stack " ++ dec_str (maxStackDepth v) ++ ws ")" ++ newline.

(** [eventId] is a word of the table; the index of a local event is an [int]
    and is not negative. *)
Definition event_heading (eventId : Z) (v : BytecodeVector) : wstring :=
  (if eventId =? ASEBA_EVENT_INIT then ws "init:       "
   else if eventId <? 0x1000 then
     match events d !! Z.to_nat eventId with
     | Some e => ws "event " ++ nv_name e ++ ws ": "
     | None => ws "unknown global event " ++ dec_str eventId ++ ws ": "
     end
   else
     let index := ASEBA_EVENT_LOCAL_EVENTS_START - eventId in
     match localEvents t !! Z.to_nat index with
     | Some e => ws "event " ++ event_name e ++ ws ": "
     | None => ws "unknown local event " ++ dec_str index ++ ws ": "
     end) ++ ws " " ++ depth_text v.
Definition sub_heading (name : wstring) (v : BytecodeVector) : wstring := ws "sub " ++ name ++ ws ": " ++ depth_text v.

(** [subroutinesAddr]: the last subroutine at an address. *)
Fixpoint subroutines_addresses (id : Z) (table : list SubroutineDescriptor) (m : omap Z Z) : omap Z Z :=
  match table with [] => m | s :: table' => subroutines_addresses (id + 1) table' (om_set (sub_address s) id m) end.

Section Program.
Variables (table : list SubroutineDescriptor) (pl : PreLinkBytecode).

(** What is written for the event, or the subroutine, that starts; the
    assertions that it has code. *)
Definition event_entry (eventId : Z) : res error wstring :=
  v ← of_option (om_find eventId (ev_bytecode pl)); Ok (event_heading eventId v).
Definition sub_entry (id : Z) : res error wstring :=
  v ← of_option (om_find id (sub_bytecode pl));
  s ← at_ table (Z.to_nat id); Ok (sub_heading (sub_name s) v).
Definition entry_at (head : Z -> res error wstring) (m : omap Z Z) (pc : Z) : res error wstring :=
  match om_find pc m with Some id => head id | None => Ok [] end.

(** The loop [while(pc < bytecode.size())]: [skip] words remain of the current
    instruction. *)
Fixpoint listing_from (eventAddr subroutinesAddr : omap Z Z) (pc : Z) (skip : nat) (l : list BytecodeElement) : res error wstring :=
  match l, skip with
  | [], _ => Ok []
  | _ :: l', S skip' => listing_from eventAddr subroutinesAddr (pc + 1) skip' l'
  | e :: l', O =>
      h ← entry_at event_entry eventAddr pc;
      h' ← entry_at sub_entry subroutinesAddr pc;
      i ← of_option (decode (bytecode e) (List.map bytecode l'));
      rest ← listing_from eventAddr subroutinesAddr (pc + 1) (Nat.pred (Z.to_nat (instr_size i))) l';
      Ok (h ++ h' ++ instr_line table pc e i ++ rest)
  end.

Definition title (segments size : Z) : wstring :=
  ws "Disassembling " ++ dec_str segments ++ ws " segments (" ++ dec_str size ++ ws " words on " ++ dec_str (bytecodeSize t)
    ++ ws ", " ++ float_text (fillPercentage size (bytecodeSize t)) ++ ws "% filled):" ++ newline.

Definition listing (bc : list BytecodeElement) : res error wstring :=
  eventAddr ← getEventAddressesToIds bc;
  let subroutinesAddr := subroutines_addresses 0 table [] in
  let eventCount := Z.of_nat (List.length eventAddr) in
  let pc := u32 (eventCount * 2 + 1) in
  body ← listing_from eventAddr subroutinesAddr pc 0 (drop (Z.to_nat pc) bc);
  Ok (title (eventCount + Z.of_nat (List.length table)) (Z.of_nat (List.length bc)) ++ body).
End Program.
End Listing.

Definition dumpTokens (ts : list Token) : wstring := mjoin (List.map (fun t => Token_toWString t ++ newline) ts).

(** The listing of a program with an event that calls a subroutine. *)
Example listing_ex :
  (let t := mkTarget [] 9 100 0 32 [] [mkLocalEvent (ws "tap") []] [] in
   let d := mkCommon [mkNamed (ws "ping") 0] [] in
   let pl := mkPreLink [(0, mkVector [element 0xD000 3; element 0 4] 2 0 4); (0xFFFE, mkVector [element 0xB000 7; element 5 7; element 1 7; element 0 8] 0 0 8)]
               [(0, mkVector [element 0x1FFF 10; element 0x4008 10; element 0xE000 11] 1 0 11)] (CurSub 0) in
   '(_, bc, table) ← link 100 pl [mkSub (ws "blink") 0 9]; listing t d table pl bc)
  = Ok (ws "Disassembling 3 segments (14 words on 100, 14% filled):" ++ newline
        ++ ws "event ping:  (max stack 2)" ++ newline
        ++ ws "    5 (3) : SUB_CALL to blink @ 11" ++ newline
        ++ ws "    6 (4) : STOP" ++ newline
        ++ ws "event tap:  (max stack 0)" ++ newline
        ++ ws "    7 (7) : EMIT ping addr 5 size 1" ++ newline
        ++ ws "    10 (8) : STOP" ++ newline
        ++ ws "sub blink: (max stack 1)" ++ newline
        ++ ws "    11 (10) : SMALL_IMMEDIATE -1" ++ newline
        ++ ws "    12 (10) : STORE 8" ++ newline
        ++ ws "    13 (11) : SUB_RET" ++ newline).
Proof. by vm_compute. Qed.

(** ** The listing follows the program *)

(** The lines of a segment that stands at [pc]. *)
Fixpoint segment_lines (d : CommonDefinitions) (table : list SubroutineDescriptor) (pc : Z) (skip : nat) (l : list BytecodeElement) : wstring :=
  match l, skip with
  | [], _ => []
  | _ :: l', S skip' => segment_lines d table (pc + 1) skip' l'
  | e :: l', O =>
      match decode (bytecode e) (List.map bytecode l') with
      | Some i => instr_line d table pc e i ++ segment_lines d table (pc + 1) (Nat.pred (Z.to_nat (instr_size i))) l'
      | None => []
      end
  end.

(** Segments one after the other, each under its heading. *)
Fixpoint segments_text (d : CommonDefinitions) (table : list SubroutineDescriptor) (pc : Z) (heads : list wstring) (rs : list (list BytecodeElement)) : wstring :=
  match heads, rs with
  | h :: heads', r :: rs' => h ++ segment_lines d table pc 0 r ++ segments_text d table (pc + Z.of_nat (List.length r)) heads' rs'
  | _, _ => []
  end.

Section ListingSpec.
Variables (t : TargetDescription) (d : CommonDefinitions) (table : list SubroutineDescriptor) (pl : PreLinkBytecode).
Variables (E S : omap Z Z).

Abbreviation from := (listing_from t d table pl E S).
Abbreviation entry pc := (h ← entry_at (event_entry t d pl) E pc; h' ← entry_at (sub_entry table pl) S pc; Ok (h ++ h')).

(** Instructions without headings. *)
Lemma listing_quiet pc k l l2 il :
  (forall p, pc <= p < pc + Z.of_nat (List.length l) -> entry p = Ok []) ->
  (k <= List.length l)%nat -> disassemble_from k (List.map bytecode l) = Ok il ->
  from pc k (l ++ l2) = (rest ← from (pc + Z.of_nat (List.length l)) 0 l2; Ok (segment_lines d table pc k l ++ rest)).
Proof.
  revert pc k il; induction l as [|e l IH]; intros pc k il Hq Hk Hd.
  - assert (k = O) as -> by (simpl in Hk; lia). simpl. rewrite Z.add_0_r. by destruct (from pc 0 l2).
  - assert (forall p, pc + 1 <= p < pc + 1 + Z.of_nat (List.length l) -> entry p = Ok []) as Hq'
      by (intros p Hp; apply Hq; simpl; lia).
    replace (pc + Z.of_nat (List.length (e :: l))) with (pc + 1 + Z.of_nat (List.length l)) by (simpl; lia).
    destruct k as [|k]; cbn [List.map disassemble_from app listing_from segment_lines] in *.
    + destruct (decode _ _) as [i|] eqn:Ei; [|discriminate]. cbn [of_option mbind res_bind] in Hd. inv_ok.
      specialize (Hq pc ltac:(simpl; lia)). rewrite map_app, (decode_app _ _ _ _ Ei).
      destruct (entry_at (event_entry _ _ _) _ _) as [h| | | |]; try discriminate Hq.
      destruct (entry_at (sub_entry _ _) _ _) as [h'| | | |]; try discriminate Hq.
      cbn [of_option mbind res_bind] in *. injection Hq as Hh. apply app_eq_nil in Hh as [-> ->].
      apply decode_size in Ei. rewrite length_map in Ei. rewrite (IH _ _ _ Hq' Ei) by done.
      destruct (from (pc + 1 + _) 0 l2); try done. cbn. by rewrite !app_assoc.
    + eapply IH; [exact Hq'|simpl in Hk; lia|done].
Qed.

(** A segment under its heading. *)
Lemma listing_segment pc h r l2 il :
  entry pc = Ok h -> (forall p, pc < p < pc + Z.of_nat (List.length r) -> entry p = Ok []) ->
  r <> [] -> reads r il ->
  from pc 0 (r ++ l2)
    = (rest ← from (pc + Z.of_nat (List.length r)) 0 l2; Ok (h ++ segment_lines d table pc 0 r ++ rest)).
Proof.
  intros Hh Hq Hne Hr. destruct r as [|e r]; [done|]. unfold reads, disassemble in Hr.
  cbn [List.map disassemble_from app listing_from segment_lines] in *.
  destruct (decode _ _) as [i|] eqn:Ei; [|discriminate]. cbn [of_option mbind res_bind] in Hr.
  apply bind_Ok in Hr as (il' & Hr & _).
  rewrite map_app, (decode_app _ _ _ _ Ei).
  destruct (entry_at (event_entry _ _ _) _ _) as [h1| | | |]; try discriminate Hh.
  destruct (entry_at (sub_entry _ _) _ _) as [h2| | | |]; try discriminate Hh.
  cbn [of_option mbind res_bind] in *. injection Hh as <-. apply decode_size in Ei. rewrite length_map in Ei.
  erewrite listing_quiet; [|intros p Hp; apply Hq; simpl; lia|exact Ei|done].
  replace (pc + Z.of_nat (List.length (e :: r))) with (pc + 1 + Z.of_nat (List.length r)) by (simpl; lia).
  destruct (from (pc + 1 + _) 0 l2); try done. cbn. by rewrite !app_assoc.
Qed.

(** The segments of a map, with an entry at the start of each. *)
Lemma listing_segments tbl pc m rs l2 (head : Z -> res error wstring) (h : Z * BytecodeVector -> wstring) :
  Forall2 (resolved tbl) m rs -> Forall (fun kv => code (snd kv) <> [] /\ head (fst kv) = Ok (h kv)) m ->
  (forall p, pc <= p < pc + words m -> entry p = entry_at head (starts pc m) p) ->
  from pc 0 (mjoin rs ++ l2)
    = (rest ← from (pc + words m) 0 l2; Ok (segments_text d table pc (List.map h m) rs ++ rest)).
Proof.
  intros Hf; revert pc; induction Hf as [|[id v] r m rs (Hlen & il & _ & Hr) _ IH]; intros pc Hm He.
  - unfold words. simpl. rewrite Z.add_0_r. by destruct (from pc 0 l2).
  - apply Forall_cons in Hm as [[Hne Hh] Hm]. rewrite words_cons in *. simpl in Hlen, Hne, Hh, He.
    pose proof (size_of_pos v Hne). pose proof (words_nonneg m).
    assert (Z.of_nat (List.length r) = size_of v) as Hsz by (unfold size_of; by rewrite Hlen).
    assert (forall p, pc < p -> entry_at head ((pc, id) :: starts (pc + size_of v) m) p = entry_at head (starts (pc + size_of v) m) p) as Hskip.
    { intros p Hp. unfold entry_at. cbn [om_find key_eqb Z_key]. by rewrite (proj2 (Z.eqb_neq _ _)) by lia. }
    change (mjoin (r :: rs)) with (r ++ mjoin rs). rewrite <- app_assoc.
    rewrite (listing_segment pc (h (id, v)) r _ (List.map (redirect tbl) il)); [| | |by destruct r, (code v)|exact Hr].
    + rewrite Hsz, IH; [|done|].
      * rewrite Z.add_assoc. simpl. rewrite Hsz. destruct (from (pc + size_of v + words m) 0 l2); try done. cbn. by rewrite !app_assoc.
      * intros p Hp. rewrite He by lia. apply Hskip. lia.
    + rewrite He by lia. unfold entry_at. cbn [om_find key_eqb Z_key]. by rewrite Z.eqb_refl.
    + intros p Hp. rewrite He, Hskip by lia. unfold entry_at. by rewrite starts_below by lia.
Qed.
End ListingSpec.

Lemma starts_above p a m : Forall (fun kv => code (snd kv) <> []) m -> a + words m <= p -> om_find p (starts a m) = None.
Proof.
  intros H; revert a; induction H as [|[id v] m Hv _ IH]; intros a Hp; [done|].
  rewrite words_cons in Hp. simpl in Hv, Hp. apply size_of_pos in Hv. pose proof (words_nonneg m).
  cbn [starts om_find key_eqb Z_key]. rewrite (proj2 (Z.eqb_neq _ _)) by lia. apply IH. lia.
Qed.

(** The addresses of the subroutines, in the order of the table. *)
Fixpoint addressed (id : Z) (table : list SubroutineDescriptor) : omap Z Z :=
  match table with [] => [] | s :: table' => (sub_address s, id) :: addressed (id + 1) table' end.

Lemma subroutines_addresses_fold id table m :
  subroutines_addresses id table m = foldl (fun m e => om_set (fst e) (snd e) m) m (addressed id table).
Proof. revert id m; induction table as [|s table IH]; intros id m; [done|]. apply IH. Qed.

Lemma addressed_lookup id table i s : table !! i = Some s -> addressed id table !! i = Some (sub_address s, id + Z.of_nat i).
Proof.
  revert id i; induction table as [|s' table IH]; intros id [|i] H; [done..| |].
  - injection H as ->. simpl. by rewrite Z.add_0_r.
  - change (addressed (id + 1) table !! i = Some (sub_address s, id + Z.of_nat (S i))). rewrite (IH _ _ H). do 2 f_equal. lia.
Qed.
Lemma addressed_length id table : List.length (addressed id table) = List.length table.
Proof. revert id; induction table as [|s table IH]; intros id; simpl; [done|]. by rewrite IH. Qed.

Lemma list_eq_some {A} (l k : list A) : List.length l = List.length k ->
  (forall i x, l !! i = Some x -> k !! i = Some x) -> l = k.
Proof.
  intros Hl H. apply list_eq_same_length with (n := List.length l); [done..|]. intros i x y _ Hx Hy.
  apply H in Hx. congruence.
Qed.

Lemma lookup_map_Some {A B} (f : A -> B) (l : list A) i x : l !! i = Some x -> List.map f l !! i = Some (f x).
Proof. intros H. etransitivity; [apply (list_lookup_fmap f)|]. by rewrite H. Qed.

(** The subroutines of a table all have code. *)
Definition complete (pl : PreLinkBytecode) (table : list SubroutineDescriptor) : Prop :=
  List.map fst (sub_bytecode pl) = seqZ 0 (Z.of_nat (List.length table)) /\
  Forall (fun kv => code (snd kv) <> []) (sub_bytecode pl).

Lemma complete_lookup pl table i kv : complete pl table -> sub_bytecode pl !! i = Some kv ->
  fst kv = Z.of_nat i /\ is_Some (table !! i).
Proof.
  intros [Hk _] Hi. pose proof (lookup_map_Some fst _ _ _ Hi) as H. rewrite Hk in H. apply lookup_seqZ in H as [-> Hlt]. split; [lia|]. apply lookup_lt_is_Some. lia.
Qed.

Lemma complete_addresses pl table table' a : complete pl table ->
  List.map sub_name table' = List.map sub_name table ->
  (forall pre id v post, sub_bytecode pl = pre ++ (id, v) :: post -> exists s, table' !! Z.to_nat id = Some s /\
     sub_address s = a + words pre /\ sub_address s < 4096) ->
  subroutines_addresses 0 table' [] = starts a (sub_bytecode pl).
Proof.
  intros Hc Hn Ha. pose proof Hc as [Hk Hne]. rewrite subroutines_addresses_fold. apply om_of_entries; [by apply starts_sorted|].
  assert (List.length table' = List.length table) as Hlen by (apply (f_equal (@List.length _)) in Hn; by rewrite !length_map in Hn).
  assert (List.length (sub_bytecode pl) = List.length table) as Hlen'
    by (apply (f_equal (@List.length _)) in Hk; rewrite length_map, length_seqZ in Hk; lia).
  assert (starts a (sub_bytecode pl) = addressed 0 table') as ->; [|done].
  apply list_eq_some; [rewrite starts_length, addressed_length; lia|]. intros i x Hx.
  destruct (lookup_lt_is_Some_2 (sub_bytecode pl) i) as [[id v] Hi];
    [apply lookup_lt_Some in Hx; by rewrite starts_length in Hx|].
  rewrite (starts_lookup _ _ _ _ Hi) in Hx. injection Hx as <-. destruct (complete_lookup _ _ _ _ Hc Hi) as [Hid _]. simpl in Hid. subst id.
  destruct (Ha (take i (sub_bytecode pl)) (Z.of_nat i) v (drop (S i) (sub_bytecode pl))) as (s & Hs & Hsa & _);
    [by rewrite take_drop_middle|].
  rewrite Nat2Z.id in Hs. rewrite (addressed_lookup _ _ _ _ Hs). by rewrite Hsa.
Qed.

(** The headings of a program. *)
Definition event_head (t : TargetDescription) (d : CommonDefinitions) (kv : Z * BytecodeVector) : wstring := event_heading t d (fst kv) (snd kv).
Definition sub_head (table : list SubroutineDescriptor) (kv : Z * BytecodeVector) : wstring :=
  sub_heading (match table !! Z.to_nat (fst kv) with Some s => sub_name s | None => [] end) (snd kv).

(** C29: the listing of a linked program says what was linked.  For the tables
    that code generation leaves, with code for every subroutine, [disassemble]
    fails none of its assertions and reads nothing out of range; after the
    title it writes the code of the events, then that of the subroutines, each
    under the heading with its name and its stack depth, at the address where
    [link] has put it, and instruction by instruction: the headings interrupt
    no segment, and nothing is left out. *)
Theorem listing_linked t d bytecodeSize pl table :
  linkable pl table -> complete pl table ->
  exists bc table' re rs,
    link bytecodeSize pl table = Ok (Z.of_nat (List.length bc) <=? bytecodeSize, bc, table') /\
    Forall2 (resolved table') (ev_bytecode pl) re /\ Forall2 (resolved table') (sub_bytecode pl) rs /\
    listing t d table' pl bc = Ok (
      title t (Z.of_nat (List.length (ev_bytecode pl)) + Z.of_nat (List.length table)) (Z.of_nat (List.length bc))
      ++ segments_text d table' (base pl) (List.map (event_head t d) (ev_bytecode pl)) re
      ++ segments_text d table' (base pl + words (ev_bytecode pl)) (List.map (sub_head table) (sub_bytecode pl)) rs).
Proof.
  intros ok Hc. destruct (link_parts _ _ ok bytecodeSize) as (table' & re & rs & Hl & Hre & Hrs & Hn & Hres).
  exists (header pl ++ mjoin re ++ mjoin rs), table', re, rs. split_and!; [done..|].
  destruct (linkable_sorted _ _ ok) as [Es Ss]. destruct (events_ok _ _ ok) as [_ Hne]. pose proof Hc as [_ Hnes].
  pose proof (complete_addresses _ _ _ _ Hc Hn Hres) as Hsubs.
  assert (List.length table' = List.length table) as Hlen by (apply (f_equal (@List.length _)) in Hn; by rewrite !length_map in Hn).
  unfold listing. rewrite (header_addresses _ _ ok). cbn [mbind res_bind]. rewrite Hsubs, starts_length, Hlen.
  fold (base pl). rewrite (base_u32 _ _ ok), drop_app_length' by exact (eq_sym (proj2 (header_words _ _ ok))).
  rewrite (listing_segments t d table' pl _ _ table' (base pl) (ev_bytecode pl) re _ (event_entry t d pl) (event_head t d) Hre).
  - rewrite <- (app_nil_r (mjoin rs)).
    rewrite (listing_segments t d table' pl _ _ table' (base pl + words (ev_bytecode pl)) (sub_bytecode pl) rs [] (sub_entry table' pl) (sub_head table) Hrs).
    + cbn. by rewrite !app_nil_r.
    + apply Forall_lookup. intros i [id v] Hi. rewrite Forall_lookup in Hnes. split; [by eapply Hnes|].
      destruct (complete_lookup _ _ _ _ Hc Hi) as [Hid [s Hs]]. simpl in Hid. subst id. cbn [fst].
      unfold sub_entry, sub_head, at_. rewrite (proj2 (om_find_elem _ v _ Ss)) by (by eapply list_elem_of_lookup_2).
      cbn [of_option mbind res_bind fst snd]. rewrite Nat2Z.id, Hs.
      destruct (lookup_lt_is_Some_2 table' i) as [s' Hs']; [apply lookup_lt_Some in Hs; lia|].
      rewrite Hs'. simpl. do 2 f_equal. apply (lookup_map_Some sub_name) in Hs, Hs'. rewrite Hn in Hs'. congruence.
    + intros p Hp. unfold entry_at. rewrite (starts_above p (base pl) (ev_bytecode pl)) by (done || lia).
      cbn [mbind res_bind]. destruct (om_find p _) as [id|]; [|done]. by destruct (sub_entry _ _ id).
  - apply Forall_lookup. intros i [id v] Hi. rewrite Forall_lookup in Hne. split; [by eapply Hne|].
    unfold event_entry, event_head. by rewrite (proj2 (om_find_elem _ v _ Es)) by (by eapply list_elem_of_lookup_2).
  - intros p Hp. unfold entry_at. rewrite (starts_below p (base pl + words (ev_bytecode pl)) (sub_bytecode pl)) by lia.
    destruct (om_find p _) as [id|]; [|done]. destruct (event_entry _ _ _ id); try done. cbn. by rewrite app_nil_r.
Qed.

Lemma listing_linked_witness :
  exists bc table' re rs,
    link 100 sample_program [mkSub [] 0 2] = Ok (Z.of_nat (List.length bc) <=? 100, bc, table') /\
    listing (mkTarget [] 9 100 0 32 [] [] []) (mkCommon [] []) table' sample_program bc = Ok (
      title (mkTarget [] 9 100 0 32 [] [] []) 3 (Z.of_nat (List.length bc))
      ++ segments_text (mkCommon [] []) table' (base sample_program) (List.map (event_head (mkTarget [] 9 100 0 32 [] [] []) (mkCommon [] [])) (ev_bytecode sample_program)) re
      ++ segments_text (mkCommon [] []) table' (base sample_program + words (ev_bytecode sample_program)) (List.map (sub_head [mkSub [] 0 2]) (sub_bytecode sample_program)) rs).
Proof.
  destruct (listing_linked (mkTarget [] 9 100 0 32 [] [] []) (mkCommon [] []) 100 sample_program [mkSub [] 0 2] sample_linkable)
    as (bc & table' & re & rs & H1 & _ & _ & H2); [split; [reflexivity|repeat constructor; discriminate]|].
  exists bc, table', re, rs. split; [exact H1|exact H2].
Defined.
