(* ===== verification/Helpers.v ===== *)
(** * General helpers

    The rest of common/utils: times and their text, the timer, splitting and
    joining (utils.{h,cpp}), formatted numbers (FormatableString.cpp); and the
    swapping of bytes (common/msg/endian.h). *)
From Stdlib Require Import ZArith Lia List String SpecFloat.
From stdpp Require Import base list strings list_monad.
From S2P Require Import Prelude Bits Errors Lexer Property.
From S2P Require LexerSpec.

Local Open Scope Z_scope.

Definition u64 (z : Z) : Z := z mod 2 ^ 64.

(** ** Times (UnifiedTime)

    A number of milliseconds of 64 bits, without sign. *)
Module UnifiedTime.
Definition Value : Type := Z.
Definition from_ms (ms : Z) : Value := u64 ms.
(** The parameters of a constructor are values: a negative number wraps. *)
Definition from_s_ms (seconds milliseconds : Z) : Value := u64 (u64 seconds * 1000 + u64 milliseconds).
Definition now (tv_sec tv_usec : Z) : Value := u64 (u64 tv_sec * 1000 + u64 tv_usec / 1000).
Definition now_win32 (hundred_ns : Z) : Value := u64 (Z.quot hundred_ns 10000).

Definition add (a b : Value) : Value := u64 (a + b).
Definition sub (a b : Value) : Value := u64 (a - b).
Definition div (a factor : Z) : res Empty_set Value := _ ← assert_ (negb (factor =? 0)); Ok (a / factor).
Definition mul (a factor : Z) : Value := u64 (a * factor).

(** What is asked of [nanosleep]: seconds and nanoseconds. *)
Definition sleep (v : Value) : Z * Z := (v / 1000, v mod 1000 * 1000000).
Definition sleep_win32 (v : Value) : res Empty_set Z := _ ← assert_ (v <=? 4294967295); Ok v.

(** [setfill('0') << setw(3)]. *)
Definition setw (w : nat) (fill : Z) (s : wstring) : wstring := replicate (w - List.length s) fill ++ s.

Definition toRawTimeString (v : Value) : wstring := dec_str (v / 1000) ++ [46] ++ setw 3 48 (dec_str (v mod 1000)).

(** [ctime] gives a line; its last character is cut. *)
Definition toHumanReadableStringFromEpoch (ctime : Z -> wstring) (v : Value) : res Empty_set wstring :=
  match rev (ctime (v / 1000)) with
  | [] => Crash
  | _ :: l => Ok ([91] ++ rev l ++ [32] ++ setw 3 48 (dec_str (v mod 1000)) ++ [93])
  end.

(** The decimal number at the front of a string, behind spaces and a sign;
    a number of more than 64 bits has no defined value. *)
Fixpoint digits (acc : Z) (s : wstring) : Z :=
  match s with c :: s' => if (48 <=? c) && (c <=? 57) then digits (acc * 10 + (c - 48)) s' else acc | [] => acc end.
Fixpoint skip_spaces (s : wstring) : wstring :=
  match s with c :: s' => if (c =? 32) || ((9 <=? c) && (c <=? 13)) then skip_spaces s' else s | [] => [] end.
Definition atoll (s : wstring) : res Empty_set Z :=
  let v := match skip_spaces s with
           | c :: s' => if c =? 45 then - digits 0 s' else if c =? 43 then digits 0 s' else digits 0 (c :: s')
           | [] => 0
           end in
  if (-2 ^ 63 <=? v) && (v <? 2 ^ 63) then Ok v else Undef.

Fixpoint find (c : Z) (s : wstring) : option nat :=
  match s with [] => None | x :: s' => if x =? c then Some O else S <$> find c s' end.

Definition fromRawTimeString (s : wstring) : res Empty_set Value :=
  dotPos ← of_option (find 46 s);
  seconds ← atoll (take dotPos s); milliseconds ← atoll (drop (S dotPos) s);
  Ok (from_s_ms seconds milliseconds).

Definition dumpTime (ctime : Z -> wstring) (now : Value) (raw : bool) : res Empty_set wstring :=
  s ← (if raw then Ok (toRawTimeString now) else toHumanReadableStringFromEpoch ctime now); Ok (s ++ [32]).

Example raw_time_ex : toRawTimeString 61005 = ws "61.005" /\ fromRawTimeString (ws " 61.005") = Ok 61005 /\ fromRawTimeString (ws "-1.5") = Ok (2 ^ 64 - 995) /\ fromRawTimeString (ws "61") = Crash.
Proof. by vm_compute. Qed.

(** *** The text of a time *)

Definition is_digit (c : Z) : bool := (48 <=? c) && (c <=? 57).

Lemma ws_cons a t : ws (String a t) = ch a :: ws t.
Proof. done. Qed.

Lemma digits_no_sign d acc : digits acc (ws (DecimalString.NilEmpty.string_of_uint d)) = LexerSpec.uint_val acc d.
Proof.
  revert acc. induction d; intros acc; [done|..]; cbn [DecimalString.NilEmpty.string_of_uint LexerSpec.uint_val]; rewrite ws_cons;
    match goal with |- context [ch ?a] => let v := eval vm_compute in (ch a) in change (ch a) with v end; cbn [digits Z.leb Z.compare Pos.compare Pos.compare_cont andb];
    rewrite IHd; f_equal; lia.
Qed.

Lemma dec_str_pos p : dec_str (Zpos p) = ws (DecimalString.NilEmpty.string_of_uint (Pos.to_uint p)).
Proof.
  unfold dec_str. cbn [Z.to_int DecimalString.NilZero.string_of_int]. unfold DecimalString.NilZero.string_of_uint.
  pose proof (DecimalPos.Unsigned.to_uint_nonnil p). by destruct (Pos.to_uint p).
Qed.

(** The text of a number is digits that [atoll] reads. *)
Lemma digits_dec n : 0 <= n -> digits 0 (dec_str n) = n /\ forallb is_digit (dec_str n) = true.
Proof.
  intros Hn. destruct n as [|p|p]; [done| |lia]. rewrite dec_str_pos. split; [|apply LexerSpec.digits_uint].
  rewrite digits_no_sign, <- LexerSpec.uint_val_of_uint. by rewrite DecimalPos.Unsigned.of_to.
Qed.

Lemma atoll_digits s : forallb is_digit s = true -> 0 <= digits 0 s < 2 ^ 63 -> atoll s = Ok (digits 0 s).
Proof.
  intros Hs Hr. unfold atoll. assert (skip_spaces s = s) as ->.
  { destruct s as [|c s]; [done|]. cbn in Hs. apply andb_true_iff in Hs as [Hc _]. unfold is_digit in Hc. cbn [skip_spaces].
    by replace ((c =? 32) || ((9 <=? c) && (c <=? 13))) with false by lia. }
  assert ((match s with c :: s' => if c =? 45 then - digits 0 s' else if c =? 43 then digits 0 s' else digits 0 (c :: s') | [] => 0 end) = digits 0 s) as ->.
  { destruct s as [|c s]; [done|]. cbn [forallb] in Hs. apply andb_true_iff in Hs as [Hc _]. unfold is_digit in Hc.
    replace (c =? 45) with false by lia. by replace (c =? 43) with false by lia. }
  by replace ((-2 ^ 63 <=? digits 0 s) && (digits 0 s <? 2 ^ 63)) with true by lia.
Qed.

Lemma find_digits c s t : forallb is_digit s = true -> is_digit c = false -> find c (s ++ c :: t) = Some (List.length s).
Proof.
  intros Hs Hc. induction s as [|x s IH]; cbn [app find List.length]; [by rewrite Z.eqb_refl|].
  cbn in Hs. apply andb_true_iff in Hs as [Hx Hs]. destruct (Z.eqb_spec x c) as [->|]; [congruence|]. by rewrite (IH Hs).
Qed.

Lemma setw_digits w s : forallb is_digit s = true -> forallb is_digit (setw w 48 s) = true /\ digits 0 (setw w 48 s) = digits 0 s.
Proof.
  intros Hs. unfold setw. induction (w - List.length s)%nat as [|k IH]; [done|]. cbn [replicate app forallb digits]. exact IH.
Qed.

(** The raw text of every time is read back. *)
Theorem raw_time_roundtrip v : 0 <= v < 2 ^ 64 -> fromRawTimeString (toRawTimeString v) = Ok v.
Proof.
  intros Hv. unfold fromRawTimeString, toRawTimeString.
  assert (0 <= v / 1000 < 2 ^ 63) as Hs by (split; [apply Z.div_pos; lia|apply Z.div_lt_upper_bound; lia]).
  pose proof (Z.mod_pos_bound v 1000 ltac:(lia)) as Hm.
  destruct (digits_dec (v / 1000) ltac:(lia)) as [Ds Fs]. destruct (digits_dec (v mod 1000) ltac:(lia)) as [Dm Fm].
  destruct (setw_digits 3 _ Fm) as [Fw Dw]. cbn [app]. rewrite find_digits by done. cbn [of_option mbind res_bind].
  rewrite take_app_length, drop_app, (drop_ge (dec_str (v / 1000))) by lia.
  replace (S (List.length (dec_str (v / 1000))) - List.length (dec_str (v / 1000)))%nat with 1%nat by lia. cbn [drop app].
  rewrite (atoll_digits (dec_str (v / 1000))) by (rewrite ?Ds; done). rewrite Ds. cbn [mbind res_bind].
  rewrite drop_0, atoll_digits; [|done|by rewrite Dw, Dm; lia]. rewrite Dw, Dm. cbn [mbind res_bind].
  unfold from_s_ms, u64. f_equal. pose proof (Z.div_mod v 1000 ltac:(lia)). rewrite (Z.mod_small (v / 1000)), (Z.mod_small (v mod 1000)) by lia.
  rewrite Z.mod_small; lia.
Qed.

Lemma raw_time_roundtrip_witness : fromRawTimeString (toRawTimeString 61005) = Ok 61005.
Proof. apply (raw_time_roundtrip 61005). lia. Defined.

(** Times are numbers modulo 2^64: what was added can be taken away. *)
Lemma sub_add a b : 0 <= a < 2 ^ 64 -> sub (add a b) b = a.
Proof. intros Ha. unfold sub, add, u64. rewrite Zminus_mod_idemp_l. replace (a + b - b) with a by lia. by apply Z.mod_small. Qed.
End UnifiedTime.

(** ** A timer (SoftTimer)

    The callback gets the timer, which it may change. *)
Module SoftTimer.
Definition zero : double := S754_zero false.

Record timer : Type := mkTimer { period : double; left : double }.

(** A negative period is refused: [std::domain_error]. *)
Definition make (period : double) : res unit timer := if SFltb period zero then Throw tt else Ok (mkTimer period period).
Definition setPeriod (period : double) (t : timer) : res unit timer := make period.

Section Step.
Variable callback : timer -> timer.

(** The loop, with the number of calls. *)
Fixpoint fire (fuel : nat) (t : timer) (calls : nat) : res unit (timer * nat) :=
  if SFltb (left t) zero then
    match fuel with
    | O => NoFuel
    | S fuel => let t := callback t in fire fuel (mkTimer (period t) (SFadd 53 1024 (left t) (period t))) (S calls)
    end
  else Ok (t, calls).

Definition step (fuel : nat) (dt : double) (t : timer) : res unit (timer * nat) :=
  if SFeqb (period t) zero then Ok (t, O) else
  _ ← assert_ (SFleb zero dt);
  fire fuel (mkTimer (period t) (SFsub 53 1024 (left t) dt)) O.

(** A timer that fires is not late any more. *)
Lemma fire_left fuel t calls t' n : fire fuel t calls = Ok (t', n) -> SFltb (left t') zero = false.
Proof.
  revert t calls. induction fuel as [|fuel IH]; intros t calls; cbn [fire]; destruct (SFltb (left t) zero) eqn:E; try discriminate; [|apply IH|];
    by intros [= <- <-].
Qed.
End Step.

(** A timer with a period that is too small against its delay never stops:
    the sum is rounded to the delay. *)
Lemma fire_stuck p l : SFltb l zero = true -> SFadd 53 1024 l p = l -> forall fuel calls, fire id fuel (mkTimer p l) calls = NoFuel.
Proof. intros Hl Ha fuel. induction fuel as [|fuel IH]; intros calls; cbn [fire left]; rewrite Hl; [done|]. unfold id. cbn [period left]. by rewrite Ha. Qed.

Definition of_Z (z : Z) : double := binary_normalize 53 1024 z 0 false.

Example timer_never_ends fuel : step id fuel (of_Z (2 ^ 54)) (mkTimer (of_Z 1) (of_Z 1)) = NoFuel.
Proof.
  unfold step. cbn [period left]. replace (SFeqb (of_Z 1) zero) with false by reflexivity. replace (SFleb zero (of_Z (2 ^ 54))) with true by (by vm_compute).
  apply fire_stuck; by vm_compute.
Qed.

Example timer_fires : step id 9 (of_Z 7) (mkTimer (of_Z 2) (of_Z 2)) = Ok (mkTimer (of_Z 2) (of_Z 1), 3%nat).
Proof. by vm_compute. Qed.
End SoftTimer.

(** ** Splitting and joining *)
Section Split.
Variable delim : wstring.
Definition is_delim (c : Z) : bool := existsb (Z.eqb c) delim.

(** The first element of a list that satisfies a test. *)
Fixpoint index_of (f : Z -> bool) (l : wstring) : option nat :=
  match l with [] => None | c :: l' => if f c then Some O else S <$> index_of f l' end.

(** [None] is [npos], behind which nothing is found. *)
Definition find_from (f : Z -> bool) (s : wstring) (pos : option nat) : option nat :=
  match pos with Some p => Nat.add p <$> index_of f (drop p s) | None => None end.
Definition find_first_of := find_from is_delim.
Definition find_first_not_of := find_from (fun c => negb (is_delim c)).

Fixpoint split_loop (fuel : nat) (s : wstring) (delimPos : option nat) (result : list wstring) : res Empty_set (list wstring) :=
  match find_first_of s delimPos, delimPos with
  | Some nextPos, Some p =>
      match fuel with
      | O => NoFuel
      | S fuel => split_loop fuel s (find_first_not_of s (Some nextPos)) (result ++ [take (nextPos - p) (drop p s)])
      end
  | _, _ =>
      match delimPos with
      | Some p => Ok (if Nat.ltb p (List.length s) then result ++ [drop p s] else result)
      | None => Ok result
      end
  end.

Definition split (s : wstring) : res Empty_set (list wstring) := split_loop (List.length s) s (Some O) [].

Fixpoint join_all (l : list wstring) : wstring :=
  match l with
  | [] => []
  | [x] => x
  | x :: l' => x ++ delim ++ join_all l'
  end.

(** In one pass: [None] behind a delimiter, [Some w] in a piece. *)
Fixpoint pieces (l : wstring) (st : option wstring) : list wstring :=
  match l, st with
  | [], None => []
  | [], Some w => [w]
  | c :: l', Some w => if is_delim c then w :: pieces l' None else pieces l' (Some (w ++ [c]))
  | c :: l', None => if is_delim c then pieces l' None else pieces l' (Some [c])
  end.

Lemma index_of_spec f l :
  match index_of f l with
  | Some i => exists a c b, l = a ++ c :: b /\ List.length a = i /\ f c = true /\ forallb (fun x => negb (f x)) a = true
  | None => forallb (fun x => negb (f x)) l = true
  end.
Proof.
  induction l as [|x l IH]; cbn [index_of forallb]; [done|]. destruct (f x) eqn:E; [by exists [], x, l|]. destruct (index_of f l); cbn; [|done].
  destruct IH as (a & c & b & -> & <- & Hc & Ha). exists (x :: a), c, b. cbn. by rewrite E.
Qed.

Lemma pieces_word a l w : forallb (fun x => negb (is_delim x)) a = true -> pieces (a ++ l) (Some w) = pieces l (Some (w ++ a)).
Proof.
  revert w. induction a as [|c a IH]; intros w; cbn [app forallb pieces]; [by rewrite app_nil_r|]. intros [Hc Ha]%andb_true_iff.
  apply negb_true_iff in Hc. rewrite Hc, IH by done. by rewrite <- app_assoc.
Qed.

Lemma pieces_gap a l : forallb is_delim a = true -> pieces (a ++ l) None = pieces l None.
Proof. induction a as [|c a IH]; cbn [app forallb pieces]; [done|]. intros [-> Ha]%andb_true_iff. auto. Qed.

Lemma forallb_negb2 f (l : wstring) : forallb (fun x => negb (negb (f x))) l = true -> forallb f l = true.
Proof. induction l as [|x l IH]; cbn; [done|]. rewrite negb_involutive. intros [-> ?]%andb_true_iff. auto. Qed.

Lemma split_loop_spec s fuel p result : (p < List.length s)%nat -> (List.length s - p <= fuel)%nat ->
  split_loop fuel s (Some p) result = Ok (result ++ pieces (drop p s) (Some [])).
Proof.
  revert p result. induction fuel as [|fuel IH]; intros p result Hp Hf; [lia|].
  cbn [split_loop]. unfold find_first_of, find_from. pose proof (index_of_spec is_delim (drop p s)) as H.
  destruct (index_of is_delim (drop p s)) as [i|] eqn:E; cbn [fmap option_fmap option_map].
  2:{ rewrite (proj2 (Nat.ltb_lt _ _) Hp). rewrite <- (app_nil_r (drop p s)) at 2. by rewrite pieces_word. }
  destruct H as (a & c & b & Hd & <- & Hc & Ha). rewrite Hd. replace (p + List.length a - p)%nat with (List.length a) by lia. rewrite take_app_length, pieces_word by done.
  cbn [app pieces]. rewrite Hc. unfold find_first_not_of, find_from. rewrite <- drop_drop, Hd, drop_app_length.
  assert (List.length (drop p s) = List.length a + S (List.length b))%nat as Hl by (rewrite Hd, length_app; done). rewrite length_drop in Hl.
  pose proof (index_of_spec (fun x => negb (is_delim x)) (c :: b)) as H. destruct (index_of _ (c :: b)) as [j|]; cbn [fmap option_fmap option_map].
  - destruct H as (g & d & e & Hg & Hj & Hd' & Hg'). apply forallb_negb2 in Hg'.
    assert (0 < j)%nat as Hj0 by (destruct g as [|x g]; [|subst j; cbn; lia]; injection Hg as -> ->; by rewrite Hc in Hd').
    assert (List.length (c :: b) = j + S (List.length e))%nat as Hl' by (rewrite Hg, length_app, Hj; done). cbn in Hl'.
    rewrite IH by lia. rewrite <- app_assoc. f_equal. f_equal. cbn [app]. f_equal. rewrite <- Nat.add_assoc, <- drop_drop, Hd, <- drop_drop, drop_app_length, Hg, <- Hj, drop_app_length.
    destruct g as [|x g]; [cbn in Hj; lia|]. injection Hg as <- ->. cbn in Hg'. apply andb_true_iff in Hg' as [_ Hg'].
    rewrite pieces_gap by done. cbn [pieces app]. apply negb_true_iff in Hd'. by rewrite Hd'.
  - apply forallb_negb2 in H. cbn in H. apply andb_true_iff in H as [_ H]. destruct fuel; cbn [split_loop find_first_of find_from]; rewrite <- (app_nil_r b), pieces_gap by done; done.
Qed.

(** [split] is the one-pass definition. *)
Theorem split_pieces s : split s = Ok (match s with [] => [] | _ => pieces s (Some []) end).
Proof. destruct s as [|c s]; [done|]. unfold split. by rewrite split_loop_spec by (cbn; lia). Qed.

Definition word (w : wstring) : bool := forallb (fun x => negb (is_delim x)) w && match w with [] => false | _ => true end.

Lemma pieces_delim w r : delim <> [] -> pieces (delim ++ r) (Some w) = w :: pieces r None.
Proof.
  assert (forallb is_delim delim = true) as H by (apply forallb_forall; intros x Hx; apply existsb_exists; exists x; by rewrite Z.eqb_refl).
  revert H. generalize delim at 1 2 3. intros [|d ds]; [done|]. intros [Hd Hds]%andb_true_iff Hn. cbn [app pieces]. by rewrite Hd, pieces_gap.
Qed.

Lemma pieces_join ws : ws <> [] -> delim <> [] -> forallb word ws = true -> pieces (join_all ws) (Some []) = ws.
Proof.
  intros Hws Hd Hf. induction ws as [|w ws IH]; [done|]. cbn [forallb] in Hf. apply andb_true_iff in Hf as [[Hw Hn]%andb_true_iff Hf].
  destruct ws as [|w' ws]; cbn [join_all].
  - rewrite <- (app_nil_r w) at 1. by rewrite pieces_word.
  - rewrite pieces_word by done. cbn [app].
    rewrite pieces_delim by done.
    f_equal. transitivity (pieces (join_all (w' :: ws)) (Some [])); [|exact (IH ltac:(done) Hf)]. cbn [forallb] in Hf. apply andb_true_iff in Hf as [[Hw' Hn']%andb_true_iff _].
    destruct w' as [|c w']; [done|]. cbn [forallb] in Hw'. apply andb_true_iff in Hw' as [Hc _]. apply negb_true_iff in Hc.
    destruct ws; cbn [join_all app pieces]; by rewrite Hc.
Qed.

(** Words that were joined with the delimiters are found again. *)
Theorem split_join ws : delim <> [] -> forallb word ws = true -> split (join_all ws) = Ok ws.
Proof.
  intros Hd Hf. rewrite split_pieces. destruct ws as [|w ws]; [done|]. rewrite pieces_join by done.
  destruct w as [|c w]; [by cbn in Hf|]. by destruct ws.
Qed.
End Split.

Lemma split_join_witness : split (ws ", ") (ws "ab, c, d") = Ok [ws "ab"; ws "c"; ws "d"].
Proof. apply (split_join (ws ", ") [ws "ab"; ws "c"; ws "d"]); done. Defined.

(** [split] without delimiters: tabulators and spaces.  A string that begins
    with one gives an empty first word, and only then. *)
Definition split_spaces (s : wstring) : res Empty_set (list wstring) := split [9; 32] s.

Example split_ex : split_spaces (ws "  a  b ") = Ok [[]; ws "a"; ws "b"] /\ split_spaces (ws "a") = Ok [ws "a"].
Proof. by vm_compute. Qed.

Definition clamp (v minV maxV : Z) : Z := if v <? minV then minV else if maxV <? v then maxV else v.

Lemma clamp_range v lo hi : lo <= hi -> lo <= clamp v lo hi <= hi /\ (lo <= v <= hi -> clamp v lo hi = v).
Proof. intros H. unfold clamp. destruct (v <? lo) eqn:E1, (hi <? v) eqn:E2; lia. Qed.

(** ** Formatted numbers *)

(** The digits of a number in a base, the last one first. *)
Fixpoint digits_in (fuel : nat) (base z : Z) : wstring :=
  match fuel with
  | O => []
  | S fuel =>
      let d := z mod base in
      (if d <? 10 then 48 + d else 87 + d) :: (if z / base =? 0 then [] else digits_in fuel base (z / base))
  end.

(** [setbase] knows octal and hexadecimal, which show the bits of the number;
    any other base is decimal. *)
Definition show_int (bits base value : Z) : wstring :=
  if (base =? 8) || (base =? 16) then rev (digits_in 64 base (value mod 2 ^ bits)) else dec_str value.

Definition argInt {E} (bits : Z) (f : FormatableString) (value : Z) (fieldWidth : nat) (base fillChar : Z) : res E FormatableString :=
  proceedReplace f (UnifiedTime.setw fieldWidth fillChar (show_int bits base value)).

(** The text of a floating number, with a number of digits, is the library's. *)
Definition argFloat {E} (show_fixed : double -> Z -> wstring) (f : FormatableString) (value : double) (fieldWidth : nat) (precision fillChar : Z) : res E FormatableString :=
  proceedReplace f (UnifiedTime.setw fieldWidth fillChar (show_fixed value precision)).

Definition assign (str : wstring) (f : FormatableString) : FormatableString := mkFS str 0.

Example argInt_ex : argInt (E := Empty_set) 32 (mkFS (ws "at %0") 0) (-1) 4 16 48 = Ok (mkFS (ws "at ffffffff") 1) /\
  argInt (E := Empty_set) 32 (mkFS (ws "at %0") 0) 10 4 16 48 = Ok (mkFS (ws "at 000a") 1) /\
  argInt (E := Empty_set) 32 (mkFS (ws "at %0") 0) 10 4 2 48 = Ok (mkFS (ws "at 0010") 1).
Proof. by vm_compute. Qed.

(** ** Swapping bytes (endian.h) *)
Module ByteSwapper.
Definition swapp1 (a : Z) : Z := a.
Definition swapp2 (a : Z) : Z := u16 (Z.lor (Z.shiftl (Z.land a 0xff) 8) (Z.land (Z.shiftr a 8) 0xff)).
Definition swapp4 (a : Z) : Z :=
  u32 (Z.lor (Z.lor (Z.lor (Z.shiftl (Z.land a 0xff) 24) (Z.shiftl (Z.land a 0xff00) 8)) (Z.land (Z.shiftr a 8) 0xff00)) (Z.land (Z.shiftr a 24) 0xff)).
Definition swapp8 (a : Z) : Z :=
  u64 (Z.lor (Z.lor (Z.lor (Z.lor (Z.lor (Z.lor (Z.lor (Z.shiftl (Z.land a 0xff) 56) (Z.shiftl (Z.land a 0xff00) 40))
    (Z.shiftl (Z.land a 0xff0000) 24)) (Z.shiftl (Z.land a 0xff000000) 8)) (Z.land (Z.shiftr a 8) 0xff000000))
    (Z.land (Z.shiftr a 24) 0xff0000)) (Z.land (Z.shiftr a 40) 0xff00)) (Z.land (Z.shiftr a 56) 0xff)).

(** On a little-endian host nothing is swapped on the wire. *)
Definition swapEndianCopy (v : Z) : Z := v.
Definition swapEndian (v : Z) : Z := v.

(** The bytes of a number, the least first. *)
Definition bytes_le (n : nat) (a : Z) : list Z := List.map (fun i => Z.land (Z.shiftr a (8 * Z.of_nat i)) 0xff) (seq 0 n).

Ltac swap_bits :=
  apply Z.bits_inj'; intros n Hn;
  destruct (Z.lt_ge_cases n 8) as [Hlt|Hge];
  [|by rewrite !Z.land_spec, (testbit_small 0xff 8 n), !andb_false_r by lia];
  rewrite !Z.land_spec; f_equal; unfold u16, u32, u64, swapp1;
  try change 65536 with (2 ^ 16); try change 4294967296 with (2 ^ 32);
  rewrite !Z.shiftr_spec by lia;
  assert (n = 0 \/ n = 1 \/ n = 2 \/ n = 3 \/ n = 4 \/ n = 5 \/ n = 6 \/ n = 7) as Hc by lia;
  destruct Hc as [->|[->|[->|[->|[->|[->|[->| ->]]]]]]];
  rewrite Z.mod_pow2_bits_low by lia; rewrite !Z.lor_spec;
  repeat first [rewrite Z.shiftl_spec by lia | rewrite Z.land_spec | rewrite Z.shiftr_spec by lia];
  cbn -[Z.testbit]; rewrite ?andb_false_r, ?andb_true_r, ?orb_false_r, ?orb_false_l; reflexivity.

(** A swap turns the bytes of a number around. *)
Lemma swapp2_bytes a : bytes_le 2 (swapp2 a) = rev (bytes_le 2 a).
Proof. cbn [bytes_le seq List.map rev app]. unfold swapp2. repeat (apply (f_equal2 cons); [swap_bits|]). done. Qed.

Lemma swapp4_bytes a : bytes_le 4 (swapp4 a) = rev (bytes_le 4 a).
Proof. cbn [bytes_le seq List.map rev app]. unfold swapp4. repeat (apply (f_equal2 cons); [swap_bits|]). done. Qed.

Lemma swapp8_bytes a : bytes_le 8 (swapp8 a) = rev (bytes_le 8 a).
Proof. cbn [bytes_le seq List.map rev app]. unfold swapp8. repeat (apply (f_equal2 cons); [swap_bits|]). done. Qed.
End ByteSwapper.
