(* ===== verification/Services.v ===== *)
(** * Small services

    The list of endpoints and the announcement on the network
    (aseba_node_registery.{h,cpp}), random identifiers and passwords
    (aseba_nodeid_generator.h, app_token_manager.h), the texts of errors
    (error.cpp), the lines of the log (log.h, log.cpp), and the start of the
    process (main.cpp). *)
From Stdlib Require Import ZArith Lia List String.
From stdpp Require Import base list sets strings list_monad.
From S2P Require Import Prelude Errors UsbDevice Node.

Local Open Scope Z_scope.

(** ** The endpoints that the registry knows

    A weak pointer is the number of its endpoint; which endpoints live, and
    which are wireless, is asked of the others. *)
Section Endpoints.
Variable alive : Z -> bool.
Variable is_wireless : Z -> bool.

Definition register_endpoint (p : Z) (m_endpoints : list Z) : list Z :=
  if existsb (fun o => alive o && (o =? p)) m_endpoints then m_endpoints else m_endpoints ++ [p].

Definition unregister_expired_endpoints (m_endpoints : list Z) : list Z := List.filter alive m_endpoints.

(** The endpoints that are destroyed. *)
Definition disconnect_all_wireless_endpoints (m_endpoints : list Z) : list Z :=
  List.filter (fun p => alive p && is_wireless p) m_endpoints.

Lemma register_once p l : alive p = true -> NoDup l -> NoDup (register_endpoint p l) /\ p ∈ register_endpoint p l /\ forall x, x ∈ l -> x ∈ register_endpoint p l.
Proof.
  intros Hp Hl. unfold register_endpoint. destruct (existsb _ l) eqn:E.
  - apply existsb_exists in E as (x & Hin & [_ ->%Z.eqb_eq]%andb_true_iff). apply list_elem_of_In in Hin. done.
  - split_and!; [|set_solver|set_solver]. apply NoDup_app. split_and!; [done| |apply NoDup_singleton]. intros x Hx ->%list_elem_of_singleton.
    apply not_true_iff_false in E. apply E, existsb_exists. exists p. split; [by apply list_elem_of_In|]. by rewrite Hp, Z.eqb_refl.
Qed.

(** The endpoints of dongles that were registered are all disconnected, and no
    other is. *)
Lemma disconnects_wireless p l : p ∈ disconnect_all_wireless_endpoints (unregister_expired_endpoints l) <-> p ∈ l /\ alive p = true /\ is_wireless p = true.
Proof.
  unfold disconnect_all_wireless_endpoints, unregister_expired_endpoints. rewrite !list_elem_of_In, !List.filter_In, andb_true_iff. tauto.
Qed.
End Endpoints.

(** ** The announcement *)

Definition property_map : Type := list (wstring * wstring).
Definition set_property (k v : wstring) (m : property_map) : property_map := (k, v) :: List.filter (fun e => negb (bool_decide (fst e = k))) m.
Definition get_property (k : wstring) (m : property_map) : option wstring := option_map snd (List.find (fun e => bool_decide (fst e = k)) m).

Section Announce.
(** [boost::uuids::to_string]. *)
Variable uuid_to_string : list Z -> wstring.

(** The line for the log reads the property with [operator[]], which makes an
    empty one where there is none. *)
Definition build_discovery_properties (service_uid : list Z) (ws_port : Z) : property_map :=
  let map := set_property (ws "uuid") (uuid_to_string service_uid) [] in
  let map := if negb (ws_port =? 0) then set_property (ws "ws-port") (dec_str ws_port) map else map in
  match get_property (ws "ws-port") map with Some _ => map | None => set_property (ws "ws-port") [] map end.

Inductive announce_effect : Type := PostAnnounce | Announce (m : property_map) | AnnounceIn (s : Z).

Definition announce_on_zeroconf : list announce_effect := [PostAnnounce].
Definition do_announce_on_zeroconf (has_socket : bool) (uid : list Z) (ws_port : Z) : list announce_effect :=
  if has_socket then [Announce (build_discovery_properties uid ws_port)] else [].
Definition on_announce_complete (ec : option Z) : list announce_effect := [AnnounceIn 5].
(** The handler of the timer does not look at its error. *)
Definition on_announce_timer (ec : option Z) (has_socket : bool) (uid : list Z) (ws_port : Z) : list announce_effect :=
  do_announce_on_zeroconf has_socket uid ws_port.

(** What is announced; without a port the property is there and empty. *)
Lemma announced_ws_port uid port :
  get_property (ws "ws-port") (build_discovery_properties uid port) = Some (if port =? 0 then [] else dec_str port) /\
  get_property (ws "uuid") (build_discovery_properties uid port) = Some (uuid_to_string uid).
Proof. unfold build_discovery_properties. by destruct (port =? 0). Qed.
End Announce.

Example announced_properties :
  build_discovery_properties (fun _ => ws "uid") [] 8597 = [(ws "ws-port", ws "8597"); (ws "uuid", ws "uid")] /\
  build_discovery_properties (fun _ => ws "uid") [] 0 = [(ws "ws-port", []); (ws "uuid", ws "uid")].
Proof. by vm_compute. Qed.

(** ** Random values

    The draws of a distribution are a list.  Node ids are drawn from 1 to
    32767; the id of a network is not 0x404f. *)
Fixpoint generate_network_id (draws : list Z) : res unit Z :=
  match draws with
  | [] => NoFuel
  | n :: draws' => if u16 n =? 0x404F then generate_network_id draws' else Ok (u16 n)
  end.

Definition generate (draw : Z) : Z := u16 draw.

(** The loop ends with the first draw that is another number. *)
Lemma network_id_drawn draws : Forall (fun n => 1 <= n <= 32767) draws -> existsb (fun n => negb (n =? 0x404F)) draws = true ->
  exists n, generate_network_id draws = Ok n /\ 1 <= n <= 32767 /\ n <> 0x404F.
Proof.
  induction 1 as [|n l Hn _ IH]; [done|]. cbn [existsb generate_network_id]. rewrite u16_id by lia.
  destruct (Z.eqb_spec n 0x404F); cbn [negb orb]; [exact IH|]. intros _. by exists n.
Qed.

Definition chars : wstring := ws "ABCDEFGHIJKLMNOPQRSTUVWXYZ1234567890".

Fixpoint password_loop (draws : list nat) (out : wstring) : res unit wstring :=
  match draws with
  | [] => Ok out
  | n :: draws' => _ ← assert_ (Nat.ltb n (List.length chars)); c ← at_ chars n; password_loop draws' (out ++ [c])
  end.

(** [generate_pasword], with the six draws from 0 to 35. *)
Definition generate_pasword (draws : list nat) : res unit wstring := password_loop draws [].

Lemma password_loop_ok draws out : Forall (fun n => n <= 35)%nat draws ->
  exists p, password_loop draws out = Ok (out ++ p) /\ List.length p = List.length draws /\ Forall (fun c => c ∈ chars) p.
Proof.
  intros Hd. revert out. induction Hd as [|n l Hn _ IH]; intros out; cbn [password_loop]; [exists []; by rewrite app_nil_r|].
  rewrite (proj2 (Nat.ltb_lt n (List.length chars))) by (change (List.length chars) with 36%nat; lia). cbn [assert_ mbind res_bind].
  destruct (lookup_lt_is_Some_2 chars n) as [c Hc]; [change (List.length chars) with 36%nat; lia|]. unfold at_. rewrite Hc. cbn [of_option mbind res_bind].
  destruct (IH (out ++ [c])) as (p & -> & Hp & Hf). exists (c :: p). rewrite <- app_assoc. split; [done|]. split; [cbn; lia|].
  constructor; [by eapply list_elem_of_lookup_2|done].
Qed.

(** [check_token]. *)
Definition check_token (token : list Z) : bool := false.

(** ** Texts *)

Definition tdm_error_message (ev : Z) : wstring :=
  match ev with
  | 1 => ws "invalid object"
  | 2 => ws "no such variable"
  | 3 => ws "incompatible variable type"
  | 4 => ws "invalid aesl"
  | 5 => ws "unsupported language"
  | _ => []
  end.

(** Other errors have the name that libusb gives them. *)
Definition usb_error_message (libusb_error_name : Z -> wstring) (ev : Z) : wstring :=
  match ev with
  | -1 => ws "i/o error"
  | -2 => ws "invalid argument"
  | -3 => ws "access denied"
  | -4 => ws "no such device"
  | -5 => ws "not found"
  | -6 => ws "busy"
  | -8 => ws "overflow"
  | -9 => ws "brocken pipe"
  | -7 => ws "timed out"
  | -10 => ws "interrupted"
  | -11 => ws "not enough memory"
  | -12 => ws "operation not supported"
  | _ => libusb_error_name ev
  end.

(** The name behind the last separator, cut to 20 characters, or filled up. *)
Fixpoint after_separator (l acc : wstring) : wstring :=
  match l with
  | [] => rev acc
  | c :: l' => if (c =? 47) || (c =? 92) then after_separator l' [] else after_separator l' (c :: acc)
  end.

Definition log_filename (path : wstring) : wstring :=
  let sw := take 20 (after_separator path []) in
  replicate (20 - List.length sw) 32 ++ sw.

(** [log]: the line that the logger gets. *)
Definition log_line (file : wstring) (line : Z) (message : wstring) : wstring :=
  log_filename file ++ ws "@L" ++ dec_str line ++ ws ":" ++ [9] ++ message.

Lemma log_filename_length path : List.length (log_filename path) = 20%nat.
Proof. unfold log_filename. rewrite length_app, length_replicate, length_take. lia. Qed.

Example log_filename_ex : log_filename (ws "/src/aseba/thymio-device-manager/app_endpoint.h") = ws "      app_endpoint.h".
Proof. reflexivity. Qed.

(** The text of a status.  The test before the access to the array never holds:
    it wants a number below zero that is not below one. *)
Definition status_number (s : status) : Z :=
  match s with connected => 1 | available => 2 | busy => 3 | ready => 4 | disconnected => 5 | upgrading => 6 end.

Definition status_strings : list wstring := [ws "connected"; ws "available"; ws "busy"; ws "ready"; ws "disconnected"; ws "upgrading"].

Definition status_to_string (s : status) : res unit wstring :=
  let i := status_number s - 1 in
  if (i <? 0) && (status_number connected <=? i) then at_ status_strings 4
  else if i <? 0 then Undef else at_ status_strings (Z.to_nat i).

Lemma status_text_known s : exists t, status_to_string s = Ok t /\ t ∈ status_strings.
Proof. destruct s; (eexists; split; [reflexivity|]); repeat (apply list_elem_of_here || apply list_elem_of_further). Qed.

Lemma status_text_inj s s' : status_to_string s = status_to_string s' -> s = s'.
Proof. by destruct s, s'. Qed.

(** ** Start-up

    main.cpp: what the process does until the loop of Boost runs, as a sequence
    of actions.  Any of them may throw; the environment says which.  The parser
    of the command line, the file system and the formatting of messages are
    given. *)
Module Startup.

Inductive level : Type := trace | debug | info | warn | err | critical.
Inductive service : Type :=
| uuid_generator | aseba_node_registery | app_token_manager | system_sleep_manager
| firmware_update_service | wireless_configurator_service.
Inductive server : Type := tcp_server | websocket_server | aseba_tcp_acceptor | usb_server | serial_server.

Inductive action : Type :=
| SetLogLevel (l : level)
| Log (l : level) (text : wstring)
| PrintError (text : wstring) | PrintOptions
| CreateLockFile | OpenLockFile | TryLock
| UniquePath | AddSignal (sig : Z) | WaitForSignals | RemoveTokenFile
| NetworkInterfaces
| MakeService (s : service)
| Construct (s : server) (port : option Z)
| SetTcpEndpoint (port : Z) | SetWsEndpoint (port : Z)
| AllowRemoteConnections (s : server) (allow : bool)
| Accept (s : server)
| AnnounceOnZeroconf
| RunLoop.

(** What a [catch] of [main] distinguishes. *)
Inductive exn : Type := SystemError (code : Z) (what : wstring) | StdException (what : wstring) | OtherException.

(** A computation continues the list of the actions done. *)
Definition Io (A : Type) : Type := list action -> res exn A * list action.
#[export] Instance Io_ret : MRet Io := fun A a t => (Ok a, t).
#[export] Instance Io_bind : MBind Io := fun A B f m t =>
  match m t with
  | (Ok a, t') => f a t'
  | (Throw e, t') => (Throw e, t') | (Crash, t') => (Crash, t') | (Undef, t') => (Undef, t') | (NoFuel, t') => (NoFuel, t')
  end.

(** The command line: [allow_remote_connections], or why there is none. *)
Inductive command : Type := Options (allow_remote_connections : bool) | Help | Invalid (what : wstring).

Section Main.
Variable throws : action -> option exn.
Variable parse_command_line : list wstring -> command.
Variable lock_file_exists lock_is_free : bool.
Variable local_ips : list (wstring * wstring).
Variable password : wstring.
Variable lock_file_path : wstring.
(** [fmt::format]; [None] when it throws. *)
Variable format : wstring -> list wstring -> option wstring.
(** MOBSYA_TDM_ENABLE_USB, MOBSYA_TDM_ENABLE_SERIAL, and the constant of errno.h. *)
Variable enable_usb enable_serial : bool.
Variable EALREADY : Z.

Definition act (a : action) : Io unit := fun t => match throws a with None => (Ok tt, t ++ [a]) | Some e => (Throw e, t) end.
Definition when (b : bool) (m : Io unit) : Io unit := if b then m else mret tt.
Fixpoint acts (l : list action) : Io unit := match l with [] => mret tt | a :: l' => _ ← act a; acts l' end.

(** [catch(const boost::system::system_error& e)]. *)
Definition catch_system {A} (m : Io A) (h : wstring -> Io A) : Io A := fun t =>
  match m t with (Throw (SystemError _ what), t') => h what t' | r => r end.

Definition ip_logs : list action :=
  List.map (fun ip => Log trace (ws "Local Ip : " ++ fst ip ++ ws " - Mask : " ++ snd ip)) local_ips.

Definition run_service (allow_remote : bool) : Io unit :=
  _ ← act NetworkInterfaces;
  _ ← acts ip_logs;
  _ ← acts [MakeService uuid_generator; MakeService aseba_node_registery; MakeService app_token_manager;
            MakeService system_sleep_manager; MakeService firmware_update_service; MakeService wireless_configurator_service];
  _ ← acts [Construct tcp_server (Some 8596); SetTcpEndpoint 8596];
  _ ← act (Construct aseba_tcp_acceptor None);
  _ ← acts [Construct websocket_server (Some 8597); SetWsEndpoint 8597];
  _ ← when enable_usb (
    usb ← catch_system (_ ← act (Construct usb_server None); mret true)
            (fun what => _ ← act (Log warn (ws "USB monitoring unavailable: " ++ what)); mret false);
    when usb (act (Accept usb_server)));
  _ ← when enable_serial (acts [Construct serial_server None; Accept serial_server]);
  _ ← act (Accept aseba_tcp_acceptor);
  _ ← acts [AllowRemoteConnections websocket_server allow_remote; Accept websocket_server];
  _ ← acts [AllowRemoteConnections tcp_server allow_remote; Accept tcp_server];
  _ ← when (negb allow_remote) (act (Log warn (ws "Remote connections are not allowed")));
  _ ← acts [Log trace (ws "=> TCP Server started on " ++ dec_str 8596); Log trace (ws "=> WS Server started on " ++ dec_str 8597);
            Log info (ws "Server Password: " ++ password)];
  acts [AnnounceOnZeroconf; RunLoop].

(** The signals have their numbers of Linux. *)
Definition start (allow_remote : bool) : Io Z :=
  _ ← act (Log info (ws "Starting..."));
  _ ← when (negb lock_file_exists) (act CreateLockFile);
  _ ← acts [OpenLockFile; TryLock];
  if negb lock_is_free then
    _ ← act (Log err (ws "Thymio Device manager seems to be already running - delete " ++ lock_file_path ++ ws " if this is not the case"));
    mret EALREADY
  else
    _ ← acts [UniquePath; AddSignal 2; AddSignal 15; AddSignal 6; WaitForSignals];
    _ ← run_service allow_remote;
    mret 0.

(** How the process ends; an exception that leaves a handler ends it. *)
Inductive ending : Type := Exit (code : Z) | Terminated.

Definition main (argv : list wstring) : ending * list action :=
  let t := [SetLogLevel info] in
  match parse_command_line argv with
  | Invalid what => (Exit 1, t ++ [PrintError (ws "invalid command line arguments: " ++ what ++ [10])])
  | Help => (Exit 1, t ++ [PrintOptions])
  | Options allow_remote =>
      match start allow_remote t with
      | (Ok code, t') => (Exit code, t')
      | (Throw (SystemError code what), t') => (Exit code, t' ++ [Log err (ws "Exception thrown: " ++ what)])
      | (Throw (StdException what), t') => (Exit 1, t' ++ [Log err (ws "Exception thrown: " ++ what)])
      | (Throw OtherException, t') =>
          match format (ws "Exception thrown: {}") [] with
          | Some text => (Exit 1, t' ++ [Log err text])
          | None => (Terminated, t')
          end
      | (_, t') => (Terminated, t')
      end
  end.

(** The handler of [sig.async_wait]. *)
Definition on_signal (sig : Z) (removal_error : option wstring) : ending * list action :=
  (Exit 0, Log warn (ws "Exiting with signal " ++ dec_str sig) :: RemoveTokenFile ::
           match removal_error with Some m => [Log warn m] | None => [] end).

(** *** The order of the actions *)

(** [m] does the actions of [l] one after the other, until one throws. *)
Definition follows {A} (m : Io A) (l : list action) : Prop := forall t, exists d,
  snd (m t) = t ++ d /\ d `prefix_of` l /\ forall a, fst (m t) = Ok a -> d = l.

Lemma follows_act a : follows (act a) [a].
Proof.
  intros t. unfold act. destruct (throws a); [exists []; rewrite app_nil_r; split_and!; [done|apply prefix_nil|discriminate]|].
  exists [a]. done.
Qed.
Lemma follows_ret {A} (a : A) : follows (mret a) [].
Proof. intros t. exists []. by rewrite app_nil_r. Qed.
Lemma follows_bind {A B} (m : Io A) (f : A -> Io B) l l' : follows m l -> (forall a, follows (f a) l') -> follows (a ← m; f a) (l ++ l').
Proof.
  intros Hm Hf t. unfold mbind, Io_bind. destruct (Hm t) as (d & Hd & Hp & Hl). destruct (m t) as [[a|e| | |] t']; simpl in Hd; subst t'.
  - rewrite (Hl a) by done. destruct (Hf a (t ++ l)) as (d' & Hd' & Hp' & Hl'). exists (l ++ d'). rewrite Hd', app_assoc.
    split_and!; [done|by apply prefix_app|]. intros b Hb. by rewrite (Hl' b Hb).
  - exists d. split_and!; [done|by apply prefix_app_r|discriminate].
  - exists d. split_and!; [done|by apply prefix_app_r|discriminate].
  - exists d. split_and!; [done|by apply prefix_app_r|discriminate].
  - exists d. split_and!; [done|by apply prefix_app_r|discriminate].
Qed.
Lemma follows_acts l : follows (acts l) l.
Proof. induction l as [|a l IH]; [apply follows_ret|]. apply (follows_bind (act a) _ [a]); [apply follows_act|done]. Qed.
Lemma follows_when b m l : follows m l -> follows (when b m) (if b then l else []).
Proof. destruct b; [done|]. intros _. apply follows_ret. Qed.

(** The actions of a start that nothing stops. *)
Definition usb_plan : list action :=
  if enable_usb then
    match throws (Construct usb_server None) with
    | Some (SystemError _ what) => [Log warn (ws "USB monitoring unavailable: " ++ what)]
    | _ => [Construct usb_server None; Accept usb_server]
    end
  else [].
Definition preparation : list action :=
  NetworkInterfaces :: ip_logs ++
  [MakeService uuid_generator; MakeService aseba_node_registery; MakeService app_token_manager;
   MakeService system_sleep_manager; MakeService firmware_update_service; MakeService wireless_configurator_service;
   Construct tcp_server (Some 8596); SetTcpEndpoint 8596; Construct aseba_tcp_acceptor None;
   Construct websocket_server (Some 8597); SetWsEndpoint 8597].
Definition opening (allow_remote : bool) : list action :=
  usb_plan ++ (if enable_serial then [Construct serial_server None; Accept serial_server] else []) ++
  [Accept aseba_tcp_acceptor; AllowRemoteConnections websocket_server allow_remote; Accept websocket_server;
   AllowRemoteConnections tcp_server allow_remote; Accept tcp_server].
Definition announcement (allow_remote : bool) : list action :=
  (if negb allow_remote then [Log warn (ws "Remote connections are not allowed")] else []) ++
  [Log trace (ws "=> TCP Server started on " ++ dec_str 8596); Log trace (ws "=> WS Server started on " ++ dec_str 8597);
   Log info (ws "Server Password: " ++ password); AnnounceOnZeroconf; RunLoop].
Definition service_plan (allow_remote : bool) : list action := preparation ++ opening allow_remote ++ announcement allow_remote.
Definition lock_plan : list action :=
  Log info (ws "Starting...") :: (if negb lock_file_exists then [CreateLockFile] else []) ++ [OpenLockFile; TryLock].
Definition start_plan (allow_remote : bool) : list action :=
  lock_plan ++
  if negb lock_is_free then
    [Log err (ws "Thymio Device manager seems to be already running - delete " ++ lock_file_path ++ ws " if this is not the case")]
  else [UniquePath; AddSignal 2; AddSignal 15; AddSignal 6; WaitForSignals] ++ service_plan allow_remote.

Lemma follows_eq {A} (m : Io A) l l' : follows m l -> l = l' -> follows m l'.
Proof. by intros H <-. Qed.

Lemma follows_usb : follows (when enable_usb (
    usb ← catch_system (_ ← act (Construct usb_server None); mret true)
            (fun what => _ ← act (Log warn (ws "USB monitoring unavailable: " ++ what)); mret false);
    when usb (act (Accept usb_server)))) usb_plan.
Proof.
  unfold usb_plan, when. destruct enable_usb; [|apply follows_ret]. intros t. unfold mbind, Io_bind, catch_system, act, mret, Io_ret.
  destruct (throws (Construct usb_server None)) as [[c w|w|]|].
  - destruct (throws (Log warn _)); simpl.
    + exists []. rewrite app_nil_r. split_and!; [done|apply prefix_nil|discriminate].
    + by eexists.
  - exists []. rewrite app_nil_r. split_and!; [done|apply prefix_nil|discriminate].
  - exists []. rewrite app_nil_r. split_and!; [done|apply prefix_nil|discriminate].
  - destruct (throws (Accept usb_server)); simpl.
    + exists [Construct usb_server None]. split_and!; [done|by exists [Accept usb_server]|discriminate].
    + exists [Construct usb_server None; Accept usb_server]. by rewrite <- app_assoc.
Qed.

Ltac follow := first [apply follows_acts | apply follows_act | apply follows_usb | apply follows_when; follow | apply follows_ret | eassumption
  | eapply follows_bind; [follow|intros ?; follow]].

Lemma follows_service allow_remote : follows (run_service allow_remote) (service_plan allow_remote).
Proof.
  unfold run_service.
  eapply follows_eq; [follow|].
  unfold service_plan, preparation, opening, announcement. simpl. by rewrite <- !app_assoc.
Qed.

Lemma follows_start allow_remote : follows (start allow_remote) (start_plan allow_remote).
Proof.
  pose proof (follows_service allow_remote) as Hs. unfold start, start_plan, lock_plan. destruct (negb lock_is_free).
  - eapply follows_eq; [follow|].
    simpl. by rewrite <- !app_assoc.
  - eapply follows_eq; [follow|].
    rewrite !app_nil_r. simpl. by rewrite <- ?app_assoc.
Qed.

Definition is_log (a : action) : bool := match a with Log _ _ => true | _ => false end.

Lemma main_trace argv allow_remote : parse_command_line argv = Options allow_remote -> exists d logs,
  snd (main argv) = d ++ logs /\ d `prefix_of` SetLogLevel info :: start_plan allow_remote /\ Forall (fun a => is_log a = true) logs.
Proof.
  intros Hp. unfold main. rewrite Hp. destruct (follows_start allow_remote [SetLogLevel info]) as (d & Hd & Hpre & _).
  destruct (start allow_remote [SetLogLevel info]) as [r t]. simpl in Hd. subst t.
  assert (forall l, Forall (fun a => is_log a = true) l -> exists d' logs, ([SetLogLevel info] ++ d) ++ l = d' ++ logs /\
    d' `prefix_of` SetLogLevel info :: start_plan allow_remote /\ Forall (fun a => is_log a = true) logs) as H.
  { intros l Hl. exists ([SetLogLevel info] ++ d), l. split_and!; [done|by apply (prefix_app [_])|done]. }
  destruct r as [code|[code what|what|]| | |]; cbn [snd].
  2,3: apply H; by repeat constructor.
  2: destruct (format _ _); cbn [snd]; [apply H; by repeat constructor|].
  all: destruct (H [] ltac:(constructor)) as (d' & logs & H1 & H2); exists d', logs; by rewrite app_nil_r in H1.
Qed.

(** Nothing of the kind [b] happens before [a]. *)
Definition before (a b : action) (t : list action) : Prop := forall pre post, t = pre ++ b :: post -> a ∈ pre.

Lemma split_before (a b : action) l l' pre k : l ++ a :: l' = pre ++ b :: k -> b <> a -> b ∉ l -> a ∈ pre.
Proof.
  intros H Hne Hl. apply app_eq_app in H as (g & [[-> H]|[-> H]]); (destruct g as [|y g]; [by injection H|]).
  - injection H as H1 _. destruct Hl. apply elem_of_app. right. rewrite <- H1. apply list_elem_of_here.
  - injection H as H1 _. apply elem_of_app. right. rewrite H1. apply list_elem_of_here.
Qed.

Lemma before_trace a b l l' d logs : b ∉ l -> b <> a -> is_log b = false ->
  d `prefix_of` l ++ a :: l' -> Forall (fun x => is_log x = true) logs -> before a b (d ++ logs).
Proof.
  intros Hl Hne Hb [k Hk] Hlogs pre post E.
  assert (b ∉ logs) as Hbl by (intros Hin; rewrite Forall_forall in Hlogs; specialize (Hlogs b Hin); congruence).
  apply app_eq_app in E as (e & [[-> E]|[-> ->]]); [|destruct Hbl; apply elem_of_app; right; apply list_elem_of_here].
  destruct e as [|x e]; [simpl in E; subst logs; destruct Hbl; apply list_elem_of_here|].
  injection E as <- ->. rewrite <- app_assoc in Hk. by eapply split_before.
Qed.

Lemma logs_out b : is_log b = false -> b ∉ ip_logs.
Proof. intros Hb (ip & <- & _)%list_elem_of_In%in_map_iff. discriminate Hb. Qed.

Lemma usb_out b : is_log b = false -> b <> Construct usb_server None -> b <> Accept usb_server -> b ∉ usb_plan.
Proof.
  intros H1 H2 H3. unfold usb_plan. destruct enable_usb; [|apply not_elem_of_nil].
  destruct (throws _) as [[]|]; repeat (apply not_elem_of_cons; split); try apply not_elem_of_nil; first [exact H2|exact H3|intros ->; discriminate H1].
Qed.

(** That an action is not among some others. *)
Ltac absent := repeat match goal with
  | |- _ ∉ [] => apply not_elem_of_nil
  | |- _ ∉ _ ++ _ => apply not_elem_of_app; split
  | |- _ ∉ _ :: _ => apply not_elem_of_cons; split; [discriminate|]
  | |- _ ∉ ip_logs => by apply logs_out
  | |- _ ∉ usb_plan => by apply usb_out
  | |- _ ∉ (if ?x then _ else _) => destruct x
  end.

(** Without the lock only the log is written. *)
Lemma locked_plan allow_remote b : lock_is_free = false -> b ∈ SetLogLevel info :: start_plan allow_remote ->
  is_log b = true \/ b ∈ [SetLogLevel info; CreateLockFile; OpenLockFile; TryLock].
Proof.
  intros Hl. unfold start_plan, lock_plan. rewrite Hl. destruct lock_file_exists; simpl;
    rewrite !elem_of_cons, elem_of_nil; intros H; decompose [or] H; subst; try tauto; auto.
Qed.

(** What the servers are told. *)
Definition allows (allow : bool) (a : action) : Prop := match a with AllowRemoteConnections _ b => b = allow | _ => True end.

Lemma plan_allows allow_remote : Forall (allows allow_remote) (SetLogLevel info :: start_plan allow_remote).
Proof.
  unfold start_plan, service_plan, lock_plan, preparation, opening, announcement, usb_plan.
  repeat match goal with
  | |- Forall _ [] => constructor
  | |- Forall _ (_ ++ _) => apply Forall_app; split
  | |- Forall _ (_ :: _) => constructor; [done|]
  | |- Forall _ ip_logs => apply Forall_forall; intros ? (? & <- & _)%list_elem_of_In%in_map_iff; exact I
  | |- Forall _ (if ?x then _ else _) => destruct x
  | |- Forall _ (match ?x with _ => _ end) => destruct x
  end.
Qed.

Section Order.
Variables (argv : list wstring) (allow_remote : bool).
Hypothesis parsed : parse_command_line argv = Options allow_remote.

Lemma main_elem b : b ∈ snd (main argv) -> is_log b = true \/ b ∈ SetLogLevel info :: start_plan allow_remote.
Proof.
  destruct (main_trace _ _ parsed) as (d & logs & -> & [k ->] & Hlogs). intros [Hb|Hb]%elem_of_app.
  - right. apply elem_of_app. by left.
  - left. rewrite Forall_forall in Hlogs. by apply Hlogs.
Qed.

(** The position of an action in the plan decides what comes after it. *)
Lemma ordered a b l l' : service_plan allow_remote = l ++ a :: l' -> b ∉ l -> b <> a -> is_log b = false ->
  b ∉ [SetLogLevel info; CreateLockFile; OpenLockFile; TryLock; UniquePath; AddSignal 2; AddSignal 15; AddSignal 6; WaitForSignals] ->
  before a b (snd (main argv)).
Proof.
  intros E Hl Hne Hb Hpre. repeat (apply not_elem_of_cons in Hpre as [? Hpre]). destruct lock_is_free eqn:Hlock.
  - destruct (main_trace _ _ parsed) as (d & logs & -> & Hp & Hlogs). unfold start_plan, lock_plan in Hp. rewrite Hlock, E in Hp.
    cbn [negb] in Hp. rewrite app_comm_cons, !app_assoc in Hp. eapply before_trace; [|exact Hne|exact Hb|exact Hp|exact Hlogs].
    repeat (apply not_elem_of_app; split); try done; destruct lock_file_exists; simpl;
      repeat (apply not_elem_of_cons; split); try apply not_elem_of_nil; try assumption; intros ->; discriminate Hb.
  - intros pre post Ht. destruct (main_elem b) as [H'|H']; [rewrite Ht; apply elem_of_app; right; apply list_elem_of_here|congruence|].
    apply locked_plan in H' as [H'|H']; [congruence| |exact Hlock]. rewrite !elem_of_cons, elem_of_nil in H'. tauto.
Qed.

Lemma ordered_split a b l l' : opening allow_remote ++ announcement allow_remote = l ++ a :: l' ->
  b ∉ l -> is_log b = false -> b <> a ->
  b ∉ [SetLogLevel info; CreateLockFile; OpenLockFile; TryLock; UniquePath; AddSignal 2; AddSignal 15; AddSignal 6; WaitForSignals] ->
  b ∉ preparation -> before a b (snd (main argv)).
Proof.
  intros E Hl Hb Hne Hpre Hprep. apply (ordered _ _ (preparation ++ l) l'); try done.
  - unfold service_plan. by rewrite E, app_assoc.
  - apply not_elem_of_app. by split.
Qed.

Lemma allow_before_accept s : s = tcp_server \/ s = websocket_server ->
  before (AllowRemoteConnections s allow_remote) (Accept s) (snd (main argv)).
Proof.
  set (serial := if enable_serial then [Construct serial_server None; Accept serial_server] else []).
  intros [-> | ->].
  - eapply (ordered _ _ (preparation ++ usb_plan ++ serial ++ [Accept aseba_tcp_acceptor; AllowRemoteConnections websocket_server allow_remote; Accept websocket_server]));
      [unfold service_plan, opening; subst serial; by rewrite <- !app_assoc|subst serial; unfold preparation; absent|done|done|absent].
  - eapply (ordered _ _ (preparation ++ usb_plan ++ serial ++ [Accept aseba_tcp_acceptor]));
      [unfold service_plan, opening; subst serial; by rewrite <- !app_assoc|subst serial; unfold preparation; absent|done|done|absent].
Qed.

(** What the opening does is done before the announcement. *)
Lemma opened_before_announce a : a ∈ opening allow_remote -> before a AnnounceOnZeroconf (snd (main argv)).
Proof.
  intros Hin. assert (AnnounceOnZeroconf ∉ opening allow_remote) as Hout by (unfold opening; absent).
  assert (AnnounceOnZeroconf <> a) as Hne by by intros <-.
  apply list_elem_of_split in Hin as (l & l' & E). rewrite E in Hout. apply not_elem_of_app in Hout as [Hout _].
  apply (ordered_split _ _ l (l' ++ announcement allow_remote)); [by rewrite E, <- app_assoc|done|done|done|absent|unfold preparation; absent].
Qed.

Lemma accept_before_announce s : s ∈ [tcp_server; websocket_server; aseba_tcp_acceptor] \/ s = serial_server /\ enable_serial = true ->
  before (Accept s) AnnounceOnZeroconf (snd (main argv)).
Proof.
  intros H. apply opened_before_announce. unfold opening. rewrite !elem_of_app. right. rewrite !elem_of_cons in H.
  destruct H as [[->|[->|[->|H]]]|[-> ->]].
  1-3: right; repeat first [apply list_elem_of_here|apply list_elem_of_further].
  - by apply elem_of_nil in H.
  - left. apply list_elem_of_further, list_elem_of_here.
Qed.

(** The USB server accepts before the announcement, or a warning says that it
    never will. *)
Lemma usb_before_announce : enable_usb = true ->
  match throws (Construct usb_server None) with
  | Some (SystemError _ what) => before (Log warn (ws "USB monitoring unavailable: " ++ what)) AnnounceOnZeroconf (snd (main argv))
  | _ => before (Accept usb_server) AnnounceOnZeroconf (snd (main argv))
  end.
Proof.
  intros Hu. destruct (throws (Construct usb_server None)) as [[]|] eqn:Et;
    apply opened_before_announce; unfold opening, usb_plan; rewrite Hu, Et; apply elem_of_app; left;
    repeat first [apply list_elem_of_here|apply list_elem_of_further].
Qed.

Lemma announce_before_run : before AnnounceOnZeroconf RunLoop (snd (main argv)).
Proof.
  eapply (ordered _ _ (preparation ++ opening allow_remote ++ (if negb allow_remote then _ else []) ++ [_; _; _]));
    [unfold service_plan, announcement; rewrite <- !app_assoc; reflexivity|unfold preparation, opening; absent|done|done|absent].
Qed.

Lemma registry_before_firmware : before (MakeService aseba_node_registery) (MakeService firmware_update_service) (snd (main argv)).
Proof.
  eapply (ordered _ _ (NetworkInterfaces :: ip_logs ++ [MakeService uuid_generator]));
    [unfold service_plan, preparation; simpl; by rewrite <- !app_assoc|absent|done|done|absent].
Qed.

(** When nothing fails, everything is done. *)
Section Quiet.
Hypothesis quiet_throws : forall a, throws a = None.
Definition quiet {A} (m : Io A) : Prop := forall t, exists a, fst (m t) = Ok a.

Lemma quiet_act a : quiet (act a).
Proof. intros t. unfold act. rewrite quiet_throws. by eexists. Qed.
Lemma quiet_ret {A} (a : A) : quiet (mret a).
Proof. by eexists. Qed.
Lemma quiet_bind {A B} (m : Io A) (f : A -> Io B) : quiet m -> (forall a, quiet (f a)) -> quiet (a ← m; f a).
Proof.
  intros Hm Hf t. unfold mbind, Io_bind. destruct (Hm t) as [a Ha]. destruct (m t) as [r t']. simpl in Ha. subst r. apply Hf.
Qed.
Lemma quiet_catch {A} (m : Io A) h : quiet m -> quiet (catch_system m h).
Proof. intros Hm t. unfold catch_system. destruct (Hm t) as [a Ha]. destruct (m t) as [r t']. simpl in Ha. subst r. by eexists. Qed.
Lemma quiet_acts l : quiet (acts l).
Proof. induction l; [apply quiet_ret|]. apply quiet_bind; [apply quiet_act|done]. Qed.
Lemma quiet_when b m : quiet m -> quiet (when b m).
Proof. destruct b; [done|]. intros _. apply quiet_ret. Qed.

Ltac quiet := first [apply quiet_acts | apply quiet_act | apply quiet_ret | apply quiet_when; quiet | apply quiet_catch; quiet
  | apply quiet_bind; [quiet|intros ?; quiet]].

Lemma quiet_start : quiet (start allow_remote).
Proof. unfold start, run_service. destruct (negb lock_is_free); quiet. Qed.

Lemma everything_done : snd (main argv) = SetLogLevel info :: start_plan allow_remote.
Proof.
  unfold main. rewrite parsed. destruct (follows_start allow_remote [SetLogLevel info]) as (d & Hd & _ & Hl).
  destruct (quiet_start [SetLogLevel info]) as [c Hc]. rewrite Hc in Hl. specialize (Hl c eq_refl). subst d.
  destruct (start _ _) as [r t]. simpl in Hc, Hd. by subst.
Qed.
End Quiet.
End Order.

(** C28: the start of the service is in order.  Whatever fails on the way, the
    servers for applications take connections only after they have been told
    whether those from other machines are allowed, and it is the command line
    that says so.  The service is announced on the network only once the servers
    for applications, the acceptor for robots on the network and, where they are
    built in, the servers for robots over serial ports and over USB accept; only
    when the USB server cannot be made (libusb does not start) the service is
    announced without it, after a warning.  The loop runs after the
    announcement; the service of firmwares is made after the registry it needs.
    A second instance, which does not get the lock, makes and opens nothing, and
    says so with its exit code; the first one gets to the loop when nothing
    fails. *)
Theorem startup_in_order argv allow_remote :
  parse_command_line argv = Options allow_remote ->
  let t := snd (main argv) in
  (forall s, s = tcp_server \/ s = websocket_server -> before (AllowRemoteConnections s allow_remote) (Accept s) t) /\
  (forall s allow, AllowRemoteConnections s allow ∈ t -> allow = allow_remote) /\
  (forall s, s ∈ [tcp_server; websocket_server; aseba_tcp_acceptor] \/ s = serial_server /\ enable_serial = true ->
     before (Accept s) AnnounceOnZeroconf t) /\
  (enable_usb = true ->
     match throws (Construct usb_server None) with
     | Some (SystemError _ what) => before (Log warn (ws "USB monitoring unavailable: " ++ what)) AnnounceOnZeroconf t
     | _ => before (Accept usb_server) AnnounceOnZeroconf t
     end) /\
  before AnnounceOnZeroconf RunLoop t /\
  before (MakeService aseba_node_registery) (MakeService firmware_update_service) t /\
  (lock_is_free = false ->
     (forall b, b ∈ t -> is_log b = true \/ b ∈ [SetLogLevel info; CreateLockFile; OpenLockFile; TryLock]) /\
     ((forall a, throws a = None) -> fst (main argv) = Exit EALREADY)) /\
  (lock_is_free = true -> (forall a, throws a = None) -> RunLoop ∈ t).
Proof.
  intros Hp t. split_and!.
  - intros s. by apply (allow_before_accept _ _ Hp).
  - intros s allow Hin. apply (main_elem _ _ Hp) in Hin as [H|H]; [discriminate H|].
    pose proof (plan_allows allow_remote) as Ha. rewrite Forall_forall in Ha. by apply (Ha _ H).
  - intros s. by apply (accept_before_announce _ _ Hp).
  - exact (usb_before_announce _ _ Hp).
  - exact (announce_before_run _ _ Hp).
  - exact (registry_before_firmware _ _ Hp).
  - intros Hl. split.
    + intros b Hb. apply (main_elem _ _ Hp) in Hb as [Hb|Hb]; [by left|by eapply locked_plan].
    + intros Hn. unfold main. rewrite Hp. unfold start, when. rewrite Hl. unfold mbind, Io_bind, act, mret, Io_ret. cbn [negb acts].
      rewrite !Hn. destruct lock_file_exists; cbn; unfold mbind, Io_bind, act, mret, Io_ret; by rewrite !Hn.
  - intros Hl Hn. subst t. rewrite (everything_done _ _ Hp Hn). unfold start_plan, service_plan, announcement. rewrite Hl. cbn [negb].
    apply list_elem_of_further. repeat (apply elem_of_app; right). do 4 apply list_elem_of_further. apply list_elem_of_here.
Qed.
End Main.

(** A start of which the loop ends, on a machine without USB. *)
Definition sample_main := main (fun a => match a with Construct usb_server _ => Some (SystemError 5 (ws "no usb")) | _ => None end)
  (fun argv => Options (bool_decide (argv = [ws "--allow-remote-connections"]))) false true [(ws "10.0.0.1", ws "255.0.0.0")] (ws "ABCDEF") (ws "/tmp/lock")
  (fun _ _ => None) true true 114.

Lemma startup_in_order_witness :
  before (AllowRemoteConnections tcp_server true) (Accept tcp_server) (snd (sample_main [ws "--allow-remote-connections"])) /\
  Accept tcp_server ∈ snd (sample_main [ws "--allow-remote-connections"]).
Proof.
  split; [|vm_compute; do 28 apply list_elem_of_further; repeat first [apply list_elem_of_here|apply list_elem_of_further]].
  apply (startup_in_order _ _ false true [(ws "10.0.0.1", ws "255.0.0.0")] (ws "ABCDEF") (ws "/tmp/lock") (fun _ _ => None) true true 114
    [ws "--allow-remote-connections"] true); [reflexivity|by left].
Defined.

(** The last handlers of [main] log a message with a placeholder and no
    argument.  Formatting it throws, which no handler catches: such an
    exception ends the process instead of making it exit with 1. *)
Lemma other_exception_terminates throws parse existing free ips password path format usb serial EALREADY argv allow :
  parse argv = Options allow -> format (ws "Exception thrown: {}") [] = None ->
  throws (Log info (ws "Starting...")) = Some OtherException ->
  fst (main throws parse existing free ips password path format usb serial EALREADY argv) = Terminated.
Proof. intros Hp Hf Ht. unfold main. rewrite Hp. unfold start, mbind, Io_bind, act at 1. by rewrite Ht, Hf. Qed.
End Startup.
