(* ===== verification/Flex.v ===== *)
(** * Values in the buffers of applications

    property_flexbuffer.cpp: a value becomes calls of the builder of the library
    flexbuffers, and a reference into a buffer becomes a value; and the rest of
    property.h: the members that change a value, the comparisons with numbers,
    and the text of a value.  The library is a class; what its documentation
    says of it is a record of laws. *)
From Stdlib Require Import ZArith Lia List String SpecFloat.
From stdpp Require Import base list.
From S2P Require Import Prelude OrdMap Errors Property.

Local Open Scope Z_scope.

(** ** The library *)

(** The calls of a builder. *)
Inductive call : Type :=
| BNull | BBool (b : bool) | BInt (z : Z) | BDouble (d : double) | BString (s : list Z)
| StartVector | EndVector (typed fixed : bool)
| StartMap | BKey (k : list Z) | EndMap
| Finish.

Class Flexbuffers (R : Type) : Type := {
  IsIntOrUint : R -> bool; IsFloat : R -> bool; IsBool : R -> bool; IsNull : R -> bool;
  IsString : R -> bool; IsVector : R -> bool; IsMap : R -> bool;
  AsInt64 : R -> Z; AsDouble : R -> double; AsBool : R -> bool; AsString : R -> list Z;
  AsVector : R -> list R;
  Keys : R -> list (option (list Z));
  at_key : R -> list Z -> R
}.

(** ** Conversions *)

Fixpoint serialize_to_flexbuffer (p : property) : list call :=
  match p with
  | Null => [BNull]
  | Bool b => [BBool b]
  | Integral z => [BInt z]
  | Floating d => [BDouble d]
  | Str s => [BString s]
  | Array l => StartVector :: List.flat_map serialize_to_flexbuffer l ++ [EndVector false false]
  | Object m => StartMap :: List.flat_map (fun e => BKey (fst e) :: serialize_to_flexbuffer (snd e)) m ++ [EndMap]
  end.

Definition property_to_flexbuffer (p : property) : list call := serialize_to_flexbuffer p ++ [Finish].

(** The string up to its first zero: [c_str()]. *)
Fixpoint c_str (l : list Z) : list Z := match l with c :: l' => if c =? 0 then [] else c :: c_str l' | [] => [] end.

Section Read.
Context {R : Type} {F : Flexbuffers R}.

Section Elements.
Variable convert : R -> res variant_error (property + error_code).

Fixpoint read_elements (l : list R) : res variant_error (list property + error_code) :=
  match l with
  | [] => Ok (inl [])
  | r :: l' =>
      p ← convert r;
      match p with
      | inr e => Ok (inr e)
      | inl p => rest ← read_elements l'; Ok (match rest with inl ps => inl (p :: ps) | inr e => inr e end)
      end
  end.

Fixpoint read_members (r : R) (keys : list (option (list Z))) (o : list (list Z * property)) : res variant_error (list (list Z * property) + error_code) :=
  match keys with
  | [] => Ok (inl o)
  | None :: _ => Ok (inr invalid_object)
  | Some k :: keys' =>
      p ← convert (at_key r k);
      match p with
      | inr e => Ok (inr e)
      | inl p => read_members r keys' (List.filter (fun e => negb (bool_decide (fst e = k))) o ++ [(k, p)])
      end
  end.
End Elements.

(** [fuel] bounds the depth of the value.  A [bool] that is converted to a
    property is an integral type, and becomes an integer. *)
Fixpoint flexbuffer_to_property (fuel : nat) (r : R) : res variant_error (property + error_code) :=
  match fuel with
  | O => NoFuel
  | S fuel =>
      if IsIntOrUint r then Ok (inl (Integral (AsInt64 r)))
      else if IsFloat r then Ok (inl (Floating (AsDouble r)))
      else if IsBool r then Ok (inl (Integral (if AsBool r then 1 else 0)))
      else if IsNull r then Ok (inl Null)
      else if IsString r then Ok (inl (Str (c_str (AsString r))))
      else if IsVector r then
        l ← read_elements (flexbuffer_to_property fuel) (AsVector r);
        Ok (match l with inl l => inl (Array l) | inr e => inr e end)
      else if IsMap r then
        o ← read_members (flexbuffer_to_property fuel) r (Keys r) [];
        Ok (match o with inl o => inl (Object o) | inr e => inr e end)
      else Ok (inr invalid_object)
  end.
End Read.

(** ** The rest of property.h *)

(** [operator[]] of a value that can change: another kind of value becomes an
    empty array or object first.  An index behind the end is undefined; a key
    that is missing gets null. *)
Definition index_mut (p : property) (i : nat) : property * res variant_error property :=
  let l := match p with Array l => l | _ => [] end in
  (Array l, match l !! i with Some e => Ok e | None => Crash end).

Definition key_mut (p : property) (k : list Z) : property * property :=
  let m := match p with Object m => m | _ => [] end in
  match List.find (fun e => bool_decide (fst e = k)) m with
  | Some (_, v) => (Object m, v)
  | None => (Object (m ++ [(k, Null)]), Null)
  end.

Definition of_int (z : Z) : double := binary_normalize 53 1024 z 0 false.

(** The conversion to a floating type, and the comparisons with numbers. *)
Definition to_floating (p : property) : res variant_error double :=
  match p with Floating d => Ok d | Integral z => Ok (of_int z) | _ => Throw bad_variant_access end.
Definition equal_double (p : property) (d : double) : res variant_error bool :=
  x ← to_floating p; Ok (SFeqb x d).
Definition equal_integer (p : property) (z : Z) : res variant_error bool :=
  match p with Integral x => Ok (x =? z) | Floating d => Ok (SFeqb d (of_int z)) | _ => Throw bad_variant_access end.

(** The text of a value; the text of a floating number is the library's. *)
Section Text.
Variable show_double : double -> list Z.

Fixpoint join (l : list (list Z)) : list Z :=
  match l with
  | [] => []
  | [x] => x
  | x :: l' => x ++ ws ", " ++ join l'
  end.

Fixpoint print (p : property) : list Z :=
  match p with
  | Null => ws "null"
  | Bool b => if b then ws "true" else ws "false"
  | Integral z => dec_str z
  | Floating d => show_double d
  | Str s => [34] ++ s ++ [34]
  | Array l => [91] ++ join (List.map print l) ++ [93]
  | Object m => [123] ++ join (List.map (fun e => [34] ++ fst e ++ [34] ++ ws " : " ++ print (snd e)) m) ++ [125]
  end.
End Text.

Example print_ex : print (fun _ => []) (Object [(ws "a", Array [Integral (-3); Null]); (ws "b", Bool true)]) = ws "{" ++ [34] ++ ws "a" ++ [34] ++ ws " : [-3, null], " ++ [34] ++ ws "b" ++ [34] ++ ws " : true}".
Proof. vm_compute. reflexivity. Qed.

(** ** Round trip *)

Section RoundTrip.
Context {R : Type} {F : Flexbuffers R}.
(** The calls that build a value, and the reference to it. *)
Variable builds : list call -> R -> Prop.

(** The documentation of the library: a reference has the type and the content
    that were built. *)
Record flexbuffers_laws : Prop := {
  null_law r : builds [BNull] r -> IsIntOrUint r = false /\ IsFloat r = false /\ IsBool r = false /\ IsNull r = true;
  int_law z r : builds [BInt z] r -> IsIntOrUint r = true /\ AsInt64 r = z;
  double_law d r : builds [BDouble d] r -> IsIntOrUint r = false /\ IsFloat r = true /\ AsDouble r = d;
  string_law s r : builds [BString s] r -> IsIntOrUint r = false /\ IsFloat r = false /\ IsBool r = false /\ IsNull r = false /\ IsString r = true /\ AsString r = s;
  vector_law cs r : builds (StartVector :: concat cs ++ [EndVector false false]) r -> Forall (fun c => exists p, c = serialize_to_flexbuffer p) cs ->
    IsIntOrUint r = false /\ IsFloat r = false /\ IsBool r = false /\ IsNull r = false /\ IsString r = false /\ IsVector r = true /\ Forall2 builds cs (AsVector r)
}.

(** Values without booleans and objects, whose strings have no zero. *)
Fixpoint plain (p : property) : bool :=
  match p with
  | Null | Integral _ | Floating _ => true
  | Str s => forallb (fun c => negb (c =? 0)) s
  | Array l => forallb plain l
  | Bool _ | Object _ => false
  end.

Fixpoint depth (p : property) : nat :=
  match p with Array l => S (list_max (List.map depth l)) | _ => 1%nat end.

Lemma c_str_id s : forallb (fun c => negb (c =? 0)) s = true -> c_str s = s.
Proof. induction s as [|c s IH]; [done|]. cbn. destruct (c =? 0); [done|]. cbn. intros H. by rewrite IH. Qed.

(** A plain value that is written is read back. *)
Lemma flexbuffer_read (L : flexbuffers_laws) p r n : plain p = true -> builds (serialize_to_flexbuffer p) r -> (depth p <= n)%nat ->
  flexbuffer_to_property n r = Ok (inl p).
Proof.
  revert p r. induction n as [|n IH]; intros p r Hp Hr Hn; [destruct p; cbn in Hn; lia|]. cbn [flexbuffer_to_property].
  destruct p as [|b|z|d|s|l|m]; try discriminate Hp.
  - by destruct (null_law L r Hr) as (-> & -> & -> & ->).
  - by destruct (int_law L z r Hr) as (-> & ->).
  - by destruct (double_law L d r Hr) as (-> & -> & ->).
  - destruct (string_law L s r Hr) as (-> & -> & -> & -> & -> & ->). by rewrite c_str_id.
  - cbn [serialize_to_flexbuffer] in Hr. rewrite List.flat_map_concat_map in Hr.
    destruct (vector_law L _ r Hr) as (-> & -> & -> & -> & -> & -> & Hv).
    { apply List.Forall_forall. intros c (p & <- & _)%List.in_map_iff. by exists p. }
    assert (read_elements (flexbuffer_to_property n) (AsVector r) = Ok (inl l)) as ->; [|done].
    cbn [plain depth] in Hp, Hn. clear Hr. revert Hp Hn Hv. generalize (AsVector r). induction l as [|p l IHl]; intros rs Hp Hn Hv; inversion Hv as [|? r' ? rs' H1 H2]; subst; [done|].
    change (S (Nat.max (depth p) (list_max (List.map depth l))) <= S n)%nat in Hn.
    cbn [forallb] in Hp. apply andb_true_iff in Hp as [Hp1 Hp2]. cbn [read_elements].
    rewrite (IH p r' Hp1 H1) by lia. cbn [mbind res_bind].
    by rewrite (IHl rs' Hp2 ltac:(lia) H2).
Qed.
End RoundTrip.

(** *** An instance: the references are the values that were built *)

Inductive flex : Type := FNull | FBool (b : bool) | FInt (z : Z) | FDouble (d : double) | FString (s : list Z) | FVector (l : list flex) | FMap (m : list (list Z * flex)).

(** [IsVector] holds of a map, too. *)
#[export] Instance flex_library : Flexbuffers flex := {
  IsIntOrUint r := match r with FInt _ => true | _ => false end;
  IsFloat r := match r with FDouble _ => true | _ => false end;
  IsBool r := match r with FBool _ => true | _ => false end;
  IsNull r := match r with FNull => true | _ => false end;
  IsString r := match r with FString _ => true | _ => false end;
  IsVector r := match r with FVector _ | FMap _ => true | _ => false end;
  IsMap r := match r with FMap _ => true | _ => false end;
  AsInt64 r := match r with FInt z => z | _ => 0 end;
  AsDouble r := match r with FDouble d => d | _ => S754_nan end;
  AsBool r := match r with FBool b => b | _ => false end;
  AsString r := match r with FString s => s | _ => [] end;
  AsVector r := match r with FVector l => l | FMap m => List.map snd m | _ => [] end;
  Keys r := match r with FMap m => List.map (fun e => Some (fst e)) m | _ => [] end;
  at_key r k := match r with FMap m => match List.find (fun e => bool_decide (fst e = k)) m with Some (_, v) => v | None => FNull end | _ => FNull end
}.

Fixpoint flex_of (p : property) : flex :=
  match p with
  | Null => FNull | Bool b => FBool b | Integral z => FInt z | Floating d => FDouble d | Str s => FString s
  | Array l => FVector (List.map flex_of l)
  | Object m => FMap (List.map (fun e => (fst e, flex_of (snd e))) m)
  end.

(** Objects come back as arrays, and booleans as numbers. *)
Example object_becomes_array : flexbuffer_to_property 9 (flex_of (Object [(ws "a", Integral 1); (ws "b", Bool true)])) = Ok (inl (Array [Integral 1; Integral 1])).
Proof. reflexivity. Qed.

Example nested_value : flexbuffer_to_property 9 (flex_of (Array [Integral 1; Array [Str (ws "x"); Null]])) = Ok (inl (Array [Integral 1; Array [Str (ws "x"); Null]])).
Proof. reflexivity. Qed.

(** The calls of a value tell where it ends. *)
Definition opens (c : call) : bool := match c with EndVector _ _ | EndMap | BKey _ | Finish => false | _ => true end.

Lemma serialize_opens p : exists c cs, serialize_to_flexbuffer p = c :: cs /\ opens c = true.
Proof. destruct p; cbn; eauto. Qed.

Lemma serialize_head p x c y : serialize_to_flexbuffer p ++ x = c :: y -> opens c = true.
Proof. destruct (serialize_opens p) as (c' & cs & -> & Hc). by intros [= <- _]. Qed.

Lemma serialize_prefix : forall p q x y, serialize_to_flexbuffer p ++ x = serialize_to_flexbuffer q ++ y -> p = q /\ x = y.
Proof.
  fix IH 1. intros p q x y. destruct p as [|b|z|d|s|l|m], q as [|b'|z'|d'|s'|l'|m']; cbn [serialize_to_flexbuffer app]; try (intros [=]; by subst); intros [= H].
  - assert (forall l' x y, List.flat_map serialize_to_flexbuffer l ++ EndVector false false :: x = List.flat_map serialize_to_flexbuffer l' ++ EndVector false false :: y -> l = l' /\ x = y) as Hl.
    { clear H l' x y. induction l as [|p l IHl]; intros [|q l'] x y; cbn [List.flat_map app]; rewrite <- ?app_assoc.
      - by intros [= ->].
      - intros H. symmetry in H. by apply serialize_head in H.
      - intros H. by apply serialize_head in H.
      - intros [-> H]%IH. by apply IHl in H as [-> ->]. }
    rewrite <- !app_assoc in H. by apply Hl in H as [-> ->].
  - assert (forall m' x y, List.flat_map (fun e => BKey (fst e) :: serialize_to_flexbuffer (snd e)) m ++ EndMap :: x
                         = List.flat_map (fun e => BKey (fst e) :: serialize_to_flexbuffer (snd e)) m' ++ EndMap :: y -> m = m' /\ x = y) as Hm.
    { clear H m' x y. induction m as [|[k p] m IHm]; intros [|[k' q] m'] x y; cbn [List.flat_map app fst snd]; rewrite <- ?app_assoc; try done.
      - by intros [= ->].
      - intros [= -> [-> H]%IH]. by apply IHm in H as [-> ->]. }
    rewrite <- !app_assoc in H. by apply Hm in H as [-> ->].
Qed.

Lemma serialize_inj p q : serialize_to_flexbuffer p = serialize_to_flexbuffer q -> p = q.
Proof. intros H. by apply (serialize_prefix p q [] []); rewrite !app_nil_r. Qed.

(** The instance keeps the laws. *)
Definition built (c : list call) (r : flex) : Prop := exists p, c = serialize_to_flexbuffer p /\ r = flex_of p.

Lemma built_laws : flexbuffers_laws built.
Proof.
  split.
  - by intros r (p & <-%(serialize_inj Null) & ->).
  - by intros z r (p & <-%(serialize_inj (Integral z)) & ->).
  - by intros d r (p & <-%(serialize_inj (Floating d)) & ->).
  - by intros s r (p & <-%(serialize_inj (Str s)) & ->).
  - intros cs r (p & Hp & ->) Hcs. assert (exists l, cs = List.map serialize_to_flexbuffer l) as [l ->].
    { clear Hp. induction Hcs as [|c cs [q ->] _ [l ->]]; [by exists []|by exists (q :: l)]. }
    rewrite <- List.flat_map_concat_map in Hp. apply (serialize_inj (Array l)) in Hp as <-. split_and!; [done..|]. cbn.
    clear Hcs. induction l as [|q l IH]; [constructor|]. cbn. constructor; [by exists q|exact IH].
Qed.

Lemma flexbuffer_read_witness :
  flexbuffer_to_property 3 (flex_of (Array [Integral 1; Array [Str (ws "x"); Null]])) = Ok (inl (Array [Integral 1; Array [Str (ws "x"); Null]])).
Proof. apply (flexbuffer_read built built_laws); [reflexivity|by eexists|cbn; lia]. Defined.
