(* ===== verification/AppMessages.v ===== *)
(** * Messages between applications and the manager

    aseba/flatbuffers/thymio.fbs as far as app_endpoint.h uses it,
    thymio-device-manager/node_id.h and flatbuffers_messages.h.  A table is a
    constructor with its fields; a field that may be missing is an option.  The
    layout of a buffer and flexbuffers, in which values are packed, belong to a
    library: [flexbuffer_to_property] is a parameter. *)
From Stdlib Require Import ZArith Lia List String.
From stdpp Require Import base list list_monad.
From S2P Require Import Prelude Consts OrdMap Bits Target Utils Errors Property Node NodeCode Group.

Local Open Scope Z_scope.

(** ** Identifiers *)

(** A field of the type [NodeId]: the table may be missing, and its vector. *)
Definition fb_node_id : Type := option (option (list Z)).

(** [node_id] of a table: the fields are not tested; a vector of
    another size leaves the value without initialization. *)
Definition node_id (uninitialized_id : list Z) (id : fb_node_id) : res runtime_error (list Z) :=
  match id with
  | Some (Some d) => Ok (if (List.length d =? 16)%nat then d else uninitialized_id)
  | Some None | None => Crash
  end.

(** ** Enumerations *)

Module ErrorType.
Inductive t : Type :=
| no_error | unknown_error | unknown_node | node_busy | unsupported_variable_type
| thymio2_pairing_write_dongle_failed | thymio2_pairing_write_robot_failed.
End ErrorType.

(** [WatchableInfo], [NodeCapability], [CompilationOptions] and the bits of
    [application_endpoint::EndPointType]. *)
Inductive WatchableInfo : Type := WVariables | WEvents | WVMExecutionState | WSharedEventsDescription | WSharedVariables | WScratchpads.

#[global] Instance WatchableInfo_eq_dec : EqDecision WatchableInfo.
Proof. solve_decision. Defined.

Definition watch_bit (w : WatchableInfo) : Z :=
  match w with
  | WVariables => 0x01
  | WEvents => 0x02
  | WVMExecutionState => 0x04
  | WSharedEventsDescription => 0x08
  | WSharedVariables => 0x10
  | WScratchpads => 0x20
  end.

Definition CapRename : Z := 0x01.
Definition CapForceResetAndStop : Z := 0x02.
Definition CapFirwmareUpgrade : Z := 0x04.
Definition LoadOnTarget : Z := 2.
Definition MachineLocal : Z := 0x01.
Definition NetworkLocal : Z := 0x02.

Definition has_bit (flags bit : Z) : bool := negb (Z.land flags bit =? 0).

(** tdm.h. *)
Module tdm.
Definition protocolVersion : Z := 1.
Definition minProtocolVersion : Z := 1.
Definition maxAppEndPointMessageSize : Z := 102400.
End tdm.

(** ** Requests *)

(** [NodeVariable] and [NamedValue]: a name and a packed value. *)
Record fb_value : Type := mkFbValue { fb_name : option (list Z); fb_data : option (list Z) }.
Record fb_event : Type := mkFbEvent { fe_name : option (list Z); fe_fixed_sized : Z }.

Module Request.
Inductive t : Type :=
| ConnectionHandshake (minProtocolVersion protocolVersion maxMessageSize : Z) (token password : option (list Z))
| DeviceManagerShutdownRequest (request_id : Z)
| RequestListOfNodes
| RequestNodeAsebaVMDescription (request_id : Z) (node : fb_node_id)
| SetVariables (request_id : Z) (node_or_group : fb_node_id) (vars : option (list fb_value))
| RegisterEvents (request_id : Z) (node_or_group : fb_node_id) (events : option (list fb_event))
| SendEvents (request_id : Z) (node : fb_node_id) (events : option (list fb_value))
| RenameNode (request_id : Z) (node : fb_node_id) (new_name : option (list Z))
| LockNode (request_id : Z) (node : fb_node_id)
| UnlockNode (request_id : Z) (node : fb_node_id)
| CompileAndLoadCodeOnVM (request_id : Z) (node : fb_node_id) (language : programming_language) (program : list Z) (options : Z)
| CompileAndSave (request_id : Z) (node : fb_node_id) (language : programming_language) (program : list Z) (options : Z)
| SetVMExecutionState (request_id : Z) (node : fb_node_id) (command : vm_command)
| WatchNode (request_id : Z) (node_or_group : fb_node_id) (info_type : Z)
| SetBreakpoints (request_id : Z) (node : fb_node_id) (breakpoints : option (list Z))
| ScratchpadUpdate (request_id : Z) (node : fb_node_id) (text : list Z) (language : programming_language)
| FirmwareUpgradeRequest (request_id : Z) (node : fb_node_id)
| Thymio2WirelessDonglePairingRequest (request_id : Z) (dongle node : fb_node_id) (network_id channel_id : Z)
| EnableThymio2PairingMode (enable : bool)
| Unsupported.
End Request.

(** [detail::variables] and [detail::events], which are the same: entries
    without a name or a value are skipped, the last of a name wins. *)
Section Requests.
Variable flexbuffer_to_property : list Z -> option property.

Definition value_step (vars : variables_map) (v : fb_value) : variables_map :=
  match fb_name v, fb_data v with
  | Some k, Some d => match flexbuffer_to_property d with Some p => om_set k p vars | None => vars end
  | _, _ => vars
  end.

Definition values (l : option (list fb_value)) : variables_map := foldl value_step [] (default [] l).
End Requests.

(** [detail::events_description] and [breakpoints]. *)
Definition events_description (l : option (list fb_event)) : list event :=
  List.flat_map (fun e => match fe_name e with Some k => [mkEvent k (fe_fixed_sized e)] | None => [] end) (default [] l).

Definition breakpoints (l : option (list Z)) : list Z := default [] l.

(** ** Replies *)

Record fb_node : Type := mkFbNode {
  fn_id : list Z;
  fn_group_id : option (list Z);
  fn_status : status;
  fn_type : node_type;
  fn_name : list Z;
  fn_capabilities : Z;
  fn_fw_version : list Z;
  fn_latest_fw_version : list Z
}.

Record fb_variable : Type := mkFbVariable { fv_index : Z; fv_name : list Z; fv_size : Z }.
Record fb_local_event : Type := mkFbLocalEvent { fl_index : Z; fl_name : list Z; fl_description : list Z }.
Record fb_function : Type := mkFbFunction { ff_index : Z; ff_name : list Z; ff_description : list Z; ff_parameters : list (list Z * Z) }.
Record fb_dongle : Type := mkFbDongle { fd_id : list Z; fd_node : Z; fd_network_id : Z; fd_channel_id : Z }.

Module Reply.
Inductive t : Type :=
| ConnectionHandshake (minProtocolVersion protocolVersion maxMessageSize : Z) (localhostPeer : bool) (ws_port : Z) (uuid password : list Z)
| NodesChanged (nodes : list fb_node)
| NodeAsebaVMDescription (request_id : Z) (node : list Z) (bytecode_size data_size stack_size : Z)
    (variables : list fb_variable) (events : list fb_local_event) (functions : list fb_function)
| RequestCompleted (request_id : Z)
| Error (request_id : Z) (error : ErrorType.t)
| CompilationResultFailure (request_id : Z) (message : list Z) (character line column : Z)
| CompilationResultSuccess (request_id bytecode_size total_bytecode_size variables_size total_variables_size : Z)
| VariablesChanged (node : list Z) (vars : variables_map) (timestamp : Z)
| EventsEmitted (node : list Z) (events : variables_map) (timestamp : Z)
| EventsDescriptionsChanged (node_or_group : list Z) (events : list (list Z * Z * Z))
| SetBreakpointsResponse (request_id : Z) (error : ErrorType.t) (breakpoints : list Z)
| VMExecutionStateChanged (node : list Z) (state : vm_execution_state)
| ScratchpadUpdate (scratchpad group node : list Z) (language : programming_language) (text name : list Z) (deleted : bool)
| FirmwareUpgradeStatus (request_id : Z) (node : list Z) (progress : Z)
| Ping
| Thymio2WirelessDonglesChanged (dongles : list fb_dongle)
| Thymio2WirelessDonglePairingResponse (request_id network_id channel_id : Z)
| SaveBytecode (request_id : Z) (node : list Z) (program : list Z).
End Reply.

(** The request that a reply answers. *)
Definition answered (r : Reply.t) : list Z :=
  match r with
  | Reply.NodeAsebaVMDescription i _ _ _ _ _ _ _ | Reply.RequestCompleted i | Reply.Error i _
  | Reply.CompilationResultFailure i _ _ _ _ | Reply.CompilationResultSuccess i _ _ _ _
  | Reply.SetBreakpointsResponse i _ _ | Reply.Thymio2WirelessDonglePairingResponse i _ _ | Reply.SaveBytecode i _ _ => [i]
  | _ => []
  end.

(** ** The functions of flatbuffers_messages.h *)

Definition create_error_response (request_id : Z) (e : ErrorType.t) : Reply.t := Reply.Error request_id e.
Definition create_ack_response (request_id : Z) : Reply.t := Reply.RequestCompleted request_id.
Definition create_set_breakpoint_response (request_id : Z) (e : ErrorType.t) (set : list Z) : Reply.t :=
  Reply.SetBreakpointsResponse request_id e set.

Definition create_compilation_result_response (request_id : Z) (r : compilation_result) : Reply.t :=
  match r with
  | CompilationError character line column msg => Reply.CompilationResultFailure request_id msg character line column
  | CompilationDone size vars total vars_total => Reply.CompilationResultSuccess request_id (u32 size) (u32 total) (u32 vars) (u32 vars_total)
  end.

(** [%02x] and [%04x] of [snprintf] into a buffer of five characters. *)
Definition hex_digit (d : Z) : Z := if d <? 10 then 48 + d else 87 + d.
Definition hex4 (w : Z) : list Z :=
  [hex_digit (Z.land (Z.shiftr w 12) 15); hex_digit (Z.land (Z.shiftr w 8) 15);
   hex_digit (Z.land (Z.shiftr w 4) 15); hex_digit (Z.land w 15)].
Definition hex_word (width : nat) (w : Z) : list Z :=
  drop (if w <? 256 then 4 - width else if w <? 4096 then Nat.min 1 (4 - width) else 0) (hex4 w).

Definition create_save_response (request_id : Z) (id : list Z) (bytecode : list Z) : Reply.t :=
  Reply.SaveBytecode request_id id
    (mjoin (imap (fun i w => hex_word (if (i <? 4)%nat then 2 else 4) w) bytecode)).

Definition serialize_aseba_vm_description (request_id : Z) (desc : TargetDescription) (id : list Z) : Reply.t :=
  Reply.NodeAsebaVMDescription request_id id (bytecodeSize desc) (variablesSize desc) (stackSize desc)
    (imap (fun i v => mkFbVariable (u16 (Z.of_nat i)) (WStringToUTF8 (var_name v)) (var_size v)) (namedVariables desc))
    (imap (fun i e => mkFbLocalEvent (u16 (Z.of_nat i)) (WStringToUTF8 (event_name e)) (WStringToUTF8 (event_description e))) (localEvents desc))
    (imap (fun i f => mkFbFunction (u16 (Z.of_nat i)) (WStringToUTF8 (func_name f)) (WStringToUTF8 (func_description f))
                        (List.map (fun p => (WStringToUTF8 (param_name p), u32 (param_size p))) (parameters f))) (nativeFunctions desc)).

Definition serialize_events_descriptions (group : list Z) (descs : list event) : Reply.t :=
  Reply.EventsDescriptionsChanged group (imap (fun i d => (ev_name d, u32 (ev_size d), Z.of_nat i)) descs).

Definition serialize_scratchpad (group : list Z) (s : scratchpad) : Reply.t :=
  Reply.ScratchpadUpdate (scratchpad_id s) group (if is_nil (nodeid s) then preferred_node_id s else nodeid s)
    (language s) (text s) (pad_name s) (deleted s).
