(* ===== verification/AppValues.v ===== *)
(** * Variables and events in the messages of applications

    flatbuffers_messages.h: a map of values is written as a vector of tables,
    each value packed by the one builder of flexbuffers that is cleared in
    between (Flex.v); [AppMessages.values] reads such a vector.  What flatbuffers
    and flexbuffers do is a parameter. *)
From Stdlib Require Import ZArith Lia List String.
From stdpp Require Import countable base list.

From S2P Require Import Prelude OrdMap Errors Property Node AppMessages Flex.

Local Open Scope Z_scope.

Section Write.
(** The bytes of what a builder was told, and the order that
    [CreateVectorOfSortedTables] gives to the tables. *)
Variable GetBuffer : list call -> list Z.
Variable sorted_tables : list fb_value -> list fb_value.

(** An entry: the builder, which holds what it was told since [Clear], and the
    tables. *)
Definition serialize_entry (s : list call * list fb_value) (var : list Z * property) : list call * list fb_value :=
  let '(flexbuilder, offsets) := s in
  let flexbuilder := flexbuilder ++ property_to_flexbuffer (snd var) in
  let vec := GetBuffer flexbuilder in
  let offsets := offsets ++ [mkFbValue (Some (fst var)) (Some vec)] in
  ([], offsets).

(** [detail::serialize_variables] and [detail::serialize_events]. *)
Definition serialize_variables (vars : variables_map) : list fb_value := sorted_tables (snd (foldl serialize_entry ([], []) vars)).

(** [VariablesChanged] and [EventsEmitted] as tables. *)
Record fb_values : Type := mkFbValues { fb_of : list Z; fb_values_of : list fb_value; fb_timestamp : Z }.

Definition serialize_changed_variables (uuid : list Z) (vars : variables_map) (timestamp : Z) : fb_values :=
  mkFbValues uuid (serialize_variables vars) timestamp.

Definition packed (p : property) : list Z := GetBuffer (property_to_flexbuffer p).
Definition entry (var : list Z * property) : fb_value := mkFbValue (Some (fst var)) (Some (packed (snd var))).

Lemma serialize_entries vars l : foldl serialize_entry ([], l) vars = ([], l ++ List.map entry vars).
Proof.
  revert l. induction vars as [|v vars IH]; intros l; cbn [foldl List.map]; [by rewrite app_nil_r|].
  unfold serialize_entry at 2. cbn [app]. by rewrite IH, <- app_assoc.
Qed.
End Write.

(** ** Reading what was written *)

Section RoundTrip.
Context {R : Type} {F : Flexbuffers R}.
Variable builds : list call -> R -> Prop.
Hypothesis laws : flexbuffers_laws builds.
Variable GetBuffer : list call -> list Z.
Variable sorted_tables : list fb_value -> list fb_value.
Variable root : list Z -> R.
(** [value_flexbuffer_root] of the bytes of a finished builder is a reference to
    what was built; sorting reorders. *)
Hypothesis root_built : forall p, builds (serialize_to_flexbuffer p) (root (GetBuffer (property_to_flexbuffer p))).
Hypothesis tables_reordered : forall l, sorted_tables l ≡ₚ l.

(** The conversion of a field, which skips what it cannot read. *)
Definition read_value (n : nat) (d : list Z) : option property :=
  match flexbuffer_to_property n (root d) with Ok (inl p) => Some p | _ => None end.

Lemma values_entries n l acc : Forall (fun e => plain (snd e) = true /\ (depth (snd e) <= n)%nat) l ->
  foldl (value_step (read_value n)) acc (List.map (entry GetBuffer) l) = foldl (fun m e => om_set (fst e) (snd e) m) acc l.
Proof.
  intros H. revert acc. induction H as [|[k p] l [Hp Hd] _ IH]; intros acc; [done|]. cbn [List.map foldl]. rewrite <- IH. f_equal.
  unfold value_step, entry, read_value. cbn [fb_name fb_data fst snd] in *. by rewrite (flexbuffer_read builds laws p).
Qed.

(** C38: the variables that are sent to an application are, read the way the
    manager reads variables, the same map, whatever the order of the tables, if
    the values are numbers, null, strings without zeros and arrays of those. *)
Theorem variables_roundtrip vars n : om_sorted vars -> Forall (fun e => plain (snd e) = true /\ (depth (snd e) <= n)%nat) vars ->
  values (read_value n) (Some (serialize_variables GetBuffer sorted_tables vars)) = vars.
Proof.
  intros Hs Hv. unfold values, serialize_variables. rewrite serialize_entries. cbn [snd app default].
  pose proof (tables_reordered (List.map (entry GetBuffer) vars)) as (l & Hl & Hp)%Permutation_map_inv.
  rewrite Hl. unfold id. rewrite values_entries by (by rewrite <- Hp). apply om_of_entries; [done|by symmetry].
Qed.
End RoundTrip.

(** ** A library that keeps the hypotheses

    A builder with a stack of open vectors and maps, whose bytes are one number. *)
Inductive frame : Type := InVector (l : list flex) | InMap (m : list (list Z * flex)) (k : list Z).

Definition put (v : flex) (st : list frame) : list frame :=
  match st with
  | InVector l :: st => InVector (l ++ [v]) :: st
  | InMap m k :: st => InMap (m ++ [(k, v)]) k :: st
  | [] => []
  end.

Definition build (st : list frame) (c : call) : list frame :=
  match c with
  | BNull => put FNull st
  | BBool b => put (FBool b) st
  | BInt z => put (FInt z) st
  | BDouble d => put (FDouble d) st
  | BString s => put (FString s) st
  | StartVector => InVector [] :: st
  | EndVector _ _ => match st with InVector l :: st => put (FVector l) st | _ => st end
  | StartMap => InMap [] [] :: st
  | BKey k => match st with InMap m _ :: st => InMap m k :: st | _ => st end
  | EndMap => match st with InMap m _ :: st => put (FMap m) st | _ => st end
  | Finish => st
  end.

Lemma build_value : forall p st, foldl build st (serialize_to_flexbuffer p) = put (flex_of p) st.
Proof.
  fix IH 1. intros [|b|z|d|s|l|m] st; try reflexivity; cbn [serialize_to_flexbuffer foldl]; rewrite foldl_app; cbn [build flex_of].
  - assert (forall acc, foldl build (InVector acc :: st) (List.flat_map serialize_to_flexbuffer l) = InVector (acc ++ List.map flex_of l) :: st) as ->; [|reflexivity].
    induction l as [|p l IHl]; intros acc; cbn [List.flat_map List.map]; [by rewrite app_nil_r|]. rewrite foldl_app, IH. cbn [put]. by rewrite IHl, <- app_assoc.
  - assert (forall acc k, exists k', foldl build (InMap acc k :: st) (List.flat_map (fun e => BKey (fst e) :: serialize_to_flexbuffer (snd e)) m)
      = InMap (acc ++ List.map (fun e => (fst e, flex_of (snd e))) m) k' :: st) as H; [|by destruct (H [] []) as [k ->]].
    induction m as [|[k0 p] m IHm]; intros acc k; cbn [List.flat_map List.map fst snd]; [exists k; by rewrite app_nil_r|].
    cbn [app foldl build]. rewrite foldl_app, IH. cbn [put]. destruct (IHm (acc ++ [(k0, flex_of p)]) k0) as [k' ->]. exists k'. by rewrite <- app_assoc.
Qed.

#[export] Instance spec_float_eq_dec : EqDecision SpecFloat.spec_float.
Proof. solve_decision. Defined.
#[export] Instance call_eq_dec : EqDecision call.
Proof. solve_decision. Defined.

#[export] Instance spec_float_countable : Countable SpecFloat.spec_float.
Proof.
  refine (inj_countable' (fun d => match d with
    | SpecFloat.S754_zero s => (0%nat, s, 1%positive, 0) | SpecFloat.S754_infinity s => (1%nat, s, 1%positive, 0)
    | SpecFloat.S754_nan => (2%nat, true, 1%positive, 0) | SpecFloat.S754_finite s m e => (3%nat, s, m, e) end)
    (fun '(k, s, m, e) => match k with
    | 0%nat => SpecFloat.S754_zero s | 1%nat => SpecFloat.S754_infinity s | 2%nat => SpecFloat.S754_nan | _ => SpecFloat.S754_finite s m e end) _).
  by intros [].
Defined.

#[export] Instance call_countable : Countable call.
Proof.
  refine (inj_countable' (fun c => match c with
    | BNull => (0%nat, true, true, 0, [], SpecFloat.S754_nan) | BBool b => (1%nat, b, true, 0, [], SpecFloat.S754_nan)
    | BInt z => (2%nat, true, true, z, [], SpecFloat.S754_nan) | BDouble d => (3%nat, true, true, 0, [], d)
    | BString s => (4%nat, true, true, 0, s, SpecFloat.S754_nan) | StartVector => (5%nat, true, true, 0, [], SpecFloat.S754_nan)
    | EndVector t f => (6%nat, t, f, 0, [], SpecFloat.S754_nan) | StartMap => (7%nat, true, true, 0, [], SpecFloat.S754_nan)
    | BKey k => (8%nat, true, true, 0, k, SpecFloat.S754_nan) | EndMap => (9%nat, true, true, 0, [], SpecFloat.S754_nan)
    | Finish => (10%nat, true, true, 0, [], SpecFloat.S754_nan) end)
    (fun '(k, x, y, z, s, d) => match k with
    | 0%nat => BNull | 1%nat => BBool x | 2%nat => BInt z | 3%nat => BDouble d | 4%nat => BString s | 5%nat => StartVector
    | 6%nat => EndVector x y | 7%nat => StartMap | 8%nat => BKey s | 9%nat => EndMap | _ => Finish end) _).
  by intros [].
Defined.

Definition sample_buffer (l : list call) : list Z := [Z.pos (encode l)].
Definition sample_root (d : list Z) : flex :=
  match d with
  | [Z.pos e] => match foldl build [InVector []] (default [] (decode e)) with [InVector [v]] => v | _ => FNull end
  | _ => FNull
  end.

Lemma sample_built p : built (serialize_to_flexbuffer p) (sample_root (sample_buffer (property_to_flexbuffer p))).
Proof.
  exists p. split; [done|]. unfold sample_root, sample_buffer. rewrite decode_encode. cbn [from_option]. unfold id.
  unfold property_to_flexbuffer. by rewrite foldl_app, build_value.
Qed.

Definition sample_values : variables_map := [(ws "a", Array [Integral 1; Str (ws "x")]); (ws "b", Integral (-3))].

Lemma variables_roundtrip_witness :
  values (read_value sample_root 2) (Some (serialize_variables sample_buffer (@rev _) sample_values)) = sample_values.
Proof.
  apply (variables_roundtrip built built_laws).
  - apply sample_built.
  - intros l. symmetry. apply Permutation_rev.
  - split; [constructor; [reflexivity|constructor]|split; [constructor|exact I]].
  - repeat (constructor; [split; [reflexivity|cbn; lia]|]). constructor.
Defined.
