(* ===== verification/AppFrame.v ===== *)
(** * Messages of applications on a TCP stream

    thymio-device-manager/flatbuffers_message_writer.h and
    flatbuffers_message_reader.h: a length of four bytes and a buffer, and the
    composed read operation as a state machine over the completions of its
    reads.  [VerifyMessageBuffer] is generated code and a parameter, as is
    [boost::asio::async_read]. *)
From Stdlib Require Import ZArith Lia List.
From stdpp Require Import base list list_monad.
From S2P Require Import Prelude Bits Utils Frame AppMessages.

Local Open Scope Z_scope.

(** ** Writing *)

(** The two buffers that [write_flatbuffer_message_op] hands to [async_write]. *)
Definition write_flatbuffer (buffer : list Z) : list Z := i32_bytes (u32 (Z.of_nat (List.length buffer))) ++ buffer.

(** ** Reading *)

Inductive read_error : Type := message_size | bad_message | read_failed.

(** What the operation does next; [Dropped] ends it without a call of the
    handler. *)
Inductive fb_action : Type :=
| AsyncReadFb (n : nat) (dataBuffer : list Z)
| HandleFb (r : list Z + read_error)
| Dropped.

Definition u32_of_bytes (b0 b1 b2 b3 : Z) : Z := b0 + 256 * b1 + 65536 * b2 + 16777216 * b3.

Section Reader.
Variable verify : list Z -> bool.

Definition fb_read_start : fb_action := AsyncReadFb 4 [].

(** [operator()(ec, bytes_transferred)]: the bytes of the length as long as the
    buffer is empty, then those of the buffer.  A transfer of another size
    reaches the handler with an empty message and the error code, which is
    success. *)
Definition fb_read_step (dataBuffer : list Z) (ec : bool) (bytes : list Z) : res runtime_error fb_action :=
  if ec || bool_decide (bytes = []) then Ok Dropped
  else match dataBuffer with
  | [] =>
      match bytes with
      | [b0; b1; b2; b3] =>
          let size := u32_of_bytes b0 b1 b2 b3 in
          if tdm.maxAppEndPointMessageSize <? size then Ok (HandleFb (inr message_size))
          else Ok (AsyncReadFb (Z.to_nat size) (replicate (Z.to_nat size) 0))
      | _ => Crash  (* assert(bytes_transferred == 4) *)
      end
  | _ =>
      if negb (List.length bytes =? List.length dataBuffer)%nat then Ok (HandleFb (inr read_failed))
      else if negb (verify bytes) then Ok (HandleFb (inr bad_message))
      else Ok (HandleFb (inl bytes))
  end.

(** The operation on a stream; [async_read s n] as in Frame.v. *)
Variable async_read : list Z -> nat -> bool * list Z * list Z.

Fixpoint run_fb_read (fuel : nat) (a : fb_action) (s : list Z) : res runtime_error (option (list Z + read_error) * list Z) :=
  match a with
  | HandleFb r => Ok (Some r, s)
  | Dropped => Ok (None, s)
  | AsyncReadFb n buffer =>
      match fuel with
      | O => NoFuel
      | S fuel' =>
          let '(ec, bytes, s') := async_read s n in
          a' ← fb_read_step buffer ec bytes;
          run_fb_read fuel' a' s'
      end
  end.

(** Two reads are enough for a message. *)
Definition async_read_flatbuffers_message (s : list Z) : res runtime_error (option (list Z + read_error) * list Z) :=
  run_fb_read 2 fb_read_start s.

Fixpoint read_flatbuffers (n : nat) (s : list Z) : res runtime_error (list (option (list Z + read_error)) * list Z) :=
  match n with
  | O => Ok ([], s)
  | S n' =>
      '(r, s') ← async_read_flatbuffers_message s;
      '(l, s'') ← read_flatbuffers n' s';
      Ok (r :: l, s'')
  end.

(** [transfer_exactly] of Boost.Asio. *)
Hypothesis transfer_exactly : forall s n, (n <= List.length s)%nat -> async_read s n = (false, take n s, drop n s).

(** ** Properties *)

(** A message that the manager accepts. *)
Definition acceptable (m : list Z) : Prop :=
  m <> [] /\ Z.of_nat (List.length m) <= tdm.maxAppEndPointMessageSize /\ verify m = true.

Lemma i32_bytes_inv v : 0 <= v < 4294967296 -> exists b0 b1 b2 b3, i32_bytes v = [b0; b1; b2; b3] /\ u32_of_bytes b0 b1 b2 b3 = v.
Proof.
  intros Hv. unfold i32_bytes. eexists _, _, _, _. split; [reflexivity|]. unfold u32_of_bytes.
  rewrite !land_255, !Z.shiftr_div_pow2 by lia. change (2 ^ 8) with 256. change (2 ^ 16) with (256 * 256).
  change (2 ^ 24) with (256 * 256 * 256). rewrite <- !Z.div_div by lia.
  pose proof (Z.div_mod v 256). pose proof (Z.div_mod (v / 256) 256). pose proof (Z.div_mod (v / 256 / 256) 256).
  rewrite (Z.mod_small (v / 256 / 256 / 256) 256); [lia|]. rewrite !Z.div_div by lia.
  split; [apply Z.div_pos; lia|]. apply Z.div_lt_upper_bound; lia.
Qed.

Lemma run_fb_more fuel n b s : (n <= List.length s)%nat ->
  run_fb_read (S fuel) (AsyncReadFb n b) s = (a' ← fb_read_step b false (take n s); run_fb_read fuel a' (drop n s)).
Proof. intros H. cbn [run_fb_read]. by rewrite transfer_exactly. Qed.

(** The header selects what is read next. *)
Lemma read_header v s : 0 <= v < 4294967296 ->
  async_read_flatbuffers_message (i32_bytes v ++ s)
  = if tdm.maxAppEndPointMessageSize <? v then Ok (Some (inr message_size), s)
    else run_fb_read 1 (AsyncReadFb (Z.to_nat v) (replicate (Z.to_nat v) 0)) s.
Proof.
  intros Hv. destruct (i32_bytes_inv v Hv) as (b0 & b1 & b2 & b3 & -> & Hb). unfold async_read_flatbuffers_message, fb_read_start.
  rewrite run_fb_more by (simpl; lia). change (take 4 ([b0; b1; b2; b3] ++ s)) with [b0; b1; b2; b3].
  change (drop 4 ([b0; b1; b2; b3] ++ s)) with s. unfold fb_read_step. rewrite Hb. simpl. by destruct (_ <? v).
Qed.

Lemma read_written m s : acceptable m ->
  async_read_flatbuffers_message (write_flatbuffer m ++ s) = Ok (Some (inl m), s).
Proof.
  intros (Hm & Hl & Hv). unfold write_flatbuffer, tdm.maxAppEndPointMessageSize in *. rewrite u32_id by lia.
  rewrite <- app_assoc, read_header by lia. unfold tdm.maxAppEndPointMessageSize.
  rewrite (proj2 (Z.ltb_ge _ _)) by done. rewrite Nat2Z.id, run_fb_more by (rewrite length_app; lia).
  rewrite take_app_length, drop_app_length. unfold fb_read_step. rewrite bool_decide_eq_false_2 by done. cbn [orb].
  destruct m as [|b m]; [done|]. cbn [List.length replicate]. rewrite length_replicate, Nat.eqb_refl, Hv. reflexivity.
Qed.

(** C37: the buffers that are written to a stream one after the other, none of
    them empty, all within the limit and well formed, are read one after the
    other; a length beyond the limit is answered with an error before any of
    its bytes is read or stored. *)
Theorem flatbuffers_roundtrip ms s v :
  Forall acceptable ms -> tdm.maxAppEndPointMessageSize < v < 4294967296 ->
  read_flatbuffers (S (List.length ms)) (mjoin (List.map write_flatbuffer ms) ++ i32_bytes v ++ s)
  = Ok (List.map (fun m => Some (inl m)) ms ++ [Some (inr message_size)], s).
Proof.
  intros H Hv. induction H as [|m ms Hm _ IH].
  - cbv [mjoin list_join]. cbn [List.length List.map app read_flatbuffers].
    rewrite read_header by (unfold tdm.maxAppEndPointMessageSize in *; lia). rewrite (proj2 (Z.ltb_lt _ _)) by lia. reflexivity.
  - change (mjoin (List.map write_flatbuffer (m :: ms))) with (write_flatbuffer m ++ mjoin (List.map write_flatbuffer ms)).
    rewrite <- app_assoc. remember (S (List.length ms)) as k. cbn [List.length]. rewrite <- Heqk. cbn [read_flatbuffers].
    rewrite read_written by done. cbn [mbind res_bind]. by rewrite IH.
Qed.
End Reader.

Lemma flatbuffers_roundtrip_witness :
  read_flatbuffers (fun _ => true) sample_read 3 (mjoin (List.map write_flatbuffer [[1; 2]; [3]]) ++ i32_bytes 200000 ++ [7])
  = Ok ([Some (inl [1; 2]); Some (inl [3]); Some (inr message_size)], [7]).
Proof.
  apply (flatbuffers_roundtrip (fun _ => true) sample_read).
  - intros s n H. unfold sample_read. by rewrite (proj2 (Nat.leb_le _ _)).
  - repeat constructor; try discriminate; vm_compute; discriminate.
  - split; reflexivity.
Defined.

(** A length of zero ends the reading without a word to anybody. *)
Example empty_message_dropped : async_read_flatbuffers_message (fun _ => true) sample_read (i32_bytes 0 ++ [1; 2]) = Ok (None, [1; 2]).
Proof. reflexivity. Qed.

(** ** Websockets

    [application_endpoint_base<Self, websocket_t>]: a read appends a whole
    message to [m_buffer] and completes with its length.  The handler queues the
    next read, which completes after it; then what it was given is consumed.  An
    error ends the reading: only the log is told. *)
Definition ws_read_done (ec : bool) (bytes_transferred : nat) (m_buffer : list Z) : option (list Z) * list Z :=
  if ec then (None, m_buffer)
  else
    let buf := take bytes_transferred m_buffer in
    (Some buf, drop bytes_transferred m_buffer).

(** The messages that the handler is given when those of the list arrive. *)
Fixpoint ws_read_messages (l : list (list Z)) (m_buffer : list Z) : list (list Z) * list Z :=
  match l with
  | [] => ([], m_buffer)
  | m :: l' =>
      let '(r, m_buffer) := ws_read_done false (List.length m) (m_buffer ++ m) in
      let '(rest, m_buffer) := ws_read_messages l' m_buffer in
      (match r with Some buf => buf :: rest | None => rest end, m_buffer)
  end.

Lemma ws_delivers l : ws_read_messages l [] = (l, []).
Proof. induction l as [|m l IH]; [done|]. cbn [ws_read_messages app]. unfold ws_read_done. by rewrite firstn_all, drop_ge, IH by done. Qed.

(** Observed: a buffer that the reader of a TCP stream refuses reaches the
    handlers when it comes over a websocket. *)
Lemma websocket_unverified verify async_read m s :
  (forall s n, (n <= List.length s)%nat -> async_read s n = (false, take n s, drop n s)) ->
  m <> [] -> Z.of_nat (List.length m) <= tdm.maxAppEndPointMessageSize -> verify m = false ->
  async_read_flatbuffers_message verify async_read (write_flatbuffer m ++ s) = Ok (Some (inr bad_message), s) /\
  fst (ws_read_messages [m] []) = [m].
Proof.
  intros Ha Hm Hl Hv. rewrite ws_delivers. split; [|done]. unfold write_flatbuffer, tdm.maxAppEndPointMessageSize in *. rewrite u32_id by lia.
  rewrite <- app_assoc, (read_header verify async_read Ha) by lia. unfold tdm.maxAppEndPointMessageSize.
  rewrite (proj2 (Z.ltb_ge _ _)) by done. rewrite Nat2Z.id, (run_fb_more verify async_read Ha) by (rewrite length_app; lia).
  rewrite take_app_length, drop_app_length. unfold fb_read_step. rewrite bool_decide_eq_false_2 by done. cbn [orb].
  destruct m as [|b m]; [done|]. cbn [List.length replicate]. rewrite length_replicate, Nat.eqb_refl, Hv. reflexivity.
Qed.
