(* ===== verification/Wireless.v ===== *)
(** * Dongles

    thymio-device-manager/wireless_configurator_service.{h,cpp}: the dongles
    that wait for being paired with a robot.  A dongle is a serial port, whose
    operations (boost) are parameters, or an USB device, whose operations are
    those of UsbDevice over a libusb for each device. *)
From Stdlib Require Import ZArith Lia List.
From stdpp Require Import base list list_monad.
From S2P Require Import Prelude Bits UsbDevice.

Local Open Scope Z_scope.

(** ** Data *)

(** [aseba_device], without a socket. *)
Inductive dongle_device : Type :=
| SerialPort (port : Z)
| UsbPort (i : implementation_type).

Record dongle : Type := mkDongle { d_device : dongle_device; d_uuid : list Z; d_node_id : Z; d_network_id : Z; d_channel : Z }.

Inductive configure_error : Type := no_such_dongle | sync_failed.

(** [m_dongles] is keyed by the device of the bus. *)
Record service : Type := mkService { m_enabled : bool; m_dongles : list (Z * dongle) }.

Inductive service_effect : Type := DisconnectAllWireless | DonglesChanged.

(** The packed [dongle_data]: 8 bytes. *)
Definition dongle_data (nodeId panId channel txPower version ctrl : Z) : list Z :=
  u16_bytes nodeId ++ u16_bytes panId ++ [channel; txPower; version; ctrl].

Definition reported_node (data : list Z) : Z := u16_of_bytes (nth 0 data 0) (nth 1 data 0).
Definition reported_network (data : list Z) : Z := u16_of_bytes (nth 2 data 0) (nth 3 data 0).

(** [int] arithmetic, stored in a [uint16_t]. *)
Definition reported_channel (data : list Z) : Z := u16 (Z.quot (nth 4 data 0 - 15) 5).

(** ** Serial ports

    [usb_serial_port] of boost: [open], options and lines as calls; the
    transfers with an error code return 0 or no bytes after an error. *)
Inductive serial_call : Type :=
| SerialOpen | SerialBaudRate (b : Z) | SerialNoParity | SerialOneStopBit | SerialRts (b : bool) | SerialDtr (b : bool) | SerialClose.

Class SerialPorts (D : Type) : Type := {
  serial : Z -> serial_call -> D -> D;
  serial_write_some : Z -> list Z -> D -> Z * D;
  serial_read_some : Z -> nat -> D -> list Z * D
}.

(** The devices of the computer: what [usb_context] knows as open, and the rest. *)
Record world {D : Type} : Type := mkWorld { opened : list (option Z); devices : D }.
Arguments world : clear implicits.

(** What [sync] sends. *)
Definition settings (d : dongle) (flash : bool) : list Z :=
  if flash then dongle_data 0xffff (d_network_id d) (u8 (15 + 5 * d_channel d)) 0 0 0x01
  else dongle_data 0xffff 0xffff 0xff 0 0 0.

(** ** Transfers *)

Section Usb.
Context {D : Type} `{!Libusb D}.

Definition on_usb {A} (m : usb_m (D:=D) A) (i : implementation_type) (w : world D) : A * implementation_type * world D :=
  let '(a, s) := m (mkState i (opened w) (devices w)) in (a, impl s, mkWorld D (m_open_devices s) (lib s)).

(** The error of [open] is not looked at. *)
Definition usb_prepare : usb_m (D:=D) unit :=
  open;; set_baud_rate 115200;; set_parity 0;; set_stop_bits 1;; set_rts true;; set_data_terminal_ready false;; mret tt.

(** [write_some] with an error code, which throws; a transfer on a null handle
    is undefined. *)
Definition usb_write (data : list Z) (i : implementation_type) (w : world D) : res Z Z * implementation_type * world D :=
  match handle i with
  | None => (Undef, i, w)
  | Some _ =>
      let '(r, l) := device_write_some_ec [data] 0 (devices w) in
      ('(n, _) ← r; Ok n, i, mkWorld D (opened w) l)
  end.

(** [read_some] over [data]: the number that it returns, and [data] after it. *)
Definition usb_read (data : list Z) (i : implementation_type) (w : world D) : res Z (Z * list Z) * implementation_type * world D :=
  match handle i with
  | None => (Undef, i, w)
  | Some _ =>
      match UsbDevice.read_some (E:=Z) i [len data] (devices w) with
      | Ok (copied, r, i, l) =>
          ('(copied, n) ← value_or_throw (copied, r); Ok (n, copied ++ drop (List.length copied) data), i, mkWorld D (opened w) l)
      | Throw e => (Throw e, i, w)
      | Crash => (Crash, i, w)
      | Undef => (Undef, i, w)
      | NoFuel => (NoFuel, i, w)
      end
  end.
End Usb.

Section Wireless.
Context {D : Type} `{!SerialPorts D}.
Variable libusb_of : option Z -> Libusb D.
Variable fresh_uuid : list Z.

(** A device and the world around it. *)
Definition port : Type := dongle_device * world D.

Definition on_serial (p : Z) (c : serial_call) (w : world D) : world D := mkWorld D (opened w) (serial p c (devices w)).

Definition prepare (x : port) : port :=
  let '(dev, w) := x in
  match dev with
  | SerialPort p =>
      (dev, foldl (fun w c => on_serial p c w) w
              [SerialOpen; SerialBaudRate 115200; SerialNoParity; SerialOneStopBit; SerialRts true; SerialDtr false])
  | UsbPort i => let '(_, i, w) := @on_usb _ _ (@usb_prepare _ (libusb_of (device i))) i w in (UsbPort i, w)
  end.

Definition close_device (x : port) : port :=
  let '(dev, w) := x in
  match dev with
  | SerialPort p => (dev, on_serial p SerialClose w)
  | UsbPort i => let '(_, i, w) := @on_usb _ _ (@close _ (libusb_of (device i))) i w in (UsbPort i, w)
  end.

Definition write_device (data : list Z) (x : port) : res Z Z * port :=
  let '(dev, w) := x in
  match dev with
  | SerialPort p => let '(n, l) := serial_write_some p data (devices w) in (Ok n, (dev, mkWorld D (opened w) l))
  | UsbPort i => let '(r, i, w) := @usb_write _ (libusb_of (device i)) data i w in (r, (UsbPort i, w))
  end.

Definition read_device (data : list Z) (x : port) : res Z (Z * list Z) * port :=
  let '(dev, w) := x in
  match dev with
  | SerialPort p =>
      let '(bytes, l) := serial_read_some p (List.length data) (devices w) in
      (Ok (len bytes, bytes ++ drop (List.length bytes) data), (dev, mkWorld D (opened w) l))
  | UsbPort i => let '(r, i, w) := @usb_read _ (libusb_of (device i)) data i w in (r, (UsbPort i, w))
  end.

(** The device is closed however [sync] ends; after a success it is closed
    twice.  An exception leaves the members of the dongle as they were. *)
Definition sync (d : dongle) (flash : bool) (w : world D) : res Z bool * dongle * world D :=
  let data := settings d flash in
  let size := len data in
  let leave (r : res Z bool) (x : port) :=
    let '(dev, w) := close_device x in
    (r, mkDongle dev (d_uuid d) (d_node_id d) (d_network_id d) (d_channel d), w) in
  match write_device data (prepare (d_device d, w)) with
  | (Ok written, x) =>
      if negb (written =? size) then leave (Ok false) x
      else
        match read_device data x with
        | (Ok (read, data), x) =>
            if read <? size - 1 then leave (Ok false) x
            else
              let '(dev, w) := close_device (close_device x) in
              (Ok true, mkDongle dev (d_uuid d) (reported_node data) (reported_network data) (reported_channel data), w)
        | (Throw e, x) => leave (Throw e) x
        | (Crash, x) => leave Crash x
        | (Undef, x) => leave Undef x
        | (NoFuel, x) => leave NoFuel x
        end
  | (Throw e, x) => leave (Throw e) x
  | (Crash, x) => leave Crash x
  | (Undef, x) => leave Undef x
  | (NoFuel, x) => leave NoFuel x
  end.

(** ** The map of dongles *)

Definition set_dongles (l : list (Z * dongle)) (s : service) : service := mkService (m_enabled s) l.

Definition find_key (key : Z) (l : list (Z * dongle)) : option (Z * dongle) := List.find (fun e => fst e =? key) l.
Definition erase_key (key : Z) (l : list (Z * dongle)) : list (Z * dongle) := List.filter (fun e => negb (fst e =? key)) l.
Definition update_key (key : Z) (d : dongle) (l : list (Z * dongle)) : list (Z * dongle) :=
  List.map (fun e => if fst e =? key then (key, d) else e) l.

Definition enable (s : service) : service * list service_effect := (mkService true (m_dongles s), [DisconnectAllWireless]).
Definition disable (s : service) : service * list service_effect := (mkService false [], [DisconnectAllWireless]).

(** A dongle whose transfer throws is not registered, and neither is one that
    does not answer. *)
Definition register_configurable_dongle (key : Z) (dev : dongle_device) (s : service) (w : world D)
    : res Z unit * service * list service_effect * world D :=
  let '(r, d, w) := sync (mkDongle dev fresh_uuid 0 0 0) false w in
  match r with
  | Ok true =>
      (Ok tt, set_dongles (match find_key key (m_dongles s) with Some _ => m_dongles s | None => m_dongles s ++ [(key, d)] end) s,
       if m_enabled s then [DonglesChanged] else [], w)
  | _ => (_ ← r; Ok tt, s, [], w)
  end.

Definition device_unplugged (key : Z) (s : service) : service * list service_effect :=
  match find_key key (m_dongles s) with
  | Some _ => (set_dongles (erase_key key (m_dongles s)) s, [DonglesChanged])
  | None => (s, [])
  end.

Definition dongles (s : service) : list dongle := List.map snd (m_dongles s).

(** An exception of [sync] leaves the dongle in the list, with the members that
    were changed before it, and signals nothing. *)
Definition configure_dongle (n : list Z) (network_id channel : Z) (s : service) (w : world D)
    : res Z (dongle + configure_error) * service * list service_effect * world D :=
  match List.find (fun e => bool_decide (d_uuid (snd e) = n)) (m_dongles s) with
  | None => (Ok (inr no_such_dongle), s, [], w)
  | Some (key, d) =>
      let d := mkDongle (d_device d) (d_uuid d) (d_node_id d) network_id (d_channel d) in
      if 2 <? channel then (Ok (inr sync_failed), set_dongles (update_key key d (m_dongles s)) s, [], w)
      else
        let d := mkDongle (d_device d) (d_uuid d) (d_node_id d) (d_network_id d) channel in
        let '(flashed, d, w) := sync d true w in
        let '(r, d, w) := match flashed with Ok true => sync d false w | _ => (flashed, d, w) end in
        match r with
        | Ok ok =>
            if negb ok || negb (d_channel d =? channel) || negb (d_network_id d =? network_id) then
              (Ok (inr sync_failed), set_dongles (erase_key key (m_dongles s)) s, [DonglesChanged], w)
            else (Ok (inl d), set_dongles (update_key key d (m_dongles s)) s, [DonglesChanged], w)
        | Throw e => (Throw e, set_dongles (update_key key d (m_dongles s)) s, [], w)
        | Crash => (Crash, set_dongles (update_key key d (m_dongles s)) s, [], w)
        | Undef => (Undef, set_dongles (update_key key d (m_dongles s)) s, [], w)
        | NoFuel => (NoFuel, set_dongles (update_key key d (m_dongles s)) s, [], w)
        end
  end.

(** ** Properties *)

Definition has_uuid (n : list Z) (e : Z * dongle) : bool := bool_decide (d_uuid (snd e) = n).

(** The device is opened, takes all of [data], answers with at least 7 bytes
    that report [network] and [channel], and is closed. *)
Definition reports (data : list Z) (network channel : Z) (x x' : port) : Prop :=
  exists x1 x2 n got, write_device data (prepare x) = (Ok 8, x1) /\ read_device data x1 = (Ok (n, got), x2) /\ 7 <= n /\
  reported_network got = network /\ reported_channel got = channel /\ x' = close_device (close_device x2).

Lemma settings_length d flash : len (settings d flash) = 8.
Proof. by destruct flash. Qed.

Lemma sync_true d flash w d' w' : sync d flash w = (Ok true, d', w') ->
  d_uuid d' = d_uuid d /\ reports (settings d flash) (d_network_id d') (d_channel d') (d_device d, w) (d_device d', w').
Proof.
  unfold sync. rewrite settings_length.
  destruct (write_device _ _) as [[written| | | |] x1] eqn:Ew; try by destruct (close_device x1).
  destruct (Z.eqb_spec written 8) as [->|]; [|by destruct (close_device x1)]. cbn [negb].
  destruct (read_device _ _) as [[[n got]| | | |] x2] eqn:Er; try by destruct (close_device x2).
  destruct (Z.ltb_spec n (8 - 1)); [by destruct (close_device x2)|].
  destruct (close_device (close_device x2)) as [dev w2] eqn:Ec. intros [= <- <-]. split; [done|]. cbn [d_device d_network_id d_channel].
  exists x1, x2, n, got. by split_and!.
Qed.

Lemma sync_reports d flash w network channel dev' w' : reports (settings d flash) network channel (d_device d, w) (dev', w') ->
  exists node, sync d flash w = (Ok true, mkDongle dev' (d_uuid d) node network channel, w').
Proof.
  intros (x1 & x2 & n & got & Hw & Hr & Hn & <- & <- & Hx). unfold sync. rewrite settings_length, Hw. cbn [Z.eqb negb].
  rewrite Hr. rewrite (proj2 (Z.ltb_ge n (8 - 1))), <- Hx by lia. by eexists.
Qed.

(** What a transfer can end with: [false] for an outcome that only an USB
    device has. *)
Definition plain {A} (r : res Z A) : bool := match r with Ok _ => true | _ => false end.
Definition is_usb_port (d : dongle_device) : bool := match d with UsbPort _ => true | SerialPort _ => false end.

Lemma prepare_kind x : is_usb_port (fst (prepare x)) = is_usb_port (fst x).
Proof. destruct x as [[p|i] w]; [done|]. unfold prepare. by destruct (on_usb _ _ _) as [[? ?] ?]. Qed.
Lemma close_kind x : is_usb_port (fst (close_device x)) = is_usb_port (fst x).
Proof. destruct x as [[p|i] w]; [done|]. unfold close_device. by destruct (on_usb _ _ _) as [[? ?] ?]. Qed.
Lemma write_kind data x : is_usb_port (fst (snd (write_device data x))) = is_usb_port (fst x) /\
  (is_usb_port (fst x) = false -> plain (fst (write_device data x)) = true).
Proof. destruct x as [[p|i] w]; unfold write_device; [by destruct (serial_write_some _ _ _)|by destruct (usb_write _ _ _) as [[? ?] ?]]. Qed.
Lemma read_kind data x : is_usb_port (fst (snd (read_device data x))) = is_usb_port (fst x) /\
  (is_usb_port (fst x) = false -> plain (fst (read_device data x)) = true).
Proof. destruct x as [[p|i] w]; unfold read_device; [by destruct (serial_read_some _ _ _)|by destruct (usb_read _ _ _) as [[? ?] ?]]. Qed.

Lemma sync_kind d flash w r d' w' : sync d flash w = (r, d', w') ->
  d_uuid d' = d_uuid d /\ is_usb_port (d_device d') = is_usb_port (d_device d) /\ (is_usb_port (d_device d) = false -> plain r = true).
Proof.
  unfold sync. pose proof (prepare_kind (d_device d, w)) as Hp. pose proof (write_kind (settings d flash) (prepare (d_device d, w))) as [Hw Hw'].
  destruct (write_device _ _) as [r1 x1]. rewrite Hp in Hw, Hw'. cbn [fst snd] in *.
  pose proof (close_kind x1) as H1. destruct r1; try (destruct (close_device x1); intros [= <- <- <-]; cbn [d_uuid d_device fst] in *; by rewrite H1, Hw).
  destruct (negb _); [destruct (close_device x1); intros [= <- <- <-]; cbn [d_uuid d_device fst] in *; by rewrite H1, Hw|].
  pose proof (read_kind (settings d flash) x1) as [Hr Hr']. destruct (read_device _ _) as [r2 x2]. rewrite Hw in Hr, Hr'. cbn [fst snd] in *.
  pose proof (close_kind x2) as H2. destruct r2 as [[n got]| | | |]; try (destruct (close_device x2); intros [= <- <- <-]; cbn [d_uuid d_device fst] in *; by rewrite H2, Hr).
  destruct (n <? _); [destruct (close_device x2); intros [= <- <- <-]; cbn [d_uuid d_device fst] in *; by rewrite H2, Hr|].
  pose proof (close_kind (close_device x2)) as H3. destruct (close_device (close_device x2)). intros [= <- <- <-]. cbn [d_uuid d_device fst] in *. by rewrite H3, H2, Hr.
Qed.

Lemma update_key_keys key d l : List.map fst (update_key key d l) = List.map fst l.
Proof.
  unfold update_key. rewrite List.map_map. apply List.map_ext. intros [k x]. cbn. by destruct (Z.eqb_spec k key) as [->|].
Qed.


(** a dongle that does as it is told can be configured: if it reports what
    was written when it is asked, a network and a channel from 0 to 2 are
    accepted. *)
Theorem configure_dongle_succeeds n network channel s w key d0 x1 dev2 w2 :
  List.find (has_uuid n) (m_dongles s) = Some (key, d0) -> 0 <= channel <= 2 ->
  reports (dongle_data 0xffff network (15 + 5 * channel) 0 0 1) network channel (d_device d0, w) x1 ->
  reports (dongle_data 0xffff 0xffff 0xff 0 0 0) network channel x1 (dev2, w2) ->
  exists d, configure_dongle n network channel s w = (Ok (inl d), set_dongles (update_key key d (m_dongles s)) s, [DonglesChanged], w2) /\
  d_uuid d = n /\ d_network_id d = network /\ d_channel d = channel.
Proof.
  intros Hf Hc H1 H2. unfold configure_dongle. change (fun e : Z * dongle => bool_decide (d_uuid e.2 = n)) with (has_uuid n). rewrite Hf.
  assert (d_uuid d0 = n) as Hn by by apply List.find_some, proj2, bool_decide_eq_true in Hf.
  rewrite (proj2 (Z.ltb_ge _ _)) by lia. cbn [d_device d_uuid d_node_id d_network_id d_channel]. destruct x1 as [dev1 w1].
  destruct (sync_reports (mkDongle (d_device d0) (d_uuid d0) (d_node_id d0) network channel) true w network channel dev1 w1) as [node1 ->].
  { cbn [settings d_network_id d_channel d_device]. rewrite u8_id by lia. exact H1. }
  destruct (sync_reports (mkDongle dev1 (d_uuid d0) node1 network channel) false w1 network channel dev2 w2 H2) as [node2 E2].
  cbn [d_uuid] in *. rewrite E2. cbn [d_channel d_network_id]. rewrite !Z.eqb_refl. cbn [negb orb]. eexists. by split_and!.
Qed.
End Wireless.

(** ** Samples *)

(** A serial dongle that keeps its settings and reports them. *)
#[local] Instance honest_ports : SerialPorts (list Z) := {
  serial := fun _ _ w => w;
  serial_write_some := fun _ data w => (8, if nth 7 data 0 =? 1 then data else w);
  serial_read_some := fun _ _ w => (w, w)
}.

#[local] Instance no_usb {D} : Libusb D := {
  usb := fun _ d => (LIBUSB_ERROR_NO_DEVICE, d);
  config_descriptor := fun _ => inl LIBUSB_ERROR_NO_DEVICE;
  bulk_in := fun _ d => (LIBUSB_ERROR_NO_DEVICE, [], d);
  bulk_out := fun _ d => (LIBUSB_ERROR_NO_DEVICE, 0, d)
}.

Lemma configure_dongle_succeeds_witness :
  let s := mkService true [(3, mkDongle (SerialPort 3) [9] 0 0xffff 0)] in
  let w := mkWorld _ [] (replicate 8 0) in
  exists d, configure_dongle (fun _ => no_usb) [9] 7 2 s w
    = (Ok (inl d), set_dongles (update_key 3 d (m_dongles s)) s, [DonglesChanged], mkWorld _ [] (dongle_data 0xffff 7 25 0 0 1)) /\
  d_uuid d = [9] /\ d_network_id d = 7 /\ d_channel d = 2.
Proof.
  cbv zeta. refine (configure_dongle_succeeds (fun _ => no_usb) [9] 7 2 (mkService true [(3, mkDongle (SerialPort 3) [9] 0 0xffff 0)])
    (mkWorld _ [] (replicate 8 0)) 3 (mkDongle (SerialPort 3) [9] 0 0xffff 0)
    (SerialPort 3, mkWorld _ [] (dongle_data 0xffff 7 25 0 0 1)) (SerialPort 3) _ eq_refl _ _ _).
  - lia.
  - eexists _, _, _, _. split_and!; try reflexivity. vm_compute. discriminate.
  - eexists _, _, _, _. split_and!; try reflexivity. vm_compute. discriminate.
Defined.

(** An USB dongle that is open and is pulled out: the exception leaves the
    configuration, and the dongle stays in the list. *)
Example usb_dongle_throws :
  let i := set_handle (Some 3) (set_device (Some 3) (new_implementation (replicate 7 0))) in
  let s := mkService true [(3, mkDongle (UsbPort i) [9] 0 0xffff 0)] in
  match configure_dongle (fun _ => no_usb) [9] 7 2 s (mkWorld _ [Some 3] (replicate 8 0)) with
  | (Throw e, s', l, _) => e = LIBUSB_ERROR_NO_DEVICE /\ List.map fst (m_dongles s') = [3] /\ l = []
  | _ => False
  end.
Proof. vm_compute. by split_and!. Qed.

(** A device that cannot be opened is written to all the same. *)
Example unopened_dongle_undefined :
  let i := set_device (Some 3) (new_implementation (replicate 7 0)) in
  fst (fst (sync (D:=list Z) (fun _ => no_usb) (mkDongle (UsbPort i) [9] 0 0xffff 0) false (mkWorld _ [] []))) = Undef.
Proof. reflexivity. Qed.
