(* ===== verification/App.v ===== *)
(** * The endpoint of an application

    thymio-device-manager/app_endpoint.h: the state of a connection, what it
    finds in the manager, its queue and the notifications.  The requests are in
    AppRequests.v.  Objects are numbers in stores, as in Registry.v; a callback
    that answers a request is the application and the number of the request. *)
From Stdlib Require Import ZArith Lia List String.
From stdpp Require Import base list list_monad gmap.
From S2P Require Import UsbDevice.
From S2P Require Import Prelude Consts OrdMap Bits Target Utils Errors Lookup Msg Property Node NodeCode NodeInfo Group GroupOps.
From S2P Require Import AppMessages Wireless.

Local Open Scope Z_scope.

(** ** State *)

(** [dongle_watches] counts the connections that the application has made to
    the signal of the dongles; nothing cuts them. *)
Definition callback : Type := Z * Z.

Inductive subscription : Type := ToNode (h : nat) | ToGroup (g : nat).

Record app : Type := mkApp {
  app_id : Z;
  m_endpoint_type : Z;
  m_protocol_version : Z;
  m_max_out_going_packet_size : Z;
  m_queue : list Reply.t;
  m_locked_nodes : list (list Z * nat);
  m_watch_nodes : list ((WatchableInfo * list Z) * subscription);
  dongle_watches : nat
}.

Definition set_m_queue x a := mkApp (app_id a) (m_endpoint_type a) (m_protocol_version a) (m_max_out_going_packet_size a) x (m_locked_nodes a) (m_watch_nodes a) (dongle_watches a).
Definition set_m_locked_nodes x a := mkApp (app_id a) (m_endpoint_type a) (m_protocol_version a) (m_max_out_going_packet_size a) (m_queue a) x (m_watch_nodes a) (dongle_watches a).
Definition set_m_watch_nodes x a := mkApp (app_id a) (m_endpoint_type a) (m_protocol_version a) (m_max_out_going_packet_size a) (m_queue a) (m_locked_nodes a) x (dongle_watches a).
Definition set_versions v m a := mkApp (app_id a) (m_endpoint_type a) v m (m_queue a) (m_locked_nodes a) (m_watch_nodes a) (dongle_watches a).
Definition add_dongle_watch a := mkApp (app_id a) (m_endpoint_type a) (m_protocol_version a) (m_max_out_going_packet_size a) (m_queue a) (m_locked_nodes a) (m_watch_nodes a) (S (dongle_watches a)).

(** The constructor of [application_endpoint], and [set_is_machine_local] and
    [set_is_network_local]. *)
Definition new_app (this : Z) : app := mkApp this 0 0 0 [] [] [] 0.
Definition set_endpoint_bit (bit : Z) (a : app) : app :=
  mkApp (app_id a) (Z.lor (m_endpoint_type a) bit) (m_protocol_version a) (m_max_out_going_packet_size a) (m_queue a) (m_locked_nodes a) (m_watch_nodes a) (dongle_watches a).

Record node_object : Type := mkNodeObject { no_node : node callback; no_endpoint : nat }.
Record endpoint_object : Type := mkEndpointObject { eo_info : endpoint_info; eo_group : option nat; eo_nodes : list nat }.

(** The rest of the manager, as applications see it. *)
Record tdm {D : Type} : Type := mkTdm {
  t_nodes : gmap nat node_object;
  t_endpoints : gmap nat endpoint_object;
  t_groups : gmap nat group;
  t_registry : list (list Z * nat);
  t_service : service;
  t_devices : world D
}.
Arguments tdm : clear implicits.

(** Notifications that wait in the strand of the endpoint. *)
Inductive notification : Type :=
| NotifyNode (h : nat) (id : list Z) (s : status)
| NotifyVariables (h : nat) (m : variables_map) (timestamp : Z)
| NotifyGroupVariables (g : nat) (m : variables_map)
| NotifyEvents (h : nat) (m : variables_map) (timestamp : Z)
| NotifyDescriptions (g : nat) (l : list event)
| NotifyScratchpad (g : nat) (s : scratchpad)
| NotifyExecutionState (h : nat) (s : vm_execution_state).

Inductive app_effect : Type :=
| DoWrite (r : Reply.t)
| ReadHandshake
| ReadMessage
| StartMonitoring
| StopMonitoring
| NodeDoes (h : nat) (e : effect callback)
| GroupDoes (g : nat) (e : group_effect)
| CallbackToGroup (g : nat) (k : callback)
| CallbackToUpgrade (h : nat) (k : callback)
| ServiceDoes (e : service_effect)
| Disconnect (w : WatchableInfo) (id : list Z)
| Defer (n : notification)
| ArmPing (delay_ms : Z)
| StopContext.

(** What the code takes from elsewhere: random uuids, the locale, members
    without initialization, libraries, the clock and the network. *)
Record environment {D : Type} : Type := mkEnvironment {
  random_uuid : list Z;
  is_utf8_alpha_num : Z -> bool;
  uninitialized : Z;
  uninitialized_id : list Z;
  static_uid : Z;
  partial_map : VariablesMap;
  generate : nat -> list Z;
  default_language : programming_language;
  lexical_convert : int_type -> list Z -> option Z;
  lexical_convert_llong : int_type -> Z -> option Z;
  as_llong : option (list Z) -> Z;
  string_generator : list Z -> option (list Z);
  version_known : list Z -> bool;
  load_aesl : list Z -> option xml_document;
  flexbuffer_to_property : list Z -> option property;
  serial_ports : SerialPorts D;
  libusb_of : option Z -> Libusb D;
  upgrade_starts : nat -> bool;
  now : Z;
  tdm_password : list Z;
  endpoint_uuid : list Z;
  ws_port : Z
}.
Arguments environment : clear implicits.

(** ** Actions *)

Definition action (D A : Type) : Type := app * tdm D -> res runtime_error (A * (app * tdm D) * list app_effect).

#[export] Instance action_ret {D} : MRet (action D) := fun A a s => Ok (a, s, []).
#[export] Instance action_bind {D} : MBind (action D) := fun A B f m s =>
  match m s with
  | Ok (a, s1, e1) =>
      match f a s1 with
      | Ok (b, s2, e2) => Ok (b, s2, e1 ++ e2)
      | Throw e => Throw e
      | Crash => Crash
      | Undef => Undef
      | NoFuel => NoFuel
      end
  | Throw e => Throw e
  | Crash => Crash
  | Undef => Undef
  | NoFuel => NoFuel
  end.

Section Actions.
Context {D : Type}.

Abbreviation action := (action D).

Definition ask {A} (f : app -> tdm D -> A) : action A := fun s => Ok (f (fst s) (snd s), s, []).
Definition change (f : app -> app) : action unit := fun s => Ok (tt, (f (fst s), snd s), []).
Definition change_tdm (f : tdm D -> tdm D) : action unit := fun s => Ok (tt, (fst s, f (snd s)), []).
Definition raise (e : app_effect) : action unit := fun s => Ok (tt, s, [e]).
Definition raise_all (l : list app_effect) : action unit := fun s => Ok (tt, s, l).
Definition of_res {A} (r : res runtime_error A) : action A := fun s => a ← r; Ok (a, s, []).
Definition nothing : action unit := mret tt.

Fixpoint for_each {A} (f : A -> action unit) (l : list A) : action unit :=
  match l with [] => nothing | x :: l' => f x;; for_each f l' end.

Definition set_nodes x (t : tdm D) : tdm D := mkTdm D x (t_endpoints t) (t_groups t) (t_registry t) (t_service t) (t_devices t).
Definition set_groups x (t : tdm D) : tdm D := mkTdm D (t_nodes t) (t_endpoints t) x (t_registry t) (t_service t) (t_devices t).
Definition set_service x y (t : tdm D) : tdm D := mkTdm D (t_nodes t) (t_endpoints t) (t_groups t) (t_registry t) x y.

(** ** What an application finds in the manager *)

Definition alive (t : tdm D) (ep : nat) : bool := match t_endpoints t !! ep with Some _ => true | None => false end.
Definition info_of (o : node_object) (t : tdm D) : option endpoint_info := option_map eo_info (t_endpoints t !! no_endpoint o).

(** [aseba_node::group]. *)
Definition group_of (h : nat) (t : tdm D) : option nat :=
  match t_nodes t !! h with
  | Some o => match t_endpoints t !! no_endpoint o with Some e => eo_group e | None => None end
  | None => None
  end.
Definition group_uuid_of (h : nat) (t : tdm D) : option (list Z) :=
  match group_of h t with Some g => option_map g_uuid (t_groups t !! g) | None => None end.

Definition find_entry (id : list Z) (l : list (list Z * nat)) : option (list Z * nat) := List.find (fun e => bool_decide (fst e = id)) l.
Definition erase_entry (id : list Z) (l : list (list Z * nat)) : list (list Z * nat) := List.filter (fun e => negb (bool_decide (fst e = id))) l.

(** [lock] of the weak pointer that a map has for an id. *)
Definition lookup_live (id : list Z) (l : list (list Z * nat)) (t : tdm D) : option nat :=
  match find_entry id l with
  | Some (_, h) => match t_nodes t !! h with Some _ => Some h | None => None end
  | None => None
  end.

Definition node_from_id (id : list Z) (t : tdm D) : option nat := lookup_live id (t_registry t) t.
Definition get_locked_node (id : list Z) (a : app) (t : tdm D) : option nat := lookup_live id (m_locked_nodes a) t.

(** [aseba_node_registery::group_from_id]. *)
Definition names_group (id : list Z) (t : tdm D) (h : nat) : bool :=
  bool_decide (group_uuid_of h t = Some id).
Definition group_from_id (id : list Z) (t : tdm D) : option nat :=
  match List.find (fun e =>
    match t_nodes t !! snd e with
    | Some o => bool_decide (m_uuid (no_node o) = id) || names_group id t (snd e)
    | None => false
    end) (t_registry t) with
  | Some e => group_of (snd e) t
  | None => None
  end.

(** [get_group]: the group of a locked node. *)
Definition get_group (id : list Z) (a : app) (t : tdm D) : option nat :=
  match List.find (fun e => bool_decide (fst e = id) || names_group id t (snd e)) (m_locked_nodes a) with
  | Some e => group_of (snd e) t
  | None => None
  end.

(** [group::nodes]. *)
Definition group_nodes (g : group) (t : tdm D) : list group_node :=
  List.flat_map (fun ep =>
    match t_endpoints t !! ep with
    | Some e => List.flat_map (fun h =>
        match t_nodes t !! h with
        | Some o => [mkGroupNode (m_uuid (no_node o)) (m_id (no_node o)) (m_status (no_node o)) (friendly_name (Some (eo_info e)) (no_node o))]
        | None => []
        end) (eo_nodes e)
    | None => []
    end) (endpoints (alive t) g).

(** ** Calls *)

(** A call of a node, which knows its endpoint. *)
Definition on_node {A} (h : nat) (f : option endpoint_info -> Node.handler callback A) : action A := fun s =>
  let '(a, t) := s in
  match t_nodes t !! h with
  | None => Crash
  | Some o =>
      match f (info_of o t) (no_node o) with
      | Ok (x, n, e) => Ok (x, (a, set_nodes (<[h := mkNodeObject n (no_endpoint o)]> (t_nodes t)) t), List.map (NodeDoes h) e)
      | Throw e => Throw e
      | Crash => Crash
      | Undef => Undef
      | NoFuel => NoFuel
      end
  end.

(** A call of a group, with the endpoints that live and its nodes. *)
Definition on_group {A} (g : nat) (f : (nat -> bool) -> list group_node -> group -> res runtime_error (A * group * list group_effect)) : action A := fun s =>
  let '(a, t) := s in
  match t_groups t !! g with
  | None => Crash
  | Some gr =>
      '(x, gr', e) ← f (alive t) (group_nodes gr t) gr;
      Ok (x, (a, set_groups (<[g := gr']> (t_groups t)) t), List.map (GroupDoes g) e)
  end.

(** ** The queue *)

Definition write_message (r : Reply.t) : action unit :=
  change (fun a => set_m_queue (m_queue a ++ [r]) a);;
  a ← ask (fun a _ => a);
  if (1 <? List.length (m_queue a))%nat || (m_protocol_version a =? 0) then nothing
  else match m_queue a with front :: _ => raise (DoWrite front) | [] => of_res Crash end.

(** The error is only logged.  [front] and [pop] of an empty queue are
    undefined. *)
Definition handle_write (ec : bool) : action unit :=
  a ← ask (fun a _ => a);
  match m_queue a with
  | [] => of_res Undef
  | _ :: rest =>
      change (set_m_queue rest);;
      match rest with front :: _ => raise (DoWrite front) | [] => nothing end
  end.

(** ** Notifications *)

Definition is_local_endpoint (a : app) : bool := has_bit (m_endpoint_type a) MachineLocal.

Definition node_capabilities (o : node_object) (a : app) (t : tdm D) : Z :=
  if is_local_endpoint a then
    Z.lor (Z.lor CapForceResetAndStop (if is_wirelessly_connected (info_of o t) then 0 else CapFirwmareUpgrade))
          (if can_be_renamed (info_of o t) (no_node o) then CapRename else 0)
  else 0.

(** The status that this application sees. *)
Definition seen_status (s : status) (id : list Z) (a : app) (t : tdm D) : status :=
  let s := if bool_decide (s = busy) && bool_decide (is_Some (get_locked_node id a t)) then ready else s in
  if bool_decide (s = upgrading) then busy else s.

Definition serialize_node (h : nat) (o : node_object) (id : list Z) (s : status) (a : app) (t : tdm D) : fb_node :=
  let n := no_node o in
  mkFbNode id (group_uuid_of h t) (seen_status s (m_uuid n) a t) (node_kind (info_of o t)) (friendly_name (info_of o t) n)
    (node_capabilities o a t) (dec_str (m_firmware_version n)) (dec_str (m_available_firmware_version n)).

(** A node that a task or a closure holds cannot have been destroyed. *)
Definition with_node {A} (h : nat) (f : node_object -> action A) : action A :=
  o ← ask (fun _ t => t_nodes t !! h);
  match o with Some o => f o | None => of_res Crash end.
Definition with_group {A} (g : nat) (f : group -> action A) : action A :=
  o ← ask (fun _ t => t_groups t !! g);
  match o with Some g => f g | None => of_res Crash end.

Definition do_node_changed (h : nat) (id : list Z) (s : status) : action unit :=
  with_node h (fun o =>
    n ← ask (fun a t => serialize_node h o id (seen_status s id a t) a t);
    s' ← ask (seen_status s id);
    write_message (Reply.NodesChanged [n]);;
    if bool_decide (s' = disconnected) then change (fun a => set_m_locked_nodes (erase_entry id (m_locked_nodes a)) a) else nothing).

Definition do_scratchpad_changed (g : nat) (s : scratchpad) : action unit :=
  with_group g (fun gr => write_message (serialize_scratchpad (g_uuid gr) s)).

(** The tasks that [node_changed] and the others post or defer. *)
Definition notify (n : notification) : action unit :=
  match n with
  | NotifyNode h id s => do_node_changed h id s
  | NotifyVariables h m timestamp => with_node h (fun o => write_message (Reply.VariablesChanged (m_uuid (no_node o)) m timestamp))
  | NotifyGroupVariables g m => with_group g (fun gr => write_message (Reply.VariablesChanged (g_uuid gr) m 0))
  | NotifyEvents h m timestamp => with_node h (fun o => write_message (Reply.EventsEmitted (m_uuid (no_node o)) m timestamp))
  | NotifyDescriptions g l => with_group g (fun gr => write_message (serialize_events_descriptions (g_uuid gr) l))
  | NotifyScratchpad g s => do_scratchpad_changed g s
  | NotifyExecutionState h s => with_node h (fun o => write_message (Reply.VMExecutionStateChanged (m_uuid (no_node o)) s))
  end.

Definition send_list_of_thymio2_dongles : action unit :=
  l ← ask (fun _ t => dongles (t_service t));
  write_message (Reply.Thymio2WirelessDonglesChanged
    (List.map (fun d => mkFbDongle (d_uuid d) (d_node_id d) (d_network_id d) (u8 (d_channel d))) l)).

(** What the service of the dongles does; its signal calls the applications at
    once, this one as often as it has connected. *)
Definition service_does (e : service_effect) : action unit :=
  raise (ServiceDoes e);;
  match e with
  | DonglesChanged => n ← ask (fun a _ => dongle_watches a); for_each (fun _ => send_list_of_thymio2_dongles) (seq 0 n)
  | DisconnectAllWireless => nothing
  end.

Definition send_full_node_list : action unit :=
  l ← ask (fun a t => List.flat_map (fun e =>
    match t_nodes t !! snd e with
    | Some o => [serialize_node (snd e) o (m_uuid (no_node o)) (m_status (no_node o)) a t]
    | None => []
    end) (t_registry t));
  write_message (Reply.NodesChanged l).
End Actions.
