(* ===== verification/AppRequests.v ===== *)
(** * The requests of applications

    thymio-device-manager/app_endpoint.h: the handshake, every request, and the
    answers that come later. *)
From Stdlib Require Import ZArith Lia List String.
From stdpp Require Import base list list_monad gmap.
From S2P Require Import Prelude Consts OrdMap Bits Target Utils Errors Lookup Msg Property Node NodeCode NodeInfo Group GroupOps.
From S2P Require Import AppMessages Wireless App.

Local Open Scope Z_scope.

Section Requests.
Context {D : Type}.
Variable env : environment D.

Abbreviation action := (action D).

Definition error (request_id : Z) (e : ErrorType.t) : action unit := write_message (create_error_response request_id e).
Definition ack (request_id : Z) : action unit := write_message (create_ack_response request_id).

(** The callbacks that are given to nodes and groups. *)
Definition completion (request_id : Z) : action callback := ask (fun a _ => (app_id a, request_id)).

(** [if(!n)] with an error, as most requests begin. *)
Definition or_error {A} (o : option A) (request_id : Z) (e : ErrorType.t) (f : A -> action unit) : action unit :=
  match o with Some x => f x | None => error request_id e end.

(** ** Nodes *)

Definition send_aseba_vm_description (request_id : Z) (id : list Z) : action unit :=
  n ← ask (fun _ t => node_from_id id t);
  match n with
  | Some h => with_node h (fun o => write_message (serialize_aseba_vm_description request_id (m_description (no_node o)) id))
  | None => nothing
  end.

Definition rename_node (request_id : Z) (id new_name : list Z) : action unit :=
  n ← ask (fun _ t => node_from_id id t);
  or_error n request_id ErrorType.unknown_node (fun h =>
    with_node h (fun o =>
      caps ← ask (node_capabilities o);
      if has_bit caps CapRename then on_node h (fun ep => rename ep new_name);; ack request_id
      else error request_id ErrorType.unknown_node)).

Definition lock_node (request_id : Z) (id : list Z) : action unit :=
  n ← ask (fun _ t => node_from_id id t);
  or_error n request_id ErrorType.unknown_node (fun h =>
    change (fun a => set_m_locked_nodes (erase_entry id (m_locked_nodes a) ++ [(id, h)]) a);;
    this ← ask (fun a _ => app_id a);
    res ← on_node h (fun _ => lock this);
    if negb res then
      change (fun a => set_m_locked_nodes (erase_entry id (m_locked_nodes a)) a);;
      error request_id ErrorType.node_busy
    else ack request_id).

Definition unlock_node (request_id : Z) (id : list Z) : action unit :=
  n ← ask (get_locked_node id);
  change (fun a => set_m_locked_nodes (erase_entry id (m_locked_nodes a)) a);;
  or_error n request_id ErrorType.unknown_node (fun h =>
    this ← ask (fun a _ => app_id a);
    res ← on_node h (fun _ => unlock this);
    if negb res then error request_id ErrorType.node_busy else ack request_id).

Definition set_node_variables (request_id : Z) (id : list Z) (m : variables_map) : action unit :=
  n ← ask (get_locked_node id);
  or_error n request_id ErrorType.unknown_node (fun h =>
    cb ← completion request_id;
    err ← on_node h (fun ep => Node.set_node_variables ep m (AppWritten cb));
    match err with Some _ => error request_id ErrorType.unsupported_variable_type | None => nothing end).

Definition vm_state_of (request_id : Z) (id : list Z) (cmd : vm_command) : action unit :=
  n ← ask (fun a t =>
    match get_locked_node id a t, cmd with
    | Some h, _ => Some h
    | None, CommandStop =>
        match node_from_id id t with
        | Some h => match t_nodes t !! h with
                    | Some o => if has_bit (node_capabilities o a t) CapForceResetAndStop then Some h else None
                    | None => None
                    end
        | None => None
        end
    | None, _ => None
    end);
  or_error n request_id ErrorType.unknown_node (fun h =>
    cb ← completion request_id;
    on_node h (fun ep => NodeCode.set_vm_execution_state ep (is_utf8_alpha_num env) (uninitialized env) (static_uid env) cmd cb)).

Definition app_set_breakpoints (request_id : Z) (id : list Z) (lines : list Z) : action unit :=
  n ← ask (get_locked_node id);
  or_error n request_id ErrorType.unknown_node (fun h =>
    cb ← completion request_id;
    on_node h (fun ep => NodeCode.set_breakpoints ep lines cb)).

Definition upgrade_node_firmware (request_id : Z) (id : list Z) : action unit :=
  n ← ask (fun a t =>
    match node_from_id id t with
    | Some h => match t_nodes t !! h with
                | Some o => if bool_decide (m_status (no_node o) = available) && has_bit (node_capabilities o a t) CapFirwmareUpgrade then Some h else None
                | None => None
                end
    | None => None
    end);
  or_error n request_id ErrorType.unknown_node (fun h =>
    cb ← completion request_id;
    started ← on_node h (fun ep => upgrade_firmware ep (upgrade_starts env h));
    if (started : bool) then raise (CallbackToUpgrade h cb) else error request_id ErrorType.unknown_error).

(** An exception of a transfer leaves the request. *)
Definition thrown {A} (r : res Z A) : res runtime_error A :=
  match r with Ok x => Ok x | Throw e => Throw (Utils.system_error e) | Crash => Crash | Undef => Undef | NoFuel => NoFuel end.

Definition pair_thymio2_and_dongle (request_id : Z) (dongle_id robot_id : list Z) (network_id channel : Z) : action unit :=
  n ← ask (fun _ t => node_from_id robot_id t);
  or_error n request_id ErrorType.unknown_node (fun h =>
    r ← ask (fun _ t => @configure_dongle D (serial_ports env) (libusb_of env) dongle_id network_id channel (t_service t) (t_devices t));
    let '(res, s, e, w) := r in
    change_tdm (set_service s w);;
    res ← of_res (thrown res);
    for_each service_does e;;
    match res with
    | inr _ => error request_id ErrorType.thymio2_pairing_write_dongle_failed
    | inl d =>
        with_node h (fun o =>
          ok ← on_node h (fun ep => set_rf_settings ep (d_network_id d) (m_id (no_node o)) (u8 (d_channel d)));
          if negb ok then error request_id ErrorType.thymio2_pairing_write_robot_failed
          else write_message (Reply.Thymio2WirelessDonglePairingResponse request_id (d_network_id d) (u8 (d_channel d))))
    end).

(** ** Groups *)

Definition set_group_variables (request_id : Z) (id : list Z) (m : variables_map) : action unit :=
  g ← ask (get_group id);
  or_error g request_id ErrorType.unknown_node (fun g =>
    on_group g (fun alive _ gr => let '(gr', e) := GroupOps.set_shared_variables alive m gr in Ok (tt, gr', e));;
    ack request_id).

Definition app_set_variables (request_id : Z) (id : list Z) (m : variables_map) : action unit :=
  n ← ask (get_locked_node id);
  match n with
  | Some _ => set_node_variables request_id id m
  | None => set_group_variables request_id id m
  end.

Definition app_set_events_table (request_id : Z) (id : list Z) (l : list event) : action unit :=
  g ← ask (get_group id);
  or_error g request_id ErrorType.unknown_node (fun g =>
    on_group g (fun alive _ gr => let '(gr', e) := GroupOps.set_events_table alive l gr in Ok (tt, gr', e));;
    ack request_id).

(** The callback goes to the group, which calls it as [emit_answers] tells. *)
Definition app_emit_events (request_id : Z) (id : list Z) (m : variables_map) : action unit :=
  g ← ask (get_group id);
  or_error g request_id ErrorType.unknown_node (fun g =>
    cb ← completion request_id;
    on_group g (fun alive _ gr => Ok (tt, gr, GroupOps.emit_events alive m gr));;
    raise (CallbackToGroup g cb)).

Definition update_node_scratchpad (request_id : Z) (id content : list Z) (l : programming_language) : action unit :=
  g ← ask (fun a t => match get_locked_node id a t with Some h => group_of h t | None => None end);
  or_error g request_id ErrorType.unknown_node (fun g =>
    on_group g (fun _ _ gr =>
      let '(gr', e) := GroupOps.set_node_scratchpad (generate env) (uninitialized_id env) (default_language env) id content l gr in Ok (tt, gr', e));;
    ack request_id).

(** ** Programs *)

(** The second half of [compile_and_save] and [compile_and_send_program]: the
    node is not locked, so the id may be that of a group. *)
Definition load_into_group (request_id : Z) (id : list Z) (l : programming_language) (program : list Z) : action unit :=
  g ← ask (get_group id);
  or_error g request_id ErrorType.unknown_node (fun g =>
    ec ← on_group g (fun alive nodes gr =>
      match GroupOps.load_code (generate env) (uninitialized_id env) (default_language env) alive (lexical_convert env)
        (lexical_convert_llong env) (as_llong env) (string_generator env) (version_known env) (load_aesl env) nodes program l gr with
      | Ok r => Ok r
      | Undef => Undef
      | NoFuel => NoFuel
      | _ => Crash
      end);
    match ec with
    | Some _ => error request_id ErrorType.unknown_error
    | None =>
        pads ← ask (fun _ t => match t_groups t !! g with Some gr => m_scratchpads gr | None => [] end);
        for_each (do_scratchpad_changed g) pads;;
        ack request_id
    end).

(** Both branches of the options do the same. *)
Definition app_compile_and_save (request_id : Z) (id : list Z) (l : programming_language) (program : list Z) (options : Z) : action unit :=
  n ← ask (get_locked_node id);
  match n with
  | None => load_into_group request_id id l program
  | Some h =>
      cb ← completion request_id;
      bytecode ← on_node h (fun ep =>
        NodeCode.compile_and_save ep (is_utf8_alpha_num env) (uninitialized env) (static_uid env) (partial_map env) l program cb);
      write_message (create_save_response request_id id bytecode)
  end.

Definition app_compile_and_send (request_id : Z) (id : list Z) (l : programming_language) (program : list Z) (options : Z) : action unit :=
  n ← ask (get_locked_node id);
  match n with
  | None => load_into_group request_id id l program
  | Some h =>
      cb ← completion request_id;
      if has_bit options LoadOnTarget then
        on_node h (fun ep => NodeCode.compile_and_send_program ep (is_utf8_alpha_num env) (uninitialized env) (static_uid env) (partial_map env) l program cb)
      else
        on_node h (fun ep => NodeCode.compile_program ep (is_utf8_alpha_num env) (uninitialized env) (static_uid env) (partial_map env) l program cb)
  end.

(** ** Watching *)

Definition watched (w : WatchableInfo) (id : list Z) (a : app) : bool :=
  existsb (fun e => bool_decide (fst e = (w, id))) (m_watch_nodes a).
Definition unwatch (w : WatchableInfo) (id : list Z) : action unit :=
  b ← ask (fun a _ => watched w id a);
  change (fun a => set_m_watch_nodes (List.filter (fun e => negb (bool_decide (fst e = (w, id)))) (m_watch_nodes a)) a);;
  if (b : bool) then raise (Disconnect w id) else nothing.

(** [m_watch_nodes[w][id] = connection]: a connection that was there is cut. *)
Definition watch (w : WatchableInfo) (id : list Z) (s : subscription) : action unit :=
  unwatch w id;; change (fun a => set_m_watch_nodes (m_watch_nodes a ++ [((w, id), s)]) a).

(** The three kinds of information on a group follow one pattern; [start] is
    what is sent at once, before the connection or after it. *)
Definition watch_group (w : WatchableInfo) (id : list Z) (g : nat) (uuid : list Z) (start : action unit) : action unit :=
  b ← ask (fun a _ => watched w id a);
  if negb b then start;; watch w id (ToGroup g)
  else if bool_decide (uuid = id) then unwatch w id else nothing.

Definition watch_node_or_group (request_id : Z) (id : list Z) (flags : Z) : action unit :=
  g ← ask (fun _ t => group_from_id id t);
  n ← ask (fun _ t => node_from_id id t);
  match n, g with
  | None, None => error request_id ErrorType.unknown_node
  | _, _ =>
      match g with
      | Some g =>
          with_group g (fun gr =>
            (if has_bit flags (watch_bit WSharedVariables) then
               watch_group WSharedVariables id g (g_uuid gr) (raise (Defer (NotifyGroupVariables g (m_shared_variables gr)))) else nothing);;
            (if has_bit flags (watch_bit WSharedEventsDescription) then
               watch_group WSharedEventsDescription id g (g_uuid gr) (raise (Defer (NotifyDescriptions g (m_events_table gr)))) else nothing);;
            (if has_bit flags (watch_bit WScratchpads) then
               watch_group WScratchpads id g (g_uuid gr) (raise_all (List.map (fun s => Defer (NotifyScratchpad g s)) (m_scratchpads gr))) else nothing))
      | None => nothing
      end;;
      match n with
      | Some h =>
          with_node h (fun o =>
            (if has_bit flags (watch_bit WVariables) then
               b ← ask (fun a _ => watched WVariables id a);
               (if negb b then raise (Defer (NotifyVariables h (variables (no_node o)) (now env))) else nothing);;
               on_node h (fun _ => connect_to_variables_changes);;
               watch WVariables id (ToNode h)
             else unwatch WVariables id);;
            (if has_bit flags (watch_bit WEvents) then watch WEvents id (ToNode h) else unwatch WEvents id);;
            (if has_bit flags (watch_bit WVMExecutionState) then
               watch WVMExecutionState id (ToNode h);;
               raise (Defer (NotifyExecutionState h (execution_state (no_node o))))
             else unwatch WVMExecutionState id))
      | None => nothing
      end;;
      ack request_id
  end.

(** ** Pairing mode *)

Definition enable_pairing_mode (enable : bool) : action unit :=
  s ← ask (fun _ t => t_service t);
  if Bool.eqb (m_enabled s) enable then nothing
  else
    (if enable then change add_dongle_watch else nothing);;
    let '(s', e) := if enable then Wireless.enable s else Wireless.disable s in
    change_tdm (fun t => set_service s' (t_devices t) t);;
    for_each service_does e.

(** ** [handle_read] *)

(** An id that is taken from a request, and one that is tested first. *)
Definition with_id (id : fb_node_id) (f : list Z -> action unit) : action unit :=
  id ← of_res (node_id (uninitialized_id env) id); f id.
Definition with_tested_id (request_id : Z) (id : fb_node_id) (f : list Z -> action unit) : action unit :=
  match id with None => error request_id ErrorType.unknown_node | Some _ => with_id id f end.

Definition dispatch (msg : Request.t) : action unit :=
  match msg with
  | Request.DeviceManagerShutdownRequest _ => a ← ask (fun a _ => a); if is_local_endpoint a then raise StopContext else nothing
  | Request.RequestListOfNodes => send_full_node_list
  | Request.RequestNodeAsebaVMDescription r id => with_id id (send_aseba_vm_description r)
  | Request.SetVariables r id vars => with_id id (fun id => app_set_variables r id (values (flexbuffer_to_property env) vars))
  | Request.RegisterEvents r id l => with_id id (fun id => app_set_events_table r id (events_description l))
  | Request.SendEvents r id l => with_id id (fun id => app_emit_events r id (values (flexbuffer_to_property env) l))
  | Request.RenameNode r id name => with_id id (fun id => match name with Some name => rename_node r id name | None => of_res Crash end)
  | Request.LockNode r id => with_id id (lock_node r)
  | Request.UnlockNode r id => with_id id (unlock_node r)
  | Request.CompileAndLoadCodeOnVM r id l p o => with_id id (fun id => app_compile_and_send r id l p o)
  | Request.CompileAndSave r id l p o => with_id id (fun id => app_compile_and_save r id l p o)
  | Request.SetVMExecutionState r id c => with_id id (fun id => vm_state_of r id c)
  | Request.WatchNode r id flags => with_id id (fun id => watch_node_or_group r id flags)
  | Request.SetBreakpoints r id l => with_id id (fun id => app_set_breakpoints r id (breakpoints l))
  | Request.ScratchpadUpdate r id text l => with_tested_id r id (fun id => update_node_scratchpad r id text l)
  | Request.FirmwareUpgradeRequest r id => with_tested_id r id (upgrade_node_firmware r)
  | Request.Thymio2WirelessDonglePairingRequest r dongle id network channel =>
      match dongle with
      | None => error r ErrorType.unknown_node
      | Some _ => with_tested_id r id (fun id => with_id dongle (fun dongle => pair_thymio2_and_dongle r dongle id network channel))
      end
  | Request.EnableThymio2PairingMode b => enable_pairing_mode b
  | Request.ConnectionHandshake _ _ _ _ _ | Request.Unsupported => nothing
  end.

Definition handle_read (ec : bool) (msg : Request.t) : action unit :=
  if ec then nothing else raise ReadMessage;; dispatch msg.

(** ** The handshake *)

Definition check_tdm_password (password : list Z) : bool :=
  bool_decide (tdm_password env = []) || bool_decide (password = tdm_password env).

Definition start_sending_pings : action unit := raise (ArmPing 2500).

(** The end of the handshake, which the reply begins. *)
Definition welcome : action unit :=
  a ← ask (fun a _ => a);
  write_message (Reply.ConnectionHandshake tdm.minProtocolVersion (m_protocol_version a) tdm.maxAppEndPointMessageSize
    (is_local_endpoint a) (ws_port env) (endpoint_uuid env) (tdm_password env));;
  if m_protocol_version a =? 0 then nothing
  else send_full_node_list;; start_sending_pings;; raise ReadMessage.

Definition handle_handshake (ec : bool) (msg : Request.t) : action unit :=
  if ec then nothing
  else match msg with
  | Request.ConnectionHandshake min version max _ password =>
      if (version <? tdm.minProtocolVersion) || (tdm.protocolVersion <? min) then welcome
      else
        change (set_versions (u16 (Z.min version tdm.protocolVersion)) (u16 max));;
        a ← ask (fun a _ => a);
        if has_bit (m_endpoint_type a) NetworkLocal then welcome
        else match password with
             | Some p => if check_tdm_password p then welcome else nothing
             | None => nothing
             end
  | _ => nothing
  end.

Definition on_initialized : action unit := raise ReadHandshake;; raise StartMonitoring.

Definition on_ping_timer (ec : bool) : action unit :=
  if ec then nothing else write_message Reply.Ping;; start_sending_pings.

(** ** Answers that come later *)

(** The tasks that nodes post with a callback of this application. *)
Definition answer (t : task callback) : action unit :=
  match t with
  | WriteTask (_, r) ec => match ec with success => ack r | _ => error r ErrorType.node_busy end
  | BreakpointsTask (_, r) ec set =>
      write_message (create_set_breakpoint_response r (match ec with success => ErrorType.no_error | _ => ErrorType.unknown_error end) set)
  | CompileTask (_, r) ec result =>
      match ec, result with
      | success, Some result => write_message (create_compilation_result_response r result)
      | success, None => of_res Crash
      | _, _ => error r ErrorType.unknown_node
      end
  end.

(** The callback of an upgrade: [None] for an error. *)
Definition upgrade_progress (request_id : Z) (id : list Z) (progress : option (Z * bool)) : action unit :=
  match progress with
  | None => error request_id ErrorType.unknown_error
  | Some (_, true) => ack request_id
  | Some (p, false) => write_message (Reply.FirmwareUpgradeStatus request_id id p)
  end.

(** The destructor: the nodes that are locked are released. *)
Definition release (this : Z) (e : list Z * nat) : action unit :=
  n ← ask (fun _ t => t_nodes t !! snd e);
  match n with Some _ => on_node (snd e) (fun _ => unlock this);; nothing | None => nothing end.

Definition destroy : action unit :=
  raise StopMonitoring;;
  a ← ask (fun a _ => a);
  for_each (release (app_id a)) (m_locked_nodes a).
End Requests.
