(* ===== verification/AppSpec.v ===== *)
(** * How requests are followed through

    A relation between the state before, the state after and the effects that
    is kept by doing nothing and by composition holds of an action if it holds
    of its parts.  Two such relations: the queue only grows, and what a request
    does to the locks. *)
From Stdlib Require Import ZArith Lia List String.
From stdpp Require Import base list list_monad gmap.
From S2P Require Import UsbDevice.
From S2P Require Import Prelude Bits Errors Consts OrdMap Target Lookup Utils Msg Property Node NodeCode NodeInfo NodeSpec Group GroupOps AppMessages Wireless App AppRequests.

Local Open Scope Z_scope.

Section Trace.
Context {D : Type}.

Abbreviation state := (app * tdm D)%type.
Abbreviation action := (action D).

(** ** Relations along a run *)

Definition relation : Type := state -> state -> list app_effect -> Prop.

Class Traced (R : relation) : Prop := {
  traced_refl s : R s s [];
  traced_trans s s1 e1 s2 e2 : R s s1 e1 -> R s1 s2 e2 -> R s s2 (e1 ++ e2)
}.

Definition holds {A} (R : relation) (m : action A) (s : state) : Prop :=
  forall x s' e, m s = Ok (x, s', e) -> R s s' e.

Section Holds.
Context (R : relation) `{!Traced R}.

Lemma holds_ret {A} (x : A) s : holds R (mret x) s.
Proof. intros x' s' e [= _ <- <-]. apply traced_refl. Qed.

Lemma holds_nothing s : holds R nothing s.
Proof. apply holds_ret. Qed.

Lemma holds_bind {A B} (m : action A) (k : A -> action B) s :
  holds R m s -> (forall x s', holds R (k x) s') -> holds R (m ≫= k) s.
Proof.
  intros Hm Hk x s' e. cbv [mbind action_bind]. destruct (m s) as [[[y s1] e1]| | | |] eqn:E; try done.
  destruct (k y s1) as [[[z s2] e2]| | | |] eqn:E2; try done. intros [= <- <- <-].
  eapply traced_trans; [by eapply Hm|by eapply Hk].
Qed.

(** What is asked is known of the state at this point. *)
Lemma holds_ask {A B} (f : app -> tdm D -> A) (k : A -> action B) s :
  holds R (k (f (fst s) (snd s))) s -> holds R (ask f ≫= k) s.
Proof.
  intros Hk x s' e. cbv [mbind action_bind ask]. destruct (k (f (fst s) (snd s)) s) as [[[z s2] e2]| | | |] eqn:E; try done.
  intros [= <- <- <-]. by eapply Hk.
Qed.

Lemma holds_res {A} (r : res runtime_error A) s : holds R (of_res r) s.
Proof. intros x s' e. unfold of_res. destruct r; try done. intros [= _ <- <-]. apply traced_refl. Qed.

Lemma holds_for_each {A} (f : A -> action unit) l s : (forall x s', holds R (f x) s') -> holds R (for_each f l) s.
Proof.
  intros Hf. revert s. induction l as [|x l IH]; intros s; [apply holds_nothing|]. cbn [for_each]. by apply holds_bind.
Qed.

Lemma holds_with_id env id f s : (forall id s', holds R (f id) s') -> holds R (with_id env id f) s.
Proof. intros H. apply holds_bind; [apply holds_res|exact H]. Qed.
End Holds.

(** ** The queue *)

(** What is written to the socket. *)
Definition started (e : list app_effect) : list Reply.t :=
  List.flat_map (fun x => match x with DoWrite r => [r] | _ => [] end) e.

Lemma started_app e1 e2 : started (e1 ++ e2) = started e1 ++ started e2.
Proof. unfold started. apply flat_map_app. Qed.

Lemma started_map {A} (f : A -> app_effect) l : (forall x, started [f x] = []) -> started (List.map f l) = [].
Proof. intros H. induction l as [|x l IH]; [done|]. change (started ([f x] ++ List.map f l) = []). by rewrite started_app, H. Qed.

(** Messages are appended; a write starts only if the queue was empty. *)
Definition starts_of (a : app) (w : list Reply.t) : list Reply.t :=
  if m_protocol_version a =? 0 then [] else match m_queue a with [] => take 1 w | _ => [] end.

Definition extends (w : list Reply.t) (s s' : state) (e : list app_effect) : Prop :=
  m_protocol_version (fst s') = m_protocol_version (fst s) /\ app_id (fst s') = app_id (fst s) /\
  m_queue (fst s') = m_queue (fst s) ++ w /\ started e = starts_of (fst s) w.

Definition appends (s s' : state) (e : list app_effect) : Prop := exists w, extends w s s' e.

#[export] Instance appends_traced : Traced appends.
Proof.
  split; [intros s; exists []; split_and!; try done; [by rewrite app_nil_r|unfold starts_of; by repeat case_match]|].
  intros s s1 e1 s2 e2 (w1 & Hv1 & Hi1 & Hq1 & Hs1) (w2 & Hv2 & Hi2 & Hq2 & Hs2). exists (w1 ++ w2).
  split_and!; [congruence|congruence|by rewrite Hq2, Hq1, app_assoc|]. rewrite started_app, Hs1, Hs2. unfold starts_of.
  rewrite Hv1, Hq1. destruct (_ =? 0); [done|]. destruct (m_queue (fst s)); [|done]. destruct w1; [done|].
  by rewrite app_nil_r.
Qed.

Lemma appends_change f s : (forall a, m_protocol_version (f a) = m_protocol_version a /\ app_id (f a) = app_id a /\ m_queue (f a) = m_queue a) ->
  holds appends (change f) s.
Proof.
  intros Hf x s' e [= _ <- <-]. destruct (Hf (fst s)) as (H1 & H2 & H3). exists []. split_and!; try done; cbn.
  - by rewrite H3, app_nil_r.
  - unfold starts_of. by repeat case_match.
Qed.

Lemma appends_silent (s : state) t e : started e = [] -> appends s (fst s, t) e.
Proof.
  intros He. exists []. split_and!; try done; [by rewrite app_nil_r|]. rewrite He. unfold starts_of. by repeat case_match.
Qed.

Lemma appends_tdm f s : holds appends (change_tdm f) s.
Proof. intros x s' e [= _ <- <-]. by apply appends_silent. Qed.

Lemma appends_raise_all l s : started l = [] -> holds appends (raise_all l) s.
Proof.
  intros Hl x s' e [= _ <- <-]. destruct s as [a t]. by apply (appends_silent (a, t)).
Qed.

Lemma appends_raise x s : started [x] = [] -> holds appends (raise x) s.
Proof. exact (appends_raise_all [x] s). Qed.

Lemma appends_node {A} h (f : option endpoint_info -> Node.handler callback A) s : holds appends (on_node h f) s.
Proof.
  intros x s' e. unfold on_node. destruct s as [a t]. destruct (t_nodes t !! h) as [o|]; [|done].
  destruct (f _ _) as [[[y n] e1]| | | |]; try done. intros [= _ <- <-]. apply (appends_silent (a, t)). by apply started_map.
Qed.

Lemma appends_group {A} g (f : (nat -> bool) -> list group_node -> group -> res runtime_error (A * group * list group_effect)) s :
  holds appends (on_group g f) s.
Proof.
  intros x s' e. unfold on_group. destruct s as [a t]. destruct (t_groups t !! g) as [o|]; [|done].
  destruct (f _ _ _) as [[[y n] e1]| | | |]; try done. intros [= _ <- <-]. apply (appends_silent (a, t)). by apply started_map.
Qed.

Lemma write_message_eq r (s : state) : write_message r s =
  Ok (tt, (set_m_queue (m_queue (fst s) ++ [r]) (fst s), snd s), List.map DoWrite (starts_of (fst s) [r])).
Proof.
  destruct s as [a t]. unfold write_message, starts_of. cbv [mbind action_bind change ask fst snd]. cbn [m_queue m_protocol_version set_m_queue].
  rewrite length_app. destruct (m_queue a) as [|x q] eqn:Eq; cbn [List.length Datatypes.app].
  - cbn. by destruct (m_protocol_version a =? 0).
  - rewrite (proj2 (Nat.ltb_lt _ _)) by lia. cbn. by destruct (m_protocol_version a =? 0).
Qed.

Lemma appends_write r s : holds appends (write_message r) s.
Proof.
  intros x s' e. rewrite write_message_eq. intros [= _ <- <-]. exists [r]. split_and!; try done. unfold starts_of.
  destruct (_ =? 0); [done|]. by destruct (m_queue (fst s)).
Qed.
End Trace.

Create HintDb traced.
#[export] Hint Resolve holds_ret holds_nothing holds_res appends_tdm appends_node appends_group appends_write : traced.

(** The parts of the requests. *)
Create HintDb requests.
#[export] Hint Unfold App.with_node App.with_group App.do_node_changed App.do_scratchpad_changed App.notify
  App.send_list_of_thymio2_dongles App.service_does App.send_full_node_list : requests.
#[export] Hint Unfold AppRequests.error AppRequests.ack AppRequests.completion AppRequests.or_error AppRequests.send_aseba_vm_description
  AppRequests.rename_node AppRequests.lock_node AppRequests.unlock_node AppRequests.set_node_variables AppRequests.vm_state_of
  AppRequests.app_set_breakpoints AppRequests.upgrade_node_firmware AppRequests.pair_thymio2_and_dongle AppRequests.set_group_variables
  AppRequests.app_set_variables AppRequests.app_set_events_table AppRequests.app_emit_events AppRequests.update_node_scratchpad
  AppRequests.load_into_group AppRequests.app_compile_and_save AppRequests.app_compile_and_send AppRequests.unwatch AppRequests.watch
  AppRequests.watch_group AppRequests.watch_node_or_group AppRequests.enable_pairing_mode AppRequests.with_tested_id
  AppRequests.dispatch AppRequests.handle_read AppRequests.start_sending_pings AppRequests.answer AppRequests.upgrade_progress : requests.

(** One step of following a relation through an action. *)
Ltac trace leaf :=
  repeat first
    [ progress intros
    | solve [leaf]
    | progress autounfold with requests
    | apply holds_ask
    | apply (holds_with_id _)
    | apply (holds_for_each _)
    | apply (holds_bind _)
    | progress cbv beta iota zeta
    | match goal with |- holds _ ?m _ => match m with context [match ?x with _ => _ end] => destruct x end end ].

Section Queue.
Context {D : Type}.
Variable env : environment D.

Ltac appends := trace ltac:(first [solve [auto with typeclass_instances traced]
  | apply appends_change; intros; split_and!; reflexivity | apply appends_raise; reflexivity
  | apply appends_raise_all; apply started_map; reflexivity ]).

Lemma dispatch_appends msg s : holds appends (dispatch env msg) s.
Proof. destruct msg; cbn [dispatch]; appends. Qed.

Lemma notify_appends n (s : app * tdm D) : holds appends (notify n) s.
Proof. destruct n; cbn [notify]; appends. Qed.

Lemma answer_appends t (s : app * tdm D) : holds appends (answer t) s.
Proof. destruct t as [[i r] ec|[i r] ec set|[i r] ec result]; cbn [answer]; appends. Qed.
End Queue.

(** ** Samples *)

Definition sample_serial : SerialPorts unit :=
  {| serial := fun _ _ w => w; serial_write_some := fun _ _ w => (0, w); serial_read_some := fun _ _ w => ([], w) |}.
Definition sample_libusb : Libusb unit := {|
  usb := fun _ d => (LIBUSB_ERROR_NO_DEVICE, d);
  config_descriptor := fun _ => inl LIBUSB_ERROR_NO_DEVICE;
  bulk_in := fun _ d => (LIBUSB_ERROR_NO_DEVICE, [], d);
  bulk_out := fun _ d => (LIBUSB_ERROR_NO_DEVICE, 0, d)
|}.
Definition sample_environment : environment unit := mkEnvironment unit
  sample_uuid letters 0 (replicate 16 0) 0 [] (fun i => [Z.of_nat i]) Aseba (fun _ _ => None) (fun _ _ => None) (fun _ => 0)
  (fun _ => None) (fun _ => false) (fun _ => None) (fun _ => None) sample_serial (fun _ => sample_libusb)
  (fun _ => true) 0 [1; 2] sample_uuid 8597.

(** A robot that is free, in the group 0 of the endpoint 0. *)
Definition sample_robot : node callback :=
  set_m_uuid sample_uuid (set_m_status available (set_m_description sample_description (new_node sample_uuid 1 6))).
Definition sample_tdm : tdm unit := mkTdm unit
  {[ 0%nat := mkNodeObject sample_robot 0 ]} {[ 0%nat := mkEndpointObject sample_endpoint (Some 0%nat) [0%nat] ]}
  {[ 0%nat := mkGroup [7] [0%nat] [] [] [] 0 ]} [(sample_uuid, 0%nat)] (mkService false []) (mkWorld unit [] tt).

(** An application on the same machine, after the handshake. *)
Definition sample_app : app := set_versions 1 36864 (set_endpoint_bit NetworkLocal (set_endpoint_bit MachineLocal (new_app 5))).

(** * The connection to an application is a channel

    What happens on a connection after the handshake, in any order: requests,
    notifications, late answers, pings, ends of writes, and anything that the
    rest of the manager does in between. *)

Inductive occurrence : Type :=
| Serve (msg : Request.t)
| Notified (n : notification)
| Answered (t : task callback)
| Progress (request_id : Z) (id : list Z) (p : option (Z * bool))
| PingTimer (ec : bool)
| Written (ec : bool).

Section Channel.
Context {D : Type}.
Variable env : environment D.

Abbreviation state := (app * tdm D)%type.

Definition occur (o : occurrence) : action D unit :=
  match o with
  | Serve msg => handle_read env false msg
  | Notified n => notify n
  | Answered t => answer t
  | Progress r id p => upgrade_progress r id p
  | PingTimer ec => on_ping_timer ec
  | Written ec => handle_write ec
  end.

(** A run, with the effects of the connection; the rest of the manager changes
    as it likes. *)
Inductive runs : list occurrence -> state -> state -> list app_effect -> Prop :=
| runs_nil s : runs [] s s []
| runs_elsewhere l a t t' s' e : runs l (a, t') s' e -> runs l (a, t) s' e
| runs_cons o l s s1 e1 s2 e2 : occur o s = Ok (tt, s1, e1) -> runs l s1 s2 e2 -> runs (o :: l) s s2 (e1 ++ e2).

Definition is_written (o : occurrence) : bool := match o with Written _ => true | _ => false end.

Lemma occur_appends o (s s' : state) e : is_written o = false -> occur o s = Ok (tt, s', e) -> appends s s' e.
Proof.
  intros Ho E. destruct o as [msg|n|t|r id p|ec|]; try done.
  - eapply (holds_bind appends (raise ReadMessage) (fun _ => dispatch env msg)); [by apply appends_raise|intros; apply dispatch_appends|exact E].
  - by eapply notify_appends.
  - by eapply answer_appends.
  - cbn [occur] in E. unfold upgrade_progress in E. destruct p as [[p []]|]; by eapply appends_write.
  - destruct ec; cbn [occur on_ping_timer] in E; [by eapply (holds_nothing appends)|].
    eapply (holds_bind appends (write_message Reply.Ping) (fun _ => start_sending_pings)); [apply appends_write| |exact E].
    intros. by apply appends_raise.
Qed.

(** ** A channel *)

(** [k] messages have been sent, of those that were in the queue and those that
    came; the messages whose write was started are these, and the one at the
    front. *)
Definition channel (k : nat) (s s' : state) (e : list app_effect) : Prop :=
  m_protocol_version (fst s') = m_protocol_version (fst s) /\ exists came,
  let all := m_queue (fst s) ++ came in
  (k <= List.length all)%nat /\ m_queue (fst s') = drop k all /\
  take 1 (m_queue (fst s)) ++ started e = take k all ++ take 1 (m_queue (fst s')).

Lemma channel_appends s s' e : m_protocol_version (fst s) <> 0 -> appends s s' e -> channel 0 s s' e.
Proof.
  intros Hv (w & Hv' & _ & Hq & Hs). split; [done|]. exists w. cbv zeta. split; [lia|]. rewrite drop_0. split; [done|].
  rewrite Hs, Hq. unfold starts_of. rewrite (proj2 (Z.eqb_neq _ _)) by done. cbn [take Datatypes.app].
  destruct (m_queue (fst s)); [done|]. by rewrite app_nil_r.
Qed.

Lemma channel_written ec (s s' : state) e : handle_write ec s = Ok (tt, s', e) -> channel 1 s s' e.
Proof.
  destruct s as [a t]. unfold handle_write, channel. cbv [mbind action_bind ask change raise nothing mret action_ret of_res fst snd].
  destruct (m_queue a) as [|x [|y q]] eqn:Eq; intros E; try done; injection E as <- <-; (split; [done|]); exists []; cbv zeta;
    rewrite app_nil_r; (split; [cbn; lia|]); by split.
Qed.

Lemma channel_trans k1 k2 s s1 e1 s2 e2 : channel k1 s s1 e1 -> channel k2 s1 s2 e2 -> channel (k1 + k2) s s2 (e1 ++ e2).
Proof.
  intros [Hv1 (l1 & Hk1 & Hq1 & Ht1)] [Hv2 (l2 & Hk2 & Hq2 & Ht2)]. cbv zeta in *. split; [congruence|]. exists (l1 ++ l2). cbv zeta.
  rewrite app_assoc. rewrite Hq1 in Hk2, Hq2, Ht2. rewrite length_app, length_drop in Hk2.
  assert (drop k1 (m_queue (fst s) ++ l1) ++ l2 = drop k1 ((m_queue (fst s) ++ l1) ++ l2)) as Hd by (symmetry; by apply drop_app_le).
  split; [rewrite length_app; lia|]. split; [by rewrite Hq2, Hd, drop_drop|].
  rewrite started_app, (app_assoc _ (started e1)), Ht1, Hq1, <- (app_assoc (take k1 _)), Ht2, Hd.
  rewrite (app_assoc (take k1 _)). f_equal. rewrite <- (take_app_le (m_queue (fst s) ++ l1) l2 k1) by done.
  rewrite <- (take_drop k1 (take (k1 + k2) _)), take_take, <- take_drop_commute. do 2 f_equal. lia.
Qed.


(** ** A queue that is stuck *)

(** A message that was queued before the handshake stays at the front: no write
    is in flight, so that none ends, and nothing starts one. *)
Theorem queued_before_handshake msg (s s1 s2 : state) e1 l e2 :
  m_queue (fst s) <> [] -> handle_handshake env false msg s = Ok (tt, s1, e1) ->
  List.filter is_written l = [] -> runs l s1 s2 e2 -> started (e1 ++ e2) = [].
Proof.
  intros Hq Hh Hl Hr.
  assert (forall s s' : state, forall e, m_queue (fst s) <> [] -> appends s s' e -> started e = [] /\ m_queue (fst s') <> []) as Hstay.
  { intros s0 s0' e0 Hs0 (w & _ & _ & Hw & ->). unfold starts_of. destruct (m_queue (fst s0)) eqn:E0; [done|].
    rewrite Hw. by destruct (_ =? 0). }
  assert (forall s, holds appends (welcome env) s) as Hwel.
  { intros s0. unfold welcome. apply holds_ask. apply (holds_bind _); [apply appends_write|]. intros _ s'.
    destruct (_ =? 0); [apply (holds_nothing _)|]. apply (holds_bind _); [apply holds_ask, appends_write|]. intros _ s''.
    apply (holds_bind _); [by apply appends_raise|]. intros. by apply appends_raise. }
  assert (started e1 = [] /\ m_queue (fst s1) <> []) as [He1 Hs1].
  { destruct msg; cbn [handle_handshake] in Hh; try (injection Hh as <- <-; by split). destruct (_ || _).
    - by eapply Hstay, Hwel.
    - destruct s as [a t]. cbv [mbind action_bind ask change fst snd] in Hh. destruct (has_bit _ _); [|destruct password; [destruct (check_tdm_password _ _)|]].
      all: try (injection Hh as <- <-; by split).
      all: match type of Hh with context [welcome env ?s0] => destruct (welcome env s0) as [[[[] s0'] e0]| | | |] eqn:E; try done; injection Hh as <- <-; eapply (Hstay s0); [exact Hq|by eapply Hwel] end. }
  rewrite started_app, He1. clear - Hs1 Hl Hr Hstay. induction Hr as [|l a t t' s' e _ IH|o l s s1 e1 s2 e2 Ho _ IH]; [done|by apply IH|].
  cbn in Hl. destruct (is_written o) eqn:Eo; [done|]. apply occur_appends in Ho; [|done]. apply Hstay in Ho as [He Hs]; [|done].
  rewrite started_app, He. by apply IH.
Qed.
End Channel.

(** ** Samples *)

Definition sample_run : list occurrence :=
  [Serve (Request.LockNode 1 (Some (Some sample_uuid))); Serve (Request.SetVMExecutionState 2 (Some (Some sample_uuid)) CommandRun);
   Answered (WriteTask (5, 2) success); Written false; PingTimer false].


Lemma queued_before_handshake_witness : exists s1 e1 s2 e2,
  let s := (set_m_queue [Reply.NodesChanged []] (set_endpoint_bit NetworkLocal (new_app 5)), sample_tdm) in
  handle_handshake sample_environment false (Request.ConnectionHandshake 1 1 102400 None None) s = Ok (tt, s1, e1) /\
  runs sample_environment [PingTimer false] s1 s2 e2 /\ List.length (m_queue (fst s2)) = 4%nat /\ started (e1 ++ e2) = [].
Proof.
  eexists _, _, _, _. cbv zeta. split; [vm_compute; reflexivity|].
  match goal with |- ?P /\ _ => assert P as Hr end.
  { eapply runs_cons; [vm_compute; reflexivity|]. apply runs_nil. }
  split; [exact Hr|]. split; [reflexivity|].
  refine (queued_before_handshake sample_environment (Request.ConnectionHandshake 1 1 102400 None None)
    (set_m_queue [Reply.NodesChanged []] (set_endpoint_bit NetworkLocal (new_app 5)), sample_tdm) _ _ _ _ _ _ _ _ Hr); [discriminate|vm_compute; reflexivity|reflexivity].
Defined.
