(* ===== verification/AppLocks.v ===== *)
(** * Applications and the locks of nodes

    The table of locked nodes of an application is accurate: it lists the nodes
    that the application holds.  What a request touches, the application holds,
    but for a few requests; what an application holds is released when it goes,
    after any sequence of requests, notifications and changes in the rest of the
    manager in which no node that it holds is announced as gone. *)
From Stdlib Require Import ZArith Lia List String.
From stdpp Require Import base list list_monad gmap.
From S2P Require Import Prelude Consts OrdMap Bits Target Utils Lookup Msg Property Node NodeCode NodeInfo NodeSpec Group GroupOps.
From S2P Require Import AppMessages Wireless App AppRequests AppSpec.

Local Open Scope Z_scope.

Section Locks.
Context {D : Type}.
Variable env : environment D.

Abbreviation state := (app * tdm D)%type.

Definition holder (h : nat) (t : tdm D) : option (option Z) := option_map (fun o => m_connected_app (no_node o)) (t_nodes t !! h).

(** ** Requests that do not change locks *)

Definition locks_kept (s s' : state) (e : list app_effect) : Prop :=
  app_id (fst s') = app_id (fst s) /\ m_locked_nodes (fst s') = m_locked_nodes (fst s) /\
  t_registry (snd s') = t_registry (snd s) /\ (forall h, holder h (snd s') = holder h (snd s)).

#[local] Instance locks_kept_traced : Traced locks_kept.
Proof.
  split; [by intros s|]. intros s s1 e1 s2 e2 (H1 & H2 & H3 & H4) (K1 & K2 & K3 & K4).
  split_and!; [congruence..|]. intros h. by rewrite K4.
Qed.

Lemma kept_change f s : (forall a, app_id (f a) = app_id a /\ m_locked_nodes (f a) = m_locked_nodes a) -> holds locks_kept (change f) s.
Proof. intros Hf x s' e [= _ <- <-]. by destruct (Hf (fst s)). Qed.

Lemma kept_tdm f s : (forall t, t_registry (f t) = t_registry t /\ t_nodes (f t) = t_nodes t) -> holds locks_kept (change_tdm f) s.
Proof. intros Hf x s' e [= _ <- <-]. destruct (Hf (snd s)) as [H1 H2]. split_and!; try done. intros h. unfold holder. cbn [snd]. by rewrite H2. Qed.

Lemma kept_raise_all l s : holds locks_kept (raise_all l) s.
Proof. by intros x s' e [= _ <- <-]. Qed.

Lemma kept_raise x s : holds locks_kept (raise x) s.
Proof. exact (kept_raise_all [x] s). Qed.

Lemma kept_node {A} h (f : option endpoint_info -> Node.handler callback A) s :
  (forall ep, keeps m_connected_app (f ep)) -> holds locks_kept (on_node h f) s.
Proof.
  intros Hf x s' e. unfold on_node. destruct s as [a t]. destruct (t_nodes t !! h) as [o|] eqn:Eo; [|done].
  destruct (f _ _) as [[[y n] e1]| | | |] eqn:Ef; try done. intros [= _ <- <-]. split_and!; try done. intros h'.
  unfold holder. cbn [snd set_nodes t_nodes]. destruct (decide (h = h')) as [<-|Hne].
  - rewrite lookup_insert_eq, Eo. cbn. f_equal. by eapply Hf.
  - by rewrite lookup_insert_ne.
Qed.

Lemma kept_group {A} g (f : (nat -> bool) -> list group_node -> group -> res runtime_error (A * group * list group_effect)) s :
  holds locks_kept (on_group g f) s.
Proof.
  intros x s' e. unfold on_group. destruct s as [a t]. destruct (t_groups t !! g) as [o|]; [|done].
  destruct (f _ _ _) as [[[y n] e1]| | | |]; try done. by intros [= _ <- <-].
Qed.

Lemma kept_write r s : holds locks_kept (write_message r) s.
Proof. intros x s' e. rewrite write_message_eq. by intros [= _ <- <-]. Qed.
End Locks.

#[local] Existing Instance locks_kept_traced.
#[local] Hint Resolve kept_raise_all kept_raise kept_group kept_write : traced.

(** The calls of nodes, but for those of the lock. *)
Ltac kept_leaf :=
  first [ solve [auto with typeclass_instances traced]
        | apply kept_change; intros; split; reflexivity
        | apply kept_tdm; intros; split; reflexivity
        | apply kept_node; intros; solve [keeps] ].

Section Requests.
Context {D : Type}.
Variable env : environment D.

Abbreviation state := (app * tdm D)%type.

Definition locking (msg : Request.t) : bool :=
  match msg with Request.LockNode _ _ | Request.UnlockNode _ _ => true | _ => false end.

Lemma dispatch_kept msg (s : state) : locking msg = false -> holds locks_kept (dispatch env msg) s.
Proof.
  pose proof (fun l => keeps_post_all (m_connected_app (K:=callback)) l).
  intros Hl. destruct msg; try discriminate Hl; clear Hl; cbn [dispatch]; trace kept_leaf.
Qed.
End Requests.

(** ** The table of locked nodes *)
Section Table.
Context {D : Type}.
Variable env : environment D.

Abbreviation state := (app * tdm D)%type.

(** The registry has every node once, under one id; the table of locked nodes
    is a part of it, and lists exactly the nodes that the application holds. *)
Record consistent (s : state) : Prop := {
  ids_once : NoDup (List.map fst (t_registry (snd s)));
  nodes_once : NoDup (List.map snd (t_registry (snd s)));
  table_current e : e ∈ m_locked_nodes (fst s) -> e ∈ t_registry (snd s);
  table_accurate h x : holder h (snd s) = Some x -> (x = Some (app_id (fst s)) <-> exists id, (id, h) ∈ m_locked_nodes (fst s))
}.

Lemma consistent_kept s s' e : locks_kept s s' e -> consistent s -> consistent s'.
Proof.
  intros (Hi & Hl & Hr & Hh) [H1 H2 H3 H4]. split; rewrite ?Hr, ?Hl, ?Hi; try done.
  intros h x Hx. rewrite Hh in Hx. by apply H4.
Qed.

Lemma NoDup_fst_inj {A B} (l : list (A * B)) a b b' : NoDup (List.map fst l) -> (a, b) ∈ l -> (a, b') ∈ l -> b = b'.
Proof.
  induction l as [|[x y] l IH]; intros Hn; [by intros ?%elem_of_nil|]. apply NoDup_cons in Hn as [Hx Hn].
  assert (forall z, (x, z) ∉ l) as Hx' by (intros z Hz; apply Hx, list_elem_of_fmap; by exists (x, z)).
  intros [[= -> ->]|Hb]%elem_of_cons [[= E]|Hb']%elem_of_cons; subst; try done; [by destruct (Hx' b')|by destruct (Hx' b)|by apply IH].
Qed.

Lemma NoDup_snd_inj {A B} (l : list (A * B)) a a' b : NoDup (List.map snd l) -> (a, b) ∈ l -> (a', b) ∈ l -> a = a'.
Proof.
  induction l as [|[x y] l IH]; intros Hn; [by intros ?%elem_of_nil|]. apply NoDup_cons in Hn as [Hx Hn].
  assert (forall z, (z, y) ∉ l) as Hx' by (intros z Hz; apply Hx, list_elem_of_fmap; by exists (z, y)).
  intros [[= -> ->]|Hb]%elem_of_cons [[= E]|Hb']%elem_of_cons; subst; try done; [by destruct (Hx' a')|by destruct (Hx' a)|by apply IH].
Qed.

Lemma find_entry_Some id l e : find_entry id l = Some e -> e ∈ l /\ fst e = id.
Proof. intros [H1 H2]%List.find_some. split; [by apply list_elem_of_In|]. by apply bool_decide_eq_true in H2. Qed.

Lemma find_entry_None id l h : find_entry id l = None -> (id, h) ∉ l.
Proof.
  intros H Hin. apply list_elem_of_In in Hin. apply (List.find_none _ _ H) in Hin. cbn in Hin.
  by rewrite bool_decide_eq_true_2 in Hin.
Qed.

Lemma elem_of_erase id l e : e ∈ erase_entry id l <-> e ∈ l /\ fst e <> id.
Proof.
  unfold erase_entry. rewrite !list_elem_of_In, List.filter_In, negb_true_iff, bool_decide_eq_false. done.
Qed.

Lemma lookup_live_Some id l (t : tdm D) h : lookup_live id l t = Some h -> (id, h) ∈ l /\ exists o, t_nodes t !! h = Some o.
Proof.
  unfold lookup_live. destruct (find_entry id l) as [[i h']|] eqn:E; [|done]. apply find_entry_Some in E as [Hin Hi]. cbn in Hi. subst i.
  destruct (t_nodes t !! h') as [o|] eqn:Eo; [|done]. intros [= <-]. eauto.
Qed.

(** The table after an entry for [id] was replaced or removed. *)
Lemma erase_others s id h h' : consistent s -> (id, h) ∈ t_registry (snd s) -> h' <> h ->
  (exists i, (i, h') ∈ m_locked_nodes (fst s)) <-> (exists i, (i, h') ∈ erase_entry id (m_locked_nodes (fst s))).
Proof.
  intros Hc Hid Hne. split; intros [i Hi]; exists i.
  - apply elem_of_erase. split; [done|]. cbn. intros ->. apply Hne. by eapply NoDup_fst_inj, Hid; [apply ids_once|apply table_current].
  - by apply elem_of_erase in Hi as [Hi _].
Qed.

Lemma holder_node {A} h (f : option endpoint_info -> Node.handler callback A) (a : app) (t : tdm D) o x n e :
  t_nodes t !! h = Some o -> f (info_of o t) (no_node o) = Ok (x, n, e) ->
  exists t', on_node h f (a, t) = Ok (x, (a, t'), List.map (NodeDoes h) e) /\ t_registry t' = t_registry t /\
    holder h t' = Some (m_connected_app n) /\ (forall h', h' <> h -> holder h' t' = holder h' t) /\
    t_nodes t' = <[h := mkNodeObject n (no_endpoint o)]> (t_nodes t).
Proof.
  intros Ho Hf. unfold on_node. rewrite Ho, Hf. eexists. split; [reflexivity|]. split; [done|].
  unfold holder. cbn [set_nodes t_nodes]. split; [by rewrite lookup_insert_eq|]. split; [|done].
  intros h' Hne. by rewrite lookup_insert_ne.
Qed.

(** A reply at the end of an action. *)
Lemma replied s (r : Reply.t) s' e : consistent s -> write_message r s = Ok (tt, s', e) -> consistent s'.
Proof. intros Hc E. eapply consistent_kept; [|exact Hc]. by eapply kept_write. Qed.

Definition with_table (l : list (list Z * nat)) (s : state) (t : tdm D) : state := (set_m_locked_nodes l (fst s), t).

Lemma locked_consistent s id h t' : consistent s -> (id, h) ∈ t_registry (snd s) ->
  t_registry t' = t_registry (snd s) -> holder h t' = Some (Some (app_id (fst s))) ->
  (forall h', h' <> h -> holder h' t' = holder h' (snd s)) ->
  consistent (with_table (erase_entry id (m_locked_nodes (fst s)) ++ [(id, h)]) s t').
Proof.
  intros Hc Hid Hr Hh Ho. split; cbn [with_table fst snd m_locked_nodes set_m_locked_nodes app_id]; rewrite ?Hr; try apply Hc.
  - intros e [[He _]%elem_of_erase| ->%list_elem_of_singleton]%elem_of_app; [by apply table_current in He|done].
  - intros h' x Hx. destruct (decide (h' = h)) as [->|Hne].
    + rewrite Hh in Hx. injection Hx as <-. split; [|done]. intros _. exists id. apply elem_of_app. right. by apply list_elem_of_singleton.
    + rewrite Ho in Hx by done. rewrite (table_accurate s Hc h' x Hx), (erase_others s id h h') by done.
      apply exist_proper. intros i. rewrite elem_of_app, list_elem_of_singleton. split; [by left|]. intros [?|[= _ ->]]; done.
Qed.

Lemma unlocked_consistent s id h t' : consistent s -> (id, h) ∈ t_registry (snd s) ->
  t_registry t' = t_registry (snd s) -> (forall x, holder h t' = Some x -> x <> Some (app_id (fst s))) ->
  (forall h', h' <> h -> holder h' t' = holder h' (snd s)) ->
  consistent (with_table (erase_entry id (m_locked_nodes (fst s))) s t').
Proof.
  intros Hc Hid Hr Hh Ho. split; cbn [with_table fst snd m_locked_nodes set_m_locked_nodes app_id]; rewrite ?Hr; try apply Hc.
  - intros e [He _]%elem_of_erase. by apply table_current in He.
  - intros h' x Hx. destruct (decide (h' = h)) as [->|Hne].
    + split; [by intros ->; destruct (Hh _ Hx)|]. intros [i [Hi Hne]%elem_of_erase]. destruct Hne. cbn.
      apply table_current in Hi; [|done]. by eapply NoDup_snd_inj, Hid; [apply nodes_once|].
    + rewrite Ho in Hx by done. by rewrite (table_accurate s Hc h' x Hx), (erase_others s id h h').
Qed.
End Table.

Section Released.
Context {D : Type}.
Variable env : environment D.

Abbreviation state := (app * tdm D)%type.

Definition preserves_consistency (s s' : state) (e : list app_effect) : Prop := consistent s -> consistent s'.

Lemma reply_ok (r : Reply.t) (s : state) : holds preserves_consistency (write_message r) s.
Proof. intros [] s' e E Hc. by eapply replied. Qed.

Lemma lock_node_consistent r id (s : state) : holds preserves_consistency (lock_node r id) s.
Proof.
  destruct s as [a t]. unfold lock_node. intros [] s' e. cbv [mbind action_bind ask fst snd].
  destruct (node_from_id id t) as [h|] eqn:En; cbn [or_error]; [|destruct (error _ _ _) as [[[[] ?] ?]| | | |] eqn:Ee; try done; intros [= <- <-]; by eapply reply_ok].
  apply lookup_live_Some in En as [Hreg [o Ho]]. cbv [change fst snd].
  set (a1 := set_m_locked_nodes (erase_entry id (m_locked_nodes a) ++ [(id, h)]) a).
  change (app_id a1) with (app_id a). destruct (lock_result (app_id a) (no_node o)) as (b & n & e0 & El & Hb & Hkeep & Hbusy).
  destruct (holder_node h (fun _ => lock (app_id a)) a1 t o b n e0 Ho El) as (t' & -> & Hr & Hh & Hothers & _).
  intros E Hc. destruct b; cbn [negb] in E.
  - destruct (ack r _) as [[[[] s2] e2]| | | |] eqn:Ea; try done. injection E as <- <-. apply (reply_ok _ _ _ _ _ Ea).
    apply (locked_consistent (a, t) id h t'); try done. rewrite Hh. f_equal. by apply Hb.
  - destruct (error _ _ _) as [[[[] s2] e2]| | | |] eqn:Ea; try done. injection E as <- <-. apply (reply_ok _ _ _ _ _ Ea).
    assert (m_connected_app (no_node o) <> Some (app_id a)) as Hfree.
    { intros Heq. assert (m_connected_app n = Some (app_id a)) as Hn by (rewrite Hkeep; congruence). by apply Hb in Hn. }
    cbn [m_locked_nodes a1 set_m_locked_nodes].
    assert (set_m_locked_nodes (erase_entry id (erase_entry id (m_locked_nodes a) ++ [(id, h)])) a1
            = fst (with_table (erase_entry id (m_locked_nodes a)) (a, t) t')) as Heq.
    { unfold with_table, a1, set_m_locked_nodes. cbn [fst]. f_equal. unfold erase_entry. rewrite List.filter_app. cbn.
      rewrite bool_decide_eq_true_2 by done. cbn. rewrite app_nil_r. apply List.forallb_filter_id. apply List.forallb_forall.
      intros x Hx. apply List.filter_In in Hx as [_ Hx]. exact Hx. }
    rewrite Heq. apply (unlocked_consistent (a, t) id h t'); try done. intros x. rewrite Hh. intros [= <-] Hn.
    by apply Hb in Hn.
Qed.

Lemma unlock_node_consistent r id (s : state) : holds preserves_consistency (unlock_node r id) s.
Proof.
  destruct s as [a t]. unfold unlock_node. intros [] s' e. cbv [mbind action_bind ask change fst snd].
  set (a1 := set_m_locked_nodes (erase_entry id (m_locked_nodes a)) a).
  destruct (get_locked_node id a t) as [h|] eqn:En; cbn [or_error].
  - apply lookup_live_Some in En as [Htab [o Ho]]. change (app_id a1) with (app_id a).
    destruct (unlock_result (app_id a) (no_node o)) as (b & n & e0 & El & Hb & Hn).
    destruct (holder_node h (fun _ => unlock (app_id a)) a1 t o b n e0 Ho El) as (t' & -> & Hr & Hh & Hothers & _).
    intros E Hc. assert (b = true) as ->.
    { apply Hb. assert (holder h t = Some (m_connected_app (no_node o))) as Hx by (unfold holder; by rewrite Ho).
      apply (table_accurate (a, t) Hc h _ Hx). by exists id. }
    cbn [negb] in E. destruct (ack r _) as [[[[] s2] e2]| | | |] eqn:Ea; try done. injection E as <- <-. apply (reply_ok _ _ _ _ _ Ea).
    apply (unlocked_consistent (a, t) id h t'); try done; [by apply (table_current (a, t) Hc)|]. intros x. rewrite Hh, Hn. by intros [= <-].
  - destruct (error _ _ _) as [[[[] s2] e2]| | | |] eqn:Ea; try done. intros [= <- <-] Hc. apply (reply_ok _ _ _ _ _ Ea).
    unfold get_locked_node, lookup_live in En. destruct (find_entry id (m_locked_nodes a)) as [[i h]|] eqn:Ef.
    + apply find_entry_Some in Ef as [Hin Hi]. cbn in Hi. subst i. destruct (t_nodes t !! h) as [o|] eqn:Eo; [done|].
      apply (unlocked_consistent (a, t) id h t); try done; [by apply (table_current (a, t) Hc)|]. intros x. unfold holder. by rewrite Eo.
    + assert (a1 = a) as ->; [|done]. unfold a1, set_m_locked_nodes. destruct a as [i1 i2 i3 i4 i5 tab i7 i8]. cbn in *. f_equal.
      unfold erase_entry. apply List.forallb_filter_id, List.forallb_forall. intros [i h] Hx. apply negb_true_iff, bool_decide_eq_false.
      cbn. intros ->. apply list_elem_of_In in Hx. by eapply find_entry_None.
Qed.

Lemma read_consistent msg (s s' : state) e : handle_read env false msg s = Ok (tt, s', e) -> consistent s -> consistent s'.
Proof.
  intros E. cbv [handle_read mbind action_bind raise] in E. destruct (dispatch env msg s) as [[[[] s1] e1]| | | |] eqn:Ed; try done.
  injection E as <- <-. destruct (locking msg) eqn:El; [|intros Hc; eapply consistent_kept; [|exact Hc]; by eapply dispatch_kept].
  destruct msg; try discriminate El; cbn [dispatch] in Ed; cbv [with_id mbind action_bind of_res] in Ed; cbn in Ed.
  all: destruct (node_id _ _) as [id| | | |]; try done; cbn in Ed.
  - destruct (lock_node _ _ _) as [[[[] s2] e2]| | | |] eqn:E2; try done. injection Ed as <- <-. by eapply lock_node_consistent.
  - destruct (unlock_node _ _ _) as [[[[] s2] e2]| | | |] eqn:E2; try done. injection Ed as <- <-. by eapply unlock_node_consistent.
Qed.

(** ** What is left when an application goes *)

(** What the rest of the manager may do meanwhile: locks are not taken from the
    application nor given to it, and the nodes that it has locked stay in the
    registry under their ids; nodes that are new are not those of its table. *)
Record undisturbed (a : app) (t t' : tdm D) : Prop := {
  ids_stay_once : NoDup (List.map fst (t_registry t'));
  nodes_stay_once : NoDup (List.map snd (t_registry t'));
  table_registered e : e ∈ m_locked_nodes a -> e ∈ t_registry t';
  locks_stay h x y : holder h t = Some x -> holder h t' = Some y -> (y = Some (app_id a) <-> x = Some (app_id a));
  new_nodes h y : holder h t = None -> holder h t' = Some y -> y <> Some (app_id a) /\ forall id, (id, h) ∉ m_locked_nodes a
}.

Lemma undisturbed_consistent a t t' : undisturbed a t t' -> consistent (a, t) -> consistent (a, t').
Proof.
  intros [H1 H2 H3 H4 H5] Hc. split; try done. cbn [fst snd]. intros h y Hy. destruct (holder h t) as [x|] eqn:Hx.
  - rewrite (H4 h x y Hx Hy). by apply (table_accurate (a, t) Hc).
  - destruct (H5 h y Hx Hy) as [Hn Hno]. split; [done|]. intros [id Hin]. by destruct (Hno id).
Qed.

(** An announcement that takes a node that is held out of the table. *)
Definition takes_lock (o : occurrence) (s : state) : Prop :=
  match o with
  | Notified (NotifyNode _ id st) =>
      st = disconnected /\ exists h, (id, h) ∈ m_locked_nodes (fst s) /\ holder h (snd s) = Some (Some (app_id (fst s)))
  | _ => False
  end.

(** Everything that happens on a connection, in any order. *)
Inductive session : list occurrence -> state -> state -> Prop :=
| session_nil s : session [] s s
| session_elsewhere l a t t' s' : undisturbed a t t' -> session l (a, t') s' -> session l (a, t) s'
| session_cons o l s s1 e s2 : occur env o s = Ok (tt, s1, e) -> ~ takes_lock o s -> session l s1 s2 -> session (o :: l) s s2.

Lemma notify_node_consistent h id st (s s' : state) e : ~ takes_lock (Notified (NotifyNode h id st)) s ->
  do_node_changed h id st s = Ok (tt, s', e) -> consistent s -> consistent s'.
Proof.
  destruct s as [a t]. intros Ht E Hc. unfold do_node_changed, with_node in E. cbv [mbind action_bind ask] in E. cbn [snd] in E.
  destruct (t_nodes t !! h) as [o|]; [|done]. rewrite write_message_eq in E. cbv [change nothing mret action_ret fst snd] in E. cbn [fst snd] in *.
  set (a1 := set_m_queue _ _) in E. assert (consistent (a1, t)) as Hc1 by (destruct Hc; by split).
  destruct (bool_decide _) eqn:Eb; injection E as <- _; [|exact Hc1]. apply bool_decide_eq_true in Eb.
  assert (st = disconnected) as -> by (unfold seen_status in Eb; by destruct st, (get_locked_node _ _ _)).
  destruct (find_entry id (m_locked_nodes a)) as [[i h']|] eqn:Ef.
  - apply find_entry_Some in Ef as [Hin Hi]. cbn in Hi. subst i.
    apply (unlocked_consistent (a1, t) id h' t Hc1); try done; [by apply (table_current (a, t) Hc)|].
    cbn [fst a1 app_id set_m_queue]. intros x Hx ->. apply Ht. split; [done|]. by exists h'.
  - match goal with |- consistent (?x, _) => assert (x = a1) as -> end; [|done].
    unfold a1, set_m_locked_nodes, set_m_queue. destruct a as [i1 i2 i3 i4 i5 tab i7 i8]. cbn in *. f_equal.
    unfold erase_entry. apply List.forallb_filter_id, List.forallb_forall. intros [i x] Hx. apply negb_true_iff, bool_decide_eq_false.
    cbn. intros ->. apply list_elem_of_In in Hx. exact (find_entry_None _ _ _ Ef Hx).
Qed.

Lemma occur_consistent o (s s' : state) e : ~ takes_lock o s -> occur env o s = Ok (tt, s', e) -> consistent s -> consistent s'.
Proof.
  intros Ht E. assert (holds locks_kept (occur env o) s -> consistent s -> consistent s') as Hkept.
  { intros Hk. eapply consistent_kept, Hk, E. }
  destruct o as [msg|n|t|r id p|ec|ec]; cbn [occur] in *; [by eapply read_consistent| |apply Hkept..].
  - destruct n; [by eapply notify_node_consistent|apply Hkept..]; cbn [notify]; unfold do_scratchpad_changed; trace kept_leaf.
  - unfold answer. trace kept_leaf.
  - unfold upgrade_progress. trace kept_leaf.
  - unfold on_ping_timer. trace kept_leaf.
  - unfold handle_write. trace kept_leaf.
Qed.

(** A node before and after a release. *)
Definition released (o o' : node_object) : Prop :=
  no_node o' = no_node o \/ m_connected_app (no_node o') = None /\ m_status (no_node o') = available.

Lemma released_trans o o1 o2 : released o o1 -> released o1 o2 -> released o o2.
Proof. intros H [H2|H2]; [|by right]. destruct H as [H|[H3 H4]]; [left; congruence|right; by rewrite H2]. Qed.

Lemma unlock_released this (n : node callback) b n' e : unlock this n = Ok (b, n', e) ->
  (n' = n \/ m_connected_app n' = None /\ m_status n' = available) /\ m_connected_app n' <> Some this.
Proof.
  unfold unlock, set_status. cbv [mbind handler_bind read mret handler_ret modify Node.emit].
  destruct (decide (m_connected_app n = Some this)) as [Ha|Ha].
  - rewrite bool_decide_eq_true_2 by done. cbn. intros [= _ <- _]. split; [by right|done].
  - rewrite bool_decide_eq_false_2 by done. cbn. intros [= _ <- _]. split; [by left|done].
Qed.

Lemma release_result this i h (a : app) (t : tdm D) : exists t' e, release this (i, h) (a, t) = Ok (tt, (a, t'), e) /\
  forall h' o', t_nodes t' !! h' = Some o' -> exists o, t_nodes t !! h' = Some o /\ released o o' /\
    (h' = h -> m_connected_app (no_node o') <> Some this).
Proof.
  unfold release. cbv [mbind action_bind ask fst snd]. destruct (t_nodes t !! h) as [o|] eqn:Eo.
  - destruct (unlock_result this (no_node o)) as (b & n & e0 & El & _).
    destruct (holder_node h (fun _ => unlock this) a t o b n e0 Eo El) as (t' & -> & _ & _ & _ & Hmap).
    apply unlock_released in El as [Hn Hnot]. eexists t', _. split; [reflexivity|]. intros h' o' Ho'. rewrite Hmap in Ho'.
    destruct (decide (h = h')) as [<-|Hne].
    + rewrite lookup_insert_eq in Ho'. injection Ho' as <-. exists o. by split_and!.
    + rewrite lookup_insert_ne in Ho' by done. exists o'. split; [done|]. by split; [left|].
  - exists t, []. split; [done|]. intros h' o' Ho'. exists o'. split; [done|]. split; [by left|congruence].
Qed.

Lemma release_all this l (a : app) (t : tdm D) : exists t' e, for_each (release this) l (a, t) = Ok (tt, (a, t'), e) /\
  forall h o', t_nodes t' !! h = Some o' -> exists o, t_nodes t !! h = Some o /\ released o o' /\
    (h ∈ List.map snd l -> m_connected_app (no_node o') <> Some this).
Proof.
  revert t. induction l as [|[i h] l IH]; intros t.
  { exists t, []. split; [done|]. intros h o' Ho. exists o'. split; [done|]. split; [by left|]. by intros ?%elem_of_nil. }
  destruct (release_result this i h a t) as (t1 & e1 & E1 & H1). destruct (IH t1) as (t2 & e2 & E2 & H2).
  exists t2, (e1 ++ e2). split; [cbn [for_each]; cbv [mbind action_bind]; by rewrite E1, E2|].
  intros h' o' Ho'. destruct (H2 _ _ Ho') as (o1 & Ho1 & Hr1 & Hn1). destruct (H1 _ _ Ho1) as (o & Ho & Hr & Hn).
  exists o. split; [done|]. split; [by eapply released_trans|]. intros [->|Hin]%elem_of_cons; [|by apply Hn1].
  destruct Hr1 as [->|[-> _]]; [by apply Hn|done].
Qed.

(** C23: an application that goes away leaves no node locked.  Whatever it has
    requested since the connection was accepted, whatever was notified to it,
    answered and written, and whatever else happened in between, its destructor
    succeeds, afterwards it holds no node, and the nodes that it held are
    available.  What must not happen: that a node that it holds leaves the
    registry, or is announced as disconnected while it is there, as when its
    device repeats its uuid; then the lock stays. *)
Theorem locks_released l (a : app) (t : tdm D) (s : state) :
  consistent (a, t) -> session l (a, t) s ->
  exists s' e, destroy s = Ok (tt, s', e) /\
  forall h o', t_nodes (snd s') !! h = Some o' -> m_connected_app (no_node o') <> Some (app_id (fst s)) /\
    (holder h (snd s) = Some (Some (app_id (fst s))) -> m_status (no_node o') = available).
Proof.
  intros Hc Hs. assert (consistent s) as Hc' by (induction Hs; eauto using occur_consistent, undisturbed_consistent). destruct s as [a' t'].
  destruct (release_all (app_id a') (m_locked_nodes a') a' t') as (t2 & e & E & Hall). exists (a', t2), (StopMonitoring :: e).
  split; [unfold destroy; cbv [mbind action_bind ask raise fst snd]; by rewrite E|].
  cbn [fst snd]. intros h o' Ho'. destruct (Hall h o' Ho') as (o & Ho & Hcase & Hrel).
  assert (holder h t' = Some (m_connected_app (no_node o))) as Hx by (unfold holder; by rewrite Ho).
  pose proof (table_accurate _ Hc' h _ Hx) as Hacc. cbn [fst] in Hacc.
  assert (m_connected_app (no_node o') <> Some (app_id a')) as Hnot.
  { destruct Hcase as [Hsame|[-> _]]; [|done]. intros Heq. rewrite Hsame in Heq. pose proof (proj1 Hacc Heq) as [i Hi].
    apply Hrel; [|by rewrite Hsame]. apply list_elem_of_fmap. by exists (i, h). }
  split; [done|]. rewrite Hx. intros [= Heq]. destruct Hcase as [Hsame|[_ Hst]]; [|done]. by rewrite Hsame in Hnot.
Qed.
End Released.

(** ** What a request may touch *)
Section Authorized.
Context {D : Type}.
Variable env : environment D.

Abbreviation state := (app * tdm D)%type.

Definition untouched_node (h : nat) (s s' : state) (e : list app_effect) : Prop :=
  t_nodes (snd s') !! h = t_nodes (snd s) !! h /\ forall x, NodeDoes h x ∉ e.
Definition untouched_group (g : nat) (s s' : state) (e : list app_effect) : Prop :=
  t_groups (snd s') !! g = t_groups (snd s) !! g /\ forall x, GroupDoes g x ∉ e.

(** Only nodes in [P] and groups in [Q] are touched. *)
Definition confined (P Q : nat -> Prop) (s s' : state) (e : list app_effect) : Prop :=
  (forall h, P h \/ untouched_node h s s' e) /\ (forall g, Q g \/ untouched_group g s s' e).

#[export] Instance confined_traced P Q : Traced (confined P Q).
Proof.
  split.
  - intros s. split; intros x; right; (split; [done|]); intros y; apply not_elem_of_nil.
  - intros s s1 e1 s2 e2 [H1 K1] [H2 K2]. split; intros x.
    + destruct (H1 x) as [|[E1 F1]]; [by left|]. destruct (H2 x) as [|[E2 F2]]; [by left|]. right. split; [congruence|].
      intros y [Hy|Hy]%elem_of_app; [by eapply F1|by eapply F2].
    + destruct (K1 x) as [|[E1 F1]]; [by left|]. destruct (K2 x) as [|[E2 F2]]; [by left|]. right. split; [congruence|].
      intros y [Hy|Hy]%elem_of_app; [by eapply F1|by eapply F2].
Qed.

Section Leaves.
Context (P Q : nat -> Prop).

Lemma confined_change f (s : state) : holds (confined P Q) (change f) s.
Proof. intros x s' e [= _ <- <-]. split; intros y; right; (split; [done|]); intros z; apply not_elem_of_nil. Qed.

Lemma confined_tdm f (s : state) : (forall t, t_nodes (f t) = t_nodes t /\ t_groups (f t) = t_groups t) -> holds (confined P Q) (change_tdm f) s.
Proof.
  intros Hf x s' e [= _ <- <-]. destruct (Hf (snd s)) as [H1 H2].
  split; intros y; right; (split; [cbn; by rewrite ?H1, ?H2|]); intros z; apply not_elem_of_nil.
Qed.

Lemma confined_raise_all l (s : state) : (forall h x, NodeDoes h x ∉ l) -> (forall g x, GroupDoes g x ∉ l) -> holds (confined P Q) (raise_all l) s.
Proof. intros H1 H2 x s' e [= _ <- <-]. split; intros y; right; by split. Qed.

Lemma confined_raise x (s : state) : (forall h y, NodeDoes h y <> x) -> (forall g y, GroupDoes g y <> x) -> holds (confined P Q) (raise x) s.
Proof. intros H1 H2. apply (confined_raise_all [x]); intros h y Hy%list_elem_of_singleton; [by apply (H1 h y)|by apply (H2 h y)]. Qed.

Lemma confined_write r (s : state) : holds (confined P Q) (write_message r) s.
Proof.
  intros x s' e. rewrite write_message_eq. intros [= _ <- <-].
  split; intros y; right; (split; [done|]); intros z [w [? _]]%list_elem_of_fmap; done.
Qed.

Lemma confined_node {A} h (f : option endpoint_info -> Node.handler callback A) (s : state) : P h -> holds (confined P Q) (on_node h f) s.
Proof.
  intros Hp x s' e. unfold on_node. destruct s as [a t]. destruct (t_nodes t !! h) as [o|] eqn:Eo; [|done].
  destruct (f _ _) as [[[y n] e1]| | | |]; try done. intros [= _ <- <-]. split.
  - intros h'. destruct (decide (h = h')) as [<-|Hne]; [by left|]. right. split; [cbn; by rewrite lookup_insert_ne|].
    intros z [w [? _]]%list_elem_of_fmap. congruence.
  - intros g. right. split; [done|]. intros z [w [? _]]%list_elem_of_fmap. done.
Qed.

Lemma confined_group {A} g (f : (nat -> bool) -> list group_node -> group -> res runtime_error (A * group * list group_effect)) (s : state) :
  Q g -> holds (confined P Q) (on_group g f) s.
Proof.
  intros Hq x s' e. unfold on_group. destruct s as [a t]. destruct (t_groups t !! g) as [o|]; [|done].
  destruct (f _ _ _) as [[[y n] e1]| | | |]; try done. intros [= _ <- <-]. split.
  - intros h. right. split; [done|]. intros z [w [? _]]%list_elem_of_fmap. done.
  - intros g'. destruct (decide (g = g')) as [<-|Hne]; [by left|]. right. split; [cbn; by rewrite lookup_insert_ne|].
    intros z [w [? _]]%list_elem_of_fmap. congruence.
Qed.
End Leaves.

(** The requests that do not ask for the lock, and what they ask for instead. *)
Definition names (n : fb_node_id) (h : nat) (t : tdm D) : Prop :=
  exists id, node_id (uninitialized_id env) n = Ok id /\ node_from_id id t = Some h.

Definition open_to (msg : Request.t) (h : nat) (o : node_object) (s : state) : Prop :=
  let local := is_local_endpoint (fst s) = true in
  match msg with
  | Request.LockNode _ n => names n h (snd s) /\ m_connected_app (no_node o) = None /\ m_status (no_node o) = available
  | Request.WatchNode _ n _ => names n h (snd s)
  | Request.RenameNode _ n _ => names n h (snd s) /\ local /\ can_be_renamed (info_of o (snd s)) (no_node o) = true
  | Request.SetVMExecutionState _ n CommandStop => names n h (snd s) /\ local
  | Request.FirmwareUpgradeRequest _ n =>
      names n h (snd s) /\ local /\ is_wirelessly_connected (info_of o (snd s)) = false /\ m_status (no_node o) = available
  | Request.Thymio2WirelessDonglePairingRequest _ _ n _ _ => names n h (snd s)
  | _ => False
  end.

Definition held (h : nat) (s : state) : Prop := holder h (snd s) = Some (Some (app_id (fst s))).

Definition may_touch (msg : Request.t) (s : state) (h : nat) : Prop :=
  held h s \/ exists o, t_nodes (snd s) !! h = Some o /\ open_to msg h o s.
Definition may_touch_group (s : state) (g : nat) : Prop := exists h, held h s /\ group_of h (snd s) = Some g.

Lemma locked_held id (s : state) h : consistent s -> get_locked_node id (fst s) (snd s) = Some h -> held h s.
Proof.
  intros Hc [Hin [o Ho]]%lookup_live_Some. unfold held. assert (holder h (snd s) = Some (m_connected_app (no_node o))) as Hx by (unfold holder; by rewrite Ho).
  rewrite Hx. f_equal. apply (table_accurate s Hc h _ Hx). by exists id.
Qed.

Lemma group_held id (s : state) g : consistent s -> get_group id (fst s) (snd s) = Some g -> may_touch_group s g.
Proof.
  intros Hc. unfold get_group. destruct (List.find _ _) as [[i h]|] eqn:E; [|done]. apply List.find_some in E as [Hin _].
  cbn [snd]. intros Hg. exists h. split; [|done]. unfold group_of in Hg. destruct (t_nodes (snd s) !! h) as [o|] eqn:Ho; [|done].
  assert (holder h (snd s) = Some (m_connected_app (no_node o))) as Hx by (unfold holder; by rewrite Ho).
  unfold held. rewrite Hx. f_equal. apply (table_accurate s Hc h _ Hx). exists i. by apply list_elem_of_In.
Qed.

Lemma scratchpad_group_held id (s : state) g : consistent s ->
  (match get_locked_node id (fst s) (snd s) with Some h => group_of h (snd s) | None => None end) = Some g -> may_touch_group s g.
Proof.
  intros Hc. destruct (get_locked_node id (fst s) (snd s)) as [h|] eqn:E; [|done]. intros Hg. exists h. split; [by eapply locked_held|done].
Qed.

Ltac authorized :=
  first [ left; solve [eauto using locked_held]
        | right; eexists; split; [eassumption|]; cbn; unfold names; split_and?; eauto ].

Ltac confined_leaf :=
  first [ solve [auto with typeclass_instances traced]
        | apply confined_change
        | apply confined_write
        | apply confined_tdm; intros; split; reflexivity
        | apply confined_raise; intros; discriminate
        | apply confined_raise_all; intros ? ? [? [? _]]%list_elem_of_fmap; discriminate
        | apply confined_node; solve [authorized]
        | apply confined_group; solve [eauto using group_held, scratchpad_group_held] ].

Lemma with_id_confined (R : relation) `{!Traced R} n f (s : state) :
  (forall id, node_id (uninitialized_id env) n = Ok id -> holds R (f id) s) -> holds R (with_id env n f) s.
Proof.
  intros Hf x s' e. unfold with_id. cbv [mbind action_bind of_res]. destruct (node_id _ _) as [id| | | |] eqn:E; try done. cbn.
  destruct (f id s) as [[[y s1] e1]| | | |] eqn:Ef; try done. intros [= <- <- <-]. by eapply Hf.
Qed.

Ltac trace_eq leaf :=
  repeat first
    [ progress intros
    | solve [leaf]
    | progress autounfold with requests
    | apply (with_id_confined _)
    | apply holds_ask
    | apply (holds_for_each _)
    | apply (holds_bind _)
    | progress cbv beta iota zeta
    | match goal with |- holds _ ?m _ => match m with context [match ?x with _ => _ end] => destruct x eqn:? end end ].

Lemma locked_requests msg (s : state) : consistent s ->
  match msg with
  | Request.SetVariables _ _ _ | Request.RegisterEvents _ _ _ | Request.SendEvents _ _ _ | Request.CompileAndLoadCodeOnVM _ _ _ _ _
  | Request.CompileAndSave _ _ _ _ _ | Request.SetBreakpoints _ _ _ | Request.ScratchpadUpdate _ _ _ _ | Request.UnlockNode _ _
  | Request.RequestListOfNodes | Request.RequestNodeAsebaVMDescription _ _ | Request.EnableThymio2PairingMode _
  | Request.DeviceManagerShutdownRequest _ | Request.ConnectionHandshake _ _ _ _ _ | Request.Unsupported => True
  | _ => False
  end -> holds (confined (may_touch msg s) (may_touch_group s)) (dispatch env msg) s.
Proof.
  intros Hc Hm. destruct msg; try done; clear Hm; cbn [dispatch]; try apply (with_id_confined _); trace_eq confined_leaf.
Qed.

Lemma named_touch msg n id (s : state) h : node_id (uninitialized_id env) n = Ok id -> node_from_id id (snd s) = Some h ->
  (forall o, t_nodes (snd s) !! h = Some o -> names n h (snd s) -> open_to msg h o s) -> may_touch msg s h.
Proof.
  intros Hn Hid Ho. pose proof (lookup_live_Some _ _ _ _ Hid) as [_ [o Hno]]. right. exists o. split; [done|].
  apply Ho; [done|]. by exists id.
Qed.

Lemma capability_bits (o : node_object) (a : app) (t : tdm D) bit : has_bit (node_capabilities o a t) bit = true ->
  is_local_endpoint a = true /\ (bit = CapRename -> can_be_renamed (info_of o t) (no_node o) = true) /\
  (bit = CapFirwmareUpgrade -> is_wirelessly_connected (info_of o t) = false).
Proof.
  unfold node_capabilities. destruct (is_local_endpoint a); [|by destruct bit]. intros Hb. split; [done|].
  destruct (can_be_renamed _ _), (is_wirelessly_connected _); (split; [|try done]); intros ->; first [done|discriminate Hb].
Qed.

Lemma holds_change {B} (R : relation) `{!Traced R} f (k : unit -> action D B) (s : state) :
  holds R (change f) s -> holds R (k tt) (f (fst s), snd s) -> holds R (change f ≫= k) s.
Proof.
  intros Hf Hk x s' e. cbv [mbind action_bind]. change (change f s) with (Ok (E:=runtime_error) (tt, (f (fst s), snd s), @nil app_effect)). cbv iota beta.
  destruct (k tt _) as [[[y s1] e1]| | | |] eqn:E; try done. intros [= <- <- <-]. exact (traced_trans s _ [] s1 e1 (Hf _ _ _ eq_refl) (Hk _ _ _ E)).
Qed.

Lemma watch_confined r n flags (s : state) : holds (confined (may_touch (Request.WatchNode r n flags) s) (may_touch_group s)) (dispatch env (Request.WatchNode r n flags)) s.
Proof.
  cbn [dispatch]. apply (with_id_confined _). intros id Hid.
  assert (forall h, node_from_id id (snd s) = Some h -> may_touch (Request.WatchNode r n flags) s h) as Hh.
  { intros h Hh. by eapply named_touch. }
  trace_eq ltac:(first [confined_leaf | apply confined_node; auto]).
Qed.

Lemma rename_confined r n name (s : state) : holds (confined (may_touch (Request.RenameNode r n name) s) (may_touch_group s)) (dispatch env (Request.RenameNode r n name)) s.
Proof.
  cbn [dispatch]. apply (with_id_confined _). intros id Hid.
  assert (forall h o, node_from_id id (snd s) = Some h -> t_nodes (snd s) !! h = Some o ->
    has_bit (node_capabilities o (fst s) (snd s)) CapRename = true -> may_touch (Request.RenameNode r n name) s h) as Hh.
  { intros h o Hh Ho Hc. eapply named_touch; [done..|]. intros o' Ho' Hn. rewrite Ho in Ho'. injection Ho' as <-.
    apply capability_bits in Hc as (Hl & Hr & _). split_and!; auto. }
  trace_eq ltac:(first [confined_leaf | apply confined_node; eauto]).
Qed.

Lemma execution_confined r n c (s : state) : consistent s ->
  holds (confined (may_touch (Request.SetVMExecutionState r n c) s) (may_touch_group s)) (dispatch env (Request.SetVMExecutionState r n c)) s.
Proof.
  intros Hc. cbn [dispatch]. apply (with_id_confined _). intros id Hid. unfold vm_state_of. apply holds_ask.
  match goal with |- holds _ (or_error ?x _ _ _) _ => assert (forall h, x = Some h -> may_touch (Request.SetVMExecutionState r n c) s h) as Hh; [|destruct x eqn:?] end.
  { intros h. destruct (get_locked_node id (fst s) (snd s)) as [h0|] eqn:El; [intros [= <-]; left; by eapply locked_held|].
    destruct c; try done. destruct (node_from_id id (snd s)) as [h0|] eqn:En; [|done]. destruct (t_nodes (snd s) !! h0) as [o|] eqn:Ho; [|done].
    destruct (has_bit _ _) eqn:Eb; [|done]. intros [= <-]. eapply named_touch; [done..|]. intros o' _ Hn. split; [done|].
    by apply capability_bits in Eb as [Hl _]. }
  all: trace_eq ltac:(first [confined_leaf | apply confined_node; auto]).
Qed.

Lemma firmware_confined r n (s : state) :
  holds (confined (may_touch (Request.FirmwareUpgradeRequest r n) s) (may_touch_group s)) (dispatch env (Request.FirmwareUpgradeRequest r n)) s.
Proof.
  cbn [dispatch]. unfold with_tested_id. destruct n as [d|]; [|apply confined_write]. apply (with_id_confined _). intros id Hid.
  unfold upgrade_node_firmware. apply holds_ask.
  match goal with |- holds _ (or_error ?x _ _ _) _ => assert (forall h, x = Some h -> may_touch (Request.FirmwareUpgradeRequest r (Some d)) s h) as Hh; [|destruct x eqn:?] end.
  { intros h. destruct (node_from_id id (snd s)) as [h0|] eqn:En; [|done]. destruct (t_nodes (snd s) !! h0) as [o|] eqn:Ho; [|done].
    destruct (_ && _) eqn:Eb; [|done]. apply andb_true_iff in Eb as [Es Eb]. apply bool_decide_eq_true in Es. intros [= <-].
    eapply named_touch; [done..|]. intros o' Ho' Hn. rewrite Ho in Ho'. injection Ho' as <-.
    apply capability_bits in Eb as (Hl & _ & Hw). split_and!; auto. }
  all: trace_eq ltac:(first [confined_leaf | apply confined_node; auto]).
Qed.

Lemma pairing_confined r d n w c (s : state) :
  holds (confined (may_touch (Request.Thymio2WirelessDonglePairingRequest r d n w c) s) (may_touch_group s))
    (dispatch env (Request.Thymio2WirelessDonglePairingRequest r d n w c)) s.
Proof.
  cbn [dispatch]. destruct d as [d|]; [|apply confined_write]. unfold with_tested_id. destruct n as [n|]; [|apply confined_write].
  apply (with_id_confined _). intros id Hid. apply (with_id_confined _). intros dongle _.
  assert (forall h, node_from_id id (snd s) = Some h -> may_touch (Request.Thymio2WirelessDonglePairingRequest r (Some d) (Some n) w c) s h) as Hh.
  { intros h Hh. by eapply named_touch. }
  trace_eq ltac:(first [confined_leaf | apply confined_node; auto]).
Qed.

Lemma lock_untouched this (n : node callback) b n' e : lock this n = Ok (b, n', e) ->
  m_connected_app n = None /\ m_status n = available \/ n' = n /\ e = [].
Proof.
  unfold lock, set_status. cbv [mbind handler_bind read mret handler_ret modify Node.emit].
  destruct (decide (m_connected_app n = Some this)); [intros [= _ <- <-]; by right|].
  destruct (bool_decide (m_connected_app n = None)) eqn:E1, (bool_decide (m_status n = available)) eqn:E2; cbn; try (intros [= _ <- <-]; by right).
  apply bool_decide_eq_true in E1, E2. by left.
Qed.

Lemma lock_confined r n (s : state) : holds (confined (may_touch (Request.LockNode r n) s) (may_touch_group s)) (dispatch env (Request.LockNode r n)) s.
Proof.
  cbn [dispatch]. apply (with_id_confined _). intros id Hid. unfold lock_node. apply holds_ask.
  destruct (node_from_id id (snd s)) as [h|] eqn:En; [|apply confined_write]. cbn [or_error].
  pose proof (lookup_live_Some _ _ _ _ En) as [_ [o Ho]].
  assert (forall a, holds (confined (may_touch (Request.LockNode r n) s) (may_touch_group s)) (on_node h (fun _ => lock (app_id (fst s)))) (a, snd s)) as Hlock.
  { intros a x s' e. unfold on_node. rewrite Ho. destruct (lock _ _) as [[[b n'] e1]| | | |] eqn:El; try done. intros [= _ <- <-].
    apply lock_untouched in El as [Hfree|[-> ->]].
    - split; [|by intros g; right; split; [done|]; intros z [w [? _]]%list_elem_of_fmap].
      intros h'. destruct (decide (h = h')) as [<-|Hne].
      + left. eapply named_touch; [done..|]. intros o' Ho' Hn. rewrite Ho in Ho'. by injection Ho' as <-.
      + right. split; [cbn; by rewrite lookup_insert_ne|]. intros z [w [? _]]%list_elem_of_fmap. congruence.
    - split; intros y; right; (split; [|intros z; apply not_elem_of_nil]); [|done]. cbn. rewrite insert_id; [done|]. by destruct o. }
  apply (holds_change _); [by eapply confined_change|]. apply holds_ask. cbn [fst snd app_id set_m_locked_nodes].
  apply (holds_bind _); [apply Hlock|]. intros [] s'; trace_eq confined_leaf.
Qed.

End Authorized.

(** ** Samples *)

Lemma sample_consistent : consistent (sample_app, sample_tdm).
Proof.
  split.
  - apply NoDup_singleton.
  - apply NoDup_singleton.
  - intros e He. by apply elem_of_nil in He.
  - intros h x. unfold holder. cbn [snd sample_tdm t_nodes]. destruct (decide (h = 0%nat)) as [->|Hne].
    + intros [= <-]. split; [discriminate|]. intros [i Hi]. by apply elem_of_nil in Hi.
    + rewrite lookup_singleton_ne by congruence. discriminate.
Defined.

Definition sample_requests : list Request.t :=
  [Request.LockNode 1 (Some (Some sample_uuid)); Request.SetVMExecutionState 2 (Some (Some sample_uuid)) CommandRun].

Lemma locks_released_witness : exists s, session sample_environment (List.map Serve sample_requests) (sample_app, sample_tdm) s /\
  holder 0 (snd s) = Some (Some 5) /\
  exists s' e, destroy s = Ok (tt, s', e) /\ holder 0 (snd s') = Some None.
Proof.
  eexists. match goal with |- ?P /\ _ => assert P as Hs end.
  { do 2 (eapply session_cons; [vm_compute; reflexivity|by intros []|]). apply session_nil. }
  split; [exact Hs|]. split; [reflexivity|].
  destruct (locks_released sample_environment (List.map Serve sample_requests) sample_app sample_tdm _ sample_consistent Hs) as (s' & e & E & _).
  exists s', e. split; [exact E|]. vm_compute in E. injection E as <- _. reflexivity.
Defined.


(** A device that repeats its uuid is announced as disconnected under it, and
    the application forgets that it has the lock: the lock outlives the
    application. *)
Example lock_leaks :
  match (handle_read sample_environment false (Request.LockNode 1 (Some (Some sample_uuid)));;
         notify (NotifyNode 0 sample_uuid disconnected);; destroy) (sample_app, sample_tdm) with
  | Ok (_, s, _) => holder 0 (snd s)
  | _ => None
  end = Some (Some 5).
Proof. vm_compute. reflexivity. Qed.

(** A request without the id of a node ends the manager. *)
Example missing_id_crashes : handle_read sample_environment false (Request.LockNode 1 None) (sample_app, sample_tdm) = Crash.
Proof. reflexivity. Qed.

(** Pairing needs no lock: the robot of another application is reconfigured. *)
Example foreign_robot_paired :
  let robot := mkNodeObject (set_m_connected_app (Some 4) (set_m_description
    (mkTarget (ws "thymio") 9 100 50 32 [] [] []) sample_robot)) 0 in
  let t := mkTdm unit {[ 0%nat := robot ]} (t_endpoints sample_tdm) (t_groups sample_tdm) (t_registry sample_tdm)
    (mkService true [(1, mkDongle (SerialPort 1) [8] 0 0 0)]) (mkWorld unit [] tt) in
  let ports := {| serial := fun _ _ w => w; serial_write_some := fun _ _ w => (8, w); serial_read_some := fun _ _ w => (dongle_data 1 7 20 0 0 0, w) |} in
  let env := mkEnvironment unit sample_uuid letters 0 (replicate 16 0) 0 [] (fun i => [Z.of_nat i]) Aseba (fun _ _ => None) (fun _ _ => None)
    (fun _ => 0) (fun _ => None) (fun _ => false) (fun _ => None) (fun _ => None)
    ports (fun _ => sample_libusb) (fun _ => true) 0 [1; 2] sample_uuid 8597 in
  match pair_thymio2_and_dongle env 1 [8] sample_uuid 7 1 (new_app 5, t) with
  | Ok (_, _, e) => existsb (fun x => match x with NodeDoes 0 (Write [mkMessage _ _ (Msg.Reboot _)] _) => true | _ => false end) e
  | _ => false
  end = true.
Proof. vm_compute. reflexivity. Qed.
