(* ===== verification/AppAnswers.v ===== *)
(** * What becomes of the answer to a request

    The answer to a request is a message in the queue of the application, or a
    callback that a node owes, that was handed on by a node, or that was given
    to a group or to an upgrade.  Callbacks.v shows that nodes neither lose nor
    repeat what they are given. *)
From Stdlib Require Import ZArith Lia List String.
From stdpp Require Import base list list_monad gmap.
From S2P Require Import Prelude Consts OrdMap Bits Target Utils Lookup Msg Property Node NodeCode NodeInfo NodeSpec Callbacks Group GroupOps.
From S2P Require Import AppMessages Wireless App AppRequests AppSpec.

Local Open Scope Z_scope.

Section Answers.
Context {D : Type}.
Variable this : Z.

Abbreviation state := (app * tdm D)%type.
Abbreviation action := (action D).

(** ** Where the answers are *)

Definition replies (a : app) : list callback := List.flat_map (fun r => List.map (pair (app_id a)) (answered r)) (m_queue a).
Definition owed_of (e : nat * node_object) : list callback := owed (no_node (snd e)).
Definition owed_by (m : gmap nat node_object) : list callback := mjoin (List.map owed_of (map_to_list m)).
Definition pending (s : state) : list callback := replies (fst s) ++ owed_by (t_nodes (snd s)).

Definition carried (e : list app_effect) : list callback :=
  List.flat_map (fun x => match x with
                          | NodeDoes _ y => effect_callbacks y
                          | CallbackToGroup _ k | CallbackToUpgrade _ k => [k]
                          | _ => []
                          end) e.

Lemma carried_app e1 e2 : carried (e1 ++ e2) = carried e1 ++ carried e2.
Proof. apply flat_map_app. Qed.

Lemma carried_none {A} (f : A -> app_effect) l : (forall x, carried [f x] = []) -> carried (List.map f l) = [].
Proof. intros H. induction l as [|x l IH]; [done|]. change (carried ([f x] ++ List.map f l) = []). by rewrite carried_app, H. Qed.

Lemma carried_node h e : carried (List.map (NodeDoes h) e) = handed e.
Proof. induction e as [|x e IH]; [done|]. cbn. f_equal. exact IH. Qed.

Lemma owed_insert h (o o' : node_object) m : m !! h = Some o ->
  exists rest, owed_by m ≡ₚ owed (no_node o) ++ rest /\ owed_by (<[h := o']> m) ≡ₚ owed (no_node o') ++ rest.
Proof.
  intros Ho. exists (owed_by (delete h m)).
  assert (forall x, owed_by (<[h := x]> (delete h m)) ≡ₚ owed (no_node x) ++ owed_by (delete h m)) as H.
  { intros x. unfold owed_by. change (owed (no_node x)) with (owed_of (h, x)).
    rewrite (Permutation_map owed_of (map_to_list_insert (delete h m) h x (lookup_delete_eq m h))). done. }
  split.
  - rewrite <- (insert_delete_id m h o Ho) at 1. apply H.
  - rewrite <- (insert_delete_eq m h o'). apply H.
Qed.

(** ** Actions that answer what they are given *)

(** Every node has its endpoint. *)
Definition good (s : state) : Prop :=
  app_id (fst s) = this /\
  forall h o, t_nodes (snd s) !! h = Some o -> exists e, t_endpoints (snd s) !! no_endpoint o = Some e.

Definition settles {A} (g : list callback) (m : action A) : Prop :=
  forall s x s' e, good s -> m s = Ok (x, s', e) -> good s' /\ pending s ++ g ≡ₚ pending s' ++ carried e.

Lemma settles_ret {A} (x : A) : settles [] (mret x).
Proof. intros s x' s' e Hg [= _ <- <-]. done. Qed.

Lemma settles_nothing : settles [] nothing.
Proof. apply settles_ret. Qed.

Lemma settles_res {A} (r : res runtime_error A) : settles [] (of_res r).
Proof. intros s x s' e Hg. unfold of_res. destruct r; try done. by intros [= _ <- <-]. Qed.

Lemma settles_crash {A} g : settles g (of_res (A:=A) Crash).
Proof. by intros s x s' e Hg. Qed.

Lemma settles_bind {A B} g1 g2 (m : action A) (k : A -> action B) :
  settles g1 m -> (forall x, settles g2 (k x)) -> settles (g1 ++ g2) (m ≫= k).
Proof.
  intros Hm Hk s x s' e Hg. cbv [mbind action_bind]. destruct (m s) as [[[y s1] e1]| | | |] eqn:E; try done.
  destruct (k y s1) as [[[z s2] e2]| | | |] eqn:E2; try done. intros [= <- <- <-].
  apply Hm in E as [Hg1 E]; [|done]. apply Hk in E2 as [Hg2 E2]; [|done]. split; [done|].
  rewrite carried_app, app_assoc, E, <- app_assoc, (Permutation_app_comm (carried e1)), app_assoc, E2, <- app_assoc.
  apply Permutation_app_head, Permutation_app_comm.
Qed.

Lemma settles_later {A B} g (m : action A) (k : A -> action B) : settles [] m -> (forall x, settles g (k x)) -> settles g (m ≫= k).
Proof. apply (settles_bind []). Qed.

Lemma settles_ask {A B} g (f : app -> tdm D -> A) (k : A -> action B) : (forall x, settles g (k x)) -> settles g (ask f ≫= k).
Proof. apply settles_later. intros s x s' e Hg [= _ <- <-]. done. Qed.

Lemma settles_completion {B} g r (k : callback -> action B) : settles g (k (this, r)) -> settles g (completion r ≫= k).
Proof.
  intros Hk s x s' e Hg. unfold completion. cbv [mbind action_bind ask]. rewrite (proj1 Hg).
  destruct (k (this, r) s) as [[[z s2] e2]| | | |] eqn:E; try done. intros [= <- <- <-]. by eapply Hk.
Qed.

Lemma settles_for_each {A} (f : A -> action unit) l : (forall x, settles [] (f x)) -> settles [] (for_each f l).
Proof.
  intros Hf. induction l as [|x l IH]; [apply settles_ret|]. cbn [for_each]. apply settles_later; [apply Hf|intros _; exact IH].
Qed.

Lemma settles_change f : (forall a, app_id (f a) = app_id a /\ m_queue (f a) = m_queue a) -> settles [] (change f).
Proof.
  intros Hf s x s' e [Hi Hh] [= _ <- <-]. destruct (Hf (fst s)) as [H1 H2]. split; [split; [cbn [fst]; congruence|done]|].
  rewrite !app_nil_r. unfold pending, replies. cbn [fst snd]. by rewrite H1, H2.
Qed.

Lemma settles_tdm f : (forall t, t_nodes (f t) = t_nodes t /\ t_endpoints (f t) = t_endpoints t) -> settles [] (change_tdm f).
Proof.
  intros Hf s x s' e [Hi Hh] [= _ <- <-]. destruct (Hf (snd s)) as [H1 H2].
  split; [split; [done|]; cbn [snd]; rewrite H1, H2; exact Hh|]. rewrite !app_nil_r. unfold pending. cbn [fst snd]. by rewrite H1.
Qed.

Lemma settles_raise_all l : settles (carried l) (raise_all l).
Proof. intros s x s' e Hg [= _ <- <-]. done. Qed.

Lemma settles_raise x : settles (carried [x]) (raise x).
Proof. exact (settles_raise_all [x]). Qed.

Lemma settles_write r : settles (List.map (pair this) (answered r)) (write_message r).
Proof.
  intros s x s' e [Hi Hh]. rewrite write_message_eq. intros [= _ <- <-]. split; [done|].
  assert (carried (List.map DoWrite (starts_of (fst s) [r])) = []) as -> by by apply carried_none.
  unfold pending, replies. cbn [fst snd m_queue set_m_queue app_id].
  rewrite flat_map_app, app_nil_r, Hi. cbn [List.flat_map]. rewrite app_nil_r, <- !app_assoc.
  apply Permutation_app_head, Permutation_app_comm.
Qed.

(** A call of a node, which may leave a part to the caller. *)
Lemma node_ledger {A} h (f : option endpoint_info -> Node.handler callback A) g (rest : A -> list callback) (s : state) x s' e :
  (forall ep n y n' l, f (Some ep) n = Ok (y, n', l) -> owed n ++ g ≡ₚ owed n' ++ handed l ++ rest y) ->
  good s -> on_node h f s = Ok (x, s', e) -> good s' /\ pending s ++ g ≡ₚ pending s' ++ carried e ++ rest x.
Proof.
  intros Hf [Hi Hh]. unfold on_node. destruct s as [a t]. destruct (t_nodes t !! h) as [o|] eqn:Eo; [|done].
  destruct (Hh h o Eo) as [ep Hep]. unfold info_of. cbn [snd] in Hep. rewrite Hep. cbn [option_map].
  destruct (f _ _) as [[[y n] l]| | | |] eqn:E; try done. intros [= <- <- <-]. apply Hf in E. split.
  - split; [done|]. intros h' o'. cbn [snd set_nodes t_nodes t_endpoints]. destruct (decide (h = h')) as [<-|Hne].
    + rewrite lookup_insert_eq. intros [= <-]. eauto.
    + rewrite lookup_insert_ne by done. apply Hh.
  - unfold pending. cbn [fst snd set_nodes t_nodes].
    destruct (owed_insert h o (mkNodeObject n (no_endpoint o)) (t_nodes t) Eo) as (others & -> & ->).
    rewrite carried_node, <- !app_assoc. apply Permutation_app_head. cbn [no_node].
    rewrite (Permutation_app_comm others g), app_assoc, E, <- !app_assoc. apply Permutation_app_head.
    rewrite (Permutation_app_comm others), <- !app_assoc. done.
Qed.

Lemma settles_node {A} h (f : option endpoint_info -> Node.handler callback A) g : (forall ep, conserves g (f (Some ep))) -> settles g (on_node h f).
Proof.
  intros Hf s x s' e Hg E. apply (node_ledger h f g (fun _ => [])) in E as [H1 H2]; [|intros ep n y n' l El|done].
  - by rewrite app_nil_r in H2.
  - rewrite app_nil_r. by eapply Hf.
Qed.

Lemma settles_group {A} g (f : (nat -> bool) -> list group_node -> group -> res runtime_error (A * group * list group_effect)) :
  settles [] (on_group g f).
Proof.
  intros s x s' e Hg. unfold on_group. destruct s as [a t]. destruct (t_groups t !! g) as [o|]; [|done].
  destruct (f _ _ _) as [[[y n] e1]| | | |]; try done. intros [= _ <- <-]. split; [done|]. by rewrite carried_none.
Qed.
End Answers.

Create HintDb settles.
#[export] Hint Resolve settles_ret settles_nothing settles_res settles_group settles_crash : settles.

(** One step; [leaf] closes the calls of nodes. *)
Ltac settles leaf :=
  repeat first
    [ progress intros
    | solve [auto with settles]
    | solve [leaf]
    | progress autounfold with requests
    | apply settles_completion
    | apply settles_ask
    | apply settles_for_each
    | apply settles_later; [solve [settles leaf]|]
    | progress cbv beta iota zeta
    | match goal with |- settles _ _ ?m => match m with context [match ?x with _ => _ end] => destruct x end end ].

Section Requests.
Context {D : Type}.
Variable env : environment D.
Variable this : Z.

(** The requests that carry a number. *)
Definition request_id (msg : Request.t) : option Z :=
  match msg with
  | Request.RequestNodeAsebaVMDescription r _ | Request.SetVariables r _ _ | Request.RegisterEvents r _ _ | Request.SendEvents r _ _
  | Request.RenameNode r _ _ | Request.LockNode r _ | Request.UnlockNode r _ | Request.CompileAndLoadCodeOnVM r _ _ _ _
  | Request.CompileAndSave r _ _ _ _ | Request.SetVMExecutionState r _ _ | Request.WatchNode r _ _ | Request.SetBreakpoints r _ _
  | Request.ScratchpadUpdate r _ _ _ | Request.FirmwareUpgradeRequest r _ | Request.Thymio2WirelessDonglePairingRequest r _ _ _ _
  | Request.DeviceManagerShutdownRequest r => Some r
  | Request.ConnectionHandshake _ _ _ _ _ | Request.RequestListOfNodes
  | Request.EnableThymio2PairingMode _ | Request.Unsupported => None
  end.

Lemma settles_write_other (r : Reply.t) : answered r = [] -> settles (D:=D) this [] (write_message r).
Proof. intros H. pose proof (settles_write (D:=D) this r) as Hw. by rewrite H in Hw. Qed.

Lemma settles_error r e : settles (D:=D) this [(this, r)] (write_message (create_error_response r e)).
Proof. exact (settles_write this (Reply.Error r e)). Qed.
Lemma settles_ack r : settles (D:=D) this [(this, r)] (write_message (create_ack_response r)).
Proof. exact (settles_write this (Reply.RequestCompleted r)). Qed.

Ltac settles_leaf :=
  first [ apply settles_error
        | apply settles_ack
        | apply settles_write_other; reflexivity
        | match goal with |- settles ?t _ (write_message ?r) => exact (settles_write t r) end
        | apply settles_change; intros; split; reflexivity
        | apply settles_tdm; intros; split; reflexivity
        | match goal with |- settles ?t _ (raise ?x) => exact (settles_raise t x) end
        | match goal with |- settles ?t [] (raise_all _) =>
            match goal with |- settles _ _ (raise_all ?l) => replace [] with (carried l) by (apply carried_none; reflexivity); exact (settles_raise_all t l) end end
        | apply settles_node; intros; solve [conserves] ].

Lemma variables_settle r id m : settles (D:=D) this [(this, r)] (set_node_variables r id m).
Proof.
  unfold set_node_variables. apply settles_ask. intros [h|]; [|apply settles_error]. cbn [or_error]. apply settles_completion.
  intros s x s' e Hg. cbv [mbind action_bind]. destruct (on_node _ _ s) as [[[err s1] e1]| | | |] eqn:E; try done.
  apply (node_ledger this h _ [(this, r)] (fun err => match err with Some _ => [(this, r)] | None => [] end)) in E as [Hg1 E]; [| |done].
  - destruct err as [err|].
    + destruct (error _ _ s1) as [[[y s2] e2]| | | |] eqn:E2; try done. intros [= <- <- <-].
      apply settles_error in E2 as [Hg2 E2]; [|done]. split; [done|].
      rewrite E, carried_app, (Permutation_app_comm (carried e1)), app_assoc, E2, <- app_assoc.
      apply Permutation_app_head, Permutation_app_comm.
    + intros [= <- <- <-]. split; [done|]. rewrite app_nil_r in *. exact E.
  - intros ep n y n' l E0. apply set_variables_callback in E0 as (lost & E0 & _ & Hl). by rewrite Hl in E0.
Qed.

Lemma unwatch_settles w id : settles (D:=D) this [] (unwatch w id).
Proof. settles settles_leaf. Qed.
#[local] Hint Resolve unwatch_settles : settles.

Lemma watch_settles w id x : settles (D:=D) this [] (watch w id x).
Proof. apply settles_later; [apply unwatch_settles|]. settles settles_leaf. Qed.
#[local] Hint Resolve watch_settles : settles.

Lemma watch_group_settles w id g uuid start : settles (D:=D) this [] start -> settles this [] (watch_group w id g uuid start).
Proof.
  intros Hs. unfold watch_group. apply settles_ask. intros []; cbn [negb]; [destruct (bool_decide _); auto with settles|].
  apply settles_later; auto with settles.
Qed.

Lemma watch_node_settles r id flags : settles this [(this, r)] (watch_node_or_group env r id flags).
Proof.
  unfold watch_node_or_group. apply settles_ask. intros g. apply settles_ask. intros n.
  destruct n as [h|], g as [g|]; [| | |apply settles_error].
  all: repeat first [apply settles_ack | apply settles_later; [|intros _]]; try apply settles_ret.
  all: settles ltac:(first [apply watch_group_settles; settles_leaf | settles_leaf]).
Qed.

(** The requests whose answer does not depend on more. *)
Lemma dispatch_settles msg r : request_id msg = Some r ->
  match msg with Request.RequestNodeAsebaVMDescription _ _ | Request.CompileAndSave _ _ _ _ _ | Request.DeviceManagerShutdownRequest _ => False | _ => True end ->
  settles this [(this, r)] (dispatch env msg).
Proof.
  pose proof (fun ep l p (cb : callback) => compile_conserves (Some ep) (is_utf8_alpha_num env) (uninitialized env) (static_uid env) (partial_map env) l p cb).
  pose proof (fun ep l p (cb : callback) => alive_conserves ep _ _ (send_program_conserves (Some ep) (is_utf8_alpha_num env) (uninitialized env) (static_uid env) (partial_map env) l p cb)).
  pose proof (fun ep c (cb : callback) => alive_conserves ep _ _ (execution_command_conserves (Some ep) (is_utf8_alpha_num env) (uninitialized env) (static_uid env) c cb)).
  pose proof (fun ep l (cb : callback) => set_breakpoints_conserves (Some ep) l cb).
  intros Hr Hm. destruct msg; try done; injection Hr as <-; clear Hm; cbn [dispatch]; unfold with_id;
    settles ltac:(first [apply variables_settle | apply watch_node_settles | settles_leaf | apply settles_node; auto]).
Qed.

Lemma conserves_known {A B} g (r : res runtime_error A) (k : A -> Node.handler callback B) :
  (forall x, r = Ok x -> conserves g (k x)) -> conserves g (Node.lift r ≫= k).
Proof.
  intros Hk n a n' e. unfold Node.lift. cbv [mbind handler_bind]. destruct r as [x| | | |]; try done. cbn [mbind res_bind].
  destruct (k x n) as [[[y n1] e1]| | | |] eqn:E; try done. intros [= <- <- <-]. by eapply Hk.
Qed.

Lemma aseba_result f u st v desc defs p code0 y code map :
  do_compile_program f u st v desc defs Aseba p code0 = Ok (y, code, map) -> exists r, y = inl r.
Proof.
  cbn [do_compile_program]. destruct (UTF8ToWString p) as [src| | | |]; try done. cbn [mbind res_bind].
  destruct (Link.compile _ _ _ _) as [[[code' count|e linked] c]| | | |]; try done; [intros [= <- _ _]; eauto|].
  destruct (Errors.err_message e); try done. intros [= <- _ _]. eauto.
Qed.

(** The callback of [compile_and_save] is only for a language that is not
    supported. *)
Lemma save_conserves ep p (cb : callback) :
  conserves [] (compile_and_save (Some ep) (is_utf8_alpha_num env) (uninitialized env) (static_uid env) (partial_map env) Aseba p cb).
Proof.
  unfold compile_and_save. apply conserves_later; [conserves|intros _]. apply conserves_later; [conserves|intros defs].
  apply conserves_later; [conserves|intros n]. apply conserves_known. intros [[y code] map] Hy.
  apply aseba_result in Hy as [r ->]. apply conserves_later; [conserves|intros _]. cbv zeta.
  apply conserves_later; [|intros v; apply conserves_ret].
  destruct (find_var _ _ _) as [it|]; [|apply conserves_ret]. destruct (_ !! it) as [v|]; [|apply conserves_lift].
  destruct (v_value v); [apply conserves_lift|apply conserves_ret].
Qed.

Definition names (n : fb_node_id) (t : tdm D) : Prop :=
  exists id h, node_id (uninitialized_id env) n = Ok id /\ node_from_id id t = Some h.

Lemma description_settles r id (s : app * tdm D) x s' e : (exists h, node_from_id id (snd s) = Some h) -> good this s ->
  send_aseba_vm_description r id s = Ok (x, s', e) -> pending s ++ [(this, r)] ≡ₚ pending s' ++ carried e.
Proof.
  intros [h Hh] Hg. unfold send_aseba_vm_description, with_node. cbv [mbind action_bind ask]. rewrite Hh.
  destruct (t_nodes (snd s) !! h) as [o|]; [|done].
  destruct (write_message _ s) as [[[y s1] e1]| | | |] eqn:E; try done. intros [= <- <- <-]. apply (settles_write this) in E as [_ E]; [exact E|done].
Qed.

Lemma save_settles r id p o : settles (D:=D) this [(this, r)] (app_compile_and_save env r id Aseba p o).
Proof.
  unfold app_compile_and_save. apply settles_ask. intros [h|]; [|settles ltac:(settles_leaf)].
  apply settles_completion. apply settles_later; [apply settles_node; intros ep; apply save_conserves|].
  intros b. exact (settles_write this (create_save_response r id b)).
Qed.

(** C14: a request with a number whose handling returns is taken care of once:
    either one answer with its number joins the queue of the application, or its
    callback is kept by one node, or handed over once, to the endpoint of a node
    with messages, to a group or to an upgrade.  Not so for three requests: the
    description of a node that is not known and a request to shut down are not
    answered, and a program in another language than Aseba is answered twice.
    What becomes of a callback that was handed over is not stated here: the
    queue drops the one of an empty list of messages, and a group calls its own
    twice when a robot refuses. *)
Theorem request_answered msg r (s : app * tdm D) x s' e :
  request_id msg = Some r -> good this s -> handle_read env false msg s = Ok (x, s', e) ->
  match msg with
  | Request.RequestNodeAsebaVMDescription _ n => names n (snd s)
  | Request.CompileAndSave _ _ l _ _ => l = Aseba
  | Request.DeviceManagerShutdownRequest _ => False
  | _ => True
  end -> pending s ++ [(this, r)] ≡ₚ pending s' ++ carried e.
Proof.
  intros Hr Hg E Hm. cbv [handle_read mbind action_bind raise] in E.
  destruct (dispatch env msg s) as [[[y s1] e1]| | | |] eqn:Ed; try done. injection E as <- <- <-.
  change (carried (ReadMessage :: e1)) with (carried e1).
  destruct msg; try done; try (eapply dispatch_settles; done); injection Hr as ->; cbn [dispatch] in Ed.
  - destruct Hm as (i & h & Hi & Hh). cbv [with_id mbind action_bind of_res] in Ed. rewrite Hi in Ed. cbn in Ed.
    destruct (send_aseba_vm_description r i s) as [[[z s2] e2]| | | |] eqn:E2; try done. injection Ed as <- <- <-.
    eapply description_settles, E2; eauto.
  - subst. unfold with_id in Ed. eapply settles_later in Ed; [destruct Ed as [_ Ed]; exact Ed|apply settles_res| |done].
    intros i. apply save_settles.
Qed.
End Requests.

(** ** Samples *)

Lemma sample_good : good 5 (sample_app, sample_tdm).
Proof.
  split; [done|]. intros h o. cbn [snd sample_tdm t_nodes t_endpoints]. destruct (decide (h = 0%nat)) as [->|Hne].
  - rewrite lookup_singleton_eq. intros [= <-]. by eexists.
  - by rewrite lookup_singleton_ne by congruence.
Defined.

(** An application on the same machine stops a robot that it has not locked. *)
Lemma request_answered_witness : exists s' e,
  handle_read sample_environment false (Request.SetVMExecutionState 3 (Some (Some sample_uuid)) CommandStop) (sample_app, sample_tdm) = Ok (tt, s', e) /\
  pending (sample_app, sample_tdm) ++ [(5, 3)] ≡ₚ pending s' ++ carried e /\ carried e = [(5, 3)].
Proof.
  eexists _, _. match goal with |- ?P /\ _ => assert P as E end; [vm_compute; reflexivity|]. split; [exact E|].
  split; [exact (request_answered sample_environment 5 (Request.SetVMExecutionState 3 (Some (Some sample_uuid)) CommandStop) 3 _ _ _ _ eq_refl sample_good E I)|reflexivity].
Defined.

(** The number of answers to request 1 among the messages that wait. *)
Definition answers (m : action unit unit) (a : app) : option nat :=
  match m (a, sample_tdm) with
  | Ok (_, (a', _), e) => Some (List.length (List.filter (fun k => bool_decide (k = (app_id a, 1))) (replies a' ++ carried e)))
  | _ => None
  end.

(** An application that waits for the description of a robot that has gone
    waits forever. *)
Example unknown_description_unanswered :
  answers (handle_read sample_environment false (Request.RequestNodeAsebaVMDescription 1 (Some (Some [1])))) sample_app = Some 0%nat.
Proof. vm_compute. reflexivity. Qed.

(** A document that is to be saved for one robot is answered twice. *)
Example document_answered_twice :
  answers (handle_read sample_environment false (Request.CompileAndSave 1 (Some (Some sample_uuid)) Aesl [] 0))
    (set_m_locked_nodes [(sample_uuid, 0%nat)] sample_app) = Some 2%nat.
Proof. vm_compute. reflexivity. Qed.

(** The answer to a request that sets no variable is attached to no message:
    the queue of the endpoint drops it. *)
Example no_variables_unanswered :
  match handle_read sample_environment false (Request.SetVariables 1 (Some (Some sample_uuid)) (Some [])) (set_m_locked_nodes [(sample_uuid, 0%nat)] sample_app, sample_tdm) with
  | Ok (_, (a, _), e) => Some (m_queue a, List.filter (fun x => match x with NodeDoes _ (Write _ _) => true | _ => false end) e)
  | _ => None
  end = Some ([], [NodeDoes 0 (Write [] (AppWritten (5, 1)))]).
Proof. vm_compute. reflexivity. Qed.
